(* ===== verification/_CoqProject ===== *)
-Q . S2P
Prelude.v
PyText.v
PyDecimal.v
PyJson.v
PyNum.v
PyBase64.v
Fingerprint.v
UnitOfWork.v
Relational.v
Tables.v
Paging.v
Sql.v
SqlFacts.v
Migrations.v
Schema.v
Codec.v
Idempotency.v
Ledger.v
Chain.v
PayLink.v
Pricing.v
Invoice.v
IdentityDb.v
IdentityTables.v
Sessions.v
Orgs.v
Ciphers.v
Pydantic.v
Routes.v
IdentityApi.v
ApiFacts.v
Tokens.v
Admin.v
EventBus.v
Merchant.v
ObjectStore.v
MerchantApi.v
Outbox.v
Risk.v
Compliance.v
Relays.v
Templating.v
Lookup.v
Console.v
Delivery.v
Notify.v
Http.v
MerchantSecrets.v
InvoiceApi.v
PricingApi.v
Seeds.v
Flows.v
Settings.v
Clients.v
Tracing.v
Runners.v
Lifespan.v
ConsoleFlows.v
