(* ===== verification/Prelude.v ===== *)
(** * LinkMint backend: a verification development

    LinkMint settles payments through PayLinks.  Its Python services
    ([src/linkmint-backend]) share three libraries and follow one pattern: a
    request gets a database session, checks, changes rows, records an event in an
    outbox table of its own schema, commits, and publishes the event; a relay drains the
    outbox to Kafka, and other services consume the events, at least once.

    ** Parts of the program and the files that model them

    Shared ground:
    - [Prelude] (this file): outcomes and exceptions, JSON values, sums, list lemmas,
      tactics.
    - [PyText], [PyDecimal], [PyJson], [PyNum], [PyBase64]: the Python [str], [decimal.Decimal],
      [json.dumps], [uuid.UUID], [str(value)], float, base64 and hexadecimal operations that the
      sources use, with [go_json] of [paylink-service/app/chain/wire.py].
    - [UnitOfWork]: the session as a monad ([query], [write], [try_write], [commit],
      [effect], [catch]); [request] runs a handler on the committed database and keeps
      what it committed; [wp] with one rule per primitive, and [stable] for invariants
      of the database.
    - [Relational]: two runs of a handler from databases that a [view] cannot tell apart
      ([alike]), for the non-interference theorems.
    - [Tables]: tables keyed by an id, rows that only move along a relation ([moves]),
      unique columns, lookups by a column.
    - [Paging]: keyset pagination.
    - [Sql], [SqlFacts], [Migrations], [Schema], [Codec]: a relational engine (types, defaults, keys,
      unique and partial indexes, foreign keys), every Alembic revision and every mapped class of the
      eight services as data for it, and rows as values of the tables.
    - [Pydantic], [Routes]: request models (with the class [Lax] for what pydantic coerces), and how
      a router runs a request: body (a [RequestValidationError] with what was sent), path ids, unit of
      work, Idempotency-Key.
    - [Http]: [errors.py], [logging.py] and [create_app] of the services and the middleware of
      [telemetry-python]: the error tables as instances of the class [ErrorTable], handlers, envelope,
      correlation id, probes.

    Components (state, operations and theorems of each in one Module):
    - [Idempotency], [Fingerprint] ([idempotency-python]): the Idempotency-Key store over the
      class [RedisLike] (with a map-based instance), the route wrapper and both dedupe
      helpers; the canonical fingerprint of a payload.
    - [Ledger] ([ledger-python]): validation, posting, reversal and reads of the
      double-entry ledger.
    - [EventBus] ([eventbus-python]): canonical envelopes, topics, and the consumer loop
      over the class [KafkaClient].
    - [Outbox], [Relays] ([app/events/relay.py] of six services): one drain of an outbox over the
      class [BusProducer], the relay's loop, several relays on one table under
      [SKIP LOCKED] as a step relation [rstep]; the outbox of each service as its relay reads it.
    - [Chain], [PayLink] ([paylink-service]): transactions and their signable bytes, nonces,
      the RPC client; the PayLink lifecycle, its reconciliation with the chain, cancel,
      listing, request checks and the compliance gate.
    - [Pricing] ([fee-pricing-service]): quotes on [Decimal], rate locking, accruals and
      monthly invoices, merchant events.
    - [Invoice] ([invoice-subscription]): line arithmetic, the invoice lifecycle, settlement
      events and the overdue sweep; paylink-service is the class [PaylinkPort], and
      [client_port] is the HTTP client as an instance of it.
    - [PricingApi], [InvoiceApi] ([api/v1] of both services): the routes with their request and response
      models; the static FX rates and the internal gate of fee-pricing-service.
    - [IdentityDb], [Sessions], [Orgs] ([identity-service]): tables, roles and permissions;
      accounts, sessions, second factor, password reset, OAuth; organizations and API keys.
    - [IdentityTables]: the insert functions of [IdentityDb] against the schema the migrations build.
    - [IdentityApi], [ApiFacts] ([identity-service/app/api/v1], [security/oauth]): every route with its
      models and OAuth providers, and the theorems about the whole API.
    - [Ciphers] ([mfa_crypto.py], [bank_crypto.py], [provider_crypto.py], [keys.py], [chain/signer.py]):
      key formats, sealed tokens over the class [AESGCM], the public-key document, chain signatures.
    - [Tokens] ([security/jwt.py] and [get_principal] of six services): the payload identity-service
      signs and what each service reads from it; PyJWT is the class [PyJwt] with [PyJwtLaws].
    - [Admin], [Console] ([admin-backoffice]): the authorization gate on identity's claims;
      views and unified search over the HTTP providers, with the audit trail.
    - [Lookup] ([api/v1/internal_admin.py] of identity-service and merchant-onboarding): the
      searches behind the console, with [ILIKE] and its escaping.
    - [Merchant] ([merchant-onboarding]): the merchant state machine with its activation
      preconditions, bank accounts, contracts, documents, the event consumer.
    - [MerchantApi], [MerchantSecrets], [ObjectStore] ([merchant-onboarding/app/api/v1],
      [storage/object_store.py]): its routes and models, what becomes of account details, and the
      filesystem store of documents.
    - [Risk], [Compliance] ([compliance-risk]): the rules of the risk engine on IEEE doubles; KYC
      sessions, signed provider callbacks, evaluations, flags, activity, routes and consumer.
    - [Templating], [Delivery], [Notify] ([notification-service]): template rendering and lookup,
      masking; the delivery worker with its backoff, the channels and the Celery task; intake and
      fan-out with dedupe keys, inbox, preferences, recipients, routes and consumer.
    - [Flows]: compositions across services: the compliance gate of a create with compliance-risk
      answering it, a KYC result at compliance-risk and identity-service, bus events at
      notification-service.
    - [Settings] ([app/config.py] of the eight services): every setting with its type, default and
      variable; pydantic-settings is the class [BaseSettings].
    - [Lifespan] ([lifespan] of each [app/main.py]): what start-up assigns, opens and spawns in which
      order, and what shutdown releases, with every way a background task can end.
    - [Runners] ([app/busconsumer/run.py], [app/sweeper/run.py]): the handlers the consumers hand to the
      loop of [EventBus], with their topics and deduplication, and the turns of the two sweepers.
    - [Clients] ([notifications/client.py], [fx/http.py], [security/oauth/real.py]): what the services
      send to other systems and make of the answers; the posted notification answered by
      notification-service, the cached exchange rate.
    - [Tracing] ([linkmint_telemetry/provider.py], [app/logging.py]): whether and where spans are
      exported, and the lines of the log.
    - [Seeds]: quotes of fee-pricing-service on the database its migration seeds.
    - [ConsoleFlows]: the console over identity-service's lookup and paylink-service's listing.

    ** How state and operations correspond to the code

    A service's schema is a record of maps (tables by primary key) and lists (tables read in
    insertion order); unique and foreign keys are guards of the inserts, which raise
    [IntegrityError].  A status column is text, as in the database; the enumeration of the
    source maps to it by a [.._value] function.  What a rollback cannot undo (events published,
    transactions sent, PayLinks minted, counters in Redis, stored objects, enqueued tasks, audit
    records) is a second record.  One definition per method, with its guards and early returns in
    the order of the source; [AppError(ErrorCode.X)] is [AppError X], other exceptions are
    [PyError].  [uuid4()], tokens, salts, nonces and the current time are arguments.  Cryptography
    (SHA-256, HMAC, argon2, TOTP, AES-GCM, signatures), Redis, Kafka, the chain node, the FX and
    KYC providers, the message vendors, Celery's broker and HTTP transports are parameters or
    classes; what a theorem needs of them is a named hypothesis or a law of the class, and its
    witness gives a concrete instance.  Where the code can be interleaved inside a request, the model
    has the seam: [create_open]/[create_submit] of [PayLink], the argument [between] of an intake in
    [Notify], [run_begin]/[run_send]/[run_finish] of [Delivery], the steps of [rstep].

    ** What the theorems show

    - Money: the ledger is balanced after every sequence of posts and reversals, validation
      accepts exactly the balanced postings, a reversal undoes its group; quotes and invoice totals
      are the half-up integer formulas within the 28 digits of [Decimal] and conserve the gross;
      platform-fee books always match the accruals they stamp.
    - Lifecycles, over any sequence of requests and events: PayLinks, invoices and merchants keep
      their terms, move only along their state machines and never leave a terminal status; outbox
      rows are what was published; settlement comes only from the chain and is recorded once;
      an ACTIVE merchant has a verified account and a contract; an organization has an owner.
    - Exactly once and in the end: Idempotency-Key routes, consumer dedupe, settlement redelivery,
      invoice runs and merchant events; nonces grow as far as the client reads the node's answers, and for
      all transactions if the node reports those it took; notifications have unique dedupe keys and at most
      one accepted delivery; a delivery's task ends on its backoff schedule, settled unless a provider's
      answer could not be read; relays publish every committed
      event, never mark what they did not publish, and refine the step relation; a consumer skips
      exactly the events it processed within the TTL; a transition of a PayLink reaches its creator's
      inbox once and cannot fail because of it; overdue invoices are swept however many there are.
    - Risk and compliance: the engine's float score is the integer policy, tiers come only from signed
      callbacks and never fall, vendor data outside the allowlist leaves no trace, an evaluation
      records its decision, and the gate of a create refuses exactly whom the policy blocks, with the
      score and the flag at compliance-risk and nothing at paylink-service.
    - Accounts: refresh tokens work once and reuse ends the family, a password reset ends every
      session, a login's tokens mean that password, status and second factor were checked, those of a refresh
      or an OAuth sign-in that the session or the linked account is live, and tokens are read back
      unchanged by every service, API keys stay within their issuer's grants; over the HTTP API no
      read shows a secret, the secret of a key is shown once and stored nowhere, addresses stay
      distinct, ciphers open exactly what they sealed.
    - Tenants and secrets: what a merchant reads depends on the own invoices only, whatever others do;
      the bank account details of valid requests leave no trace but the encrypted reference; documents stay below the
      root of the store, which refines a map.
    - Schema: the migrations of every service run up and down and keep rows, every mapped class is
      typed against its table (INET columns take addresses only), and the hand-written identity tables refuse exactly what the
      schema refuses.
    - HTTP: every kind of error is answered with its code and status in the standard envelope, with the
      correlation id of the request; a quote answered adds up, is what was stored, breakdown
      included, and is replayed unchanged.
    - Console: every privileged read emits one audit record, whatever the sink makes of it; a failing provider degrades only
      itself, an audit outage breaks no read, searches are literal and complete.
    - Operation: settings depend on the variables of the service only and their defaults agree, start-up reads
      nothing before it is set, shutdown releases everything unless a task has died, the lines of a
      request carry its correlation id, and the sampling ratio is between 0 and 1.
    - Encodings: the wire JSON is injective and reads back, signable bytes, envelopes and fingerprints
      determine their content, rendering is substitution, listings are complete.
    - Behaviour that the code has and its comments do not claim: a create that failed on the chain
      cannot be retried, a cancel inside a create is lost, late accruals are never billed, a failed
      message is not redelivered, an event the producer refuses stops its relay, every account can
      pass the admin check of the gate, redelivered payments count twice, expired verifications
      still count, a refused delivery task is never enqueued again, a concurrent worker undoes SENT, the bus
      notifies nobody, free text is reported as an outage of paylink-service, a replay of a membership
      change is answered to any caller, an unexpected error carries no correlation id, a fresh
      database cannot quote cards in other currencies, a document key can reach a sibling of the root, a fee
      tier changed and changed back is lost, the sweeper bills a month at its first tick only, a
      redelivered approval stops its batch, a dead task breaks shutdown, logins without a subject share
      an account, a lost answer of the node lets a nonce be used again, a bank request that fails
      validation is answered with its account details.

    ** Bounds and fuel

    Recursion is structural except in four places: the decimal printer of [PyJson] takes the bit
    length of the number as fuel (proved enough by reading the number back), the JSON reader the
    size of the value ([read_print]), [replace] of [PyNum] the length of the text
    ([replace_chars_each] and [replace_chars_remove] show it is enough), and [deliver] of [Delivery]
    the retries Celery allows ([MAX_RETRIES], shown enough by [delivery_settles]).  [Paging.walk] follows
    cursors for as many pages as there are rows ([walk_complete]).  Amounts are integers kept to
    NUMERIC(38,0) where they are stored and to 28 digits where [Decimal] computes them; theorems that
    need the latter say so; a rate is stored as NUMERIC(38,18).  Text is its UTF-8 bytes, so character counts and case mapping are those of ASCII;
    JSON numbers are integers; times are integers.

    ** Not modelled

    Requests are executed one after the other on the committed database, except at the seams above.
    Left out are URL routing and dependency wiring, the metrics endpoint and the OpenTelemetry objects,
    the JSON text of log lines, PEM loading of the RSA key, the S3 client, the single-merchant view of the
    console, the waiting between the turns of relays, consumers and sweepers (turns are sequences), the
    Celery application object, the Alembic runner, the Go services and libraries, the chain, the M-Pesa
    adapter, the gateway configuration, the frontend and the SDK. *)
From stdpp Require Export base gmap list strings pretty numbers fin_maps sorting.

(** ** Outcomes of fallible code

    A Python call returns or raises.  [Ok] is the return, [Raise] the raised
    exception; every error path of the sources is a value of this type. *)

Inductive outcome (E A : Type) : Type :=
| Ok (a : A)
| Raise (e : E).
Arguments Ok {E A} a.
Arguments Raise {E A} e.

Definition obind {E A B} (m : outcome E A) (k : A → outcome E B) : outcome E B :=
  match m with
  | Ok a => k a
  | Raise e => Raise e
  end.

Definition is_ok {E A} (m : outcome E A) : bool :=
  match m with Ok _ => true | Raise _ => false end.

Declare Scope py_scope.
Delimit Scope py_scope with py.
Notation "'let?' x ':=' m 'in' k" := (obind m (λ x, k))
  (at level 10, x binder, m at level 100, k at level 200) : py_scope.
Open Scope py_scope.

Lemma obind_ok {E A B} (m : outcome E A) (k : A → outcome E B) b :
  obind m k = Ok b ↔ ∃ a, m = Ok a ∧ k a = Ok b.
Proof. destruct m; naive_solver. Qed.

Lemma obind_raise {E A B} (m : outcome E A) (k : A → outcome E B) e :
  obind m k = Raise e ↔ m = Raise e ∨ ∃ a, m = Ok a ∧ k a = Raise e.
Proof. destruct m; naive_solver. Qed.

(** Exceptions of the standard library and of the drivers that the sources let
    escape; a service's own [AppError(ErrorCode.X)] is [AppError X]. *)
Inductive pyerr :=
| ValueError | KeyError | TypeError | IntegrityError | DataError
| InvalidOperation | RpcError | RuntimeError | AttributeError | ValidationError | InvalidTag | OSError
| OverflowError.

#[global] Instance pyerr_eq_dec : EqDecision pyerr.
Proof. solve_decision. Defined.

Inductive exn (C : Type) : Type :=
| AppError (code : C)
| PyError (kind : pyerr).
Arguments AppError {C} code.
Arguments PyError {C} kind.

#[global] Instance exn_eq_dec `{EqDecision C} : EqDecision (exn C).
Proof. solve_decision. Defined.

(** ** JSON values: event payloads, metadata and request bodies *)

Inductive json :=
| JNull
| JBool (b : bool)
| JInt (z : Z)
| JStr (s : string)
| JList (l : list json)
| JObj (o : list (string * json)).

(** ** Python truthiness of the optional strings the guards test *)

Definition truthy (s : string) : bool := bool_decide (s ≠ "").

Definition otruthy (o : option string) : bool :=
  match o with Some s => truthy s | None => false end.

(** [a or b] on strings. *)
Definition str_or (o : option string) (d : string) : string :=
  match o with Some s => if truthy s then s else d | None => d end.

(** ** Sums *)

Fixpoint sumZ {A} (f : A → Z) (l : list A) : Z :=
  match l with
  | [] => 0
  | x :: l => f x + sumZ f l
  end%Z.

Lemma sumZ_app {A} (f : A → Z) l k : (sumZ f (l ++ k) = sumZ f l + sumZ f k)%Z.
Proof. induction l; simpl; lia. Qed.

Lemma sumZ_ext {A} (f g : A → Z) l :
  (∀ x, x ∈ l → f x = g x) → sumZ f l = sumZ g l.
Proof.
  induction l as [|x l IH]; intros H; simpl; [done|].
  rewrite (H x), IH; set_solver.
Qed.

Lemma sumZ_map {A B} (h : A → B) (f : B → Z) l :
  sumZ f (h <$> l) = sumZ (λ x, f (h x)) l.
Proof. induction l; simpl; [done|]. by f_equal. Qed.

Lemma sumZ_opp {A} (f : A → Z) l : (sumZ (λ x, - f x) l = - sumZ f l)%Z.
Proof. induction l; simpl; lia. Qed.

Lemma sumZ_add {A} (f g : A → Z) l :
  (sumZ (λ x, f x + g x) l = sumZ f l + sumZ g l)%Z.
Proof. induction l; simpl; lia. Qed.

Lemma sumZ_nonneg {A} (f : A → Z) l :
  (∀ x, x ∈ l → 0 ≤ f x)%Z → (0 ≤ sumZ f l)%Z.
Proof.
  induction l as [|x l IH]; intros H; simpl; [lia|].
  pose proof (H x ltac:(set_solver)). specialize (IH ltac:(set_solver)). lia.
Qed.

Lemma sumZ_filter_split {A} (P : A → Prop) `{∀ x, Decision (P x)} (f : A → Z) l :
  (sumZ f l = sumZ f (filter P l) + sumZ f (filter (λ x, ¬ P x) l))%Z.
Proof.
  induction l as [|x l IH]; [done|]. simpl sumZ.
  rewrite !filter_cons. repeat case_decide; simpl; try tauto; lia.
Qed.

Lemma sumZ_perm {A} (f : A → Z) l k : l ≡ₚ k → sumZ f l = sumZ f k.
Proof. induction 1; simpl; lia. Qed.

(** Two duplicate-free lists with the same elements. *)
Lemma NoDup_same_Permutation {A} (l k : list A) :
  NoDup l → NoDup k → (∀ x, x ∈ l ↔ x ∈ k) → l ≡ₚ k.
Proof. intros. by apply NoDup_Permutation. Qed.

Lemma NoDup_map_inj {A B} (f : A → B) (l : list A) x y :
  NoDup (f <$> l) → x ∈ l → y ∈ l → f x = f y → x = y.
Proof.
  intros Hnd [i Hi]%list_elem_of_lookup [j Hj]%list_elem_of_lookup Hk.
  assert (i = j) as ->; [|congruence].
  eapply NoDup_lookup; [done| |]; rewrite list_lookup_fmap; [by rewrite Hi|by rewrite Hj, Hk].
Qed.

Lemma head_filter_some {A} (P : A → Prop) `{∀ x, Decision (P x)} (l : list A) x :
  head (filter P l) = Some x → x ∈ l ∧ P x.
Proof.
  intros Hh. assert (x ∈ filter P l) as Hin by (destruct (filter P l); simplify_eq/=; set_solver).
  by apply list_elem_of_filter in Hin as [? ?].
Qed.

Lemma Forall_filter_sub {A} (P Q : A → Prop) `{∀ x, Decision (Q x)} (l : list A) :
  Forall P l → Forall P (filter Q l).
Proof. rewrite !Forall_forall. intros HP x [_ Hx]%list_elem_of_filter. by apply HP. Qed.

Lemma filter_all {A} (P : A → Prop) `{∀ x, Decision (P x)} (l : list A) :
  (∀ x, x ∈ l → P x) → filter P l = l.
Proof.
  induction l as [|x l IH]; intros Hl; [done|].
  rewrite filter_cons_True, IH; [done| |]; set_solver.
Qed.

Lemma filter_none {A} (P : A → Prop) `{∀ x, Decision (P x)} (l : list A) :
  (∀ x, x ∈ l → ¬ P x) → filter P l = [].
Proof.
  induction l as [|x l IH]; intros Hl; [done|].
  rewrite filter_cons_False, IH; [done| |]; set_solver.
Qed.

Lemma head_filter_none {A} (P : A → Prop) `{∀ x, Decision (P x)} (l : list A) :
  head (filter P l) = None ↔ ∀ x, x ∈ l → ¬ P x.
Proof.
  split.
  - intros Hh x Hx HP. assert (x ∈ filter P l) as Hin by by apply list_elem_of_filter.
    destruct (filter P l); [by apply elem_of_nil in Hin|done].
  - intros Hl. by rewrite filter_none.
Qed.

(** ** The development's automation

    [py_case] opens the innermost match or conditional that blocks a handler's
    evaluation; [py_run] evaluates a handler to its end, keeping the guards as
    hypotheses. *)

Ltac py_case :=
  match goal with
  | H : context [match ?x with _ => _ end] |- _ =>
      lazymatch x with
      | context [match _ with _ => _ end] => fail
      | _ => destruct x eqn:?
      end
  | |- context [match ?x with _ => _ end] =>
      lazymatch x with
      | context [match _ with _ => _ end] => fail
      | _ => destruct x eqn:?
      end
  end.

Ltac py_run := repeat (simplify_eq/=; try done; py_case); simplify_eq/=.

Create HintDb py discriminated.
Create Rewrite HintDb py_sums.
#[export] Hint Rewrite @sumZ_app @sumZ_map @sumZ_opp @sumZ_add : py_sums.
