(* ===== verification/PyText.v ===== *)
(** * Python text: the [str] operations the sources use

    Text is [string], one [ascii] per character (the sources handle ASCII
    identifiers, currency codes, addresses and JSON keys).  Case mapping and
    white space are those of Python on ASCII.  [uuid.UUID] is its 128-bit
    integer. *)
From S2P Require Import Prelude.
From Stdlib Require Import Ascii.

Abbreviation chars := String.list_ascii_of_string.
Abbreviation text := String.string_of_list_ascii.
Abbreviation uuid := N (only parsing).

Definition code (c : ascii) : N := N_of_ascii c.

Definition is_space (c : ascii) : bool :=
  let n := code c in ((9 <=? n) && (n <=? 13) || (28 <=? n) && (n <=? 32))%N.

Definition upper_char (c : ascii) : ascii :=
  let n := code c in
  if ((97 <=? n) && (n <=? 122))%N then ascii_of_N (n - 32) else c.

Definition lower_char (c : ascii) : ascii :=
  let n := code c in
  if ((65 <=? n) && (n <=? 90))%N then ascii_of_N (n + 32) else c.

Definition upper (s : string) : string := text (upper_char <$> chars s).
Definition lower (s : string) : string := text (lower_char <$> chars s).

Fixpoint drop_spaces (l : list ascii) : list ascii :=
  match l with
  | c :: l' => if is_space c then drop_spaces l' else l
  | [] => []
  end.

(** [s.strip()] *)
Definition strip (s : string) : string :=
  text (reverse (drop_spaces (reverse (drop_spaces (chars s))))).

(** [s.split(sep, 1)] for a one-character separator: [None] when absent. *)
Fixpoint cut_chars (sep : ascii) (l : list ascii) : option (list ascii * list ascii) :=
  match l with
  | [] => None
  | c :: l' =>
      if bool_decide (c = sep) then Some ([], l')
      else match cut_chars sep l' with
           | Some (a, b) => Some (c :: a, b)
           | None => None
           end
  end.

Definition cut (sep : ascii) (s : string) : option (string * string) :=
  match cut_chars sep (chars s) with
  | Some (a, b) => Some (text a, text b)
  | None => None
  end.

(** [s.split(sep)] *)
Fixpoint split_chars (sep : ascii) (cur : list ascii) (l : list ascii) : list (list ascii) :=
  match l with
  | [] => [reverse cur]
  | c :: l' =>
      if bool_decide (c = sep) then reverse cur :: split_chars sep [] l'
      else split_chars sep (c :: cur) l'
  end.

Definition split (sep : ascii) (s : string) : list string :=
  text <$> split_chars sep [] (chars s).

(** [sep in s] for one character. *)
Definition has_char (c : ascii) (s : string) : bool := bool_decide (c ∈ chars s).

Lemma text_chars s : text (chars s) = s.
Proof. apply String.string_of_list_ascii_of_string. Qed.

Lemma chars_text l : chars (text l) = l.
Proof. apply String.list_ascii_of_string_of_list_ascii. Qed.

Lemma chars_app (a b : string) : chars (a +:+ b) = chars a ++ chars b.
Proof. induction a as [|c a IH]; [done|]. simpl. f_equal. exact IH. Qed.

Lemma upper_char_idem c : upper_char (upper_char c) = upper_char c.
Proof. by destruct c as [[] [] [] [] [] [] [] []]. Qed.

Lemma lower_char_idem c : lower_char (lower_char c) = lower_char c.
Proof. by destruct c as [[] [] [] [] [] [] [] []]. Qed.

Lemma upper_idem s : upper (upper s) = upper s.
Proof.
  unfold upper. rewrite chars_text. f_equal.
  rewrite <- list_fmap_compose. apply list_fmap_ext. intros. apply upper_char_idem.
Qed.

Lemma lower_idem s : lower (lower s) = lower s.
Proof.
  unfold lower. rewrite chars_text. f_equal.
  rewrite <- list_fmap_compose. apply list_fmap_ext. intros. apply lower_char_idem.
Qed.

Lemma cut_chars_spec sep l a b :
  cut_chars sep l = Some (a, b) → l = a ++ sep :: b ∧ sep ∉ a.
Proof.
  revert a b. induction l as [|c l IH]; intros a b; simpl; [done|].
  case_bool_decide as Hc; subst.
  - intros [= <- <-]. split; [done|]. apply not_elem_of_nil.
  - destruct (cut_chars sep l) as [[a' b']|] eqn:E; [|done].
    intros [= <- <-]. destruct (IH a' b') as [-> ?]; [done|]. set_solver.
Qed.

Lemma cut_chars_none sep l : cut_chars sep l = None ↔ sep ∉ l.
Proof.
  induction l as [|c l IH]; simpl; [set_solver|].
  case_bool_decide as Hc; subst; [set_solver|].
  destruct (cut_chars sep l) as [[a' b']|]; set_solver.
Qed.

Lemma cut_spec sep s a b :
  cut sep s = Some (a, b) → s = (a +:+ String sep b)%string ∧ has_char sep a = false.
Proof.
  unfold cut, has_char. destruct (cut_chars sep (chars s)) as [[x y]|] eqn:E; [|done].
  intros [= <- <-]. apply cut_chars_spec in E as [E Hn]. split.
  - rewrite <- (text_chars s), E. clear. induction x; simpl; [done|].
    unfold String.app in *. simpl. by f_equal.
  - rewrite chars_text. by apply bool_decide_eq_false.
Qed.

Lemma cut_app sep a b : sep ∉ chars a → cut sep (a +:+ String sep b)%string = Some (a, b).
Proof.
  intros Ha. unfold cut. enough (cut_chars sep (chars (a +:+ String sep b)%string) = Some (chars a, chars b)) as -> by by rewrite !text_chars.
  induction a as [|c a IH]; simpl in *; [by rewrite bool_decide_true|]. rewrite bool_decide_false by set_solver. by rewrite IH by set_solver.
Qed.

Definition starts_solid (l : list ascii) : Prop := match l with c :: _ => is_space c = false | [] => True end.

Lemma drop_spaces_solid l : starts_solid (drop_spaces l).
Proof. induction l as [|c l IH]; simpl; [done|]. destruct (is_space c) eqn:E; [done|]. exact E. Qed.

Lemma drop_spaces_fix l : starts_solid l → drop_spaces l = l.
Proof. destruct l as [|c l]; simpl; [done|]. by intros ->. Qed.

Lemma drop_spaces_suffix l : ∃ a, l = a ++ drop_spaces l.
Proof. induction l as [|c l [a IH]]; simpl; [by exists []|]. destruct (is_space c); [|by exists []]. exists (c :: a). simpl. by f_equal. Qed.

Lemma strip_idem s : strip (strip s) = strip s.
Proof.
  unfold strip. rewrite chars_text. set (k := drop_spaces (chars s)). destruct (drop_spaces_suffix (reverse k)) as [a Ha].
  set (m := drop_spaces (reverse k)) in *. assert (Hk : k = reverse m ++ reverse a) by by rewrite <- (reverse_involutive k), Ha, reverse_app.
  assert (Hm : starts_solid (reverse m)).
  { pose proof (drop_spaces_solid (chars s)) as Hs. fold k in Hs. rewrite Hk in Hs. by destruct (reverse m). }
  rewrite (drop_spaces_fix _ Hm), reverse_involutive, (drop_spaces_fix m); [done|]. apply drop_spaces_solid.
Qed.

(** Fields joined by a separator that the first ones do not contain. *)
Lemma is_space_lower c : is_space (lower_char c) = is_space c.
Proof. destruct c as [[] [] [] [] [] [] [] []]; vm_compute; reflexivity. Qed.

Lemma drop_spaces_lower l : drop_spaces (lower_char <$> l) = lower_char <$> drop_spaces l.
Proof. induction l as [|c l IH]; [done|]. simpl. rewrite is_space_lower. by destruct (is_space c). Qed.

Lemma strip_lower s : strip (lower s) = lower (strip s).
Proof.
  unfold strip, lower. rewrite !chars_text, drop_spaces_lower, <- fmap_reverse, drop_spaces_lower.
  by rewrite <- fmap_reverse.
Qed.

Lemma app_sep_inj (sep : ascii) (a b c d : string) :
  has_char sep a = false → has_char sep b = false →
  (a +:+ String sep c = b +:+ String sep d)%string → a = b ∧ c = d.
Proof.
  unfold has_char. rewrite !bool_decide_eq_false. revert b.
  induction a as [|x a IH]; intros [|y b] Ha Hb; simpl; intros Heq; injection Heq as Heq; subst.
  - done.
  - set_solver.
  - set_solver.
  - destruct (IH b) as [-> ->]; try done; set_solver.
Qed.
