(* ===== verification/PyDecimal.v ===== *)
(** * Python [decimal.Decimal] under the default context

    Finite decimals as coefficient and exponent, with the default context's
    28-digit precision and ROUND_HALF_EVEN for arithmetic, and
    [quantize(Decimal(1), rounding=ROUND_HALF_UP)] as the services round money.
    Products, sums and quotients are those of the reference implementation
    ([_pydecimal]): exact result, then rounding to the precision.  Exponent
    limits and the special values (NaN, infinities) are left out. *)
From S2P Require Import Prelude.
From Stdlib Require Import Lia.
Open Scope Z_scope.

Record dec := Dec { coef : Z; expo : Z }.

Definition prec : Z := 28.

Definition dec_int (z : Z) : dec := Dec z 0.

Fixpoint ndig (fuel : nat) (c : Z) : Z :=
  match fuel with
  | O => 0
  | S f => if c <? 10 then 1 else 1 + ndig f (c / 10)
  end.

(** [len(self._int)] *)
Definition ndigits (c : Z) : Z := ndig (S (Z.to_nat (Z.log2 (Z.abs c)))) (Z.abs c).

(** [c / d] for [0 <= c], [0 < d], to the nearest, ties to even. *)
Definition half_even (c d : Z) : Z :=
  let q := c / d in
  let r := c mod d in
  if 2 * r <? d then q
  else if d <? 2 * r then q + 1
  else if Z.even q then q else q + 1.

(** Rounding of an exact result to the context's precision. *)
Definition dec_fix (d : dec) : dec :=
  if Z.abs (coef d) <? 10 ^ prec then d
  else
    let k := ndigits (coef d) - prec in
    let c := half_even (Z.abs (coef d)) (10 ^ k) in
    if c <? 10 ^ prec then Dec (Z.sgn (coef d) * c) (expo d + k)
    else Dec (Z.sgn (coef d) * (c / 10)) (expo d + k + 1).

Definition dec_mul (a b : dec) : dec := dec_fix (Dec (coef a * coef b) (expo a + expo b)).

Definition dec_add (a b : dec) : dec :=
  let e := Z.min (expo a) (expo b) in
  dec_fix (Dec (coef a * 10 ^ (expo a - e) + coef b * 10 ^ (expo b - e)) e).

(** The loop that drops trailing zeros of an exact quotient. *)
Fixpoint strip_zeros (fuel : nat) (c e ideal : Z) : Z * Z :=
  match fuel with
  | O => (c, e)
  | S f => if (e <? ideal) && (c mod 10 =? 0) then strip_zeros f (c / 10) (e + 1) ideal else (c, e)
  end.

(** [a / b]; [None] for division by zero. *)
Definition dec_div (a b : dec) : option dec :=
  if coef b =? 0 then None
  else if coef a =? 0 then Some (Dec 0 (expo a - expo b))
  else
    let shift := ndigits (coef b) - ndigits (coef a) + prec + 1 in
    let e := expo a - expo b - shift in
    let n := if 0 <=? shift then Z.abs (coef a) * 10 ^ shift else Z.abs (coef a) in
    let d := if 0 <=? shift then Z.abs (coef b) else Z.abs (coef b) * 10 ^ (- shift) in
    let s := Z.sgn (coef a) * Z.sgn (coef b) in
    if n mod d =? 0 then
      let '(c, e') := strip_zeros (Z.to_nat shift + 1) (n / d) e (expo a - expo b) in
      Some (dec_fix (Dec (s * c) e'))
    else
      let q := n / d in
      Some (dec_fix (Dec (s * (if q mod 5 =? 0 then q + 1 else q)) e)).

(** Nearest integer, halves away from zero (ROUND_HALF_UP). *)
Definition half_up (d : dec) : Z :=
  if 0 <=? expo d then coef d * 10 ^ expo d
  else
    let p := 10 ^ (- expo d) in
    Z.sgn (coef d) * ((2 * Z.abs (coef d) + p) / (2 * p)).

(** [d.quantize(Decimal(1), rounding=ROUND_HALF_UP)]: [None] is
    [InvalidOperation], raised when the result has more than 28 digits. *)
Definition quantize0 (d : dec) : option Z :=
  if Z.abs (half_up d) <? 10 ^ prec then Some (half_up d) else None.

(** Comparison by value. *)
Definition dec_compare (a b : dec) : comparison :=
  let e := Z.min (expo a) (expo b) in
  coef a * 10 ^ (expo a - e) ?= coef b * 10 ^ (expo b - e).

(** ** Digits *)

Lemma ndig_bounds fuel c :
  0 < c → c < 2 ^ Z.of_nat fuel → 10 ^ (ndig fuel c - 1) ≤ c < 10 ^ ndig fuel c.
Proof.
  revert c. induction fuel as [|f IH]; intros c Hc Hf; [simpl in Hf; lia|].
  cbn [ndig]. destruct (Z.ltb_spec c 10) as [H|H]; [simpl; lia|].
  rewrite Nat2Z.inj_succ, Z.pow_succ_r in Hf by lia.
  assert (Hd : c / 10 < 2 ^ Z.of_nat f) by (apply Z.div_lt_upper_bound; lia).
  assert (Hp : 0 < c / 10) by (apply Z.div_str_pos; lia).
  specialize (IH (c / 10) Hp Hd).
  assert (1 ≤ ndig f (c / 10)) as Hn.
  { destruct f; [simpl in Hd; lia|]. cbn [ndig]. destruct (_ <? 10); [lia|].
    assert (∀ g d, 0 ≤ ndig g d) as Hnn.
    { clear. induction g as [|g IHg]; intros d; simpl; [lia|]. destruct (_ <? 10); [lia|].
      specialize (IHg (d / 10)). lia. }
    specialize (Hnn f (c / 10 / 10)). lia. }
  pose proof (Z.div_mod c 10 ltac:(lia)). pose proof (Z.mod_pos_bound c 10 ltac:(lia)).
  replace (1 + ndig f (c / 10) - 1) with (Z.succ (ndig f (c / 10) - 1)) by lia.
  replace (1 + ndig f (c / 10)) with (Z.succ (ndig f (c / 10))) by lia.
  rewrite !Z.pow_succ_r by lia. lia.
Qed.

Lemma ndigits_bounds c : c ≠ 0 → 10 ^ (ndigits c - 1) ≤ Z.abs c < 10 ^ ndigits c.
Proof.
  intros Hc. apply ndig_bounds; [lia|].
  pose proof (Z.log2_spec (Z.abs c) ltac:(lia)). pose proof (Z.log2_nonneg (Z.abs c)).
  rewrite Nat2Z.inj_succ, Z2Nat.id by lia. lia.
Qed.

Lemma pow10_lt a b : 10 ^ a < 10 ^ b → a < b.
Proof.
  intros H. destruct (Z.lt_ge_cases a b) as [|Hge]; [done|].
  destruct (Z.neg_nonneg_cases a); [rewrite Z.pow_neg_r in H by lia|].
  - rewrite (Z.pow_neg_r 10 b) in H; lia.
  - pose proof (Z.pow_le_mono_r 10 b a ltac:(lia) ltac:(lia)). lia.
Qed.

Lemma ndigits_le c k : 0 ≤ k → c ≠ 0 → Z.abs c < 10 ^ k → ndigits c ≤ k.
Proof.
  intros Hk Hc H. pose proof (ndigits_bounds c Hc).
  assert (ndigits c - 1 < k) by (apply pow10_lt; lia). lia.
Qed.

(** ** Exactness below the precision *)

Lemma dec_fix_small d : Z.abs (coef d) < 10 ^ prec → dec_fix d = d.
Proof. intros H. unfold dec_fix. by rewrite (proj2 (Z.ltb_lt _ _) H). Qed.

Lemma dec_mul_exact a b :
  Z.abs (coef a * coef b) < 10 ^ prec → dec_mul a b = Dec (coef a * coef b) (expo a + expo b).
Proof. intros H. by apply dec_fix_small. Qed.

Lemma dec_add_int_exact a b :
  Z.abs (a + b) < 10 ^ prec → dec_add (dec_int a) (dec_int b) = dec_int (a + b).
Proof.
  intros H. unfold dec_add, dec_int; simpl. rewrite !Z.mul_1_r. by apply dec_fix_small.
Qed.

Lemma half_up_int z : half_up (dec_int z) = z.
Proof. unfold half_up; simpl. lia. Qed.

Lemma quantize0_int z : Z.abs z < 10 ^ prec → quantize0 (dec_int z) = Some z.
Proof. intros H. unfold quantize0. rewrite half_up_int. by rewrite (proj2 (Z.ltb_lt _ _) H). Qed.

(** Rounding half up depends on the value only. *)
Lemma half_up_scale c e k : 0 ≤ k → half_up (Dec (c * 10 ^ k) (e - k)) = half_up (Dec c e).
Proof.
  intros Hk. unfold half_up; simpl.
  assert (0 < 10 ^ k) as Hp by (apply Z.pow_pos_nonneg; lia).
  destruct (Z.leb_spec 0 (e - k)) as [H1|H1], (Z.leb_spec 0 e) as [H2|H2]; try lia.
  - rewrite <- Z.mul_assoc, <- Z.pow_add_r by lia. do 2 f_equal. lia.
  - assert (Hs : 10 ^ k = 10 ^ e * 10 ^ (- (e - k))) by (rewrite <- Z.pow_add_r by lia; f_equal; lia).
    assert (0 < 10 ^ (- (e - k))) as Hq by (apply Z.pow_pos_nonneg; lia).
    assert (0 < 10 ^ e) as He by (apply Z.pow_pos_nonneg; lia).
    rewrite Hs, Z.sgn_mul, Z.abs_mul, (Z.sgn_pos (_ * _)), (Z.abs_eq (_ * _)) by nia.
    replace (2 * (Z.abs c * (10 ^ e * 10 ^ (- (e - k)))) + 10 ^ (- (e - k)))
      with (10 ^ (- (e - k)) * 1 + Z.abs c * 10 ^ e * (2 * 10 ^ (- (e - k)))) by ring.
    rewrite Z.div_add by lia. rewrite (Z.div_small (10 ^ (- (e - k)) * 1)) by lia.
    rewrite Z.mul_1_r, Z.add_0_l, Z.mul_assoc, (Z.mul_comm (Z.sgn c)). by rewrite Z.abs_sgn.
  - rewrite Z.sgn_mul, Z.abs_mul, (Z.sgn_pos (10 ^ k)), (Z.abs_eq (10 ^ k)), Z.mul_1_r by lia.
    f_equal. replace (- (e - k)) with (- e + k) by lia. rewrite Z.pow_add_r by lia.
    replace (2 * (Z.abs c * 10 ^ k) + 10 ^ (- e) * 10 ^ k) with ((2 * Z.abs c + 10 ^ (- e)) * 10 ^ k) by ring.
    rewrite Z.mul_assoc. apply Z.div_mul_cancel_r; [|lia].
    assert (0 < 10 ^ (- e)) by (apply Z.pow_pos_nonneg; lia). lia.
Qed.

(** ** Exact division by a power of ten *)

Lemma pow10_pred c k : 0 < k → c * 10 ^ k = c * 10 ^ (k - 1) * 10.
Proof. intros. replace k with (Z.succ (k - 1)) at 1 by lia. rewrite Z.pow_succ_r by lia. ring. Qed.

Lemma strip_zeros_spec fuel c e ideal k :
  0 < c → 0 ≤ k → e + k ≤ ideal → (Z.to_nat k ≤ fuel)%nat →
  ∃ j c' , k ≤ j ∧ strip_zeros fuel (c * 10 ^ k) e ideal = (c', e + j) ∧
    c * 10 ^ k = c' * 10 ^ j ∧ 0 < c' ∧ (e + j ≤ ideal).
Proof.
  revert c e k. induction fuel as [|f IH]; intros c e k Hc Hk He Hf.
  { assert (k = 0) as -> by lia. exists 0, (c * 10 ^ 0). simpl. rewrite Z.add_0_r. repeat split; lia. }
  cbn [strip_zeros]. destruct ((e <? ideal) && (c * 10 ^ k mod 10 =? 0)) eqn:E; last first.
  { assert (k = 0) as ->.
    { destruct (Z.eq_dec k 0) as [|Hk0]; [done|]. apply andb_false_iff in E as [E|E]; [lia|].
      apply Z.eqb_neq in E. destruct E. rewrite pow10_pred by lia. by apply Z.mod_mul. }
    exists 0, (c * 10 ^ 0). rewrite Z.add_0_r. repeat split; lia. }
  apply andb_true_iff in E as [E1%Z.ltb_lt E2%Z.eqb_eq].
  destruct (Z.eq_dec k 0) as [->|Hk0].
  - rewrite Z.pow_0_r, Z.mul_1_r in *. pose proof (Z.div_mod c 10 ltac:(lia)) as Hdm.
    assert (0 < c / 10) by lia.
    destruct (IH (c / 10) (e + 1) 0) as (j & c' & Hj & Hs & Hv & Hpos & Hle); try lia.
    rewrite Z.pow_0_r, Z.mul_1_r in *. exists (1 + j), c'. rewrite Hs.
    repeat split; try lia; [f_equal; lia|]. rewrite Z.pow_add_r by lia. lia.
  - rewrite (pow10_pred c k), Z.div_mul by lia.
    destruct (IH c (e + 1) (k - 1)) as (j & c' & Hj & Hs & Hv & Hpos & Hle); try lia.
    exists (1 + j), c'. rewrite Hs. repeat split; try lia; [f_equal; lia|].
    rewrite Z.pow_add_r by lia. lia.
Qed.

(** [Decimal(n) / 10**k], as the basis-point fees divide: exact. *)
Lemma dec_div_pow10 n k :
  0 < n → n < 10 ^ prec → 0 ≤ k ≤ 28 →
  ∃ d, dec_div (dec_int n) (dec_int (10 ^ k)) = Some d ∧ half_up d = half_up (Dec n (- k)).
Proof.
  intros Hn Hlt Hk. unfold dec_div. simpl.
  assert (0 < 10 ^ k) as Hp by (apply Z.pow_pos_nonneg; lia).
  rewrite (proj2 (Z.eqb_neq (10 ^ k) 0)), (proj2 (Z.eqb_neq n 0)) by lia.
  pose proof (ndigits_le n prec ltac:(done) ltac:(lia) ltac:(lia)) as Hd.
  pose proof (ndigits_bounds (10 ^ k) ltac:(lia)) as [Hb1 Hb2].
  rewrite Z.abs_eq in Hb1, Hb2 by lia. apply pow10_lt in Hb2.
  unfold prec in *. set (shift := ndigits (10 ^ k) - ndigits n + 28 + 1).
  assert (Hs : k + 2 ≤ shift) by lia.
  rewrite (proj2 (Z.leb_le 0 shift)), !Z.abs_eq, !Z.sgn_pos by lia.
  replace (n * 10 ^ shift) with (n * 10 ^ (shift - k) * 10 ^ k)
    by (rewrite <- Z.mul_assoc, <- Z.pow_add_r by lia; do 2 f_equal; lia).
  rewrite Z.mod_mul, Z.div_mul by lia. simpl.
  replace (0 - 0 - shift) with (- shift) by lia. change (0 - 0) with 0.
  destruct (strip_zeros_spec (Z.to_nat shift + 1) n (- shift) 0 (shift - k))
    as (j & c & Hj & -> & Hv & Hc & Hle); try lia.
  eexists. split; [done|].
  assert (Hcn : c * 10 ^ (j - (shift - k)) = n).
  { assert (0 < 10 ^ (shift - k)) by (apply Z.pow_pos_nonneg; lia).
    apply (Z.mul_reg_r _ _ (10 ^ (shift - k))); [lia|].
    rewrite <- Z.mul_assoc, <- Z.pow_add_r, Hv by lia. do 2 f_equal. lia. }
  assert (0 < 10 ^ (j - (shift - k))) by (apply Z.pow_pos_nonneg; lia).
  rewrite dec_fix_small by (unfold prec; simpl coef; rewrite !Z.mul_1_l, Z.abs_eq; nia).
  rewrite <- Hcn, !Z.mul_1_l.
  replace (- k) with (- shift + j - (j - (shift - k))) by lia.
  rewrite half_up_scale by lia. done.
Qed.
