(* ===== verification/PyJson.v ===== *)
(** * json.dumps, compact, and Go's encoding of it

    [json.dumps(obj, separators=(",", ":"), ensure_ascii=False)] on the JSON
    values of the development (integers only: amounts are integer minor units),
    [go_json] of [paylink-service/app/chain/wire.py], which also escapes
    [& < >], and a reader of the compact form, which shows that the encodings
    lose nothing.  Text is bytes (UTF-8), so [ensure_ascii=False] leaves every
    byte from 0x20 up, other than the quote and the backslash, as it is. *)
From S2P Require Import Prelude PyText.
From Stdlib Require Import Ascii.

(** Induction through the lists of a JSON value. *)
Lemma json_ind_strong (P : json → Prop) :
  P JNull → (∀ b, P (JBool b)) → (∀ z, P (JInt z)) → (∀ s, P (JStr s)) →
  (∀ l, Forall P l → P (JList l)) →
  (∀ o, Forall (λ kv, P kv.2) o → P (JObj o)) → ∀ j, P j.
Proof.
  intros Hn Hb Hi Hs Hl Ho. fix IH 1. intros [|b|z|s|l|o]; [done|apply Hb|apply Hi|apply Hs| |].
  - apply Hl. induction l as [|x l IHl]; constructor; [apply IH|done].
  - apply Ho. induction o as [|[k v] o IHo]; constructor; [apply IH|done].
Qed.

Module PyJson.

(** ** Decimal numbers *)

Definition digit (n : N) : ascii := ascii_of_N (48 + n).

Fixpoint digits_of (fuel : nat) (n : N) (acc : list ascii) : list ascii :=
  match fuel with
  | O => acc
  | S fuel' =>
      let acc' := digit (n mod 10) :: acc in
      if (n <? 10)%N then acc' else digits_of fuel' (n / 10) acc'
  end.

(** The decimal text of a natural number: a number has at most as many decimal
    digits as bits. *)
Definition print_N (n : N) : list ascii := digits_of (S (N.to_nat (N.size n))) n [].

Definition print_Z (z : Z) : list ascii :=
  match z with
  | Z0 => ["0"%char]
  | Zpos p => print_N (Npos p)
  | Zneg p => "-"%char :: print_N (Npos p)
  end.

(** ** Strings *)

Definition dquote : ascii := ascii_of_N 34.

Definition hex (n : N) : ascii :=
  if (n <? 10)%N then ascii_of_N (48 + n) else ascii_of_N (87 + n).

Definition u_escape (n : N) : list ascii :=
  ["\"; "u"; "0"; "0"; hex (n / 16); hex (n mod 16)]%char.

Definition escape (c : ascii) : list ascii :=
  let n := N_of_ascii c in
  if (n =? 34)%N then ["\"%char; dquote]
  else if (n =? 92)%N then ["\"; "\"]%char
  else if (n =? 10)%N then ["\"; "n"]%char
  else if (n =? 13)%N then ["\"; "r"]%char
  else if (n =? 9)%N then ["\"; "t"]%char
  else if (n =? 8)%N then ["\"; "b"]%char
  else if (n =? 12)%N then ["\"; "f"]%char
  else if (n <? 32)%N then u_escape n
  else [c].

(** ** Values *)

Fixpoint join (sep : ascii) (ls : list (list ascii)) : list ascii :=
  match ls with
  | [] => []
  | [l] => l
  | l :: ls' => l ++ sep :: join sep ls'
  end.

Section print.
Variable esc : ascii → list ascii.

Definition quoted (s : string) : list ascii := dquote :: (chars s ≫= esc) ++ [dquote].

Fixpoint print (j : json) : list ascii :=
  match j with
  | JNull => chars "null"
  | JBool true => chars "true"
  | JBool false => chars "false"
  | JInt z => print_Z z
  | JStr s => quoted s
  | JList l => "["%char :: join ","%char (print <$> l) ++ ["]"%char]
  | JObj o => "{"%char ::
      join ","%char ((λ '(k, v), quoted k ++ ":"%char :: print v) <$> o) ++ ["}"%char]
  end.
End print.

Definition dumps (j : json) : string := text (print escape j).

(** [text.replace("&", "\u0026")] and so on, one character at a time: the three
    replacements introduce none of the three characters. *)
Definition go_char (c : ascii) : list ascii :=
  let n := N_of_ascii c in
  if (n =? 38)%N || (n =? 60)%N || (n =? 62)%N then u_escape n else [c].

Definition go_json (j : json) : string := text (chars (dumps j) ≫= go_char).

(** ** A reader of the compact form *)

Definition digit_val (c : ascii) : option N :=
  let n := N_of_ascii c in
  if (48 <=? n)%N && (n <=? 57)%N then Some (n - 48)%N else None.

Definition hex_val (c : ascii) : option N :=
  let n := N_of_ascii c in
  if (48 <=? n)%N && (n <=? 57)%N then Some (n - 48)%N
  else if (97 <=? n)%N && (n <=? 102)%N then Some (n - 87)%N else None.

Fixpoint read_digits (v : N) (l : list ascii) : N * list ascii :=
  match l with
  | c :: l' => match digit_val c with
               | Some d => read_digits (10 * v + d) l'
               | None => (v, l)
               end
  | [] => (v, [])
  end.

(** One (possibly escaped) character of a string. *)
Definition read_char (l : list ascii) : option (ascii * list ascii) :=
  match l with
  | "\"%char :: "u"%char :: "0"%char :: "0"%char :: a :: b :: l' =>
      match hex_val a, hex_val b with
      | Some x, Some y => Some (ascii_of_N (16 * x + y), l')
      | _, _ => None
      end
  | "\"%char :: "n"%char :: l' => Some (ascii_of_N 10, l')
  | "\"%char :: "r"%char :: l' => Some (ascii_of_N 13, l')
  | "\"%char :: "t"%char :: l' => Some (ascii_of_N 9, l')
  | "\"%char :: "b"%char :: l' => Some (ascii_of_N 8, l')
  | "\"%char :: "f"%char :: l' => Some (ascii_of_N 12, l')
  | "\"%char :: c :: l' => Some (c, l')
  | c :: l' => Some (c, l')
  | [] => None
  end.

Fixpoint read_string (fuel : nat) (acc : list ascii) (l : list ascii) : option (string * list ascii) :=
  match fuel, l with
  | S fuel', c :: l' =>
      if bool_decide (c = dquote) then Some (text (reverse acc), l')
      else match read_char l with
           | Some (c', l'') => read_string fuel' (c' :: acc) l''
           | None => None
           end
  | _, _ => None
  end.

Fixpoint read (fuel : nat) (l : list ascii) {struct fuel} : option (json * list ascii) :=
  match fuel with
  | O => None
  | S fuel' =>
      match l with
      | "n"%char :: l' => Some (JNull, drop 3 l')
      | "t"%char :: l' => Some (JBool true, drop 3 l')
      | "f"%char :: l' => Some (JBool false, drop 4 l')
      | "["%char :: "]"%char :: l' => Some (JList [], l')
      | "["%char :: l' => match read_items fuel' l' with
                          | Some (js, l'') => Some (JList js, l'')
                          | None => None
                          end
      | "{"%char :: "}"%char :: l' => Some (JObj [], l')
      | "{"%char :: l' => match read_members fuel' l' with
                          | Some (js, l'') => Some (JObj js, l'')
                          | None => None
                          end
      | "-"%char :: l' => let '(n, l'') := read_digits 0 l' in Some (JInt (- Z.of_N n), l'')
      | c :: l' =>
          if bool_decide (c = dquote)
          then match read_string (length l) [] l' with
               | Some (s, l'') => Some (JStr s, l'')
               | None => None
               end
          else let '(n, l'') := read_digits 0 l in Some (JInt (Z.of_N n), l'')
      | [] => None
      end
  end
with read_items (fuel : nat) (l : list ascii) {struct fuel} : option (list json * list ascii) :=
  match fuel with
  | O => None
  | S fuel' =>
      match read fuel' l with
      | Some (j, ","%char :: l') =>
          match read_items fuel' l' with
          | Some (js, l'') => Some (j :: js, l'')
          | None => None
          end
      | Some (j, "]"%char :: l') => Some ([j], l')
      | _ => None
      end
  end
with read_members (fuel : nat) (l : list ascii) {struct fuel} :
    option (list (string * json) * list ascii) :=
  match fuel with
  | O => None
  | S fuel' =>
      match l with
      | _ :: l0 =>
          match read_string (length l) [] l0 with
          | Some (k, ":"%char :: l1) =>
              match read fuel' l1 with
              | Some (j, ","%char :: l') =>
                  match read_members fuel' l' with
                  | Some (js, l'') => Some ((k, j) :: js, l'')
                  | None => None
                  end
              | Some (j, "}"%char :: l') => Some ([(k, j)], l')
              | _ => None
              end
          | _ => None
          end
      | [] => None
      end
  end.

(** ** Numbers are read back *)

Definition no_digit (l : list ascii) : Prop :=
  match l with c :: _ => digit_val c = None | [] => True end.

Lemma digit_val_digit d : (d < 10)%N → digit_val (digit d) = Some d.
Proof.
  intros H. assert (∃ k : nat, d = N.of_nat k ∧ (k < 10)%nat) as (k & -> & Hk).
  { exists (N.to_nat d). lia. }
  do 10 (destruct k as [|k]; [done|]). lia.
Qed.

Lemma read_digits_of fuel n acc :
  (n < 2 ^ N.of_nat fuel)%N →
  ∃ m, ∀ v, read_digits v (digits_of (S fuel) n acc) = read_digits (v * 10 ^ m + n)%N acc.
Proof.
  revert n acc. induction fuel as [|fuel IH]; intros n acc Hf.
  { assert (n = 0)%N as -> by (simpl in Hf; lia). exists 1%N. intros v. simpl. f_equal. lia. }
  remember (S fuel) as fuel1 eqn:Hfuel. simpl. destruct (n <? 10)%N eqn:E.
  - apply N.ltb_lt in E. exists 1%N. intros v. simpl.
    rewrite N.mod_small, digit_val_digit by done. f_equal. lia.
  - apply N.ltb_ge in E. subst fuel1. destruct (IH (n / 10)%N (digit (n mod 10) :: acc)) as [m Hm].
    { rewrite Nat2N.inj_succ, N.pow_succ_r' in Hf. apply N.Div0.div_lt_upper_bound. lia. }
    exists (m + 1)%N. intros v. rewrite Hm. simpl.
    rewrite digit_val_digit by (apply N.mod_lt; lia). f_equal.
    pose proof (N.div_mod n 10). rewrite N.pow_add_r. lia.
Qed.

Lemma read_digits_stop v l : no_digit l → read_digits v l = (v, l).
Proof. destruct l as [|c l]; simpl; [done|]. by intros ->. Qed.

Lemma digits_of_app fuel n acc : digits_of fuel n acc = digits_of fuel n [] ++ acc.
Proof.
  revert n acc. induction fuel as [|fuel IH]; intros n acc; simpl; [done|].
  destruct (n <? 10)%N; [done|]. by rewrite IH, (IH _ [_]), <- app_assoc.
Qed.

Lemma read_print_N n rest : no_digit rest → read_digits 0 (print_N n ++ rest) = (n, rest).
Proof.
  intros Hr. unfold print_N. rewrite <- digits_of_app.
  destruct (read_digits_of (N.to_nat (N.size n)) n rest) as [m ->].
  - rewrite N2Nat.id. apply N.size_gt.
  - by rewrite read_digits_stop, N.mul_0_l, N.add_0_l.
Qed.

(** A printed number starts with a digit. *)
(** Decimal text identifies a number. *)
Definition show_N (n : N) : string := text (print_N n).

#[global] Instance show_N_inj : Inj (=) (=) show_N.
Proof.
  intros n m Hs. assert (Hp : print_N n = print_N m).
  { rewrite <- (chars_text (print_N n)), <- (chars_text (print_N m)).
    unfold show_N in Hs. by rewrite Hs. }
  pose proof (read_print_N n [] I) as Hn. pose proof (read_print_N m [] I) as Hm. congruence.
Qed.

Lemma print_N_head n : ∃ d l, print_N n = digit d :: l ∧ (d < 10)%N.
Proof.
  unfold print_N. generalize (N.to_nat (N.size n)) as fuel. intros fuel.
  assert (∀ acc, ∃ d l, digits_of (S fuel) n acc = digit d :: l ∧ (d < 10)%N); [|done].
  revert n. induction fuel as [|fuel IH]; intros n acc; cbn [digits_of].
  - destruct (n <? 10)%N; (eexists _, _; split; [done|]; apply N.mod_lt; lia).
  - destruct (n <? 10)%N; [eexists _, _; split; [done|]; apply N.mod_lt; lia|apply IH].
Qed.

(** ** Strings are read back *)

Section roundtrip.
Variable esc : ascii → list ascii.
Hypothesis esc_read : ∀ c rest, read_char (esc c ++ rest) = Some (c, rest).
Hypothesis esc_head : ∀ c, ∃ x l, esc c = x :: l ∧ x ≠ dquote.

Lemma read_string_quoted l acc fuel rest :
  (length (l ≫= esc) < fuel)%nat →
  read_string fuel acc ((l ≫= esc) ++ dquote :: rest) = Some (text (reverse acc ++ l), rest).
Proof.
  revert acc fuel. induction l as [|c l IH]; intros acc fuel Hf.
  { simpl in Hf. destruct fuel; [lia|]. simpl. by rewrite app_nil_r. }
  rewrite bind_cons in Hf |- *.
  rewrite length_app in Hf. destruct fuel as [|fuel]; [lia|].
  destruct (esc_head c) as (x & e & He & Hx). pose proof (esc_read c) as Hr.
  rewrite <- app_assoc. rewrite He in Hr, Hf |- *. cbn [length app] in *. cbn [read_string].
  rewrite bool_decide_eq_false_2, Hr by done.
  rewrite IH by lia. rewrite reverse_cons, <- app_assoc. done.
Qed.

Lemma read_quoted s rest :
  read_string (length (quoted esc s ++ rest)) [] ((chars s ≫= esc) ++ dquote :: rest) = Some (s, rest).
Proof.
  rewrite read_string_quoted; [by rewrite app_nil_l, text_chars|].
  unfold quoted. simpl. rewrite !length_app. simpl. lia.
Qed.

Lemma read_digit_head fuel d l : (d < 10)%N →
  read (S fuel) (digit d :: l) =
    (let '(n, l'') := read_digits 0 (digit d :: l) in Some (JInt (Z.of_N n), l'')).
Proof.
  intros H. assert (∃ k : nat, d = N.of_nat k ∧ (k < 10)%nat) as (k & -> & Hk).
  { exists (N.to_nat d). lia. }
  do 10 (destruct k as [|k]; [done|]). lia.
Qed.

Lemma read_print_Z fuel z rest : no_digit rest →
  read (S fuel) (print_Z z ++ rest) = Some (JInt z, rest).
Proof.
  intros Hr. destruct z as [|p|p]; simpl print_Z.
  - change ["0"%char] with [digit 0]. cbn [app]. rewrite read_digit_head by lia.
    simpl. by rewrite read_digits_stop.
  - pose proof (read_print_N (Npos p) rest Hr) as Hn.
    destruct (print_N_head (Npos p)) as (d & l & Hd & Hlt). rewrite Hd in *. cbn [app] in *.
    rewrite read_digit_head, Hn by done. done.
  - cbn [app read]. by rewrite read_print_N.
Qed.

(** First character of a printed value: never a closing bracket. *)
Definition starts_value (l : list ascii) : Prop :=
  ∃ c l', l = c :: l' ∧ c ≠ "]"%char ∧ c ≠ "}"%char.

Lemma print_starts j : starts_value (print esc j).
Proof.
  destruct j as [|[]|z|s|l|o]; try (eexists _, _; split; [reflexivity|done]).
  destruct z as [|p|p]; simpl print; try (eexists _, _; split; [reflexivity|done]).
  destruct (print_N_head (Npos p)) as (d & l & -> & Hlt). eexists _, _. split; [done|].
  assert (∃ k : nat, d = N.of_nat k ∧ (k < 10)%nat) as (k & -> & Hk).
  { exists (N.to_nat d). lia. }
  do 10 (destruct k as [|k]; [done|]). lia.
Qed.

(** Fuel that is enough to read a value back. *)
Fixpoint jsize (j : json) : nat :=
  match j with
  | JList l => S (sum_list_with (λ x, S (jsize x)) l)
  | JObj o => S (sum_list_with (λ '(_, x), S (jsize x)) o)
  | _ => 1
  end.

Definition reads_back (j : json) : Prop := ∀ fuel rest,
  (jsize j ≤ fuel)%nat → no_digit rest → read fuel (print esc j ++ rest) = Some (j, rest).

Lemma read_items_print l fuel rest :
  Forall reads_back l → l ≠ [] → (sum_list_with (λ x, S (jsize x)) l ≤ fuel)%nat →
  read_items fuel (join ","%char (print esc <$> l) ++ "]"%char :: rest) = Some (l, rest).
Proof.
  intros Hl. revert fuel. induction Hl as [|x l Hx Hl IH]; intros fuel Hne Hf; [done|].
  simpl in Hf. destruct fuel as [|fuel]; [lia|]. cbn [fmap list_fmap join read_items].
  destruct l as [|y l]; cbn [fmap list_fmap join].
  - by rewrite Hx by (done || lia).
  - rewrite <- app_assoc. cbn [app]. rewrite Hx by (done || lia).
    change (print esc y :: (list_fmap _ _ (print esc) l)) with (print esc <$> (y :: l)).
    rewrite IH by (done || lia). done.
Qed.

Lemma read_members_print o fuel rest :
  Forall (λ kv, reads_back kv.2) o → o ≠ [] →
  (sum_list_with (λ '(_, x), S (jsize x)) o ≤ fuel)%nat →
  read_members fuel (join ","%char ((λ '(k, v), quoted esc k ++ ":"%char :: print esc v) <$> o)
                     ++ "}"%char :: rest) = Some (o, rest).
Proof.
  intros Ho. revert fuel. induction Ho as [|[k x] o Hx Ho IH]; intros fuel Hne Hf; [done|].
  simpl in Hf, Hx. destruct fuel as [|fuel]; [lia|]. cbn [fmap list_fmap].
  assert (Hk : ∀ r, read_members (S fuel) ((quoted esc k ++ ":"%char :: print esc x) ++ r) =
    match read fuel (print esc x ++ r) with
    | Some (j, ","%char :: l') =>
        match read_members fuel l' with
        | Some (js, l'') => Some ((k, j) :: js, l'')
        | None => None
        end
    | Some (j, "}"%char :: l') => Some ([(k, j)], l')
    | _ => None
    end).
  { intros r. pose proof (read_quoted k (":"%char :: print esc x ++ r)) as Hq.
    unfold quoted in *. cbn [app read_members] in *. rewrite <- !app_assoc in *. cbn [app] in *.
    rewrite Hq. done. }
  destruct o as [|[k' y] o]; cbn [join fmap list_fmap].
  - rewrite Hk, Hx by (done || lia). done.
  - rewrite <- app_assoc. cbn [app]. rewrite Hk, Hx by (done || lia).
    change (_ :: list_fmap _ _ ?f o) with (f <$> ((k', y) :: o)).
    rewrite IH by (done || lia). done.
Qed.

Lemma read_print j : reads_back j.
Proof.
  induction j as [|[]|z|s|l IH|o IH] using json_ind_strong; intros fuel rest Hf Hr;
    (destruct fuel as [|fuel]; [simpl in Hf; lia|]); try done.
  - by apply read_print_Z.
  - pose proof (read_quoted s rest) as Hq. unfold quoted in *. cbn [print] in *.
    unfold quoted. cbn [app read length] in *. rewrite <- app_assoc in *. cbn [app] in *.
    rewrite Hq. done.
  - cbn [print app]. rewrite <- app_assoc. cbn [app]. destruct l as [|x l]; [done|].
    destruct (print_starts x) as (c & l' & Hc & Hb & _).
    pose proof (read_items_print (x :: l) fuel rest IH ltac:(done)) as Hi.
    simpl in Hf. specialize (Hi ltac:(simpl; lia)).
    assert (∃ t, join ","%char (print esc <$> x :: l) ++ "]"%char :: rest = c :: t) as [t Ht].
    { cbn [fmap list_fmap join]. rewrite Hc. destruct l; eexists; done. }
    rewrite Ht in *. cbn [read]. rewrite Hi. by destruct c as [[] [] [] [] [] [] [] []].
  - cbn [print app]. rewrite <- app_assoc. cbn [app]. destruct o as [|[k x] o]; [done|].
    pose proof (read_members_print ((k, x) :: o) fuel rest IH ltac:(done)) as Hi.
    simpl in Hf. specialize (Hi ltac:(simpl; lia)).
    assert (∃ t, join ","%char ((λ '(k, v), quoted esc k ++ ":"%char :: print esc v) <$> (k, x) :: o)
       ++ "}"%char :: rest = dquote :: t) as [t Ht].
    { cbn [fmap list_fmap join]. unfold quoted. destruct o; eexists; done. }
    rewrite Ht in *. cbn [read]. rewrite Hi. done.
Qed.

Lemma print_inj j j' : print esc j = print esc j' → j = j'.
Proof.
  intros He. pose proof (read_print j (jsize j + jsize j') [] ltac:(lia) I) as H1.
  pose proof (read_print j' (jsize j + jsize j') [] ltac:(lia) I) as H2.
  rewrite He, H2 in H1. by injection H1.
Qed.
End roundtrip.

(** ** The two encodings *)

Definition go_escape (c : ascii) : list ascii := escape c ≫= go_char.

Lemma escape_read c rest : read_char (escape c ++ rest) = Some (c, rest).
Proof. by destruct c as [[] [] [] [] [] [] [] []]. Qed.

Lemma escape_head c : ∃ x l, escape c = x :: l ∧ x ≠ dquote.
Proof. by destruct c as [[] [] [] [] [] [] [] []]; eexists _, _; (split; [reflexivity|]). Qed.

Lemma go_escape_read c rest : read_char (go_escape c ++ rest) = Some (c, rest).
Proof. by destruct c as [[] [] [] [] [] [] [] []]. Qed.

Lemma go_escape_head c : ∃ x l, go_escape c = x :: l ∧ x ≠ dquote.
Proof. by destruct c as [[] [] [] [] [] [] [] []]; eexists _, _; (split; [reflexivity|]). Qed.

(** Replacing in the text is escaping in the strings: nothing outside the
    strings of a JSON text is one of [& < >]. *)
Definition go_plain (l : list ascii) : Prop := l ≫= go_char = l.

Lemma go_plain_digits fuel n acc : go_plain acc → go_plain (digits_of fuel n acc).
Proof.
  revert n acc. induction fuel as [|fuel IH]; intros n acc Hacc; simpl; [done|].
  assert (go_plain (digit (n mod 10) :: acc)).
  { unfold go_plain in *. rewrite bind_cons, Hacc.
    assert (∃ k : nat, (n mod 10)%N = N.of_nat k ∧ (k < 10)%nat) as (k & -> & Hk).
    { exists (N.to_nat (n mod 10)). pose proof (N.mod_lt n 10). lia. }
    do 10 (destruct k as [|k]; [done|]). lia. }
  destruct (n <? 10)%N; [done|by apply IH].
Qed.

Lemma go_plain_Z z : go_plain (print_Z z).
Proof.
  destruct z as [|p|p]; [done|by apply go_plain_digits|]. unfold go_plain.
  cbn [print_Z]. rewrite bind_cons. unfold print_N.
  by rewrite (go_plain_digits _ _ [] eq_refl).
Qed.

Lemma go_quoted s : quoted escape s ≫= go_char = quoted go_escape s.
Proof.
  unfold quoted. rewrite bind_cons, bind_app. cbn [app]. unfold go_escape.
  change (go_char dquote) with [dquote]. cbn [app]. f_equal. f_equal.
  induction (chars s) as [|c l IH]; [done|]. by rewrite !bind_cons, bind_app, IH.
Qed.

Lemma go_join ls : join ","%char ls ≫= go_char = join ","%char ((λ l, l ≫= go_char) <$> ls).
Proof.
  induction ls as [|l ls IH]; [done|]. destruct ls as [|l' ls]; [done|].
  cbn [join fmap list_fmap] in *. rewrite bind_app, bind_cons, IH. done.
Qed.

Lemma go_print j : print escape j ≫= go_char = print go_escape j.
Proof.
  induction j as [|[]|z|s|l IH|o IH] using json_ind_strong; try done.
  - apply go_plain_Z.
  - apply go_quoted.
  - cbn [print]. rewrite bind_cons, bind_app, go_join, <- list_fmap_compose.
    change (go_char "["%char) with ["["%char]. change (["]"%char] ≫= go_char) with ["]"%char].
    cbn [app]. do 3 f_equal. apply Forall_fmap_ext_1 in IH. done.
  - cbn [print]. rewrite bind_cons, bind_app, go_join, <- list_fmap_compose.
    change (go_char "{"%char) with ["{"%char]. change (["}"%char] ≫= go_char) with ["}"%char].
    cbn [app]. do 3 f_equal. apply Forall_fmap_ext_1. eapply Forall_impl; [exact IH|].
    intros [k v] Hv. unfold compose. cbn [snd] in Hv. by rewrite bind_app, bind_cons, go_quoted, Hv.
Qed.

Lemma go_json_print j : go_json j = text (print go_escape j).
Proof. unfold go_json, dumps. by rewrite chars_text, go_print. Qed.

Lemma text_inj l l' : text l = text l' → l = l'.
Proof. intros H. by rewrite <- (chars_text l), H, chars_text. Qed.

Lemma dumps_inj j j' : dumps j = dumps j' → j = j'.
Proof.
  intros H%text_inj. by apply (print_inj escape escape_read escape_head).
Qed.

Lemma go_json_inj j j' : go_json j = go_json j' → j = j'.
Proof.
  rewrite !go_json_print. intros H%text_inj.
  by apply (print_inj go_escape go_escape_read go_escape_head).
Qed.

Definition html_char (c : ascii) : bool :=
  (N_of_ascii c =? 38)%N || (N_of_ascii c =? 60)%N || (N_of_ascii c =? 62)%N.

Lemma go_char_clean c : forallb (λ x, negb (html_char x)) (go_char c) = true.
Proof. by destruct c as [[] [] [] [] [] [] [] []]. Qed.

(** ** Property *)

(** [go_json] is faithful: the bytes it produces can be read back to the
    value, contain none of the raw characters [& < >] that Go escapes, and so
    two values with the same wire bytes are the same value. *)
Theorem go_json_faithful (j : json) :
  read (jsize j) (chars (go_json j)) = Some (j, []) ∧
  (∀ c, c ∈ chars (go_json j) → html_char c = false) ∧
  (∀ j', go_json j' = go_json j → j' = j).
Proof.
  split; [|split].
  - rewrite go_json_print, chars_text, <- (app_nil_r (print _ _)).
    by apply (read_print go_escape go_escape_read go_escape_head).
  - intros c. unfold go_json. rewrite chars_text. intros (x & Hc & _)%list_elem_of_bind.
    pose proof (go_char_clean x) as Hx. rewrite forallb_forall in Hx.
    specialize (Hx c ltac:(by apply list_elem_of_In)).
    by destruct (html_char c).
  - intros j' Hj. by apply go_json_inj.
Qed.

End PyJson.
