(* ===== verification/PyNum.v ===== *)
(** * Python numbers and identifiers from text

    [int(text, 16)], [uuid.UUID(text)] with [str] of a UUID, [decimal.Decimal(text)] with
    the special values, [str] of JSON values, and binary64 floats as far as the
    services use them: sums of decimal literals, comparison, [round(x, 3)].
    Floats are the Standard Library's [spec_float] with the parameters of binary64. *)
From S2P Require Import Prelude PyText PyDecimal PyJson.
From Stdlib Require Import Ascii SpecFloat.

Module PyNum.
Open Scope Z_scope.

(** ** Text helpers *)

Fixpoint drop_prefix (p l : list ascii) : option (list ascii) :=
  match p, l with
  | [], _ => Some l
  | c :: p', d :: l' => if bool_decide (c = d) then drop_prefix p' l' else None
  | _ :: _, [] => None
  end.

(** [s.replace(p, q)] for a non-empty [p]. *)
Fixpoint replace_chars (fuel : nat) (p q l : list ascii) : list ascii :=
  match fuel with
  | O => l
  | S fuel' =>
      match l with
      | [] => []
      | c :: l' =>
          match drop_prefix p l with
          | Some rest => q ++ replace_chars fuel' p q rest
          | None => c :: replace_chars fuel' p q l'
          end
      end
  end.

Definition replace (p q s : string) : string :=
  text (replace_chars (S (length (chars s))) (chars p) (chars q) (chars s)).

Fixpoint drop_these (cs l : list ascii) : list ascii :=
  match l with
  | c :: l' => if bool_decide (c ∈ cs) then drop_these cs l' else l
  | [] => []
  end.

(** [s.strip(cs)] *)
Definition strip_these (cs s : string) : string :=
  text (reverse (drop_these (chars cs) (reverse (drop_these (chars cs) (chars s))))).

(** ** [int(text, 16)] *)

Definition hex_digit (c : ascii) : option N :=
  let n := N_of_ascii c in
  if ((48 <=? n) && (n <=? 57))%N then Some (n - 48)%N
  else if ((97 <=? n) && (n <=? 102))%N then Some (n - 87)%N
  else if ((65 <=? n) && (n <=? 70))%N then Some (n - 55)%N else None.

(** Digits, with single underscores between them; [after] tells whether the last
    character was a digit. *)
Fixpoint hex_digits (acc : N) (after : bool) (l : list ascii) : option N :=
  match l with
  | [] => if after then Some acc else None
  | c :: l' =>
      if bool_decide (c = "_"%char) then (if after then hex_digits acc false l' else None)
      else match hex_digit c with
           | Some d => hex_digits (16 * acc + d) true l'
           | None => None
           end
  end.

(** After the sign: an optional [0x], itself followed by an optional underscore. *)
Definition hex_body (l : list ascii) : option N :=
  match l with
  | "0"%char :: "x"%char :: "_"%char :: l' => hex_digits 0 false l'
  | "0"%char :: "X"%char :: "_"%char :: l' => hex_digits 0 false l'
  | "0"%char :: "x"%char :: l' => hex_digits 0 false l'
  | "0"%char :: "X"%char :: l' => hex_digits 0 false l'
  | _ => hex_digits 0 false l
  end.

Definition parse_hex (s : string) : option Z :=
  match chars (strip s) with
  | "-"%char :: l => (λ n, - Z.of_N n) <$> hex_body l
  | "+"%char :: l => Z.of_N <$> hex_body l
  | l => Z.of_N <$> hex_body l
  end.

(** ** [uuid.UUID] *)

(** [uuid.UUID(text)], [None] for its [ValueError]. *)
Definition parse_uuid (s : string) : option uuid :=
  let h := replace "-" "" (strip_these "{}" (replace "uuid:" "" (replace "urn:" "" s))) in
  if bool_decide (String.length h = 32%nat) then
    match parse_hex h with
    | Some z => if (0 <=? z) && (z <? 2 ^ 128) then Some (Z.to_N z) else None
    | None => None
    end
  else None.

(** ['%0nx' % u] for [u < 16 ^ n]. *)
Fixpoint hexn (n : nat) (u : N) : list ascii :=
  match n with
  | O => []
  | S n' => hexn n' (u / 16) ++ [PyJson.hex (u mod 16)]
  end.

(** [str(uuid)] *)
Definition uuid_text (u : uuid) : string :=
  let h := hexn 32 u in
  text (take 8 h ++ "-"%char :: take 4 (drop 8 h) ++ "-"%char :: take 4 (drop 12 h) ++ "-"%char ::
        take 4 (drop 16 h) ++ "-"%char :: drop 20 h).
(** ** A UUID reads back from its text *)

Definition lowhex (c : ascii) : Prop := ∃ d, (d < 16)%N ∧ c = PyJson.hex d.

Lemma lowhex_all (Q : ascii → bool) : forallb Q (chars "0123456789abcdef") = true → ∀ c, lowhex c → Q c = true.
Proof.
  intros HQ c (d & Hd & ->). rewrite <- (N2Nat.id d). assert (Hn : (N.to_nat d < 16)%nat) by lia. revert Hn.
  generalize (N.to_nat d). intros n Hn. rewrite forallb_forall in HQ. apply HQ.
  do 16 (destruct n as [|n]; [vm_compute; tauto|]). lia.
Qed.

Lemma lowhex_not (c : ascii) : forallb (λ x, negb (bool_decide (x = c))) (chars "0123456789abcdef") = true → ∀ x, lowhex x → x ≠ c.
Proof. intros HQ x Hx. pose proof (lowhex_all _ HQ x Hx) as Hn. simpl in Hn. by case_bool_decide. Qed.

Lemma hexn_lowhex n u : Forall lowhex (hexn n u).
Proof.
  revert u. induction n as [|n IH]; intros u; simpl; [constructor|]. apply Forall_app. split; [apply IH|].
  constructor; [|constructor]. exists (u mod 16)%N. split; [apply N.mod_lt; lia|done].
Qed.

Lemma hexn_length n u : length (hexn n u) = n.
Proof. revert u. induction n as [|n IH]; intros u; simpl; [done|]. rewrite length_app, IH. simpl. lia. Qed.

Lemma hex_digit_hex d : (d < 16)%N → hex_digit (PyJson.hex d) = Some d ∧ PyJson.hex d ≠ "_"%char.
Proof.
  intros Hd. rewrite <- (N2Nat.id d). assert (Hn : (N.to_nat d < 16)%nat) by lia. revert Hn. generalize (N.to_nat d). intros n Hn.
  do 16 (destruct n as [|n]; [by vm_compute|]). lia.
Qed.

Lemma hex_digits_hexn n u acc after rest : hex_digits acc after (hexn (S n) u ++ rest) =
  hex_digits (acc * 16 ^ N.of_nat (S n) + u mod 16 ^ N.of_nat (S n)) true rest.
Proof.
  revert u acc after rest. induction n as [|n IH]; intros u acc after rest.
  - destruct (hex_digit_hex (u mod 16) ltac:(apply N.mod_lt; lia)) as [Hd Hn].
    cbn [hexn app hex_digits]. rewrite (bool_decide_eq_false_2 _ Hn), Hd. f_equal. change (16 ^ N.of_nat 1)%N with 16%N. lia.
  - change (hexn (S (S n)) u) with (hexn (S n) (u / 16) ++ [PyJson.hex (u mod 16)]). rewrite <- app_assoc, IH.
    destruct (hex_digit_hex (u mod 16) ltac:(apply N.mod_lt; lia)) as [Hd Hn].
    cbn [app hex_digits]. rewrite (bool_decide_eq_false_2 _ Hn), Hd. f_equal.
    rewrite (Nat2N.inj_succ (S n)), N.pow_succ_r by lia. set (p := (16 ^ N.of_nat (S n))%N).
    rewrite (N.Div0.mod_mul_r u 16 p). lia.
Qed.

Lemma drop_prefix_absent c p l : c ∉ l → drop_prefix (c :: p) l = None.
Proof. destruct l as [|d l]; simpl; [done|]. intros Hn. rewrite bool_decide_eq_false_2; [done|set_solver]. Qed.

Lemma replace_absent c p q s : c ∉ chars s → replace (String c p) q s = s.
Proof.
  intros Hn. unfold replace. rewrite <- (text_chars s) at 3. f_equal. revert Hn. generalize (chars s). intros l.
  generalize (S (length l)). intros f. revert l. induction f as [|f IH]; intros l Hn; [done|].
  destruct l as [|d l]; [done|]. cbn [replace_chars]. change (chars (String c p)) with (c :: chars p).
  rewrite drop_prefix_absent by done. f_equal. apply (IH l). set_solver.
Qed.

Lemma replace_chars_remove c f l : (length l < f)%nat → replace_chars f [c] [] l = filter (λ x, x ≠ c) l.
Proof.
  revert l. induction f as [|f IH]; intros [|d l] Hf; simpl in *; [lia|lia|done|]. rewrite filter_cons.
  case_bool_decide as Hd; [subst; rewrite decide_False by tauto; apply IH; lia|].
  rewrite decide_True by congruence. f_equal. apply IH. lia.
Qed.

Lemma drop_these_none cs l : Forall (λ c, c ∉ cs) l → drop_these cs l = l.
Proof. destruct 1 as [|c l Hc]; simpl; [done|]. by rewrite bool_decide_eq_false_2. Qed.

Lemma drop_spaces_none l : Forall (λ c, is_space c = false) l → drop_spaces l = l.
Proof. destruct 1 as [|c l Hc]; simpl; [done|]. by rewrite Hc. Qed.

Lemma strip_none s : Forall (λ c, is_space c = false) (chars s) → strip s = s.
Proof.
  intros Hs. unfold strip. rewrite (drop_spaces_none (chars s)) by done.
  rewrite drop_spaces_none by by apply Forall_reverse. by rewrite reverse_involutive, text_chars.
Qed.

Lemma strip_these_none cs s : Forall (λ c, c ∉ chars cs) (chars s) → strip_these cs s = s.
Proof.
  intros Hs. unfold strip_these. rewrite (drop_these_none _ (chars s)) by done.
  rewrite drop_these_none by by apply Forall_reverse. by rewrite reverse_involutive, text_chars.
Qed.
Definition dashed (h : list ascii) : list ascii :=
  take 8 h ++ "-"%char :: take 4 (drop 8 h) ++ "-"%char :: take 4 (drop 12 h) ++ "-"%char ::
    take 4 (drop 16 h) ++ "-"%char :: drop 20 h.

Lemma dashed_forall (Q : ascii → Prop) h : Q "-"%char → Forall Q h → Forall Q (dashed h).
Proof.
  intros Hd Hh. unfold dashed.
  repeat first [apply Forall_app; split|apply Forall_cons; split]; auto using Forall_take, Forall_drop.
Qed.

Lemma filter_piece a r : Forall (λ c, c ≠ "-"%char) a →
  filter (λ x, x ≠ "-"%char) (a ++ "-"%char :: r) = a ++ filter (λ x, x ≠ "-"%char) r.
Proof.
  intros Ha. rewrite filter_app, filter_cons_False by tauto. f_equal. apply filter_all. by apply Forall_forall.
Qed.

Lemma dashed_filter h : Forall (λ c, c ≠ "-"%char) h → filter (λ x, x ≠ "-"%char) (dashed h) = h.
Proof.
  intros Hh. unfold dashed. rewrite !filter_piece by auto using Forall_take, Forall_drop.
  rewrite filter_all by (apply Forall_forall; by apply Forall_drop).
  replace (drop 20 h) with (drop 4 (drop 16 h)) by by rewrite drop_drop. rewrite take_drop.
  replace (drop 16 h) with (drop 4 (drop 12 h)) by by rewrite drop_drop. rewrite take_drop.
  replace (drop 12 h) with (drop 4 (drop 8 h)) by by rewrite drop_drop. by rewrite !take_drop.
Qed.

Lemma hex_body_lowhex l : Forall lowhex l → hex_body l = hex_digits 0 false l.
Proof.
  intros Hl. destruct l as [|a [|b l]]; [done|by destruct a as [[] [] [] [] [] [] [] []]|].
  apply Forall_cons in Hl as [_ [Hb _]%Forall_cons].
  assert (b ≠ "x"%char) by by apply lowhex_not; [vm_compute|]. assert (b ≠ "X"%char) by by apply lowhex_not; [vm_compute|].
  destruct a as [[] [] [] [] [] [] [] []]; try done; by destruct b as [[] [] [] [] [] [] [] []].
Qed.
Lemma parse_hex_lowhex l n : Forall lowhex l → hex_digits 0 false l = Some n → parse_hex (text l) = Some (Z.of_N n).
Proof.
  intros Hl Hn. unfold parse_hex. rewrite strip_none, chars_text.
  2:{ rewrite chars_text. eapply Forall_impl; [exact Hl|]. intros c Hc. apply negb_true_iff.
      by apply (lowhex_all (λ c, negb (is_space c))). }
  rewrite <- (hex_body_lowhex l Hl) in Hn. destruct l as [|c l]; [done|]. apply Forall_cons in Hl as [Hc _].
  assert (c ≠ "-"%char) by by apply lowhex_not; [vm_compute|]. assert (c ≠ "+"%char) by by apply lowhex_not; [vm_compute|].
  destruct c as [[] [] [] [] [] [] [] []]; try done; by rewrite Hn.
Qed.

(** [uuid.UUID(str(u)) == u] *)
Lemma parse_uuid_text u : (u < 2 ^ 128)%N → parse_uuid (uuid_text u) = Some u.
Proof.
  intros Hu. pose proof (hexn_lowhex 32 u) as Hlow. unfold uuid_text. fold (dashed (hexn 32 u)). unfold parse_uuid.
  assert (Hc : ∀ c, c ≠ "-"%char → forallb (λ x, negb (bool_decide (x = c))) (chars "0123456789abcdef") = true →
    c ∉ chars (text (dashed (hexn 32 u)))).
  { intros c Hd Hb. rewrite chars_text. intros Hin.
    assert (Hall : Forall (λ x, x ≠ c) (dashed (hexn 32 u))).
    { apply dashed_forall; [congruence|]. eapply Forall_impl; [exact Hlow|]. intros x. by apply lowhex_not. }
    rewrite Forall_forall in Hall. by apply (Hall c). }
  rewrite (replace_absent "u" "rn:"), (replace_absent "u" "uid:") by (by apply Hc; [|vm_compute]).
  rewrite strip_these_none.
  2:{ apply Forall_forall. intros x Hx. change (chars "{}") with ["{"; "}"]%char. rewrite !elem_of_cons, elem_of_nil.
      intros [->|[->|[]]]; revert Hx; by apply Hc; [|vm_compute]. }
  unfold replace. rewrite chars_text. change (chars "-") with ["-"%char]. change (chars "") with (@nil ascii).
  rewrite replace_chars_remove by lia. rewrite dashed_filter.
  2:{ eapply Forall_impl; [exact Hlow|]. intros c. by apply lowhex_not; vm_compute. }
  assert (Hlen : String.length (text (hexn 32 u)) = 32%nat).
  { rewrite <- (hexn_length 32 u) at 2. generalize (hexn 32 u). intros l. induction l; simpl; congruence. }
  rewrite bool_decide_eq_true_2 by done. rewrite (parse_hex_lowhex _ u Hlow).
  - rewrite (proj2 (Z.leb_le _ _)), (proj2 (Z.ltb_lt _ _)) by lia. simpl. by rewrite N2Z.id.
  - rewrite <- (app_nil_r (hexn 32 u)), hex_digits_hexn. cbn [hex_digits]. f_equal. rewrite N.mod_small; [lia|].
    change (16 ^ N.of_nat 32)%N with (2 ^ 128)%N. done.
Qed.
(** ** [decimal.Decimal(text)] *)

(** Decimals with the special values. *)
Inductive num := Fin (d : dec) | Infinity (negative : bool) | NaN (signaling : bool).

Fixpoint span_digits (l : list ascii) : list ascii * list ascii :=
  match l with
  | c :: l' =>
      match PyJson.digit_val c with
      | Some _ => let '(ds, rest) := span_digits l' in (c :: ds, rest)
      | None => ([], l)
      end
  | [] => ([], [])
  end.

Definition digits_value (l : list ascii) : Z := Z.of_N (PyJson.read_digits 0 l).1.

Definition split_sign (l : list ascii) : bool * list ascii :=
  match l with
  | "-"%char :: l' => (true, l')
  | "+"%char :: l' => (false, l')
  | _ => (false, l)
  end.

Definition signed (neg : bool) (z : Z) : Z := if neg then - z else z.

(** [E[-+]?\d+], or nothing. *)
Definition parse_exponent (l : list ascii) : option Z :=
  match l with
  | [] => Some 0
  | "e"%char :: l' =>
      let '(neg, l'') := split_sign l' in
      match span_digits l'' with
      | (d :: ds, []) => Some (signed neg (digits_value (d :: ds)))
      | _ => None
      end
  | _ => None
  end.

Definition parse_finite (neg : bool) (l : list ascii) : option num :=
  let '(i, r) := span_digits l in
  let '(f, r') := match r with "."%char :: r0 => span_digits r0 | _ => ([], r) end in
  match i ++ f with
  | [] => None
  | ds => (λ e, Fin (Dec (signed neg (digits_value ds)) (e - Z.of_nat (length f)))) <$> parse_exponent r'
  end.

(** [Decimal(text)]; [None] for [InvalidOperation].  Exponent limits are left out. *)
Definition parse_decimal (s : string) : option num :=
  let '(neg, l) := split_sign (lower_char <$> filter (λ c, c ≠ "_"%char) (chars (strip s))) in
  if bool_decide (l = chars "inf" ∨ l = chars "infinity") then Some (Infinity neg)
  else match drop_prefix (chars "nan") l, drop_prefix (chars "snan") l with
       | Some rest, _ => if bool_decide ((span_digits rest).2 = []) then Some (NaN false) else None
       | None, Some rest => if bool_decide ((span_digits rest).2 = []) then Some (NaN true) else None
       | None, None => parse_finite neg l
       end.

(** [a + b] for decimals that no operation made signaling. *)
Definition num_add (a b : num) : num :=
  match a, b with
  | NaN _, _ | _, NaN _ => NaN false
  | Fin a, Fin b => Fin (dec_add a b)
  | Infinity s, Infinity s' => if Bool.eqb s s' then Infinity s else NaN false
  | Infinity s, _ | _, Infinity s => Infinity s
  end.

(** Order comparisons raise [InvalidOperation] on a NaN. *)
Definition num_compare (a b : num) : outcome pyerr comparison :=
  match a, b with
  | NaN _, _ | _, NaN _ => Raise InvalidOperation
  | Fin a, Fin b => Ok (dec_compare a b)
  | Infinity s, Infinity s' => Ok (match s, s' with true, false => Lt | false, true => Gt | _, _ => Eq end)
  | Infinity s, Fin _ => Ok (if s then Lt else Gt)
  | Fin _, Infinity s => Ok (if s then Gt else Lt)
  end.

Definition num_ge (a b : num) : outcome pyerr bool :=
  let? c := num_compare a b in Ok (match c with Lt => false | _ => true end).
Definition num_gt (a b : num) : outcome pyerr bool :=
  let? c := num_compare a b in Ok (match c with Gt => true | _ => false end).

(** A value stored in a NUMERIC(20, 2) column: two decimals, halves away from
    zero; the database refuses more than 18 digits before the point, infinities
    and the text of a signaling NaN. *)
Definition numeric_20_2 (n : num) : outcome pyerr num :=
  match n with
  | Fin d =>
      let c := half_up (Dec (coef d) (expo d + 2)) in
      if Z.abs c <? 10 ^ 20 then Ok (Fin (Dec c (-2))) else Raise DataError
  | Infinity _ => Raise DataError
  | NaN s => if s then Raise DataError else Ok (NaN false)
  end.

(** ** [str] of a JSON value *)

Definition repr_char (q c : ascii) : list ascii :=
  let n := N_of_ascii c in
  if bool_decide (c = q) || bool_decide (c = "\"%char) then ["\"%char; c]
  else if (n =? 10)%N then ["\"; "n"]%char
  else if (n =? 13)%N then ["\"; "r"]%char
  else if (n =? 9)%N then ["\"; "t"]%char
  else if ((n <? 32) || (n =? 127))%N then ["\"; "x"; PyJson.hex (n / 16); PyJson.hex (n mod 16)]%char
  else [c].

Definition repr_str (s : string) : list ascii :=
  let q := if has_char "'" s && negb (has_char PyJson.dquote s) then PyJson.dquote else "'"%char in
  q :: (chars s ≫= repr_char q) ++ [q].

Fixpoint join_with (sep : list ascii) (ls : list (list ascii)) : list ascii :=
  match ls with
  | [] => []
  | [l] => l
  | l :: ls' => l ++ sep ++ join_with sep ls'
  end.

Fixpoint repr (j : json) : list ascii :=
  match j with
  | JNull => chars "None"
  | JBool true => chars "True"
  | JBool false => chars "False"
  | JInt z => PyJson.print_Z z
  | JStr s => repr_str s
  | JList l => "["%char :: join_with (chars ", ") (repr <$> l) ++ ["]"%char]
  | JObj o => "{"%char :: join_with (chars ", ") ((λ '(k, v), repr_str k ++ chars ": " ++ repr v) <$> o) ++ ["}"%char]
  end.

(** [str(value)] *)
Definition py_str (j : json) : string :=
  match j with JStr s => s | _ => text (repr j) end.

(** Python truthiness. *)
Definition jtruthy (j : json) : bool :=
  match j with
  | JNull => false
  | JBool b => b
  | JInt z => negb (z =? 0)
  | JStr s => truthy s
  | JList l => negb (bool_decide (length l = 0%nat))
  | JObj o => negb (bool_decide (length o = 0%nat))
  end.

(** [iter(value)]: lists, the keys of an object, the characters of a text. *)
Definition py_iter (j : json) : outcome pyerr (list json) :=
  match j with
  | JList l => Ok l
  | JObj o => Ok (JStr <$> o.*1)
  | JStr s => Ok ((λ c, JStr (text [c])) <$> chars s)
  | _ => Raise TypeError
  end.

(** ** Floats *)

Abbreviation float := spec_float.
Definition fadd : float → float → float := SFadd 53 1024.
Definition fle : float → float → bool := SFleb.
Definition float_of (z : Z) : float := binary_normalize 53 1024 z 0 false.

(** The float of the literal [n / 1000]: the binary64 number nearest to it. *)
Definition milli (n : Z) : float := SFdiv 53 1024 (float_of n) (float_of 1000).

(** [min(a, b)]: the first unless the second is smaller. *)
Definition fmin (a b : float) : float := if SFltb b a then b else a.

(** [round(x, 3)]: the decimal with three places nearest to the exact value of
    [x], ties to even, and then the float nearest to that. *)
Definition round3 (x : float) : float :=
  match x with
  | S754_finite s m e =>
      milli (signed s (if 0 <=? e then Zpos m * 2 ^ e * 1000 else half_even (Zpos m * 1000) (2 ^ (- e))))
  | _ => x
  end.
End PyNum.
