(* ===== verification/PyBase64.v ===== *)
(** * Bytes, base64 and hexadecimal

    What the services use of [base64], [bytes.fromhex] and [int.to_bytes]: bytes
    are lists of [ascii].  The decoder is CPython's non-strict one: characters
    outside the alphabet are skipped and a full padding ends the input. *)
From S2P Require Import Prelude PyText PyNum.
From Stdlib Require Import Ascii.

Module PyBase64.

Abbreviation bytes := (list ascii).

(** Six bits, the most significant first. *)
Record sextet := mkSix { x5 : bool; x4 : bool; x3 : bool; x2 : bool; x1 : bool; x0 : bool }.

Definition six_value (x : sextet) : N :=
  N.b2n (x5 x) * 32 + N.b2n (x4 x) * 16 + N.b2n (x3 x) * 8 + N.b2n (x2 x) * 4 + N.b2n (x1 x) * 2 + N.b2n (x0 x).

Definition six_of (n : N) : sextet :=
  mkSix (N.testbit n 5) (N.testbit n 4) (N.testbit n 3) (N.testbit n 2) (N.testbit n 1) (N.testbit n 0).

Definition alphabet : list ascii := chars "ABCDEFGHIJKLMNOPQRSTUVWXYZabcdefghijklmnopqrstuvwxyz0123456789+/".

Definition b64_char (x : sextet) : ascii := default "="%char (alphabet !! N.to_nat (six_value x)).

(** The alphabet's inverse; nothing for another character. *)
Definition b64_value (c : ascii) : option sextet :=
  (λ p, six_of (N.of_nat p.1)) <$> list_find (λ d, d = c) alphabet.

(** [base64.b64encode] *)
Fixpoint b64encode (l : bytes) : list ascii :=
  match l with
  | [] => []
  | [Ascii a0 a1 a2 a3 a4 a5 a6 a7] =>
      [b64_char (mkSix a7 a6 a5 a4 a3 a2); b64_char (mkSix a1 a0 false false false false); "="%char; "="%char]
  | [Ascii a0 a1 a2 a3 a4 a5 a6 a7; Ascii b0 b1 b2 b3 b4 b5 b6 b7] =>
      [b64_char (mkSix a7 a6 a5 a4 a3 a2); b64_char (mkSix a1 a0 b7 b6 b5 b4); b64_char (mkSix b3 b2 b1 b0 false false); "="%char]
  | Ascii a0 a1 a2 a3 a4 a5 a6 a7 :: Ascii b0 b1 b2 b3 b4 b5 b6 b7 :: Ascii c0 c1 c2 c3 c4 c5 c6 c7 :: l =>
      b64_char (mkSix a7 a6 a5 a4 a3 a2) :: b64_char (mkSix a1 a0 b7 b6 b5 b4) ::
      b64_char (mkSix b3 b2 b1 b0 c7 c6) :: b64_char (mkSix c5 c4 c3 c2 c1 c0) :: b64encode l
  end.

(** The position in a group of four and the bits left over. *)
Inductive quad :=
| Q0
| Q1 (x : sextet)
| Q2 (b3 b2 b1 b0 : bool)
| Q3 (b1 b0 : bool).

Definition feed (q : quad) (x : sextet) : list ascii * quad :=
  match q with
  | Q0 => ([], Q1 x)
  | Q1 y => ([Ascii (x4 x) (x5 x) (x0 y) (x1 y) (x2 y) (x3 y) (x4 y) (x5 y)], Q2 (x3 x) (x2 x) (x1 x) (x0 x))
  | Q2 b3 b2 b1 b0 => ([Ascii (x2 x) (x3 x) (x4 x) (x5 x) b0 b1 b2 b3], Q3 (x1 x) (x0 x))
  | Q3 b1 b0 => ([Ascii (x0 x) (x1 x) (x2 x) (x3 x) (x4 x) (x5 x) b0 b1], Q0)
  end.

Definition quad_pos (q : quad) : nat := match q with Q0 => 0 | Q1 _ => 1 | Q2 _ _ _ _ => 2 | Q3 _ _ => 3 end.

(** [binascii.a2b_base64] *)
Fixpoint a2b (q : quad) (pads : nat) (l : list ascii) : outcome pyerr bytes :=
  match l with
  | [] => match q with Q0 => Ok [] | _ => Raise ValueError end
  | c :: l =>
      if bool_decide (c = "="%char) then
        if (2 <=? quad_pos q)%nat && (4 <=? quad_pos q + S pads)%nat then Ok []
        else a2b q (if (2 <=? quad_pos q)%nat then S pads else pads) l
      else match b64_value c with
           | None => a2b q pads l
           | Some x => let '(out, q') := feed q x in let? rest := a2b q' 0 l in Ok (out ++ rest)
           end
  end.

Definition b64decode (l : list ascii) : outcome pyerr bytes := a2b Q0 0 l.

(** The URL-safe alphabet. *)
Definition to_url (c : ascii) : ascii :=
  if bool_decide (c = "+"%char) then "-"%char else if bool_decide (c = "/"%char) then "_"%char else c.
Definition of_url (c : ascii) : ascii :=
  if bool_decide (c = "-"%char) then "+"%char else if bool_decide (c = "_"%char) then "/"%char else c.

Definition urlsafe_b64encode (l : bytes) : list ascii := to_url <$> b64encode l.
Definition urlsafe_b64decode (l : list ascii) : outcome pyerr bytes := b64decode (of_url <$> l).

(** [s.rstrip("=")] *)
Fixpoint drop_pads (l : list ascii) : list ascii :=
  match l with
  | [] => []
  | c :: l' => if bool_decide (c = "="%char) then drop_pads l' else l
  end.

Definition rstrip_pads (l : list ascii) : list ascii := reverse (drop_pads (reverse l)).

(** [body + "=" * (-len(body) % 4)] *)
Definition repad (l : list ascii) : list ascii :=
  l ++ replicate (Z.to_nat ((- Z.of_nat (length l)) mod 4)) "="%char.

(** [int.to_bytes(n, "big")], [int.from_bytes(.., "big")] *)
Fixpoint be_bytes (n : nat) (v : N) : bytes :=
  match n with
  | O => []
  | S n => be_bytes n (v / 256) ++ [ascii_of_N (v mod 256)]
  end.

Definition to_bytes (n : nat) (v : N) : outcome pyerr bytes :=
  if (v <? 256 ^ N.of_nat n)%N then Ok (be_bytes n v) else Raise OverflowError.

Definition from_bytes (l : bytes) : N := fold_left (λ acc c, acc * 256 + N_of_ascii c)%N l 0%N.

(** [bytes.fromhex]: blanks may stand between the bytes. *)
Definition blank (c : ascii) : bool :=
  let n := N_of_ascii c in ((9 <=? n) && (n <=? 13) || (n =? 32))%N.

Fixpoint fromhex (l : list ascii) : outcome pyerr bytes :=
  match l with
  | [] => Ok []
  | c :: l' =>
      if blank c then fromhex l'
      else match l' with
           | [] => Raise ValueError
           | d :: l'' =>
               match PyNum.hex_digit c, PyNum.hex_digit d with
               | Some x, Some y => let? rest := fromhex l'' in Ok (ascii_of_N (16 * x + y) :: rest)
               | _, _ => Raise ValueError
               end
           end
  end.

(** [bytes.hex] *)
Definition hex_byte (c : ascii) : list ascii := PyNum.hexn 2 (N_of_ascii c).
Definition to_hex (l : bytes) : list ascii := l ≫= hex_byte.

(** ** Lemmas *)

Lemma b64_char_value x : b64_value (b64_char x) = Some x ∧ b64_char x ≠ "="%char.
Proof. destruct x as [[] [] [] [] [] []]; (split; [vm_compute; reflexivity|vm_compute; discriminate]). Qed.

Lemma a2b_char q pads x l : a2b q pads (b64_char x :: l) =
  (let '(out, q') := feed q x in let? rest := a2b q' 0 l in Ok (out ++ rest)).
Proof.
  destruct (b64_char_value x) as [Hv He]. cbn [a2b]. by rewrite bool_decide_eq_false_2, Hv.
Qed.

(** The decoder reads back what the encoder wrote, whatever follows a complete
    group. *)
Lemma a2b_three a b c l pads : a2b Q0 pads (b64encode (a :: b :: c :: l)) =
  (let? rest := a2b Q0 0 (b64encode l) in Ok (a :: b :: c :: rest)).
Proof.
  destruct a, b, c. cbn [b64encode]. rewrite a2b_char. cbn [feed]. rewrite a2b_char. cbn [feed x5 x4 x3 x2 x1 x0].
  rewrite a2b_char. cbn [feed x5 x4 x3 x2 x1 x0]. rewrite a2b_char. cbn [feed x5 x4 x3 x2 x1 x0].
  by destruct (a2b Q0 0 (b64encode l)).
Qed.

Lemma a2b_one a pads : a2b Q0 pads (b64encode [a]) = Ok [a].
Proof. destruct a. cbn [b64encode]. rewrite a2b_char. cbn [feed]. by rewrite a2b_char. Qed.

Lemma a2b_two a b pads : a2b Q0 pads (b64encode [a; b]) = Ok [a; b].
Proof. destruct a, b. cbn [b64encode]. rewrite a2b_char. cbn [feed]. rewrite a2b_char. cbn [feed x5 x4 x3 x2 x1 x0]. by rewrite a2b_char. Qed.

(** Induction by groups of three bytes. *)
Lemma three_ind (P : bytes → Prop) :
  P [] → (∀ a, P [a]) → (∀ a b, P [a; b]) → (∀ a b c l, P l → P (a :: b :: c :: l)) → ∀ l, P l.
Proof.
  intros H0 H1 H2 H3. fix IH 1. intros [|a [|b [|c l]]]; [done|apply H1|apply H2|]. apply H3, IH.
Qed.

Lemma b64decode_encode l : b64decode (b64encode l) = Ok l.
Proof.
  unfold b64decode. induction l as [|a|a b|a b c l IH] using three_ind; [done|apply a2b_one|apply a2b_two|].
  by rewrite a2b_three, IH.
Qed.

Lemma b64_char_plain x : b64_char x ∉ ["-"%char; "_"%char; "="%char].
Proof. destruct x as [[] [] [] [] [] []]; vm_compute; intros Hx; repeat (apply elem_of_cons in Hx as [Hx|Hx]; [discriminate Hx|]); by apply elem_of_nil in Hx. Qed.

(** An encoding holds characters of the alphabet and padding. *)
Lemma b64encode_chars l : Forall (λ c, c ∉ ["-"%char; "_"%char]) (b64encode l).
Proof.
  assert (Hc : ∀ x, b64_char x ∉ ["-"%char; "_"%char]).
  { intros x Hx. apply (b64_char_plain x). set_solver. }
  assert (He : "="%char ∉ ["-"%char; "_"%char]) by by vm_compute; set_solver.
  induction l as [|a|a b|a b c l IH] using three_ind; [constructor|..];
    repeat match goal with a : ascii |- _ => destruct a end; cbn [b64encode]; repeat constructor; auto.
Qed.

Lemma of_to_url l : Forall (λ c, c ∉ ["-"%char; "_"%char]) l → of_url <$> (to_url <$> l) = l.
Proof.
  induction 1 as [|c l Hc _ IH]; [done|]. simpl. f_equal; [|exact IH]. unfold to_url, of_url.
  repeat case_bool_decide; subst; try done; exfalso; apply Hc; set_solver.
Qed.

Lemma urlsafe_decode_encode l : urlsafe_b64decode (urlsafe_b64encode l) = Ok l.
Proof. unfold urlsafe_b64decode, urlsafe_b64encode. rewrite of_to_url by apply b64encode_chars. apply b64decode_encode. Qed.

(** *** Padding *)

Lemma b64encode_split l : ∃ body p, b64encode l = body ++ replicate p "="%char ∧ Forall (λ c, c ≠ "="%char) body ∧
  (p ≤ 2)%nat ∧ ((length body + p) mod 4 = 0)%nat ∧ (6 * length body ≤ 8 * length l + 5)%nat.
Proof.
  assert (Hc : ∀ x, b64_char x ≠ "="%char) by apply b64_char_value.
  induction l as [|a|a b|a b c l (body & p & He & Hb & Hp & Hm & Hs)] using three_ind.
  - exists [], 0%nat. split_and!; [done|constructor|lia|done|simpl; lia].
  - destruct a. cbn [b64encode]. eexists [_; _], 2%nat. split_and!; [done|by repeat constructor|lia|done|simpl; lia].
  - destruct a, b. cbn [b64encode]. eexists [_; _; _], 1%nat. split_and!; [done|by repeat constructor|lia|done|simpl; lia].
  - destruct a, b, c. cbn [b64encode]. rewrite He. eexists (_ :: _ :: _ :: _ :: body), p.
    split_and!; [done|by repeat constructor|done| |simpl; lia]. simpl length.
    replace (S (S (S (S (length body)))) + p)%nat with (1 * 4 + (length body + p))%nat by lia. by rewrite Nat.add_comm, Nat.Div0.mod_add.
Qed.

Lemma drop_pads_replicate p l : drop_pads (replicate p "="%char ++ l) = drop_pads l.
Proof. by induction p. Qed.

Lemma rstrip_body body p : Forall (λ c, c ≠ "="%char) body → rstrip_pads (body ++ replicate p "="%char) = body.
Proof.
  intros Hb. unfold rstrip_pads. rewrite reverse_app, reverse_replicate, drop_pads_replicate.
  apply Forall_reverse in Hb. rewrite <- (reverse_involutive body) at 2. f_equal.
  destruct Hb as [|c r Hc]; [done|]. simpl. by rewrite bool_decide_eq_false_2.
Qed.

Lemma repad_body (body : list ascii) p : (p ≤ 2)%nat → ((length body + p) mod 4 = 0)%nat → repad body = body ++ replicate p "="%char.
Proof.
  intros Hp Hm. unfold repad. do 2 f_equal. apply Nat.Div0.mod_divides in Hm as [k Hk].
  replace (- Z.of_nat (length body))%Z with (Z.of_nat p + (- Z.of_nat k) * 4)%Z by lia.
  rewrite Z.mod_add by lia. rewrite Z.mod_small by lia. lia.
Qed.

(** Stripping and restoring the padding of an encoding. *)
Lemma repad_encode l : repad (rstrip_pads (b64encode l)) = b64encode l.
Proof.
  destruct (b64encode_split l) as (body & p & He & Hb & Hp & Hm & _). rewrite He, rstrip_body by done. by apply repad_body.
Qed.

Lemma to_url_pad c : to_url c = "="%char ↔ c = "="%char.
Proof. unfold to_url. split; [|by intros ->]. by repeat case_bool_decide. Qed.

Lemma repad_urlsafe l : repad (rstrip_pads (urlsafe_b64encode l)) = urlsafe_b64encode l.
Proof.
  unfold urlsafe_b64encode. destruct (b64encode_split l) as (body & p & He & Hb & Hp & Hm & _).
  rewrite He, fmap_app, fmap_replicate. change (to_url "="%char) with "="%char.
  rewrite rstrip_body by (apply Forall_fmap; eapply Forall_impl; [exact Hb|]; intros c Hc; simpl; by rewrite to_url_pad).
  apply repad_body; [done|]. by rewrite length_fmap.
Qed.

(** *** Integers *)

Lemma from_bytes_snoc l c : from_bytes (l ++ [c]) = (from_bytes l * 256 + N_of_ascii c)%N.
Proof. unfold from_bytes. by rewrite fold_left_app. Qed.

Lemma from_be_bytes n v : (v < 256 ^ N.of_nat n)%N → from_bytes (be_bytes n v) = v.
Proof.
  revert v. induction n as [|n IH]; intros v Hv; [simpl in *; unfold from_bytes; simpl; lia|].
  cbn [be_bytes]. rewrite from_bytes_snoc, IH, N_ascii_embedding.
  - rewrite N.mul_comm. symmetry. apply N.div_mod. done.
  - by apply N.mod_lt.
  - apply N.Div0.div_lt_upper_bound. by rewrite <- N.pow_succ_r', <- Nat2N.inj_succ.
Qed.

Lemma be_bytes_length n v : length (be_bytes n v) = n.
Proof. revert v. induction n as [|n IH]; intros v; [done|]. cbn [be_bytes]. rewrite length_app, IH. simpl. lia. Qed.

(** *** Sizes *)

Definition data_chars (l : list ascii) : nat := length (filter (λ c, is_Some (b64_value c)) l).

Definition left_bits (q : quad) : nat := match q with Q0 => 0 | Q1 _ => 6 | Q2 _ _ _ _ => 4 | Q3 _ _ => 2 end.

Lemma a2b_bits q pads l r : a2b q pads l = Ok r → (8 * length r ≤ left_bits q + 6 * data_chars l)%nat.
Proof.
  revert q pads r. induction l as [|c l IH]; intros q pads r; cbn [a2b].
  { destruct q; try done. intros [= <-]. simpl. lia. }
  unfold data_chars. rewrite filter_cons. case_bool_decide as Hc.
  { destruct (_ && _); [intros [= <-]; simpl; lia|]. intros Hr%IH. unfold data_chars in Hr. case_decide; simpl; lia. }
  destruct (b64_value c) as [x|] eqn:Ex.
  - rewrite decide_True by done. destruct (feed q x) as [out q'] eqn:Ef. destruct (a2b q' 0 l) as [rest|] eqn:Er; [|done].
    simpl. intros [= <-]. apply IH in Er. unfold data_chars in Er. rewrite length_app.
    destruct q; simpl in Ef; injection Ef as <- <-; simpl in *; lia.
  - rewrite decide_False by by intros []. intros Hr%IH. exact Hr.
Qed.

Lemma b64decode_length l r : b64decode l = Ok r → (8 * length r ≤ 6 * data_chars l)%nat.
Proof. apply a2b_bits. Qed.

Lemma data_chars_le l : (data_chars l ≤ length l)%nat.
Proof. apply length_filter. Qed.

Lemma fromhex_length l r : fromhex l = Ok r → (2 * length r ≤ length l)%nat.
Proof.
  revert r. induction l as [l IH] using (induction_ltof1 _ (@length ascii)). unfold ltof in IH. intros r.
  destruct l as [|c l]; [intros [= <-]; simpl; lia|]. cbn [fromhex]. destruct (blank c).
  { intros Hr%IH; simpl; lia. }
  destruct l as [|d l]; [done|]. destruct (PyNum.hex_digit c), (PyNum.hex_digit d); try done.
  destruct (fromhex l) as [rest|] eqn:E; [|done]. intros [= <-]. apply IH in E; simpl in *; lia.
Qed.

Lemma hex_byte_check c :
  match hex_byte c with
  | [x; y] => negb (blank x) && match PyNum.hex_digit x, PyNum.hex_digit y with
                                | Some a, Some b => bool_decide (ascii_of_N (16 * a + b) = c)
                                | _, _ => false
                                end
  | _ => false
  end = true.
Proof. destruct c as [[] [] [] [] [] [] [] []]; vm_compute; reflexivity. Qed.

Lemma hex_byte_spec c : ∃ x y, hex_byte c = [x; y] ∧ blank x = false ∧
  ∃ a b, PyNum.hex_digit x = Some a ∧ PyNum.hex_digit y = Some b ∧ ascii_of_N (16 * a + b) = c.
Proof.
  pose proof (hex_byte_check c) as Hc. destruct (hex_byte c) as [|x [|y [|]]]; try done. apply andb_true_iff in Hc as [Hx Hc].
  destruct (PyNum.hex_digit x) as [a|] eqn:Ea, (PyNum.hex_digit y) as [b|] eqn:Eb; try done. apply bool_decide_eq_true in Hc.
  exists x, y. split_and!; [done|by apply negb_true_iff|]. by exists a, b.
Qed.

Lemma fromhex_to_hex l : fromhex (to_hex l) = Ok l.
Proof.
  induction l as [|c l IH]; [done|]. unfold to_hex. rewrite bind_cons. fold (to_hex l).
  destruct (hex_byte_spec c) as (x & y & -> & Hx & a & b & Ha & Hb & Hc). cbn [fromhex app]. by rewrite Hx, Ha, Hb, IH, <- Hc.
Qed.

Lemma to_hex_length l : length (to_hex l) = (2 * length l)%nat.
Proof.
  induction l as [|c l IH]; [done|]. unfold to_hex. rewrite bind_cons, length_app. fold (to_hex l). rewrite IH.
  destruct (hex_byte_spec c) as (x & y & -> & _). simpl. lia.
Qed.
End PyBase64.
