(* ===== verification/Fingerprint.v ===== *)
(** * Request fingerprints

    [fingerprint] of [idempotency-python/src/linkmint_idempotency/store.py]: the SHA-256
    of [json.dumps(payload, sort_keys=True, separators=(",", ":"))].  It identifies a
    request body for the idempotency store, and an event for the consumers' deduplication. *)
From S2P Require Import Prelude PyText PyJson.
From Stdlib Require Import Ascii.

Module Fingerprint.

(** Python compares strings by code points. *)
Definition str_le (a b : string) : Prop := String.leb a b = true.

#[global] Instance str_le_dec : RelDecision str_le.
Proof. intros a b. unfold str_le. apply _. Defined.

Definition key_le (a b : string * json) : Prop := str_le a.1 b.1.

#[global] Instance key_le_dec : RelDecision key_le.
Proof. intros a b. unfold key_le. apply _. Defined.

(** [sort_keys=True], at every depth. *)
Fixpoint sort_keys (j : json) : json :=
  match j with
  | JList l => JList (sort_keys <$> l)
  | JObj o => JObj (merge_sort key_le ((λ '(k, v), (k, sort_keys v)) <$> o))
  | _ => j
  end.

(** [ensure_ascii=True]: everything outside printable ASCII is written [\uXXXX]. *)
Definition escape_ascii (c : ascii) : list ascii :=
  if (code c <? 127)%N then PyJson.escape c else PyJson.u_escape (code c).

Definition dumps_ascii (j : json) : string := text (PyJson.print escape_ascii j).

Definition fingerprint (sha256_hex : string → string) (payload : json) : string := sha256_hex (dumps_ascii (sort_keys payload)).

(** ** Two payloads with the same fingerprint *)

(** Equal up to the order of object members. *)
Inductive same_json : json → json → Prop :=
| same_null : same_json JNull JNull
| same_bool b : same_json (JBool b) (JBool b)
| same_int z : same_json (JInt z) (JInt z)
| same_str s : same_json (JStr s) (JStr s)
| same_list l l' : Forall2 same_json l l' → same_json (JList l) (JList l')
| same_obj o o1 o' : o ≡ₚ o1 → Forall2 (λ a b, a.1 = b.1 ∧ same_json a.2 b.2) o1 o' → same_json (JObj o) (JObj o').

(** The keys of an object are distinct, at every depth (a Python dict). *)
Fixpoint distinct_keys (j : json) : bool :=
  match j with
  | JList l => forallb distinct_keys l
  | JObj o => bool_decide (NoDup o.*1) && forallb (λ '(k, v), distinct_keys v) o
  | _ => true
  end.

Lemma ascii_compare_N a b : Ascii.compare a b = N.compare (code a) (code b).
Proof. done. Qed.

Lemma compare_trans a b c : String.compare a b ≠ Gt → String.compare b c ≠ Gt → String.compare a c ≠ Gt.
Proof.
  revert b c. induction a as [|x a IH]; intros [|y b] [|z c]; simpl; try done. rewrite !ascii_compare_N.
  destruct (N.compare_spec (code x) (code y)) as [E|E|E], (N.compare_spec (code y) (code z)) as [E'|E'|E'], (N.compare_spec (code x) (code z)) as [E''|E''|E''];
    try done; try lia; apply IH.
Qed.

#[local] Instance key_le_trans : Transitive key_le.
Proof.
  intros [a ?] [b ?] [c ?]. unfold key_le, str_le, String.leb. simpl. intros H1 H2.
  pose proof (compare_trans a b c). destruct (String.compare a b), (String.compare b c), (String.compare a c); naive_solver.
Qed.

#[local] Instance key_le_total : Total key_le.
Proof. intros [a ?] [b ?]. apply String.leb_total. Qed.

Lemma sort_keys_unique l l' : l ≡ₚ l' → NoDup l.*1 → merge_sort key_le l = merge_sort key_le l'.
Proof.
  intros Hp Hnd. apply (StronglySorted_unique_strong key_le).
  - intros x y Hx Hy Hxy Hyx. rewrite merge_sort_Permutation in Hx. rewrite merge_sort_Permutation, <- Hp in Hy.
    apply (NoDup_map_inj fst l); [done|done|done|]. by apply String.leb_antisym.
  - apply StronglySorted_merge_sort; apply _.
  - apply StronglySorted_merge_sort; apply _.
  - by rewrite !merge_sort_Permutation.
Qed.

Definition sorted_member (kv : string * json) : string * json := (kv.1, sort_keys kv.2).

Lemma sort_keys_obj o : sort_keys (JObj o) = JObj (merge_sort key_le (sorted_member <$> o)).
Proof. simpl. do 2 f_equal. apply list_fmap_ext. by intros ? [k v]. Qed.

Lemma sorted_member_keys o : (sorted_member <$> o).*1 = o.*1.
Proof. rewrite <- list_fmap_compose. done. Qed.

Lemma same_sorted j : ∀ j', same_json j j' → distinct_keys j = true → sort_keys j = sort_keys j'.
Proof.
  induction j as [|b|z|s|l IH|o IH] using json_ind_strong; intros j' Hj Hd; inversion Hj as [| | | |? l' Hl|? o1 o' Hp Ho]; subst; try done.
  - simpl. f_equal. clear Hj. revert l' Hl. induction IH as [|x l Hx _ IHl]; intros l' Hl; inversion Hl; subst; [done|].
    simpl in Hd. apply andb_prop in Hd as [Hdx Hdl]. simpl. f_equal; [by apply Hx|by apply IHl].
  - rewrite !sort_keys_obj. f_equal. simpl in Hd. apply andb_prop in Hd as [Hnd%bool_decide_eq_true Hds].
    assert (Hall : Forall (λ kv, (∀ j', same_json kv.2 j' → distinct_keys kv.2 = true → sort_keys kv.2 = sort_keys j') ∧ distinct_keys kv.2 = true) o1).
    { rewrite <- Hp. apply Forall_and. split; [exact IH|]. apply Forall_forall. intros [k v] Hin.
      rewrite forallb_forall in Hds. apply (Hds (k, v)), list_elem_of_In, Hin. }
    transitivity (merge_sort key_le (sorted_member <$> o1)).
    { apply sort_keys_unique; [by rewrite Hp|by rewrite sorted_member_keys]. }
    f_equal. clear -Ho Hall. induction Ho as [|a b o1 o' [Hk Hs] _ IHo]; [done|]. inversion Hall as [|? ? [Ha Hda] Hall']; subst. simpl.
    f_equal; [|by apply IHo]. unfold sorted_member. rewrite Hk. f_equal. by apply Ha.
Qed.

Lemma sorted_same j : ∀ j', sort_keys j = sort_keys j' → same_json j j'.
Proof.
  induction j as [|b|z|s|l IH|o IH] using json_ind_strong; intros [|b'|z'|s'|l'|o'] Hj; try (simpl in Hj; congruence).
  all: try (simpl in Hj; injection Hj as Hj; subst; by constructor).
  - constructor.
  - constructor. simpl in Hj. injection Hj as Hj. revert l' Hj. induction IH as [|x l Hx _ IHl]; intros [|x' l'] Hj; try (done || by constructor).
    simpl in Hj. injection Hj as Hx' Hl'. constructor; auto.
  - rewrite !sort_keys_obj in Hj. injection Hj as Hj.
    assert (Hp : (sorted_member <$> o') ≡ₚ (sorted_member <$> o)).
    { rewrite <- (merge_sort_Permutation key_le (sorted_member <$> o)), Hj. by rewrite merge_sort_Permutation. }
    apply Permutation_map_inv in Hp as (o1 & Ho1 & Hp). apply (same_obj o o1 o'); [done|]. rewrite Hp in IH. clear -IH Ho1.
    revert o' Ho1. induction IH as [|x l Hx _ IHl]; intros [|x' l'] Hj; try (done || by constructor).
    simpl in Hj. unfold sorted_member in Hj at 1 3. injection Hj as Hk Hv Hl. constructor; [|by apply IHl]. split; [done|]. by apply Hx.
Qed.

Lemma escape_ascii_read c rest : PyJson.read_char (escape_ascii c ++ rest) = Some (c, rest).
Proof. by destruct c as [[] [] [] [] [] [] [] []]. Qed.

Lemma escape_ascii_head c : ∃ x l, escape_ascii c = x :: l ∧ x ≠ PyJson.dquote.
Proof. by destruct c as [[] [] [] [] [] [] [] []]; eexists _, _; (split; [reflexivity|]). Qed.

Lemma dumps_ascii_inj j j' : dumps_ascii j = dumps_ascii j' → j = j'.
Proof.
  intros H%PyJson.text_inj. by apply (PyJson.print_inj escape_ascii escape_ascii_read escape_ascii_head).
Qed.

(** a fingerprint identifies a payload up to the order of object members: two payloads
    that differ only in the order of members, at any depth, have the same fingerprint, and,
    SHA-256 not colliding on their canonical texts, payloads with the same fingerprint differ
    in nothing else. *)
Theorem fingerprint_canonical (sha256_hex : string → string) (p q : json) (Hp : distinct_keys p = true)
    (Hsha : sha256_hex (dumps_ascii (sort_keys p)) = sha256_hex (dumps_ascii (sort_keys q)) →
            dumps_ascii (sort_keys p) = dumps_ascii (sort_keys q)) :
  fingerprint sha256_hex p = fingerprint sha256_hex q ↔ same_json p q.
Proof.
  unfold fingerprint. split.
  - intros H%Hsha%dumps_ascii_inj. by apply sorted_same.
  - intros H. by rewrite (same_sorted p q).
Qed.

Lemma fingerprint_canonical_witness :
  let p := JObj [("b", JInt 1); ("a", JObj [("y", JNull); ("x", JStr "z")])] in
  let q := JObj [("a", JObj [("x", JStr "z"); ("y", JNull)]); ("b", JInt 1)] in
  fingerprint id p = fingerprint id q ∧ same_json p q.
Proof.
  intros p q. assert (Hf : fingerprint id p = fingerprint id q) by (vm_compute; reflexivity).
  split; [exact Hf|]. apply (fingerprint_canonical id p q); [vm_compute; reflexivity|done|exact Hf].
Defined.
End Fingerprint.
