(* ===== verification/UnitOfWork.v ===== *)
(** * The unit of work every service runs on

    A request (or a consumed event) gets one database session.  [db] is the
    committed database, [tx] the session's view of it (what [flush] and ORM
    attribute writes have changed so far), [ext] the effects outside the
    database that a rollback cannot undo (events published, transactions sent
    to the chain, notifications).  [commit] makes the view durable; an
    exception that escapes leaves the committed database as the last [commit]
    left it, which is what [request] models: the session starts from the
    committed database and what it has not committed is dropped at the end. *)
From S2P Require Import Prelude.

Record uow (D X : Type) := Uow { db : D; tx : D; ext : X }.
Arguments Uow {D X} db tx ext.
Arguments db {D X} u.
Arguments tx {D X} u.
Arguments ext {D X} u.

Definition handler (D X C A : Type) : Type := uow D X → outcome (exn C) A * uow D X.

#[global] Instance handler_ret {D X C} : MRet (handler D X C) := λ A a w, (Ok a, w).

#[global] Instance handler_bind {D X C} : MBind (handler D X C) := λ A B k m w,
  match m w with
  | (Ok a, w') => k a w'
  | (Raise e, w') => (Raise e, w')
  end.

Section ops.
Context {D X C : Type}.

Definition throw {A} (e : exn C) : handler D X C A := λ w, (Raise e, w).

(** [raise AppError(code, ...)] *)
Definition raise {A} (code : C) : handler D X C A := throw (AppError code).

(** A query of the session. *)
Definition query {A} (f : D → A) : handler D X C A := λ w, (Ok (f (tx w)), w).

(** A flushed write or an attribute write on a loaded row. *)
Definition write (f : D → D) : handler D X C unit :=
  λ w, (Ok tt, Uow (db w) (f (tx w)) (ext w)).

(** A write the database may refuse ([IntegrityError] and the like). *)
Definition try_write (f : D → outcome pyerr D) : handler D X C unit := λ w,
  match f (tx w) with
  | Ok d => (Ok tt, Uow (db w) d (ext w))
  | Raise k => (Raise (PyError k), w)
  end.

Definition commit : handler D X C unit := λ w, (Ok tt, Uow (tx w) (tx w) (ext w)).

Definition effect (f : X → X) : handler D X C unit :=
  λ w, (Ok tt, Uow (db w) (tx w) (f (ext w))).

Definition observe {A} (f : X → A) : handler D X C A := λ w, (Ok (f (ext w)), w).

Definition lift {A} (o : outcome (exn C) A) : handler D X C A := λ w, (o, w).

(** [try: m except: h], the state as [m] left it. *)
Definition catch {A} (m : handler D X C A) (h : exn C → handler D X C A) : handler D X C A := λ w,
  match m w with
  | (Ok a, w') => (Ok a, w')
  | (Raise e, w') => h e w'
  end.

(** [for x in l: body x] *)
Fixpoint for_each {A} (l : list A) (body : A → handler D X C unit) : handler D X C unit :=
  match l with
  | [] => mret tt
  | x :: l' => body x ;; for_each l' body
  end.

Definition request {A} (m : handler D X C A) (d : D) (x : X) : outcome (exn C) A * D * X :=
  let '(r, w) := m (Uow d d x) in (r, db w, ext w).

(** A request's handler as an action on the committed state. *)
Definition action_of {A} (m : handler D X C A) (s : D * X) : outcome (exn C) A * (D * X) :=
  let '(r, d, x) := request m s.1 s.2 in (r, (d, x)).

Definition when (b : bool) (m : handler D X C unit) : handler D X C unit :=
  if b then m else mret tt.
End ops.

(** ** What a handler may do to the committed state

    [never_commits_on_error m]: whenever [m] raises, the committed database and
    the outside world are as they were (the handler is all or nothing). *)
Definition all_or_nothing {D X C A} (m : handler D X C A) : Prop :=
  ∀ w e w', m w = (Raise e, w') → db w' = db w ∧ ext w' = ext w.

(** [pure_read m]: [m] changes nothing at all, whatever it returns. *)
Definition read_only {D X C A} (m : handler D X C A) : Prop :=
  ∀ w r w', m w = (r, w') → w' = w.

(** Handlers that write the session but neither commit nor act outside. *)
Definition session_only {D X C A} (m : handler D X C A) : Prop :=
  ∀ w r w', m w = (r, w') → db w' = db w ∧ ext w' = ext w.

Section rules.
Context {D X C : Type}.
Implicit Types w : uow D X.

Lemma read_only_query {A} (f : D → A) : read_only (query (C := C) (X := X) f).
Proof. by intros w r w' [= _ <-]. Qed.

Lemma read_only_throw {A} (e : exn C) : read_only (throw (A := A) (D := D) (X := X) e).
Proof. by intros w r w' [= _ <-]. Qed.

Lemma read_only_ret {A} (a : A) : read_only (mret (M := handler D X C) a).
Proof. by intros w r w' [= _ <-]. Qed.

Lemma read_only_lift {A} (o : outcome (exn C) A) : read_only (lift (D := D) (X := X) o).
Proof. by intros w r w' [= _ <-]. Qed.

Lemma read_only_bind {A B} (m : handler D X C A) (k : A → handler D X C B) :
  read_only m → (∀ a, read_only (k a)) → read_only (m ≫= k).
Proof.
  intros Hm Hk w r w'. unfold mbind, handler_bind.
  destruct (m w) as [[a|e] w1] eqn:E; apply Hm in E as ->; [apply Hk|congruence].
Qed.

Lemma session_only_read {A} (m : handler D X C A) : read_only m → session_only m.
Proof. intros H w r w' E. by apply H in E as ->. Qed.

Lemma session_only_write (f : D → D) : session_only (write (C := C) (X := X) f).
Proof. by intros w r w' [= _ <-]. Qed.

Lemma session_only_try (f : D → outcome pyerr D) : session_only (try_write (C := C) (D := D) (X := X) f).
Proof. intros w r w'. unfold try_write. destruct (f _); by intros [= _ <-]. Qed.

Lemma session_only_bind {A B} (m : handler D X C A) (k : A → handler D X C B) :
  session_only m → (∀ a, session_only (k a)) → session_only (m ≫= k).
Proof.
  intros Hm Hk w r w'. unfold mbind, handler_bind.
  destruct (m w) as [[a|e] w1] eqn:E; apply Hm in E as [? ?].
  - intros [? ?]%Hk. split; congruence.
  - intros [= _ <-]. done.
Qed.

Lemma session_only_for {A} (l : list A) (f : A → handler D X C unit) :
  (∀ a, session_only (f a)) → session_only (for_each l f).
Proof.
  intros Hf. induction l; simpl; [by apply session_only_read, read_only_ret|].
  by apply session_only_bind.
Qed.

(** Guards and session writes first, then a part that cannot fail: the
    handler is all or nothing. *)
Lemma all_or_nothing_session {A} (m : handler D X C A) : session_only m → all_or_nothing m.
Proof. intros H w e w' E. by apply H in E. Qed.

Lemma all_or_nothing_bind {A B} (m : handler D X C A) (k : A → handler D X C B) :
  session_only m → (∀ a, all_or_nothing (k a)) → all_or_nothing (m ≫= k).
Proof.
  intros Hm Hk w e w'. unfold mbind, handler_bind.
  destruct (m w) as [[a|e'] w1] eqn:E; apply Hm in E as [? ?].
  - intros [? ?]%Hk. split; congruence.
  - intros [= _ <-]. done.
Qed.

Definition never_raises {A} (m : handler D X C A) : Prop := ∀ w, is_ok (m w).1 = true.

Lemma never_raises_ret {A} (a : A) : never_raises (mret (M := handler D X C) a).
Proof. done. Qed.

Lemma never_raises_commit : never_raises (commit (D := D) (X := X) (C := C)).
Proof. done. Qed.

Lemma never_raises_effect (f : X → X) : never_raises (effect (D := D) (X := X) (C := C) f).
Proof. done. Qed.

Lemma never_raises_write (f : D → D) : never_raises (write (D := D) (X := X) (C := C) f).
Proof. done. Qed.

Lemma never_raises_bind {A B} (m : handler D X C A) (k : A → handler D X C B) :
  never_raises m → (∀ a, never_raises (k a)) → never_raises (m ≫= k).
Proof.
  intros Hm Hk w. unfold mbind, handler_bind. specialize (Hm w).
  destruct (m w) as [[a|e] w1]; [apply Hk|done].
Qed.

Lemma all_or_nothing_never {A} (m : handler D X C A) : never_raises m → all_or_nothing m.
Proof. intros H w e w' E. specialize (H w). by rewrite E in H. Qed.
End rules.

(** The rules as a database: [auto with uow] decides the shape of a handler. *)
Create HintDb uow discriminated.
#[export] Hint Resolve read_only_query read_only_throw read_only_ret read_only_lift
  read_only_bind session_only_write session_only_try session_only_bind
  session_only_for never_raises_ret never_raises_commit never_raises_effect
  never_raises_write never_raises_bind : uow.
#[export] Hint Resolve session_only_read | 20 : uow.

(** Evaluate a handler applied to a state, splitting on its guards. *)
Ltac run_step :=
  progress unfold mbind, handler_bind, mret, handler_ret, throw, raise, query, write, try_write,
    commit, effect, observe, lift, catch, when, request in *; simpl in *.

Ltac run H := cbv [mbind handler_bind mret handler_ret throw raise query write try_write commit
  effect observe lift catch when request] in H; simpl in H.

(** ** Weakest preconditions of handlers

    [wp m Φ w]: running [m] from [w] ends, with a value or an exception, in a
    state where [Φ] holds of the outcome and the state. *)
Section wp.
Context {D X C : Type}.
Implicit Types w : uow D X.

Definition wp {A} (m : handler D X C A) (Φ : outcome (exn C) A → uow D X → Prop) (w : uow D X) : Prop :=
  Φ (m w).1 (m w).2.

Lemma wp_run {A} (m : handler D X C A) Φ w r w' : wp m Φ w → m w = (r, w') → Φ r w'.
Proof. unfold wp. intros H E. by rewrite E in H. Qed.

Lemma wp_mono {A} (m : handler D X C A) (Φ Ψ : outcome (exn C) A → uow D X → Prop) w :
  wp m Φ w → (∀ r w', Φ r w' → Ψ r w') → wp m Ψ w.
Proof. unfold wp. auto. Qed.

Lemma wp_bind {A B} (m : handler D X C A) (k : A → handler D X C B) Φ w :
  wp m (λ r w', match r with Ok a => wp (k a) Φ w' | Raise e => Φ (Raise e) w' end) w →
  wp (m ≫= k) Φ w.
Proof. unfold wp, mbind, handler_bind. by destruct (m w) as [[a|e] w1]. Qed.

Lemma wp_ret {A} (a : A) Φ w : Φ (Ok a) w → wp (mret (M := handler D X C) a) Φ w.
Proof. done. Qed.

Lemma wp_throw {A} (e : exn C) (Φ : outcome (exn C) A → uow D X → Prop) w : Φ (Raise e) w → wp (throw e) Φ w.
Proof. done. Qed.

Lemma wp_raise {A} (c : C) (Φ : outcome (exn C) A → uow D X → Prop) w :
  Φ (Raise (AppError c)) w → wp (raise c) Φ w.
Proof. done. Qed.

Lemma wp_query {A} (f : D → A) (Φ : outcome (exn C) A → uow D X → Prop) w :
  Φ (Ok (f (tx w))) w → wp (query f) Φ w.
Proof. done. Qed.

Lemma wp_observe {A} (f : X → A) (Φ : outcome (exn C) A → uow D X → Prop) w :
  Φ (Ok (f (ext w))) w → wp (observe f) Φ w.
Proof. done. Qed.

Lemma wp_write (f : D → D) (Φ : outcome (exn C) unit → uow D X → Prop) w :
  Φ (Ok tt) (Uow (db w) (f (tx w)) (ext w)) → wp (write f) Φ w.
Proof. done. Qed.

Lemma wp_commit (Φ : outcome (exn C) unit → uow D X → Prop) w :
  Φ (Ok tt) (Uow (tx w) (tx w) (ext w)) → wp commit Φ w.
Proof. done. Qed.

Lemma wp_effect (f : X → X) (Φ : outcome (exn C) unit → uow D X → Prop) w :
  Φ (Ok tt) (Uow (db w) (tx w) (f (ext w))) → wp (effect f) Φ w.
Proof. done. Qed.

Lemma wp_lift {A} (o : outcome (exn C) A) (Φ : outcome (exn C) A → uow D X → Prop) w :
  Φ o w → wp (lift o) Φ w.
Proof. done. Qed.

Lemma wp_try_write (f : D → outcome pyerr D) (Φ : outcome (exn C) unit → uow D X → Prop) w :
  (∀ d, f (tx w) = Ok d → Φ (Ok tt) (Uow (db w) d (ext w))) →
  (∀ k, f (tx w) = Raise k → Φ (Raise (PyError k)) w) → wp (try_write f) Φ w.
Proof. unfold wp, try_write. destruct (f (tx w)); naive_solver. Qed.

Lemma wp_catch {A} (m : handler D X C A) h Φ w :
  wp m (λ r w', match r with Ok a => Φ (Ok a) w' | Raise e => wp (h e) Φ w' end) w →
  wp (catch m h) Φ w.
Proof. unfold wp, catch. by destruct (m w) as [[a|e] w1]. Qed.

Lemma wp_when (b : bool) (m : handler D X C unit) Φ w :
  (b = true → wp m Φ w) → (b = false → Φ (Ok tt) w) → wp (when b m) Φ w.
Proof. destruct b; intros H1 H2; [by apply H1|by apply H2]. Qed.

(** A loop keeps an invariant that each iteration keeps and that an exception
    in the middle keeps too. *)
Lemma wp_for_each {A} (I : uow D X → Prop) (l : list A) (body : A → handler D X C unit) w :
  I w → (∀ a w, a ∈ l → I w → wp (body a) (λ _ w', I w') w) →
  wp (for_each l body) (λ _ w', I w') w.
Proof.
  revert w. induction l as [|a l IH]; intros w Hw Hb; simpl; [done|].
  apply wp_bind. eapply wp_mono; [apply Hb; [set_solver|done]|].
  intros [[]|e] w' Hw'; [|done]. apply IH; [done|]. intros b w0 Hin. apply Hb. set_solver.
Qed.

Lemma wp_request {A} (m : handler D X C A) (P : outcome (exn C) A → D → X → Prop) d x :
  wp m (λ r w, P r (db w) (ext w)) (Uow d d x) →
  P (request m d x).1.1 (request m d x).1.2 (request m d x).2.
Proof. unfold wp, request. by destruct (m _) as [r w]. Qed.
End wp.

(** Symbolic execution: one rule per primitive; conditionals and matches on
    data are split, keeping the guard as a hypothesis. *)
Ltac wp_step :=
  match goal with
  | |- wp (_ ≫= _) _ _ => apply wp_bind
  | |- wp (mret _) _ _ => apply wp_ret
  | |- wp (throw _) _ _ => apply wp_throw
  | |- wp (raise _) _ _ => apply wp_raise
  | |- wp (query _) _ _ => apply wp_query
  | |- wp (observe _) _ _ => apply wp_observe
  | |- wp (write _) _ _ => apply wp_write
  | |- wp commit _ _ => apply wp_commit
  | |- wp (effect _) _ _ => apply wp_effect
  | |- wp (lift _) _ _ => apply wp_lift
  | |- wp (when _ _) _ _ => apply wp_when; intros ?
  | |- wp (catch _ _) _ _ => apply wp_catch
  | |- wp (try_write _) _ _ => apply wp_try_write; intros ? ?
  | |- wp (if ?b then _ else _) _ _ => destruct b eqn:?
  | |- wp (match ?x with _ => _ end) _ _ => destruct x eqn:?
  | |- match ?o with Ok _ => _ | Raise _ => _ end => destruct o eqn:?
  end; cbv beta iota; cbn [db tx ext].

Ltac wp_go := repeat wp_step.

(** ** Invariants of the database

    [stable P m]: [m] keeps [P] true of the committed database and of the
    session's view, whatever it returns and also where it raises. *)
Section stable.
Context {D X C : Type} (P : D → Prop).
Implicit Types w : uow D X.

Definition stable {A} (m : handler D X C A) : Prop := ∀ w,
  P (db w) → P (tx w) → wp m (λ _ w', P (db w') ∧ P (tx w')) w.

Lemma stable_ret {A} (a : A) : stable (mret (M := handler D X C) a).
Proof. by intros w H1 H2. Qed.

Lemma stable_throw {A} (e : exn C) : stable (A := A) (throw e).
Proof. by intros w H1 H2. Qed.

Lemma stable_raise {A} (c : C) : stable (A := A) (raise c).
Proof. by intros w H1 H2. Qed.

Lemma stable_query {A} (f : D → A) : stable (query f).
Proof. by intros w H1 H2. Qed.

Lemma stable_observe {A} (f : X → A) : stable (observe f).
Proof. by intros w H1 H2. Qed.

Lemma stable_effect (f : X → X) : stable (effect f).
Proof. by intros w H1 H2. Qed.

Lemma stable_lift {A} (o : outcome (exn C) A) : stable (lift o).
Proof. by intros w H1 H2. Qed.

Lemma stable_commit : stable commit.
Proof. by intros w H1 H2. Qed.

Lemma stable_write (f : D → D) : (∀ d, P d → P (f d)) → stable (write f).
Proof. intros Hf w H1 H2. split; [done|by apply Hf]. Qed.

Lemma stable_try_write (f : D → outcome pyerr D) : (∀ d d', P d → f d = Ok d' → P d') → stable (try_write f).
Proof. intros Hf w H1 H2. apply wp_try_write; [|done]. intros d Hd. split; [done|by eapply Hf]. Qed.

Lemma stable_bind {A B} (m : handler D X C A) (k : A → handler D X C B) :
  stable m → (∀ a, stable (k a)) → stable (m ≫= k).
Proof.
  intros Hm Hk w H1 H2. apply wp_bind. eapply wp_mono; [by apply Hm|]. intros [a|e] w' [H1' H2']; [by apply Hk|done].
Qed.

Lemma stable_when b (m : handler D X C unit) : stable m → stable (when b m).
Proof. intros Hm. destruct b; [done|apply stable_ret]. Qed.

Lemma stable_for_each {A} (l : list A) (f : A → handler D X C unit) : (∀ a, stable (f a)) → stable (for_each l f).
Proof. intros Hf. induction l; simpl; [apply stable_ret|by apply stable_bind]. Qed.

Lemma stable_request {A} (m : handler D X C A) d x : stable m → P d → P (request m d x).1.2.
Proof.
  intros Hm Hd. apply (wp_request m (λ _ d' _, P d')). eapply wp_mono; [by apply Hm|]. by intros r w [H _].
Qed.
End stable.

Ltac stable_step :=
  match goal with
  | |- stable _ (_ ≫= _) => apply stable_bind; [|intros ?]
  | |- stable _ (mret _) => apply stable_ret
  | |- stable _ (throw _) => apply stable_throw
  | |- stable _ (raise _) => apply stable_raise
  | |- stable _ (query _) => apply stable_query
  | |- stable _ (observe _) => apply stable_observe
  | |- stable _ (effect _) => apply stable_effect
  | |- stable _ (lift _) => apply stable_lift
  | |- stable _ commit => apply stable_commit
  | |- stable _ (when _ _) => apply stable_when
  | |- stable _ (for_each _ _) => apply stable_for_each; intros ?
  | |- stable _ (write _) => apply stable_write; intros ? ?
  | |- stable _ (try_write _) => apply stable_try_write; intros ? ? ? ?
  | |- stable _ (if ?b then _ else _) => destruct b eqn:?
  | |- stable _ (match ?x with _ => _ end) => destruct x eqn:?
  end.

Ltac stable_go := repeat (cbv beta iota zeta; stable_step).

(** Post-processing the answer of a request changes nothing else. *)
Lemma request_map {D X C A B} (m : handler D X C A) (f : A → B) d x :
  request (m ≫= λ a, mret (f a)) d x =
    (match (request m d x).1.1 with Ok a => Ok (f a) | Raise e => Raise e end, (request m d x).1.2, (request m d x).2).
Proof. unfold request, mbind, handler_bind. by destruct (m (Uow d d x)) as [[a|e] w]. Qed.
