(* ===== verification/Relational.v ===== *)
(** * Two runs of a handler

    Non-interference of the unit of work: [alike m m' Q] says that from states a
    [view] of the database cannot tell apart, [m] and [m'] end in such states, raise
    the same exception or answer values related by [Q].  What the view forgets
    cannot influence what a client sees. *)
From S2P Require Import Prelude UnitOfWork.

Section alike.
Context {D X C O : Type} (view : D → O).
Implicit Types w : uow D X.

(** Same views of the committed database and of the session, same outside. *)
Definition same_view w w' : Prop := view (db w) = view (db w') ∧ view (tx w) = view (tx w') ∧ ext w = ext w'.

Definition agree {A B} (Q : A → B → Prop) (r : outcome (exn C) A) (r' : outcome (exn C) B) : Prop :=
  match r, r' with
  | Ok a, Ok b => Q a b
  | Raise e, Raise e' => e = e'
  | _, _ => False
  end.

Definition alike {A B} (m : handler D X C A) (m' : handler D X C B) (Q : A → B → Prop) : Prop := ∀ w w',
  same_view w w' → agree Q (m w).1 (m' w').1 ∧ same_view (m w).2 (m' w').2.

Lemma alike_ret {A B} (a : A) (b : B) (Q : A → B → Prop) : Q a b → alike (mret a) (mret b) Q.
Proof. by intros HQ w w' Hw. Qed.

Lemma alike_throw {A B} e (Q : A → B → Prop) : alike (throw e) (throw e) Q.
Proof. by intros w w' Hw. Qed.

Lemma alike_raise {A B} c (Q : A → B → Prop) : alike (raise c) (raise c) Q.
Proof. by intros w w' Hw. Qed.

Lemma alike_lift {A B} (o : outcome (exn C) A) (o' : outcome (exn C) B) Q : agree Q o o' → alike (lift o) (lift o') Q.
Proof. by intros HQ w w' Hw. Qed.

Lemma alike_query {A B} (f : D → A) (g : D → B) (Q : A → B → Prop) :
  (∀ d d', view d = view d' → Q (f d) (g d')) → alike (query f) (query g) Q.
Proof. intros Hf w w' Hw. split; [|done]. by apply Hf, Hw. Qed.

Lemma alike_write f g : (∀ d d', view d = view d' → view (f d) = view (g d')) → alike (write f) (write g) (λ _ _, True).
Proof. intros Hf w w' (Hd & Ht & He). split; [done|]. split_and!; [done|by apply Hf|done]. Qed.

Lemma alike_try_write f g :
  (∀ d d', view d = view d' →
    match f d, g d' with Ok e, Ok e' => view e = view e' | Raise k, Raise k' => k = k' | _, _ => False end) →
  alike (try_write f) (try_write g) (λ _ _, True).
Proof.
  intros Hf w w' (Hd & Ht & He). specialize (Hf _ _ Ht). unfold try_write.
  destruct (f (tx w)) as [e|k], (g (tx w')) as [e'|k']; try done; simpl; subst; by split_and!.
Qed.

Lemma alike_commit : alike commit commit (λ _ _, True).
Proof. by intros w w' (Hd & Ht & He). Qed.

Lemma alike_effect f : alike (effect f) (effect f) (λ _ _, True).
Proof. intros w w' (Hd & Ht & He). split; [done|]. split_and!; [done|done|]. simpl. by rewrite He. Qed.

Lemma alike_bind {A A' B B'} (m : handler D X C A) (m' : handler D X C A') (k : A → handler D X C B) (k' : A' → handler D X C B')
    (P : A → A' → Prop) (Q : B → B' → Prop) :
  alike m m' P → (∀ a a', P a a' → alike (k a) (k' a') Q) → alike (m ≫= k) (m' ≫= k') Q.
Proof.
  intros Hm Hk w w' Hw. destruct (Hm w w' Hw) as [Ha Hs]. unfold mbind, handler_bind.
  destruct (m w) as [[a|e] w1], (m' w') as [[a'|e'] w1']; simpl in *; try done. by apply Hk.
Qed.

Lemma alike_when b (m m' : handler D X C unit) : alike m m' (λ _ _, True) → alike (when b m) (when b m') (λ _ _, True).
Proof. intros Hm. destruct b; [done|by apply alike_ret]. Qed.

Lemma alike_mono {A B} (m : handler D X C A) (m' : handler D X C B) (P Q : A → B → Prop) :
  alike m m' P → (∀ a b, P a b → Q a b) → alike m m' Q.
Proof.
  intros Hm HPQ w w' Hw. destruct (Hm w w' Hw) as [Ha Hs]. split; [|done].
  destruct (m w).1, (m' w').1; simpl in *; auto.
Qed.

(** One request each, from committed states with the same view. *)
Lemma alike_request {A B} (m : handler D X C A) (m' : handler D X C B) Q (w w' : D * X) :
  alike m m' Q → view w.1 = view w'.1 → w.2 = w'.2 →
  agree Q (action_of m w).1 (action_of m' w').1 ∧
  view (action_of m w).2.1 = view (action_of m' w').2.1 ∧ (action_of m w).2.2 = (action_of m' w').2.2.
Proof.
  intros Hm Hd Hx. destruct (Hm (Uow w.1 w.1 w.2) (Uow w'.1 w'.1 w'.2)) as [Ha (Hdb & _ & He)]; [by split_and!|].
  unfold action_of, request. destruct (m _) as [r u], (m' _) as [r' u']. done.
Qed.
End alike.

(** One rule per primitive; guards on equal data are split together. *)
Ltac alike_step :=
  match goal with
  | |- alike _ (_ ≫= _) (_ ≫= _) _ => eapply alike_bind; [|intros ? ? ?]
  | |- alike _ (mret _) (mret _) _ => apply alike_ret
  | |- alike _ (throw _) (throw _) _ => apply alike_throw
  | |- alike _ (raise _) (raise _) _ => apply alike_raise
  | |- alike _ commit commit _ => apply alike_commit
  | |- alike _ (effect _) (effect _) _ => apply alike_effect
  | |- alike _ (when _ _) (when _ _) _ => apply alike_when
  | |- alike _ (if ?b then _ else _) (if ?b then _ else _) _ => destruct b
  | |- alike _ (match ?x with _ => _ end) (match ?x with _ => _ end) _ => destruct x
  end.
Ltac alike_go := repeat (cbv beta iota zeta; alike_step).
