(* ===== verification/Tables.v ===== *)
(** * Tables keyed by an id

    [moves R m m']: every row of [m] is still in [m'], changed at most along
    [R].  The services' lifecycle theorems are statements of this form, with one
    rule for inserting a new row and one for updating an existing one. *)
From S2P Require Import Prelude.

Section tables.
Context {K A : Type} `{Countable K}.
Implicit Types (R : relation A) (m : gmap K A).

Definition moves R m m' : Prop := ∀ k r, m !! k = Some r → ∃ r', m' !! k = Some r' ∧ R r r'.

#[global] Instance moves_preorder R `{!PreOrder R} : PreOrder (moves R).
Proof.
  split.
  - intros m k r Hr. exists r. by split.
  - intros m1 m2 m3 H12 H23 k r Hr. destruct (H12 k r Hr) as (r2 & Hr2 & HR).
    destruct (H23 k r2 Hr2) as (r3 & Hr3 & HR'). exists r3. split; [done|by etrans].
Qed.

Lemma moves_insert R `{!PreOrder R} m k r : m !! k = None → moves R m (<[k := r]> m).
Proof.
  intros Hn k' r' Hr'. exists r'. split; [|done]. rewrite lookup_insert_ne; [done|congruence].
Qed.

Lemma moves_alter R `{!PreOrder R} m k f :
  (∀ r, m !! k = Some r → R r (f r)) → moves R m (alter f k m).
Proof.
  intros Hf k' r' Hr'. destruct (decide (k' = k)) as [->|Hne].
  - exists (f r'). split; [by rewrite lookup_alter_eq, Hr'|by apply Hf].
  - exists r'. split; [by rewrite lookup_alter_ne|done].
Qed.

Lemma map_Forall_alter_2 (P : K → A → Prop) m k f :
  map_Forall P m → (∀ r, m !! k = Some r → P k r → P k (f r)) → map_Forall P (alter f k m).
Proof.
  intros Hm Hf k' r' Hr'. destruct (decide (k' = k)) as [->|Hne].
  - rewrite lookup_alter_eq in Hr'. destruct (m !! k) as [r|] eqn:E; [|done]. injection Hr' as <-.
    apply Hf; [done|by apply Hm].
  - rewrite lookup_alter_ne in Hr' by done. by apply Hm.
Qed.

(** The rows of a table as a list. *)
Lemma elem_of_values m r : r ∈ (map_to_list m).*2 ↔ ∃ k, m !! k = Some r.
Proof.
  rewrite list_elem_of_fmap. split.
  - intros ([k r'] & -> & Hk%elem_of_map_to_list). by exists k.
  - intros [k Hk]. exists (k, r). split; [done|by apply elem_of_map_to_list].
Qed.

Lemma NoDup_values (id_of : A → K) m :
  (∀ k r, m !! k = Some r → id_of r = k) → NoDup (id_of <$> (map_to_list m).*2).
Proof.
  intros Hid. rewrite <- list_fmap_compose. erewrite list_fmap_ext; [apply NoDup_fst_map_to_list|].
  intros i [k r] Hk. apply list_elem_of_lookup_2, elem_of_map_to_list in Hk. simpl. by apply Hid.
Qed.

(** A unique column. *)
Definition unique_by {B} (f : A → B) m : Prop :=
  ∀ i j a b, m !! i = Some a → m !! j = Some b → f a = f b → i = j.

Lemma unique_by_alter {B} (f : A → B) m k g :
  unique_by f m → (∀ a, f (g a) = f a) → unique_by f (alter g k m).
Proof.
  intros Hu Hg i j a b Ha Hb Hab.
  assert (Hold : ∀ i a, alter g k m !! i = Some a → ∃ a0, m !! i = Some a0 ∧ f a0 = f a).
  { intros i' a' [(-> & a0 & ? & ->)|[? ?]]%lookup_alter_Some; eauto. }
  destruct (Hold i a Ha) as (a0 & ? & ?), (Hold j b Hb) as (b0 & ? & ?). apply (Hu i j a0 b0); congruence.
Qed.

Lemma unique_by_fmap {B} (f : A → B) m g : unique_by f m → (∀ a, f (g a) = f a) → unique_by f (g <$> m).
Proof.
  intros Hu Hg i j a b. rewrite !lookup_fmap. intros (a0 & ? & ->)%fmap_Some (b0 & ? & ->)%fmap_Some.
  rewrite !Hg. by apply Hu.
Qed.

Lemma unique_by_insert {B} (f : A → B) m k a :
  unique_by f m → (∀ j b, m !! j = Some b → f b ≠ f a) → unique_by f (<[k := a]> m).
Proof.
  intros Hu Hn i j x y. rewrite !lookup_insert_Some. intros [[<- <-]|[? Hi]] [[<- <-]|[? Hj]] Hxy; try done.
  - by destruct (Hn j y Hj).
  - by destruct (Hn i x Hi).
  - by eapply Hu.
Qed.

(** A lookup by a column, as the repositories do it: the first row found. *)
Lemma head_by_some (P : K * A → Prop) `{∀ x, Decision (P x)} m k a :
  head (filter P (map_to_list m)) = Some (k, a) → P (k, a) ∧ m !! k = Some a.
Proof. intros [Hin HP]%head_filter_some. by apply elem_of_map_to_list in Hin. Qed.

Lemma head_by_none (P : K * A → Prop) `{∀ x, Decision (P x)} m k a :
  head (filter P (map_to_list m)) = None → m !! k = Some a → ¬ P (k, a).
Proof. rewrite head_filter_none. intros Hn Hk. apply Hn. by apply elem_of_map_to_list. Qed.

Lemma head_by_unique {B} (f : A → B) `{EqDecision B} m k a :
  unique_by f m → m !! k = Some a → head (filter (λ kv, f kv.2 = f a) (map_to_list m)) = Some (k, a).
Proof.
  intros Hu Hk. destruct (head _) as [[k' a']|] eqn:E.
  - apply head_by_some in E as [Hf Hk']. simpl in Hf. assert (k' = k) as -> by by eapply Hu. congruence.
  - by apply (head_by_none _ _ k a E) in Hk.
Qed.

Lemma moves_fmap R m g : (∀ a, R a (g a)) → moves R m (g <$> m).
Proof. intros Hg k r Hr. exists (g r). split; [by rewrite lookup_fmap, Hr|apply Hg]. Qed.
End tables.

(** Filtering and sorting by what a column change keeps. *)
Lemma filter_fmap_same {A B} (f : A → B) (P : A → Prop) (Q : B → Prop) {DP : ∀ a, Decision (P a)} {DQ : ∀ b, Decision (Q b)} (l : list A) :
  (∀ a, P a ↔ Q (f a)) → filter Q (f <$> l) = f <$> filter P l.
Proof.
  intros HPQ. induction l as [|a l IH]; [done|]. rewrite fmap_cons, !filter_cons.
  destruct (decide (P a)) as [HP|HP].
  - rewrite (decide_True (P := Q (f a))) by by apply HPQ. by rewrite IH.
  - rewrite (decide_False (P := Q (f a))); [done|]. by rewrite <- HPQ.
Qed.

Section sorting.
Context {A B : Type} (f : A → B) (RA : relation A) (RB : relation B) `{!RelDecision RA} `{!RelDecision RB}.
Hypothesis HR : ∀ a b, RA a b ↔ RB (f a) (f b).

Lemma list_merge_fmap l1 l2 : list_merge RB (f <$> l1) (f <$> l2) = f <$> list_merge RA l1 l2.
Proof.
  revert l2. induction l1 as [|a l1 IH1]; intros l2; [by destruct l2|]. induction l2 as [|b l2 IH2]; [done|].
  cbn -[decide] in *. destruct (decide (RA a b)) as [Hr|Hr].
  - rewrite (decide_True (P := RB _ _)) by by apply HR. cbn -[decide]. f_equal. apply (IH1 (b :: l2)).
  - rewrite (decide_False (P := RB _ _)) by by rewrite <- HR. cbn -[decide]. f_equal. exact IH2.
Qed.

Definition mapped (st : list (option (list A))) : list (option (list B)) := fmap (M := option) (fmap (M := list) f) <$> st.

Lemma merge_list_to_stack_fmap st l : merge_list_to_stack RB (mapped st) (f <$> l) = mapped (merge_list_to_stack RA st l).
Proof.
  revert l. induction st as [|[l'|] st IH]; intros l; simpl; [done| |done].
  f_equal. rewrite list_merge_fmap. apply IH.
Qed.

Lemma merge_stack_fmap st : merge_stack RB (mapped st) = f <$> merge_stack RA st.
Proof. induction st as [|[l|] st IH]; simpl; [done| |done]. by rewrite <- list_merge_fmap, IH. Qed.

Lemma merge_sort_fmap l : merge_sort RB (f <$> l) = f <$> merge_sort RA l.
Proof.
  unfold merge_sort. change (@nil (option (list B))) with (mapped []).
  generalize ([] : list (option (list A))). induction l as [|a l IH]; intros st; simpl; [by apply merge_stack_fmap|].
  rewrite <- IH. by rewrite <- (merge_list_to_stack_fmap st [a]).
Qed.
End sorting.

