(* ===== verification/Paging.v ===== *)
(** * Keyset pagination

    Every service pages its lists the same way: rows in descending order of a
    unique key, an optional cursor that keeps the rows strictly below it, one
    row more than the page size fetched to learn whether a next page exists,
    the key of the last row returned as the next cursor.  [page] is that
    query; [walk] is a client following the cursors to the end. *)
From S2P Require Import Prelude.

Section paging.
Context {A K : Type} (key : A → K) (lt : relation K).
Context `{!RelDecision lt}.

Definition below (c : option K) (x : A) : Prop :=
  match c with None => True | Some c => lt (key x) c end.

#[local] Instance below_dec c x : Decision (below c x).
Proof. destruct c; simpl; apply _. Defined.

(** [ORDER BY key DESC] *)
Definition desc (x y : A) : Prop := ¬ lt (key x) (key y).

#[local] Instance desc_dec : RelDecision desc.
Proof. intros x y. unfold desc. apply _. Defined.

(** [.limit(limit + 1)], then the next-page test. *)
Definition page (limit : nat) (c : option K) (rows : list A) : list A * option K :=
  let got := take (S limit) (merge_sort desc (filter (below c) rows)) in
  if (limit <? length got)%nat
  then (take limit got, key <$> last (take limit got))
  else (got, None).

Fixpoint walk (fuel limit : nat) (c : option K) (rows : list A) : list A :=
  let '(p, next) := page limit c rows in
  match next, fuel with
  | Some c', S fuel' => p ++ walk fuel' limit (Some c') rows
  | _, _ => p
  end.

Context `{!StrictOrder lt}.
Hypothesis lt_total : ∀ a b, lt a b ∨ a = b ∨ lt b a.

#[local] Instance desc_total : Total desc.
Proof.
  intros x y. unfold desc. destruct (lt_total (key x) (key y)) as [H|[H|H]].
  - right. intros H'. by apply (irreflexivity lt (key x)); etrans.
  - left. rewrite H. apply irreflexivity, _.
  - left. intros H'. by apply (irreflexivity lt (key x)); etrans.
Qed.

#[local] Instance desc_trans : Transitive desc.
Proof.
  intros x y z Hxy Hyz H. destruct (lt_total (key y) (key x)) as [H'|[H'|H']].
  - by apply Hyz; etrans.
  - apply Hyz. by rewrite H'.
  - done.
Qed.

Lemma desc_key x y : desc x y → desc y x → key x = key y.
Proof. intros. by destruct (lt_total (key x) (key y)) as [|[|]]. Qed.

Lemma sorted_rows rows : StronglySorted desc (merge_sort desc rows).
Proof. apply StronglySorted_merge_sort; apply _. Qed.

Lemma StronglySorted_filter (P : A → Prop) `{∀ x, Decision (P x)} l :
  StronglySorted desc l → StronglySorted desc (filter P l).
Proof.
  induction 1 as [|x l ? IH Hx]; [constructor|]. rewrite filter_cons.
  case_decide; [constructor; [done|by apply Forall_filter_sub]|done].
Qed.

(** Filtering before sorting is filtering after. *)
Lemma sort_filter (P : A → Prop) `{∀ x, Decision (P x)} rows :
  NoDup (key <$> rows) →
  merge_sort desc (filter P rows) = filter P (merge_sort desc rows).
Proof.
  intros Hnd. apply (StronglySorted_unique_strong desc).
  - intros x y Hx Hy ??. rewrite merge_sort_Permutation in Hx.
    apply list_elem_of_filter in Hx as [_ Hx]. apply list_elem_of_filter in Hy as [_ Hy].
    rewrite merge_sort_Permutation in Hy. by eapply (NoDup_map_inj key), desc_key.
  - apply sorted_rows.
  - apply StronglySorted_filter, sorted_rows.
  - rewrite merge_sort_Permutation. by rewrite (merge_sort_Permutation desc rows).
Qed.

(** In a sorted list with distinct keys, the rows below the key of a row are
    the rows after it. *)
Lemma below_suffix l1 x l2 :
  StronglySorted desc (l1 ++ x :: l2) → NoDup (key <$> (l1 ++ x :: l2)) →
  filter (below (Some (key x))) (l1 ++ x :: l2) = l2.
Proof.
  intros Hs Hnd. rewrite filter_app, filter_cons_False by (simpl; apply irreflexivity, _).
  rewrite fmap_app, fmap_cons in Hnd. apply NoDup_app in Hnd as (_ & Hd & [Hx Hl2]%NoDup_cons).
  apply StronglySorted_app in Hs as (Hc & _ & Hs2). apply StronglySorted_inv in Hs2 as [_ Hx2].
  rewrite filter_none, filter_all; [done| |].
  - intros y Hy. simpl. rewrite Forall_forall in Hx2.
    destruct (lt_total (key x) (key y)) as [H|[H|H]]; [by destruct (Hx2 y Hy)| |done].
    exfalso. apply Hx. rewrite H. by apply list_elem_of_fmap_2.
  - intros y Hy. simpl. apply (Hc y x); [done|]. set_solver.
Qed.

Lemma page_full limit c rows s :
  NoDup (key <$> rows) → filter (below c) (merge_sort desc rows) = s →
  (length s ≤ limit)%nat → page limit c rows = (s, None).
Proof.
  intros Hnd Hs Hlen. unfold page. rewrite sort_filter, Hs by done.
  rewrite (take_ge s) by lia. by rewrite (proj2 (Nat.ltb_ge _ _)) by lia.
Qed.

Lemma page_more limit c rows p x s :
  NoDup (key <$> rows) → filter (below c) (merge_sort desc rows) = p ++ x :: s → s ≠ [] →
  length p = limit → page (S limit) c rows = (p ++ [x], Some (key x)).
Proof.
  intros Hnd Hs Hne <-. unfold page. rewrite sort_filter, Hs by done.
  destruct s as [|y s]; [done|].
  replace (p ++ x :: y :: s) with ((p ++ [x; y]) ++ s) by by rewrite <- app_assoc.
  rewrite take_app_length' by (rewrite length_app; simpl; lia).
  rewrite length_app; simpl. rewrite (proj2 (Nat.ltb_lt _ _)) by lia.
  replace (p ++ [x; y]) with ((p ++ [x]) ++ [y]) by by rewrite <- app_assoc.
  rewrite take_app_length' by (rewrite length_app; simpl; lia).
  by rewrite last_snoc.
Qed.

Lemma split_at (limit : nat) (s : list A) :
  (S limit < length s)%nat → ∃ p x r, s = p ++ x :: r ∧ r ≠ [] ∧ length p = limit.
Proof.
  intros Hl. destruct (lookup_lt_is_Some_2 s limit) as [x Hx]; [lia|].
  exists (take limit s), x, (drop (S limit) s). split; [by rewrite take_drop_middle|].
  split; [|rewrite length_take; lia].
  intros Hd. apply (f_equal length) in Hd. rewrite length_drop in Hd. simpl in Hd. lia.
Qed.

Lemma walk_from fuel limit c rows pre s :
  NoDup (key <$> rows) → merge_sort desc rows = pre ++ s →
  filter (below c) (merge_sort desc rows) = s → (length s ≤ fuel)%nat →
  walk fuel (S limit) c rows = s.
Proof.
  intros Hnd. revert c pre s. induction fuel as [|fuel IH]; intros c pre s Hs Hf Hlen.
  { simpl. by rewrite (page_full _ _ _ s) by (done || lia). }
  destruct (decide (length s ≤ S limit)%nat) as [Hle|Hgt]; simpl.
  { by rewrite (page_full _ _ _ s). }
  destruct (split_at limit s) as (p & x & r & -> & Hr & Hp); [lia|].
  rewrite (page_more limit c rows p x r) by done.
  rewrite (IH _ (pre ++ p ++ [x]) r); [by rewrite <- app_assoc| | |].
  - by rewrite Hs, <- !app_assoc.
  - rewrite Hs, app_assoc. apply below_suffix.
    + rewrite <- app_assoc, <- Hs. apply sorted_rows.
    + rewrite <- app_assoc, <- Hs. by rewrite merge_sort_Permutation.
  - rewrite length_app in Hlen. simpl in Hlen. lia.
Qed.

(** Following the cursors visits every row once, in descending key order. *)
Lemma walk_complete fuel limit rows :
  NoDup (key <$> rows) → (0 < limit)%nat → (length rows ≤ fuel)%nat →
  walk fuel limit None rows = merge_sort desc rows.
Proof.
  intros Hnd Hl Hlen. destruct limit as [|limit]; [lia|].
  apply (walk_from _ _ _ _ []); [done|done| |by rewrite merge_sort_Permutation].
  by apply filter_all.
Qed.

Lemma page_length limit c rows : (length (page limit c rows).1 ≤ limit)%nat.
Proof.
  unfold page. case_match eqn:E; simpl; [rewrite length_take; lia|].
  apply Nat.ltb_ge in E. done.
Qed.
End paging.
