(* ===== verification/Sql.v ===== *)
(** * Relational schemas: the operations of the migrations and the checks of an insert

    What the services' [alembic/versions/*.py] and [db/models.py] use of Alembic,
    SQLAlchemy and PostgreSQL: tables with typed columns, server defaults,
    primary keys, unique constraints, (partial) unique indexes and foreign keys,
    the operations that create and drop them, and [INSERT] with every check the
    database makes.  One service owns one PostgreSQL schema. *)
From S2P Require Import Prelude PyText PyDecimal.

#[global] Instance json_eq_dec : EqDecision json.
Proof.
  refine (fix go x y := let _ : EqDecision json := @go in
    match x, y with
    | JNull, JNull => left eq_refl
    | JBool a, JBool b => cast_if (decide (a = b))
    | JInt a, JInt b => cast_if (decide (a = b))
    | JStr a, JStr b => cast_if (decide (a = b))
    | JList a, JList b => cast_if (decide (a = b))
    | JObj a, JObj b => cast_if (decide (a = b))
    | _, _ => right _
    end); try clear dependent go; abstract congruence.
Defined.

#[global] Instance outcome_eq_dec `{EqDecision E, EqDecision A} : EqDecision (outcome E A).
Proof. solve_decision. Defined.

#[global] Instance dec_eq_dec : EqDecision dec.
Proof. solve_decision. Defined.

Module Sql.
Open Scope Z_scope.

(** ** Types and values *)

(** [sa.Text()], [sa.String], [postgresql.UUID], ... *)
Inductive sqltype :=
| Text | Varchar | Uuid | SmallInteger | Integer | BigInteger | Numeric (precision scale : Z)
| Boolean | Timestamptz | Timestamp | Jsonb | Inet | TextArray.

(** The value of an attribute as the driver sends it.  A text for an INET column comes with whether PostgreSQL reads it
    as an address, which is not modelled; other texts hold no NUL character, which no column can. *)
Inductive value :=
| VText (s : string) | VUuid (u : uuid) | VInt (z : Z) | VDec (d : dec) | VBool (b : bool) | VTime (t : Z)
| VJson (j : json) | VInet (s : string) (address : bool) | VTexts (l : list string).

#[global] Instance sqltype_eq_dec : EqDecision sqltype.
Proof. solve_decision. Defined.

#[global] Instance value_eq_dec : EqDecision value.
Proof. solve_decision. Defined.

(** A row maps the columns that are not NULL to their values. *)
Notation row := (gmap string value).

Definition int_range (bits z : Z) : bool := (- 2 ^ (bits - 1) <=? z) && (z <? 2 ^ (bits - 1)).

(** NUMERIC(p, s): rounded to [s] places, halves away from zero, and refused
    from [10 ^ (p - s)] on. *)
Definition round_scale (s : Z) (d : dec) : Z := half_up (Dec (coef d) (expo d + s)).

Inductive sqlerr :=
| DuplicateTable | DuplicateColumn | UndefinedTable | UndefinedColumn | UndefinedObject | InvalidSchemaName
| InvalidForeignKey | DependentObjectsStillExist | DatatypeMismatch | NumericValueOutOfRange | NotNullViolation
| UniqueViolation | ForeignKeyViolation | InvalidTextRepresentation.

#[global] Instance sqlerr_eq_dec : EqDecision sqlerr.
Proof. solve_decision. Defined.

Notation result := (outcome sqlerr).

(** Whether the driver's value is of the column's type at all. *)
Definition has_type (ty : sqltype) (v : value) : bool :=
  match ty, v with
  | (Text | Varchar), VText _ | Uuid, VUuid _ | (SmallInteger | Integer | BigInteger), VInt _
  | Numeric _ _, (VInt _ | VDec _) | Boolean, VBool _ | (Timestamptz | Timestamp), VTime _
  | Jsonb, VJson _ | Inet, VInet _ _ | TextArray, VTexts _ => true
  | _, _ => false
  end.

(** The value a column stores for the value it is given. *)
Definition coerce (ty : sqltype) (v : value) : result value :=
  match ty, v with
  | SmallInteger, VInt z => if int_range 16 z then Ok v else Raise NumericValueOutOfRange
  | Integer, VInt z => if int_range 32 z then Ok v else Raise NumericValueOutOfRange
  | BigInteger, VInt z => if int_range 64 z then Ok v else Raise NumericValueOutOfRange
  | Numeric p s, VInt z => if Z.abs z <? 10 ^ (p - s) then Ok v else Raise NumericValueOutOfRange
  | Numeric p s, VDec d =>
      if Z.abs (round_scale s d) <? 10 ^ p then Ok (VDec (Dec (round_scale s d) (- s)))
      else Raise NumericValueOutOfRange
  | Inet, VInet _ address => if address then Ok v else Raise InvalidTextRepresentation
  | _, _ => if has_type ty v then Ok v else Raise DatatypeMismatch
  end.

(** ** Tables *)

Inductive default := Now | Const (v : value).

Record Column := mkColumn {
  col_name : string; col_type : sqltype; nullable : bool; server_default : option default; autoincrement : bool }.

(** What an index is built on: a column (in either order) or [(col->>'key')]. *)
Inductive ixexpr := Col (c : string) | Desc (c : string) | JsonText (c key : string).

(** [postgresql_where] *)
Inductive predicate := IsNull (c : string) | IsNotNull (c : string) | OneOf (c : string) (vs : list string).

Record Index := mkIndex { ix_name : string; ix_on : list ixexpr; ix_unique : bool; ix_where : option predicate }.

Record ForeignKey := mkFk { fk_col : string; fk_table : string; fk_ref : string }.

Record Table := mkTable {
  columns : list Column; primary_key : list string; foreign_keys : list ForeignKey; indexes : list Index;
  next_serial : Z; rows : list row }.

#[global] Instance default_eq_dec : EqDecision default.
Proof. solve_decision. Defined.
#[global] Instance Column_eq_dec : EqDecision Column.
Proof. solve_decision. Defined.
#[global] Instance ixexpr_eq_dec : EqDecision ixexpr.
Proof. solve_decision. Defined.
#[global] Instance predicate_eq_dec : EqDecision predicate.
Proof. solve_decision. Defined.
#[global] Instance Index_eq_dec : EqDecision Index.
Proof. solve_decision. Defined.
#[global] Instance ForeignKey_eq_dec : EqDecision ForeignKey.
Proof. solve_decision. Defined.

Record db := mkDb { schema : bool; tables : gmap string Table }.

Definition empty : db := mkDb false ∅.

Definition on_tables f (d : db) : db := mkDb (schema d) (f (tables d)).
Definition on_rows f (t : Table) : Table :=
  mkTable (columns t) (primary_key t) (foreign_keys t) (indexes t) (next_serial t) (f (rows t)).
Definition on_indexes f (t : Table) : Table :=
  mkTable (columns t) (primary_key t) (foreign_keys t) (f (indexes t)) (next_serial t) (rows t).

Definition find_column (c : string) (t : Table) : option Column :=
  head (filter (λ col, col_name col = c) (columns t)).

(** ** INSERT *)

Definition ixval (e : ixexpr) (r : row) : option value :=
  match e with
  | Col c | Desc c => r !! c
  | JsonText c key =>
      match r !! c with
      | Some (VJson (JObj o)) =>
          match head (filter (λ kv, kv.1 = key) (reverse o)) with
          | Some (_, JStr s) => Some (VText s)
          | Some (_, JNull) | None => None
          | Some (_, j) => Some (VJson j)
          end
      | _ => None
      end
  end.

Definition holds (p : predicate) (r : row) : bool :=
  match p with
  | IsNull c => bool_decide (r !! c = None)
  | IsNotNull c => bool_decide (is_Some (r !! c))
  | OneOf c vs => match r !! c with Some (VText s) => bool_decide (s ∈ vs) | _ => false end
  end.

(** The key a row has in an index: nothing when it is outside the index's
    predicate or a component is NULL, since NULLs are distinct. *)
Definition index_key (ix : Index) (r : row) : option (list value) :=
  if (match ix_where ix with Some p => holds p r | None => true end)
  then mapM (λ e, ixval e r) (ix_on ix) else None.

Definition clashes (ix : Index) (r r' : row) : bool :=
  ix_unique ix && match index_key ix r with Some k => bool_decide (index_key ix r' = Some k) | None => false end.

(** The primary key as an index. *)
Definition pk_index (t : Table) : Index := mkIndex "" (Col <$> primary_key t) true None.

Definition unique_ok (t : Table) (r : row) : bool :=
  forallb (λ ix, forallb (λ r', negb (clashes ix r r')) (rows t)) (pk_index t :: indexes t).

Definition fk_ok (d : db) (r : row) (fk : ForeignKey) : bool :=
  match r !! fk_col fk with
  | None => true
  | Some v =>
      match tables d !! fk_table fk with
      | Some t => existsb (λ r', bool_decide (r' !! fk_ref fk = Some v)) (rows t)
      | None => false
      end
  end.

Definition default_value (now : Z) (d : default) : value := match d with Now => VTime now | Const v => v end.

(** The value of one column of the new row: what the statement gives (NULL
    included), the sequence or the server default when it gives nothing. *)
Definition supplied (now serial : Z) (given : gmap string (option value)) (c : Column) : option value :=
  match given !! col_name c with
  | Some o => o
  | None => if autoincrement c then Some (VInt serial) else default_value now <$> server_default c
  end.

Fixpoint build_row (now serial : Z) (given : gmap string (option value)) (cs : list Column) : result row :=
  match cs with
  | [] => Ok ∅
  | c :: cs =>
      let? r := build_row now serial given cs in
      match supplied now serial given c with
      | None => if nullable c then Ok r else Raise NotNullViolation
      | Some v => let? v' := coerce (col_type c) v in Ok (<[col_name c := v']> r)
      end
  end.

(** [INSERT INTO name (..) VALUES (..)]; the answer is the stored row. *)
Definition insert (now : Z) (name : string) (given : gmap string (option value)) (d : db) : result (row * db) :=
  match tables d !! name with
  | None => Raise UndefinedTable
  | Some t =>
      if negb (forallb (λ kv, bool_decide (is_Some (find_column kv.1 t))) (map_to_list given)) then Raise UndefinedColumn
      else
        let? r := build_row now (next_serial t) given (columns t) in
        if negb (unique_ok t r) then Raise UniqueViolation
        else if negb (forallb (fk_ok d r) (foreign_keys t)) then Raise ForeignKeyViolation
        else Ok (r, on_tables <[name := mkTable (columns t) (primary_key t) (foreign_keys t) (indexes t)
                                        (next_serial t + 1) (rows t ++ [r])]> d)
  end.

(** ** The operations of a migration *)

(** The arguments of [sa.Column] and [mapped_column]; [ClientDefault] is
    [default=..], a value SQLAlchemy itself supplies. *)
Inductive colopt :=
| PrimaryKey | NotNull | Nullable | Unique (key : string) | ServerDefault (d : default) | AutoIncrement
| References (table col : string) | ClientDefault.

#[global] Instance colopt_eq_dec : EqDecision colopt.
Proof. solve_decision. Defined.

(** [sa.Column(name, type, ...)] or [sa.UniqueConstraint(cols, name=...)] in [op.create_table]. *)
Inductive item :=
| column (name : string) (ty : sqltype) (opts : list colopt)
| UniqueConstraint (name : string) (cols : list string).

Inductive ddl :=
| create_schema
| create_table (name : string) (items : list item)
| create_index (name table : string) (on : list ixexpr) (unique : bool) (where_ : option predicate)
| add_column (table : string) (name : string) (ty : sqltype) (opts : list colopt)
| bulk_insert (table : string) (rs : list (list (string * option value)))
| drop_table (name : string)
| drop_index (name : string)
| drop_index_if_exists (name : string)
| drop_column (table col : string).

Definition defaults_of (opts : list colopt) : option default :=
  head (omap (λ o, match o with ServerDefault d => Some d | _ => None end) opts).

(** A column is nullable unless it says otherwise or is part of the key. *)
Definition to_column (name : string) (ty : sqltype) (opts : list colopt) : Column :=
  mkColumn name ty (bool_decide (NotNull ∉ opts) && bool_decide (PrimaryKey ∉ opts)) (defaults_of opts)
    (bool_decide (AutoIncrement ∈ opts)).

Definition item_columns (its : list item) : list Column :=
  omap (λ i, match i with column n ty os => Some (to_column n ty os) | _ => None end) its.

Definition item_pk (its : list item) : list string :=
  omap (λ i, match i with column n _ os => if bool_decide (PrimaryKey ∈ os) then Some n else None | _ => None end) its.

Definition item_fks (its : list item) : list ForeignKey :=
  mjoin ((λ i, match i with
               | column n _ os => omap (λ o, match o with References t c => Some (mkFk n t c) | _ => None end) os
               | _ => []
               end) <$> its).

(** [unique=True] and [UniqueConstraint] are enforced by an index. *)
Definition item_uniques (its : list item) : list Index :=
  mjoin ((λ i, match i with
               | column n _ os =>
                   omap (λ o, match o with Unique k => Some (mkIndex k [Col n] true None) | _ => None end) os
               | UniqueConstraint n cs => [mkIndex n (Col <$> cs) true None]
               end) <$> its).

Definition table_of (its : list item) : Table :=
  mkTable (item_columns its) (item_pk its) (item_fks its) (item_uniques its) 1 [].

(** Tables and indexes share one name space. *)
Definition relation_names (d : db) : list string :=
  mjoin ((λ nt, nt.1 :: (ix_name <$> indexes nt.2)) <$> map_to_list (tables d)).

Definition expr_column (e : ixexpr) : string := match e with Col c | Desc c | JsonText c _ => c end.
Definition pred_column (p : predicate) : string := match p with IsNull c | IsNotNull c | OneOf c _ => c end.

Definition index_columns (ix : Index) : list string :=
  (expr_column <$> ix_on ix) ++ match ix_where ix with Some p => [pred_column p] | None => [] end.

Definition known (t : Table) (cs : list string) : bool := forallb (λ c, bool_decide (is_Some (find_column c t))) cs.

(** A foreign key refers to a key of the other table. *)
Definition fk_target_ok (ts : gmap string Table) (fk : ForeignKey) : bool :=
  match ts !! fk_table fk with
  | Some t => bool_decide (primary_key t = [fk_ref fk])
  | None => false
  end.

Fixpoint insert_all (now : Z) (name : string) (rs : list (list (string * option value))) (d : db) : result db :=
  match rs with
  | [] => Ok d
  | r :: rs => let? rd := insert now name (list_to_map r) d in insert_all now name rs rd.2
  end.

(** Whether an existing table satisfies a new unique index. *)
Fixpoint all_distinct (ix : Index) (rs : list row) : bool :=
  match rs with
  | [] => true
  | r :: rs => forallb (λ r', negb (clashes ix r r')) rs && all_distinct ix rs
  end.

Definition referenced (d : db) (name : string) (P : ForeignKey → bool) : bool :=
  existsb (λ nt, bool_decide (nt.1 ≠ name) && existsb (λ fk, bool_decide (fk_table fk = name) && P fk) (foreign_keys nt.2))
    (map_to_list (tables d)).

Definition fill_column (now : Z) (c : Column) (r : row) : row :=
  match server_default c with Some d => <[col_name c := default_value now d]> r | None => r end.

Definition drop_named (name : string) (d : db) : db :=
  on_tables (fmap (on_indexes (filter (λ ix, ix_name ix ≠ name)))) d.

Definition step (now : Z) (o : ddl) (d : db) : result db :=
  match o with
  | create_schema => Ok (mkDb true (tables d))
  | create_table name its =>
      let t := table_of its in
      if negb (schema d) then Raise InvalidSchemaName
      else if bool_decide (name ∈ relation_names d) || existsb (λ ix, bool_decide (ix_name ix ∈ relation_names d)) (indexes t)
      then Raise DuplicateTable
      else if negb (bool_decide (NoDup (col_name <$> columns t))) then Raise DuplicateColumn
      else if negb (forallb (λ ix, known t (index_columns ix)) (indexes t)) then Raise UndefinedColumn
      else if negb (forallb (fk_target_ok (<[name := t]> (tables d))) (foreign_keys t)) then Raise InvalidForeignKey
      else Ok (on_tables <[name := t]> d)
  | create_index name table on u w =>
      let ix := mkIndex name on u w in
      match tables d !! table with
      | None => Raise UndefinedTable
      | Some t =>
          if bool_decide (name ∈ relation_names d) then Raise DuplicateTable
          else if negb (known t (index_columns ix)) then Raise UndefinedColumn
          else if u && negb (all_distinct ix (rows t)) then Raise UniqueViolation
          else Ok (on_tables <[table := on_indexes (λ l, l ++ [ix]) t]> d)
      end
  | add_column table name ty os =>
      let c := to_column name ty os in
      match tables d !! table with
      | None => Raise UndefinedTable
      | Some t =>
          if bool_decide (is_Some (find_column name t)) then Raise DuplicateColumn
          else if negb (nullable c) && bool_decide (server_default c = None) && negb (bool_decide (rows t = []))
          then Raise NotNullViolation
          else Ok (on_tables <[table := mkTable (columns t ++ [c]) (primary_key t) (foreign_keys t) (indexes t)
                                          (next_serial t) (fill_column now c <$> rows t)]> d)
      end
  | bulk_insert table rs => insert_all now table rs d
  | drop_table name =>
      match tables d !! name with
      | None => Raise UndefinedTable
      | Some _ => if referenced d name (λ _, true) then Raise DependentObjectsStillExist else Ok (on_tables (delete name) d)
      end
  | drop_index name =>
      if existsb (λ nt, bool_decide (name ∈ ix_name <$> indexes nt.2)) (map_to_list (tables d))
      then Ok (drop_named name d) else Raise UndefinedObject
  | drop_index_if_exists name => Ok (drop_named name d)
  | drop_column table c =>
      match tables d !! table with
      | None => Raise UndefinedTable
      | Some t =>
          if negb (bool_decide (is_Some (find_column c t))) then Raise UndefinedColumn
          else if referenced d table (λ fk, bool_decide (fk_ref fk = c)) then Raise DependentObjectsStillExist
          else Ok (on_tables <[table := mkTable (filter (λ col, col_name col ≠ c) (columns t))
                                          (if bool_decide (c ∈ primary_key t) then [] else primary_key t)
                                          (filter (λ fk, fk_col fk ≠ c) (foreign_keys t))
                                          (filter (λ ix, c ∉ index_columns ix) (indexes t))
                                          (next_serial t) (delete c <$> rows t)]> d)
      end
  end.

Fixpoint run (now : Z) (os : list ddl) (d : db) : result db :=
  match os with
  | [] => Ok d
  | o :: os => let? d := step now o d in run now os d
  end.

(** ** Revisions *)

Record migration := mkMigration {
  revision : string; down_revision : option string; upgrade : list ddl; downgrade : list ddl }.

(** Every revision follows the one before it in the list. *)
Fixpoint chained (from : option string) (ms : list migration) : bool :=
  match ms with
  | [] => true
  | m :: ms => bool_decide (down_revision m = from) && chained (Some (revision m)) ms
  end.

Fixpoint upgrade_all (now : Z) (ms : list migration) (d : db) : result db :=
  match ms with
  | [] => Ok d
  | m :: ms => let? d := run now (upgrade m) d in upgrade_all now ms d
  end.

Definition downgrade_all (now : Z) (ms : list migration) (d : db) : result db :=
  foldr (λ m r, let? d := r in run now (downgrade m) d) (Ok d) ms.

(** ** Mapped classes *)

(** A class of [db/models.py]: [__tablename__] and its [mapped_column]s. *)
Record orm := mkOrm { tablename : string; mapped : list item }.

(** A type of [db/models.py] that means the same column type. *)
Definition same_type (a b : sqltype) : bool :=
  bool_decide (a = b) || match a, b with Varchar, Text => true | _, _ => false end.

(** A type whose Python values the column accepts: a naive timestamp is taken
    in the session's time zone. *)
Definition storable (a b : sqltype) : bool :=
  same_type a b || match a, b with Timestamp, Timestamptz => true | _, _ => false end.

Definition mirrors_column (eq : sqltype → sqltype → bool) (t : Table) (c : Column) : bool :=
  match find_column (col_name c) t with
  | Some c' =>
      eq (col_type c) (col_type c') && bool_decide (nullable c = nullable c') &&
      bool_decide (autoincrement c = autoincrement c') &&
      match server_default c with Some v => bool_decide (server_default c' = Some v) | None => true end
  | None => false
  end.

(** The columns of a class the table does not have in the same form. *)
Definition mismatches (eq : sqltype → sqltype → bool) (d : db) (o : orm) : list string :=
  match tables d !! tablename o with
  | None => [tablename o]
  | Some t => col_name <$> filter (λ c, mirrors_column eq t c = false) (item_columns (mapped o))
  end.

(** The keys and constraints of a class are the table's, and a column the class
    does not map can be left out of an insert. *)
Definition keys_match (d : db) (o : orm) : bool :=
  match tables d !! tablename o with
  | None => false
  | Some t =>
      bool_decide (item_pk (mapped o) = primary_key t) && bool_decide (item_fks (mapped o) = foreign_keys t) &&
      forallb (λ ix, existsb (λ ix', bool_decide (ix_on ix' = ix_on ix) && ix_unique ix' &&
                                     bool_decide (ix_where ix' = None)) (indexes t)) (item_uniques (mapped o)) &&
      forallb (λ c, bool_decide (col_name c ∈ col_name <$> item_columns (mapped o)) || nullable c || autoincrement c ||
                    bool_decide (is_Some (server_default c))) (columns t)
  end.

(** An instance with its attributes of the annotated types: [Mapped[T]] values
    for the columns it sets, None only where the column is optional, and every
    required attribute set. *)
Definition typed_attr (a : gmap string (option value)) (c : Column) : bool :=
  match a !! col_name c with
  | Some (Some v) => has_type (col_type c) v
  | Some None => nullable c
  | None => nullable c || autoincrement c || bool_decide (is_Some (server_default c))
  end.

Definition typed_instance (o : orm) (a : gmap string (option value)) : bool :=
  forallb (λ kv, bool_decide (kv.1 ∈ col_name <$> item_columns (mapped o))) (map_to_list a) &&
  forallb (typed_attr a) (item_columns (mapped o)).
End Sql.
