(* ===== verification/SqlFacts.v ===== *)
(** * Facts about schemas: conforming databases, catalogs and undoing a migration

    [conforms]: every row is typed by its table and satisfies its constraints;
    [insert] keeps it.  [catalog] forgets the rows: what a migration does
    depends on the catalog alone, and the inverse operations in reverse order
    restore the database, rows included. *)
From S2P Require Import Prelude PyText PyDecimal Sql.

Module SqlFacts.
Import Sql.
Open Scope Z_scope.

(** ** Conforming databases *)

(** A stored value of a column. *)
Definition typed_cell (r : row) (c : Column) : bool :=
  match r !! col_name c with
  | Some v => bool_decide (coerce (col_type c) v = Ok v)
  | None => nullable c
  end.

Definition typed_row (t : Table) (r : row) : Prop :=
  (∀ k, is_Some (r !! k) → k ∈ col_name <$> columns t) ∧ Forall (λ c, typed_cell r c = true) (columns t).

Fixpoint distinct (ix : Index) (rs : list row) : Prop :=
  match rs with
  | [] => True
  | r :: rs => Forall (λ r', clashes ix r r' = false) rs ∧ distinct ix rs
  end.

Definition conforms (d : db) : Prop :=
  ∀ n t, tables d !! n = Some t →
    Forall (typed_row t) (rows t) ∧
    (∀ ix, ix ∈ pk_index t :: indexes t → distinct ix (rows t)) ∧
    (∀ r fk, r ∈ rows t → fk ∈ foreign_keys t → fk_ok d r fk = true).

(** A check that a database conforms, which leaves times alone. *)
Definition fits (ty : sqltype) (v : value) : bool :=
  match coerce ty v, v with
  | Ok (VTime _), VTime _ => true
  | Ok v', _ => bool_decide (v' = v)
  | Raise _, _ => false
  end.

Definition typed_rowb (t : Table) (r : row) : bool :=
  forallb (λ kv, bool_decide (kv.1 ∈ col_name <$> columns t)) (map_to_list r) &&
  forallb (λ c, match r !! col_name c with Some v => fits (col_type c) v | None => nullable c end) (columns t).

Definition conformsb (d : db) : bool :=
  forallb (λ nt, forallb (typed_rowb nt.2) (rows nt.2) &&
                 forallb (λ ix, all_distinct ix (rows nt.2)) (pk_index nt.2 :: indexes nt.2) &&
                 forallb (λ r, forallb (fk_ok d r) (foreign_keys nt.2)) (rows nt.2)) (map_to_list (tables d)).

(** ** The catalog *)

Definition strip (t : Table) : Table :=
  mkTable (columns t) (primary_key t) (foreign_keys t) (indexes t) 0 [].

Definition catalog (d : db) : db := on_tables (fmap strip) d.

Lemma round_scale_idem s d : round_scale s (Dec (round_scale s d) (- s)) = round_scale s d.
Proof.
  unfold round_scale at 1. simpl. rewrite Z.add_opp_diag_l. unfold half_up at 1. simpl. apply Z.mul_1_r.
Qed.

Lemma coerce_idem ty v v' : coerce ty v = Ok v' → coerce ty v' = Ok v'.
Proof.
  destruct ty, v; cbn [coerce has_type]; intros Hc;
    repeat match type of Hc with context [if ?b then _ else _] => destruct b eqn:E end; try discriminate Hc;
    injection Hc as <-; cbn [coerce has_type]; rewrite ?round_scale_idem, ?E; done.
Qed.

Lemma fits_coerce ty v : fits ty v = true → coerce ty v = Ok v.
Proof.
  unfold fits. destruct (coerce ty v) as [v'|] eqn:E; [|done]. destruct v; try (intros H; by destruct v'; apply bool_decide_eq_true in H as ->).
  destruct ty; simpl in E; try done; by injection E as <-.
Qed.

Lemma all_distinct_spec ix rs : all_distinct ix rs = true → distinct ix rs.
Proof.
  induction rs as [|r rs IH]; simpl; [done|]. intros [H1 H2]%andb_true_iff. split; [|by apply IH].
  rewrite forallb_forall in H1. apply Forall_forall. intros r' Hr'. by apply negb_true_iff, H1, list_elem_of_In.
Qed.

Lemma forallb_elem {A} (f : A → bool) l x : forallb f l = true → x ∈ l → f x = true.
Proof. rewrite forallb_forall. intros H Hx. by apply H, list_elem_of_In. Qed.

Lemma conformsb_sound d : conformsb d = true → conforms d.
Proof.
  intros H n t Ht. apply (forallb_elem _ _ (n, t)) in H; [|by apply elem_of_map_to_list]. cbn [snd] in H.
  apply andb_true_iff in H as [[Hty Hu]%andb_true_iff Hfk]. split; [|split].
  - apply Forall_forall. intros r Hr. apply (forallb_elem _ _ _ Hty), andb_true_iff in Hr as [Hk Hc]. split.
    + intros k [v Hv]. apply (bool_decide_eq_true_1 _), (forallb_elem _ _ (k, v) Hk). by apply elem_of_map_to_list.
    + apply Forall_forall. intros c Hin. apply (forallb_elem _ _ _ Hc) in Hin. unfold typed_cell. destruct (r !! col_name c); [|done].
      by apply bool_decide_eq_true, fits_coerce.
  - intros ix Hix. by apply all_distinct_spec, (forallb_elem _ _ _ Hu).
  - intros r fk Hr Hin. apply (forallb_elem _ _ _ Hfk) in Hr. by apply (forallb_elem _ _ _ Hr).
Qed.

Lemma build_row_absent now serial given cs r k :
  build_row now serial given cs = Ok r → is_Some (r !! k) → k ∈ col_name <$> cs.
Proof.
  revert r. induction cs as [|c cs IH]; simpl; intros r; [intros [= <-] [v Hv]; by rewrite lookup_empty in Hv|].
  rewrite obind_ok. intros (r0 & Hr0 & Hr) [v Hv]. destruct (supplied now serial given c) as [w|].
  - apply obind_ok in Hr as (v' & _ & [= <-]). destruct (decide (k = col_name c)) as [->|Hne]; [left|].
    rewrite lookup_insert_ne in Hv by done. right. by eapply IH.
  - destruct (nullable c); [|done]. injection Hr as ->. right. by eapply IH.
Qed.

Lemma typed_cell_ne r c k v : col_name c ≠ k → typed_cell (<[k := v]> r) c = typed_cell r c.
Proof. intros Hne. unfold typed_cell. by rewrite lookup_insert_ne. Qed.

Lemma build_row_typed now serial given cs r :
  NoDup (col_name <$> cs) → build_row now serial given cs = Ok r → Forall (λ c, typed_cell r c = true) cs.
Proof.
  revert r. induction cs as [|c cs IH]; simpl; intros r; [constructor|].
  intros [Hc Hnd]%NoDup_cons. rewrite obind_ok. intros (r0 & Hr0 & Hr). pose proof (IH r0 Hnd Hr0) as Hcs.
  assert (Hnone : r0 !! col_name c = None).
  { destruct (r0 !! col_name c) eqn:E; [|done]. destruct Hc. by eapply build_row_absent; eauto. }
  destruct (supplied now serial given c) as [w|].
  - apply obind_ok in Hr as (v' & Hv & [= <-]). constructor.
    + unfold typed_cell. rewrite lookup_insert_eq. apply bool_decide_eq_true, (coerce_idem _ _ _ Hv).
    + rewrite Forall_forall in *. intros x Hx. rewrite typed_cell_ne; [by apply Hcs|].
      intros Heq. apply Hc. rewrite <- Heq. by apply list_elem_of_fmap_2.
  - destruct (nullable c) eqn:E; [|done]. injection Hr as ->. constructor; [|done].
    unfold typed_cell. by rewrite Hnone.
Qed.

Lemma clashes_sym ix r r' : clashes ix r r' = clashes ix r' r.
Proof.
  unfold clashes. destruct (ix_unique ix); [|done]. simpl. destruct (index_key ix r) as [k|] eqn:E, (index_key ix r') as [k'|] eqn:E'.
  - apply bool_decide_ext. naive_solver.
  - by apply bool_decide_eq_false.
  - symmetry. by apply bool_decide_eq_false.
  - done.
Qed.

Lemma distinct_snoc ix rs r : distinct ix (rs ++ [r]) ↔ distinct ix rs ∧ Forall (λ r', clashes ix r r' = false) rs.
Proof.
  induction rs as [|x rs IH]; simpl; [intuition constructor|].
  rewrite IH, Forall_app, !Forall_cons, (clashes_sym ix r x). split.
  - intros ((? & ? & _) & ? & ?). tauto.
  - intros ((? & ?) & ? & ?). repeat split; done.
Qed.

Lemma fk_ok_mono d d' r fk :
  (∀ n t, tables d !! n = Some t → ∃ t', tables d' !! n = Some t' ∧ rows t ⊆ rows t') → fk_ok d r fk = true → fk_ok d' r fk = true.
Proof.
  intros Hm. unfold fk_ok. destruct (r !! fk_col fk) as [v|]; [|done].
  destruct (tables d !! fk_table fk) as [t|] eqn:E; [|done]. destruct (Hm _ _ E) as (t' & -> & Hsub).
  rewrite !existsb_exists. intros (x & Hx & Hb). exists x. split; [|done].
  apply list_elem_of_In, Hsub. by apply list_elem_of_In.
Qed.

(** What an accepted insert went through. *)
Lemma insert_inv now n given d r d' :
  insert now n given d = Ok (r, d') →
  ∃ t, tables d !! n = Some t ∧ build_row now (next_serial t) given (columns t) = Ok r ∧
    unique_ok t r = true ∧ Forall (λ fk, fk_ok d r fk = true) (foreign_keys t) ∧
    d' = on_tables <[n := mkTable (columns t) (primary_key t) (foreign_keys t) (indexes t) (next_serial t + 1) (rows t ++ [r])]> d.
Proof.
  unfold insert. destruct (tables d !! n) as [t|] eqn:Et; [|done]. case_match; [done|].
  rewrite obind_ok. intros (r0 & Hr & H0). destruct (unique_ok t r0) eqn:Hu; [|done].
  destruct (forallb (fk_ok d r0) (foreign_keys t)) eqn:Hf; [|done]. injection H0 as <- <-.
  exists t. repeat split; try done. apply Forall_forall. intros fk Hfk. rewrite forallb_forall in Hf.
  by apply Hf, list_elem_of_In.
Qed.

Lemma insert_grows now n given d r d' m t :
  insert now n given d = Ok (r, d') → tables d !! m = Some t →
  ∃ t', tables d' !! m = Some t' ∧ rows t ⊆ rows t' ∧ strip t' = strip t.
Proof.
  intros (t0 & Ht0 & _ & _ & _ & ->)%insert_inv Ht. simpl. destruct (decide (m = n)) as [->|Hne].
  - rewrite lookup_insert_eq. eexists. split; [done|]. assert (t0 = t) as -> by congruence. split; [set_solver|done].
  - rewrite lookup_insert_ne by done. by exists t.
Qed.

Lemma insert_catalog now n given d r d' : insert now n given d = Ok (r, d') → catalog d' = catalog d.
Proof.
  intros (t & Ht & _ & _ & _ & ->)%insert_inv. unfold catalog, on_tables. simpl. f_equal. rewrite fmap_insert.
  apply insert_id. rewrite lookup_fmap, Ht. done.
Qed.

(** An accepted insert keeps every constraint of the schema. *)
Lemma insert_conforms now n given d r d' :
  (∀ m t, tables d !! m = Some t → NoDup (col_name <$> columns t)) →
  conforms d → insert now n given d = Ok (r, d') → conforms d'.
Proof.
  intros Hnd Hd Hi. pose proof Hi as (t & Ht & Hr & Hu & Hf & Hd')%insert_inv.
  assert (Hgrow : ∀ m t, tables d !! m = Some t → ∃ t', tables d' !! m = Some t' ∧ rows t ⊆ rows t').
  { intros m t0 Hm. destruct (insert_grows _ _ _ _ _ _ _ _ Hi Hm) as (t' & ? & ? & _). eauto. }
  intros m t' Hm. subst d'. simpl in Hm. destruct (decide (m = n)) as [->|Hne].
  - rewrite lookup_insert_eq in Hm. injection Hm as <-. destruct (Hd n t Ht) as (Hty & Hdis & Hfk).
    unfold unique_ok in Hu. rewrite forallb_forall in Hu. simpl. split; [|split].
    + apply Forall_app. split; [done|]. constructor; [|constructor]. split; simpl.
      * intros k Hk. by eapply build_row_absent.
      * by eapply build_row_typed; [eapply Hnd|].
    + intros ix Hix. apply distinct_snoc. split; [by apply Hdis|]. apply Forall_forall. intros r' Hr'.
      apply negb_true_iff. specialize (Hu ix). rewrite forallb_forall in Hu. apply Hu; by apply list_elem_of_In.
    + intros r' fk [Hr'|Hr']%elem_of_app Hin; apply (fk_ok_mono d); try done; [by apply Hfk|].
      apply list_elem_of_singleton in Hr' as ->. rewrite Forall_forall in Hf. by apply Hf.
  - rewrite lookup_insert_ne in Hm by done. destruct (Hd m t' Hm) as (Hty & Hdis & Hfk). split; [done|split; [done|]].
    intros r' fk Hr' Hin. apply (fk_ok_mono d); [done|]. by apply Hfk.
Qed.

(** ** Undoing a migration *)

(** The operation of a downgrade that undoes one of the upgrade. *)
Definition inverse (o : ddl) : option ddl :=
  match o with
  | create_table n _ => Some (drop_table n)
  | create_index n _ _ _ _ => Some (drop_index n)
  | add_column t c ty os =>
      let col := to_column c ty os in
      if nullable col && bool_decide (server_default col = None) then Some (drop_column t c) else None
  | _ => None
  end.

(** Indexes and keys are on columns of their table and refer to existing ones. *)
Definition table_closed (ts : gmap string Table) (t : Table) : bool :=
  forallb (λ ix, known t (index_columns ix)) (indexes t) && known t (primary_key t) &&
  forallb (λ fk, known t [fk_col fk] &&
                 match ts !! fk_table fk with Some t' => known t' [fk_ref fk] | None => false end) (foreign_keys t).

Definition closed (d : db) : bool := forallb (λ nt, table_closed (tables d) nt.2) (map_to_list (tables d)).

(** No row has a column its table does not declare. *)
Definition declared (d : db) : Prop :=
  ∀ n t r k, tables d !! n = Some t → r ∈ rows t → is_Some (r !! k) → k ∈ col_name <$> columns t.

Lemma conforms_declared d : conforms d → declared d.
Proof. intros H n t r k Ht Hr. destruct (H n t Ht) as [Hty _]. rewrite Forall_forall in Hty. by apply Hty. Qed.

(** A new unique index is safe on a table the migration itself creates. *)
Definition safe (fresh : list string) (o : ddl) : bool :=
  match o with create_index _ t _ true _ => bool_decide (t ∈ fresh) | _ => true end.

Definition created (fresh : list string) (o : ddl) : list string :=
  match o with create_table n _ => n :: fresh | _ => fresh end.

(** Running a migration on a catalog, checking every step. *)
Fixpoint replay (now : Z) (fresh : list string) (os : list ddl) (d : db) : bool :=
  match os with
  | [] => true
  | o :: os =>
      closed d && safe fresh o && bool_decide (is_Some (inverse o)) &&
      match step now o d with Ok d' => replay now (created fresh o) os d' | Raise _ => false end
  end.

Definition agree (fresh : list string) (d d0 : db) : Prop :=
  catalog d = catalog d0 ∧ ∀ n t, n ∈ fresh → tables d !! n = Some t → rows t = [].

Lemma catalog_lookup d d0 n t :
  catalog d = catalog d0 → tables d !! n = Some t → ∃ t0, tables d0 !! n = Some t0 ∧ strip t0 = strip t.
Proof.
  intros H%(f_equal tables) Ht. simpl in H. assert (Hl : (strip <$> tables d) !! n = (strip <$> tables d0) !! n) by by rewrite H.
  rewrite !lookup_fmap, Ht in Hl. destruct (tables d0 !! n) as [t0|]; [|done].
  apply (inj Some) in Hl. by exists t0.
Qed.

Lemma catalog_lookup_none d d0 n : catalog d = catalog d0 → tables d0 !! n = None → tables d !! n = None.
Proof.
  intros H Hn. destruct (tables d !! n) eqn:E; [|done]. destruct (catalog_lookup _ _ _ _ H E) as (? & ? & _). congruence.
Qed.

Lemma strip_fields t t0 :
  strip t = strip t0 → columns t = columns t0 ∧ primary_key t = primary_key t0 ∧ foreign_keys t = foreign_keys t0 ∧ indexes t = indexes t0.
Proof. intros [=]. done. Qed.

Lemma find_column_strip c t t0 : columns t = columns t0 → find_column c t = find_column c t0.
Proof. unfold find_column. by intros ->. Qed.

Lemma known_strip t t0 cs : columns t = columns t0 → known t cs = known t0 cs.
Proof. intros H. unfold known, find_column. by rewrite H. Qed.

Lemma elem_of_relation_names x d :
  x ∈ relation_names d ↔ ∃ n t, tables d !! n = Some t ∧ (x = n ∨ x ∈ ix_name <$> indexes t).
Proof.
  unfold relation_names. rewrite list_elem_of_join. split.
  - intros (l & Hx & ([n t] & -> & Hnt%elem_of_map_to_list)%list_elem_of_fmap). exists n, t. split; [done|].
    by apply elem_of_cons in Hx.
  - intros (n & t & Ht & Hx). eexists. split; [|by apply list_elem_of_fmap_2, elem_of_map_to_list]. by apply elem_of_cons.
Qed.

Lemma relation_names_catalog x d d0 : catalog d = catalog d0 → x ∈ relation_names d ↔ x ∈ relation_names d0.
Proof.
  intros H. rewrite !elem_of_relation_names. split; intros (n & t & Ht & Hx).
  - destruct (catalog_lookup _ _ _ _ H Ht) as (t0 & ? & (_ & _ & _ & Hi)%strip_fields). exists n, t0. by rewrite Hi.
  - destruct (catalog_lookup _ _ _ _ (eq_sym H) Ht) as (t0 & ? & (_ & _ & _ & Hi)%strip_fields). exists n, t0. by rewrite Hi.
Qed.

Lemma fk_target_catalog ts ts0 fk :
  strip <$> ts = strip <$> ts0 → fk_target_ok ts fk = fk_target_ok ts0 fk.
Proof.
  intros H. unfold fk_target_ok. assert (Hl : (strip <$> ts) !! fk_table fk = (strip <$> ts0) !! fk_table fk) by by rewrite H.
  rewrite !lookup_fmap in Hl. destruct (ts !! fk_table fk), (ts0 !! fk_table fk); try done.
  apply (inj Some), strip_fields in Hl as (_ & -> & _). done.
Qed.

Lemma existsb_ext {A} (f g : A → bool) l : (∀ x, f x = g x) → existsb f l = existsb g l.
Proof. intros H. induction l as [|x l IH]; simpl; by rewrite ?H, ?IH. Qed.

Lemma forallb_ext {A} (f g : A → bool) l : (∀ x, f x = g x) → forallb f l = forallb g l.
Proof. intros H. induction l as [|x l IH]; simpl; by rewrite ?H, ?IH. Qed.

Lemma catalog_insert n t t0 d d0 :
  catalog d = catalog d0 → strip t = strip t0 → catalog (on_tables <[n := t]> d) = catalog (on_tables <[n := t0]> d0).
Proof.
  intros H Ht. unfold catalog, on_tables. simpl. rewrite !fmap_insert, Ht.
  pose proof (f_equal tables H) as H1. pose proof (f_equal schema H) as H2. simpl in H1, H2. by rewrite H1, H2.
Qed.

Lemma agree_insert fresh n t t0 d d0 :
  agree fresh d d0 → strip t = strip t0 → (n ∈ fresh → rows t = []) →
  agree fresh (on_tables <[n := t]> d) (on_tables <[n := t0]> d0).
Proof.
  intros [H Hf] Ht Hr. split; [by apply catalog_insert|]. intros m t' Hm. simpl.
  destruct (decide (m = n)) as [->|Hne]; [rewrite lookup_insert_eq; intros [= <-]; auto|].
  rewrite lookup_insert_ne by done. by apply Hf.
Qed.

(** The rows every table of [d] has are still there. *)
Definition keeps_rows (d d' : db) : Prop :=
  ∀ n t, tables d !! n = Some t → ∃ t', tables d' !! n = Some t' ∧ rows t' = rows t.

#[global] Instance keeps_rows_preorder : PreOrder keeps_rows.
Proof.
  split; [intros d n t Ht; by exists t|]. intros d1 d2 d3 H12 H23 n t Ht.
  destruct (H12 n t Ht) as (t2 & Ht2 & <-). by apply H23.
Qed.

Lemma keeps_rows_insert d n t :
  (∀ t0, tables d !! n = Some t0 → rows t = rows t0) → keeps_rows d (on_tables <[n := t]> d).
Proof.
  intros H m t0 Hm. simpl. destruct (decide (m = n)) as [->|Hne].
  - rewrite lookup_insert_eq. exists t. split; [done|by apply H].
  - rewrite lookup_insert_ne by done. by exists t0.
Qed.

Lemma fill_column_none now c (rs : list row) : server_default c = None → fill_column now c <$> rs = rs.
Proof. intros H. rewrite <- (list_fmap_id rs) at 2. apply list_fmap_ext. intros i r _. unfold fill_column. by rewrite H. Qed.

(** A checked step does on a database with rows what it does on the catalog. *)
Lemma step_agree now now0 fresh o d d0 d0' :
  agree fresh d d0 → is_Some (inverse o) → safe fresh o = true → step now0 o d0 = Ok d0' →
  ∃ d', step now o d = Ok d' ∧ agree (created fresh o) d' d0' ∧ keeps_rows d d'.
Proof.
  intros [Hc Hf] Hi Hs Hst. pose proof (f_equal schema Hc) as Hsch. simpl in Hsch.
  destruct o as [|n its|n tb on u w|tb n ty os| | | | |]; try (by destruct Hi); cbn [step] in Hst |- *.
  - rewrite Hsch. destruct (negb (schema d0)); [done|].
    rewrite (bool_decide_ext _ (n ∈ relation_names d0)) by by apply relation_names_catalog.
    rewrite (existsb_ext _ (λ ix, bool_decide (ix_name ix ∈ relation_names d0)))
      by (intros ix; apply bool_decide_ext, relation_names_catalog, Hc).
    destruct (_ || _) eqn:En; [done|]. destruct (negb (bool_decide _)); [done|]. destruct (negb (forallb _ (indexes _))); [done|].
    rewrite (forallb_ext _ (fk_target_ok (<[n := table_of its]> (tables d0)))).
    2:{ intros fk. apply fk_target_catalog. rewrite !fmap_insert. f_equal. exact (f_equal tables Hc). }
    destruct (negb (forallb _ _)); [done|]. injection Hst as <-. eexists. split; [done|].
    apply orb_false_iff in En as [En%bool_decide_eq_false _]. split.
    + split; [by apply catalog_insert|]. intros m t Hm. simpl. destruct (decide (m = n)) as [->|Hne].
      { rewrite lookup_insert_eq. by intros [= <-]. }
      rewrite lookup_insert_ne by done. apply Hf. by apply elem_of_cons in Hm as [->|].
    + apply keeps_rows_insert. intros t0 Ht0. destruct En. apply (relation_names_catalog _ _ _ Hc), elem_of_relation_names. eauto.
  - destruct (tables d0 !! tb) as [t0|] eqn:Et0; [|done]. destruct (catalog_lookup _ _ _ _ (eq_sym Hc) Et0) as (t & Ht & Hst').
    pose proof (strip_fields _ _ Hst') as (Hcol & Hpk & Hfk & Hix). rewrite Ht.
    rewrite (bool_decide_ext _ (n ∈ relation_names d0)) by by apply relation_names_catalog.
    destruct (bool_decide _); [done|]. rewrite (known_strip t t0) by done. destruct (negb (known _ _)); [done|].
    assert (Hu : u && negb (all_distinct (mkIndex n on u w) (rows t)) = false).
    { destruct u; [|done]. simpl in Hs. apply bool_decide_eq_true in Hs. by rewrite (Hf tb t Hs Ht). }
    rewrite Hu. destruct (u && _); [done|]. injection Hst as <-. eexists. split; [done|]. split.
    + apply agree_insert; [by split| |intros Hin; by apply (Hf tb t)]. unfold strip. simpl. by rewrite Hcol, Hpk, Hfk, Hix.
    + apply keeps_rows_insert. intros t1 Ht1. by simplify_eq.
  - cbn [inverse] in Hi. destruct (_ && _) eqn:Ed in Hi; [|by destruct Hi]. apply andb_true_iff in Ed as [En Ed].
    apply bool_decide_eq_true in Ed.
    destruct (tables d0 !! tb) as [t0|] eqn:Et0; [|done]. destruct (catalog_lookup _ _ _ _ (eq_sym Hc) Et0) as (t & Ht & Hst').
    pose proof (strip_fields _ _ Hst') as (Hcol & Hpk & Hfk & Hix). rewrite Ht.
    rewrite (find_column_strip n t t0) by done. destruct (bool_decide (is_Some _)) eqn:Efc; [done|].
    rewrite En in Hst |- *. simpl in Hst |- *. injection Hst as <-. eexists. split; [done|]. split.
    + apply agree_insert; [by split| |].
      * unfold strip. simpl. by rewrite Hcol, Hpk, Hfk, Hix.
      * intros Hin. cbn [rows]. by rewrite (Hf tb t Hin Ht).
    + apply keeps_rows_insert. intros t1 Ht1. simplify_eq. by apply fill_column_none.
Qed.

Lemma closed_spec d n t : closed d = true → tables d !! n = Some t → table_closed (tables d) t = true.
Proof.
  unfold closed. rewrite forallb_forall. intros H Ht. apply (H (n, t)). by apply list_elem_of_In, elem_of_map_to_list.
Qed.

Lemma closed_catalog d d0 : catalog d = catalog d0 → closed d0 = true → closed d = true.
Proof.
  intros Hc H0. unfold closed. rewrite forallb_forall. intros [n t] Hin%list_elem_of_In%elem_of_map_to_list. simpl.
  destruct (catalog_lookup _ _ _ _ Hc Hin) as (t0 & Ht0 & (Hcol & Hpk & Hfk & Hix)%strip_fields).
  pose proof (closed_spec _ _ _ H0 Ht0) as Hok. rewrite <- Hok. unfold table_closed. rewrite Hpk, Hfk, Hix. f_equal; [f_equal|].
  - apply forallb_ext. intros ix. by apply known_strip.
  - by apply known_strip.
  - apply forallb_ext. intros fk. f_equal; [by apply known_strip|].
    destruct (tables d !! fk_table fk) as [t1|] eqn:E.
    + destruct (catalog_lookup _ _ _ _ Hc E) as (t2 & -> & (? & _)%strip_fields). by apply known_strip.
    + by rewrite (catalog_lookup_none _ _ _ (eq_sym Hc) E).
Qed.

Lemma find_column_some c t : is_Some (find_column c t) ↔ c ∈ col_name <$> columns t.
Proof.
  unfold find_column. split.
  - intros [col [Hin Hc]%head_filter_some]. rewrite <- Hc. by apply list_elem_of_fmap_2.
  - intros (col & -> & Hin)%list_elem_of_fmap. destruct (head _) eqn:E; [done|].
    rewrite head_filter_none in E. by destruct (E col Hin).
Qed.

Lemma known_spec t cs c : known t cs = true → c ∈ cs → c ∈ col_name <$> columns t.
Proof.
  unfold known. rewrite forallb_forall. intros H Hc%list_elem_of_In. apply find_column_some.
  by apply (bool_decide_eq_true_1 _), H.
Qed.

Lemma fk_closed d n t fk :
  closed d = true → tables d !! n = Some t → fk ∈ foreign_keys t →
  fk_col fk ∈ col_name <$> columns t ∧ ∃ t', tables d !! fk_table fk = Some t' ∧ fk_ref fk ∈ col_name <$> columns t'.
Proof.
  intros Hc Ht Hin. pose proof (closed_spec _ _ _ Hc Ht) as [_ H]%andb_true_iff. rewrite forallb_forall in H.
  apply list_elem_of_In, H, andb_true_iff in Hin as [Hk Hr]. split; [by eapply known_spec; [|left]|].
  destruct (tables d !! fk_table fk) as [t'|]; [|done]. exists t'. split; [done|]. by eapply known_spec; [|left].
Qed.

Lemma referenced_false d n P :
  (∀ m t fk, m ≠ n → tables d !! m = Some t → fk ∈ foreign_keys t → fk_table fk = n → P fk = false) → referenced d n P = false.
Proof.
  intros H. apply not_true_is_false. unfold referenced. rewrite existsb_exists.
  intros ([m t] & Hin%list_elem_of_In%elem_of_map_to_list & [Hm Hex]%andb_true_iff). simpl in Hm, Hex.
  apply bool_decide_eq_true in Hm. apply existsb_exists in Hex as (fk & Hfk%list_elem_of_In & [Hn Hp]%andb_true_iff).
  apply bool_decide_eq_true in Hn. rewrite (H m t fk) in Hp by done. done.
Qed.

(** Dropping what a step has just made. *)
Lemma drop_created_table now n its d d' now' :
  closed d = true → step now (create_table n its) d = Ok d' → step now' (drop_table n) d' = Ok d.
Proof.
  cbn [step]. intros Hc. destruct (negb (schema d)); [done|]. destruct (_ || _) eqn:En; [done|]. repeat (case_match; [done|]).
  intros [= <-]. apply orb_false_iff in En as [En%bool_decide_eq_false _].
  assert (Hn : tables d !! n = None).
  { destruct (tables d !! n) eqn:E; [|done]. destruct En. apply elem_of_relation_names. eauto. }
  simpl. rewrite lookup_insert_eq, referenced_false.
  - unfold on_tables. simpl. by rewrite delete_insert_id; [destruct d|].
  - intros m t fk Hm. simpl. rewrite lookup_insert_ne by done. intros Ht Hfk Hfn.
    destruct (fk_closed _ _ _ _ Hc Ht Hfk) as (_ & t' & Ht' & _). congruence.
Qed.

Lemma drop_created_index now n tb on u w d d' now' :
  step now (create_index n tb on u w) d = Ok d' → step now' (drop_index n) d' = Ok d.
Proof.
  cbn [step]. destruct (tables d !! tb) as [t|] eqn:Et; [|done]. destruct (bool_decide _) eqn:En; [done|].
  destruct (negb _); [done|]. destruct (_ && _); [done|]. intros [= <-]. apply bool_decide_eq_false in En.
  assert (Hex : existsb (λ nt, bool_decide (n ∈ ix_name <$> indexes nt.2))
    (map_to_list (<[tb := on_indexes (λ l, l ++ [mkIndex n on u w]) t]> (tables d))) = true).
  { apply existsb_exists. exists (tb, on_indexes (λ l, l ++ [mkIndex n on u w]) t). split.
    - apply list_elem_of_In, elem_of_map_to_list, lookup_insert_eq.
    - apply bool_decide_eq_true. simpl. rewrite fmap_app. set_solver. }
  simpl. rewrite Hex. unfold drop_named, on_tables. simpl. destruct d as [sc ts]. simpl in *. do 2 f_equal. apply map_eq. intros m.
  rewrite lookup_fmap. assert (Hid : ∀ m t, ts !! m = Some t → filter (λ ix, ix_name ix ≠ n) (indexes t) = indexes t).
  { intros m' t' Ht'. apply filter_all. intros ix Hix Heq. apply En, elem_of_relation_names. exists m', t'. split; [done|].
    right. rewrite <- Heq. by apply list_elem_of_fmap_2. }
  destruct (decide (m = tb)) as [->|Hne].
  - rewrite lookup_insert_eq, Et. simpl. unfold on_indexes. simpl. rewrite filter_app, (Hid tb t Et), filter_cons_False, app_nil_r by (simpl; tauto).
    by destruct t.
  - rewrite lookup_insert_ne by done. destruct (ts !! m) as [t'|] eqn:E; [|done]. simpl. unfold on_indexes.
    rewrite (Hid m t' E). by destruct t'.
Qed.

Lemma drop_added_column now tb c ty os d d' now' :
  closed d = true → declared d → server_default (to_column c ty os) = None →
  step now (add_column tb c ty os) d = Ok d' → step now' (drop_column tb c) d' = Ok d.
Proof.
  intros Hc Hd Hdef. cbn [step]. destruct (tables d !! tb) as [t|] eqn:Et; [|done].
  destruct (bool_decide _) eqn:Ec; [done|]. case_match; [done|]. intros [= <-].
  apply bool_decide_eq_false in Ec. rewrite find_column_some in Ec. rewrite fill_column_none by done.
  pose proof (closed_spec _ _ _ Hc Et) as [[Hix Hpk]%andb_true_iff _]%andb_true_iff. rewrite forallb_forall in Hix.
  assert (Hnew : c ∈ col_name <$> columns t ++ [to_column c ty os]) by (rewrite fmap_app; set_solver).
  simpl. rewrite lookup_insert_eq. rewrite bool_decide_true by (by apply find_column_some). simpl.
  rewrite referenced_false.
  2:{ intros m t' fk Hm. simpl. rewrite lookup_insert_ne by done. intros Ht' Hfk Hfn.
      destruct (fk_closed _ _ _ _ Hc Ht' Hfk) as (_ & t0 & Ht0 & Href). apply bool_decide_eq_false. intros <-. congruence. }
  assert (Ht : mkTable (filter (λ col, col_name col ≠ c) (columns t ++ [to_column c ty os]))
    (if bool_decide (c ∈ primary_key t) then [] else primary_key t) (filter (λ fk, fk_col fk ≠ c) (foreign_keys t))
    (filter (λ ix, c ∉ index_columns ix) (indexes t)) (next_serial t) (delete c <$> rows t) = t).
  { rewrite filter_app, filter_cons_False, app_nil_r by (simpl; tauto). rewrite bool_decide_false by (intros ?; by eapply Ec, known_spec).
    rewrite !filter_all; [destruct t as [? ? ? ? ? rs]; simpl in *; f_equal| | |].
    - rewrite <- (list_fmap_id rs) at 2. apply list_fmap_ext. intros i r Hr. apply delete_id.
      destruct (r !! c) eqn:E; [|done]. destruct Ec. by apply (Hd _ _ r c Et); [eapply list_elem_of_lookup_2|].
    - intros ix Hin Hcx. apply Ec. eapply known_spec; [|done]. by apply Hix, list_elem_of_In.
    - intros fk Hfk <-. apply Ec. by destruct (fk_closed _ _ _ _ Hc Et Hfk).
    - intros col Hcol <-. apply Ec. by apply list_elem_of_fmap_2. }
  rewrite Ht. unfold on_tables. simpl. rewrite insert_insert_eq, insert_id by done. by destruct d.
Qed.

Lemma step_inverse now o o' d d' now' :
  closed d = true → declared d → inverse o = Some o' → step now o d = Ok d' → step now' o' d' = Ok d.
Proof.
  intros Hc Hd Hi Hs. destruct o; cbn [inverse] in Hi; try done.
  - injection Hi as <-. by eapply drop_created_table.
  - injection Hi as <-. by eapply drop_created_index.
  - destruct (_ && _) eqn:E; [|done]. injection Hi as <-. apply andb_true_iff in E as [_ E%bool_decide_eq_true].
    by eapply drop_added_column.
Qed.

(** Rows stay declared. *)
Lemma declared_insert d n t :
  declared d → (∀ r k, r ∈ rows t → is_Some (r !! k) → k ∈ col_name <$> columns t) → declared (on_tables <[n := t]> d).
Proof.
  intros Hd Ht m t' r k. simpl. destruct (decide (m = n)) as [->|Hne].
  - rewrite lookup_insert_eq. intros [= <-]. by apply Ht.
  - rewrite lookup_insert_ne by done. by apply Hd.
Qed.

Lemma step_declared now o d d' : declared d → is_Some (inverse o) → step now o d = Ok d' → declared d'.
Proof.
  intros Hd Hi. destruct o; cbn [inverse] in Hi; try (by destruct Hi); cbn [step]; repeat (case_match; try done); intros [= <-];
    apply declared_insert; try done; cbn [rows columns on_indexes]; try (intros r k Hr; by eapply Hd).
  - intros r k Hr. by apply elem_of_nil in Hr.
  - match goal with E : nullable _ && _ = true |- _ => apply andb_true_iff in E as [_ E%bool_decide_eq_true] end.
    rewrite fill_column_none by done. intros r k Hr Hk. rewrite fmap_app, elem_of_app. left. by eapply Hd.
Qed.

Lemma run_app now os os' d : run now (os ++ os') d = obind (run now os d) (run now os').
Proof. revert d. induction os as [|o os IH]; intros d; [done|]. simpl. destruct (step now o d); [apply IH|done]. Qed.

(** A migration whose every step checks on the catalog runs on any database with
    that catalog, keeps its rows, and is undone by the inverses in reverse order. *)
Lemma run_undone now now0 fresh os invs d d0 :
  agree fresh d d0 → declared d → mapM inverse os = Some invs → replay now0 fresh os d0 = true →
  ∃ d', run now os d = Ok d' ∧ keeps_rows d d' ∧ ∀ now', run now' (reverse invs) d' = Ok d.
Proof.
  revert fresh invs d d0. induction os as [|o os IH]; intros fresh invs d d0 Ha Hd Hi Hr.
  { injection Hi as <-. by exists d. }
  simpl in Hi. apply bind_Some in Hi as (o' & Ho & (invs' & Hinvs & [= <-])%bind_Some).
  simpl in Hr. apply andb_true_iff in Hr as [[[Hcl Hsafe]%andb_true_iff Hsome%bool_decide_eq_true]%andb_true_iff Hr].
  destruct (step now0 o d0) as [d0'|] eqn:Hst; [|done].
  destruct (step_agree now _ _ _ _ _ _ Ha Hsome Hsafe Hst) as (d1 & Hd1 & Ha1 & Hk1).
  destruct (IH _ invs' d1 d0' Ha1 (step_declared _ _ _ _ Hd Hsome Hd1) Hinvs Hr) as (d' & Hd' & Hk' & Hback).
  exists d'. split; [by simpl; rewrite Hd1|]. split; [by etrans|]. intros now'.
  rewrite reverse_cons, run_app, Hback. simpl.
  assert (Hcd : closed d = true) by (eapply closed_catalog; [apply Ha|done]).
  by rewrite (step_inverse _ _ _ _ _ _ Hcd Hd Ho Hd1).
Qed.

(** ** Inserts through a mapped class *)

(** No text that is no address. *)
Definition readable (v : value) : bool := match v with VInet _ address => address | _ => true end.

(** The columns of a table have distinct names, and sequences and server
    defaults have their columns' types. *)
Definition supply_typed (c : Column) : bool :=
  (negb (autoincrement c) || has_type (col_type c) (VInt 0)) &&
  match server_default c with Some df => has_type (col_type c) (default_value 0 df) && readable (default_value 0 df) | None => true end.

Definition sane (d : db) : bool :=
  forallb (λ nt, bool_decide (NoDup (col_name <$> columns nt.2)) && forallb supply_typed (columns nt.2))
    (map_to_list (tables d)).

Lemma sane_spec d n t :
  sane d = true → tables d !! n = Some t → NoDup (col_name <$> columns t) ∧ ∀ c, c ∈ columns t → supply_typed c = true.
Proof.
  unfold sane. rewrite forallb_forall. intros H Ht. specialize (H (n, t)). apply andb_true_iff in H as [H1 H2].
  - split; [by apply (bool_decide_eq_true_1 _) in H1|]. rewrite forallb_forall in H2. intros c Hc. by apply H2, list_elem_of_In.
  - by apply list_elem_of_In, elem_of_map_to_list.
Qed.

Lemma sane_catalog d d0 : catalog d = catalog d0 → sane d0 = true → sane d = true.
Proof.
  intros Hc H0. unfold sane. rewrite forallb_forall. intros [n t] Hin%list_elem_of_In%elem_of_map_to_list. simpl.
  destruct (catalog_lookup _ _ _ _ Hc Hin) as (t0 & Ht0 & (Hcol & _)%strip_fields). rewrite <- Hcol.
  destruct (sane_spec _ _ _ H0 Ht0) as [Hnd Hs]. apply andb_true_iff. split; [by apply bool_decide_eq_true|].
  apply forallb_forall. intros c Hc'. by apply Hs, list_elem_of_In.
Qed.

Lemma mismatches_catalog eq d d0 o : catalog d = catalog d0 → mismatches eq d o = mismatches eq d0 o.
Proof.
  intros Hc. unfold mismatches. destruct (tables d0 !! tablename o) as [t0|] eqn:E.
  - destruct (catalog_lookup _ _ _ _ (eq_sym Hc) E) as (t & -> & (Hcol & _)%strip_fields).
    unfold mirrors_column, find_column. by rewrite Hcol.
  - by rewrite (catalog_lookup_none _ _ _ Hc E).
Qed.

Lemma keys_match_catalog d d0 o : catalog d = catalog d0 → keys_match d o = keys_match d0 o.
Proof.
  intros Hc. unfold keys_match. destruct (tables d0 !! tablename o) as [t0|] eqn:E.
  - destruct (catalog_lookup _ _ _ _ (eq_sym Hc) E) as (t & -> & (Hcol & Hpk & Hfk & Hix)%strip_fields).
    by rewrite Hcol, Hpk, Hfk, Hix.
  - by rewrite (catalog_lookup_none _ _ _ Hc E).
Qed.

Lemma coerce_range ty v e : has_type ty v = true → coerce ty v = Raise e →
  e = NumericValueOutOfRange ∨ e = InvalidTextRepresentation ∧ readable v = false.
Proof. destruct ty, v; simpl; try done; repeat case_match; intros; simplify_eq; auto. Qed.

Lemma storable_typed ty ty' v : storable ty ty' = true → has_type ty v = true → has_type ty' v = true.
Proof.
  unfold storable, same_type. intros [[<-%bool_decide_eq_true|H]%orb_true_iff|H]%orb_true_iff; [done| |]; by destruct ty, ty'.
Qed.

Lemma build_row_error now serial given cs e :
  build_row now serial given cs = Raise e →
  ∃ c, c ∈ cs ∧ (supplied now serial given c = None ∧ nullable c = false ∨
                 ∃ v, supplied now serial given c = Some v ∧ coerce (col_type c) v = Raise e).
Proof.
  induction cs as [|c cs IH]; simpl; [done|]. rewrite obind_raise. intros [Hr|(r & _ & Hr)].
  - destruct (IH Hr) as (c' & ? & ?). exists c'. split; [by right|done].
  - exists c. split; [by left|]. destruct (supplied now serial given c) as [v|]; [|destruct (nullable c); naive_solver].
    right. exists v. apply obind_raise in Hr as [?|(? & _ & ?)]; done.
Qed.

Lemma find_column_self t c : NoDup (col_name <$> columns t) → c ∈ columns t → find_column (col_name c) t = Some c.
Proof.
  intros Hnd Hc. unfold find_column. destruct (head _) as [c'|] eqn:E.
  - apply head_filter_some in E as [Hc' Heq]. f_equal.
    apply list_elem_of_lookup in Hc as [i Hi], Hc' as [j Hj].
    assert (i = j) as <-; [|congruence]. eapply NoDup_lookup; [exact Hnd| |]; rewrite list_lookup_fmap.
    + by rewrite Hi.
    + by rewrite Hj; simpl; rewrite Heq.
  - rewrite head_filter_none in E. by destruct (E c Hc).
Qed.

(** What an instance of a class gives each column of the table it mirrors. *)
Definition given_ok (a : gmap string (option value)) (c : Column) : Prop :=
  match a !! col_name c with
  | Some (Some v) => has_type (col_type c) v = true
  | Some None => nullable c = true
  | None => nullable c || autoincrement c || bool_decide (is_Some (server_default c)) = true
  end.

Lemma mirrored_given t mc c a :
  find_column (col_name mc) t = Some c → col_name c = col_name mc → mirrors_column storable t mc = true →
  typed_attr a mc = true → given_ok a c.
Proof.
  unfold mirrors_column, typed_attr, given_ok. intros -> -> Hm Ht.
  apply andb_true_iff in Hm as [[[Hst Hnull%bool_decide_eq_true]%andb_true_iff Hai%bool_decide_eq_true]%andb_true_iff Hsd].
  destruct (a !! col_name mc) as [[v|]|]; [by eapply storable_typed|congruence|].
  rewrite <- Hnull, <- Hai. destruct (nullable mc); [done|]. destruct (autoincrement mc); [done|]. simpl in Ht |- *.
  destruct (server_default mc) as [df|]; [|done]. apply bool_decide_eq_true in Hsd as ->. done.
Qed.

Lemma supplied_safe now serial a c e v :
  supply_typed c = true → given_ok a c →
  (supplied now serial a c = None → nullable c = true) ∧
  (supplied now serial a c = Some v → coerce (col_type c) v = Raise e →
     e = NumericValueOutOfRange ∨ e = InvalidTextRepresentation ∧ a !! col_name c = Some (Some v) ∧ readable v = false).
Proof.
  intros [Hauto Hdef]%andb_true_iff. unfold given_ok, supplied. destruct (a !! col_name c) as [[w|]|].
  - intros Hw. split; [done|]. intros [= ->] He. destruct (coerce_range _ _ _ Hw He) as [?|[? ?]]; auto.
  - intros Hn. split; [done|]. intros [=].
  - intros Hg. destruct (autoincrement c).
    + split; [done|]. intros [= <-] He. simpl in Hauto.
      destruct (coerce_range _ (VInt serial) _ Hauto He) as [?|[_ [=]]]. by left.
    + destruct (server_default c) as [df|]; simpl; [|split; [by destruct (nullable c)|intros [=]]].
      split; [done|]. intros [= <-] He. apply andb_true_iff in Hdef as [Ht Hr].
      assert (Ht' : has_type (col_type c) (default_value now df) = true) by by destruct df.
      destruct (coerce_range _ _ _ Ht' He) as [?|[_ Hf]]; [by left|]. destruct df; simpl in *; congruence.
Qed.

(** An instance of a class that mirrors its table is refused only for a
    constraint, a numeric range, or a text that is no address. *)
Lemma typed_insert now o a d e :
  sane d = true → mismatches storable d o = [] → keys_match d o = true → typed_instance o a = true →
  insert now (tablename o) a d = Raise e →
  e ∈ [UniqueViolation; ForeignKeyViolation; NumericValueOutOfRange] ∨
  e = InvalidTextRepresentation ∧ ∃ c v, a !! c = Some (Some v) ∧ readable v = false.
Proof.
  intros Hsane Hmm Hkeys [Hattr Htyped]%andb_true_iff. unfold mismatches in Hmm. unfold keys_match in Hkeys. unfold insert.
  destruct (tables d !! tablename o) as [t|] eqn:Et; [|done]. destruct (sane_spec _ _ _ Hsane Et) as [Hnd Hsup].
  assert (Hmir : ∀ mc, mc ∈ item_columns (mapped o) → mirrors_column storable t mc = true).
  { intros mc Hmc. apply not_false_is_true. intros Hf. apply fmap_nil_inv in Hmm.
    eapply elem_of_nil. rewrite <- Hmm. by apply list_elem_of_filter. }
  rewrite forallb_forall in Hattr, Htyped. case_match eqn:Hcols.
  - exfalso. apply negb_true_iff in Hcols. rewrite <- not_true_iff_false, forallb_forall in Hcols. apply Hcols.
    intros kv Hkv%Hattr. apply bool_decide_eq_true in Hkv. apply list_elem_of_fmap in Hkv as (mc & -> & Hmc).
    apply Hmir in Hmc. unfold mirrors_column in Hmc. apply bool_decide_eq_true. by destruct (find_column (col_name mc) t).
  - rewrite obind_raise. intros [Hb|(r & Hr & Hb)]; [|left; destruct (negb (unique_ok t r)); [|case_match]; set_solver].
    apply build_row_error in Hb as (c & Hc & Hbad). apply andb_true_iff in Hkeys as [_ Hrest]. rewrite forallb_forall in Hrest.
    assert (Hgiven : given_ok a c).
    { destruct (decide (col_name c ∈ col_name <$> item_columns (mapped o))) as [(mc & Hn & Hmc)%list_elem_of_fmap|Hno].
      - apply (mirrored_given t mc); [|done|by apply Hmir|by apply Htyped, list_elem_of_In].
        rewrite <- Hn. by apply find_column_self.
      - pose proof (Hrest c (proj1 (list_elem_of_In _ _) Hc)) as Hleft. rewrite (bool_decide_false _ Hno) in Hleft.
        unfold given_ok. destruct (a !! col_name c) as [o'|] eqn:E; [|done].
        destruct Hno. apply (bool_decide_eq_true_1 _), (Hattr (col_name c, o')).
        by apply list_elem_of_In, elem_of_map_to_list. }
    destruct Hbad as [[Hs Hn]|(v & Hs & Hbad)].
    + apply (supplied_safe now (next_serial t) a c e (VInt 0)) in Hs; [congruence|by apply Hsup|done].
    + destruct (proj2 (supplied_safe _ _ _ _ _ _ (Hsup c Hc) Hgiven) Hs Hbad) as [->|(-> & Ha & Hr)]; [left; set_solver|right; eauto].
Qed.
End SqlFacts.
