(* ===== verification/Migrations.v ===== *)
(** * The migrations and the mapped classes of the eight services

    The [upgrade] and [downgrade] of every [alembic/versions/*.py] and every
    class of the [db/models.py], as data.  A definition holds the operations on
    one table; a revision is their concatenation in the order of the file. *)
From S2P Require Import Prelude PyText Sql.

Module Migrations.
Import Sql.
Open Scope Z_scope.

(** ** paylink: [paylink-service/alembic/versions] *)

Definition paylink_0001_paylinks : list ddl := [
  create_table "paylinks" [
    column "pl_id" Text [PrimaryKey];
    column "creator_addr" Text [NotNull];
    column "receiver_addr" Text [NotNull];
    column "owner_addr" Text [NotNull];
    column "amount" (Numeric 38 0) [NotNull];
    column "currency" Text [NotNull];
    column "status" Text [NotNull];
    column "expiry" Timestamptz [NotNull];
    column "usage" Text [NotNull];
    column "metadata" Jsonb [Nullable];
    column "rules" Jsonb [Nullable];
    column "chain_tx_hash" Text [Nullable];
    column "vote_count" Integer [NotNull; ServerDefault (Const (VInt 0))];
    column "created_at" Timestamptz [NotNull; ServerDefault Now];
    column "updated_at" Timestamptz [NotNull; ServerDefault Now];
    column "verified_at" Timestamptz [Nullable]];
  create_index "paylinks_creator_idx" "paylinks" [Col "creator_addr"; Col "status"; Desc "created_at"] false None;
  create_index "paylinks_receiver_idx" "paylinks" [Col "receiver_addr"; Col "status"; Desc "created_at"] false None;
  create_index "paylinks_expiry_idx" "paylinks" [Col "expiry"] false (Some (OneOf "status" ["PENDING"]))].

Definition paylink_0001_paylink_events : list ddl := [
  create_table "paylink_events" [
    column "id" BigInteger [PrimaryKey; AutoIncrement];
    column "pl_id" Text [References "paylinks" "pl_id"; NotNull];
    column "kind" Text [NotNull];
    column "payload" Jsonb [NotNull];
    column "occurred_at" Timestamptz [NotNull; ServerDefault Now]]].

Definition paylink_0001_downgrade : list ddl := [
  drop_table "paylink_events";
  drop_index "paylinks_expiry_idx";
  drop_index "paylinks_receiver_idx";
  drop_index "paylinks_creator_idx";
  drop_table "paylinks"].

Definition paylink_0001 : migration :=
  mkMigration "0001" None ([create_schema] ++ paylink_0001_paylinks ++ paylink_0001_paylink_events)
    paylink_0001_downgrade.

Definition paylink_0002_paylink_events : list ddl := [
  add_column "paylink_events" "published_at" Timestamptz [Nullable];
  create_index "paylink_events_unpublished_idx" "paylink_events" [Col "id"] false (Some (IsNull "published_at"))].

Definition paylink_0002_downgrade : list ddl := [
  drop_index "paylink_events_unpublished_idx";
  drop_column "paylink_events" "published_at"].

Definition paylink_0002 : migration :=
  mkMigration "0002" (Some "0001") (paylink_0002_paylink_events)
    paylink_0002_downgrade.

Definition paylink_migrations : list migration := [paylink_0001; paylink_0002].

(** [paylink-service/app/db/models.py] *)

Definition paylink_PayLinkRow : orm := mkOrm "paylinks" [
    column "pl_id" Varchar [PrimaryKey];
    column "creator_addr" Varchar [NotNull];
    column "receiver_addr" Varchar [NotNull];
    column "owner_addr" Varchar [NotNull];
    column "amount" (Numeric 38 0) [NotNull];
    column "currency" Varchar [NotNull];
    column "status" Varchar [NotNull];
    column "expiry" Timestamptz [NotNull];
    column "usage" Varchar [NotNull];
    column "metadata" Jsonb [Nullable];
    column "rules" Jsonb [Nullable];
    column "chain_tx_hash" Varchar [Nullable];
    column "vote_count" Integer [NotNull; ClientDefault; ServerDefault (Const (VInt 0))];
    column "created_at" Timestamptz [NotNull; ServerDefault Now];
    column "updated_at" Timestamptz [NotNull; ServerDefault Now];
    column "verified_at" Timestamptz [Nullable]].

Definition paylink_PayLinkEventRow : orm := mkOrm "paylink_events" [
    column "id" BigInteger [PrimaryKey; AutoIncrement];
    column "pl_id" Varchar [References "paylinks" "pl_id"; NotNull];
    column "kind" Varchar [NotNull];
    column "payload" Jsonb [NotNull];
    column "occurred_at" Timestamptz [NotNull; ServerDefault Now]].

Definition paylink_models : list orm := [paylink_PayLinkRow; paylink_PayLinkEventRow].

(** ** invoice: [invoice-subscription/alembic/versions] *)

Definition invoice_0001_invoices : list ddl := [
  create_table "invoices" [
    column "invoice_id" Uuid [PrimaryKey];
    column "merchant_id" Uuid [NotNull];
    column "customer_id" Uuid [Nullable];
    column "payee_addr" Text [NotNull];
    column "pl_id" Text [Nullable];
    column "currency" Text [NotNull];
    column "subtotal" (Numeric 38 0) [NotNull];
    column "tax" (Numeric 38 0) [NotNull; ServerDefault (Const (VInt 0))];
    column "total" (Numeric 38 0) [NotNull];
    column "status" Text [NotNull];
    column "due_at" Timestamptz [NotNull];
    column "paid_at" Timestamptz [Nullable];
    column "created_at" Timestamptz [NotNull; ServerDefault Now];
    column "updated_at" Timestamptz [NotNull; ServerDefault Now]];
  create_index "ix_invoices_merchant_id" "invoices" [Col "merchant_id"] false None;
  create_index "uq_invoices_pl_id" "invoices" [Col "pl_id"] true None;
  create_index "ix_invoices_status_due" "invoices" [Col "status"; Col "due_at"] false None].

Definition invoice_0001_invoice_lines : list ddl := [
  create_table "invoice_lines" [
    column "id" BigInteger [PrimaryKey; AutoIncrement];
    column "invoice_id" Uuid [References "invoices" "invoice_id"; NotNull];
    column "description" Text [NotNull];
    column "quantity" (Numeric 20 4) [NotNull];
    column "unit_price" (Numeric 38 0) [NotNull];
    column "total" (Numeric 38 0) [NotNull];
    column "tax_rate" (Numeric 5 4) [NotNull; ServerDefault (Const (VInt 0))]];
  create_index "ix_invoice_lines_invoice_id" "invoice_lines" [Col "invoice_id"] false None].

Definition invoice_0001_invoice_events : list ddl := [
  create_table "invoice_events" [
    column "id" BigInteger [PrimaryKey; AutoIncrement];
    column "kind" Text [NotNull];
    column "invoice_id" Uuid [NotNull];
    column "payload" Jsonb [NotNull];
    column "published_at" Timestamptz [Nullable];
    column "created_at" Timestamptz [NotNull; ServerDefault Now]];
  create_index "ix_invoice_events_unpublished" "invoice_events" [Col "id"] false (Some (IsNull "published_at"))].

Definition invoice_0001_downgrade : list ddl := [
  drop_index "ix_invoice_events_unpublished";
  drop_table "invoice_events";
  drop_index "ix_invoice_lines_invoice_id";
  drop_table "invoice_lines";
  drop_index "ix_invoices_status_due";
  drop_index "uq_invoices_pl_id";
  drop_index "ix_invoices_merchant_id";
  drop_table "invoices"].

Definition invoice_0001 : migration :=
  mkMigration "0001" None ([create_schema] ++ invoice_0001_invoices ++ invoice_0001_invoice_lines ++
  invoice_0001_invoice_events)
    invoice_0001_downgrade.

Definition invoice_migrations : list migration := [invoice_0001].

(** [invoice-subscription/app/db/models.py] *)

Definition invoice_InvoiceRow : orm := mkOrm "invoices" [
    column "invoice_id" Uuid [PrimaryKey];
    column "merchant_id" Uuid [NotNull];
    column "customer_id" Uuid [Nullable];
    column "payee_addr" Text [NotNull];
    column "pl_id" Text [Nullable; Unique "invoices_pl_id_key"];
    column "currency" Text [NotNull];
    column "subtotal" (Numeric 38 0) [NotNull];
    column "tax" (Numeric 38 0) [NotNull; ServerDefault (Const (VInt 0))];
    column "total" (Numeric 38 0) [NotNull];
    column "status" Text [NotNull];
    column "due_at" Timestamptz [NotNull];
    column "paid_at" Timestamptz [Nullable];
    column "created_at" Timestamptz [NotNull; ServerDefault Now];
    column "updated_at" Timestamptz [NotNull; ServerDefault Now]].

Definition invoice_InvoiceLineRow : orm := mkOrm "invoice_lines" [
    column "id" BigInteger [PrimaryKey; AutoIncrement];
    column "invoice_id" Uuid [References "invoices" "invoice_id"; NotNull];
    column "description" Text [NotNull];
    column "quantity" (Numeric 20 4) [NotNull];
    column "unit_price" (Numeric 38 0) [NotNull];
    column "total" (Numeric 38 0) [NotNull];
    column "tax_rate" (Numeric 5 4) [NotNull; ServerDefault (Const (VInt 0))]].

Definition invoice_InvoiceEventRow : orm := mkOrm "invoice_events" [
    column "id" BigInteger [PrimaryKey; AutoIncrement];
    column "kind" Text [NotNull];
    column "invoice_id" Uuid [NotNull];
    column "payload" Jsonb [NotNull];
    column "published_at" Timestamptz [Nullable];
    column "created_at" Timestamptz [NotNull; ServerDefault Now]].

Definition invoice_models : list orm := [invoice_InvoiceRow; invoice_InvoiceLineRow; invoice_InvoiceEventRow].

(** ** identity: [identity-service/alembic/versions] *)

Definition identity_0001_users : list ddl := [
  create_table "users" [
    column "user_id" Uuid [PrimaryKey];
    column "email" Text [Nullable];
    column "phone" Text [Nullable];
    column "password_hash" Text [Nullable];
    column "kyc_tier" SmallInteger [NotNull; ServerDefault (Const (VInt 0))];
    column "status" Text [NotNull];
    column "created_at" Timestamptz [NotNull; ServerDefault Now];
    column "last_login_at" Timestamptz [Nullable]];
  create_index "uq_users_email" "users" [Col "email"] true (Some (IsNotNull "email"));
  create_index "uq_users_phone" "users" [Col "phone"] true (Some (IsNotNull "phone"))].

Definition identity_0001_oauth_identities : list ddl := [
  create_table "oauth_identities" [
    column "provider" Text [PrimaryKey];
    column "subject" Text [PrimaryKey];
    column "user_id" Uuid [References "users" "user_id"; NotNull]];
  create_index "ix_oauth_identities_user_id" "oauth_identities" [Col "user_id"] false None].

Definition identity_0001_mfa_factors : list ddl := [
  create_table "mfa_factors" [
    column "user_id" Uuid [PrimaryKey; References "users" "user_id"];
    column "kind" Text [PrimaryKey];
    column "secret" Text [NotNull];
    column "enrolled_at" Timestamptz [NotNull; ServerDefault Now];
    column "activated_at" Timestamptz [Nullable]]].

Definition identity_0001_organizations : list ddl := [
  create_table "organizations" [
    column "org_id" Uuid [PrimaryKey];
    column "name" Text [NotNull];
    column "type" Text [NotNull];
    column "created_by" Uuid [References "users" "user_id"; NotNull];
    column "created_at" Timestamptz [NotNull; ServerDefault Now]];
  create_index "ix_organizations_created_by" "organizations" [Col "created_by"] false None].

Definition identity_0001_memberships : list ddl := [
  create_table "memberships" [
    column "org_id" Uuid [PrimaryKey; References "organizations" "org_id"];
    column "user_id" Uuid [PrimaryKey; References "users" "user_id"];
    column "role" Text [NotNull]];
  create_index "ix_memberships_user_id" "memberships" [Col "user_id"] false None].

Definition identity_0001_api_keys : list ddl := [
  create_table "api_keys" [
    column "api_key_id" Uuid [PrimaryKey];
    column "org_id" Uuid [References "organizations" "org_id"; NotNull];
    column "name" Text [NotNull];
    column "prefix" Text [NotNull];
    column "hash" Text [NotNull];
    column "scopes" TextArray [NotNull];
    column "status" Text [NotNull];
    column "created_at" Timestamptz [NotNull; ServerDefault Now];
    column "revoked_at" Timestamptz [Nullable]];
  create_index "ix_api_keys_org_status" "api_keys" [Col "org_id"; Col "status"] false None;
  create_index "ix_api_keys_prefix" "api_keys" [Col "prefix"] false None].

Definition identity_0001_sessions : list ddl := [
  create_table "sessions" [
    column "session_id" Uuid [PrimaryKey];
    column "user_id" Uuid [References "users" "user_id"; NotNull];
    column "refresh_token" Text [NotNull];
    column "user_agent" Text [Nullable];
    column "ip" Inet [Nullable];
    column "created_at" Timestamptz [NotNull; ServerDefault Now];
    column "expires_at" Timestamptz [NotNull];
    column "revoked_at" Timestamptz [Nullable]];
  create_index "ix_sessions_user_id" "sessions" [Col "user_id"] false None;
  create_index "uq_sessions_refresh_token" "sessions" [Col "refresh_token"] true None].

Definition identity_0001_identity_events : list ddl := [
  create_table "identity_events" [
    column "id" BigInteger [PrimaryKey; AutoIncrement];
    column "subject_type" Text [NotNull];
    column "subject_id" Uuid [Nullable];
    column "kind" Text [NotNull];
    column "payload" Jsonb [NotNull];
    column "occurred_at" Timestamptz [NotNull; ServerDefault Now]]].

Definition identity_0001_downgrade : list ddl := [
  drop_table "identity_events";
  drop_index "uq_sessions_refresh_token";
  drop_index "ix_sessions_user_id";
  drop_table "sessions";
  drop_index "ix_api_keys_prefix";
  drop_index "ix_api_keys_org_status";
  drop_table "api_keys";
  drop_index "ix_memberships_user_id";
  drop_table "memberships";
  drop_index "ix_organizations_created_by";
  drop_table "organizations";
  drop_table "mfa_factors";
  drop_index "ix_oauth_identities_user_id";
  drop_table "oauth_identities";
  drop_index "uq_users_phone";
  drop_index "uq_users_email";
  drop_table "users"].

Definition identity_0001 : migration :=
  mkMigration "0001" None ([create_schema] ++ identity_0001_users ++ identity_0001_oauth_identities ++
  identity_0001_mfa_factors ++ identity_0001_organizations ++ identity_0001_memberships ++ identity_0001_api_keys ++
  identity_0001_sessions ++ identity_0001_identity_events)
    identity_0001_downgrade.

Definition identity_0002_identity_events : list ddl := [
  add_column "identity_events" "published_at" Timestamptz [Nullable];
  create_index "identity_events_unpublished_idx" "identity_events" [Col "id"] false (Some (IsNull "published_at"))].

Definition identity_0002_downgrade : list ddl := [
  drop_index "identity_events_unpublished_idx";
  drop_column "identity_events" "published_at"].

Definition identity_0002 : migration :=
  mkMigration "0002" (Some "0001") (identity_0002_identity_events)
    identity_0002_downgrade.

Definition identity_0003_password_reset_tokens : list ddl := [
  create_table "password_reset_tokens" [
    column "token_id" Uuid [PrimaryKey];
    column "user_id" Uuid [References "users" "user_id"; NotNull];
    column "token_hash" Text [NotNull];
    column "created_at" Timestamptz [NotNull; ServerDefault Now];
    column "expires_at" Timestamptz [NotNull];
    column "used_at" Timestamptz [Nullable]];
  create_index "uq_password_reset_token_hash" "password_reset_tokens" [Col "token_hash"] true None;
  create_index "ix_password_reset_user_id" "password_reset_tokens" [Col "user_id"] false None].

Definition identity_0003_downgrade : list ddl := [
  drop_index "ix_password_reset_user_id";
  drop_index "uq_password_reset_token_hash";
  drop_table "password_reset_tokens"].

Definition identity_0003 : migration :=
  mkMigration "0003" (Some "0002") (identity_0003_password_reset_tokens)
    identity_0003_downgrade.

Definition identity_migrations : list migration := [identity_0001; identity_0002; identity_0003].

(** [identity-service/app/db/models.py] *)

Definition identity_UserRow : orm := mkOrm "users" [
    column "user_id" Uuid [PrimaryKey];
    column "email" Text [Nullable];
    column "phone" Text [Nullable];
    column "password_hash" Text [Nullable];
    column "kyc_tier" SmallInteger [NotNull; ServerDefault (Const (VInt 0))];
    column "status" Text [NotNull];
    column "created_at" Timestamptz [NotNull; ServerDefault Now];
    column "last_login_at" Timestamptz [Nullable]].

Definition identity_OAuthIdentityRow : orm := mkOrm "oauth_identities" [
    column "provider" Text [PrimaryKey];
    column "subject" Text [PrimaryKey];
    column "user_id" Uuid [References "users" "user_id"; NotNull]].

Definition identity_MfaFactorRow : orm := mkOrm "mfa_factors" [
    column "user_id" Uuid [PrimaryKey; References "users" "user_id"];
    column "kind" Text [PrimaryKey];
    column "secret" Text [NotNull];
    column "enrolled_at" Timestamptz [NotNull; ServerDefault Now];
    column "activated_at" Timestamptz [Nullable]].

Definition identity_OrganizationRow : orm := mkOrm "organizations" [
    column "org_id" Uuid [PrimaryKey];
    column "name" Text [NotNull];
    column "type" Text [NotNull];
    column "created_by" Uuid [References "users" "user_id"; NotNull];
    column "created_at" Timestamptz [NotNull; ServerDefault Now]].

Definition identity_MembershipRow : orm := mkOrm "memberships" [
    column "org_id" Uuid [PrimaryKey; References "organizations" "org_id"];
    column "user_id" Uuid [PrimaryKey; References "users" "user_id"];
    column "role" Text [NotNull]].

Definition identity_ApiKeyRow : orm := mkOrm "api_keys" [
    column "api_key_id" Uuid [PrimaryKey];
    column "org_id" Uuid [References "organizations" "org_id"; NotNull];
    column "name" Text [NotNull];
    column "prefix" Text [NotNull];
    column "hash" Text [NotNull];
    column "scopes" TextArray [NotNull];
    column "status" Text [NotNull];
    column "created_at" Timestamptz [NotNull; ServerDefault Now];
    column "revoked_at" Timestamptz [Nullable]].

Definition identity_SessionRow : orm := mkOrm "sessions" [
    column "session_id" Uuid [PrimaryKey];
    column "user_id" Uuid [References "users" "user_id"; NotNull];
    column "refresh_token" Text [NotNull];
    column "user_agent" Text [Nullable];
    column "ip" Inet [Nullable];
    column "created_at" Timestamptz [NotNull; ServerDefault Now];
    column "expires_at" Timestamptz [NotNull];
    column "revoked_at" Timestamptz [Nullable]].

Definition identity_PasswordResetTokenRow : orm := mkOrm "password_reset_tokens" [
    column "token_id" Uuid [PrimaryKey];
    column "user_id" Uuid [References "users" "user_id"; NotNull];
    column "token_hash" Text [NotNull];
    column "created_at" Timestamptz [NotNull; ServerDefault Now];
    column "expires_at" Timestamptz [NotNull];
    column "used_at" Timestamptz [Nullable]].

Definition identity_IdentityEventRow : orm := mkOrm "identity_events" [
    column "id" BigInteger [PrimaryKey; AutoIncrement];
    column "subject_type" Text [NotNull];
    column "subject_id" Uuid [Nullable];
    column "kind" Text [NotNull];
    column "payload" Jsonb [NotNull];
    column "occurred_at" Timestamptz [NotNull; ServerDefault Now]].

Definition identity_models : list orm := [identity_UserRow; identity_OAuthIdentityRow; identity_MfaFactorRow;
  identity_OrganizationRow; identity_MembershipRow; identity_ApiKeyRow; identity_SessionRow;
  identity_PasswordResetTokenRow; identity_IdentityEventRow].

(** ** merchant: [merchant-onboarding/alembic/versions] *)

Definition merchant_0001_merchants : list ddl := [
  create_table "merchants" [
    column "merchant_id" Uuid [PrimaryKey];
    column "org_id" Uuid [NotNull; Unique "merchants_org_id_key"];
    column "business_name" Text [NotNull];
    column "registration_no" Text [Nullable];
    column "tax_id" Text [Nullable];
    column "country" Text [NotNull];
    column "type" Text [NotNull];
    column "status" Text [NotNull];
    column "fee_tier" Text [NotNull; ServerDefault (Const (VText "standard"))];
    column "onboarded_at" Timestamptz [Nullable];
    column "suspended_at" Timestamptz [Nullable];
    column "suspended_reason" Text [Nullable]];
  create_index "ix_merchants_status" "merchants" [Col "status"] false None].

Definition merchant_0001_bank_accounts : list ddl := [
  create_table "bank_accounts" [
    column "bank_account_id" Uuid [PrimaryKey];
    column "merchant_id" Uuid [References "merchants" "merchant_id"; NotNull];
    column "rail" Text [NotNull];
    column "account_ref" Text [NotNull];
    column "currency" Text [NotNull];
    column "status" Text [NotNull];
    column "verified_at" Timestamptz [Nullable]];
  create_index "ix_bank_accounts_merchant_id" "bank_accounts" [Col "merchant_id"] false None].

Definition merchant_0001_documents : list ddl := [
  create_table "documents" [
    column "document_id" Uuid [PrimaryKey];
    column "merchant_id" Uuid [References "merchants" "merchant_id"; NotNull];
    column "kind" Text [NotNull];
    column "s3_key" Text [NotNull];
    column "uploaded_at" Timestamptz [NotNull; ServerDefault Now];
    column "review" Jsonb [Nullable]];
  create_index "ix_documents_merchant_id" "documents" [Col "merchant_id"] false None].

Definition merchant_0001_contracts : list ddl := [
  create_table "contracts" [
    column "id" BigInteger [PrimaryKey; AutoIncrement];
    column "merchant_id" Uuid [References "merchants" "merchant_id"; NotNull];
    column "version" Text [NotNull];
    column "accepted_by" Uuid [NotNull];
    column "accepted_at" Timestamptz [NotNull; ServerDefault Now];
    column "ip" Inet [Nullable];
    column "user_agent" Text [Nullable]];
  create_index "ix_contracts_merchant_id" "contracts" [Col "merchant_id"] false None].

Definition merchant_0001_merchant_events : list ddl := [
  create_table "merchant_events" [
    column "id" BigInteger [PrimaryKey; AutoIncrement];
    column "subject_type" Text [NotNull];
    column "subject_id" Uuid [Nullable];
    column "kind" Text [NotNull];
    column "payload" Jsonb [NotNull];
    column "occurred_at" Timestamptz [NotNull; ServerDefault Now]]].

Definition merchant_0001_downgrade : list ddl := [
  drop_table "merchant_events";
  drop_index "ix_contracts_merchant_id";
  drop_table "contracts";
  drop_index "ix_documents_merchant_id";
  drop_table "documents";
  drop_index "ix_bank_accounts_merchant_id";
  drop_table "bank_accounts";
  drop_index "ix_merchants_status";
  drop_table "merchants"].

Definition merchant_0001 : migration :=
  mkMigration "0001" None ([create_schema] ++ merchant_0001_merchants ++ merchant_0001_bank_accounts ++
  merchant_0001_documents ++ merchant_0001_contracts ++ merchant_0001_merchant_events)
    merchant_0001_downgrade.

Definition merchant_0002_merchant_events : list ddl := [
  add_column "merchant_events" "published_at" Timestamptz [Nullable];
  create_index "merchant_events_unpublished_idx" "merchant_events" [Col "id"] false (Some (IsNull "published_at"))].

Definition merchant_0002_downgrade : list ddl := [
  drop_index "merchant_events_unpublished_idx";
  drop_column "merchant_events" "published_at"].

Definition merchant_0002 : migration :=
  mkMigration "0002" (Some "0001") (merchant_0002_merchant_events)
    merchant_0002_downgrade.

Definition merchant_migrations : list migration := [merchant_0001; merchant_0002].

(** [merchant-onboarding/app/db/models.py] *)

Definition merchant_MerchantRow : orm := mkOrm "merchants" [
    column "merchant_id" Uuid [PrimaryKey];
    column "org_id" Uuid [NotNull; Unique "merchants_org_id_key"];
    column "business_name" Text [NotNull];
    column "registration_no" Text [Nullable];
    column "tax_id" Text [Nullable];
    column "country" Text [NotNull];
    column "type" Text [NotNull];
    column "status" Text [NotNull];
    column "fee_tier" Text [NotNull; ServerDefault (Const (VText "standard"))];
    column "onboarded_at" Timestamptz [Nullable];
    column "suspended_at" Timestamptz [Nullable];
    column "suspended_reason" Text [Nullable]].

Definition merchant_BankAccountRow : orm := mkOrm "bank_accounts" [
    column "bank_account_id" Uuid [PrimaryKey];
    column "merchant_id" Uuid [References "merchants" "merchant_id"; NotNull];
    column "rail" Text [NotNull];
    column "account_ref" Text [NotNull];
    column "currency" Text [NotNull];
    column "status" Text [NotNull];
    column "verified_at" Timestamptz [Nullable]].

Definition merchant_DocumentRow : orm := mkOrm "documents" [
    column "document_id" Uuid [PrimaryKey];
    column "merchant_id" Uuid [References "merchants" "merchant_id"; NotNull];
    column "kind" Text [NotNull];
    column "s3_key" Text [NotNull];
    column "uploaded_at" Timestamptz [NotNull; ServerDefault Now];
    column "review" Jsonb [Nullable]].

Definition merchant_ContractRow : orm := mkOrm "contracts" [
    column "id" BigInteger [PrimaryKey; AutoIncrement];
    column "merchant_id" Uuid [References "merchants" "merchant_id"; NotNull];
    column "version" Text [NotNull];
    column "accepted_by" Uuid [NotNull];
    column "accepted_at" Timestamptz [NotNull; ServerDefault Now];
    column "ip" Inet [Nullable];
    column "user_agent" Text [Nullable]].

Definition merchant_MerchantEventRow : orm := mkOrm "merchant_events" [
    column "id" BigInteger [PrimaryKey; AutoIncrement];
    column "subject_type" Text [NotNull];
    column "subject_id" Uuid [Nullable];
    column "kind" Text [NotNull];
    column "payload" Jsonb [NotNull];
    column "occurred_at" Timestamptz [NotNull; ServerDefault Now]].

Definition merchant_models : list orm := [merchant_MerchantRow; merchant_BankAccountRow; merchant_DocumentRow;
  merchant_ContractRow; merchant_MerchantEventRow].

(** ** compliance: [compliance-risk/alembic/versions] *)

Definition compliance_0001_kyc_records : list ddl := [
  create_table "kyc_records" [
    column "user_id" Uuid [PrimaryKey];
    column "tier" SmallInteger [NotNull; ServerDefault (Const (VInt 0))];
    column "provider" Text [Nullable];
    column "provider_ref" Text [Nullable];
    column "documents" Jsonb [Nullable];
    column "verified_at" Timestamptz [Nullable];
    column "expires_at" Timestamptz [Nullable]]].

Definition compliance_0001_risk_scores : list ddl := [
  create_table "risk_scores" [
    column "id" BigInteger [PrimaryKey; AutoIncrement];
    column "user_id" Uuid [NotNull];
    column "context" Text [NotNull];
    column "score" (Numeric 4 3) [NotNull];
    column "decision" Text [NotNull];
    column "reasons" Jsonb [NotNull];
    column "evaluated_at" Timestamptz [NotNull; ServerDefault Now]];
  create_index "ix_risk_scores_user_id" "risk_scores" [Col "user_id"] false None].

Definition compliance_0001_flags : list ddl := [
  create_table "flags" [
    column "id" BigInteger [PrimaryKey; AutoIncrement];
    column "user_id" Uuid [NotNull];
    column "kind" Text [NotNull];
    column "severity" Text [NotNull];
    column "payload" Jsonb [NotNull];
    column "raised_at" Timestamptz [NotNull; ServerDefault Now];
    column "resolved_at" Timestamptz [Nullable];
    column "resolution" Text [Nullable]];
  create_index "ix_flags_user_id" "flags" [Col "user_id"] false None].

Definition compliance_0001_activity_events : list ddl := [
  create_table "activity_events" [
    column "id" BigInteger [PrimaryKey; AutoIncrement];
    column "user_id" Uuid [NotNull];
    column "action" Text [NotNull];
    column "amount" (Numeric 20 2) [Nullable];
    column "currency" Text [Nullable];
    column "occurred_at" Timestamptz [NotNull; ServerDefault Now]];
  create_index "ix_activity_events_user_time" "activity_events" [Col "user_id"; Col "occurred_at"] false None].

Definition compliance_0001_compliance_events : list ddl := [
  create_table "compliance_events" [
    column "id" BigInteger [PrimaryKey; AutoIncrement];
    column "subject_type" Text [NotNull];
    column "subject_id" Uuid [Nullable];
    column "kind" Text [NotNull];
    column "payload" Jsonb [NotNull];
    column "occurred_at" Timestamptz [NotNull; ServerDefault Now]]].

Definition compliance_0001_downgrade : list ddl := [
  drop_table "compliance_events";
  drop_index "ix_activity_events_user_time";
  drop_table "activity_events";
  drop_index "ix_flags_user_id";
  drop_table "flags";
  drop_index "ix_risk_scores_user_id";
  drop_table "risk_scores";
  drop_table "kyc_records"].

Definition compliance_0001 : migration :=
  mkMigration "0001" None ([create_schema] ++ compliance_0001_kyc_records ++ compliance_0001_risk_scores ++
  compliance_0001_flags ++ compliance_0001_activity_events ++ compliance_0001_compliance_events)
    compliance_0001_downgrade.

Definition compliance_0002_compliance_events : list ddl := [
  add_column "compliance_events" "published_at" Timestamptz [Nullable];
  create_index "compliance_events_unpublished_idx" "compliance_events" [Col "id"] false (Some (IsNull "published_at"))].

Definition compliance_0002_downgrade : list ddl := [
  drop_index "compliance_events_unpublished_idx";
  drop_column "compliance_events" "published_at"].

Definition compliance_0002 : migration :=
  mkMigration "0002" (Some "0001") (compliance_0002_compliance_events)
    compliance_0002_downgrade.

Definition compliance_migrations : list migration := [compliance_0001; compliance_0002].

(** [compliance-risk/app/db/models.py] *)

Definition compliance_KycRecordRow : orm := mkOrm "kyc_records" [
    column "user_id" Uuid [PrimaryKey];
    column "tier" SmallInteger [NotNull; ServerDefault (Const (VInt 0))];
    column "provider" Text [Nullable];
    column "provider_ref" Text [Nullable];
    column "documents" Jsonb [Nullable];
    column "verified_at" Timestamptz [Nullable];
    column "expires_at" Timestamptz [Nullable]].

Definition compliance_RiskScoreRow : orm := mkOrm "risk_scores" [
    column "id" BigInteger [PrimaryKey; AutoIncrement];
    column "user_id" Uuid [NotNull];
    column "context" Text [NotNull];
    column "score" (Numeric 4 3) [NotNull];
    column "decision" Text [NotNull];
    column "reasons" Jsonb [NotNull];
    column "evaluated_at" Timestamptz [NotNull; ServerDefault Now]].

Definition compliance_FlagRow : orm := mkOrm "flags" [
    column "id" BigInteger [PrimaryKey; AutoIncrement];
    column "user_id" Uuid [NotNull];
    column "kind" Text [NotNull];
    column "severity" Text [NotNull];
    column "payload" Jsonb [NotNull];
    column "raised_at" Timestamptz [NotNull; ServerDefault Now];
    column "resolved_at" Timestamptz [Nullable];
    column "resolution" Text [Nullable]].

Definition compliance_ActivityEventRow : orm := mkOrm "activity_events" [
    column "id" BigInteger [PrimaryKey; AutoIncrement];
    column "user_id" Uuid [NotNull];
    column "action" Text [NotNull];
    column "amount" (Numeric 20 2) [Nullable];
    column "currency" Text [Nullable];
    column "occurred_at" Timestamptz [NotNull; ServerDefault Now]].

Definition compliance_ComplianceEventRow : orm := mkOrm "compliance_events" [
    column "id" BigInteger [PrimaryKey; AutoIncrement];
    column "subject_type" Text [NotNull];
    column "subject_id" Uuid [Nullable];
    column "kind" Text [NotNull];
    column "payload" Jsonb [NotNull];
    column "occurred_at" Timestamptz [NotNull; ServerDefault Now]].

Definition compliance_models : list orm := [compliance_KycRecordRow; compliance_RiskScoreRow; compliance_FlagRow;
  compliance_ActivityEventRow; compliance_ComplianceEventRow].

(** ** notify: [notification-service/alembic/versions] *)

Definition notify_seed_templates : list (list (string * option value)) := [
    [("template_id", Some (VText "sms.paylink_verified.en")); ("channel", Some (VText "sms")); ("locale", Some (VText "en")); ("body", Some (VText "Your PayLink for $amount $currency is verified. Ref: $paylink_id")); ("version", Some (VInt 1)); ("active", Some (VBool true))];
    [("template_id", Some (VText "email.paylink_verified.en")); ("channel", Some (VText "email")); ("locale", Some (VText "en")); ("body", Some (VText "Hi — your PayLink ($paylink_id) for $amount $currency has been verified.")); ("version", Some (VInt 1)); ("active", Some (VBool true))];
    [("template_id", Some (VText "sms.payment_failed.en")); ("channel", Some (VText "sms")); ("locale", Some (VText "en")); ("body", Some (VText "Payment of $amount $currency failed: $reason.")); ("version", Some (VInt 1)); ("active", Some (VBool true))];
    [("template_id", Some (VText "email.payment_failed.en")); ("channel", Some (VText "email")); ("locale", Some (VText "en")); ("body", Some (VText "Your payment of $amount $currency could not be completed. Reason: $reason.")); ("version", Some (VInt 1)); ("active", Some (VBool true))]].

Definition notify_0001_webhooks : list ddl := [
  create_table "webhooks" [
    column "webhook_id" Uuid [PrimaryKey];
    column "merchant_id" Uuid [NotNull];
    column "url" Text [NotNull];
    column "events" TextArray [NotNull];
    column "secret" Text [NotNull];
    column "status" Text [NotNull];
    column "created_at" Timestamptz [NotNull; ServerDefault Now]]].

Definition notify_0001_deliveries : list ddl := [
  create_table "deliveries" [
    column "delivery_id" Uuid [PrimaryKey];
    column "webhook_id" Uuid [References "webhooks" "webhook_id"; Nullable];
    column "channel" Text [NotNull];
    column "recipient" Text [NotNull];
    column "event_kind" Text [NotNull];
    column "payload" Jsonb [NotNull];
    column "status" Text [NotNull];
    column "attempts" Integer [NotNull; ServerDefault (Const (VInt 0))];
    column "last_error" Text [Nullable];
    column "next_retry_at" Timestamptz [Nullable];
    column "created_at" Timestamptz [NotNull; ServerDefault Now];
    column "delivered_at" Timestamptz [Nullable]];
  create_index "deliveries_retry_idx" "deliveries" [Col "next_retry_at"] false (Some (OneOf "status" ["QUEUED"; "FAILED"]));
  create_index "deliveries_dedupe_uidx" "deliveries" [JsonText "payload" "dedupe_key"] true None].

Definition notify_0001_templates : list ddl := [
  create_table "templates" [
    column "template_id" Text [PrimaryKey];
    column "channel" Text [NotNull];
    column "locale" Text [NotNull];
    column "body" Text [NotNull];
    column "version" Integer [NotNull];
    column "active" Boolean [NotNull; ServerDefault (Const (VBool true))]]].

Definition notify_0001_seed_templates : list ddl := [
  bulk_insert "templates" notify_seed_templates].

Definition notify_0001_downgrade : list ddl := [
  drop_table "templates";
  drop_index_if_exists "deliveries_dedupe_uidx";
  drop_index "deliveries_retry_idx";
  drop_table "deliveries";
  drop_table "webhooks"].

Definition notify_0001 : migration :=
  mkMigration "0001" None ([create_schema] ++ notify_0001_webhooks ++ notify_0001_deliveries ++ notify_0001_templates
  ++ notify_0001_seed_templates)
    notify_0001_downgrade.

Definition notify_0002_inbox_notifications : list ddl := [
  create_table "inbox_notifications" [
    column "notification_id" Uuid [PrimaryKey];
    column "recipient_addr" Text [NotNull];
    column "kind" Text [NotNull];
    column "title" Text [NotNull];
    column "body" Text [Nullable];
    column "href" Text [Nullable];
    column "event_kind" Text [Nullable];
    column "dedupe_key" Text [NotNull];
    column "read" Boolean [NotNull; ServerDefault (Const (VBool false))];
    column "created_at" Timestamptz [NotNull; ServerDefault Now];
    column "read_at" Timestamptz [Nullable]];
  create_index "inbox_recipient_created_idx" "inbox_notifications" [Col "recipient_addr"; Desc "created_at"; Desc "notification_id"] false None;
  create_index "inbox_dedupe_uidx" "inbox_notifications" [Col "dedupe_key"] true None].

Definition notify_0002_downgrade : list ddl := [
  drop_index "inbox_dedupe_uidx";
  drop_index "inbox_recipient_created_idx";
  drop_table "inbox_notifications"].

Definition notify_0002 : migration :=
  mkMigration "0002" (Some "0001") (notify_0002_inbox_notifications)
    notify_0002_downgrade.

Definition notify_0003_notification_preferences : list ddl := [
  create_table "notification_preferences" [
    column "preference_id" Uuid [PrimaryKey];
    column "recipient_addr" Text [NotNull];
    column "channels" Jsonb [NotNull; ServerDefault (Const (VJson (JObj [])))];
    column "events" Jsonb [NotNull; ServerDefault (Const (VJson (JObj [])))];
    column "created_at" Timestamptz [NotNull; ServerDefault Now];
    column "updated_at" Timestamptz [NotNull; ServerDefault Now]];
  create_index "notification_preferences_recipient_uidx" "notification_preferences" [Col "recipient_addr"] true None].

Definition notify_0003_downgrade : list ddl := [
  drop_index "notification_preferences_recipient_uidx";
  drop_table "notification_preferences"].

Definition notify_0003 : migration :=
  mkMigration "0003" (Some "0002") (notify_0003_notification_preferences)
    notify_0003_downgrade.

Definition notify_migrations : list migration := [notify_0001; notify_0002; notify_0003].

(** [notification-service/app/db/models.py] *)

Definition notify_WebhookRow : orm := mkOrm "webhooks" [
    column "webhook_id" Uuid [PrimaryKey; ClientDefault];
    column "merchant_id" Uuid [NotNull];
    column "url" Text [NotNull];
    column "events" TextArray [NotNull];
    column "secret" Text [NotNull];
    column "status" Text [NotNull];
    column "created_at" Timestamptz [NotNull; ServerDefault Now]].

Definition notify_DeliveryRow : orm := mkOrm "deliveries" [
    column "delivery_id" Uuid [PrimaryKey; ClientDefault];
    column "webhook_id" Uuid [References "webhooks" "webhook_id"; Nullable];
    column "channel" Text [NotNull];
    column "recipient" Text [NotNull];
    column "event_kind" Text [NotNull];
    column "payload" Jsonb [NotNull];
    column "status" Text [NotNull];
    column "attempts" Integer [NotNull; ServerDefault (Const (VInt 0))];
    column "last_error" Text [Nullable];
    column "next_retry_at" Timestamptz [Nullable];
    column "created_at" Timestamptz [NotNull; ServerDefault Now];
    column "delivered_at" Timestamptz [Nullable]].

Definition notify_TemplateRow : orm := mkOrm "templates" [
    column "template_id" Text [PrimaryKey];
    column "channel" Text [NotNull];
    column "locale" Text [NotNull];
    column "body" Text [NotNull];
    column "version" Integer [NotNull];
    column "active" Boolean [NotNull; ServerDefault (Const (VBool true))]].

Definition notify_InboxNotificationRow : orm := mkOrm "inbox_notifications" [
    column "notification_id" Uuid [PrimaryKey; ClientDefault];
    column "recipient_addr" Text [NotNull];
    column "kind" Text [NotNull];
    column "title" Text [NotNull];
    column "body" Text [Nullable];
    column "href" Text [Nullable];
    column "event_kind" Text [Nullable];
    column "dedupe_key" Text [NotNull];
    column "read" Boolean [NotNull; ClientDefault; ServerDefault (Const (VBool false))];
    column "created_at" Timestamptz [NotNull; ServerDefault Now];
    column "read_at" Timestamptz [Nullable]].

Definition notify_NotificationPreferenceRow : orm := mkOrm "notification_preferences" [
    column "preference_id" Uuid [PrimaryKey; ClientDefault];
    column "recipient_addr" Text [NotNull; Unique "notification_preferences_recipient_addr_key"];
    column "channels" Jsonb [NotNull];
    column "events" Jsonb [NotNull];
    column "created_at" Timestamptz [NotNull; ServerDefault Now];
    column "updated_at" Timestamptz [NotNull; ServerDefault Now]].

Definition notify_models : list orm := [notify_WebhookRow; notify_DeliveryRow; notify_TemplateRow;
  notify_InboxNotificationRow; notify_NotificationPreferenceRow].

(** ** pricing: [fee-pricing-service/alembic/versions] *)

Definition pricing_0001_tiers : list ddl := [
  create_table "tiers" [
    column "tier" Text [PrimaryKey];
    column "display_name" Text [NotNull];
    column "platform_pct_bps" Integer [NotNull];
    column "platform_fixed" (Numeric 38 0) [NotNull; ServerDefault (Const (VInt 0))];
    column "fixed_currency" Text [NotNull; ServerDefault (Const (VText "KES"))];
    column "active" Boolean [NotNull; ServerDefault (Const (VBool true))];
    column "created_at" Timestamptz [NotNull; ServerDefault Now];
    column "updated_at" Timestamptz [NotNull; ServerDefault Now]]].

Definition pricing_0001_rail_fee_schedules : list ddl := [
  create_table "rail_fee_schedules" [
    column "id" BigInteger [PrimaryKey; AutoIncrement];
    column "rail" Text [NotNull];
    column "tier" Text [Nullable];
    column "pct_bps" Integer [NotNull];
    column "fixed" (Numeric 38 0) [NotNull; ServerDefault (Const (VInt 0))];
    column "fixed_currency" Text [NotNull; ServerDefault (Const (VText "KES"))];
    column "active" Boolean [NotNull; ServerDefault (Const (VBool true))];
    column "created_at" Timestamptz [NotNull; ServerDefault Now];
    UniqueConstraint "uq_rail_tier" ["rail"; "tier"]];
  create_index "ix_rail_fee_rail" "rail_fee_schedules" [Col "rail"] false None].

Definition pricing_0001_merchant_pricing : list ddl := [
  create_table "merchant_pricing" [
    column "merchant_id" Uuid [PrimaryKey];
    column "org_id" Uuid [Nullable];
    column "tier" Text [NotNull];
    column "effective_at" Timestamptz [NotNull; ServerDefault Now];
    column "source" Text [NotNull];
    column "updated_at" Timestamptz [NotNull; ServerDefault Now]];
  create_index "ix_merchant_pricing_org" "merchant_pricing" [Col "org_id"] false None].

Definition pricing_0001_fx_rates : list ddl := [
  create_table "fx_rates" [
    column "id" BigInteger [PrimaryKey; AutoIncrement];
    column "base_currency" Text [NotNull];
    column "quote_currency" Text [NotNull];
    column "rate" (Numeric 38 18) [NotNull];
    column "source" Text [NotNull];
    column "fetched_at" Timestamptz [NotNull; ServerDefault Now]];
  create_index "ix_fx_pair_time" "fx_rates" [Col "base_currency"; Col "quote_currency"; Desc "fetched_at"] false None].

Definition pricing_0001_quotes : list ddl := [
  create_table "quotes" [
    column "quote_id" Uuid [PrimaryKey];
    column "merchant_id" Uuid [NotNull];
    column "tier" Text [NotNull];
    column "rail" Text [NotNull];
    column "gross" (Numeric 38 0) [NotNull];
    column "currency" Text [NotNull];
    column "settle_currency" Text [NotNull];
    column "platform_fee" (Numeric 38 0) [NotNull];
    column "rail_fee" (Numeric 38 0) [NotNull];
    column "net" (Numeric 38 0) [NotNull];
    column "fx_base" Text [Nullable];
    column "fx_quote" Text [Nullable];
    column "fx_rate" (Numeric 38 18) [Nullable];
    column "breakdown" Jsonb [NotNull];
    column "created_at" Timestamptz [NotNull; ServerDefault Now]];
  create_index "ix_quotes_merchant" "quotes" [Col "merchant_id"] false None].

Definition pricing_0001_platform_fee_accruals : list ddl := [
  create_table "platform_fee_accruals" [
    column "id" BigInteger [PrimaryKey; AutoIncrement];
    column "merchant_id" Uuid [NotNull];
    column "period" Text [NotNull];
    column "amount" (Numeric 38 0) [NotNull];
    column "currency" Text [NotNull];
    column "source_ref" Text [NotNull];
    column "quote_id" Uuid [Nullable];
    column "invoice_id" Uuid [Nullable];
    column "occurred_at" Timestamptz [NotNull];
    column "created_at" Timestamptz [NotNull; ServerDefault Now];
    UniqueConstraint "uq_accrual_source" ["merchant_id"; "source_ref"]];
  create_index "ix_accrual_unbilled" "platform_fee_accruals" [Col "merchant_id"; Col "period"] false (Some (IsNull "invoice_id"))].

Definition pricing_0001_platform_fee_invoices : list ddl := [
  create_table "platform_fee_invoices" [
    column "invoice_id" Uuid [PrimaryKey];
    column "merchant_id" Uuid [NotNull];
    column "period" Text [NotNull];
    column "currency" Text [NotNull];
    column "total_fee" (Numeric 38 0) [NotNull];
    column "line_count" Integer [NotNull];
    column "status" Text [NotNull];
    column "issued_at" Timestamptz [NotNull; ServerDefault Now];
    UniqueConstraint "uq_invoice_merchant_period" ["merchant_id"; "period"]];
  create_index "ix_pfi_merchant" "platform_fee_invoices" [Col "merchant_id"] false None].

Definition pricing_0001_pricing_events : list ddl := [
  create_table "pricing_events" [
    column "id" BigInteger [PrimaryKey; AutoIncrement];
    column "kind" Text [NotNull];
    column "entity_id" Text [NotNull];
    column "payload" Jsonb [NotNull];
    column "published_at" Timestamptz [Nullable];
    column "created_at" Timestamptz [NotNull; ServerDefault Now]];
  create_index "ix_pricing_events_unpublished" "pricing_events" [Col "id"] false (Some (IsNull "published_at"))].

Definition pricing_0001_seed_tiers : list ddl := [
  bulk_insert "tiers" [
    [("tier", Some (VText "standard")); ("display_name", Some (VText "Standard")); ("platform_pct_bps", Some (VInt 250)); ("platform_fixed", Some (VInt 0)); ("fixed_currency", Some (VText "KES"))];
    [("tier", Some (VText "startup")); ("display_name", Some (VText "Startup")); ("platform_pct_bps", Some (VInt 150)); ("platform_fixed", Some (VInt 0)); ("fixed_currency", Some (VText "KES"))];
    [("tier", Some (VText "growth")); ("display_name", Some (VText "Growth")); ("platform_pct_bps", Some (VInt 200)); ("platform_fixed", Some (VInt 0)); ("fixed_currency", Some (VText "KES"))];
    [("tier", Some (VText "scale")); ("display_name", Some (VText "Scale")); ("platform_pct_bps", Some (VInt 120)); ("platform_fixed", Some (VInt 0)); ("fixed_currency", Some (VText "KES"))];
    [("tier", Some (VText "enterprise")); ("display_name", Some (VText "Enterprise")); ("platform_pct_bps", Some (VInt 80)); ("platform_fixed", Some (VInt 0)); ("fixed_currency", Some (VText "KES"))]]].

Definition pricing_0001_seed_rail_fee_schedules : list ddl := [
  bulk_insert "rail_fee_schedules" [
    [("rail", Some (VText "mpesa")); ("tier", None); ("pct_bps", Some (VInt 150)); ("fixed", Some (VInt 0)); ("fixed_currency", Some (VText "KES"))];
    [("rail", Some (VText "card")); ("tier", None); ("pct_bps", Some (VInt 290)); ("fixed", Some (VInt 30)); ("fixed_currency", Some (VText "KES"))];
    [("rail", Some (VText "bank")); ("tier", None); ("pct_bps", Some (VInt 50)); ("fixed", Some (VInt 0)); ("fixed_currency", Some (VText "KES"))];
    [("rail", Some (VText "crypto")); ("tier", None); ("pct_bps", Some (VInt 100)); ("fixed", Some (VInt 0)); ("fixed_currency", Some (VText "KES"))]]].

Definition pricing_0001_downgrade : list ddl := [
  drop_index "ix_pricing_events_unpublished";
  drop_table "pricing_events";
  drop_index "ix_pfi_merchant";
  drop_table "platform_fee_invoices";
  drop_index "ix_accrual_unbilled";
  drop_table "platform_fee_accruals";
  drop_index "ix_quotes_merchant";
  drop_table "quotes";
  drop_index "ix_fx_pair_time";
  drop_table "fx_rates";
  drop_index "ix_merchant_pricing_org";
  drop_table "merchant_pricing";
  drop_index "ix_rail_fee_rail";
  drop_table "rail_fee_schedules";
  drop_table "tiers"].

Definition pricing_0001 : migration :=
  mkMigration "0001" None ([create_schema] ++ pricing_0001_tiers ++ pricing_0001_rail_fee_schedules ++
  pricing_0001_merchant_pricing ++ pricing_0001_fx_rates ++ pricing_0001_quotes ++ pricing_0001_platform_fee_accruals
  ++ pricing_0001_platform_fee_invoices ++ pricing_0001_pricing_events ++ pricing_0001_seed_tiers ++
  pricing_0001_seed_rail_fee_schedules)
    pricing_0001_downgrade.

Definition pricing_migrations : list migration := [pricing_0001].

(** [fee-pricing-service/app/db/models.py] *)

Definition pricing_TierRow : orm := mkOrm "tiers" [
    column "tier" Text [PrimaryKey];
    column "display_name" Text [NotNull];
    column "platform_pct_bps" Integer [NotNull];
    column "platform_fixed" (Numeric 38 0) [NotNull; ServerDefault (Const (VInt 0))];
    column "fixed_currency" Text [NotNull; ServerDefault (Const (VText "KES"))];
    column "active" Boolean [NotNull; ServerDefault (Const (VBool true))];
    column "created_at" Timestamptz [NotNull; ServerDefault Now];
    column "updated_at" Timestamptz [NotNull; ServerDefault Now]].

Definition pricing_RailFeeRow : orm := mkOrm "rail_fee_schedules" [
    column "id" BigInteger [PrimaryKey; AutoIncrement];
    column "rail" Text [NotNull];
    column "tier" Text [Nullable];
    column "pct_bps" Integer [NotNull];
    column "fixed" (Numeric 38 0) [NotNull; ServerDefault (Const (VInt 0))];
    column "fixed_currency" Text [NotNull; ServerDefault (Const (VText "KES"))];
    column "active" Boolean [NotNull; ServerDefault (Const (VBool true))];
    column "created_at" Timestamptz [NotNull; ServerDefault Now];
    UniqueConstraint "uq_rail_tier" ["rail"; "tier"]].

Definition pricing_MerchantPricingRow : orm := mkOrm "merchant_pricing" [
    column "merchant_id" Uuid [PrimaryKey];
    column "org_id" Uuid [Nullable];
    column "tier" Text [NotNull];
    column "effective_at" Timestamptz [NotNull; ServerDefault Now];
    column "source" Text [NotNull];
    column "updated_at" Timestamptz [NotNull; ServerDefault Now]].

Definition pricing_FxRateRow : orm := mkOrm "fx_rates" [
    column "id" BigInteger [PrimaryKey; AutoIncrement];
    column "base_currency" Text [NotNull];
    column "quote_currency" Text [NotNull];
    column "rate" (Numeric 38 18) [NotNull];
    column "source" Text [NotNull];
    column "fetched_at" Timestamptz [NotNull; ServerDefault Now]].

Definition pricing_QuoteRow : orm := mkOrm "quotes" [
    column "quote_id" Uuid [PrimaryKey];
    column "merchant_id" Uuid [NotNull];
    column "tier" Text [NotNull];
    column "rail" Text [NotNull];
    column "gross" (Numeric 38 0) [NotNull];
    column "currency" Text [NotNull];
    column "settle_currency" Text [NotNull];
    column "platform_fee" (Numeric 38 0) [NotNull];
    column "rail_fee" (Numeric 38 0) [NotNull];
    column "net" (Numeric 38 0) [NotNull];
    column "fx_base" Text [Nullable];
    column "fx_quote" Text [Nullable];
    column "fx_rate" (Numeric 38 18) [Nullable];
    column "breakdown" Jsonb [NotNull];
    column "created_at" Timestamptz [NotNull; ServerDefault Now]].

Definition pricing_PlatformFeeAccrualRow : orm := mkOrm "platform_fee_accruals" [
    column "id" BigInteger [PrimaryKey; AutoIncrement];
    column "merchant_id" Uuid [NotNull];
    column "period" Text [NotNull];
    column "amount" (Numeric 38 0) [NotNull];
    column "currency" Text [NotNull];
    column "source_ref" Text [NotNull];
    column "quote_id" Uuid [Nullable];
    column "invoice_id" Uuid [Nullable];
    column "occurred_at" Timestamptz [NotNull];
    column "created_at" Timestamptz [NotNull; ServerDefault Now];
    UniqueConstraint "uq_accrual_source" ["merchant_id"; "source_ref"]].

Definition pricing_PlatformFeeInvoiceRow : orm := mkOrm "platform_fee_invoices" [
    column "invoice_id" Uuid [PrimaryKey];
    column "merchant_id" Uuid [NotNull];
    column "period" Text [NotNull];
    column "currency" Text [NotNull];
    column "total_fee" (Numeric 38 0) [NotNull];
    column "line_count" Integer [NotNull];
    column "status" Text [NotNull];
    column "issued_at" Timestamptz [NotNull; ServerDefault Now];
    UniqueConstraint "uq_invoice_merchant_period" ["merchant_id"; "period"]].

Definition pricing_PricingEventRow : orm := mkOrm "pricing_events" [
    column "id" BigInteger [PrimaryKey; AutoIncrement];
    column "kind" Text [NotNull];
    column "entity_id" Text [NotNull];
    column "payload" Jsonb [NotNull];
    column "published_at" Timestamptz [Nullable];
    column "created_at" Timestamptz [NotNull; ServerDefault Now]].

Definition pricing_models : list orm := [pricing_TierRow; pricing_RailFeeRow; pricing_MerchantPricingRow;
  pricing_FxRateRow; pricing_QuoteRow; pricing_PlatformFeeAccrualRow; pricing_PlatformFeeInvoiceRow;
  pricing_PricingEventRow].

(** ** admin: [admin-backoffice/alembic/versions] *)

Definition admin_0001_staff : list ddl := [
  create_table "staff" [
    column "sub" Uuid [PrimaryKey];
    column "scopes" TextArray [NotNull; ServerDefault (Const (VTexts []))];
    column "note" Text [Nullable];
    column "updated_at" Timestamptz [NotNull; ServerDefault Now]]].

Definition admin_0001_feature_flags : list ddl := [
  create_table "feature_flags" [
    column "flag" Text [PrimaryKey];
    column "description" Text [NotNull];
    column "enabled" Boolean [NotNull; ServerDefault (Const (VBool false))];
    column "rollout_pct" SmallInteger [NotNull; ServerDefault (Const (VInt 0))];
    column "targeting" Jsonb [Nullable];
    column "updated_at" Timestamptz [NotNull; ServerDefault Now]]].

Definition admin_0001_announcements : list ddl := [
  create_table "announcements" [
    column "id" BigInteger [PrimaryKey; AutoIncrement];
    column "title" Text [NotNull];
    column "body" Text [NotNull];
    column "severity" Text [NotNull];
    column "active_from" Timestamptz [NotNull];
    column "active_to" Timestamptz [NotNull];
    column "created_by" Uuid [NotNull]]].

Definition admin_0001_downgrade : list ddl := [
  drop_table "announcements";
  drop_table "feature_flags";
  drop_table "staff"].

Definition admin_0001 : migration :=
  mkMigration "0001" None ([create_schema] ++ admin_0001_staff ++ admin_0001_feature_flags ++ admin_0001_announcements)
    admin_0001_downgrade.

Definition admin_migrations : list migration := [admin_0001].

(** [admin-backoffice/app/db/models.py] *)

Definition admin_StaffRow : orm := mkOrm "staff" [
    column "sub" Uuid [PrimaryKey];
    column "scopes" TextArray [NotNull; ServerDefault (Const (VTexts []))];
    column "note" Text [Nullable];
    column "updated_at" Timestamp [NotNull; ServerDefault Now]].

Definition admin_models : list orm := [admin_StaffRow].

(** ** The services *)

Record service := mkService { svc_name : string; migrations : list migration; models : list orm }.

Definition services : list service := [
  mkService "paylink" paylink_migrations paylink_models;
  mkService "invoice" invoice_migrations invoice_models;
  mkService "identity" identity_migrations identity_models;
  mkService "merchant" merchant_migrations merchant_models;
  mkService "compliance" compliance_migrations compliance_models;
  mkService "notify" notify_migrations notify_models;
  mkService "pricing" pricing_migrations pricing_models;
  mkService "admin" admin_migrations admin_models].

(** The database of a service after [alembic upgrade head] on an empty schema. *)
Definition head (now : Z) (s : service) : db :=
  match upgrade_all now (migrations s) Sql.empty with Ok d => d | Raise _ => Sql.empty end.
End Migrations.
