(* ===== verification/Schema.v ===== *)
(** * What the migrations and the mapped classes promise

    The revisions of every service run, and are undone with the rows of the
    database kept; a mapped class mirrors the table the migrations made. *)
From S2P Require Import Prelude PyText PyDecimal Sql SqlFacts Migrations.

Module Schema.
Import Sql SqlFacts Migrations.
Open Scope Z_scope.

#[global] Instance ddl_eq_dec : EqDecision ddl.
Proof.
  assert (EqDecision item) by solve_decision. solve_decision.
Defined.

(** The database of a service after its first [i] revisions. *)
Definition at_revision (now : Z) (s : service) (i : nat) : db :=
  match upgrade_all now (take i (migrations s)) Sql.empty with Ok d => d | Raise _ => Sql.empty end.

(** A later revision checks on the catalog before it, and its downgrade is its
    inverse. *)
Definition revisable (s : service) (i : nat) : bool :=
  match migrations s !! i with
  | None => true
  | Some m =>
      replay 0 [] (upgrade m) (at_revision 0 s i) &&
      match mapM inverse (upgrade m) with
      | Some invs => bool_decide (downgrade m = reverse invs)
      | None => false
      end
  end.

(** What holds of a service by running it. *)
Definition service_ok (now : Z) (s : service) : bool :=
  chained None (migrations s) &&
  is_ok (upgrade_all now (migrations s) Sql.empty) &&
  match downgrade_all now (migrations s) (head now s) with
  | Ok d => schema d && bool_decide (map_to_list (tables d) = [])
  | Raise _ => false
  end &&
  forallb (revisable s) (seq 1 (length (migrations s))) && sane (head now s) && conformsb (head now s).

Definition models_ok (now : Z) (s : service) : bool :=
  forallb (λ o, bool_decide (mismatches storable (head now s) o = []) && keys_match (head now s) o) (models s).

Lemma services_ok now : forallb (service_ok now) services = true.
Proof. vm_compute. reflexivity. Qed.

Lemma services_models_ok now : forallb (models_ok now) services = true.
Proof. vm_compute. reflexivity. Qed.

Lemma revision_undone now s i m d :
  s ∈ services → (0 < i)%nat → migrations s !! i = Some m → catalog d = catalog (at_revision 0 s i) → declared d →
  ∃ d', run now (upgrade m) d = Ok d' ∧ keeps_rows d d' ∧ ∀ now', run now' (downgrade m) d' = Ok d.
Proof.
  intros Hs Hi Hm Hc Hd. pose proof (forallb_elem _ _ _ (services_ok 0) Hs) as [[[_ Hrev]%andb_true_iff _]%andb_true_iff _]%andb_true_iff.
  apply (forallb_elem _ _ i) in Hrev.
  2:{ apply elem_of_seq. apply lookup_lt_Some in Hm. lia. }
  unfold revisable in Hrev. rewrite Hm in Hrev. apply andb_true_iff in Hrev as [Hrep Hinv].
  destruct (mapM inverse (upgrade m)) as [invs|] eqn:E; [|done]. apply bool_decide_eq_true in Hinv as ->.
  eapply run_undone; [|done|done|done]. split; [done|]. intros n t Hn. by apply elem_of_nil in Hn.
Qed.

(** C21: the migrations of every service run from an empty schema to their head
    and back to an empty schema.  A later revision runs on any database of the
    revision before it, whatever rows it holds, keeps those rows, and its
    downgrade gives back exactly the database it started from. *)
Theorem migrations_reversible now s :
  s ∈ services →
  upgrade_all now (migrations s) Sql.empty = Ok (head now s) ∧
  downgrade_all now (migrations s) (head now s) = Ok (mkDb true ∅) ∧
  ∀ i m d, (0 < i)%nat → migrations s !! i = Some m → catalog d = catalog (at_revision 0 s i) → declared d →
    ∃ d', run now (upgrade m) d = Ok d' ∧ keeps_rows d d' ∧ ∀ now', run now' (downgrade m) d' = Ok d.
Proof.
  intros Hs. pose proof (forallb_elem _ _ _ (services_ok now) Hs) as
    [[[[[_ Hup]%andb_true_iff Hdown]%andb_true_iff _]%andb_true_iff _]%andb_true_iff _]%andb_true_iff.
  split; [|split].
  - unfold head in *. by destruct (upgrade_all now (migrations s) Sql.empty).
  - destruct (downgrade_all now (migrations s) (head now s)) as [[sc ts]|]; [|done]. simpl in Hdown.
    apply andb_true_iff in Hdown as [-> Hts%bool_decide_eq_true]. apply map_to_list_empty_iff in Hts as ->. done.
  - intros i m d. by apply revision_undone.
Qed.

(** The identity service with two events in its outbox, before [published_at]. *)
Definition demo_event (k : Z) : row :=
  {["id" := VInt k; "subject_type" := VText "user"; "kind" := VText "identity.user.registered";
    "payload" := VJson (JObj []); "occurred_at" := VTime k]}.

Definition demo_identity : service := mkService "identity" identity_migrations identity_models.

Definition demo_rows : db :=
  on_tables (alter (on_rows (λ _, [demo_event 1; demo_event 2])) "identity_events") (at_revision 0 demo_identity 1).

Lemma migrations_reversible_witness :
  ∃ d', run 5 (upgrade identity_0002) demo_rows = Ok d' ∧ keeps_rows demo_rows d' ∧ ∀ now', run now' (downgrade identity_0002) d' = Ok demo_rows.
Proof.
  apply (proj2 (proj2 (migrations_reversible 5 demo_identity ltac:(right; right; left))) 1%nat); [lia|reflexivity|vm_compute; reflexivity|].
  apply conforms_declared, conformsb_sound. vm_compute. reflexivity.
Defined.

Lemma head_conforms now s : s ∈ services → conforms (head now s) ∧ sane (head now s) = true.
Proof.
  intros Hs. pose proof (forallb_elem _ _ _ (services_ok now) Hs) as [[_ Hsane]%andb_true_iff Hc]%andb_true_iff.
  split; [by apply conformsb_sound|done].
Qed.

(** C7: at its head the database of a service conforms to its schema, and stays
    so under inserts through the mapped classes: an instance whose attributes
    have their annotated types is stored, typed and with every constraint kept,
    or refused for a unique key, a foreign key, a numeric range, or because the text it has for an INET column (which
    the classes annotate as [str]) is no address.  No class
    names a table or a column that is missing or of another type, and none
    leaves out a column that has to be given. *)
Theorem models_typed now now0 s o a d :
  s ∈ services → o ∈ models s → catalog d = catalog (head now0 s) → typed_instance o a = true →
  conforms (head now0 s) ∧
  match insert now (tablename o) a d with
  | Ok (r, d') => catalog d' = catalog d ∧ (conforms d → conforms d')
  | Raise e => e ∈ [UniqueViolation; ForeignKeyViolation; NumericValueOutOfRange] ∨
               e = InvalidTextRepresentation ∧ ∃ c t, a !! c = Some (Some (VInet t false))
  end.
Proof.
  intros Hs Ho Hc Ha. destruct (head_conforms now0 s Hs) as [Hconf Hsane]. split; [done|].
  pose proof (forallb_elem _ _ _ (forallb_elem _ _ _ (services_models_ok now0) Hs) Ho) as [Hm%bool_decide_eq_true Hk]%andb_true_iff.
  pose proof (sane_catalog _ _ Hc Hsane) as Hsd. destruct (insert now (tablename o) a d) as [[r d']|e] eqn:E.
  - split; [by eapply insert_catalog|]. intros Hd. eapply insert_conforms; [|done|done].
    intros n t Ht. by destruct (sane_spec _ _ _ Hsd Ht).
  - destruct (typed_insert now o a d e Hsd) as [He|(He & c & v & Hv & Hr)];
      [by rewrite (mismatches_catalog _ _ _ _ Hc)|by rewrite (keys_match_catalog _ _ _ Hc)|done|done|by left|].
    right. split; [done|]. destruct v; try done. simpl in Hr. subst. eauto.
Qed.

Definition demo_user : gmap string (option value) :=
  {["user_id" := Some (VUuid 7%N); "email" := Some (VText "a@x.io"); "phone" := None; "status" := Some (VText "ACTIVE")]}.

Lemma models_typed_witness :
  conforms (head 3 demo_identity) ∧
  match insert 9 "users" demo_user (head 3 demo_identity) with
  | Ok (r, d') => catalog d' = catalog (head 3 demo_identity) ∧ (conforms (head 3 demo_identity) → conforms d')
  | Raise e => e ∈ [UniqueViolation; ForeignKeyViolation; NumericValueOutOfRange] ∨
               e = InvalidTextRepresentation ∧ ∃ c t, demo_user !! c = Some (Some (VInet t false))
  end.
Proof.
  apply (models_typed 9 3 demo_identity identity_UserRow demo_user (head 3 demo_identity));
    [right; right; left|left|reflexivity|vm_compute; reflexivity].
Defined.

(** The one column a class declares with another type: [updated_at] of
    [StaffRow] has no time zone, the migration's has one. *)
Lemma mirrored_exactly now :
  (λ s, (svc_name s, mjoin ((λ o, (λ c, (tablename o, c)) <$> mismatches same_type (head now s) o) <$> models s))) <$> services
  = [("paylink", []); ("invoice", []); ("identity", []); ("merchant", []); ("compliance", []); ("notify", []);
     ("pricing", []); ("admin", [("staff", "updated_at")])].
Proof. vm_compute. reflexivity. Qed.
End Schema.
