(* ===== verification/Codec.v ===== *)
(** * Tables of the models as tables of the database

    The components keep a table as a finite map from its key to a record, and
    write out the constraints in their insert functions.  A codec gives the
    columns of a record; [encodes] says that the rows of a database table are,
    on those columns, the records of the map.  [insert_sim] compares one insert:
    the database accepts the row exactly when no unique index of the table
    clashes with a record of the map and every foreign key has its row. *)
From S2P Require Import Prelude PyText PyDecimal Tables Sql SqlFacts.

Module Codec.
Import Sql SqlFacts.
Open Scope Z_scope.

(** The columns an instance sets, in the order of the class. *)
Notation attrs := (list (string * option value)).

Fixpoint assoc (c : string) (l : attrs) : option (option value) :=
  match l with
  | [] => None
  | (k, v) :: l => if String.eqb c k then Some v else assoc c l
  end.

Definition get (c : string) (l : attrs) : option value := match assoc c l with Some o => o | None => None end.

Definition to_row (l : attrs) : row := omap id (list_to_map l : gmap string (option value)).

Definition restrict (cols : list string) (r : row) : row := filter (λ kv, kv.1 ∈ cols) r.

Record codec (K A : Type) := mkCodec { cols : list string; enc : K → A → attrs }.
Arguments mkCodec {K A} _ _.
Arguments cols {K A} _.
Arguments enc {K A} _ _ _.

(** Every record sets the same columns, once each. *)
Class Regular {K A} (C : codec K A) := {
  enc_names : ∀ k a, (enc C k a).*1 = cols C;
  cols_nodup : NoDup (cols C) }.

Section codec.
Context {K A : Type} `{Countable K} (C : codec K A) `{!Regular C}.
Implicit Types (m : gmap K A) (k : K) (a : A).

Definition encodes m (rs : list row) : Prop :=
  (restrict (cols C) <$> rs) ≡ₚ ((λ ka, to_row (enc C ka.1 ka.2)) <$> map_to_list m).

Lemma list_to_map_assoc c (l : attrs) : (list_to_map l : gmap string (option value)) !! c = assoc c l.
Proof.
  induction l as [|[k v] l IH]; simpl; [by rewrite lookup_empty|]. destruct (String.eqb_spec c k) as [->|Hne].
  - by rewrite lookup_insert_eq.
  - by rewrite lookup_insert_ne.
Qed.

Lemma list_to_map_get c (l : attrs) : (list_to_map l : gmap string (option value)) !! c ≫= id = get c l.
Proof. unfold get. rewrite list_to_map_assoc. by destruct (assoc c l). Qed.

Lemma to_row_get c l : to_row l !! c = get c l.
Proof. unfold to_row. rewrite lookup_omap. apply list_to_map_get. Qed.

Lemma restrict_lookup cs (r : row) c : restrict cs r !! c = if decide (c ∈ cs) then r !! c else None.
Proof.
  unfold restrict. destruct (decide (c ∈ cs)).
  - destruct (r !! c) eqn:E.
    + by apply map_lookup_filter_Some.
    + apply map_lookup_filter_None. by left.
  - apply map_lookup_filter_None. right. by intros v _.
Qed.

Lemma get_absent c (l : attrs) : c ∉ l.*1 → get c l = None.
Proof.
  intros Hc. unfold get. rewrite <- list_to_map_assoc. by rewrite (not_elem_of_list_to_map_1 l c Hc).
Qed.

(** An index on encoded columns sees only them. *)
Lemma ixval_restrict cs e (r : row) : expr_column e ∈ cs → ixval e (restrict cs r) = ixval e r.
Proof. intros Hc. destruct e; simpl in *; rewrite restrict_lookup, decide_True by done; done. Qed.

Lemma holds_restrict cs p (r : row) : pred_column p ∈ cs → holds p (restrict cs r) = holds p r.
Proof. intros Hc. destruct p; simpl in *; rewrite restrict_lookup, decide_True by done; done. Qed.

Lemma mapM_ixval_restrict cs es (r : row) :
  (expr_column <$> es) ⊆ cs → mapM (λ e, ixval e (restrict cs r)) es = mapM (λ e, ixval e r) es.
Proof.
  induction es as [|e es IH]; intros Hs; [done|]. simpl. rewrite ixval_restrict by set_solver.
  rewrite IH by set_solver. done.
Qed.

Lemma index_key_restrict cs ix (r : row) :
  index_columns ix ⊆ cs → index_key ix (restrict cs r) = index_key ix r.
Proof.
  unfold index_columns, index_key. intros Hsub. destruct (ix_where ix) as [p|].
  - rewrite holds_restrict by set_solver. by rewrite mapM_ixval_restrict by set_solver.
  - by rewrite mapM_ixval_restrict by set_solver.
Qed.

Lemma clashes_restrict cs ix (r r' : row) :
  index_columns ix ⊆ cs → clashes ix (restrict cs r) (restrict cs r') = clashes ix r r'.
Proof. intros Hs. unfold clashes. by rewrite !index_key_restrict. Qed.

Lemma encodes_elem m rs (r : row) : encodes m rs → r ∈ rs → ∃ k a, m !! k = Some a ∧ restrict (cols C) r = to_row (enc C k a).
Proof.
  intros Hp Hr. assert (Hin : restrict (cols C) r ∈ restrict (cols C) <$> rs) by by apply list_elem_of_fmap_2.
  rewrite Hp in Hin. apply list_elem_of_fmap in Hin as ([k a] & -> & Hka%elem_of_map_to_list). eauto.
Qed.

Lemma encodes_row m rs k a : encodes m rs → m !! k = Some a → ∃ r, r ∈ rs ∧ restrict (cols C) r = to_row (enc C k a).
Proof.
  intros Hp Hk. assert (Hin : to_row (enc C k a) ∈ (λ ka, to_row (enc C ka.1 ka.2)) <$> map_to_list m).
  { apply list_elem_of_fmap. exists (k, a). split; [done|by apply elem_of_map_to_list]. }
  rewrite <- Hp in Hin. apply list_elem_of_fmap in Hin as (r & -> & Hr). eauto.
Qed.

Lemma encodes_insert m rs k a (r : row) :
  m !! k = None → encodes m rs → restrict (cols C) r = to_row (enc C k a) → encodes (<[k := a]> m) (rs ++ [r]).
Proof.
  intros Hk Hp Hr. unfold encodes. rewrite map_to_list_insert by done. rewrite fmap_app, Hp. simpl. rewrite Hr.
  by rewrite Permutation_app_comm.
Qed.

(** A foreign key to an encoded table. *)
Lemma encodes_exists m rs c v :
  encodes m rs → c ∈ cols C →
  existsb (λ r, bool_decide (r !! c = Some v)) rs = true ↔ ∃ k a, m !! k = Some a ∧ get c (enc C k a) = Some v.
Proof.
  intros Hp Hc. rewrite existsb_exists. split.
  - intros (r & Hr%list_elem_of_In & Hv%bool_decide_eq_true). destruct (encodes_elem _ _ _ Hp Hr) as (k & a & Hk & Hres).
    exists k, a. split; [done|]. rewrite <- to_row_get, <- Hres, restrict_lookup, decide_True by done. done.
  - intros (k & a & Hk & Hv). destruct (encodes_row _ _ _ _ Hp Hk) as (r & Hr & Hres). exists r.
    split; [by apply list_elem_of_In|]. apply bool_decide_eq_true.
    rewrite <- to_row_get, <- Hres, restrict_lookup, decide_True in Hv by done. done.
Qed.

(** The unique indexes of a table, against an encoded map. *)
Lemma unique_ok_encodes t m k a (r : row) :
  (∀ ix, ix ∈ pk_index t :: indexes t → ix_unique ix = true → index_columns ix ⊆ cols C) →
  encodes m (rows t) → restrict (cols C) r = to_row (enc C k a) →
  unique_ok t r = true ↔
  ∀ ix k' a', ix ∈ pk_index t :: indexes t → ix_unique ix = true → m !! k' = Some a' →
    clashes ix (to_row (enc C k a)) (to_row (enc C k' a')) = false.
Proof.
  intros Hcol Hp Hr. unfold unique_ok. rewrite forallb_forall. split.
  - intros Hu ix k' a' Hix Hun Hk'. destruct (encodes_row _ _ _ _ Hp Hk') as (r' & Hr' & Hres).
    rewrite <- Hr, <- Hres, clashes_restrict by auto. specialize (Hu ix (proj1 (list_elem_of_In _ _) Hix)).
    apply negb_true_iff, (forallb_elem _ _ _ Hu Hr').
  - intros Hc ix Hix%list_elem_of_In. apply forallb_forall. intros r' Hr'%list_elem_of_In. apply negb_true_iff.
    destruct (ix_unique ix) eqn:Hun; [|unfold clashes; by rewrite Hun].
    destruct (encodes_elem _ _ _ Hp Hr') as (k' & a' & Hk' & Hres). rewrite <- (clashes_restrict (cols C)), Hr, Hres by auto. eauto.
Qed.

(** What the record gives a column is stored as it is. *)
Definition stored (ty : sqltype) (v : value) : Prop := coerce ty v = Ok v.

Definition stores (now serial : Z) (l : attrs) (c : Column) : Prop :=
  match assoc (col_name c) l with
  | Some (Some v) => stored (col_type c) v
  | Some None => nullable c = true
  | None =>
      if autoincrement c then stored (col_type c) (VInt serial)
      else match server_default c with Some df => stored (col_type c) (default_value now df) | None => nullable c = true end
  end.

Lemma stores_supplied now serial l c :
  stores now serial l c →
  match supplied now serial (list_to_map l) c with Some v => stored (col_type c) v | None => nullable c = true end.
Proof.
  unfold stores, supplied. rewrite list_to_map_assoc. destruct (assoc (col_name c) l) as [[v|]|]; try done.
  destruct (autoincrement c); [done|]. by destruct (server_default c).
Qed.

(** The indexes on attributes. *)
Definition attr_val (e : ixexpr) (l : attrs) : option value :=
  match e with
  | Col c | Desc c => get c l
  | JsonText _ _ => ixval e (to_row l)
  end.

Definition attr_holds (p : predicate) (l : attrs) : bool :=
  match p with
  | IsNull c => match get c l with Some _ => false | None => true end
  | IsNotNull c => match get c l with Some _ => true | None => false end
  | OneOf c vs => match get c l with Some (VText s) => bool_decide (s ∈ vs) | _ => false end
  end.

Definition attr_key (ix : Index) (l : attrs) : option (list value) :=
  if (match ix_where ix with Some p => attr_holds p l | None => true end)
  then mapM (λ e, attr_val e l) (ix_on ix) else None.

Definition attr_clash (ix : Index) (l l' : attrs) : Prop :=
  ix_unique ix = true ∧ ∃ ks : list value, attr_key ix l = Some ks ∧ attr_key ix l' = Some ks.

Lemma index_key_attr ix l : index_key ix (to_row l) = attr_key ix l.
Proof.
  unfold index_key, attr_key.
  assert (Hv : mapM (λ e, ixval e (to_row l)) (ix_on ix) = mapM (λ e, attr_val e l) (ix_on ix)).
  { apply mapM_ext. intros [c|c|c key]; simpl; by rewrite ?to_row_get. }
  destruct (ix_where ix) as [p|]; [|done].
  assert (Hp : holds p (to_row l) = attr_holds p l); [|by rewrite Hp, Hv].
  destruct p; simpl; rewrite to_row_get; destruct (get _ l); done.
Qed.

Lemma clashes_attr ix l l' : clashes ix (to_row l) (to_row l') = false ↔ ¬ attr_clash ix l l'.
Proof.
  unfold clashes, attr_clash. rewrite !index_key_attr. destruct (ix_unique ix); simpl; [|split; [intros _ [? _]|]; done].
  destruct (attr_key ix l) as [k|]; [|split; [intros _ (_ & ? & ? & _)|]; done].
  rewrite bool_decide_eq_false. naive_solver.
Qed.

Lemma build_row_exact now serial l cs :
  NoDup (col_name <$> cs) → Forall (stores now serial l) cs →
  ∃ r, build_row now serial (list_to_map l) cs = Ok r ∧ ∀ c, c ∈ cs → r !! col_name c = supplied now serial (list_to_map l) c.
Proof.
  induction cs as [|c cs IH]; simpl; intros Hnd Hst; [exists ∅; split; [done|by intros c ?%elem_of_nil]|].
  apply NoDup_cons in Hnd as [Hc Hnd]. apply Forall_cons in Hst as [Hs Hst]. destruct (IH Hnd Hst) as (r & Hr & Hl).
  rewrite Hr. simpl. apply stores_supplied in Hs. unfold stored in Hs. destruct (supplied now serial (list_to_map l) c) as [v|] eqn:Ev.
  - rewrite Hs. simpl. exists (<[col_name c := v]> r). split; [done|]. intros x [->|Hx]%elem_of_cons.
    + by rewrite Ev, lookup_insert_eq.
    + rewrite lookup_insert_ne; [by apply Hl|]. intros Heq. apply Hc. rewrite Heq. by apply list_elem_of_fmap_2.
  - rewrite Hs. exists r. split; [done|]. intros x [->|Hx]%elem_of_cons; [|by apply Hl]. rewrite Ev.
    destruct (r !! col_name c) eqn:E; [|done]. destruct Hc. by eapply build_row_absent; [exact Hr|].
Qed.

Lemma build_row_restrict now serial k a cs :
  NoDup (col_name <$> cs) → cols C ⊆ col_name <$> cs → Forall (stores now serial (enc C k a)) cs →
  ∃ r, build_row now serial (list_to_map (enc C k a)) cs = Ok r ∧ restrict (cols C) r = to_row (enc C k a).
Proof.
  intros Hnd Hsub Hst. destruct (build_row_exact _ _ _ _ Hnd Hst) as (r & Hr & Hl). exists r. split; [done|].
  apply map_eq. intros x. rewrite restrict_lookup, to_row_get. destruct (decide (x ∈ cols C)) as [Hx|Hx].
  - pose proof (Hsub x Hx) as (c & -> & Hc)%list_elem_of_fmap. rewrite Hl by done. unfold supplied.
    rewrite <- list_to_map_get. destruct (list_to_map (enc C k a) !! col_name c) as [o|] eqn:E; [done|].
    apply not_elem_of_list_to_map_2 in E. by rewrite enc_names in E.
  - symmetry. apply get_absent. by rewrite enc_names.
Qed.

(** The conditions on a table that its definition decides. *)
Definition codec_fits (t : Table) : bool :=
  bool_decide (NoDup (col_name <$> columns t)) &&
  forallb (λ c, bool_decide (c ∈ col_name <$> columns t)) (cols C) &&
  forallb (λ ix, negb (ix_unique ix) || forallb (λ c, bool_decide (c ∈ cols C)) (index_columns ix)) (pk_index t :: indexes t) &&
  forallb (λ fk, bool_decide (fk_col fk ∈ cols C)) (foreign_keys t).

Lemma codec_fits_strip t t0 : strip t = strip t0 → codec_fits t = codec_fits t0.
Proof. intros (Hcol & Hpk & Hfk & Hix)%strip_fields. unfold codec_fits, pk_index. by rewrite Hcol, Hpk, Hfk, Hix. Qed.

Lemma codec_fits_spec t :
  codec_fits t = true →
  NoDup (col_name <$> columns t) ∧ cols C ⊆ col_name <$> columns t ∧
  (∀ ix, ix ∈ pk_index t :: indexes t → ix_unique ix = true → index_columns ix ⊆ cols C) ∧
  (∀ fk, fk ∈ foreign_keys t → fk_col fk ∈ cols C).
Proof.
  unfold codec_fits. intros [[[Hnd%bool_decide_eq_true Hc]%andb_true_iff Hix]%andb_true_iff Hfk]%andb_true_iff. split_and!.
  - done.
  - intros x Hx. by apply (bool_decide_eq_true_1 _), (forallb_elem _ _ _ Hc).
  - intros ix Hin Hu x Hx. apply (forallb_elem _ _ _ Hix) in Hin. rewrite Hu in Hin. simpl in Hin.
    by apply (bool_decide_eq_true_1 _), (forallb_elem _ _ _ Hin).
  - intros fk Hin. by apply (bool_decide_eq_true_1 _), (forallb_elem _ _ _ Hfk).
Qed.

(** One insert: [guard] is the refusal the model writes out. *)
Lemma insert_sim now n t s m k a (guard : bool) :
  tables s !! n = Some t → codec_fits t = true → encodes m (rows t) →
  Forall (stores now (next_serial t) (enc C k a)) (columns t) →
  (guard = false → m !! k = None) →
  (guard = false ↔
     Forall (λ ix, ∀ k' a', m !! k' = Some a' → ¬ attr_clash ix (enc C k a) (enc C k' a')) (pk_index t :: indexes t) ∧
     Forall (λ fk, fk_ok s (to_row (enc C k a)) fk = true) (foreign_keys t)) →
  match insert now n (list_to_map (enc C k a)) s with
  | Ok (_, s') => guard = false ∧ ∃ t', s' = on_tables <[n := t']> s ∧ strip t' = strip t ∧ encodes (<[k := a]> m) (rows t')
  | Raise e => guard = true ∧ e ∈ [UniqueViolation; ForeignKeyViolation]
  end.
Proof.
  rewrite !Forall_forall. intros Ht (Hnd & Hsub & Hix & Hfk)%codec_fits_spec Hm Hst Hfree Hguard. rewrite <- Forall_forall in Hst.
  destruct (build_row_restrict now (next_serial t) k a (columns t) Hnd Hsub Hst) as (r & Hr & Hres).
  assert (Hu : unique_ok t r = true ↔ ∀ ix, ix ∈ pk_index t :: indexes t → ∀ k' a', m !! k' = Some a' → ¬ attr_clash ix (enc C k a) (enc C k' a')).
  { rewrite (unique_ok_encodes t m k a r Hix Hm Hres). split.
    - intros Hc ix Hin k' a' Hk' Hcl. pose proof (proj1 Hcl) as Hun. by apply (proj1 (clashes_attr ix _ _) (Hc ix k' a' Hin Hun Hk')).
    - intros Hc ix k' a' Hin _ Hk'. by apply clashes_attr, Hc. }
  assert (Hf : forallb (fk_ok s r) (foreign_keys t) = true ↔ ∀ fk, fk ∈ foreign_keys t → fk_ok s (to_row (enc C k a)) fk = true).
  { rewrite forallb_forall. setoid_rewrite <- list_elem_of_In. rewrite <- Hres. unfold fk_ok.
    split; intros HH fk Hin; specialize (HH fk Hin); rewrite restrict_lookup, decide_True in * by auto; done. }
  unfold insert. rewrite Ht.
  replace (forallb _ (map_to_list (list_to_map (enc C k a)))) with true.
  2:{ symmetry. apply forallb_forall. intros [x o] Hin%list_elem_of_In%elem_of_map_to_list. apply bool_decide_eq_true, find_column_some, Hsub.
      rewrite <- (enc_names k a). apply elem_of_list_to_map_2 in Hin. by apply (list_elem_of_fmap_2 fst) in Hin. }
  simpl. rewrite Hr. simpl. destruct (unique_ok t r) eqn:Eu; simpl.
  - destruct (forallb (fk_ok s r) (foreign_keys t)) eqn:Ef; simpl.
    + assert (guard = false) as Hg by tauto. split; [done|]. eexists. split; [done|]. split; [done|].
      simpl. apply encodes_insert; auto.
    + split; [|set_solver]. destruct guard; [done|]. destruct (proj1 Hguard eq_refl) as [_ Hok]. by apply Hf in Hok.
  - split; [|set_solver]. destruct guard; [done|]. destruct (proj1 Hguard eq_refl) as [Hok _]. by apply Hu in Hok.
Qed.

Lemma insert_cases (Q : result (row * db) → Prop) now n t s m k a (guard : bool) :
  tables s !! n = Some t → codec_fits t = true → encodes m (rows t) →
  Forall (stores now (next_serial t) (enc C k a)) (columns t) →
  (guard = false → m !! k = None) →
  (guard = false ↔
     Forall (λ ix, ∀ k' a', m !! k' = Some a' → ¬ attr_clash ix (enc C k a) (enc C k' a')) (pk_index t :: indexes t) ∧
     Forall (λ fk, fk_ok s (to_row (enc C k a)) fk = true) (foreign_keys t)) →
  (guard = false → ∀ r t', strip t' = strip t → encodes (<[k := a]> m) (rows t') → Q (Ok (r, on_tables <[n := t']> s))) →
  (guard = true → ∀ e, e ∈ [UniqueViolation; ForeignKeyViolation] → Q (Raise e)) →
  Q (insert now n (list_to_map (enc C k a)) s).
Proof.
  intros Ht Hfit He Hst Hfree Hguard Hok Hraise.
  pose proof (insert_sim now n t s m k a guard Ht Hfit He Hst Hfree Hguard) as H0.
  destruct (insert now n _ s) as [[r s']|e].
  - destruct H0 as (Hg & t' & -> & Hs & He'). by apply Hok.
  - destruct H0 as [Hg Hin]. by apply Hraise.
Qed.

(** A table of a database holds a map. *)
Definition holds_table (s : db) (n : string) m : Prop := ∃ t, tables s !! n = Some t ∧ encodes m (rows t).

Lemma holds_other s n n' t m : n ≠ n' → holds_table s n m → holds_table (on_tables <[n' := t]> s) n m.
Proof. intros Hne (t0 & Ht & He). exists t0. split; [|done]. simpl. by rewrite lookup_insert_ne. Qed.

Lemma holds_same s n t m : encodes m (rows t) → holds_table (on_tables <[n := t]> s) n m.
Proof. intros He. exists t. split; [|done]. simpl. by rewrite lookup_insert_eq. Qed.

(** A foreign key to a table that holds a map. *)
Lemma fk_holds s m c n ref l v :
  holds_table s n m → bool_decide (ref ∈ cols C) = true → get c l = Some v →
  fk_ok s (to_row l) (mkFk c n ref) = true ↔ ∃ k a, m !! k = Some a ∧ get ref (enc C k a) = Some v.
Proof.
  intros (t & Ht & He) Hc%bool_decide_eq_true Hg. unfold fk_ok. simpl. rewrite to_row_get, Hg, Ht. by apply encodes_exists.
Qed.

(** The guards of the models, as the database's checks. *)
Lemma pk_free ix m k a :
  (∀ k' a', attr_clash ix (enc C k a) (enc C k' a') ↔ k' = k) →
  bool_decide (is_Some (m !! k)) = false ↔ ∀ k' a', m !! k' = Some a' → ¬ attr_clash ix (enc C k a) (enc C k' a').
Proof.
  intros Hix. rewrite bool_decide_eq_false, <- eq_None_not_Some. split.
  - intros Hk k' a' Hk' ->%Hix. congruence.
  - intros Hn. destruct (m !! k) as [a'|] eqn:E; [|done]. by destruct (Hn k a' E); apply Hix.
Qed.

Lemma lookup_free (P : K * A → Prop) `{∀ x, Decision (P x)} ix m k a :
  (∀ k' a', attr_clash ix (enc C k a) (enc C k' a') ↔ P (k', a')) →
  bool_decide (is_Some (head (filter P (map_to_list m)))) = false ↔
  ∀ k' a', m !! k' = Some a' → ¬ attr_clash ix (enc C k a) (enc C k' a').
Proof.
  intros Hix. rewrite bool_decide_eq_false, <- eq_None_not_Some, head_filter_none. split.
  - intros Hn k' a' Hk' Hc%Hix. by apply (Hn (k', a')); [apply elem_of_map_to_list|].
  - intros Hn [k' a'] Hk'%elem_of_map_to_list Hp. by apply (Hn k' a' Hk'), Hix.
Qed.

Lemma fk_present s m c n ref l v k :
  holds_table s n m → bool_decide (ref ∈ cols C) = true → get c l = Some v →
  (∀ k' a, get ref (enc C k' a) = Some v ↔ k' = k) →
  bool_decide (m !! k = None) = false ↔ fk_ok s (to_row l) (mkFk c n ref) = true.
Proof.
  intros Hh Hr Hg Hk. rewrite (fk_holds s m c n ref l v) by done. rewrite bool_decide_eq_false. split.
  - intros Hn. destruct (m !! k) as [a|] eqn:E; [|done]. exists k, a. by rewrite Hk.
  - intros (k' & a & Hm & ->%Hk) Hn. congruence.
Qed.
End codec.

Lemma catalog_same s n t t' :
  tables s !! n = Some t → strip t' = strip t → catalog (on_tables <[n := t']> s) = catalog s.
Proof.
  intros Ht Hs. unfold catalog, on_tables. simpl. f_equal. rewrite fmap_insert, Hs. apply insert_id. by rewrite lookup_fmap, Ht.
Qed.

(** A unique index on one column, or on one column where it is not NULL. *)
Lemma clash_column n c w l l' :
  (w = None ∨ w = Some (IsNotNull c)) →
  attr_clash (mkIndex n [Col c] true w) l l' ↔ ∃ v, get c l = Some v ∧ get c l' = Some v.
Proof.
  intros Hw. unfold attr_clash, attr_key. simpl. split.
  - intros (_ & ks & H1 & H2). destruct Hw as [->| ->]; simpl in *; destruct (get c l), (get c l'); simpl in *; unfold mret, option_ret in *; simplify_eq; eauto.
  - intros (v & H1 & H2). split; [done|]. exists [v]. destruct Hw as [->| ->]; simpl; by rewrite H1, H2.
Qed.

Lemma clash_columns n c c' l l' :
  attr_clash (mkIndex n [Col c; Col c'] true None) l l' ↔
  ∃ v v', get c l = Some v ∧ get c' l = Some v' ∧ get c l' = Some v ∧ get c' l' = Some v'.
Proof.
  unfold attr_clash, attr_key. simpl. split.
  - intros (_ & ks & H1 & H2). destruct (get c l), (get c' l), (get c l'), (get c' l'); simpl in *; unfold mret, option_ret in *; simplify_eq; eauto 10.
  - intros (v & v' & H1 & H2 & H3 & H4). split; [done|]. exists [v; v']. by rewrite H1, H2, H3, H4.
Qed.

Lemma clash_plain n on w l l' : ¬ attr_clash (mkIndex n on false w) l l'.
Proof. by intros [? _]. Qed.
End Codec.
