(* ===== verification/Idempotency.v ===== *)
(** * linkmint_idempotency: Idempotency-Key store and consumer dedupe

    [idempotency-python/src/linkmint_idempotency]: [store.py] (reserve, complete
    and release a key), [consumer.py] ([RedisDedupe], [DbDedupe]) and the way
    every route uses the store (reserve, replay or run, then complete; release
    and re-raise on an exception), as in [paylink-service/app/api/v1/paylinks.py].

    Redis is a parameter: the class [RedisLike] is what the store relies on
    (SET with NX and EX, GET, DEL), and [gmap_redis] shows it can hold.  The
    JSON text a key holds is represented by the JSON value it encodes. *)
From S2P Require Import Prelude PyText.
From Stdlib Require Import Ascii.

(** Redis at a given time (in seconds). *)
Class RedisLike (S : Type) := {
  r_get : Z → string → S → option json;
  r_set : Z → string → json → bool → Z → S → bool * S;
  r_del : string → S → S;
  (** SET NX on a live key answers nil and changes nothing. *)
  r_set_busy t k v j ex s :
    r_get t k s = Some v → r_set t k j true ex s = (false, s);
  (** Otherwise SET answers OK, the key holds the value until it expires, and
      no other key changes. *)
  r_set_free t k j nx ex s :
    nx = false ∨ r_get t k s = None →
    (r_set t k j nx ex s).1 = true ∧
    ∀ t' k', (t ≤ t')%Z → r_get t' k' (r_set t k j nx ex s).2 =
      if decide (k' = k) then (if decide (t' < t + ex)%Z then Some j else None)
      else r_get t' k' s;
  r_del_get t k k' s : r_get t k' (r_del k s) = if decide (k' = k) then None else r_get t k' s;
  (** A key that is live later was live earlier with the same value, unless it
      was written in between. *)
  r_get_anti t t' k v s : (t ≤ t')%Z → r_get t' k s = Some v → r_get t k s = Some v }.

(** The keys of Redis with their values and expiry times. *)
Notation gmap_redis := (gmap string (json * Z)).

Definition live (t : Z) (v : json * Z) : option json :=
  if decide (t < v.2)%Z then Some v.1 else None.

Definition gr_get (t : Z) (k : string) (s : gmap_redis) : option json := s !! k ≫= live t.

Definition gr_set (t : Z) (k : string) (j : json) (nx : bool) (ex : Z) (s : gmap_redis) :
    bool * gmap_redis :=
  match nx, gr_get t k s with
  | true, Some _ => (false, s)
  | _, _ => (true, <[k := (j, t + ex)%Z]> s)
  end.

#[global, refine] Instance gmap_redis_like : RedisLike gmap_redis := {
  r_get := gr_get; r_set := gr_set; r_del k s := delete k s }.
Proof.
  - intros t k v j ex s Hv. unfold gr_set. by rewrite Hv.
  - intros t k j nx ex s Hfree.
    assert (gr_set t k j nx ex s = (true, <[k := (j, t + ex)%Z]> s)) as ->.
    { unfold gr_set. destruct Hfree as [->|Hn]; [done|rewrite Hn; by destruct nx]. }
    split; [done|]. intros t' k' _. cbv [gr_get snd]. case_decide; subst.
    + by rewrite lookup_insert_eq.
    + by rewrite lookup_insert_ne.
  - intros t k k' s. unfold gr_get.
    case_decide; subst; [by rewrite lookup_delete_eq|by rewrite lookup_delete_ne].
  - intros t t' k v s Ht. unfold gr_get, live. destruct (s !! k) as [[j e]|]; simpl; [|done].
    repeat case_decide; try done. lia.
Defined.

Module Idem.
Open Scope Z_scope.

(** ** store.py *)

Inductive IdempotencyConflict := body_mismatch | in_flight.

Record CachedResponse := mkCached { http_status : Z; body : json }.

(** [d.get(k)] on a JSON object. *)
Fixpoint jget (k : string) (o : list (string * json)) : option json :=
  match o with
  | [] => None
  | (k', v) :: o' => if bool_decide (k' = k) then Some v else jget k o'
  end.

Definition dict_get (k : string) (j : json) : option json :=
  match j with JObj o => jget k o | _ => None end.

Definition pending (fp : string) : json :=
  JObj [("state", JStr "pending"); ("fp", JStr fp)].

Definition completed (fp : string) (status : Z) (b : json) : json :=
  JObj [("state", JStr "completed"); ("fp", JStr fp); ("http_status", JInt status); ("body", b)].

(** What a route raises: the store's conflict, a store record without its fields,
    FastAPI's [RequestValidationError] with the body it is about, or the action's own
    exception. *)
Inductive route_exn (E : Type) :=
| Conflict (c : IdempotencyConflict)
| StoreError (k : pyerr)
| RequestValidationError (invalid : json)
| Action (e : E).
Arguments Conflict {E} c.
Arguments StoreError {E} k.
Arguments RequestValidationError {E} invalid.
Arguments Action {E} e.

(** When the four Redis calls of one request happen. *)
Record clock := mkClock { c_set : Z; c_get : Z; c_set2 : Z; c_done : Z }.

Section store.
Context {R : Type} `{!RedisLike R}.
(** [IdempotencyStore(redis, service, ttl_seconds)] *)
Variables (service : string) (ttl : Z).

Definition _key (route key : string) : string :=
  "idem:" +:+ service +:+ ":" +:+ route +:+ ":" +:+ key.

(** [data.get("fp") != fp] *)
Definition is_str (o : option json) (s : string) : bool :=
  match o with Some (JStr s') => bool_decide (s' = s) | _ => false end.

(** [begin]: [t1] is the time of the SET, [t2] of the GET and [t3] of the
    second SET; [None] means the caller owns the key. *)
Definition begin (t1 t2 t3 : Z) (route key fp : string) (s : R) :
    outcome (IdempotencyConflict + pyerr) (option CachedResponse) * R :=
  let rkey := _key route key in
  let '(reserved, s1) := r_set t1 rkey (pending fp) true ttl s in
  if reserved then (Ok None, s1)
  else match r_get t2 rkey s1 with
  | None => (Ok None, (r_set t3 rkey (pending fp) false ttl s1).2)
  | Some data =>
      if negb (is_str (dict_get "fp" data) fp) then (Raise (inl body_mismatch), s1)
      else if is_str (dict_get "state" data) "completed" then
        match dict_get "http_status" data, dict_get "body" data with
        | Some (JInt st), Some b => (Ok (Some (mkCached st b)), s1)
        | _, _ => (Raise (inr KeyError), s1)
        end
      else (Raise (inl in_flight), s1)
  end.

Definition complete (t : Z) (route key fp : string) (st : Z) (b : json) (s : R) : R :=
  (r_set t (_key route key) (completed fp st b) false ttl s).2.

Definition release (route key : string) (s : R) : R := r_del (_key route key) s.

(** ** A route that takes an Idempotency-Key

    [action] is the service call with its state [W]; [render] the response
    body of its result.  An exception releases the key and escapes. *)
Definition idempotent_route {W E A} (c : clock) (route : string) (key : option string) (fp : string)
    (ok_status : Z) (render : A → json) (action : W → outcome E A * W) (s : R) (w : W) :
    outcome (route_exn E) (Z * json) * R * W :=
  match key with
  | Some k =>
      if truthy k then
        match begin (c_set c) (c_get c) (c_set2 c) route k fp s with
        | (Raise (inl e), s1) => (Raise (Conflict e), s1, w)
        | (Raise (inr e), s1) => (Raise (StoreError e), s1, w)
        | (Ok (Some cached), s1) => (Ok (http_status cached, body cached), s1, w)
        | (Ok None, s1) =>
            match action w with
            | (Raise e, w') => (Raise (Action e), release route k s1, w')
            | (Ok a, w') =>
                (Ok (ok_status, render a),
                 complete (c_done c) route k fp ok_status (render a) s1, w')
            end
        end
      else match action w with
           | (Raise e, w') => (Raise (Action e), s, w')
           | (Ok a, w') => (Ok (ok_status, render a), s, w')
           end
  | None => match action w with
            | (Raise e, w') => (Raise (Action e), s, w')
            | (Ok a, w') => (Ok (ok_status, render a), s, w')
            end
  end.

(** ** Lemmas *)

Lemma begin_free t1 t2 t3 route key fp s :
  r_get t1 (_key route key) s = None →
  begin t1 t2 t3 route key fp s =
    (Ok None, (r_set t1 (_key route key) (pending fp) true ttl s).2).
Proof.
  intros Hn. unfold begin.
  destruct (r_set_free t1 (_key route key) (pending fp) true ttl s) as [H1 _]; [by right|].
  destruct (r_set _ _ _ _ _ _) as [b s1]. simpl in *. by subst.
Qed.

Lemma begin_completed t1 t2 t3 route key fp fp' st b s :
  t1 ≤ t2 → r_get t2 (_key route key) s = Some (completed fp st b) →
  begin t1 t2 t3 route key fp' s =
    (if decide (fp' = fp) then Ok (Some (mkCached st b)) else Raise (inl body_mismatch), s).
Proof.
  intros Ht Hg. unfold begin.
  rewrite (r_set_busy _ _ (completed fp st b)) by by eapply r_get_anti.
  rewrite Hg. simpl. case_decide; subst; [by rewrite bool_decide_eq_true_2|].
  by rewrite bool_decide_eq_false_2.
Qed.

Lemma begin_pending t1 t2 t3 route key fp fp' s :
  t1 ≤ t2 → r_get t2 (_key route key) s = Some (pending fp) →
  begin t1 t2 t3 route key fp' s =
    (Raise (inl (if decide (fp' = fp) then in_flight else body_mismatch)), s).
Proof.
  intros Ht Hg. unfold begin.
  rewrite (r_set_busy _ _ (pending fp)) by by eapply r_get_anti.
  rewrite Hg. simpl. case_decide; subst; [by rewrite bool_decide_eq_true_2|].
  by rewrite bool_decide_eq_false_2.
Qed.

Lemma complete_get t t' route key fp st b s :
  t ≤ t' < t + ttl →
  r_get t' (_key route key) (complete t route key fp st b s) = Some (completed fp st b).
Proof.
  intros Ht. unfold complete.
  destruct (r_set_free t (_key route key) (completed fp st b) false ttl s) as [_ Hg]; [by left|].
  rewrite Hg by lia. rewrite decide_True by done. by rewrite decide_True by lia.
Qed.

Lemma release_get t route key s : r_get t (_key route key) (release route key s) = None.
Proof. unfold release. rewrite r_del_get. by rewrite decide_True. Qed.

Lemma route_completed {W E A} c route key fp fp' st st' b render (action : W → outcome E A * W) s w :
  truthy key = true → c_set c ≤ c_get c →
  r_get (c_get c) (_key route key) s = Some (completed fp st b) →
  idempotent_route c route (Some key) fp' st' render action s w =
    (if decide (fp' = fp) then Ok (st, b) else Raise (Conflict body_mismatch), s, w).
Proof.
  intros Hk Hc Hg. unfold idempotent_route. rewrite Hk, (begin_completed _ _ _ _ _ fp fp' st b) by done.
  by case_decide.
Qed.

(** The requests of a client that keeps presenting one key, one after the
    other; each may come with its own body ([fp]) and its own action. *)
Fixpoint retries {W E A} (route key : string) (st : Z) (render : A → json)
    (reqs : list (clock * string * (W → outcome E A * W))) (s : R) (w : W) :
    list (outcome (route_exn E) (Z * json)) * R * W :=
  match reqs with
  | [] => ([], s, w)
  | (c, fp, action) :: reqs' =>
      let '(r, s1, w1) := idempotent_route c route (Some key) fp st render action s w in
      let '(rs, s2, w2) := retries route key st render reqs' s1 w1 in
      (r :: rs, s2, w2)
  end.

Lemma retries_completed {W E A} route key fp st b st' render
    (reqs : list (clock * string * (W → outcome E A * W))) s w :
  truthy key = true →
  Forall (λ q, c_set q.1.1 ≤ c_get q.1.1 ∧
    r_get (c_get q.1.1) (_key route key) s = Some (completed fp st b)) reqs →
  retries route key st' render reqs s w =
    ((λ q, if decide (q.1.2 = fp) then Ok (st, b) else Raise (Conflict body_mismatch)) <$> reqs, s, w).
Proof.
  intros Hk. induction 1 as [|[[c fp'] act] reqs [Hc Hg] _ IH]; [done|].
  cbn [retries fst snd fmap list_fmap] in *. rewrite (route_completed _ _ _ fp _ st _ b) by done. by rewrite IH.
Qed.
End store.

(** ** consumer.py: dedupe of redelivered events *)

Section dedupe.
Context {R : Type} `{!RedisLike R}.
Variables (service : string) (ttl : Z).

Definition dedupe_key (scope key : string) : string :=
  "idemc:" +:+ service +:+ ":" +:+ scope +:+ ":" +:+ key.

Definition seen_before (t : Z) (scope key : string) (s : R) : bool :=
  bool_decide (is_Some (r_get t (dedupe_key scope key) s)).

(** [RedisDedupe.run_once]: [Ok None] for a skipped event. *)
Definition redis_run_once {W E A} (t : Z) (scope key : string) (action : W → outcome E A * W)
    (s : R) (w : W) : outcome E (option A) * R * W :=
  let rkey := dedupe_key scope key in
  let '(reserved, s1) := r_set t rkey (JStr "1") true ttl s in
  if reserved then
    match action w with
    | (Ok a, w') => (Ok (Some a), s1, w')
    | (Raise e, w') => (Raise e, r_del rkey s1, w')
    end
  else (Ok None, s1, w).
End dedupe.

(** [DbDedupe.run_once]: the marks are a table of the caller's transaction;
    [(false, None)] for a duplicate. *)
Definition db_run_once {W E A} (scope key : string) (action : W → outcome E A * W)
    (st : gset (string * string) * W) : outcome E (bool * option A) * (gset (string * string) * W) :=
  let '(marks, w) := st in
  if decide ((scope, key) ∈ marks) then (Ok (false, None), st)
  else match action w with
       | (Ok a, w') => (Ok (true, Some a), ({[(scope, key)]} ∪ marks, w'))
       | (Raise e, w') => (Raise e, ({[(scope, key)]} ∪ marks, w'))
       end.

(** The caller's transaction: committed when [db_run_once] returns, rolled back
    when it raises. *)
Definition deliver {W E A} (scope : string) (action : string → W → outcome E A * W) (key : string)
    (st : gset (string * string) * W) : gset (string * string) * W :=
  match db_run_once scope key (action key) st with
  | (Ok _, st') => st'
  | (Raise _, _) => st
  end.

Definition deliver_all {W E A} (scope : string) (action : string → W → outcome E A * W)
    (keys : list string) (st : gset (string * string) * W) : gset (string * string) * W :=
  fold_left (λ st k, deliver scope action k st) keys st.

(** The effect of processing each key of the list once, in order. *)
Fixpoint once_each {W E A} (action : string → W → outcome E A * W) (keys : list string) (w : W) :
    option W :=
  match keys with
  | [] => Some w
  | k :: keys' => match action k w with
                  | (Ok _, w') => once_each action keys' w'
                  | (Raise _, _) => None
                  end
  end.

Lemma once_each_app {W E A} (action : string → W → outcome E A * W) ks ks' w :
  once_each action (ks ++ ks') w = once_each action ks w ≫= once_each action ks'.
Proof.
  revert w. induction ks as [|k ks IH]; intros w; simpl; [done|].
  destruct (action k w) as [[]]; [apply IH|done].
Qed.

Definition applied_to {W E A} (scope : string) (action : string → W → outcome E A * W)
    (marks : gset (string * string)) (w : W) (keys applied : list string)
    (st : gset (string * string) * W) : Prop :=
  NoDup applied ∧ (∀ k, k ∈ applied → (scope, k) ∉ marks) ∧
  once_each action applied w = Some st.2 ∧
  st.1 = list_to_set (pair scope <$> applied) ∪ marks ∧
  (∀ k, k ∈ keys → (scope, k) ∈ st.1 ∨ ∃ w' e w'', action k w' = (Raise e, w'')).

Lemma deliver_applied {W E A} scope (action : string → W → outcome E A * W) marks w keys applied st k :
  applied_to scope action marks w keys applied st →
  ∃ applied', applied_to scope action marks w (keys ++ [k]) applied' (deliver scope action k st).
Proof.
  destruct st as [m w1]. intros (Hnd & Hfr & Ho & Hm & Hk). simpl in *. unfold deliver, db_run_once.
  case_decide as Hin.
  { exists applied. split_and!; try done. intros k'. rewrite elem_of_app, list_elem_of_singleton.
    intros [?| ->]; [by apply Hk|by left]. }
  destruct (action k w1) as [[a|e] w2] eqn:Ea; simpl.
  - exists (applied ++ [k]). split_and!.
    + apply NoDup_app. split_and!; [done| |apply NoDup_singleton].
      intros x Hx ->%list_elem_of_singleton. apply Hin. subst m. set_solver.
    + intros x. rewrite elem_of_app, list_elem_of_singleton. intros [?| ->]; [by apply Hfr|set_solver].
    + by rewrite once_each_app, Ho; simpl; rewrite Ea.
    + simpl. subst m. rewrite fmap_app, list_to_set_app_L. simpl. set_solver.
    + intros k'. rewrite elem_of_app, list_elem_of_singleton. simpl.
      intros [Hk'| ->]; [destruct (Hk k' Hk'); [left; set_solver|by right]|left; set_solver].
  - exists applied. split_and!; try done. intros k'. rewrite elem_of_app, list_elem_of_singleton.
    intros [?| ->]; [by apply Hk|right]. eauto.
Qed.

Lemma deliver_all_applied {W E A} scope (action : string → W → outcome E A * W) marks w keys :
  ∃ applied, applied_to scope action marks w keys applied (deliver_all scope action keys (marks, w)).
Proof.
  unfold deliver_all. induction keys as [|k keys [applied IH]] using rev_ind.
  - exists []. split_and!; [constructor|set_solver|done|set_solver|set_solver].
  - rewrite fold_left_app. simpl. by eapply deliver_applied.
Qed.

(** ** Properties *)

(** C3: with a free key, the first request of a client runs the action.  If it
    succeeds, every later request with that key before the TTL (in any number,
    with any bodies and actions) leaves the service's state as the first one
    left it, and answers the recorded response to the same body and a
    [body_mismatch] conflict to a different one.  If it raises, the exception is
    what the client sees and the key is free again. *)
Theorem idempotency_key_exactly_once {R} `{!RedisLike R} {W E A} (service route key fp : string) (ttl st : Z)
    (render : A → json) (c : clock) (action : W → outcome E A * W)
    (reqs : list (clock * string * (W → outcome E A * W))) (s : R) (w : W)
    (Hkey : truthy key = true)
    (Hfree : r_get (c_set c) (_key service route key) s = None)
    (Hreqs : Forall (λ q, c_done c ≤ c_set q.1.1 ≤ c_get q.1.1 ∧ c_get q.1.1 < c_done c + ttl) reqs) :
  let '(r, s1, w1) := idempotent_route service ttl c route (Some key) fp st render action s w in
  match action w with
  | (Ok a, w') =>
      r = Ok (st, render a) ∧ w1 = w' ∧
      retries service ttl route key st render reqs s1 w1 =
        ((λ q, if decide (q.1.2 = fp) then Ok (st, render a)
               else Raise (Conflict body_mismatch)) <$> reqs, s1, w')
  | (Raise e, w') =>
      r = Raise (Action e) ∧ w1 = w' ∧ ∀ t, r_get t (_key service route key) s1 = None
  end.
Proof.
  unfold idempotent_route. rewrite Hkey, begin_free by done.
  destruct (action w) as [[a|e] w'].
  - split_and!; try done. apply retries_completed; [done|].
    eapply Forall_impl; [exact Hreqs|]. intros q [? ?]. split; [lia|].
    apply complete_get. lia.
  - split_and!; try done. intros t. apply release_get.
Qed.

(** two concurrent requests never both own a key: while the first has
    reserved it and not finished, a second request at any time before the TTL
    gets a conflict ([in_flight] for the same body, [body_mismatch] for another)
    and changes nothing. *)
Theorem begin_single_owner {R} `{!RedisLike R} (service route key fp fp' : string)
    (ttl t1 t2 t3 u1 u2 u3 : Z) (s : R)
    (Hfree : r_get t1 (_key service route key) s = None)
    (Ht : t1 ≤ u1 ≤ u2 ∧ u2 < t1 + ttl) :
  let '(r, s1) := begin service ttl t1 t2 t3 route key fp s in
  r = Ok None ∧
  begin service ttl u1 u2 u3 route key fp' s1 =
    (Raise (inl (if decide (fp' = fp) then in_flight else body_mismatch)), s1).
Proof.
  rewrite begin_free by done. split; [done|]. apply begin_pending; [lia|].
  destruct (r_set_free t1 (_key service route key) (pending fp) true ttl s) as [_ Hg]; [by right|].
  rewrite Hg by lia. rewrite decide_True by done. by rewrite decide_True by lia.
Qed.

(** key isolation: as long as service and route names contain no colon
    (client keys may), two store keys are equal only for the same service, the
    same route and the same client key, so create and cancel never collide. *)
Theorem key_isolation (service service' route route' key key' : string)
    (H1 : has_char ":"%char service = false) (H2 : has_char ":"%char service' = false)
    (H3 : has_char ":"%char route = false) (H4 : has_char ":"%char route' = false)
    (Heq : _key service route key = _key service' route' key') :
  service = service' ∧ route = route' ∧ key = key'.
Proof.
  unfold _key in Heq. injection Heq as Heq.
  apply (app_sep_inj ":"%char) in Heq as [-> Heq]; [|done..].
  apply (app_sep_inj ":"%char) in Heq as [-> ->]; done.
Qed.

(** durable dedupe gives each event an exactly-once effect: after any
    sequence of deliveries (redeliveries and failed attempts included) the
    committed state is the result of processing some keys once each, in the
    order they first succeeded, none of which was marked before; the marks are
    exactly those keys added; and every delivered key is marked or has failed. *)
Theorem db_dedupe_exactly_once {W E A} (scope : string) (action : string → W → outcome E A * W)
    (marks : gset (string * string)) (w : W) (keys : list string) :
  ∃ applied,
    NoDup applied ∧ (∀ k, k ∈ applied → (scope, k) ∉ marks) ∧
    once_each action applied w = Some (deliver_all scope action keys (marks, w)).2 ∧
    (deliver_all scope action keys (marks, w)).1 = list_to_set (pair scope <$> applied) ∪ marks ∧
    (∀ k, k ∈ keys → (scope, k) ∈ (deliver_all scope action keys (marks, w)).1 ∨
      ∃ w' e w'', action k w' = (Raise e, w'')).
Proof. apply deliver_all_applied. Qed.

(** ** Witnesses *)

Definition demo_action : Z → outcome pyerr Z * Z := λ n, (Ok (n + 1), n + 1).
Definition demo_clock (t : Z) : clock := mkClock t t t t.

Lemma idempotency_key_exactly_once_witness :
  idempotent_route (R := gmap_redis) "paylink" 86400 (demo_clock 0) "create" (Some "k1") "f" 201 JInt
    demo_action ∅ 41 = (Ok (201, JInt 42), <["idem:paylink:create:k1" := (completed "f" 201 (JInt 42), 86400)]> ∅, 42) ∧
  retries "paylink" 86400 "create" "k1" 201 JInt
    [(demo_clock 10, "f", demo_action); (demo_clock 20, "g", demo_action)]
    (<["idem:paylink:create:k1" := (completed "f" 201 (JInt 42), 86400)]> ∅ : gmap_redis) 42 =
  ([Ok (201, JInt 42); Raise (Conflict body_mismatch)],
   <["idem:paylink:create:k1" := (completed "f" 201 (JInt 42), 86400)]> ∅, 42).
Proof.
  pose proof (idempotency_key_exactly_once (R := gmap_redis) "paylink" "create" "k1" "f" 86400 201 JInt
    (demo_clock 0) demo_action [(demo_clock 10, "f", demo_action); (demo_clock 20, "g", demo_action)] ∅ 41) as H.
  split; [vm_compute; reflexivity|].
  apply H; [reflexivity|vm_compute; reflexivity|].
  repeat constructor; vm_compute; congruence.
Defined.

Lemma begin_single_owner_witness :
  r_get (S := gmap_redis) 0 (_key "paylink" "create" "k1") ∅ = None ∧
  begin "paylink" 60 1 1 1 "create" "k1" "f" (begin (R := gmap_redis) "paylink" 60 0 0 0 "create" "k1" "f" ∅).2 =
    (Raise (inl in_flight), (begin (R := gmap_redis) "paylink" 60 0 0 0 "create" "k1" "f" ∅).2).
Proof.
  pose proof (begin_single_owner (R := gmap_redis) "paylink" "create" "k1" "f" "f" 60 0 0 0 1 1 1 ∅) as H.
  split; [vm_compute; reflexivity|].
  apply H; [vm_compute; reflexivity|]. lia.
Defined.

Lemma key_isolation_witness :
  _key "paylink" "create" "a:b" = "idem:paylink:create:a:b" ∧
  ("paylink" : string) = "paylink" ∧ ("create" : string) = "create" ∧ ("a:b" : string) = "a:b".
Proof.
  split; [reflexivity|].
  apply (key_isolation "paylink" "paylink" "create" "create" "a:b" "a:b"); reflexivity.
Defined.

End Idem.
