(* ===== verification/Ledger.v ===== *)
(** * linkmint_ledger: the shared double-entry ledger

    [ledger-python/src/linkmint_ledger]: the pure validator ([entry.py]), the
    posting, reversal and read helpers over the append-only table
    ([ledger.py]).  The table is the list of its rows in id order (BIGSERIAL
    assigns ids in insertion order; UPDATE and DELETE are refused by the
    schema's trigger).  A helper that raises returns no table, so nothing it
    did is visible. *)
From S2P Require Import Prelude PyText.

Module DoubleEntry.
Open Scope Z_scope.

(** ** Data *)

Inductive Direction := DR | CR.

#[global] Instance Direction_eq_dec : EqDecision Direction.
Proof. solve_decision. Defined.

Definition Direction_value (d : Direction) : string :=
  match d with DR => "DR" | CR => "CR" end.

(** [Direction(s)], [None] for its [ValueError]. *)
Definition Direction_of (s : string) : option Direction :=
  if bool_decide (s = "DR") then Some DR
  else if bool_decide (s = "CR") then Some CR else None.

(** What [isinstance] tells of an amount: an [int], a [bool] (a subclass of
    [int]), or anything else. *)
Inductive pynum := PInt (z : Z) | PBool (b : bool) | PNotInt.

Record Leg := mkLeg {
  leg_account : string;
  leg_direction : string;
  leg_amount : pynum;
  leg_currency : string }.

Inductive LedgerError := Unbalanced | InvalidLeg | GroupNotFound | DbError.

Definition _flip (d : Direction) : Direction :=
  match d with CR => DR | DR => CR end.

(** ** The pure validator *)

(** [not s or not s.strip()] *)
Definition blank (s : string) : bool := negb (truthy s) || negb (truthy (strip s)).

Record vstate := mkV {
  per_currency : gmap string (Z * Z);
  have_dr : bool;
  have_cr : bool }.

(** One iteration of the loop of [validate]. *)
Definition validate_leg (st : vstate) (leg : Leg) : outcome LedgerError vstate :=
  match Direction_of (leg_direction leg) with
  | None => Raise InvalidLeg
  | Some direction =>
      if blank (leg_account leg) then Raise InvalidLeg
      else if blank (leg_currency leg) then Raise InvalidLeg
      else match leg_amount leg with
      | PBool _ | PNotInt => Raise InvalidLeg
      | PInt amount =>
          if amount <=? 0 then Raise InvalidLeg
          else
            let '(dr, cr) := default (0, 0) (per_currency st !! leg_currency leg) in
            match direction with
            | DR => Ok (mkV (<[leg_currency leg := (dr + amount, cr)]> (per_currency st))
                            true (have_cr st))
            | CR => Ok (mkV (<[leg_currency leg := (dr, cr + amount)]> (per_currency st))
                            (have_dr st) true)
            end
      end
  end.

Fixpoint validate_legs (st : vstate) (entries : list Leg) : outcome LedgerError vstate :=
  match entries with
  | [] => Ok st
  | leg :: rest => let? st' := validate_leg st leg in validate_legs st' rest
  end.

Definition validate (entries : list Leg) : outcome LedgerError unit :=
  if (length entries <? 2)%nat then Raise Unbalanced
  else
    let? st := validate_legs (mkV ∅ false false) entries in
    if negb (have_dr st) || negb (have_cr st) then Raise Unbalanced
    else if forallb (λ '(_, (dr, cr)), dr =? cr) (map_to_list (per_currency st))
    then Ok tt else Raise Unbalanced.

(** ** The table *)

Record Entry := mkEntry {
  e_id : Z;
  e_group : uuid;
  e_account : string;
  e_direction : Direction;
  e_amount : Z;
  e_currency : string;
  e_pl_id : option string;
  e_note : option string;
  e_created_at : Z }.

Record ledger := mkLedger { rows : list Entry; next_id : Z }.

Definition empty_ledger : ledger := mkLedger [] 1.

Definition _clamp (limit : Z) : Z :=
  if limit <=? 0 then 100 else if limit >? 1000 then 1000 else limit.

(** A [NUMERIC(38,0)] column holds integers below [10^38]. *)
Definition numeric38 : Z := 10 ^ 38.

(** The [VALUES] row of one leg; [None] when the cast to [NUMERIC(38,0)]
    overflows ([validate] has already excluded the other failures). *)
Definition row_of_leg (now : Z) (group : uuid) (pl_id note : option string)
    (i : Z) (leg : Leg) : option Entry :=
  match Direction_of (leg_direction leg), leg_amount leg with
  | Some d, PInt amount =>
      if amount <? numeric38
      then Some (mkEntry i group (leg_account leg) d amount (leg_currency leg) pl_id note now)
      else None
  | _, _ => None
  end.

Fixpoint rows_of_legs (now : Z) (group : uuid) (pl_id note : option string)
    (i : Z) (legs : list Leg) : option (list Entry) :=
  match legs with
  | [] => Some []
  | leg :: rest =>
      match row_of_leg now group pl_id note i leg,
            rows_of_legs now group pl_id note (i + 1) rest with
      | Some r, Some rs => Some (r :: rs)
      | _, _ => None
      end
  end.

(** [post]: validate, then one INSERT of all the legs; [fresh] is what
    [uuid.uuid4()] returns, [now] the transaction's timestamp. *)
Definition post (now : Z) (fresh : uuid) (entries : list Leg) (entry_group : option uuid)
    (pl_id note : option string) (l : ledger) : outcome LedgerError (uuid * ledger) :=
  let? _ := validate entries in
  let group := default fresh entry_group in
  match rows_of_legs now group pl_id note (next_id l) entries with
  | Some rs => Ok (group, mkLedger (rows l ++ rs) (next_id l + Z.of_nat (length rs)))
  | None => Raise DbError
  end.

Definition entries_by_group (l : ledger) (g : uuid) : list Entry :=
  filter (λ e, e_group e = g) (rows l).

Definition flipped (e : Entry) : Leg :=
  mkLeg (e_account e) (Direction_value (_flip (e_direction e))) (PInt (e_amount e)) (e_currency e).

(** [next((e.pl_id for e in entries if e.pl_id), None)] *)
Fixpoint first_pl_id (es : list Entry) : option string :=
  match es with
  | [] => None
  | e :: es' => if otruthy (e_pl_id e) then e_pl_id e else first_pl_id es'
  end.

(** [str(entry_group)] is passed in: the text of a UUID. *)
Definition reverse (uuid_str : uuid → string) (now : Z) (fresh : uuid) (entry_group : uuid)
    (note : option string) (l : ledger) : outcome LedgerError (uuid * ledger) :=
  match entries_by_group l entry_group with
  | [] => Raise GroupNotFound
  | entries =>
      post now fresh (flipped <$> entries) None (first_pl_id entries)
        (Some (str_or note ("reversal of " +:+ uuid_str entry_group))) l
  end.

(** [ORDER BY created_at DESC, id DESC] *)
Definition newest_first (a b : Entry) : Prop :=
  e_created_at b < e_created_at a ∨ (e_created_at a = e_created_at b ∧ e_id b ≤ e_id a).

#[global] Instance newest_first_dec : RelDecision newest_first.
Proof. intros a b. unfold newest_first. apply _. Defined.

Definition entries_by_account (l : ledger) (account : string) (limit : Z) : list Entry :=
  take (Z.to_nat (_clamp limit))
    (merge_sort newest_first (filter (λ e, e_account e = account) (rows l))).

Definition entries_by_pl_id (l : ledger) (pl_id : string) (limit : Z) : list Entry :=
  take (Z.to_nat (_clamp limit))
    (merge_sort newest_first (filter (λ e, e_pl_id e = Some pl_id) (rows l))).

Definition credit_positive (e : Entry) : Z :=
  match e_direction e with CR => e_amount e | DR => - e_amount e end.

(** [SUM(CASE WHEN direction='CR' THEN amount ELSE -amount END)] *)
Definition balance (l : ledger) (account currency : string) : Z :=
  sumZ credit_positive
    (filter (λ e, e_account e = account ∧ e_currency e = currency) (rows l)).

Definition is_balanced (l : ledger) (currency : string) : bool :=
  sumZ (λ e, - credit_positive e) (filter (λ e, e_currency e = currency) (rows l)) =? 0.

(** Tables the helpers can produce: callers post and reverse in any order. *)
Inductive reachable : ledger → Prop :=
| reach_empty : reachable empty_ledger
| reach_post now fresh entries g pl note l g' l' :
    reachable l → post now fresh entries g pl note l = Ok (g', l') → reachable l'
| reach_reverse us now fresh g note l g' l' :
    reachable l → reverse us now fresh g note l = Ok (g', l') → reachable l'.

(** ** Specification of the validator *)

Definition leg_dir (d : Direction) (leg : Leg) : Prop :=
  leg_direction leg = Direction_value d.

#[global] Instance leg_dir_dec d leg : Decision (leg_dir d leg).
Proof. unfold leg_dir. apply _. Defined.

Definition leg_int (leg : Leg) : Z :=
  match leg_amount leg with PInt z => z | _ => 0 end.

Definition leg_ok (leg : Leg) : Prop :=
  (∃ d, leg_dir d leg) ∧ blank (leg_account leg) = false ∧
  blank (leg_currency leg) = false ∧ ∃ z, leg_amount leg = PInt z ∧ 0 < z.

Definition total (d : Direction) (c : string) (legs : list Leg) : Z :=
  sumZ leg_int (filter (λ leg, leg_dir d leg ∧ leg_currency leg = c) legs).

Definition balanced_posting (legs : list Leg) : Prop :=
  Forall leg_ok legs ∧ (∃ x, x ∈ legs ∧ leg_dir DR x) ∧ (∃ x, x ∈ legs ∧ leg_dir CR x) ∧
  ∀ c, total DR c legs = total CR c legs.

Lemma Direction_of_spec s d : Direction_of s = Some d ↔ s = Direction_value d.
Proof.
  unfold Direction_of. repeat case_bool_decide; destruct d; naive_solver.
Qed.

Definition sums (st : vstate) (c : string) : Z * Z :=
  default (0, 0) (per_currency st !! c).

(** What one accepted leg adds to the totals of the loop. *)
Definition leg_adds (st : vstate) (leg : Leg) (st' : vstate) : Prop :=
  (∀ c, sums st' c = ((sums st c).1 + total DR c [leg], (sums st c).2 + total CR c [leg])) ∧
  have_dr st' = have_dr st || bool_decide (leg_dir DR leg) ∧
  have_cr st' = have_cr st || bool_decide (leg_dir CR leg).

Lemma total_cons d c leg legs : total d c (leg :: legs) = total d c [leg] + total d c legs.
Proof. unfold total. rewrite !filter_cons. case_decide; simpl; lia. Qed.

Lemma total_single d c leg :
  total d c [leg] = if decide (leg_dir d leg ∧ leg_currency leg = c) then leg_int leg else 0.
Proof. unfold total. rewrite filter_cons. case_decide; simpl; lia. Qed.

Lemma leg_dir_iff leg d : leg_dir d leg → ∀ d', leg_dir d' leg ↔ d' = d.
Proof. unfold leg_dir. intros Hd d'. rewrite Hd. destruct d, d'; simpl; naive_solver. Qed.

Lemma total_of_dir leg d z c d' :
  leg_dir d leg → leg_amount leg = PInt z →
  total d' c [leg] = if bool_decide (d' = d) && bool_decide (leg_currency leg = c) then z else 0.
Proof.
  intros Hd Hz. rewrite total_single. unfold leg_int. rewrite Hz.
  case_decide as H; rewrite (leg_dir_iff leg d Hd) in H; repeat case_bool_decide; naive_solver.
Qed.

Lemma leg_adds_insert st leg d z :
  leg_dir d leg → leg_amount leg = PInt z →
  leg_adds st leg
    (mkV (<[leg_currency leg :=
        match d with
        | DR => ((sums st (leg_currency leg)).1 + z, (sums st (leg_currency leg)).2)
        | CR => ((sums st (leg_currency leg)).1, (sums st (leg_currency leg)).2 + z)
        end]> (per_currency st))
      (match d with DR => true | CR => have_dr st end)
      (match d with DR => have_cr st | CR => true end)).
Proof.
  intros Hd Hz. unfold leg_adds. split.
  - intros c. rewrite !(total_of_dir leg d z) by done.
    unfold sums; simpl. rewrite lookup_insert.
    destruct d; simpl; case_decide; subst; repeat case_bool_decide;
      simpl; try done; rewrite ?Z.add_0_r; try done; by destruct (default _ _).
  - rewrite !(bool_decide_ext _ _ (leg_dir_iff leg d Hd _)). destruct d; simpl;
      by rewrite ?orb_true_r, ?orb_false_r.
Qed.

Lemma validate_leg_cases st leg :
  (leg_ok leg ∧ ∃ st', validate_leg st leg = Ok st' ∧ leg_adds st leg st') ∨
  (¬ leg_ok leg ∧ validate_leg st leg = Raise InvalidLeg).
Proof.
  unfold validate_leg. destruct (Direction_of _) as [d|] eqn:Ed; last first.
  { right. split; [|done]. intros [[d Hd] _]. apply Direction_of_spec in Hd. congruence. }
  apply Direction_of_spec in Ed.
  destruct (blank (leg_account leg)) eqn:Ea; [right; split; [|done]; intros (_&?&_); congruence|].
  destruct (blank (leg_currency leg)) eqn:Ec; [right; split; [|done]; intros (_&_&?&_); congruence|].
  destruct (leg_amount leg) as [z| |] eqn:Ez;
    [|right; split; [|done]; intros (_&_&_&?&?&?); congruence..].
  destruct (Z.leb_spec z 0); [right; split; [|done]; intros (_&_&_&z'&?&?); assert (z = z') by congruence; lia|].
  left. split; [repeat split; eauto|].
  pose proof (leg_adds_insert st leg d z Ed Ez) as H1. unfold sums in H1.
  destruct (default _ _) as [dr cr]; destruct d; eauto.
Qed.

Lemma validate_legs_cases legs st :
  (Forall leg_ok legs ∧ ∃ st', validate_legs st legs = Ok st' ∧
     (∀ c, sums st' c = ((sums st c).1 + total DR c legs, (sums st c).2 + total CR c legs)) ∧
     have_dr st' = have_dr st || existsb (λ x, bool_decide (leg_dir DR x)) legs ∧
     have_cr st' = have_cr st || existsb (λ x, bool_decide (leg_dir CR x)) legs) ∨
  (¬ Forall leg_ok legs ∧ validate_legs st legs = Raise InvalidLeg).
Proof.
  revert st. induction legs as [|leg legs IH]; intros st; simpl.
  { left. split; [done|]. exists st. rewrite !orb_false_r. repeat split; try done.
    intros c. unfold total; simpl. rewrite !Z.add_0_r. by destruct (sums st c). }
  destruct (validate_leg_cases st leg) as [(Hl & st1 & -> & Hs & Hd & Hc)|(Hl & ->)];
    simpl; [|right; split; [|done]; by intros [? _]%Forall_cons].
  destruct (IH st1) as [(Hls & st2 & -> & Hs2 & Hd2 & Hc2)|(Hls & ->)];
    [left|right; split; [|done]; by intros [_ ?]%Forall_cons].
  split; [by constructor|]. exists st2. split; [done|]. split; [|split].
  - intros c. rewrite Hs2, Hs, (total_cons DR c leg legs), (total_cons CR c leg legs); simpl. f_equal; lia.
  - by rewrite Hd2, Hd, orb_assoc.
  - by rewrite Hc2, Hc, orb_assoc.
Qed.

Lemma sums_all_equal st :
  forallb (λ '(_, (dr, cr)), dr =? cr) (map_to_list (per_currency st)) = true ↔
  ∀ c, (sums st c).1 = (sums st c).2.
Proof.
  rewrite forallb_forall. unfold sums. split.
  - intros H c. destruct (per_currency st !! c) as [[dr cr]|] eqn:E; simpl; [|done].
    specialize (H (c, (dr, cr))). simpl in H. apply Z.eqb_eq, H.
    by apply list_elem_of_In, elem_of_map_to_list.
  - intros H [c [dr cr]] Hin. apply list_elem_of_In, elem_of_map_to_list in Hin.
    specialize (H c). rewrite Hin in H. by apply Z.eqb_eq.
Qed.

Lemma existsb_dir d legs :
  existsb (λ x, bool_decide (leg_dir d x)) legs = true ↔ ∃ x, x ∈ legs ∧ leg_dir d x.
Proof.
  rewrite existsb_exists. setoid_rewrite <- list_elem_of_In.
  by setoid_rewrite bool_decide_eq_true.
Qed.

Lemma two_legs legs :
  (∃ x, x ∈ legs ∧ leg_dir DR x) → (∃ x, x ∈ legs ∧ leg_dir CR x) → (2 ≤ length legs)%nat.
Proof.
  intros (x & Hx & Hdx) (y & Hy & Hdy). destruct legs as [|a [|b legs]]; simpl; [set_solver| |lia].
  apply list_elem_of_singleton in Hx, Hy. unfold leg_dir in *. simpl in *. congruence.
Qed.

Lemma validate_legs_ok legs :
  forallb (λ x, is_ok (validate_leg (mkV ∅ false false) x)) legs = true ↔ Forall leg_ok legs.
Proof.
  rewrite forallb_forall, Forall_forall. setoid_rewrite list_elem_of_In.
  split; intros H x Hx; specialize (H x Hx);
    destruct (validate_leg_cases (mkV ∅ false false) x) as [(? & st' & E & _)|(? & E)];
    rewrite E in *; simpl in *; tauto || congruence.
Qed.

Lemma validate_outcome legs :
  (balanced_posting legs ∧ validate legs = Ok tt) ∨
  (¬ balanced_posting legs ∧
   validate legs = Raise (if bool_decide (2 ≤ length legs)%nat
                          then if forallb (λ x, is_ok (validate_leg (mkV ∅ false false) x)) legs
                               then Unbalanced else InvalidLeg
                          else Unbalanced)).
Proof.
  unfold validate. destruct (Nat.ltb_spec (length legs) 2) as [Hl|Hl].
  { right. rewrite bool_decide_eq_false_2 by lia. split; [|done].
    intros (_ & H1 & H2 & _). pose proof (two_legs legs H1 H2). lia. }
  rewrite bool_decide_eq_true_2 by lia.
  pose proof (validate_legs_ok legs) as Hall.
  destruct (validate_legs_cases legs (mkV ∅ false false)) as [(Hok & st & -> & Hs & Hd & Hc)|(Hok & ->)];
    simpl; last first.
  { right. destruct (forallb (λ x, is_ok _) legs) eqn:E; [tauto|].
    split; [|done]. by intros (? & _). }
  rewrite (proj2 Hall Hok).
  assert (Hbal : (∀ c, (sums st c).1 = (sums st c).2) ↔ ∀ c, total DR c legs = total CR c legs).
  { split; intros H c; specialize (H c); rewrite Hs in *; unfold sums in *; simpl in *;
      rewrite lookup_empty in *; simpl in *; lia. }
  simpl in Hd, Hc. destruct (have_dr st) eqn:E1, (have_cr st) eqn:E2; simpl;
    try (right; split; [|done]; intros (_ & H1 & H2 & _);
         apply existsb_dir in H1; apply existsb_dir in H2; congruence).
  destruct (forallb _ (map_to_list _)) eqn:E; [left|right]; (split; [|done]).
  - repeat split; [done|by apply existsb_dir..|]. apply Hbal. by apply sums_all_equal.
  - intros (_ & _ & _ & H). rewrite <- Hbal, <- sums_all_equal in H. congruence.
Qed.

(** ** What a posting appends *)

(** The rows [rs] that the legs [legs] become. *)
Definition row_matches (g : uuid) (leg : Leg) (e : Entry) : Prop :=
  e_group e = g ∧ leg_dir (e_direction e) leg ∧ leg_amount leg = PInt (e_amount e) ∧
  e_account e = leg_account leg ∧ e_currency e = leg_currency leg ∧ e_amount e < numeric38.

Lemma rows_of_legs_spec now g pl note i legs rs :
  rows_of_legs now g pl note i legs = Some rs → Forall2 (row_matches g) legs rs.
Proof.
  revert i rs. induction legs as [|leg legs IH]; intros i rs; simpl; [by intros [= <-]|].
  unfold row_of_leg. intros H. py_run. constructor; [|by eapply IH].
  repeat split; simpl; try done; [by apply Direction_of_spec|by apply Z.ltb_lt].
Qed.

Lemma rows_of_legs_total now g pl note i legs :
  Forall leg_ok legs → Forall (λ leg, leg_int leg < numeric38) legs →
  ∃ rs, rows_of_legs now g pl note i legs = Some rs.
Proof.
  intros Hok Hlt. revert i. induction Hok as [|leg legs [(d & Hd) (_ & _ & z & Hz & _)] _ IH];
    intros i; simpl; [by eexists|].
  apply Forall_cons in Hlt as [Hz' Hlt]. unfold leg_int in Hz'. rewrite Hz in Hz'.
  destruct (IH Hlt (i + 1)) as [rs ->]. unfold row_of_leg.
  apply Direction_of_spec in Hd as ->. rewrite Hz, (proj2 (Z.ltb_lt _ _) Hz'). by eexists.
Qed.

Lemma post_inv now fresh entries og pl note l g l' :
  post now fresh entries og pl note l = Ok (g, l') →
  balanced_posting entries ∧ g = default fresh og ∧
  ∃ rs, rows l' = rows l ++ rs ∧ Forall2 (row_matches g) entries rs.
Proof.
  unfold post. destruct (validate_outcome entries) as [(Hb & ->)|(_ & ->)]; simpl; [|done].
  intros H. py_run. split; [done|]. split; [done|].
  eexists. split; [done|]. by eapply rows_of_legs_spec.
Qed.

Lemma post_ok now fresh entries og pl note l :
  balanced_posting entries → Forall (λ leg, leg_int leg < numeric38) entries →
  ∃ l', post now fresh entries og pl note l = Ok (default fresh og, l').
Proof.
  intros Hb Hlt. unfold post. destruct (validate_outcome entries) as [(_ & ->)|(? & _)]; [|done].
  destruct (rows_of_legs_total now (default fresh og) pl note (next_id l) entries) as [rs ->];
    [by destruct Hb|done|]. simpl. by eexists.
Qed.

(** Signed totals of rows against totals of legs. *)
Definition net (c : string) (es : list Entry) : Z :=
  sumZ credit_positive (filter (λ e, e_currency e = c) es).

Lemma net_app c es fs : net c (es ++ fs) = net c es + net c fs.
Proof. unfold net. by rewrite filter_app, sumZ_app. Qed.

Lemma credit_positive_dir e :
  credit_positive e = match e_direction e with CR => e_amount e | DR => - e_amount e end.
Proof. done. Qed.

Lemma rows_net g legs rs c :
  Forall2 (row_matches g) legs rs → net c rs = total CR c legs - total DR c legs.
Proof.
  induction 1 as [|leg e legs rs (_ & Hd & Hz & _ & Hc & _) _ IH]; [done|].
  rewrite (total_cons CR), (total_cons DR), !(total_of_dir leg (e_direction e) (e_amount e)) by done.
  unfold net in *. rewrite filter_cons, Hc. pose proof (credit_positive_dir e) as Hcp.
  destruct (e_direction e); case_decide; subst; repeat case_bool_decide; simpl;
    rewrite ?Hcp; try done; lia.
Qed.

(** ** The invariant of the table *)

Definition row_ok (e : Entry) : Prop :=
  blank (e_account e) = false ∧ blank (e_currency e) = false ∧ 0 < e_amount e < numeric38.

Definition group_ok (es : list Entry) : Prop :=
  es = [] ∨ (∃ e, e ∈ es ∧ e_direction e = DR) ∧ (∃ e, e ∈ es ∧ e_direction e = CR).

Definition ledger_inv (l : ledger) : Prop :=
  Forall row_ok (rows l) ∧ (∀ c, net c (rows l) = 0) ∧
  ∀ g, group_ok (entries_by_group l g) ∧ ∀ c, net c (entries_by_group l g) = 0.

Lemma rows_ok g legs rs :
  Forall leg_ok legs → Forall2 (row_matches g) legs rs → Forall row_ok rs.
Proof.
  intros Hl Hm. revert Hl. induction Hm as [|leg e legs rs (_ & _ & Hz & Ha & Hc & Hlt) _ IH];
    intros [(_ & ? & ? & z & ? & ?) ?]%Forall_cons || constructor; constructor; [|by apply IH].
  assert (z = e_amount e) by congruence. repeat split; congruence || lia.
Qed.

Lemma rows_direction g legs rs d :
  Forall2 (row_matches g) legs rs → (∃ x, x ∈ legs ∧ leg_dir d x) →
  ∃ e, e ∈ rs ∧ e_direction e = d.
Proof.
  intros Hm (x & Hx & Hd). apply list_elem_of_lookup in Hx as [i Hi].
  destruct (Forall2_lookup_l _ _ _ _ _ Hm Hi) as (e & He & _ & Hde & _).
  exists e. split; [by eapply list_elem_of_lookup_2|]. by apply (leg_dir_iff x d Hd).
Qed.

Lemma rows_group g legs rs g' :
  Forall2 (row_matches g) legs rs →
  filter (λ e, e_group e = g') rs = if decide (g = g') then rs else [].
Proof.
  induction 1 as [|leg e legs rs (Hg & _) _ IH]; [by case_decide|].
  rewrite filter_cons, IH, Hg. by repeat case_decide.
Qed.

Lemma post_inv_preserved now fresh entries og pl note l g l' :
  ledger_inv l → post now fresh entries og pl note l = Ok (g, l') → ledger_inv l'.
Proof.
  intros (Hrows & Hnet & Hgrp) Hp.
  apply post_inv in Hp as ((Hok & Hdr & Hcr & Hbal) & _ & rs & Hr & Hm).
  assert (Hn0 : ∀ c, net c rs = 0).
  { intros c. rewrite (rows_net _ _ _ c Hm). specialize (Hbal c). lia. }
  split; [rewrite Hr; apply Forall_app; eauto using rows_ok|].
  split; [intros c; by rewrite Hr, net_app, Hnet, Hn0|].
  intros g'. unfold entries_by_group in *. rewrite Hr, filter_app, (rows_group _ _ _ _ Hm).
  destruct (Hgrp g') as [Hg Hn]. split.
  - case_decide; subst; [right|by rewrite app_nil_r].
    destruct (rows_direction _ _ _ _ Hm Hdr) as (e & ? & ?).
    destruct (rows_direction _ _ _ _ Hm Hcr) as (f & ? & ?).
    split; [exists e|exists f]; set_solver.
  - intros c. rewrite net_app, Hn. by case_decide; rewrite ?Hn0.
Qed.

Lemma flipped_total d c es :
  total d c (flipped <$> es) =
  sumZ e_amount (filter (λ e, _flip (e_direction e) = d ∧ e_currency e = c) es).
Proof.
  induction es as [|e es IH]; [done|]. rewrite fmap_cons, total_cons, IH, filter_cons.
  rewrite (total_of_dir _ (_flip (e_direction e)) (e_amount e)) by done. simpl.
  case_decide; repeat case_bool_decide; simpl; naive_solver lia.
Qed.

Lemma net_split c es :
  net c es = sumZ e_amount (filter (λ e, e_direction e = CR ∧ e_currency e = c) es)
           - sumZ e_amount (filter (λ e, e_direction e = DR ∧ e_currency e = c) es).
Proof.
  unfold net. induction es as [|e es IH]; [done|]. rewrite !filter_cons.
  pose proof (credit_positive_dir e) as Hcp. destruct (e_direction e);
    repeat case_decide; simpl; rewrite ?Hcp; naive_solver lia.
Qed.

(** Flipping a balanced group gives a posting that [post] accepts. *)
Lemma flipped_balanced l g :
  ledger_inv l → entries_by_group l g ≠ [] →
  balanced_posting (flipped <$> entries_by_group l g) ∧
  Forall (λ leg, leg_int leg < numeric38) (flipped <$> entries_by_group l g).
Proof.
  intros (Hrows & _ & Hgrp) Hne. destruct (Hgrp g) as [[?|[(e & He & Hed) (f & Hf & Hfd)]] Hn]; [done|].
  assert (Hall : Forall row_ok (entries_by_group l g)) by by apply Forall_filter_sub.
  split; [split; [|split; [|split]]|].
  - apply Forall_fmap. eapply Forall_impl; [exact Hall|]. intros x (Ha & Hc & Hlt).
    split; [by eexists|]. repeat split; try done. eexists. split; [done|]. lia.
  - exists (flipped f). split; [by apply list_elem_of_fmap_2|]. unfold leg_dir; simpl. by rewrite Hfd.
  - exists (flipped e). split; [by apply list_elem_of_fmap_2|]. unfold leg_dir; simpl. by rewrite Hed.
  - intros c. specialize (Hn c). rewrite net_split in Hn. rewrite !flipped_total.
    rewrite (list_filter_iff _ (λ e, e_direction e = CR ∧ e_currency e = c)),
      (list_filter_iff (λ e, _flip (e_direction e) = CR ∧ _) (λ e, e_direction e = DR ∧ e_currency e = c));
      [lia| |]; intros x; destruct (e_direction x); simpl; naive_solver.
  - apply Forall_fmap. eapply Forall_impl; [exact Hall|]. intros x (_ & _ & ?). simpl. unfold leg_int; simpl. lia.
Qed.

Lemma reachable_inv l : reachable l → ledger_inv l.
Proof.
  induction 1 as [|now fresh entries g pl note l g' l' _ IH Hp|us now fresh g note l g' l' _ IH Hr].
  - split; [constructor|]. split; [done|]. intros g. split; [by left|done].
  - by eapply post_inv_preserved.
  - unfold reverse in Hr. destruct (entries_by_group l g); [done|]. by eapply post_inv_preserved.
Qed.

(** How reversing a group moves the balances. *)
Definition group_balance (l : ledger) (g : uuid) (a c : string) : Z :=
  sumZ credit_positive
    (filter (λ e, e_account e = a ∧ e_currency e = c) (entries_by_group l g)).

Lemma rows_flipped_balance g es rs a c :
  Forall2 (row_matches g) (flipped <$> es) rs →
  sumZ credit_positive (filter (λ e, e_account e = a ∧ e_currency e = c) rs) =
  - sumZ credit_positive (filter (λ e, e_account e = a ∧ e_currency e = c) es).
Proof.
  revert rs. induction es as [|e es IH]; intros rs Hm.
  { by apply Forall2_nil_inv_l in Hm as ->. }
  rewrite fmap_cons in Hm. apply Forall2_cons_inv_l in Hm as (f & fs & Hf & Hm & ->).
  destruct Hf as (_ & Hd & Hz & Ha & Hc & _). rewrite !filter_cons, Ha, Hc; simpl.
  pose proof (credit_positive_dir e) as He. pose proof (credit_positive_dir f) as Hcf.
  apply (leg_dir_iff _ (_flip (e_direction e))) in Hd; [|done].
  simpl in Hz. injection Hz as Hz. rewrite Hd, <- Hz in Hcf.
  specialize (IH _ Hm). case_decide; simpl; rewrite ?He, ?Hcf; [|done].
  destruct (e_direction e); simpl in *; lia.
Qed.

Lemma balance_app l rs n a c :
  balance (mkLedger (rows l ++ rs) n) a c =
  balance l a c + sumZ credit_positive (filter (λ e, e_account e = a ∧ e_currency e = c) rs).
Proof. unfold balance; simpl. by rewrite filter_app, sumZ_app. Qed.

Lemma reverse_total us now fresh g note l :
  ledger_inv l → entries_by_group l g ≠ [] →
  ∃ l', reverse us now fresh g note l = Ok (fresh, l').
Proof.
  intros Hi Hne. destruct (flipped_balanced l g Hi Hne) as [Hb Hlt]. unfold reverse.
  destruct (entries_by_group l g) as [|e es]; [done|]. by apply (post_ok now fresh _ None).
Qed.

Lemma reverse_inv us now fresh g note l g' l' :
  reverse us now fresh g note l = Ok (g', l') →
  g' = fresh ∧ ∃ rs, rows l' = rows l ++ rs ∧
    Forall2 (row_matches fresh) (flipped <$> entries_by_group l g) rs ∧
    ∀ a c, balance l' a c = balance l a c - group_balance l g a c.
Proof.
  unfold reverse. intros H. destruct (entries_by_group l g) as [|e es] eqn:E; [done|].
  apply post_inv in H as (_ & -> & rs & Hr & Hm). simpl in Hm. split; [done|].
  exists rs. split; [done|]. split; [done|]. intros a c.
  destruct l' as [rows' n']. simpl in Hr. subst rows'. rewrite balance_app.
  unfold group_balance. rewrite E, <- Z.add_opp_r. f_equal.
  by eapply rows_flipped_balance.
Qed.

(** ** Properties *)

(** the loop of [validate] accepts exactly the postings of the double-entry
    discipline (every leg well formed, a debit and a credit, debits equal to
    credits in every currency); otherwise it raises [InvalidLeg] when some leg
    of a posting of two or more is malformed, and [Unbalanced] in the other
    cases. *)
Theorem validate_spec (legs : list Leg) :
  (validate legs = Ok tt ↔ balanced_posting legs) ∧
  (validate legs = Raise InvalidLeg ↔ (2 ≤ length legs)%nat ∧ ¬ Forall leg_ok legs) ∧
  (validate legs = Raise Unbalanced ↔
     ¬ balanced_posting legs ∧ ((length legs < 2)%nat ∨ Forall leg_ok legs)).
Proof.
  pose proof (validate_legs_ok legs) as Hall.
  destruct (validate_outcome legs) as [(Hb & ->)|(Hb & ->)].
  - pose proof Hb as (Hok & _). naive_solver.
  - case_bool_decide; [destruct (forallb _ legs)|]; naive_solver lia.
Qed.

(** C1: in every table that posts and reversals can produce, each entry group
    has a debit and a credit and nets to zero in every currency, so the whole
    ledger reads as balanced in every currency, and every amount is positive
    and fits the [NUMERIC(38,0)] column. *)
Theorem ledger_always_balanced (l : ledger) (Hl : reachable l) :
  (∀ c, is_balanced l c = true) ∧
  (∀ g, group_ok (entries_by_group l g) ∧ ∀ c, net c (entries_by_group l g) = 0) ∧
  Forall (λ e, 0 < e_amount e < numeric38) (rows l).
Proof.
  destruct (reachable_inv l Hl) as (Hrows & Hnet & Hgrp). split; [|split; [done|]].
  - intros c. unfold is_balanced. rewrite sumZ_opp. apply Z.eqb_eq.
    specialize (Hnet c). unfold net in Hnet. lia.
  - eapply Forall_impl; [exact Hrows|]. by intros e (_ & _ & ?).
Qed.

(** reversing a posted group always succeeds, appends rows and edits none,
    and takes the group's effect off every balance; reversing the reversal
    (whose group id is new) restores every balance. *)
Theorem reverse_undoes (us : uuid → string) (now : Z) (fresh fresh' g : uuid)
    (note : option string) (l : ledger)
    (Hl : reachable l) (Hg : entries_by_group l g ≠ [])
    (Hfresh : entries_by_group l fresh = []) :
  ∃ l1 l2, reverse us now fresh g note l = Ok (fresh, l1) ∧
    (∃ rs, rows l1 = rows l ++ rs) ∧
    (∀ a c, balance l1 a c = balance l a c - group_balance l g a c) ∧
    reverse us now fresh' fresh note l1 = Ok (fresh', l2) ∧
    (∀ a c, balance l2 a c = balance l a c).
Proof.
  destruct (reverse_total us now fresh g note l) as [l1 H1]; [by apply reachable_inv|done|].
  pose proof (reverse_inv _ _ _ _ _ _ _ _ H1) as (_ & rs & Hr & Hm & Hb).
  assert (Hg1 : entries_by_group l1 fresh = rs).
  { unfold entries_by_group in *. rewrite Hr, filter_app, Hfresh, (rows_group _ _ _ _ Hm).
    by case_decide. }
  assert (Hne : rs ≠ []) by (intros ->; apply Forall2_nil_inv_r in Hm; by destruct (entries_by_group l g)).
  destruct (reverse_total us now fresh' fresh note l1) as [l2 H2].
  { eapply reachable_inv, reach_reverse; eauto. }
  { by rewrite Hg1. }
  pose proof (reverse_inv _ _ _ _ _ _ _ _ H2) as (_ & rs2 & _ & _ & Hb2).
  exists l1, l2. repeat split; try done; [by eexists|].
  intros a c. rewrite Hb2, Hb. unfold group_balance at 2. rewrite Hg1.
  rewrite (rows_flipped_balance _ _ _ a c Hm). unfold group_balance. lia.
Qed.

(** ** Witnesses *)

Definition demo_legs : list Leg :=
  [mkLeg "treasury" "DR" (PInt 250) "KES"; mkLeg "paylink:PLK1" "CR" (PInt 240) "KES";
   mkLeg "validator:0x1" "CR" (PInt 10) "KES"].

Definition demo_ledger : ledger :=
  match post 1700000000 7%N demo_legs None (Some "PLK1") None empty_ledger with
  | Ok (_, l) => l
  | Raise _ => empty_ledger
  end.

Lemma demo_reachable : reachable demo_ledger.
Proof.
  apply (reach_post 1700000000 7%N demo_legs None (Some "PLK1") None empty_ledger 7%N);
    [constructor|vm_compute; reflexivity].
Qed.

Example demo_balance : balance demo_ledger "paylink:PLK1" "KES" = 240.
Proof. vm_compute. reflexivity. Qed.

Lemma ledger_always_balanced_witness :
  reachable demo_ledger ∧ length (rows demo_ledger) = 3%nat ∧ is_balanced demo_ledger "KES" = true.
Proof.
  split; [exact demo_reachable|]. split; [vm_compute; reflexivity|].
  apply (ledger_always_balanced demo_ledger demo_reachable).
Defined.

Lemma reverse_undoes_witness :
  ∃ l1 l2, reverse (λ _, "") 1700000001 8%N 7%N None demo_ledger = Ok (8%N, l1) ∧
    (∃ rs, rows l1 = rows demo_ledger ++ rs) ∧
    (∀ a c, balance l1 a c = balance demo_ledger a c - group_balance demo_ledger 7%N a c) ∧
    reverse (λ _, "") 1700000001 9%N 8%N None l1 = Ok (9%N, l2) ∧
    (∀ a c, balance l2 a c = balance demo_ledger a c).
Proof.
  apply (reverse_undoes (λ _, "") 1700000001 8%N 9%N 7%N None demo_ledger).
  - exact demo_reachable.
  - vm_compute. discriminate.
  - vm_compute. reflexivity.
Defined.

End DoubleEntry.
