(* ===== verification/Chain.v ===== *)
(** * paylink-service: transactions, nonces and the chain client

    [paylink-service/app/chain]: [tx_builder.py] (ids, payloads, signable bytes,
    signing), [nonce.py] (the per-address nonce manager), [client.py] (the
    JSON-RPC calls the service makes) and [mapping.py] (the chain's answer).

    SHA-256, the signature scheme and the node behind the RPC endpoint are
    parameters: [sha256_hex] is the hash of a byte string as hex text, a
    [Signer] signs a digest, and [node] gives the answer to the n-th RPC call. *)
From S2P Require Import Prelude PyText PyDecimal PyJson PyNum.
From Stdlib Require Import Ascii.

Module Chain.
Import PyJson PyNum.
Open Scope Z_scope.

(** ** errors.py *)

Inductive ErrorCode :=
| PAYLINK_NOT_FOUND | INVALID_PAYLOAD | INVALID_QUERY | IDEMPOTENT_CONFLICT
| PAYLINK_ALREADY_SETTLED | PAYLINK_EXPIRED_ERR | KYC_REQUIRED | CHAIN_UNAVAILABLE
| UNAUTHORIZED | INTERNAL_ERROR.

#[global] Instance ErrorCode_eq_dec : EqDecision ErrorCode.
Proof. solve_decision. Defined.

Definition _HTTP_STATUS (c : ErrorCode) : Z :=
  match c with
  | PAYLINK_NOT_FOUND => 404
  | INVALID_PAYLOAD => 400
  | INVALID_QUERY => 400
  | IDEMPOTENT_CONFLICT => 409
  | PAYLINK_ALREADY_SETTLED => 409
  | PAYLINK_EXPIRED_ERR => 409
  | KYC_REQUIRED => 402
  | CHAIN_UNAVAILABLE => 502
  | UNAUTHORIZED => 401
  | INTERNAL_ERROR => 500
  end.

(** [install_error_handlers]: an [AppError] answers its status, any other
    exception 500. *)
Definition status_of_exn (e : exn ErrorCode) : Z :=
  match e with AppError c => _HTTP_STATUS c | PyError _ => 500 end.

(** ** tx_builder.py *)

Definition TX_CREATE_PAYLINK : Z := 1.
Definition TX_CANCEL_PAYLINK : Z := 3.

Fixpoint zeros (n : nat) : string :=
  match n with O => "" | S n' => String "0" (zeros n') end.

Definition ZERO_HASH : string := "0x" +:+ zeros 64.

(** The text of an integer in an f-string. *)
Definition str_Z (z : Z) : string := text (print_Z z).

(** The fields that [new_pl_id] hashes. *)
Definition pl_id_preimage (creator receiver : string) (amount expiry : Z) (s : string) : string :=
  creator +:+ "|" +:+ receiver +:+ "|" +:+ str_Z amount +:+ "|" +:+ str_Z expiry +:+ "|" +:+ s.

Record Signer := mkSigner {
  address : string;
  public_key_b64 : string;
  sign_digest : string → string }.

Section tx.
Variable sha256_hex : string → string.

(** [fresh] is what [uuid.uuid4().hex] returns. *)
Definition new_pl_id (fresh creator receiver : string) (amount expiry : Z)
    (seed : option string) : string :=
  "0x" +:+ sha256_hex (pl_id_preimage creator receiver amount expiry (str_or seed fresh)).

Definition metadata_hash (metadata : option (list (string * json))) : string :=
  match metadata with
  | None | Some [] => ZERO_HASH
  | Some m => "0x" +:+ sha256_hex (go_json (JObj m))
  end.

Record tx_core := mkCore { tx_type : Z; tx_from : string; tx_nonce : Z; tx_payload : json }.

Definition build_create (pl_id from_addr : string) (nonce : Z) (receiver : string)
    (amount expiry : Z) (md_hash : string) (rules : option json) : tx_core :=
  mkCore TX_CREATE_PAYLINK from_addr nonce
    (JObj ([("paylinkId", JStr pl_id); ("receiver", JStr receiver); ("amount", JInt amount);
            ("expiry", JInt expiry); ("metadataHash", JStr md_hash)]
           ++ match rules with Some r => [("rules", r)] | None => [] end)).

Definition build_cancel (pl_id from_addr : string) (nonce : Z) : tx_core :=
  mkCore TX_CANCEL_PAYLINK from_addr nonce (JObj [("paylinkId", JStr pl_id)]).

Definition signable_bytes (t : tx_core) : string :=
  go_json (JObj [("type", JInt (tx_type t)); ("from", JStr (tx_from t));
                 ("nonce", JInt (tx_nonce t)); ("payload", tx_payload t)]).

(** The wire transaction. *)
Record wire_tx := mkTx { core : tx_core; signature : string; hash : string; pubKey : option string }.

Definition sign_tx (t : tx_core) (s : Signer) : wire_tx :=
  let sb := signable_bytes t in
  mkTx t (sign_digest s (sha256_hex sb)) ("0x" +:+ sha256_hex sb)
    (if truthy (public_key_b64 s) then Some (public_key_b64 s) else None).
End tx.

(** ** mapping.py *)

(** [int(text)] on ASCII text: blanks around, a sign, digits that single
    underscores may separate. *)
Fixpoint parse_digits (v : Z) (after_digit : bool) (l : list ascii) : option Z :=
  match l with
  | [] => if after_digit then Some v else None
  | c :: l' =>
      match digit_val c with
      | Some d => parse_digits (10 * v + Z.of_N d) true l'
      | None => if bool_decide (c = "_"%char) && after_digit
                then match l' with [] => None | _ => parse_digits v false l' end
                else None
      end
  end.

Definition parse_int (s : string) : option Z :=
  match chars (strip s) with
  | "-"%char :: l => Z.opp <$> parse_digits 0 false l
  | "+"%char :: l => parse_digits 0 false l
  | l => parse_digits 0 false l
  end.

Definition py_int (j : json) : outcome pyerr Z :=
  match j with
  | JInt z => Ok z
  | JBool b => Ok (if b then 1 else 0)
  | JStr s => match parse_int s with Some z => Ok z | None => Raise ValueError end
  | _ => Raise TypeError
  end.

Fixpoint jfind (k : string) (o : list (string * json)) : option json :=
  match o with
  | [] => None
  | (k', v) :: o' => if bool_decide (k' = k) then Some v else jfind k o'
  end.

Definition jfield (k : string) (o : list (string * json)) : outcome pyerr json :=
  match jfind k o with Some v => Ok v | None => Raise KeyError end.

Definition jfield_or (k : string) (d : json) (o : list (string * json)) : json :=
  default d (jfind k o).

Record ChainPayLink := mkChainPL {
  cpl_id : json; cpl_creator : json; cpl_receiver : json; cpl_owner : json;
  cpl_amount : Z; cpl_expiry : Z; cpl_status : json; cpl_metadata_hash : json;
  cpl_created_at : Z; cpl_vote_count : Z }.

Definition from_rpc (d : list (string * json)) : outcome pyerr ChainPayLink :=
  let? i := jfield "id" d in
  let? c := jfield "creator" d in
  let? r := jfield "receiver" d in
  let? o := jfield "owner" d in
  let? ja := jfield "amount" d in
  let? a := py_int ja in
  let? je := jfield "expiry" d in
  let? e := py_int je in
  let? s := jfield "status" d in
  let? ca := py_int (jfield_or "createdAt" (JInt 0) d) in
  let? vc := py_int (jfield_or "voteCount" (JInt 0) d) in
  Ok (mkChainPL i c r o a e s (jfield_or "metadataHash" (JStr "") d) ca vc).

(** ** client.py *)

(** What the client hears from the endpoint: nothing, or a status with a body ([None] when the body is
    no JSON). *)
Inductive rpc_reply := HttpError | HttpReply (code : Z) (body : option json).

(** The node, by the id of the call it answers (so that answers may change from
    one call to the next).  Whether it takes a transaction into the chain is one thing, what the client
    hears of it another. *)
Record node := mkNode {
  paylink_getNonce : Z → string → rpc_reply;
  paylink_sendTransaction : Z → wire_tx → bool * rpc_reply;
  paylink_getPayLink : Z → string → rpc_reply }.

(** The client's call counter, the nonce manager's counters, the transactions whose hash the client has
    read, and the transactions the node took, each with whether the client has read its hash (most
    recent last). *)
Record cstate := mkC { rpc_id : Z; next_nonce : gmap string Z; sent : list wire_tx; taken : list (wire_tx * bool) }.

Inductive call_exn := CallApp (c : ErrorCode) | CallRpc (message : string) | CallPy (k : pyerr).

(** [_call] on what came back. *)
Definition read_reply (r : rpc_reply) : outcome call_exn json :=
  match r with
  | HttpError => Raise (CallApp CHAIN_UNAVAILABLE)
  | HttpReply code body =>
      if negb (code =? 200) then Raise (CallApp CHAIN_UNAVAILABLE)
      else match body with
      | None => Raise (CallPy ValueError)
      | Some (JObj data) =>
          let err := jfield_or "error" JNull data in
          if jtruthy err then
            match err with
            | JObj e => match py_int (jfield_or "code" (JInt 0) e) with
                        | Ok _ => Raise (CallRpc (py_str (jfield_or "message" (JStr "rpc error") e)))
                        | Raise k => Raise (CallPy k)
                        end
            | _ => Raise (CallPy AttributeError)
            end
          else Ok (jfield_or "result" JNull data)
      | Some _ => Raise (CallPy AttributeError)
      end
  end.

Definition _call (ask : Z → rpc_reply) (s : cstate) : outcome call_exn json * cstate :=
  let i := rpc_id s + 1 in
  (read_reply (ask i), mkC i (next_nonce s) (sent s) (taken s)).

Definition exn_of_call (e : call_exn) : exn ErrorCode :=
  match e with CallApp c => AppError c | CallRpc _ => PyError RpcError | CallPy k => PyError k end.

Definition get_nonce (n : node) (addr : string) (s : cstate) : outcome (exn ErrorCode) Z * cstate :=
  match _call (λ i, paylink_getNonce n i addr) s with
  | (Ok j, s') => match py_int j with Ok z => (Ok z, s') | Raise k => (Raise (PyError k), s') end
  | (Raise e, s') => (Raise (exn_of_call e), s')
  end.

(** [str(result["txHash"])] *)
Definition tx_hash (result : json) : outcome pyerr string :=
  match result with
  | JObj r => let? h := jfield "txHash" r in Ok (py_str h)
  | _ => Raise TypeError
  end.

Definition send_transaction (n : node) (t : wire_tx) (s : cstate) :
    outcome (exn ErrorCode) string * cstate :=
  let took := (paylink_sendTransaction n (rpc_id s + 1) t).1 in
  let log (read : bool) (s' : cstate) :=
    mkC (rpc_id s') (next_nonce s') (if read then sent s' ++ [t] else sent s')
      (if took then taken s' ++ [(t, read)] else taken s') in
  match _call (λ i, (paylink_sendTransaction n i t).2) s with
  | (Ok j, s') => match tx_hash j with
                  | Ok h => (Ok h, log true s')
                  | Raise k => (Raise (PyError k), log false s')
                  end
  | (Raise e, s') => (Raise (exn_of_call e), log false s')
  end.

(** [sub in text] *)
Fixpoint contains (sub : list ascii) (l : list ascii) : bool :=
  bool_decide (sub `prefix_of` l) ||
  match l with [] => false | _ :: l' => contains sub l' end.

Definition get_paylink (n : node) (pl_id : string) (s : cstate) :
    outcome (exn ErrorCode) json * cstate :=
  match _call (λ i, paylink_getPayLink n i pl_id) s with
  | (Ok d, s') => (Ok d, s')
  | (Raise (CallRpc msg), s') =>
      if contains (chars "not found") (chars (lower msg)) then (Ok JNull, s')
      else (Raise (AppError CHAIN_UNAVAILABLE), s')
  | (Raise e, s') => (Raise (exn_of_call e), s')
  end.

(** ** nonce.py *)

(** [async with reserve(address) as nonce: body]: the counter advances only if
    the body did not raise. *)
Definition reserve {A} (n : node) (addr : string)
    (body : Z → cstate → outcome (exn ErrorCode) A * cstate) (s : cstate) :
    outcome (exn ErrorCode) A * cstate :=
  match get_nonce n addr s with
  | (Raise e, s1) => (Raise e, s1)
  | (Ok chain_nonce, s1) =>
      let nonce := Z.max chain_nonce (default 0 (next_nonce s1 !! addr)) in
      match body nonce s1 with
      | (Raise e, s2) => (Raise e, s2)
      | (Ok a, s2) => (Ok a, mkC (rpc_id s2) (<[addr := nonce + 1]> (next_nonce s2)) (sent s2) (taken s2))
      end
  end.

(** [PayLinkService._submit_create] and [_submit_cancel]. *)
Section submit.
Variables (sha256_hex : string → string) (n : node) (signer : Signer).

Definition _submit_create (pl_id receiver : string) (amount expiry_unix : Z) (md_hash : string)
    (rules : option json) : cstate → outcome (exn ErrorCode) string * cstate :=
  reserve n (address signer) (λ nonce,
    send_transaction n (sign_tx sha256_hex
      (build_create pl_id (address signer) nonce receiver amount expiry_unix md_hash rules) signer)).

Definition _submit_cancel (pl_id : string) : cstate → outcome (exn ErrorCode) string * cstate :=
  reserve n (address signer) (λ nonce,
    send_transaction n (sign_tx sha256_hex (build_cancel pl_id (address signer) nonce) signer)).
End submit.

(** ** Lemmas *)

Lemma print_Z_inj z z' : print_Z z = print_Z z' → z = z'.
Proof.
  intros H. apply (f_equal (λ l, read 1 (l ++ []))) in H.
  rewrite !(read_print_Z 0) in H by done. by injection H.
Qed.

Lemma str_Z_inj z z' : str_Z z = str_Z z' → z = z'.
Proof. intros H%text_inj. by apply print_Z_inj. Qed.

Lemma digits_of_chars fuel n acc c :
  c ∈ digits_of fuel n acc → c ∈ acc ∨ is_Some (digit_val c).
Proof.
  revert n acc. induction fuel as [|fuel IH]; intros n acc; simpl; [by left|].
  assert (Hd : is_Some (digit_val (digit (n mod 10)))).
  { rewrite digit_val_digit; [by eexists|]. apply N.mod_lt. lia. }
  case_match; [|intros Hc; apply IH in Hc as [Hc|?]; [|by right]];
    revert Hc || intros Hc; rewrite ?elem_of_cons in *; naive_solver.
Qed.

Lemma str_Z_no_bar z : has_char "|"%char (str_Z z) = false.
Proof.
  unfold has_char, str_Z. rewrite chars_text. apply bool_decide_eq_false.
  assert (Hn : ∀ n, "|"%char ∉ print_N n).
  { intros n Hc. unfold print_N in Hc. apply digits_of_chars in Hc as [Hc|[d Hd]]; [set_solver|done]. }
  destruct z as [|p|p]; simpl.
  - set_solver.
  - apply Hn.
  - rewrite not_elem_of_cons. split; [done|apply Hn].
Qed.

Lemma pl_id_preimage_inj c r a e s c' r' a' e' s' :
  has_char "|"%char c = false → has_char "|"%char c' = false →
  has_char "|"%char r = false → has_char "|"%char r' = false →
  pl_id_preimage c r a e s = pl_id_preimage c' r' a' e' s' →
  c = c' ∧ r = r' ∧ a = a' ∧ e = e' ∧ s = s'.
Proof.
  intros ???? H. unfold pl_id_preimage in H.
  apply (app_sep_inj "|"%char) in H as [-> H]; [|done..].
  apply (app_sep_inj "|"%char) in H as [-> H]; [|done..].
  apply (app_sep_inj "|"%char) in H as [->%str_Z_inj H]; [|apply str_Z_no_bar..].
  by apply (app_sep_inj "|"%char) in H as [->%str_Z_inj ->]; [|apply str_Z_no_bar..].
Qed.

(** ** Any sequence of submissions *)

Inductive submission :=
| SubmitCreate (pl_id receiver : string) (amount expiry_unix : Z) (md_hash : string) (rules : option json)
| SubmitCancel (pl_id : string).

Lemma sorted_snoc (l : list Z) (x : Z) : StronglySorted Z.lt l → Forall (λ y, y < x) l → StronglySorted Z.lt (l ++ [x]).
Proof.
  intros Hs Hf. apply StronglySorted_app. split_and!; [|done|by repeat constructor].
  intros y z Hy ->%list_elem_of_singleton. rewrite Forall_forall in Hf. by apply Hf.
Qed.

Section submissions.
Variables (sha256_hex : string → string) (n : node) (signer : Signer).

Definition submit (b : submission) : cstate → outcome (exn ErrorCode) string * cstate :=
  match b with
  | SubmitCreate i r a e m ru => _submit_create sha256_hex n signer i r a e m ru
  | SubmitCancel i => _submit_cancel sha256_hex n signer i
  end.

Definition submit_all (bs : list submission) (s : cstate) : cstate :=
  fold_left (λ s b, (submit b s).2) bs s.

Definition nonce_of (t : wire_tx) : Z := tx_nonce (core t).

(** The nonces of the transactions whose hash was read, and of those the node took. *)
Definition nonces (s : cstate) : list Z := nonce_of <$> sent s.
Definition taken_nonces (s : cstate) : list Z := (nonce_of ∘ fst) <$> taken s.

(** The node took them, and the client does not know. *)
Definition lost (s : cstate) : list wire_tx := fst <$> filter (λ tr, tr.2 = false) (taken s).

Definition local_next (s : cstate) : Z := default 0 (next_nonce s !! address signer).

Definition nonce_inv (s : cstate) : Prop :=
  StronglySorted Z.lt (nonces s) ∧ Forall (λ z, z < local_next s) (nonces s).

(** A nonce the node reports is above the nonces of the transactions it took and the client does not know of. *)
Definition reports_lost (s : cstate) : Prop :=
  ∀ z, (get_nonce n (address signer) s).1 = Ok z → Forall (λ t, nonce_of t < z) (lost s).

(** What a transaction leaves in the log of the node, by what the node and the client make of it. *)
Definition log_of (took read : bool) (t : wire_tx) : list (wire_tx * bool) := if took then [(t, read)] else [].

Lemma get_nonce_keeps addr s r s' : get_nonce n addr s = (r, s') → next_nonce s' = next_nonce s ∧ sent s' = sent s ∧ taken s' = taken s.
Proof. unfold get_nonce, _call. intros H. by py_run. Qed.

Lemma send_cases t s r s' : send_transaction n t s = (r, s') →
  next_nonce s' = next_nonce s ∧ sent s' = sent s ++ (if is_ok r then [t] else []) ∧ ∃ took, taken s' = taken s ++ log_of took (is_ok r) t.
Proof.
  unfold send_transaction, _call. cbv zeta. set (took := (paylink_sendTransaction n (rpc_id s + 1) t).1). intros H.
  destruct (read_reply _) as [j|e]; [destruct (tx_hash j) as [h|k]|]; injection H as <- <-; simpl; rewrite ?app_nil_r;
    (split; [done|]); (split; [done|]); exists took; destruct took; by rewrite ?app_nil_r.
Qed.

(** Both submissions send one transaction with the reserved nonce. *)
Lemma submit_reserve b : ∃ mk, (∀ z, nonce_of (mk z) = z ∧ tx_from (core (mk z)) = address signer) ∧
  ∀ s, submit b s = reserve n (address signer) (λ nonce, send_transaction n (mk nonce)) s.
Proof. destruct b; eexists; (split; [|reflexivity]); by intros z. Qed.

(** A submission that fails leaves the counters of the nonce manager; it may have been taken, with the larger of the
    reported and the local nonce.  One that succeeds was sent with that nonce, and the counter is past it. *)
Lemma submit_cases b s :
  (∃ e s', submit b s = (Raise e, s') ∧ next_nonce s' = next_nonce s ∧ sent s' = sent s ∧
     (taken s' = taken s ∨ ∃ z t, (get_nonce n (address signer) s).1 = Ok z ∧ taken s' = taken s ++ [(t, false)] ∧
        nonce_of t = Z.max z (local_next s))) ∨
  (∃ h t s' z took, submit b s = (Ok h, s') ∧ sent s' = sent s ++ [t] ∧ taken s' = taken s ++ log_of took true t ∧
     tx_from (core t) = address signer ∧ (get_nonce n (address signer) s).1 = Ok z ∧
     nonce_of t = Z.max z (local_next s) ∧
     next_nonce s' = <[address signer := nonce_of t + 1]> (next_nonce s)).
Proof.
  destruct (submit_reserve b) as (mk & Hmk & Hsub). rewrite Hsub. unfold reserve, local_next.
  destruct (get_nonce n (address signer) s) as [[z|e] s1] eqn:Eg; apply get_nonce_keeps in Eg as (Hn & Hs & Ht);
    [|left; eexists _, _; split; [reflexivity|]; auto].
  rewrite Hn. set (k := Z.max z _). destruct (Hmk k) as [Hk Hf].
  destruct (send_transaction n (mk k) s1) as [[h|e] s2] eqn:Es; apply send_cases in Es as (Hn2 & Hs2 & took & Ht2); simpl in *; rewrite ?app_nil_r in Hs2.
  - right. eexists h, (mk k), _, z, took. split; [reflexivity|]. simpl. rewrite Hs2, Ht2, Hn2, Hn, Hs, Ht, Hk. by split_and!.
  - left. eexists _, _. split; [reflexivity|]. rewrite Hn2, Hn, Hs2, Hs, Ht2, Ht. split_and!; [done..|].
    destruct took; [right; exists z, (mk k); by rewrite Hk|left; by rewrite app_nil_r].
Qed.

Lemma submit_raised b s e s' : submit b s = (Raise e, s') → sent s' = sent s.
Proof.
  intros H. destruct (submit_cases b s) as [(? & ? & E & _ & ? & _)|(? & ? & ? & ? & ? & E & _)];
    rewrite H in E; by simplify_eq.
Qed.

(** The only error of the service itself is CHAIN_UNAVAILABLE. *)
Lemma read_reply_app r c : read_reply r = Raise (CallApp c) → c = CHAIN_UNAVAILABLE.
Proof. unfold read_reply. intros H. by py_run. Qed.

Lemma get_nonce_app addr s c : (get_nonce n addr s).1 = Raise (AppError c) → c = CHAIN_UNAVAILABLE.
Proof.
  unfold get_nonce, _call. cbv zeta. destruct (read_reply _) as [j|[]] eqn:E; simpl; try done; [by destruct (py_int j)|].
  intros [= ->]. by eapply read_reply_app.
Qed.

Lemma send_app t s c : (send_transaction n t s).1 = Raise (AppError c) → c = CHAIN_UNAVAILABLE.
Proof.
  unfold send_transaction, _call. cbv zeta. destruct (read_reply _) as [j|[]] eqn:E; simpl; try done; [by destruct (tx_hash j)|].
  intros [= ->]. by eapply read_reply_app.
Qed.

Lemma reserve_app addr mk s e s' c : reserve n addr (λ k, send_transaction n (mk k)) s = (Raise e, s') → e = AppError c → c = CHAIN_UNAVAILABLE.
Proof.
  intros H ->. unfold reserve in H. destruct (get_nonce n addr s) as [[z|e] s1] eqn:Eg.
  - destruct (send_transaction _ _ s1) as [[h|e] s2] eqn:Es; [done|]. injection H as -> ->. eapply (send_app _ s1). by rewrite Es.
  - injection H as -> ->. apply (get_nonce_app addr s). by rewrite Eg.
Qed.

Lemma submit_errors b s e s' c : submit b s = (Raise e, s') → e = AppError c → c = CHAIN_UNAVAILABLE.
Proof. destruct b; apply (reserve_app (address signer)). Qed.

Lemma submit_accepted b s h s' :
  submit b s = (Ok h, s') → ∃ t, sent s' = sent s ++ [t] ∧ tx_from (core t) = address signer.
Proof.
  intros H. destruct (submit_cases b s) as [(? & ? & E & _)|(? & ? & ? & ? & ? & E & ? & _ & ? & _)];
    rewrite H in E; simplify_eq; eauto.
Qed.

Lemma submit_nonce_inv b s : nonce_inv s → nonce_inv (submit b s).2.
Proof.
  intros [Hs Hn]. destruct (submit_cases b s) as [(e & s' & -> & H1 & H2 & _)|(h & t & s' & z & took & -> & H1 & _ & _ & _ & H3 & H4)];
    unfold nonce_inv, nonces, local_next in *; simpl.
  - by rewrite H1, H2.
  - rewrite H1, H4, lookup_insert_eq, fmap_app. simpl.
    rewrite Forall_app, Forall_singleton. split; [|split; [eapply Forall_impl; [exact Hn|simpl; lia]|lia]].
    apply sorted_snoc; [done|]. eapply Forall_impl; [exact Hn|simpl; lia].
Qed.

(** Every transaction the node took is below the local counter, or lost. *)
Definition taken_inv (s : cstate) : Prop :=
  StronglySorted Z.lt (taken_nonces s) ∧ Forall (λ tr, tr.2 = true → nonce_of tr.1 < local_next s) (taken s).

Lemma taken_below s z : taken_inv s → Forall (λ t, nonce_of t < z) (lost s) → Forall (λ k, k < Z.max z (local_next s)) (taken_nonces s).
Proof.
  intros [_ Hc] Hl. unfold taken_nonces, lost in *. rewrite Forall_fmap in Hl. rewrite Forall_fmap, Forall_forall. rewrite Forall_forall in Hc, Hl. intros [t r] Ht. simpl.
  destruct r; [specialize (Hc _ Ht eq_refl); simpl in Hc; lia|].
  assert (Hin : (t, false) ∈ filter (λ tr : wire_tx * bool, tr.2 = false) (taken s)) by by apply list_elem_of_filter.
  specialize (Hl _ Hin). simpl in Hl. lia.
Qed.

Lemma submit_taken_inv b s : reports_lost s → taken_inv s → taken_inv (submit b s).2.
Proof.
  intros Hr Hi. pose proof Hi as [Hs Hc].
  destruct (submit_cases b s) as [(e & s' & -> & H1 & _ & [H2|(z & t & Hz & H2 & H3)])|(h & t & s' & z & took & -> & _ & H2 & _ & Hz & H3 & H4)]; simpl.
  - unfold taken_inv, taken_nonces, local_next in *. by rewrite H1, H2.
  - pose proof (taken_below s z Hi (Hr z Hz)) as Hb. unfold taken_inv, taken_nonces, local_next in *. rewrite H1, H2, fmap_app, Forall_app.
    rewrite <- H3 in Hb. split; [by apply sorted_snoc|]. split; [done|]. by constructor.
  - pose proof (taken_below s z Hi (Hr z Hz)) as Hb. unfold taken_inv, taken_nonces, local_next in *. rewrite H2, H4, lookup_insert_eq, fmap_app, Forall_app.
    rewrite <- H3 in Hb. split; [destruct took; simpl; [by apply sorted_snoc|by rewrite app_nil_r]|]. split.
    + eapply Forall_impl; [exact Hc|]. simpl. intros tr Htr Hread. specialize (Htr Hread). lia.
    + destruct took; constructor; [simpl; lia|constructor].
Qed.

Lemma submit_all_inv bs s : nonce_inv s → nonce_inv (submit_all bs s).
Proof.
  unfold submit_all. revert s. induction bs as [|b bs IH]; intros s Hs; simpl; [done|].
  by apply IH, submit_nonce_inv.
Qed.

Lemma submit_all_taken bs s : (∀ bs1 b bs2, bs = bs1 ++ b :: bs2 → reports_lost (submit_all bs1 s)) → taken_inv s → taken_inv (submit_all bs s).
Proof.
  unfold submit_all. revert s. induction bs as [|b bs IH]; intros s Hr Hs; simpl; [done|].
  apply IH; [|apply submit_taken_inv; [by apply (Hr [] b bs)|done]].
  intros bs1 b' bs2 ->. by apply (Hr (b :: bs1) b' bs2).
Qed.
End submissions.

(** ** Properties *)

(** the signature binds the whole transaction: two transactions with the
    same signable bytes agree in type, sender, nonce and payload, so a signature
    of a create can never be one of a cancel or of another PayLink. *)
Theorem signable_bytes_bind (t t' : tx_core) (Heq : signable_bytes t = signable_bytes t') : t = t'.
Proof.
  apply go_json_inj in Heq. destruct t, t'. simpl in Heq. congruence.
Qed.

(** PayLink ids: with addresses free of the separator, two creates get the
    same id only if creator, receiver, amount, expiry and seed are all equal, or
    else their two hashed texts are themselves a SHA-256 collision. *)
Theorem new_pl_id_collision (sha256_hex : string → string) (f c r : string) (a e : Z) (seed : option string)
    (f' c' r' : string) (a' e' : Z) (seed' : option string)
    (Hc : has_char "|"%char c = false) (Hc' : has_char "|"%char c' = false)
    (Hr : has_char "|"%char r = false) (Hr' : has_char "|"%char r' = false)
    (Heq : new_pl_id sha256_hex f c r a e seed = new_pl_id sha256_hex f' c' r' a' e' seed') :
  (c = c' ∧ r = r' ∧ a = a' ∧ e = e' ∧ str_or seed f = str_or seed' f') ∨
  (let x := pl_id_preimage c r a e (str_or seed f) in
   let y := pl_id_preimage c' r' a' e' (str_or seed' f') in x ≠ y ∧ sha256_hex x = sha256_hex y).
Proof.
  unfold new_pl_id in Heq. injection Heq as Heq.
  destruct (decide (pl_id_preimage c r a e (str_or seed f) = pl_id_preimage c' r' a' e' (str_or seed' f')))
    as [Hp|Hp]; [left|right; done].
  by apply pl_id_preimage_inj in Hp.
Qed.

(** C6: nonces are not reused, as far as the node tells.  Over any sequence of create and cancel submissions, whatever
    the node answers to each call and whatever it does with each transaction, the nonces of the transactions whose hash
    the client has read strictly increase.  The nonces of all transactions the node took, those included whose answer was
    lost or could not be read, strictly increase too if the nonce the node reports is always above those of the
    transactions it took and the client does not know of.  A submission that fails leaves the local counter where it
    was, so that without this the nonce is used again. *)
Theorem nonces_never_reused (sha256_hex : string → string) (n : node) (signer : Signer)
    (bs : list submission) (b : submission) :
  let s := submit_all sha256_hex n signer bs (mkC 0 ∅ [] []) in
  StronglySorted Z.lt (nonces s) ∧
  ((∀ bs1 b' bs2, bs = bs1 ++ b' :: bs2 → reports_lost n signer (submit_all sha256_hex n signer bs1 (mkC 0 ∅ [] []))) →
     StronglySorted Z.lt (taken_nonces s)) ∧
  (is_ok (submit sha256_hex n signer b s).1 = false →
     sent (submit sha256_hex n signer b s).2 = sent s ∧
     local_next signer (submit sha256_hex n signer b s).2 = local_next signer s).
Proof.
  intros s. split_and!.
  - apply (submit_all_inv sha256_hex n signer). split; [apply SSorted_nil|apply Forall_nil_2].
  - intros Hr. apply (submit_all_taken sha256_hex n signer bs _ Hr). split; [apply SSorted_nil|apply Forall_nil_2].
  - destruct (submit_cases sha256_hex n signer b s) as [(e & s' & -> & H1 & H2 & _)|(h & t & s' & z & took & -> & _)];
      [|done]. unfold local_next. simpl. by rewrite H1, H2.
Qed.

(** a lost answer makes the next transaction reuse the nonce: when the node has taken a transaction, its answer is lost,
    and the node still reports the old nonce (the transaction is pending), the next submission is taken with the same
    nonce and answered to the client as a success. *)
Theorem lost_reply_reuses_nonce (sha256_hex : string → string) (n : node) (signer : Signer) (b b' : submission) (z : Z) (h : string)
    (Hnonce : ∀ i a, paylink_getNonce n i a = HttpReply 200 (Some (JObj [("result", JInt z)])))
    (Hlost : ∀ t, paylink_sendTransaction n 2 t = (true, HttpError))
    (Htaken : ∀ t, paylink_sendTransaction n 4 t = (true, HttpReply 200 (Some (JObj [("result", JObj [("txHash", JStr h)])])))) :
  let run bs := submit_all sha256_hex n signer bs (mkC 0 ∅ [] []) in
  (submit sha256_hex n signer b' (run [b])).1 = Ok h ∧ taken_nonces (run [b; b']) = [Z.max z 0; Z.max z 0].
Proof.
  destruct (submit_reserve sha256_hex n signer b) as (mk & Hmk & Hb). destruct (submit_reserve sha256_hex n signer b') as (mk' & Hmk' & Hb').
  assert (Hnext : ∀ s, get_nonce n (address signer) s = (Ok z, mkC (rpc_id s + 1) (next_nonce s) (sent s) (taken s)))
    by (intros s; unfold get_nonce, _call; by rewrite Hnonce).
  assert (H1 : submit sha256_hex n signer b (mkC 0 ∅ [] []) = (Raise (AppError CHAIN_UNAVAILABLE), mkC 2 ∅ [] [(mk (Z.max z 0), false)])).
  { rewrite Hb. unfold reserve. rewrite Hnext. unfold send_transaction, _call. cbn -[Z.max]. by rewrite lookup_empty, Hlost. }
  assert (H2 : ∃ c l, submit sha256_hex n signer b' (mkC 2 ∅ [] [(mk (Z.max z 0), false)]) = (Ok h, mkC 4 c l [(mk (Z.max z 0), false); (mk' (Z.max z 0), true)])).
  { eexists _, _. rewrite Hb'. unfold reserve. rewrite Hnext. unfold send_transaction, _call. cbn -[Z.max]. rewrite lookup_empty, Htaken. reflexivity. }
  destruct H2 as (c & l & H2). unfold submit_all. cbn [fold_left]. rewrite H1. cbn [snd]. rewrite H2. split; [done|].
  unfold taken_nonces. simpl. by rewrite (proj1 (Hmk _)), (proj1 (Hmk' _)).
Qed.

(** ** Witnesses *)

Definition demo_signer : Signer := mkSigner "0xsigner" "key" (λ d, "sig:" +:+ d).

(** A JSON-RPC result. *)
Definition rpc_ok (j : json) : rpc_reply := HttpReply 200 (Some (JObj [("result", j)])).

(** A node that takes every transaction and always answers nonce 0. *)
Definition demo_node : node :=
  mkNode (λ _ _, rpc_ok (JInt 0)) (λ _ t, (true, rpc_ok (JObj [("txHash", JStr (hash t))]))) (λ _ _, rpc_ok JNull).

Example demo_nonces :
  nonces (submit_all id demo_node demo_signer
    [SubmitCreate "0xa" "0xr" 5 99 ZERO_HASH None; SubmitCancel "0xa"] (mkC 0 ∅ [] [])) = [0; 1].
Proof. vm_compute. reflexivity. Qed.

Lemma signable_bytes_bind_witness :
  signable_bytes (build_cancel "0xa" "0xs" 3) = signable_bytes (mkCore 3 "0xs" 3 (JObj [("paylinkId", JStr "0xa")])) ∧
  build_cancel "0xa" "0xs" 3 = mkCore 3 "0xs" 3 (JObj [("paylinkId", JStr "0xa")]).
Proof. split; [reflexivity|]. apply signable_bytes_bind. reflexivity. Defined.

Lemma new_pl_id_collision_witness :
  ("0xc" = "0xc" ∧ "0xr" = "0xr" ∧ 5 = 5 ∧ 9 = 9 ∧ str_or (Some "k") "u" = str_or (Some "k") "v") ∨
  (let x := pl_id_preimage "0xc" "0xr" 5 9 (str_or (Some "k") "u") in
   let y := pl_id_preimage "0xc" "0xr" 5 9 (str_or (Some "k") "v") in x ≠ y ∧ id x = id y).
Proof.
  apply (new_pl_id_collision id "u" "0xc" "0xr" 5 9 (Some "k") "v" "0xc" "0xr" 5 9 (Some "k")); reflexivity.
Defined.

(** It takes the first transaction, whose answer is lost, and reports the nonce 1 from then on. *)
Definition lossy_node : node :=
  mkNode (λ i _, rpc_ok (JInt (if i <=? 2 then 0 else 1)))
    (λ i t, (true, if i =? 2 then HttpError else rpc_ok (JObj [("txHash", JStr (hash t))]))) (λ _ _, rpc_ok JNull).

Lemma nonces_never_reused_witness :
  let s := submit_all id lossy_node demo_signer [SubmitCreate "0xa" "0xr" 5 99 ZERO_HASH None; SubmitCancel "0xa"] (mkC 0 ∅ [] []) in
  StronglySorted Z.lt (nonces s) ∧ StronglySorted Z.lt (taken_nonces s) ∧ nonces s = [1] ∧ taken_nonces s = [0; 1].
Proof.
  destruct (nonces_never_reused id lossy_node demo_signer
    [SubmitCreate "0xa" "0xr" 5 99 ZERO_HASH None; SubmitCancel "0xa"] (SubmitCancel "0xb")) as (H1 & H2 & _).
  split; [exact H1|]. split; [|vm_compute; split; reflexivity]. apply H2. clear H1 H2. intros bs1 b bs2 E z Hz.
  destruct bs1 as [|b1 [|b2 bs1]]; [|injection E as <- _ _|by injection E as _ _ E; destruct bs1];
    vm_compute in Hz; injection Hz as <-; vm_compute; repeat constructor.
Defined.

Lemma lost_reply_reuses_nonce_witness :
  let n := mkNode (λ _ _, rpc_ok (JInt 7)) (λ i t, (true, if i =? 2 then HttpError else rpc_ok (JObj [("txHash", JStr "0xh")]))) (λ _ _, rpc_ok JNull) in
  taken_nonces (submit_all id n demo_signer [SubmitCancel "0xa"; SubmitCancel "0xb"] (mkC 0 ∅ [] [])) = [7; 7].
Proof. apply (lost_reply_reuses_nonce id _ demo_signer (SubmitCancel "0xa") (SubmitCancel "0xb") 7 "0xh"); done. Defined.

End Chain.
