(* ===== verification/PayLink.v ===== *)
(** * paylink-service: the PayLink lifecycle

    [paylink-service/app]: [domain/models.py], [domain/reconcile.py],
    [domain/service.py], [db/repository.py], [api/v1/paylinks.py] and the request
    schema of [api/v1/schemas.py].  The database holds the PayLinks by id and
    the outbox rows in id order; what a rollback cannot undo is the chain client
    and its nonces, the events published in process and the notifications sent.
    Times are in microseconds. *)
From S2P Require Import Prelude PyText PyDecimal PyJson PyNum UnitOfWork Paging Idempotency Chain.
From Stdlib Require Import Ascii.

Module PayLink.
Import PyJson PyNum Chain.
Open Scope Z_scope.

(** ** domain/models.py *)

Inductive OffChainStatus := CREATED | PENDING | VERIFIED | FAILED | CANCELLED | EXPIRED.

#[global] Instance OffChainStatus_eq_dec : EqDecision OffChainStatus.
Proof. solve_decision. Defined.

Definition status_value (s : OffChainStatus) : string :=
  match s with
  | CREATED => "CREATED" | PENDING => "PENDING" | VERIFIED => "VERIFIED"
  | FAILED => "FAILED" | CANCELLED => "CANCELLED" | EXPIRED => "EXPIRED"
  end.

Definition all_statuses : list OffChainStatus :=
  [CREATED; PENDING; VERIFIED; FAILED; CANCELLED; EXPIRED].

(** [OffChainStatus(value)], [None] for its [ValueError]. *)
Definition status_of (v : string) : option OffChainStatus :=
  head (filter (λ s, status_value s = v) all_statuses).

Definition is_terminal (s : OffChainStatus) : bool :=
  bool_decide (s ∈ [VERIFIED; FAILED; CANCELLED]).

Definition CHAIN_TO_OFFCHAIN (s : string) : option OffChainStatus :=
  if bool_decide (s = "CREATED") then Some PENDING
  else if bool_decide (s = "VERIFIED") then Some VERIFIED
  else if bool_decide (s = "FAILED") then Some FAILED
  else if bool_decide (s = "CANCELLED") then Some CANCELLED
  else None.

(** ** domain/reconcile.py *)

(** [CHAIN_TO_OFFCHAIN.get(chain.status)]: only a string is a key, and a list or an object cannot be
    one. *)
Definition mapped_status (c : ChainPayLink) : outcome pyerr (option OffChainStatus) :=
  match cpl_status c with
  | JStr s => Ok (CHAIN_TO_OFFCHAIN s)
  | JList _ | JObj _ => Raise TypeError
  | _ => Ok None
  end.

Definition usec : Z := 1000000.

Definition reconcile_status (local : OffChainStatus) (chain : option ChainPayLink) (now : Z) :
    outcome pyerr OffChainStatus :=
  if is_terminal local then Ok local
  else match chain with
  | None => Ok local
  | Some c =>
      let expired := negb (cpl_expiry c =? 0) && (now >? cpl_expiry c * usec) in
      let? mapped := mapped_status c in
      Ok match mapped with
         | Some VERIFIED => VERIFIED
         | Some FAILED => FAILED
         | Some CANCELLED => CANCELLED
         | _ => if expired then EXPIRED else PENDING
         end
  end.

(** ** db/models.py and db/repository.py *)

Record PayLinkRow := mkRow {
  pl_id : string;
  creator_addr : string;
  receiver_addr : string;
  owner_addr : string;
  amount : Z;
  currency : string;
  status : string;
  expiry : Z;
  usage : string;
  meta : option (list (string * json));
  rules : option json;
  chain_tx_hash : option string;
  vote_count : Z;
  created_at : Z;
  updated_at : Z;
  verified_at : option Z }.

Record PayLinkEventRow := mkEvent { ev_pl_id : string; ev_kind : string; ev_payload : json }.

Record pldb := mkDb { paylinks : gmap string PayLinkRow; events : list PayLinkEventRow }.

(** What the outside sees of a request. *)
Record world := mkWorld {
  chain_state : cstate;
  published : list (string * json);
  notified : list (string * string) }.

Notation H := (handler pldb world ErrorCode).

Definition numeric38 : Z := 10 ^ 38.

Definition insert_row (row : PayLinkRow) (d : pldb) : outcome pyerr pldb :=
  if numeric38 <=? Z.abs (amount row) then Raise DataError
  else match paylinks d !! pl_id row with
  | Some _ => Raise IntegrityError
  | None => Ok (mkDb (<[pl_id row := row]> (paylinks d)) (events d))
  end.

Definition insert (row : PayLinkRow) : H unit := try_write (insert_row row).

Definition get_row (i : string) : H (option PayLinkRow) := query (λ d, paylinks d !! i).

Definition append_event (i kind : string) (payload : json) (d : pldb) : pldb :=
  mkDb (paylinks d) (events d ++ [mkEvent i kind payload]).

Definition add_event (i kind : string) (payload : json) : H unit := write (append_event i kind payload).

(** Attribute writes on the loaded row: an UPDATE of the changed columns. *)
Definition update_row (i : string) (f : PayLinkRow → PayLinkRow) (d : pldb) : pldb :=
  mkDb (alter f i (paylinks d)) (events d).

Definition publish (kind : string) (payload : json) : H unit :=
  effect (λ x, mkWorld (chain_state x) (published x ++ [(kind, payload)]) (notified x)).

Definition on_chain {A} (m : cstate → outcome (exn ErrorCode) A * cstate) : H A := λ w,
  let '(r, c) := m (chain_state (ext w)) in
  (r, Uow (db w) (tx w) (mkWorld c (published (ext w)) (notified (ext w)))).

(** ** events/publisher.py *)

Definition PAYLINK_REQUESTED : string := "paylink.requested".
Definition PAYLINK_CREATED : string := "paylink.created".
Definition PAYLINK_VERIFIED : string := "paylink.verified".
Definition PAYLINK_CANCELLED : string := "paylink.cancelled".
Definition PAYLINK_EXPIRED : string := "paylink.expired".

(** ** domain/service.py *)

Record CreateCommand := mkCmd {
  c_receiver : string;
  c_amount : Z;
  c_currency : string;
  c_expiry : Z;
  c_usage : string;
  c_metadata : option (list (string * json));
  c_rules : option json;
  c_idem_key : option string;
  c_caller_addr : string;
  c_user_id : option string }.

Record Settings := mkSettings {
  chain_submit_enabled : bool;
  compliance_check_enabled : bool;
  amount_kyc_threshold : Z;
  compliance_fail_open : bool;
  notify_enabled : bool;
  default_currency : string }.

(** What [ComplianceClient.evaluate] answers: a decision, or nothing when it
    raises [ComplianceUnavailable]. *)
Class RiskPort := evaluate_risk :
  ∀ (user_id action : string) (amount : Z) (currency context : string), option string.

Section service.
Variables (sha256_hex : string → string) (n : node) (signer : Signer).
Variable settings : Settings.
(** [None] when no compliance client is wired. *)
Variable compliance : option RiskPort.

Definition _emit_notification (event_kind : string) (row : PayLinkRow) : H unit :=
  when (notify_enabled settings)
    (effect (λ x, mkWorld (chain_state x) (published x)
                    (notified x ++ [(event_kind, pl_id row +:+ ":" +:+ event_kind)]))).

Definition _compliance_gate (cmd : CreateCommand) (i : string) : H unit :=
  match compliance with
  | None => mret tt
  | Some port =>
      if negb (compliance_check_enabled settings) then mret tt
      else if c_amount cmd <=? amount_kyc_threshold settings then mret tt
      else match c_user_id cmd with
      | None => mret tt
      | Some user =>
          if negb (truthy user) then mret tt
          else match @evaluate_risk port user "paylink.create" (c_amount cmd) (c_currency cmd)
                       ("paylink.create:" +:+ i) with
          | None => if compliance_fail_open settings then mret tt else raise KYC_REQUIRED
          | Some decision => if bool_decide (decision = "block") then raise KYC_REQUIRED else mret tt
          end
      end
  end.

(** [int(cmd.expiry.timestamp())] *)
Definition expiry_unix (cmd : CreateCommand) : Z := Z.quot (c_expiry cmd) usec.

Definition cmd_pl_id (fresh : string) (cmd : CreateCommand) : string :=
  new_pl_id sha256_hex fresh (c_caller_addr cmd) (c_receiver cmd) (c_amount cmd) (expiry_unix cmd)
    (c_idem_key cmd).

Definition new_row (now : Z) (i : string) (cmd : CreateCommand) : PayLinkRow :=
  mkRow i (c_caller_addr cmd) (c_receiver cmd) (c_caller_addr cmd) (c_amount cmd) (c_currency cmd)
    (status_value CREATED) (c_expiry cmd) (c_usage cmd) (c_metadata cmd) (c_rules cmd) None 0 now now None.

Definition requested_payload (i : string) (cmd : CreateCommand) : json :=
  JObj [("pl_id", JStr i); ("creator", JStr (c_caller_addr cmd)); ("receiver", JStr (c_receiver cmd));
        ("amount", JInt (c_amount cmd)); ("currency", JStr (c_currency cmd));
        ("expiry", JInt (expiry_unix cmd)); ("usage", JStr (c_usage cmd))].

(** The first half of [create]: gate, insert, commit, announce. *)
Definition create_open (now : Z) (i : string) (cmd : CreateCommand) : H PayLinkRow :=
  _compliance_gate cmd i ;;
  insert (new_row now i cmd) ;;
  add_event i PAYLINK_REQUESTED (requested_payload i cmd) ;;
  commit ;;
  publish PAYLINK_REQUESTED (requested_payload i cmd) ;;
  _emit_notification PAYLINK_CREATED (new_row now i cmd) ;;
  mret (new_row now i cmd).

Definition submitted (now : Z) (h : string) (row : PayLinkRow) : PayLinkRow :=
  mkRow (pl_id row) (creator_addr row) (receiver_addr row) (owner_addr row) (amount row) (currency row)
    (status_value PENDING) (expiry row) (usage row) (meta row) (rules row) (Some h) (vote_count row)
    (created_at row) now (verified_at row).

(** The second half: submit, then record the transaction. *)
Definition create_submit (now : Z) (cmd : CreateCommand) (row : PayLinkRow) : H PayLinkRow :=
  if chain_submit_enabled settings then
    h ← on_chain (_submit_create sha256_hex n signer (pl_id row) (c_receiver cmd) (c_amount cmd)
                    (expiry_unix cmd) (metadata_hash sha256_hex (c_metadata cmd)) (c_rules cmd));
    write (update_row (pl_id row) (submitted now h)) ;;
    let payload := JObj [("pl_id", JStr (pl_id row)); ("chain_tx_hash", JStr h)] in
    add_event (pl_id row) PAYLINK_CREATED payload ;;
    commit ;;
    publish PAYLINK_CREATED payload ;;
    mret (submitted now h row)
  else mret row.

(** [create]: [fresh] is what [uuid.uuid4().hex] returns. *)
Definition create (now : Z) (fresh : string) (cmd : CreateCommand) : H PayLinkRow :=
  let i := cmd_pl_id fresh cmd in
  row ← create_open now i cmd;
  create_submit now cmd row.

Definition reconciled (now : Z) (new : OffChainStatus) (chain : option ChainPayLink)
    (row : PayLinkRow) : PayLinkRow :=
  mkRow (pl_id row) (creator_addr row) (receiver_addr row) (owner_addr row) (amount row) (currency row)
    (status_value new) (expiry row) (usage row) (meta row) (rules row) (chain_tx_hash row)
    (match chain with Some c => cpl_vote_count c | None => vote_count row end)
    (created_at row) now (if decide (new = VERIFIED) then Some now else verified_at row).

(** [OffChainStatus(row.status)] *)
Definition local_status (row : PayLinkRow) : H OffChainStatus :=
  match status_of (status row) with
  | Some s => mret s
  | None => throw (PyError ValueError)
  end.

(** [ChainPayLink.from_rpc(chain_resp) if chain_resp else None] *)
Definition parse_chain (resp : json) : outcome pyerr (option ChainPayLink) :=
  if jtruthy resp then
    match resp with
    | JObj d => let? c := from_rpc d in Ok (Some c)
    | _ => Raise TypeError
    end
  else Ok None.

Definition lift_py {A} (o : outcome pyerr A) : H A := lift match o with Ok a => Ok a | Raise k => Raise (PyError k) end.

Definition expired_payload (row : PayLinkRow) : json := JObj [("pl_id", JStr (pl_id row))].

Definition _reconcile (now : Z) (row : PayLinkRow) : H PayLinkRow :=
  local ← local_status row;
  if is_terminal local || negb (otruthy (chain_tx_hash row)) then mret row
  else
    resp ← catch (r ← on_chain (get_paylink n (pl_id row)); mret (Some r))
                 (λ e, match e with
                       | AppError CHAIN_UNAVAILABLE => mret None
                       | _ => throw e
                       end);
    match resp with
    | None => mret row
    | Some chain_resp =>
        chain_pl ← lift_py (parse_chain chain_resp);
        new ← lift_py (reconcile_status local chain_pl now);
        if decide (new = local) then mret row
        else
          let row' := reconciled now new chain_pl row in
          write (update_row (pl_id row) (reconciled now new chain_pl)) ;;
          when (bool_decide (new = EXPIRED)) (add_event (pl_id row) PAYLINK_EXPIRED (expired_payload row)) ;;
          commit ;;
          when (bool_decide (new = EXPIRED)) (publish PAYLINK_EXPIRED (expired_payload row)) ;;
          when (bool_decide (new = VERIFIED)) (_emit_notification PAYLINK_VERIFIED row') ;;
          mret row'
    end.

Definition get (now : Z) (i : string) : H PayLinkRow :=
  row ← get_row i;
  match row with
  | None => raise PAYLINK_NOT_FOUND
  | Some row => _reconcile now row
  end.

Definition cancelled (now : Z) (row : PayLinkRow) : PayLinkRow :=
  mkRow (pl_id row) (creator_addr row) (receiver_addr row) (owner_addr row) (amount row) (currency row)
    (status_value CANCELLED) (expiry row) (usage row) (meta row) (rules row) (chain_tx_hash row)
    (vote_count row) (created_at row) now (verified_at row).

Definition cancelled_payload (i caller : string) : json := JObj [("pl_id", JStr i); ("by", JStr caller)].

Definition cancel (now : Z) (i caller : string) : H PayLinkRow :=
  row ← get_row i;
  match row with
  | None => raise PAYLINK_NOT_FOUND
  | Some row =>
      if bool_decide (caller ∉ [creator_addr row; owner_addr row]) then raise UNAUTHORIZED
      else
        local ← local_status row;
        if decide (local = CANCELLED) then mret row
        else if decide (local ∈ [VERIFIED; FAILED]) then raise PAYLINK_ALREADY_SETTLED
        else if decide (local = EXPIRED) then raise PAYLINK_EXPIRED_ERR
        else
          when (chain_submit_enabled settings && otruthy (chain_tx_hash row))
            (_ ← on_chain (_submit_cancel sha256_hex n signer i); mret tt) ;;
          write (update_row i (cancelled now)) ;;
          add_event i PAYLINK_CANCELLED (cancelled_payload i caller) ;;
          commit ;;
          publish PAYLINK_CANCELLED (cancelled_payload i caller) ;;
          _emit_notification PAYLINK_CANCELLED (cancelled now row) ;;
          mret (cancelled now row)
  end.
End service.

(** ** Listing: db/repository.py and [PayLinkService.list] *)

(** [encode_cursor] and [decode_cursor]: the text of a cursor gives back the
    timestamp and the id it was made of ([isoformat]/[fromisoformat] and base64
    are inverse on the timestamps of the database). *)
Class CursorCodec := {
  encode_cursor : Z * string → string;
  decode_cursor : string → outcome pyerr (Z * string);
  decode_encode c : decode_cursor (encode_cursor c) = Ok c }.

Section listing.
(** The database's order on text ids (its collation). *)
Context (text_lt : relation string) `{!RelDecision text_lt}.
Context `{!CursorCodec}.

(** Row comparison [(created_at, pl_id) < (c_ts, c_id)]. *)
Definition key_lt (a b : Z * string) : Prop := a.1 < b.1 ∨ (a.1 = b.1 ∧ text_lt a.2 b.2).

#[global] Instance key_lt_dec : RelDecision key_lt.
Proof. intros a b. unfold key_lt. apply _. Defined.

Definition row_key (r : PayLinkRow) : Z * string := (created_at r, pl_id r).

Definition opt_eq (o : option string) (v : string) : bool :=
  match o with Some x => bool_decide (v = x) | None => true end.

Definition matching (creator receiver st : option string) (d : pldb) : list PayLinkRow :=
  filter (λ r, opt_eq creator (creator_addr r) && opt_eq receiver (receiver_addr r)
               && opt_eq st (status r) = true) ((map_to_list (paylinks d)).*2).

Definition list_paylinks (creator receiver st : option string) (limit : nat) (cursor : option string) :
    H (list PayLinkRow * option string) :=
  c ← match cursor with
      | None => mret None
      | Some t => match decode_cursor t with
                  | Ok k => mret (Some k)
                  | Raise e => throw (PyError e)
                  end
      end;
  query (λ d, let '(rows, next) := page row_key key_lt limit c (matching creator receiver st d) in
              (rows, encode_cursor <$> next)).

Definition list_ (creator receiver st : option string) (limit : nat) (cursor : option string) :
    H (list PayLinkRow * option string) :=
  match st with
  | Some v => if bool_decide (v ∉ status_value <$> all_statuses) then raise INVALID_QUERY
              else list_paylinks creator receiver st limit cursor
  | None => list_paylinks creator receiver st limit cursor
  end.

(** A client following [next_cursor] to the end. *)
Fixpoint list_all (fuel : nat) (creator receiver st : option string) (limit : nat)
    (cursor : option string) : H (list PayLinkRow) :=
  '(rows, next) ← list_ creator receiver st limit cursor;
  match next, fuel with
  | Some c, S fuel' =>
      rest ← list_all fuel' creator receiver st limit (Some c);
      mret (rows ++ rest)
  | _, _ => mret rows
  end.
End listing.

(** ** Request validation: api/v1/schemas.py *)

Definition is_hex (c : ascii) : bool :=
  let k := N_of_ascii c in
  (((48 <=? k) && (k <=? 57)) || ((65 <=? k) && (k <=? 70)) || ((97 <=? k) && (k <=? 102)))%N.

(** [_ADDR_RE.match(v)]: 0x, forty hex digits, then the end of the text or a
    newline at the end of the text (what [$] matches). *)
Definition addr_match (v : string) : bool :=
  match chars v with
  | "0"%char :: "x"%char :: l =>
      forallb is_hex (take 40 l) && bool_decide (length (take 40 l) = 40%nat) &&
      bool_decide (drop 40 l = [] ∨ drop 40 l = [ascii_of_N 10])
  | _ => false
  end.

Definition _validate_receiver (v : string) : outcome pyerr string :=
  if addr_match v then Ok (lower v) else Raise ValueError.

(** An [expiry] without a time zone is read as UTC: both are instants here. *)
Definition _validate_expiry (now v : Z) : outcome pyerr Z :=
  if v <=? now then Raise ValueError else Ok v.

Record CreatePayLinkRequest := mkReq {
  r_receiver : string;
  r_amount : Z;
  r_currency : option string;
  r_expiry : Z;
  r_usage : string;
  r_metadata : option (list (string * json));
  r_rules : option json }.

(** The model's validation: the validated request, or the 400 of
    [RequestValidationError]. *)
Definition validate_request (now : Z) (q : CreatePayLinkRequest) : outcome pyerr CreatePayLinkRequest :=
  let? receiver := _validate_receiver (r_receiver q) in
  if negb (0 <? r_amount q) then Raise ValueError
  else
    let? e := _validate_expiry now (r_expiry q) in
    if bool_decide (r_usage q ∈ ["single"; "multi"]) then
      Ok (mkReq receiver (r_amount q) (r_currency q) e (r_usage q) (r_metadata q) (r_rules q))
    else Raise ValueError.

(** ** Routes: api/v1/paylinks.py *)

Section routes.
Context {R : Type} `{!RedisLike R}.
Variables (sha256_hex : string → string) (n : node) (signer : Signer).
Variables (settings : Settings) (compliance : option RiskPort).
Variables (service_name : string) (ttl : Z).

(** [caller_address] of deps.py. *)
Definition caller_address (x_creator_addr : option string) : string :=
  lower (str_or x_creator_addr (address signer)).

Definition command_of (q : CreatePayLinkRequest) (key : option string) (caller : string)
    (user : option string) : CreateCommand :=
  mkCmd (r_receiver q) (r_amount q) (str_or (r_currency q) (default_currency settings)) (r_expiry q)
    (r_usage q) (r_metadata q) (r_rules q) key caller user.

Definition ojson (o : option string) : json := match o with Some s => JStr s | None => JNull end.

Definition create_body (row : PayLinkRow) : json :=
  JObj [("pl_id", JStr (pl_id row)); ("status", JStr (status row));
        ("created_at", JInt (created_at row)); ("chain_tx_hash", ojson (chain_tx_hash row))].

Definition cancel_body (row : PayLinkRow) : json :=
  JObj [("pl_id", JStr (pl_id row)); ("status", JStr (status row))].

(** A request's service call as an action on the committed state. *)
Definition as_action {A} (m : H A) (s : pldb * world) : outcome (exn ErrorCode) A * (pldb * world) :=
  let '(r, d, x) := request m s.1 s.2 in (r, (d, x)).

(** [fp] is the fingerprint of the request body. *)
Definition create_paylink (c : Idem.clock) (now : Z) (fresh fp : string) (key user : option string)
    (caller : string) (q : CreatePayLinkRequest) (rs : R) (s : pldb * world) :=
  Idem.idempotent_route service_name ttl c "create" key fp 201 create_body
    (as_action (create sha256_hex n signer settings compliance now fresh
                  (command_of q key caller user))) rs s.

Definition cancel_paylink (c : Idem.clock) (now : Z) (fp : string) (key : option string)
    (caller i : string) (rs : R) (s : pldb * world) :=
  Idem.idempotent_route service_name ttl c "cancel" key fp 200 cancel_body
    (as_action (cancel sha256_hex n signer settings now i caller)) rs s.
End routes.

(** ** Behaviour of each operation, on every branch *)

Lemma status_of_value st : status_of (status_value st) = Some st.
Proof. by destruct st. Qed.

Lemma status_of_inv v st : status_of v = Some st → v = status_value st.
Proof.
  unfold status_of. intros Hs. assert (Hin : st ∈ filter (λ s, status_value s = v) all_statuses).
  { destruct (filter _ all_statuses); simplify_eq/=. set_solver. }
  by apply list_elem_of_filter in Hin as [<- _].
Qed.

Lemma wp_on_chain {A} (m : cstate → outcome (exn ErrorCode) A * cstate) Φ w :
  (∀ r c, m (chain_state (ext w)) = (r, c) →
     Φ r (Uow (db w) (tx w) (mkWorld c (published (ext w)) (notified (ext w))))) →
  wp (on_chain m) Φ w.
Proof. unfold wp, on_chain. destruct (m _) as [r c] eqn:E. intros HΦ. by apply HΦ. Qed.

Lemma wp_notify settings k row (Φ : outcome (exn ErrorCode) unit → uow pldb world → Prop) w :
  (∀ ns, Φ (Ok tt) (Uow (db w) (tx w) (mkWorld (chain_state (ext w)) (published (ext w)) ns))) →
  wp (_emit_notification settings k row) Φ w.
Proof.
  intros HΦ. unfold _emit_notification. wp_step; [wp_step; apply HΦ|].
  destruct w as [d t [c p ns]]. apply HΦ.
Qed.

Ltac pl_step :=
  match goal with
  | |- wp (on_chain _) _ _ => apply wp_on_chain; intros ?r ?c ?Hc; cbn [db tx ext]
  | |- wp (_emit_notification _ _ _) _ _ => apply wp_notify; intros ?ns; cbn [db tx ext]
  | |- wp (add_event _ _ _) _ _ => unfold add_event; apply wp_write; cbn [db tx ext]
  | |- wp (publish _ _) _ _ =>
      unfold publish; apply wp_effect; cbn [db tx ext chain_state published notified]
  | |- wp (get_row _) _ _ => unfold get_row; apply wp_query; cbn [db tx ext]
  | |- wp (insert _) _ _ => unfold insert; apply wp_try_write; intros ? ?; cbn [db tx ext]
  | _ => wp_step
  end.
Ltac pl_go := repeat (cbv beta iota zeta; pl_step).

(** What is announced of a database and of the world. *)
Definition announced (d : pldb) : list (string * json) := (λ e, (ev_kind e, ev_payload e)) <$> events d.

Section behaviour.
Variables (sha256_hex : string → string) (n : node) (signer : Signer).
Variables (settings : Settings) (compliance : option RiskPort).

Definition opened (now : Z) (i : string) (cmd : CreateCommand) (d : pldb) : pldb :=
  append_event i PAYLINK_REQUESTED (requested_payload i cmd)
    (mkDb (<[i := new_row now i cmd]> (paylinks d)) (events d)).

Definition created_payload (i h : string) : json := JObj [("pl_id", JStr i); ("chain_tx_hash", JStr h)].

(** The three ends of [create]: refused with nothing done; row committed and
    announced, without a chain transaction; submitted. *)
Inductive create_ends (now : Z) (i : string) (cmd : CreateCommand) (d : pldb) (x : world) :
    outcome (exn ErrorCode) PayLinkRow → pldb → world → Prop :=
| create_refused e : create_ends now i cmd d x (Raise e) d x
| create_opened r c ns :
    paylinks d !! i = None → c_amount cmd < numeric38 →
    (chain_submit_enabled settings = false ∧ r = Ok (new_row now i cmd) ∧ c = chain_state x ∨
     chain_submit_enabled settings = true ∧ is_ok r = false ∧ sent c = sent (chain_state x)) →
    create_ends now i cmd d x r (opened now i cmd d)
      (mkWorld c (published x ++ [(PAYLINK_REQUESTED, requested_payload i cmd)]) ns)
| create_submitted h c ns :
    paylinks d !! i = None → c_amount cmd < numeric38 → chain_submit_enabled settings = true →
    create_ends now i cmd d x (Ok (submitted now h (new_row now i cmd)))
      (append_event i PAYLINK_CREATED (created_payload i h)
         (update_row i (submitted now h) (opened now i cmd d)))
      (mkWorld c ((published x ++ [(PAYLINK_REQUESTED, requested_payload i cmd)])
                  ++ [(PAYLINK_CREATED, created_payload i h)]) ns).

Lemma wp_gate cmd i (Φ : outcome (exn ErrorCode) unit → uow pldb world → Prop) w :
  Φ (Ok tt) w → (∀ e, Φ (Raise e) w) → wp (_compliance_gate settings compliance cmd i) Φ w.
Proof. intros Hok Hno. unfold _compliance_gate. wp_go; auto. Qed.

Lemma create_cases now fresh cmd d x :
  wp (create sha256_hex n signer settings compliance now fresh cmd)
    (λ r w, create_ends now (cmd_pl_id sha256_hex fresh cmd) cmd d x r (db w) (ext w)) (Uow d d x).
Proof.
  unfold create. set (i := cmd_pl_id sha256_hex fresh cmd). wp_step. unfold create_open. wp_step.
  apply wp_gate; [|intros e; constructor]. pl_go; [|constructor].
  match goal with Hi : insert_row _ _ = Ok ?d1 |- _ =>
    unfold insert_row in Hi; cbn [new_row pl_id] in Hi; py_run end.
  match goal with Hn : (numeric38 <=? _) = false |- _ => apply Z.leb_gt in Hn; cbn in Hn end.
  unfold create_submit. pl_go.
  - apply create_submitted; [done|lia|done].
  - apply create_opened; [done|lia|]. right. split_and!; [done|done|].
    cbn [ext chain_state] in Hc.
    by eapply (submit_raised sha256_hex n signer (SubmitCreate _ _ _ _ _ _)).
  - apply create_opened; [done|lia|]. by left.
Qed.

(** The ends of [get]: nothing written (the chain may have been asked), or the
    status moved to what the chain's answer says. *)
Inductive get_ends (now : Z) (i : string) (d : pldb) (x : world) :
    outcome (exn ErrorCode) PayLinkRow → pldb → world → Prop :=
| get_unchanged r c :
    (∀ row, r = Ok row → paylinks d !! i = Some row) →
    sent c = sent (chain_state x) →
    get_ends now i d x r d (mkWorld c (published x) (notified x))
| get_moved row local new k resp cpl c ns :
    reconcile_status local (Some cpl) now = Ok new →
    paylinks d !! i = Some row → status_of (status row) = Some local →
    is_terminal local = false → otruthy (chain_tx_hash row) = true → new ≠ local →
    read_reply (paylink_getPayLink n k (pl_id row)) = Ok (JObj resp) → from_rpc resp = Ok cpl →
    sent c = sent (chain_state x) →
    get_ends now i d x (Ok (reconciled now new (Some cpl) row))
      (if decide (new = EXPIRED)
       then append_event (pl_id row) PAYLINK_EXPIRED (expired_payload row)
              (update_row (pl_id row) (reconciled now new (Some cpl)) d)
       else update_row (pl_id row) (reconciled now new (Some cpl)) d)
      (mkWorld c (if decide (new = EXPIRED)
                  then published x ++ [(PAYLINK_EXPIRED, expired_payload row)] else published x) ns).

Lemma get_paylink_cases i s r s' :
  get_paylink n i s = (r, s') → sent s' = sent s ∧
  ∀ resp, r = Ok (JObj resp) → ∃ k, read_reply (paylink_getPayLink n k i) = Ok (JObj resp).
Proof.
  unfold get_paylink, _call. intros Hg. destruct (read_reply _) as [j|[]] eqn:E; py_run; (split; [done|]); intros; simplify_eq. eauto.
Qed.

Lemma get_cases now i d x :
  wp (get n settings now i) (λ r w, get_ends now i d x r (db w) (ext w)) (Uow d d x).
Proof.
  assert (Hsame : ∀ r, (∀ row, r = Ok row → paylinks d !! i = Some row) → get_ends now i d x r d x).
  { intros r Hr. destruct x as [c p ns]. by apply get_unchanged. }
  unfold get. pl_go; [|by apply Hsame]. rename p into row. unfold _reconcile, local_status.
  pl_go; try (apply Hsame; naive_solver);
    match goal with Hc : get_paylink _ _ _ = _ |- _ =>
      apply get_paylink_cases in Hc as [Hsent Hresp]; cbn [ext] in Hsent end;
    try (apply get_unchanged; [naive_solver|done]).
  assert (Hun : ∀ r, (∀ r', r = Ok r' → r' = row) → get_ends now i d x r d
      (mkWorld c (published x) (notified x))).
  { intros r0 Hr. apply get_unchanged; [|done]. naive_solver. }
  match goal with Hb : is_terminal ?o || _ = false |- _ =>
    apply orb_false_iff in Hb as [Ht Hh%negb_false_iff]; rename o into local end.
  unfold lift_py. destruct (parse_chain a) as [[cpl|]|k] eqn:Ep; [| |pl_go; apply Hun; by intros].
  - do 2 pl_step. cbv beta iota zeta. destruct (reconcile_status local (Some cpl) now) as [new|k] eqn:Er; [|pl_go; apply Hun; by intros].
    assert (∃ resp, a = JObj resp ∧ from_rpc resp = Ok cpl) as (resp & -> & Hf).
    { revert Ep. unfold parse_chain. destruct (jtruthy a); [|done]. destruct a; try done. destruct (from_rpc o) eqn:E; simpl; [|done]. intros [= <-]. by eauto. }
    destruct (Hresp resp eq_refl) as [k Hk].
    pose proof (get_moved now i d x row local new k resp cpl) as Hm.
    pl_go; try (apply Hun; naive_solver).
    all: repeat match goal with
      | Hb : bool_decide _ = true |- _ => apply bool_decide_eq_true in Hb
      | Hb : bool_decide _ = false |- _ => apply bool_decide_eq_false in Hb
      end.
    all: destruct (decide (new = EXPIRED)); try done; by apply Hm.
  - do 2 pl_step. assert (reconcile_status local None now = Ok local) as -> by (unfold reconcile_status; by rewrite Ht).
    pl_go; try (apply Hun; naive_solver); done.
Qed.

Definition must_submit (row : PayLinkRow) : bool :=
  chain_submit_enabled settings && otruthy (chain_tx_hash row).

(** The ends of [cancel], in the order of its guards. *)
Inductive cancel_ends (now : Z) (i caller : string) (d : pldb) (x : world) :
    outcome (exn ErrorCode) PayLinkRow → pldb → world → Prop :=
| cancel_missing :
    paylinks d !! i = None → cancel_ends now i caller d x (Raise (AppError PAYLINK_NOT_FOUND)) d x
| cancel_unauthorized row :
    paylinks d !! i = Some row → caller ∉ [creator_addr row; owner_addr row] →
    cancel_ends now i caller d x (Raise (AppError UNAUTHORIZED)) d x
| cancel_bad_status row :
    paylinks d !! i = Some row → status_of (status row) = None →
    cancel_ends now i caller d x (Raise (PyError ValueError)) d x
| cancel_again row :
    paylinks d !! i = Some row → caller ∈ [creator_addr row; owner_addr row] →
    status_of (status row) = Some CANCELLED →
    cancel_ends now i caller d x (Ok row) d x
| cancel_settled row local :
    paylinks d !! i = Some row → caller ∈ [creator_addr row; owner_addr row] →
    status_of (status row) = Some local → local ∈ [VERIFIED; FAILED] →
    cancel_ends now i caller d x (Raise (AppError PAYLINK_ALREADY_SETTLED)) d x
| cancel_expired row :
    paylinks d !! i = Some row → caller ∈ [creator_addr row; owner_addr row] →
    status_of (status row) = Some EXPIRED →
    cancel_ends now i caller d x (Raise (AppError PAYLINK_EXPIRED_ERR)) d x
| cancel_chain_failed row local e c :
    paylinks d !! i = Some row → caller ∈ [creator_addr row; owner_addr row] →
    status_of (status row) = Some local → local ∈ [CREATED; PENDING] →
    must_submit row = true → sent c = sent (chain_state x) →
    cancel_ends now i caller d x (Raise e) d (mkWorld c (published x) (notified x))
| cancel_done row local c ns :
    paylinks d !! i = Some row → caller ∈ [creator_addr row; owner_addr row] →
    status_of (status row) = Some local → local ∈ [CREATED; PENDING] →
    (if must_submit row then ∃ t, sent c = sent (chain_state x) ++ [t] ∧ tx_from (core t) = address signer
     else c = chain_state x) →
    cancel_ends now i caller d x (Ok (cancelled now row))
      (append_event i PAYLINK_CANCELLED (cancelled_payload i caller) (update_row i (cancelled now) d))
      (mkWorld c (published x ++ [(PAYLINK_CANCELLED, cancelled_payload i caller)]) ns).

Lemma cancel_cases now i caller d x :
  wp (cancel sha256_hex n signer settings now i caller)
    (λ r w, cancel_ends now i caller d x r (db w) (ext w)) (Uow d d x).
Proof.
  unfold cancel. pl_go; [..|by apply cancel_missing]; rename p into row.
  { by eapply cancel_unauthorized; [|eapply bool_decide_eq_true]. }
  match goal with Hb : bool_decide _ = false |- _ =>
    apply bool_decide_eq_false in Hb; apply dec_stable in Hb; rename Hb into Hcaller end.
  assert (Hopen : ∀ l, l ≠ CANCELLED → l ∉ [VERIFIED; FAILED] → l ≠ EXPIRED → l ∈ [CREATED; PENDING]).
  { intros []; set_solver. }
  unfold local_status. pl_go; subst; cbn [ext chain_state published] in *.
  - by eapply cancel_again.
  - by eapply cancel_settled.
  - by eapply cancel_expired.
  - eapply cancel_done; [done..|by apply Hopen|]. unfold must_submit. case_match; [|done].
    by eapply (submit_accepted sha256_hex n signer (SubmitCancel i)).
  - eapply cancel_chain_failed; [done..|by apply Hopen|done|].
    by eapply (submit_raised sha256_hex n signer (SubmitCancel i)).
  - eapply cancel_done; [done..|by apply Hopen|]. unfold must_submit. by case_match.
  - by eapply cancel_bad_status.
Qed.
End behaviour.

(** ** Sequences of requests *)

Inductive req :=
| ReqCreate (now : Z) (fresh : string) (cmd : CreateCommand)
| ReqGet (now : Z) (i : string)
| ReqCancel (now : Z) (i caller : string).

Section system.
Variables (sha256_hex : string → string) (n : node) (signer : Signer).
Variables (settings : Settings) (compliance : option RiskPort).

Definition handle (q : req) : H PayLinkRow :=
  match q with
  | ReqCreate now fresh cmd => create sha256_hex n signer settings compliance now fresh cmd
  | ReqGet now i => get n settings now i
  | ReqCancel now i caller => cancel sha256_hex n signer settings now i caller
  end.

Definition serve (q : req) (s : pldb * world) : pldb * world := (as_action (handle q) s).2.

Definition serve_all (qs : list req) (s : pldb * world) : pldb * world :=
  fold_left (λ s q, serve q s) qs s.

Definition start : pldb * world := (mkDb ∅ [], mkWorld (mkC 0 ∅ [] []) [] []).
End system.

(** The terms of a PayLink: everything but status, chain hash, votes and the
    two later timestamps. *)
Definition same_terms (r r' : PayLinkRow) : Prop :=
  pl_id r' = pl_id r ∧ creator_addr r' = creator_addr r ∧ receiver_addr r' = receiver_addr r ∧
  owner_addr r' = owner_addr r ∧ amount r' = amount r ∧ currency r' = currency r ∧
  expiry r' = expiry r ∧ usage r' = usage r ∧ meta r' = meta r ∧ rules r' = rules r ∧
  created_at r' = created_at r.

(** The moves of the status of an existing PayLink. *)
Inductive edge : OffChainStatus → OffChainStatus → Prop :=
| edge_cancel_created : edge CREATED CANCELLED
| edge_pending s : s ∈ [VERIFIED; FAILED; CANCELLED; EXPIRED] → edge PENDING s
| edge_expired s : s ∈ [PENDING; VERIFIED; FAILED; CANCELLED] → edge EXPIRED s.

(** A row as the service keeps it: a known status, no chain hash while CREATED,
    an amount that fits its column. *)
Definition row_ok (i : string) (r : PayLinkRow) : Prop :=
  pl_id r = i ∧ amount r < numeric38 ∧
  ∃ s, status r = status_value s ∧ (s = CREATED → chain_tx_hash r = None).

Definition db_ok (d : pldb) : Prop := ∀ i r, paylinks d !! i = Some r → row_ok i r.

(** One request's effect on the rows that exist. *)
Definition row_moves (d d' : pldb) : Prop := ∀ i r s, paylinks d !! i = Some r → status r = status_value s →
  ∃ r' s', paylinks d' !! i = Some r' ∧ same_terms r r' ∧ status r' = status_value s' ∧ (s' = s ∨ edge s s').

Lemma same_terms_refl r : same_terms r r.
Proof. by repeat split. Qed.

#[local] Hint Resolve same_terms_refl : py.

Lemma status_value_inj s s' : status_value s = status_value s' → s = s'.
Proof. intros Hs. by destruct s, s'. Qed.

Lemma row_moves_refl d : row_moves d d.
Proof. intros i r s Hr Hs. exists r, s. auto with py. Qed.

(** A step of the service: the database stays well formed and the existing rows
    move along the edges. *)
Definition step_ok (d d' : pldb) : Prop := db_ok d' ∧ row_moves d d'.

Lemma edge_target s s' : edge s s' → s' ≠ CREATED.
Proof. inversion 1; subst; set_solver. Qed.

(** Updating one row along an edge. *)
Lemma update_step d i r s s' f :
  db_ok d → paylinks d !! i = Some r → status r = status_value s → edge s s' →
  same_terms r (f r) → status (f r) = status_value s' →
  step_ok d (update_row i f d).
Proof.
  intros Hd Hr Hs He Hf Hfs. destruct (Hd i r Hr) as (Hi & Ha & _). split.
  - intros j r0. simpl. destruct (decide (j = i)) as [->|Hne].
    + rewrite lookup_alter_eq, Hr. intros [= <-]. destruct Hf as (Hp & _ & _ & _ & Ham & _).
      split_and!; [congruence|lia|]. exists s'. split; [done|]. intros Hcr. by destruct (edge_target _ _ He).
    + rewrite lookup_alter_ne by done. apply Hd.
  - intros j r0 s0 Hj Hs0. simpl. destruct (decide (j = i)) as [->|Hne].
    + assert (r0 = r) as -> by congruence. assert (s0 = s) as -> by (apply status_value_inj; congruence).
      exists (f r), s'. rewrite lookup_alter_eq, Hr. auto.
    + exists r0, s0. rewrite lookup_alter_ne by done. auto with py.
Qed.

(** Adding a row under a new id. *)
Lemma insert_step d i r es :
  db_ok d → paylinks d !! i = None → row_ok i r → step_ok d (mkDb (<[i := r]> (paylinks d)) es).
Proof.
  intros Hd Hn Hr. split.
  - intros j r0. simpl. intros [[<- <-]|[? ?]]%lookup_insert_Some; [done|by apply Hd].
  - intros j r0 s0 Hj Hs0. exists r0, s0. simpl. rewrite lookup_insert_ne by congruence. auto with py.
Qed.

Lemma reconcile_edge local c now new :
  is_terminal local = false → local ≠ CREATED → reconcile_status local (Some c) now = Ok new → new ≠ local → edge local new.
Proof.
  unfold reconcile_status. intros Ht Hc. rewrite Ht. destruct (mapped_status c) as [o|k]; simpl; [|done]. intros [= <-].
  repeat case_match; destruct local; try done; intros;
    (apply edge_pending || apply edge_expired); by apply (bool_decide_unpack _).
Qed.

Section invariants.
Variables (sha256_hex : string → string) (n : node) (signer : Signer).
Variables (settings : Settings) (compliance : option RiskPort).
#[local] Notation serve := (serve sha256_hex n signer settings compliance).
#[local] Notation serve_all := (serve_all sha256_hex n signer settings compliance).

(** A request ends in one of the ends of its operation. *)
Definition ends (q : req) (d : pldb) (x : world) : outcome (exn ErrorCode) PayLinkRow → pldb → world → Prop :=
  match q with
  | ReqCreate now fresh cmd => create_ends settings now (cmd_pl_id sha256_hex fresh cmd) cmd d x
  | ReqGet now i => get_ends n now i d x
  | ReqCancel now i caller => cancel_ends signer settings now i caller d x
  end.

Lemma serve_ends q d x :
  let '(r, (d', x')) := as_action (handle sha256_hex n signer settings compliance q) (d, x) in
  ends q d x r d' x'.
Proof.
  assert (Hw : wp (handle sha256_hex n signer settings compliance q)
    (λ r w, ends q d x r (db w) (ext w)) (Uow d d x)).
  { destruct q; [apply create_cases|apply get_cases|apply cancel_cases]; assumption. }
  unfold as_action. simpl. apply wp_request in Hw. by destruct (request _ d x) as [[r d'] x'].
Qed.

Lemma submitted_row_ok now h i cmd : c_amount cmd < numeric38 →
  row_ok i (submitted now h (new_row now i cmd)).
Proof. intros Ha. split; [done|]. split; [done|]. by exists PENDING. Qed.

Lemma ends_step q d x r d' x' : db_ok d → ends q d x r d' x' → step_ok d d'.
Proof.
  intros Hd He. assert (Hrefl : step_ok d d) by (split; [done|apply row_moves_refl]).
  destruct q as [now fresh cmd|now i|now i caller]; simpl in He; destruct He; try done.
  - apply insert_step; [done|done|]. split; [done|]. split; [done|]. by exists CREATED.
  - unfold opened, update_row, append_event; simpl. rewrite alter_insert_eq.
    by apply insert_step, submitted_row_ok.
  - destruct (Hd i row) as (Hi & _ & s & Hs & Hcr); [done|]. rewrite Hs, status_of_value in *.
    simplify_eq. assert (local ≠ CREATED) by (intros ->; by rewrite Hcr in *).
    assert (step_ok d (update_row (pl_id row) (reconciled now new (Some cpl)) d)); [|by case_decide].
    eapply update_step; [done..|by eapply reconcile_edge|by repeat split|done].
  - destruct (Hd i row) as (Hi & _ & s & Hs & Hcr); [done|]. rewrite Hs, status_of_value in *. simplify_eq.
    assert (step_ok d (update_row (pl_id row) (cancelled now) d)); [|done].
    eapply (update_step d _ row local CANCELLED); [done..| |by repeat split|done].
    set_unfold. destruct_or!; subst; constructor; set_solver.
Qed.

(** Every announced event is in the outbox, in the same order. *)
Lemma ends_outbox q d x r d' x' :
  ends q d x r d' x' → announced d = published x → announced d' = published x'.
Proof.
  unfold announced. intros He Hs.
  destruct q as [now fresh cmd|now i|now i caller]; simpl in He; destruct He; simpl in *; try done;
    rewrite ?fmap_app, ?Hs; try done.
  repeat case_decide; simpl in *; rewrite ?fmap_app, ?Hs; done.
Qed.

Definition system_ok (s : pldb * world) : Prop := db_ok s.1 ∧ announced s.1 = published s.2.

Lemma serve_ok q s : system_ok s → system_ok (serve q s) ∧ row_moves s.1 (serve q s).1.
Proof.
  destruct s as [d x]. intros [Hd Ho]. pose proof (serve_ends q d x) as He. unfold serve.
  destruct (as_action _ (d, x)) as [r [d' x']]. simpl in *.
  destruct (ends_step _ _ _ _ _ _ Hd He). split; [split|]; try done. by eapply ends_outbox.
Qed.

Lemma serve_all_ok qs s :
  system_ok s → system_ok (serve_all qs s) ∧
  ∀ i r st, paylinks s.1 !! i = Some r → status r = status_value st →
    ∃ r' st', paylinks (serve_all qs s).1 !! i = Some r' ∧ same_terms r r' ∧
      status r' = status_value st' ∧ rtc edge st st'.
Proof.
  revert s. induction qs as [|q qs IH]; intros s Hs; simpl.
  { split; [done|]. intros i r st Hr Hst. exists r, st. auto using rtc_refl with py. }
  destruct (serve_ok q s Hs) as [Hok Hm]. destruct (IH _ Hok) as [Hok' Hm']. split; [done|].
  intros i r st Hr Hst. destruct (Hm i r st Hr Hst) as (r1 & st1 & Hr1 & Ht1 & Hs1 & He1).
  destruct (Hm' i r1 st1 Hr1 Hs1) as (r2 & st2 & Hr2 & Ht2 & Hs2 & He2).
  exists r2, st2. split_and!; [done| |done|].
  - unfold same_terms in *. naive_solver congruence.
  - destruct He1 as [->|He1]; [done|by eapply rtc_l].
Qed.

Lemma start_ok : system_ok start.
Proof. split; [|done]. by intros i r Hr. Qed.

Lemma terminal_stuck st st' : is_terminal st = true → rtc edge st st' → st' = st.
Proof. intros Ht. inversion 1 as [|? ? ? He]; [done|]. by inversion He; subst. Qed.

(** A status that a request gives to a row comes from one of the three
    updates. *)
Lemma ends_settled q d x r d' x' i row' st :
  st ∈ [VERIFIED; FAILED] → ends q d x r d' x' →
  paylinks d' !! i = Some row' → status row' = status_value st →
  (∃ row, paylinks d !! i = Some row ∧ status row = status_value st) ∨
  (∃ now j k resp cpl, q = ReqGet now j ∧ read_reply (paylink_getPayLink n k i) = Ok (JObj resp) ∧
     from_rpc resp = Ok cpl ∧ mapped_status cpl = Ok (Some st)).
Proof.
  intros Hst He Hrow Hs. assert (Hn : ∀ s, s ∈ [CREATED; PENDING; CANCELLED] → status_value s ≠ status_value st).
  { intros s Hin Heq%status_value_inj. set_solver. }
  destruct q as [now fresh cmd|now j|now j caller]; simpl in He; destruct He; simpl in *; eauto;
    unfold opened in *; simpl in *.
  - apply lookup_insert_Some in Hrow as [[<- <-]|[_ ?]]; [|eauto].
    by destruct (Hn CREATED); [set_solver|].
  - rewrite alter_insert_eq in Hrow. apply lookup_insert_Some in Hrow as [[<- <-]|[_ ?]]; [|eauto].
    by destruct (Hn PENDING); [set_solver|].
  - assert (Hrow' : alter (reconciled now new (Some cpl)) (pl_id row) (paylinks d) !! i = Some row')
      by (by case_decide).
    destruct (decide (pl_id row = i)) as [<-|Hne]; [|rewrite lookup_alter_ne in Hrow' by done; eauto].
    apply lookup_alter_Some in Hrow' as [(_ & r0 & _ & ->)|[? _]]; [|done].
    right. exists now, j, k, resp, cpl. split_and!; try done.
    simpl in Hs. apply status_value_inj in Hs as <-.
    match goal with Hr : reconcile_status _ _ _ = Ok _, Ht : is_terminal _ = false |- _ => revert Hr; unfold reconcile_status; rewrite Ht end.
    destruct (mapped_status cpl) as [o|e]; simpl; [|done]. intros [= Heq]. f_equal. clear -Heq Hst. set_unfold.
    destruct o as [[]|]; try case_match; subst; naive_solver.
  - apply lookup_alter_Some in Hrow as [(-> & r0 & _ & ->)|[_ ?]]; [|eauto].
    by destruct (Hn CANCELLED); [set_solver|].
Qed.
End invariants.

(** ** The compliance gate *)

Section gate.
Variables (sha256_hex : string → string) (n : node) (signer : Signer).
Variables (settings : Settings) (compliance : option RiskPort).

(** The policy: above the threshold, for an authenticated user, refuse a
    "block" decision, and an unavailable service unless failing open. *)
Definition gate_refuses (cmd : CreateCommand) (i : string) : bool :=
  match compliance, c_user_id cmd with
  | Some port, Some user =>
      compliance_check_enabled settings && (amount_kyc_threshold settings <? c_amount cmd) && truthy user &&
      match @evaluate_risk port user "paylink.create" (c_amount cmd) (c_currency cmd)
              ("paylink.create:" +:+ i) with
      | Some decision => bool_decide (decision = "block")
      | None => negb (compliance_fail_open settings)
      end
  | _, _ => false
  end.

Lemma gate_run cmd i w :
  _compliance_gate settings compliance cmd i w =
    (if gate_refuses cmd i then Raise (AppError KYC_REQUIRED) else Ok tt, w).
Proof.
  unfold _compliance_gate, gate_refuses. destruct compliance as [port|]; [|done].
  destruct (compliance_check_enabled settings); simpl; [|by destruct (c_user_id cmd)].
  rewrite Z.ltb_antisym. destruct (c_amount cmd <=? _); simpl; [by destruct (c_user_id cmd)|].
  destruct (c_user_id cmd) as [user|]; [|done]. destruct (truthy user); simpl; [|done].
  destruct (evaluate_risk _ _ _ _ _) as [dec|]; [by case_bool_decide|by destruct (compliance_fail_open _)].
Qed.

Lemma create_refused_by_gate now fresh cmd d x :
  gate_refuses cmd (cmd_pl_id sha256_hex fresh cmd) = true →
  as_action (create sha256_hex n signer settings compliance now fresh cmd) (d, x) =
    (Raise (AppError KYC_REQUIRED), (d, x)).
Proof.
  intros Hg. unfold as_action, request, create, create_open, mbind, handler_bind.
  rewrite gate_run, Hg. done.
Qed.

Lemma create_not_kyc now fresh cmd d x :
  gate_refuses cmd (cmd_pl_id sha256_hex fresh cmd) = false →
  wp (create sha256_hex n signer settings compliance now fresh cmd)
    (λ r _, r ≠ Raise (AppError KYC_REQUIRED)) (Uow d d x).
Proof.
  intros Hg. unfold create. wp_step. unfold create_open. wp_step. unfold wp at 1.
  rewrite gate_run, Hg. cbn [fst snd]. unfold create_submit. pl_go; try done.
  intros [= ->]. by apply (submit_errors sha256_hex n signer (SubmitCreate _ _ _ _ _ _) _ _ _ KYC_REQUIRED) in Hc.
Qed.
End gate.

(** ** Paging *)

Section paging.
Context (text_lt : relation string) `{!RelDecision text_lt, !StrictOrder text_lt}.
Hypothesis text_lt_total : ∀ a b, text_lt a b ∨ a = b ∨ text_lt b a.
Context `{!CursorCodec}.

#[global] Instance key_lt_strict : StrictOrder (key_lt text_lt).
Proof.
  split.
  - intros [t i] [?|[_ Hi]]; simpl in *; [lia|by destruct (irreflexivity text_lt i)].
  - intros [t1 i1] [t2 i2] [t3 i3] [?|[? ?]] [?|[? ?]]; unfold key_lt; simpl in *; [lia..|].
    right. split; [lia|by etrans].
Qed.

Lemma key_lt_total a b : key_lt text_lt a b ∨ a = b ∨ key_lt text_lt b a.
Proof.
  destruct a as [t i], b as [t' i']. unfold key_lt; simpl.
  destruct (Z.lt_total t t') as [?|[<-|?]]; [auto| |auto].
  destruct (text_lt_total i i') as [?|[<-|?]]; auto.
Qed.

(** Ids are keys of the table, so the keys of the rows are distinct. *)
Lemma matching_keys c r st d : db_ok d → NoDup (row_key <$> matching c r st d).
Proof.
  intros Hd. apply (NoDup_fmap_1 snd). rewrite <- list_fmap_compose.
  assert (Hall : NoDup (pl_id <$> (map_to_list (paylinks d)).*2)).
  { rewrite <- list_fmap_compose. erewrite (list_fmap_ext _ fst); [apply NoDup_fst_map_to_list|].
    intros k [i row] Hk. apply list_elem_of_lookup_2, elem_of_map_to_list in Hk.
    by destruct (Hd i row Hk). }
  unfold matching. revert Hall. generalize ((map_to_list (paylinks d)).*2). clear.
  induction l as [|a l IH]; intros Hnd; [constructor|]. rewrite fmap_cons in Hnd.
  apply NoDup_cons in Hnd as [Ha Hl]. rewrite filter_cons. case_decide; [|by apply IH].
  rewrite fmap_cons. apply NoDup_cons. split; [|by apply IH].
  intros Hin. apply Ha. apply list_elem_of_fmap in Hin as (y & Hy & [_ Hy']%list_elem_of_filter).
  change (pl_id a) with ((snd ∘ row_key) a). rewrite Hy. by apply (list_elem_of_fmap_2 pl_id).
Qed.

Lemma list_all_walk fuel c r st limit cur d x :
  match st with Some v => v ∈ status_value <$> all_statuses | None => True end →
  list_all text_lt fuel c r st limit (encode_cursor <$> cur) (Uow d d x) =
    (Ok (walk row_key (key_lt text_lt) fuel limit cur (matching c r st d)), Uow d d x).
Proof.
  intros Hst. revert cur. induction fuel as [|fuel IH]; intros cur; cbn [list_all walk];
    (assert (list_ text_lt c r st limit (encode_cursor <$> cur) (Uow d d x) =
       (Ok (let '(rows, next) := page row_key (key_lt text_lt) limit cur (matching c r st d) in
        (rows, encode_cursor <$> next)), Uow d d x)) as Hl;
     [unfold list_; destruct st as [v|]; [rewrite bool_decide_eq_false_2 by naive_solver|];
      unfold list_paylinks; destruct cur as [k|]; simpl; rewrite ?decode_encode; done|]);
    unfold mbind at 1, handler_bind at 1; rewrite Hl;
    destruct (page _ _ _ _ _) as [rows [nx|]]; simpl; try done.
  unfold mbind at 1, handler_bind at 1. specialize (IH (Some nx)). simpl in IH. by rewrite IH.
Qed.
End paging.

(** ** The two halves of [create] with a cancel in between *)

Lemma wp_as_action {A} (m : H A) (P : outcome (exn ErrorCode) A → pldb → world → Prop) d x :
  wp m (λ r w, P r (db w) (ext w)) (Uow d d x) →
  let '(r, (d', x')) := as_action m (d, x) in P r d' x'.
Proof.
  intros Hw%wp_request. unfold as_action. simpl. by destruct (request m d x) as [[r d'] x'].
Qed.

Lemma create_open_runs settings now i cmd d x :
  paylinks d !! i = None → 0 ≤ c_amount cmd < numeric38 →
  let '(r, (d', _)) := as_action (create_open settings None now i cmd) (d, x) in
  r = Ok (new_row now i cmd) ∧ d' = opened now i cmd d.
Proof.
  intros Hn Ha. apply (wp_as_action _ (λ r d' _, r = Ok _ ∧ d' = _)). unfold create_open, _compliance_gate.
  assert (Hi : insert_row (new_row now i cmd) d = Ok (mkDb (<[i := new_row now i cmd]> (paylinks d)) (events d))).
  { unfold insert_row. simpl. rewrite Hn. by rewrite (proj2 (Z.leb_gt _ _)) by lia. }
  pl_go; match goal with He : insert_row _ _ = _ |- _ => cbn [tx] in He; rewrite Hi in He; simplify_eq end; done.
Qed.

Lemma cancel_of_opened signer settings now i cmd d x r d' x' :
  cancel_ends signer settings now i (c_caller_addr cmd) (opened now i cmd d) x r d' x' →
  r = Ok (cancelled now (new_row now i cmd)) ∧
  paylinks d' !! i = Some (cancelled now (new_row now i cmd)) ∧
  published x' = published x ++ [(PAYLINK_CANCELLED, cancelled_payload i (c_caller_addr cmd))].
Proof.
  assert (Ho : paylinks (opened now i cmd d) !! i = Some (new_row now i cmd)) by apply lookup_insert_eq.
  assert (Hm : must_submit settings (new_row now i cmd) = false) by (unfold must_submit; by rewrite andb_false_r).
  inversion 1; try rewrite Hm in *; simplify_eq/=; try (congruence || set_solver).
  split_and!; [done| |done]. by rewrite lookup_alter_eq, lookup_insert_eq.
Qed.

Lemma create_submit_runs sha256_hex n signer settings now i cmd d x row :
  chain_submit_enabled settings = true →
  (∀ k a, paylink_getNonce n k a = rpc_ok (JInt 0)) →
  (∀ k t, (paylink_sendTransaction n k t).2 = rpc_ok (JObj [("txHash", JStr (hash t))])) →
  paylinks d !! i = Some row →
  let '(r, (d', x')) :=
    as_action (create_submit sha256_hex n signer settings now cmd (new_row now i cmd)) (d, x) in
  is_ok r = true ∧ (∃ h, paylinks d' !! i = Some (submitted now h row)) ∧
  ∃ l, published x' = published x ++ l.
Proof.
  intros Hs Hn Ht Hr. apply (wp_as_action _ (λ r d' x', is_ok r = true ∧
    (∃ h, paylinks d' !! i = Some (submitted now h row)) ∧ ∃ l, published x' = published x ++ l)).
  unfold create_submit. rewrite Hs. pl_go.
  - split_and!; [done| |by eexists]. exists a. simpl. by rewrite lookup_alter_eq, Hr.
  - exfalso. revert Hc. unfold _submit_create, reserve, get_nonce, send_transaction, _call.
    rewrite Hn. simpl. by rewrite Ht.
Qed.

(** ** Properties *)

(** C2: the lifecycle: after any sequence of creates, reads and cancels, and
    after any further sequence, a PayLink of the first still exists with the
    same terms (parties, amount, currency, expiry, usage, metadata, rules), its
    status has moved only along the edges of the state machine, and once it is
    VERIFIED, FAILED or CANCELLED it never changes again. *)
Theorem lifecycle (sha256_hex : string → string) (n : node) (signer : Signer) (settings : Settings)
    (compliance : option RiskPort) (qs qs' : list req) :
  let run := serve_all sha256_hex n signer settings compliance in
  let s1 := run qs start in
  let s2 := run qs' s1 in
  ∀ i r, paylinks s1.1 !! i = Some r →
    ∃ r' st st', status r = status_value st ∧ paylinks s2.1 !! i = Some r' ∧
      status r' = status_value st' ∧ same_terms r r' ∧ rtc edge st st' ∧
      (is_terminal st = true → st' = st).
Proof.
  intros run s1 s2 i r Hr.
  destruct (serve_all_ok sha256_hex n signer settings compliance qs start start_ok) as [Hok _].
  destruct (proj1 Hok i r Hr) as (_ & _ & st & Hst & _).
  destruct (serve_all_ok sha256_hex n signer settings compliance qs' _ Hok) as [_ Hm].
  destruct (Hm i r st Hr Hst) as (r' & st' & ? & ? & ? & ?).
  exists r', st, st'. split_and!; try done. intros. by apply terminal_stuck.
Qed.

(** the transactional outbox: after any sequence of requests, whatever
    failed on the way, the events published in process are exactly the outbox
    rows committed so far, in order and with the same payloads. *)
Theorem outbox_complete (sha256_hex : string → string) (n : node) (signer : Signer) (settings : Settings)
    (compliance : option RiskPort) (qs : list req) :
  let s := serve_all sha256_hex n signer settings compliance qs start in
  published s.2 = (λ e, (ev_kind e, ev_payload e)) <$> events s.1.
Proof.
  destruct (serve_all_ok sha256_hex n signer settings compliance qs start start_ok) as [[_ Ho] _].
  intros s. symmetry. exact Ho.
Qed.

(** C27: settlement comes only from the chain: if a request leaves a PayLink
    VERIFIED or FAILED that was not so before, the request was a read and the
    node answered an RPC for that id with that very status. *)
Theorem settled_only_from_chain (sha256_hex : string → string) (n : node) (signer : Signer)
    (settings : Settings) (compliance : option RiskPort) (q : req) (d : pldb) (x : world)
    (i : string) (row' : PayLinkRow) (st : OffChainStatus)
    (Hst : st ∈ [VERIFIED; FAILED])
    (Hafter : paylinks (serve sha256_hex n signer settings compliance q (d, x)).1 !! i = Some row')
    (Hrow' : status row' = status_value st)
    (Hbefore : ∀ row, paylinks d !! i = Some row → status row ≠ status_value st) :
  ∃ now j k resp cpl, q = ReqGet now j ∧ read_reply (paylink_getPayLink n k i) = Ok (JObj resp) ∧
    from_rpc resp = Ok cpl ∧ cpl_status cpl = JStr (status_value st).
Proof.
  pose proof (serve_ends sha256_hex n signer settings compliance q d x) as He. unfold serve in Hafter.
  destruct (as_action _ (d, x)) as [r [d' x']]. simpl in Hafter.
  destruct (ends_settled sha256_hex n signer settings q d x r d' x' i row' st Hst He Hafter Hrow')
    as [(row & Hr & Hs)|(now & j & k & resp & cpl & -> & Hk & Hf & Hm)].
  - by destruct (Hbefore row Hr).
  - exists now, j, k, resp, cpl. split_and!; try done. clear -Hm Hst.
    unfold mapped_status, CHAIN_TO_OFFCHAIN in Hm. destruct (cpl_status cpl); try done.
    injection Hm as Hm. repeat case_bool_decide; simplify_eq; set_solver.
Qed.

(** cancel decides by its guards, in their order: unknown id, caller that is
    neither creator nor owner, settled and expired PayLinks are refused with
    nothing changed; a cancelled one is returned as it is; a CREATED or PENDING
    one becomes CANCELLED with its event committed and published, after the
    cancel transaction was accepted when one was needed, and stays as it was
    when the chain refused it. *)
Theorem cancel_spec (sha256_hex : string → string) (n : node) (signer : Signer) (settings : Settings)
    (now : Z) (i caller : string) (d : pldb) (x : world) :
  let '(r, (d', x')) := as_action (cancel sha256_hex n signer settings now i caller) (d, x) in
  cancel_ends signer settings now i caller d x r d' x'.
Proof.
  pose proof (wp_request _ _ d x (cancel_cases sha256_hex n signer settings now i caller d x)) as Hw.
  unfold as_action. simpl. by destruct (request _ d x) as [[r d'] x'].
Qed.

(** the compliance gate is exact: a create is refused with KYC_REQUIRED if
    and only if the policy refuses it, and then nothing is written, published or
    sent. *)
Theorem compliance_gate_exact (sha256_hex : string → string) (n : node) (signer : Signer)
    (settings : Settings) (compliance : option RiskPort) (now : Z) (fresh : string) (cmd : CreateCommand)
    (d : pldb) (x : world) :
  let out := as_action (create sha256_hex n signer settings compliance now fresh cmd) (d, x) in
  (out.1 = Raise (AppError KYC_REQUIRED) ↔
     gate_refuses settings compliance cmd (cmd_pl_id sha256_hex fresh cmd) = true) ∧
  (out.1 = Raise (AppError KYC_REQUIRED) → out.2 = (d, x)).
Proof.
  intros out. destruct (gate_refuses settings compliance cmd _) eqn:Hg.
  - unfold out. by rewrite (create_refused_by_gate _ _ _ _ _ _ _ _ _ _ Hg).
  - pose proof (create_not_kyc sha256_hex n signer settings compliance now fresh cmd d x Hg) as Hw.
    apply (wp_request _ (λ r _ _, r ≠ Raise (AppError KYC_REQUIRED))) in Hw.
    unfold out, as_action. simpl. destruct (request _ d x) as [[r d'] x']. simpl in *. naive_solver.
Qed.

(** a create with an Idempotency-Key whose chain submission failed can
    never be completed by retrying it: the retry derives the same id, so every
    later attempt with that key is refused and changes nothing, whatever the
    chain answers then. *)
Theorem failed_create_cannot_be_retried (sha256_hex : string → string) (n n' : node) (signer : Signer)
    (settings : Settings) (compliance : option RiskPort) (now now' : Z) (fresh fresh' key : string)
    (cmd : CreateCommand) (d d1 : pldb) (x x1 x2 : world) (e : exn ErrorCode)
    (Hkey : c_idem_key cmd = Some key) (Htruthy : truthy key = true)
    (Hfail : as_action (create sha256_hex n signer settings compliance now fresh cmd) (d, x)
             = (Raise e, (d1, x1)))
    (Hwrote : d1 ≠ d) :
  ∃ e', as_action (create sha256_hex n' signer settings compliance now' fresh' cmd) (d1, x2)
        = (Raise e', (d1, x2)).
Proof.
  assert (Hid : ∀ f, cmd_pl_id sha256_hex f cmd = cmd_pl_id sha256_hex "" cmd).
  { intros f. unfold cmd_pl_id, new_pl_id. by rewrite Hkey; simpl; rewrite Htruthy. }
  pose proof (serve_ends sha256_hex n signer settings compliance (ReqCreate now fresh cmd) d x) as H1.
  simpl in H1. rewrite Hfail, Hid in H1. inversion H1 as [|? ? ? Hnone| ]; subst; [done|].
  pose proof (serve_ends sha256_hex n' signer settings compliance (ReqCreate now' fresh' cmd)
    (opened now (cmd_pl_id sha256_hex "" cmd) cmd d) x2) as H2.
  cbn [handle] in H2. cbn [ends] in H2. rewrite (Hid fresh') in H2.
  assert (Hin : paylinks (opened now (cmd_pl_id sha256_hex "" cmd) cmd d) !! cmd_pl_id sha256_hex "" cmd ≠ None).
  { simpl. by rewrite lookup_insert_eq. }
  destruct (as_action (create sha256_hex n' signer settings compliance now' fresh' cmd) _) as [r2 [d2 x3]].
  inversion H2; subst; [by eexists|done|done].
Qed.

(** listing is complete: from any table of the service, following the
    cursors of a filtered list to the end returns every matching PayLink exactly
    once, newest first, for any page size. *)
Theorem list_is_complete (text_lt : relation string) `{!RelDecision text_lt, !StrictOrder text_lt}
    `{!CursorCodec} (creator receiver st : option string) (limit fuel : nat) (d : pldb) (x : world)
    (Htotal : ∀ a b, text_lt a b ∨ a = b ∨ text_lt b a)
    (Hd : db_ok d) (Hlimit : (0 < limit)%nat)
    (Hfuel : (length (matching creator receiver st d) ≤ fuel)%nat)
    (Hst : match st with Some v => v ∈ status_value <$> all_statuses | None => True end) :
  ∃ rows, list_all text_lt fuel creator receiver st limit None (Uow d d x) = (Ok rows, Uow d d x) ∧
    rows ≡ₚ matching creator receiver st d ∧
    StronglySorted (desc row_key (key_lt text_lt)) rows.
Proof.
  pose proof (list_all_walk text_lt fuel creator receiver st limit None d x Hst) as Hl.
  simpl in Hl. eexists. split; [exact Hl|].
  pose proof (key_lt_total text_lt Htotal) as Htot.
  rewrite walk_complete by (done || apply _ || by apply matching_keys).
  split; [apply merge_sort_Permutation|by apply sorted_rows; try apply _].
Qed.

(** a cancel that lands while a create waits for the chain is lost: the
    cancel of the freshly opened PayLink succeeds and is announced, and when the
    submission is then accepted the create writes PENDING over CANCELLED. *)
Theorem cancel_lost_in_create (sha256_hex : string → string) (n : node) (signer : Signer)
    (settings : Settings) (now : Z) (i : string) (cmd : CreateCommand) (d : pldb) (x : world)
    (Hnew : paylinks d !! i = None) (Hamount : 0 ≤ c_amount cmd < numeric38)
    (Hsubmit : chain_submit_enabled settings = true)
    (Hnonce : ∀ k a, paylink_getNonce n k a = rpc_ok (JInt 0))
    (Hsend : ∀ k t, (paylink_sendTransaction n k t).2 = rpc_ok (JObj [("txHash", JStr (hash t))])) :
  let '(r1, s1) := as_action (create_open settings None now i cmd) (d, x) in
  let '(r2, s2) := as_action (cancel sha256_hex n signer settings now i (c_caller_addr cmd)) s1 in
  let '(r3, s3) := as_action (create_submit sha256_hex n signer settings now cmd (new_row now i cmd)) s2 in
  r1 = Ok (new_row now i cmd) ∧
  (∃ row, r2 = Ok row ∧ paylinks s2.1 !! i = Some row ∧ status row = status_value CANCELLED) ∧
  (∃ row, is_ok r3 = true ∧ paylinks s3.1 !! i = Some row ∧ status row = status_value PENDING) ∧
  PAYLINK_CANCELLED ∈ (published s3.2).*1.
Proof.
  pose proof (create_open_runs settings now i cmd d x Hnew Hamount) as H1.
  destruct (as_action (create_open settings None now i cmd) (d, x)) as [r1 [d1 x1]].
  destruct H1 as [-> ->]. pose proof (cancel_cases sha256_hex n signer settings now i (c_caller_addr cmd)
    (opened now i cmd d) x1) as H2. apply wp_as_action in H2.
  destruct (as_action (cancel _ _ _ _ _ _ _) _) as [r2 [d2 x2]].
  apply cancel_of_opened in H2 as (-> & Hd2 & Hx2).
  pose proof (create_submit_runs sha256_hex n signer settings now i cmd d2 x2 _ Hsubmit Hnonce Hsend Hd2) as H3.
  destruct (as_action (create_submit _ _ _ _ _ _ _) _) as [r3 [d3 x3]].
  destruct H3 as (Hr3 & [h Hh] & l & Hl). simpl. rewrite Hl, Hx2, !fmap_app.
  split_and!; [done|by eauto|by eauto|set_solver].
Qed.

(** ** Witnesses *)

Definition demo_settings : Settings := mkSettings true true 1000 false true "KES".

Definition demo_cmd (key : option string) : CreateCommand :=
  mkCmd "0xr" 2500 "KES" 4102444800000000 "single" None None key "0xc" (Some "u1").

Definition demo_id : string := cmd_pl_id id "f" (demo_cmd None).

(** A node that has settled every PayLink it is asked about. *)
Definition settled_reply : list (string * json) :=
  [("id", JStr "0x"); ("creator", JStr "0xc"); ("receiver", JStr "0xr"); ("owner", JStr "0xc");
   ("amount", JInt 2500); ("expiry", JInt 4102444800); ("status", JStr "VERIFIED"); ("voteCount", JInt 3)].

Definition settled_node : node :=
  mkNode (λ _ _, rpc_ok (JInt 0)) (λ _ t, (true, rpc_ok (JObj [("txHash", JStr (hash t))]))) (λ _ _, rpc_ok (JObj settled_reply)).

(** A node that is down. *)
Definition down_node : node := mkNode (λ _ _, HttpError) (λ _ _, (false, HttpError)) (λ _ _, HttpError).

Definition demo_run (n : node) (qs : list req) (s : pldb * world) : pldb * world :=
  serve_all id n demo_signer demo_settings None qs s.

Lemma lifecycle_witness :
  let s1 := demo_run settled_node [ReqCreate 1 "f" (demo_cmd None)] start in
  let s2 := demo_run settled_node [ReqGet 2 demo_id] s1 in
  ∃ r, paylinks s1.1 !! demo_id = Some r ∧
  ∃ r' st st', status r = status_value st ∧ paylinks s2.1 !! demo_id = Some r' ∧
    status r' = status_value st' ∧ same_terms r r' ∧ rtc edge st st' ∧ (is_terminal st = true → st' = st).
Proof.
  intros s1 s2. destruct (paylinks s1.1 !! demo_id) as [r|] eqn:E; [|vm_compute in E; discriminate].
  exists r. split; [reflexivity|].
  exact (lifecycle id settled_node demo_signer demo_settings None
    [ReqCreate 1 "f" (demo_cmd None)] [ReqGet 2 demo_id] demo_id r E).
Defined.

Lemma settled_only_from_chain_witness :
  let s1 := demo_run settled_node [ReqCreate 1 "f" (demo_cmd None)] start in
  ∃ now j k resp cpl, ReqGet 2 demo_id = ReqGet now j ∧
    read_reply (paylink_getPayLink settled_node k demo_id) = Ok (JObj resp) ∧
    from_rpc resp = Ok cpl ∧ cpl_status cpl = JStr (status_value VERIFIED).
Proof.
  intros s1.
  destruct (paylinks (serve id settled_node demo_signer demo_settings None (ReqGet 2 demo_id) (s1.1, s1.2)).1
            !! demo_id) as [r|] eqn:E; [|vm_compute in E; discriminate].
  apply (settled_only_from_chain id settled_node demo_signer demo_settings None (ReqGet 2 demo_id)
    s1.1 s1.2 demo_id r VERIFIED).
  - apply (bool_decide_unpack _). vm_compute. exact I.
  - exact E.
  - vm_compute in E. injection E as <-. reflexivity.
  - intros row Hr. vm_compute in Hr. injection Hr as <-. vm_compute. discriminate.
Defined.

Definition blocking_port : RiskPort := λ _ _ _ _ _, Some "block".

Lemma compliance_gate_exact_witness :
  gate_refuses demo_settings (Some blocking_port) (demo_cmd None) demo_id = true ∧
  (as_action (create id settled_node demo_signer demo_settings (Some blocking_port) 1 "f" (demo_cmd None)) start).2
    = start.
Proof.
  pose proof (compliance_gate_exact id settled_node demo_signer demo_settings (Some blocking_port) 1 "f"
    (demo_cmd None) start.1 start.2) as [Hiff Hnone].
  split; [vm_compute; reflexivity|]. apply Hnone, Hiff. vm_compute. reflexivity.
Defined.

Lemma failed_create_cannot_be_retried_witness :
  ∃ e d1 x1 e',
    as_action (create id down_node demo_signer demo_settings None 1 "f" (demo_cmd (Some "k"))) start
      = (Raise e, (d1, x1)) ∧ d1 ≠ start.1 ∧
    as_action (create id settled_node demo_signer demo_settings None 9 "g" (demo_cmd (Some "k"))) (d1, x1)
      = (Raise e', (d1, x1)).
Proof.
  destruct (as_action (create id down_node demo_signer demo_settings None 1 "f" (demo_cmd (Some "k"))) start)
    as [[r|e] [d1 x1]] eqn:E; [vm_compute in E; discriminate|].
  assert (Hd : d1 ≠ start.1) by (vm_compute in E; injection E as _ <- _; discriminate).
  destruct (failed_create_cannot_be_retried id down_node settled_node demo_signer demo_settings None 1 9 "f" "g" "k"
    (demo_cmd (Some "k")) start.1 d1 start.2 x1 x1 e eq_refl eq_refl E Hd) as [e' He'].
  exists e, d1, x1, e'. auto.
Defined.

(** A cursor text: the timestamp and the id separated by a bar. *)
Definition read_ts (s : string) : outcome pyerr Z :=
  match read 1 (chars s) with Some (JInt z, []) => Ok z | _ => Raise ValueError end.

#[refine] Instance demo_codec : CursorCodec := {
  encode_cursor c := str_Z c.1 +:+ "|" +:+ c.2;
  decode_cursor t := match cut "|"%char t with
                     | Some (a, b) => let? z := read_ts a in Ok (z, b)
                     | None => Raise ValueError
                     end }.
Proof.
  intros [z i]. simpl. destruct (cut "|"%char (str_Z z +:+ "|" +:+ i)) as [[a b]|] eqn:E.
  - apply cut_spec in E as [E Ha]. apply (app_sep_inj "|"%char) in E as [<- <-]; [|apply str_Z_no_bar|done].
    unfold read_ts, str_Z. rewrite chars_text, <- (app_nil_r (print_Z z)), read_print_Z by done. done.
  - unfold cut in E. destruct (cut_chars "|"%char (chars (str_Z z +:+ "|" +:+ i))) as [[]|] eqn:E'; [done|].
    apply cut_chars_none in E'. exfalso. apply E'. clear. induction (str_Z z); simpl; set_solver.
Defined.

(** An order on text ids. *)
Definition code_lt : relation string := λ a b, (encode a < encode b)%positive.

#[global] Instance code_lt_dec : RelDecision code_lt.
Proof. intros a b. unfold code_lt. apply _. Defined.

#[global] Instance code_lt_strict : StrictOrder code_lt.
Proof. split; unfold code_lt; intros ?; unfold complement; lia. Qed.

Lemma code_lt_total a b : code_lt a b ∨ a = b ∨ code_lt b a.
Proof.
  unfold code_lt. destruct (Pos.lt_total (encode a) (encode b)) as [?|[?%(inj encode)|?]]; auto.
Qed.

Definition listed : pldb * world :=
  demo_run settled_node [ReqCreate 1 "f" (demo_cmd None); ReqCreate 2 "g" (demo_cmd None);
                         ReqCreate 2 "h" (demo_cmd None)] start.

Lemma listed_ok : db_ok listed.1.
Proof.
  exact (proj1 (proj1 (serve_all_ok id settled_node demo_signer demo_settings None _ _ start_ok))).
Qed.

Lemma list_is_complete_witness :
  length (matching (Some "0xc") None (Some "PENDING") listed.1) = 3%nat ∧
  ∃ rows, list_all code_lt 3 (Some "0xc") None (Some "PENDING") 2 None (Uow listed.1 listed.1 listed.2)
            = (Ok rows, Uow listed.1 listed.1 listed.2) ∧
    rows ≡ₚ matching (Some "0xc") None (Some "PENDING") listed.1 ∧
    StronglySorted (desc row_key (key_lt code_lt)) rows.
Proof.
  split; [vm_compute; reflexivity|].
  apply (list_is_complete code_lt (Some "0xc") None (Some "PENDING") 2 3 listed.1 listed.2).
  - exact code_lt_total.
  - exact listed_ok.
  - lia.
  - apply (bool_decide_unpack _). vm_compute. exact I.
  - apply (bool_decide_unpack _). vm_compute. exact I.
Defined.

Lemma cancel_lost_in_create_witness :
  let '(r1, s1) := as_action (create_open demo_settings None 1 "0xp" (demo_cmd None)) start in
  let '(r2, s2) := as_action (cancel id demo_node demo_signer demo_settings 1 "0xp" "0xc") s1 in
  let '(r3, s3) := as_action (create_submit id demo_node demo_signer demo_settings 1 (demo_cmd None)
                               (new_row 1 "0xp" (demo_cmd None))) s2 in
  r1 = Ok (new_row 1 "0xp" (demo_cmd None)) ∧
  (∃ row, r2 = Ok row ∧ paylinks s2.1 !! "0xp" = Some row ∧ status row = status_value CANCELLED) ∧
  (∃ row, is_ok r3 = true ∧ paylinks s3.1 !! "0xp" = Some row ∧ status row = status_value PENDING) ∧
  PAYLINK_CANCELLED ∈ (published s3.2).*1.
Proof.
  apply (cancel_lost_in_create id demo_node demo_signer demo_settings 1 "0xp" (demo_cmd None) start.1 start.2).
  - reflexivity.
  - vm_compute. split; [discriminate|reflexivity].
  - reflexivity.
  - reflexivity.
  - reflexivity.
Defined.

(** The address pattern lets one newline through at the end. *)
Example receiver_with_newline :
  is_ok (_validate_receiver ("0x00000000000000000000000000000000000000aA" +:+ text [ascii_of_N 10])) = true.
Proof. vm_compute. reflexivity. Qed.

End PayLink.
