(* ===== verification/Pricing.v ===== *)
(** * fee-pricing-service: quotes, FX locking and platform-fee invoicing

    [fee-pricing-service/app]: [domain/models.py] (quote arithmetic on
    [Decimal]), [domain/fx_service.py], [domain/pricing_service.py],
    [domain/invoicing_service.py], [domain/rbac.py], [events/consumer.py] and the
    queries of [db/repositories.py].  Money is integer minor units; the FX
    provider is a parameter; the Redis cache of rates is a map with expiry
    times.  [uuid4()] results come from a stream indexed by their use. *)
From S2P Require Import Prelude PyText PyDecimal PyJson UnitOfWork.
From Stdlib Require Import Ascii.

Module Pricing.
Open Scope Z_scope.

(** ** errors.py *)

Inductive ErrorCode :=
| INVALID_PAYLOAD | INVALID_QUERY | IDEMPOTENT_CONFLICT | UNAUTHORIZED | FORBIDDEN | INTERNAL_ERROR
| INVALID_TOKEN | TOKEN_EXPIRED | ORG_NOT_FOUND
| TIER_NOT_FOUND | RAIL_NOT_FOUND | MERCHANT_PRICING_NOT_FOUND | FEE_EXCEEDS_GROSS | FX_UNAVAILABLE
| INVALID_PERIOD.

(** ** domain/models.py: the quote arithmetic *)

Definition BPS_DENOM : Z := 10000.

Definition DEFAULT_TIER : string := "standard".

Definition Rails : list string := ["mpesa"; "card"; "bank"; "crypto"].

Record TierFee := mkTierFee {
  tier_name : string; platform_pct_bps : Z; platform_fixed : Z; tier_fixed_currency : string }.

Record RailFee := mkRailFee {
  rail_name : string; pct_bps : Z; fixed : Z; rail_fixed_currency : string }.

Record Rate := mkRate { base : string; quote_ccy : string; rate : dec; source : string; fetched_at : Z }.

Record QuoteResult := mkQuote {
  q_gross : Z;
  q_currency : string;
  q_gross_settled : Z;
  q_settle_currency : string;
  q_platform_pct_amount : Z;
  q_platform_fixed_amount : Z;
  q_platform_fee : Z;
  q_rail_pct_amount : Z;
  q_rail_fixed_amount : Z;
  q_rail_fee : Z;
  q_net : Z;
  q_fx : option Rate }.

Notation result := (outcome (exn ErrorCode)).

Definition fail {A} (c : ErrorCode) : result A := Raise (AppError c).

Definition _round0 (value : dec) : result Z :=
  match quantize0 value with Some z => Ok z | None => Raise (PyError InvalidOperation) end.

(** [Decimal(amount) * bps / BPS_DENOM] *)
Definition bps_of (amount bps : Z) : result Z :=
  match dec_div (dec_mul (dec_int amount) (dec_int bps)) (dec_int BPS_DENOM) with
  | Some d => _round0 d
  | None => Raise (PyError InvalidOperation)
  end.

Definition _convert (amount : Z) (from_ccy settle_ccy : string) (fx : option Rate) : result Z :=
  if (amount =? 0) || bool_decide (from_ccy = settle_ccy) then Ok amount
  else match fx with
  | Some r => if bool_decide (base r = from_ccy) && bool_decide (quote_ccy r = settle_ccy)
              then _round0 (dec_mul (dec_int amount) (rate r))
              else fail FX_UNAVAILABLE
  | None => fail FX_UNAVAILABLE
  end.

(** Step 1: the gross in the settlement currency, and the rate used. *)
Definition settle_gross (gross_minor : Z) (currency settle_currency : string) (fx : option Rate) :
    result (Z * option Rate) :=
  if bool_decide (currency = settle_currency) then Ok (gross_minor, None)
  else match fx with
  | Some r =>
      if bool_decide (base r = currency) && bool_decide (quote_ccy r = settle_currency)
      then let? g := _round0 (dec_mul (dec_int gross_minor) (rate r)) in Ok (g, Some r)
      else fail FX_UNAVAILABLE
  | None => fail FX_UNAVAILABLE
  end.

Definition compute_quote (gross_minor : Z) (currency0 settle_currency0 : string)
    (tier : TierFee) (rail : RailFee) (fx : option Rate) : result QuoteResult :=
  let currency := upper currency0 in
  let settle_currency := upper settle_currency0 in
  let? '(gross_settled, fx_used) := settle_gross gross_minor currency settle_currency fx in
  let? platform_pct := bps_of gross_settled (platform_pct_bps tier) in
  let? platform_fix := _convert (platform_fixed tier) (upper (tier_fixed_currency tier)) settle_currency fx_used in
  let platform_fee := platform_pct + platform_fix in
  let? rail_pct := bps_of gross_settled (pct_bps rail) in
  let? rail_fix := _convert (fixed rail) (upper (rail_fixed_currency rail)) settle_currency fx_used in
  let rail_fee := rail_pct + rail_fix in
  let net := gross_settled - platform_fee - rail_fee in
  if net <? 0 then fail FEE_EXCEEDS_GROSS
  else Ok (mkQuote gross_minor currency gross_settled settle_currency platform_pct platform_fix platform_fee
             rail_pct rail_fix rail_fee net fx_used).

(** ** db/models.py *)

Record TierRow := mkTierRow {
  t_tier : string; t_display_name : string; t_pct_bps : Z; t_fixed : Z; t_fixed_currency : string; t_active : bool }.

Record RailFeeRow := mkRailRow {
  rf_rail : string; rf_tier : option string; rf_pct_bps : Z; rf_fixed : Z; rf_fixed_currency : string; rf_active : bool }.

Record MerchantPricingRow := mkMP {
  mp_org_id : option uuid; mp_tier : string; mp_source : string; mp_effective_at : Z }.

Record QuoteRow := mkQuoteRow {
  quote_id : uuid; qr_merchant : uuid; qr_tier : string; qr_rail : string; qr_gross : Z;
  qr_currency : string; qr_settle_currency : string; qr_platform_fee : Z; qr_rail_fee : Z; qr_net : Z;
  qr_fx : option (string * string * dec); qr_breakdown : json }.

Record FxRateRow := mkFxRow { fx_base : string; fx_quote : string; fx_rate : dec; fx_source : string }.

Record AccrualRow := mkAccrual {
  a_id : Z; a_merchant : uuid; a_period : string; a_amount : Z; a_currency : string; a_source_ref : string;
  a_quote_id : option uuid; a_invoice_id : option uuid; a_occurred_at : Z }.

Record InvoiceRow := mkInvoice {
  i_id : uuid; i_merchant : uuid; i_period : string; i_currency : string; i_total_fee : Z;
  i_line_count : Z; i_status : string }.

Record PricingEventRow := mkPEvent { pe_entity : string; pe_kind : string; pe_payload : json }.

Record pdb := mkPdb {
  tiers : gmap string TierRow;
  rail_fees : list RailFeeRow;
  merchant_pricing : gmap uuid MerchantPricingRow;
  quotes : list QuoteRow;
  fx_rates : list FxRateRow;
  accruals : list AccrualRow;
  next_accrual : Z;
  invoices : list InvoiceRow;
  pricing_events : list PricingEventRow }.

(** Outside the database: the rate cache (value and expiry), the events
    published in process, the ledger posts. *)
Record pworld := mkPW {
  cache : gmap string (Rate * Z); p_published : list (string * json); ledger_posts : list uuid }.

Notation H := (handler pdb pworld ErrorCode).

Definition numeric38 : Z := 10 ^ 38.

(** ** db/repositories.py *)

Definition get_tier (t : string) (d : pdb) : option TierRow := tiers d !! t.

(** [WHERE rail = .. AND active AND (tier = .. OR tier IS NULL)
    ORDER BY tier IS NULL LIMIT 1] *)
Definition get_rail_fee (rail tier : string) (d : pdb) : option RailFeeRow :=
  let eligible := filter (λ r, rf_rail r = rail ∧ rf_active r = true ∧
                               (rf_tier r = Some tier ∨ rf_tier r = None)) (rail_fees d) in
  match filter (λ r, rf_tier r ≠ None) eligible with
  | r :: _ => Some r
  | [] => head eligible
  end.

Definition put_merchant_pricing (now : Z) (m : uuid) (tier src : string) (org : option uuid) (d : pdb) : pdb :=
  let row := match merchant_pricing d !! m with
             | None => mkMP org tier src now
             | Some old => mkMP (match org with Some o => Some o | None => mp_org_id old end) tier src now
             end in
  mkPdb (tiers d) (rail_fees d) (<[m := row]> (merchant_pricing d)) (quotes d) (fx_rates d) (accruals d)
    (next_accrual d) (invoices d) (pricing_events d).

(** A NUMERIC(38, 18) column keeps 18 decimals, halves away from zero, and 38 digits. *)
Definition round18 (d : dec) : dec := Dec (half_up (Dec (coef d) (expo d + 18))) (-18).
Definition fits18 (d : dec) : bool := Z.abs (coef (round18 d)) <? numeric38.

(** The row as its columns keep it. *)
Definition stored_quote (row : QuoteRow) : outcome pyerr QuoteRow :=
  if numeric38 <=? Z.max (Z.max (Z.abs (qr_gross row)) (Z.abs (qr_platform_fee row)))
                     (Z.max (Z.abs (qr_rail_fee row)) (Z.abs (qr_net row))) then Raise DataError
  else if negb (match qr_fx row with Some (_, _, rate) => fits18 rate | None => true end) then Raise DataError
  else Ok (mkQuoteRow (quote_id row) (qr_merchant row) (qr_tier row) (qr_rail row) (qr_gross row) (qr_currency row)
             (qr_settle_currency row) (qr_platform_fee row) (qr_rail_fee row) (qr_net row)
             ((λ '(b, q, rate), (b, q, round18 rate)) <$> qr_fx row) (qr_breakdown row)).

Definition put_quote (row : QuoteRow) (d : pdb) : outcome pyerr pdb :=
  let? row := stored_quote row in
  if bool_decide (quote_id row ∈ quote_id <$> quotes d) then Raise IntegrityError
  else Ok (mkPdb (tiers d) (rail_fees d) (merchant_pricing d) (quotes d ++ [row]) (fx_rates d) (accruals d)
             (next_accrual d) (invoices d) (pricing_events d)).

Definition put_fx_rate (row : FxRateRow) (d : pdb) : outcome pyerr pdb :=
  if fits18 (fx_rate row) then
    Ok (mkPdb (tiers d) (rail_fees d) (merchant_pricing d) (quotes d)
          (fx_rates d ++ [mkFxRow (fx_base row) (fx_quote row) (round18 (fx_rate row)) (fx_source row)]) (accruals d)
          (next_accrual d) (invoices d) (pricing_events d))
  else Raise DataError.

Definition put_event (entity kind : string) (payload : json) (d : pdb) : pdb :=
  mkPdb (tiers d) (rail_fees d) (merchant_pricing d) (quotes d) (fx_rates d) (accruals d)
    (next_accrual d) (invoices d) (pricing_events d ++ [mkPEvent entity kind payload]).

Definition set_accruals (l : list AccrualRow) (n : Z) (d : pdb) : pdb :=
  mkPdb (tiers d) (rail_fees d) (merchant_pricing d) (quotes d) (fx_rates d) l n (invoices d) (pricing_events d).

Definition find_accrual (m : uuid) (ref : string) (d : pdb) : option AccrualRow :=
  head (filter (λ a, a_merchant a = m ∧ a_source_ref a = ref) (accruals d)).

(** A filter that applies only when it is given. *)
Definition opt_is (o : option uuid) (v : uuid) : bool :=
  match o with Some x => bool_decide (v = x) | None => true end.

Definition unbilled_accruals (period : string) (m : option uuid) (d : pdb) : list AccrualRow :=
  merge_sort (λ a b, (a_merchant a < a_merchant b)%N ∨ a_merchant a = a_merchant b ∧ a_id a ≤ a_id b)
    (filter (λ a, a_period a = period ∧ a_invoice_id a = None ∧
                  opt_is m (a_merchant a) = true) (accruals d)).

Definition mark_accruals_invoiced (ids : list Z) (inv : uuid) (d : pdb) : pdb :=
  set_accruals ((λ a, if bool_decide (a_id a ∈ ids)
                      then mkAccrual (a_id a) (a_merchant a) (a_period a) (a_amount a) (a_currency a)
                             (a_source_ref a) (a_quote_id a) (Some inv) (a_occurred_at a)
                      else a) <$> accruals d) (next_accrual d) d.

Definition get_invoice_for_period (m : uuid) (period : string) (d : pdb) : option InvoiceRow :=
  head (filter (λ i, i_merchant i = m ∧ i_period i = period) (invoices d)).

(** The primary key and the unique constraint on merchant and period. *)
Definition put_invoice (row : InvoiceRow) (d : pdb) : outcome pyerr pdb :=
  if bool_decide (i_id row ∈ i_id <$> invoices d) then Raise IntegrityError
  else if bool_decide ((i_merchant row, i_period row) ∈ (λ i, (i_merchant i, i_period i)) <$> invoices d)
  then Raise IntegrityError
  else if numeric38 <=? Z.abs (i_total_fee row) then Raise DataError
  else Ok (mkPdb (tiers d) (rail_fees d) (merchant_pricing d) (quotes d) (fx_rates d) (accruals d)
             (next_accrual d) (invoices d ++ [row]) (pricing_events d)).

(** ** domain/fx_service.py *)

(** What [get_rate] of the configured provider answers, per call. *)
Definition provider : Type := string → string → option Rate.

Record Settings := mkSettings {
  service_name : string;
  fx_cache_ttl_seconds : Z;
  fx_fallback : gmap (string * string) dec;
  ledger_posting_enabled : bool;
  default_currency : string }.

Definition PRICING_FEE_QUOTE_ISSUED : string := "pricing.fee_quote.issued".
Definition FX_RATE_UPDATED : string := "fx.rate.updated".
Definition INVOICE_PLATFORM_FEE_ISSUED : string := "invoice.platform_fee.issued".

Definition publish (kind : string) (payload : json) : H unit :=
  effect (λ x, mkPW (cache x) (p_published x ++ [(kind, payload)]) (ledger_posts x)).

Definition add_event (entity kind : string) (payload : json) : H unit := write (put_event entity kind payload).

Section service.
Variables (settings : Settings) (fx_provider : provider).
(** Texts of the values the events carry. *)
Variables (uuid_str : uuid → string) (dec_str : dec → string).

Definition _cache_key (b q : string) : string :=
  service_name settings +:+ ":fx:" +:+ b +:+ ":" +:+ q.

Definition cached (now : Z) (key : string) (x : pworld) : option Rate :=
  match cache x !! key with
  | Some (r, e) => if now <? e then Some r else None
  | None => None
  end.

Definition fx_payload (b q : string) (r : Rate) : json :=
  JObj [("base", JStr b); ("quote", JStr q); ("rate", JStr (dec_str (rate r)));
        ("source", JStr (source r)); ("fetched_at", JInt (fetched_at r))].

(** The provider's rate, else the fallback table's. *)
Definition fetch_rate (now : Z) (b q : string) : option Rate :=
  match fx_provider b q with
  | Some r => Some r
  | None => match fx_fallback settings !! (b, q) with
            | Some v => Some (mkRate b q v "fallback" now)
            | None => None
            end
  end.

Definition rate_for (now : Z) (base0 quote0 : string) : H Rate :=
  let b := upper base0 in
  let q := upper quote0 in
  if bool_decide (b = q) then mret (mkRate b q (dec_int 1) "identity" now)
  else
    hit ← observe (cached now (_cache_key b q));
    match hit with
    | Some r => mret r
    | None =>
        match fetch_rate now b q with
        | None => raise FX_UNAVAILABLE
        | Some r =>
            effect (λ x, mkPW (<[_cache_key b q := (r, now + fx_cache_ttl_seconds settings)]> (cache x))
                           (p_published x) (ledger_posts x)) ;;
            try_write (put_fx_rate (mkFxRow b q (rate r) (source r))) ;;
            add_event (b +:+ ":" +:+ q) FX_RATE_UPDATED (fx_payload b q r) ;;
            publish FX_RATE_UPDATED (fx_payload b q r) ;;
            commit ;;
            mret r
        end
    end.

(** ** domain/pricing_service.py *)

Definition _tier_fee (t : string) : H TierFee :=
  row ← query (get_tier t);
  match row with
  | Some r => if t_active r then mret (mkTierFee (t_tier r) (t_pct_bps r) (t_fixed r) (t_fixed_currency r))
              else raise TIER_NOT_FOUND
  | None => raise TIER_NOT_FOUND
  end.

Definition _rail_fee (rail tier : string) : H RailFee :=
  row ← query (get_rail_fee rail tier);
  match row with
  | Some r => mret (mkRailFee (rf_rail r) (rf_pct_bps r) (rf_fixed r) (rf_fixed_currency r))
  | None => raise RAIL_NOT_FOUND
  end.

Definition _resolve_merchant_tier (m : uuid) : H string :=
  query (λ d, match merchant_pricing d !! m with Some mp => mp_tier mp | None => DEFAULT_TIER end).

Record MerchantPricingView := mkView {
  v_org_id : option uuid; v_tier : string; v_display_name : string; v_pct_bps : Z; v_fixed : Z;
  v_fixed_currency : string; v_rail_fees : list RailFeeRow; v_effective_at : Z }.

Definition get_merchant_pricing_view (m : uuid) : H MerchantPricingView :=
  mp ← query (λ d, merchant_pricing d !! m);
  match mp with
  | None => raise MERCHANT_PRICING_NOT_FOUND
  | Some mp => query (λ d,
      let t := get_tier (mp_tier mp) d in
      mkView (mp_org_id mp) (mp_tier mp)
        (match t with Some r => t_display_name r | None => mp_tier mp end)
        (match t with Some r => t_pct_bps r | None => 0 end)
        (match t with Some r => t_fixed r | None => 0 end)
        (match t with Some r => t_fixed_currency r | None => default_currency settings end)
        (omap (λ rail, get_rail_fee rail (mp_tier mp) d) Rails)
        (mp_effective_at mp))
  end.

(** [uuid.UUID(text)], [None] for its [ValueError]. *)
Variable parse_uuid : string → option uuid.

Definition upsert_merchant_pricing (now : Z) (merchant_id tier src : string) (org_id : option string) : H unit :=
  match parse_uuid merchant_id with
  | None => mret tt
  | Some mid =>
      let oid := match org_id with Some o => if truthy o then parse_uuid o else None | None => None end in
      known ← query (get_tier tier);
      let final := match known with Some _ => tier | None => DEFAULT_TIER end in
      write (put_merchant_pricing now mid final src oid) ;;
      commit
  end.

Record QuoteIssued := mkIssued {
  iss_id : uuid; iss_tier : string; iss_rail : string; iss_result : QuoteResult; iss_breakdown : json }.

Definition fx_json (locked_at : Z) (fx : option Rate) : json :=
  match fx with
  | None => JNull
  | Some r => JObj [("base", JStr (base r)); ("quote", JStr (quote_ccy r)); ("rate", JStr (dec_str (rate r)));
                    ("locked_at", JInt locked_at); ("source", JStr (source r))]
  end.

Definition money (a : Z) (c : string) : json := JObj [("amount", JInt a); ("currency", JStr c)].

(** [breakdown] of [compute_quote]. *)
Definition breakdown (locked_at : Z) (tier : TierFee) (rail : RailFee) (r : QuoteResult) : json :=
  JObj [("gross", money (q_gross r) (q_currency r)); ("gross_settled", money (q_gross_settled r) (q_settle_currency r));
        ("platform_fee", JObj [("pct_bps", JInt (platform_pct_bps tier)); ("pct_amount", JInt (q_platform_pct_amount r));
           ("fixed_amount", JInt (q_platform_fixed_amount r)); ("amount", JInt (q_platform_fee r)); ("currency", JStr (q_settle_currency r))]);
        ("rail_fee", JObj [("rail", JStr (rail_name rail)); ("pct_bps", JInt (pct_bps rail));
           ("pct_amount", JInt (q_rail_pct_amount r)); ("fixed_amount", JInt (q_rail_fixed_amount r)); ("amount", JInt (q_rail_fee r));
           ("currency", JStr (q_settle_currency r))]);
        ("net", money (q_net r) (q_settle_currency r)); ("fx", fx_json locked_at (q_fx r))].

Definition quote_payload (locked_at : Z) (qid m : uuid) (t r : string) (qr : QuoteResult) : json :=
  JObj [("quote_id", JStr (uuid_str qid)); ("merchant_id", JStr (uuid_str m)); ("tier", JStr t); ("rail", JStr r);
        ("gross", JInt (q_gross qr)); ("currency", JStr (q_currency qr)); ("gross_settled", JInt (q_gross_settled qr));
        ("settle_currency", JStr (q_settle_currency qr)); ("platform_fee", JInt (q_platform_fee qr));
        ("rail_fee", JInt (q_rail_fee qr)); ("net", JInt (q_net qr)); ("fx", fx_json locked_at (q_fx qr))].

Section quoting.
(** The request: merchant, amount and currencies (upper case), the locked rate,
    the time and the ids that [uuid4()] gives to the quotes. *)
Variables (now : Z) (m : uuid) (gross : Z) (currency settle_currency : string) (fx : option Rate).
Variable fresh : nat → uuid.

Definition quote_row (qid : uuid) (t r : string) (qr : QuoteResult) (bd : json) : QuoteRow :=
  mkQuoteRow qid m t r gross currency settle_currency (q_platform_fee qr) (q_rail_fee qr) (q_net qr)
    (match fx with Some f => Some (base f, quote_ccy f, rate f) | None => None end) bd.

(** The body of the inner loop, for the [k]-th pair. *)
Definition quote_one (k : nat) (t r : string) (tf : TierFee) : H QuoteIssued :=
  rf ← _rail_fee r t;
  qr ← lift (compute_quote gross currency settle_currency tf rf fx);
  let bd := breakdown now tf rf qr in
  try_write (put_quote (quote_row (fresh k) t r qr bd)) ;;
  add_event (uuid_str (fresh k)) PRICING_FEE_QUOTE_ISSUED (quote_payload now (fresh k) m t r qr) ;;
  publish PRICING_FEE_QUOTE_ISSUED (quote_payload now (fresh k) m t r qr) ;;
  mret (mkIssued (fresh k) t r qr bd).

Fixpoint quote_rails (k : nat) (t : string) (tf : TierFee) (rails : list string) : H (list QuoteIssued) :=
  match rails with
  | [] => mret []
  | r :: rails' =>
      q ← quote_one k t r tf;
      qs ← quote_rails (S k) t tf rails';
      mret (q :: qs)
  end.

Fixpoint quote_tiers (k : nat) (names rails : list string) : H (list QuoteIssued) :=
  match names with
  | [] => mret []
  | t :: names' =>
      tf ← _tier_fee t;
      qs ← quote_rails k t tf rails;
      qs' ← quote_tiers (k + length rails) names' rails;
      mret (qs ++ qs')
  end.
End quoting.

Definition quote (now : Z) (fresh : nat → uuid) (m : uuid) (gross : Z) (currency0 settle0 : string)
    (rails : list string) (tier_names : option (list string)) : H (list QuoteIssued) :=
  let currency := upper currency0 in
  let settle_currency := upper settle0 in
  fx ← (if bool_decide (currency = settle_currency) then mret None
        else r ← rate_for now currency settle_currency; mret (Some r));
  names ← match tier_names with
          | Some (t :: ts) => mret (t :: ts)
          | _ => t ← _resolve_merchant_tier m; mret [t]
          end;
  issued ← quote_tiers now m gross currency settle_currency fx fresh 0 names rails;
  commit ;;
  mret issued.

End service.

(** ** domain/invoicing_service.py *)

(** Year and month (UTC) of a day counted from 1970-01-01, in the Gregorian
    calendar, with years that start in March. *)
Definition civil_month (days : Z) : Z * Z :=
  let z := days + 719468 in
  let era := z / 146097 in
  let doe := z - era * 146097 in
  let yoe := (doe - doe / 1460 + doe / 36524 - doe / 146096) / 365 in
  let doy := doe - (365 * yoe + yoe / 4 - yoe / 100) in
  let mp := (5 * doy + 2) / 153 in
  let month := if mp <? 10 then mp + 3 else mp - 9 in
  (yoe + era * 400 + (if month <=? 2 then 1 else 0), month).

(** [occurred_at.astimezone(UTC).strftime("%Y-%m")], from seconds. *)
Definition period_of (occurred_at : Z) : string :=
  let '(y, month) := civil_month (occurred_at / 86400) in
  text (PyJson.print_Z y ++ "-"%char :: (if month <? 10 then ["0"%char] else []) ++ PyJson.print_Z month).

Example period_of_example : period_of 1709251199 = "2024-02" ∧ period_of 1709251200 = "2024-03".
Proof. by vm_compute. Qed.

(** [_PERIOD_RE.match]: four digits, a dash, a month, then the end or a final
    newline. *)
Definition is_digit (c : ascii) : bool := bool_decide (is_Some (PyJson.digit_val c)).

Definition valid_period (s : string) : bool :=
  match chars s with
  | a :: b :: c :: d :: "-"%char :: m1 :: m2 :: rest =>
      is_digit a && is_digit b && is_digit c && is_digit d &&
      (bool_decide (m1 = "0"%char) && is_digit m2 && bool_decide (m2 ≠ "0"%char) ||
       bool_decide (m1 = "1"%char) && bool_decide (m2 ∈ ["0"; "1"; "2"]%char)) &&
      bool_decide (rest = [] ∨ rest = [ascii_of_N 10])
  | _ => false
  end.

Section invoicing.
Variable settings : Settings.
Variable uuid_str : uuid → string.

Definition record_accrual (m : uuid) (amount : Z) (currency source_ref : string) (occurred_at : Z)
    (quote_id : option uuid) : H (Z * bool) :=
  dup ← query (find_accrual m source_ref);
  match dup with
  | Some a => commit ;; mret (a_id a, false)
  | None =>
      i ← query next_accrual;
      try_write (λ d,
        if numeric38 <=? Z.abs amount then Raise DataError
        else Ok (set_accruals (accruals d ++ [mkAccrual i m (period_of occurred_at) amount (upper currency)
                                                 source_ref quote_id None occurred_at]) (i + 1) d)) ;;
      commit ;;
      mret (i, true)
  end.

(** [groups\[(r.merchant_id, r.currency)\].append(r)], in insertion order. *)
Fixpoint add_to_group (a : AccrualRow) (gs : list ((uuid * string) * list AccrualRow)) :
    list ((uuid * string) * list AccrualRow) :=
  match gs with
  | [] => [((a_merchant a, a_currency a), [a])]
  | (k, l) :: gs' =>
      if bool_decide (k = (a_merchant a, a_currency a)) then (k, l ++ [a]) :: gs'
      else (k, l) :: add_to_group a gs'
  end.

Definition group_accruals (rows : list AccrualRow) : list ((uuid * string) * list AccrualRow) :=
  fold_left (λ gs a, add_to_group a gs) rows [].

(** [int(sum((r.amount for r in grp), Decimal(0)))] *)
Definition total_of (grp : list AccrualRow) : Z :=
  let t := fold_left (λ acc a, dec_add acc (dec_int (a_amount a))) grp (dec_int 0) in
  coef t * 10 ^ expo t.

Definition invoice_payload (inv m : uuid) (period currency : string) (total lines : Z) : json :=
  JObj [("invoice_id", JStr (uuid_str inv)); ("merchant_id", JStr (uuid_str m)); ("period", JStr period);
        ("currency", JStr currency); ("total_fee", JInt total); ("line_count", JInt lines)].

Record GeneratedInvoice := mkGenerated {
  gi_invoice : uuid; gi_merchant : uuid; gi_currency : string; gi_total_fee : Z; gi_line_count : Z }.

(** One group of the loop; nothing when the merchant has an invoice already. *)
Definition bill_group (period : string) (inv : uuid) (m : uuid) (currency : string) (grp : list AccrualRow) :
    H (option GeneratedInvoice) :=
  existing ← query (get_invoice_for_period m period);
  match existing with
  | Some _ => mret None
  | None =>
      let total := total_of grp in
      let lines := Z.of_nat (length grp) in
      try_write (put_invoice (mkInvoice inv m period currency total lines "ISSUED")) ;;
      write (mark_accruals_invoiced (a_id <$> grp) inv) ;;
      when (ledger_posting_enabled settings)
        (effect (λ x, mkPW (cache x) (p_published x) (ledger_posts x ++ [inv]))) ;;
      add_event (uuid_str inv) INVOICE_PLATFORM_FEE_ISSUED (invoice_payload inv m period currency total lines) ;;
      publish INVOICE_PLATFORM_FEE_ISSUED (invoice_payload inv m period currency total lines) ;;
      mret (Some (mkGenerated inv m currency total lines))
  end.

(** The loop over the groups: the generated invoices and the count of skipped ones. *)
Fixpoint bill_groups (period : string) (fresh : nat → uuid) (k : nat)
    (gs : list ((uuid * string) * list AccrualRow)) : H (list GeneratedInvoice * nat) :=
  match gs with
  | [] => mret ([], 0%nat)
  | ((m, c), grp) :: gs' =>
      b ← bill_group period (fresh k) m c grp;
      r ← bill_groups period fresh (match b with Some _ => S k | None => k end) gs';
      mret (match b with Some g => (g :: r.1, r.2) | None => (r.1, S r.2) end)
  end.

Definition generate_for_period (fresh : nat → uuid) (period : string) (m : option uuid) : H (list GeneratedInvoice * nat) :=
  if negb (valid_period period) then raise INVALID_PERIOD
  else
    rows ← query (unbilled_accruals period m);
    res ← bill_groups period fresh 0 (group_accruals rows);
    commit ;;
    mret res.
End invoicing.

(** ** domain/rbac.py *)

Record RoleClaim := mkRole { rc_org : string; rc_role : string }.
Record AccessClaims := mkClaims { roles : list RoleClaim; user_roles : list string }.

Fixpoint org_role_in (rs : list RoleClaim) (org : string) : option string :=
  match rs with
  | [] => None
  | r :: rs' => if bool_decide (rc_org r = org) then Some (rc_role r) else org_role_in rs' org
  end.

Definition org_role (p : AccessClaims) (org : string) : option string := org_role_in (roles p) org.

Definition require_org_member (p : AccessClaims) (org : string) : result string :=
  match org_role p org with Some r => Ok r | None => fail ORG_NOT_FOUND end.

Definition require_admin (p : AccessClaims) (org : string) : result string :=
  let? role := require_org_member p org in
  if bool_decide (role ∈ ["owner"; "admin"]) then Ok role else fail FORBIDDEN.

Definition is_platform_admin (p : AccessClaims) (allowed : list string) : bool :=
  existsb (λ r, bool_decide (r ∈ allowed)) (user_roles p).

Definition require_platform_admin (p : AccessClaims) (allowed : list string) : result unit :=
  if is_platform_admin p allowed then Ok tt else fail FORBIDDEN.

(** [_read] of api/v1/merchant_pricing.py *)
Definition read_merchant_pricing (settings : Settings) (uuid_str : uuid → string) (admin_roles : list string)
    (p : AccessClaims) (m : uuid) : H MerchantPricingView :=
  view ← get_merchant_pricing_view settings m;
  if is_platform_admin p admin_roles then mret view
  else match v_org_id view with
       | Some o => match org_role p (uuid_str o) with
                   | Some _ => mret view
                   | None => raise MERCHANT_PRICING_NOT_FOUND
                   end
       | None => raise MERCHANT_PRICING_NOT_FOUND
       end.

(** ** events/consumer.py *)

Inductive merchant_event :=
| MerchantOnboarded (merchant_id : string) (org_id : option string)
| MerchantFeeTierChanged (merchant_id tier : string)
| OtherEvent.

Definition consume (parse_uuid : string → option uuid) (now : Z) (e : merchant_event) : H unit :=
  match e with
  | MerchantOnboarded mid org =>
      if negb (truthy mid) then mret tt
      else upsert_merchant_pricing parse_uuid now mid DEFAULT_TIER "onboarded"
             (match org with Some o => if truthy o then Some o else None | None => None end)
  | MerchantFeeTierChanged mid tier =>
      if negb (truthy mid) || negb (truthy tier) then mret tt
      else upsert_merchant_pricing parse_uuid now mid tier "fee_tier.changed" None
  | OtherEvent => mret tt
  end.

(** ** Quote arithmetic against integers *)

(** Basis points of an amount, to the nearest minor unit, halves up. *)
Definition bps_round (amount bps : Z) : Z := (2 * (amount * bps) + 10000) / 20000.

Lemma bps_of_exact amount bps :
  0 ≤ amount * bps < 10 ^ prec → bps_of amount bps = Ok (bps_round amount bps).
Proof.
  intros Hb. unfold bps_of, bps_round. rewrite dec_mul_exact by (simpl; lia).
  change (Dec _ _) with (dec_int (amount * bps)).
  assert (Hr : half_up (Dec (amount * bps) (-4)) = (2 * (amount * bps) + 10000) / 20000).
  { unfold half_up. cbn [expo coef]. change (0 <=? -4) with false. cbv iota.
    change (10 ^ (- -4)) with 10000. rewrite (Z.abs_eq (amount * bps)) by lia.
    destruct (Z.eq_dec (amount * bps) 0) as [->|Hne]; [done|]. rewrite Z.sgn_pos by lia.
    change (2 * 10000) with 20000. lia. }
  destruct (Z.eq_dec (amount * bps) 0) as [Hz|Hne].
  - rewrite Hz. by vm_compute.
  - destruct (dec_div_pow10 (amount * bps) 4) as (d & Hd & Hh); [lia..|].
    change (10 ^ 4) with BPS_DENOM in Hd. rewrite Hd.
    unfold _round0, quantize0. rewrite Hh. change (Z.opp 4) with (-4). rewrite Hr.
    assert (0 ≤ (2 * (amount * bps) + 10000) / 20000) by (apply Z.div_pos; lia).
    assert ((2 * (amount * bps) + 10000) / 20000 < 10 ^ prec)
      by (apply Z.div_lt_upper_bound; unfold prec in *; lia).
    rewrite (proj2 (Z.ltb_lt _ _)) by lia. done.
Qed.

Lemma _convert_same amount c1 c2 fx : c1 = c2 → _convert amount c1 c2 fx = Ok amount.
Proof. intros ->. unfold _convert. by rewrite bool_decide_eq_true_2, orb_true_r. Qed.

(** What a quote says of money: the parts add up and the net is not negative. *)
Definition conserves (q : QuoteResult) : Prop :=
  q_gross_settled q = q_platform_fee q + q_rail_fee q + q_net q ∧ 0 ≤ q_net q ∧
  q_platform_fee q = q_platform_pct_amount q + q_platform_fixed_amount q ∧
  q_rail_fee q = q_rail_pct_amount q + q_rail_fixed_amount q.

Lemma compute_quote_ok gross c st tier rail fx q :
  compute_quote gross c st tier rail fx = Ok q →
  conserves q ∧ q_gross q = gross ∧ q_currency q = upper c ∧ q_settle_currency q = upper st ∧
  settle_gross gross (upper c) (upper st) fx = Ok (q_gross_settled q, q_fx q).
Proof.
  unfold compute_quote. intros Hq. apply obind_ok in Hq as ([g fu] & Hg & Hq).
  repeat (apply obind_ok in Hq as (? & ? & Hq)). destruct (_ <? 0) eqn:Hn; [done|].
  apply Z.ltb_ge in Hn. injection Hq as <-. simpl. unfold conserves; simpl. split_and!; try done; lia.
Qed.

(** ** The tables a quote touches *)

Definition same_but_quotes (d d' : pdb) : Prop :=
  tiers d' = tiers d ∧ rail_fees d' = rail_fees d ∧ merchant_pricing d' = merchant_pricing d ∧
  accruals d' = accruals d ∧ next_accrual d' = next_accrual d ∧ invoices d' = invoices d.

Section quote_rules.
Variables (settings : Settings) (fx_provider : provider) (uuid_str : uuid → string) (dec_str : dec → string).

(** The rate of a request, locked only when the currencies differ. *)
Lemma lock_rule now (b q : string) d x :
  wp (if bool_decide (b = q) then mret None else r ← rate_for settings fx_provider dec_str now b q; mret (Some r))
    (λ r w', quotes (tx w') = quotes d ∧ quotes (db w') = quotes d ∧ merchant_pricing (tx w') = merchant_pricing d ∧
       ∀ fx, r = Ok fx → b = q → fx = None)
    (Uow d d x).
Proof.
  case_bool_decide as Hbq; [by wp_go; split_and!; [..|intros fx [= <-]]|]. unfold rate_for, add_event, publish.
  wp_go; try (by split_and!).
  all: match goal with Hp : put_fx_rate _ _ = Ok _ |- _ => unfold put_fx_rate in Hp; py_run end; by split_and!.
Qed.

Lemma tier_names_rule tier_names m w :
  wp (match tier_names with Some (t :: ts) => mret (t :: ts) | _ => t ← _resolve_merchant_tier m; mret [t] end)
    (λ r w', match r with
             | Ok names => w' = w ∧ names = match tier_names with
                 | Some (t :: ts) => t :: ts
                 | _ => [match merchant_pricing (tx w) !! m with Some mp => mp_tier mp | None => DEFAULT_TIER end]
                 end
             | Raise _ => False
             end) w.
Proof. unfold _resolve_merchant_tier. destruct tier_names as [[|t ts]|]; wp_go; done. Qed.

Variables (now : Z) (m : uuid) (gross : Z) (currency settle_currency : string) (fx : option Rate) (fresh : nat → uuid).

Hypothesis Hlock : upper currency = upper settle_currency → fx = None.

(** An issued quote and its row: the row keeps the request, the pair, the computed
    fees, the locked rate and the breakdown. *)
Definition issued_row (q : QuoteIssued) (row : QuoteRow) : Prop :=
  stored_quote (quote_row m gross currency settle_currency fx (iss_id q) (iss_tier q) (iss_rail q) (iss_result q) (iss_breakdown q)) = Ok row ∧
  q_fx (iss_result q) = fx ∧
  ∃ tf rf, compute_quote gross currency settle_currency tf rf fx = Ok (iss_result q) ∧
    iss_breakdown q = breakdown dec_str now tf rf (iss_result q).

Definition pairs_of (names rails : list string) : list (string * string) := t ← names; pair t <$> rails.

Definition quoted (pairs : list (string * string)) (w : uow pdb pworld)
    (r : outcome (exn ErrorCode) (list QuoteIssued)) (w' : uow pdb pworld) : Prop :=
  quotes (db w') = quotes (db w) ∧
  ∀ qs, r = Ok qs → (λ q, (iss_tier q, iss_rail q)) <$> qs = pairs ∧
    ∃ rows, Forall2 issued_row qs rows ∧ quotes (tx w') = quotes (tx w) ++ rows.

Lemma put_quote_inv row d d' : put_quote row d = Ok d' → ∃ kept, stored_quote row = Ok kept ∧ quotes d' = quotes d ++ [kept].
Proof. unfold put_quote. intros (kept & Hk & Hp)%obind_ok. exists kept. split; [done|]. by py_run. Qed.

(** The rate of a quote is the locked one. *)
Lemma quote_fx_locked tf rf qr : compute_quote gross currency settle_currency tf rf fx = Ok qr → q_fx qr = fx.
Proof.
  intros Hc. apply compute_quote_ok in Hc as (_ & _ & _ & _ & Hs). unfold settle_gross in Hs. case_bool_decide as He.
  - rewrite Hlock by done. congruence.
  - destruct fx as [f|]; [|done]. destruct (_ && _); [|done]. by apply obind_ok in Hs as (g & _ & [= _ <-]).
Qed.

Lemma quote_one_rule k t r tf w :
  wp (quote_one uuid_str dec_str now m gross currency settle_currency fx fresh k t r tf)
    (λ res w', quotes (db w') = quotes (db w) ∧
       ∀ q, res = Ok q → (iss_tier q, iss_rail q) = (t, r) ∧
         ∃ row, issued_row q row ∧ quotes (tx w') = quotes (tx w) ++ [row]) w.
Proof.
  unfold quote_one, _rail_fee, add_event, publish. wp_go; (split; [done|]); intros q Hq; simplify_eq/=.
  split; [done|].
  match goal with Hp : put_quote _ _ = Ok _ |- _ => apply put_quote_inv in Hp as (row & Hrow & Hq) end.
  exists row. split; [|done]. split; [exact Hrow|]. split; [by eapply quote_fx_locked|]. by do 2 eexists.
Qed.

Lemma quote_rails_rule k t tf rails w :
  wp (quote_rails uuid_str dec_str now m gross currency settle_currency fx fresh k t tf rails)
    (quoted (pair t <$> rails) w) w.
Proof.
  revert k w. induction rails as [|r rails IH]; intros k w; cbn [quote_rails].
  { wp_step. split; [done|]. intros qs [= <-]. split; [done|]. exists []. by rewrite app_nil_r. }
  wp_step. eapply wp_mono; [apply quote_one_rule|]. intros [q|e] w1 [Hd Hq]; [|by split].
  destruct (Hq q eq_refl) as (Hp & row & Hrow & Hs). wp_step. eapply wp_mono; [apply IH|].
  intros [qs|e] w2 [Hd2 Hq2]; [|split; [congruence|done]]. wp_step. split; [congruence|].
  intros ? [= <-]. destruct (Hq2 qs eq_refl) as (Hp2 & rows & Hr2 & Hs2).
  split; [by rewrite !fmap_cons, Hp, Hp2|]. exists (row :: rows). split; [by constructor|].
  by rewrite Hs2, Hs, <- app_assoc.
Qed.

Lemma quote_tiers_rule k names rails w :
  wp (quote_tiers uuid_str dec_str now m gross currency settle_currency fx fresh k names rails)
    (quoted (pairs_of names rails) w) w.
Proof.
  revert k w. induction names as [|t names IH]; intros k w; cbn [quote_tiers].
  { wp_step. split; [done|]. intros qs [= <-]. split; [done|]. exists []. by rewrite app_nil_r. }
  wp_step. unfold _tier_fee. wp_go; try (by split; [done|]; intros ? ?; congruence).
  eapply wp_mono; [apply quote_rails_rule|]. intros [qs|e] w1 [Hd Hq]; [|by split].
  destruct (Hq qs eq_refl) as (Hp & rows & Hrow & Hs). wp_step. eapply wp_mono; [apply IH|].
  intros [qs'|e] w2 [Hd2 Hq2]; [|split; [congruence|done]]. wp_step. split; [congruence|].
  intros ? [= <-]. destruct (Hq2 qs' eq_refl) as (Hp2 & rows2 & Hr2 & Hs2).
  split; [unfold pairs_of in *; by rewrite bind_cons, fmap_app, Hp, Hp2|].
  exists (rows ++ rows2). split; [by apply Forall2_app|]. by rewrite Hs2, Hs, <- app_assoc.
Qed.
End quote_rules.

(** ** Billing *)

Definition billed_by (inv : uuid) (d : pdb) : list AccrualRow :=
  filter (λ a, a_invoice_id a = Some inv) (accruals d).

(** An invoice and the accruals stamped with it. *)
Definition invoice_ok (d : pdb) (i : InvoiceRow) : Prop :=
  Forall (λ a, a_merchant a = i_merchant i ∧ a_period a = i_period i ∧ a_currency a = i_currency i)
    (billed_by (i_id i) d) ∧
  Z.of_nat (length (billed_by (i_id i) d)) = i_line_count i ∧
  (sumZ a_amount (billed_by (i_id i) d) < 10 ^ prec → i_total_fee i = sumZ a_amount (billed_by (i_id i) d)).

(** The books: accrual ids are unique, amounts are not negative, an accrual is
    stamped only with an issued invoice, invoices are unique by id and by
    merchant and period, and every invoice matches its accruals. *)
Definition books_ok (d : pdb) : Prop :=
  NoDup (a_id <$> accruals d) ∧ Forall (λ a, 0 ≤ a_amount a ∧ a_id a < next_accrual d) (accruals d) ∧
  (∀ a inv, a ∈ accruals d → a_invoice_id a = Some inv → inv ∈ i_id <$> invoices d) ∧
  NoDup (i_id <$> invoices d) ∧ NoDup ((λ i, (i_merchant i, i_period i)) <$> invoices d) ∧
  Forall (invoice_ok d) (invoices d).

Definition stamp (inv : uuid) (a : AccrualRow) : AccrualRow :=
  mkAccrual (a_id a) (a_merchant a) (a_period a) (a_amount a) (a_currency a) (a_source_ref a) (a_quote_id a)
    (Some inv) (a_occurred_at a).

Definition stamped (ids : list Z) (inv : uuid) (l : list AccrualRow) : list AccrualRow :=
  (λ a, if bool_decide (a_id a ∈ ids) then stamp inv a else a) <$> l.

Lemma stamped_ids ids inv l : a_id <$> stamped ids inv l = a_id <$> l.
Proof.
  unfold stamped. rewrite <- list_fmap_compose. apply list_fmap_ext. intros k a _. simpl.
  by case_bool_decide.
Qed.

(** Stamping leaves the accruals of other invoices as they are. *)
Lemma stamped_other ids inv inv' l :
  inv' ≠ inv → (∀ a, a ∈ l → a_id a ∈ ids → a_invoice_id a = None) →
  filter (λ a, a_invoice_id a = Some inv') (stamped ids inv l) = filter (λ a, a_invoice_id a = Some inv') l.
Proof.
  intros Hne. induction l as [|a l IH]; intros Hl; [done|]. unfold stamped in *. rewrite fmap_cons, !filter_cons.
  rewrite IH by set_solver. case_bool_decide as Hin; [|done].
  rewrite decide_False by (simpl; congruence). by rewrite decide_False by (rewrite Hl by set_solver; done).
Qed.

Lemma stamped_new ids inv l :
  (∀ a, a ∈ l → a_invoice_id a ≠ Some inv) →
  filter (λ a, a_invoice_id a = Some inv) (stamped ids inv l) = stamp inv <$> filter (λ a, a_id a ∈ ids) l.
Proof.
  induction l as [|a l IH]; intros Hl; [done|]. unfold stamped in *. rewrite fmap_cons, !filter_cons.
  rewrite IH by set_solver. case_bool_decide as Hin.
  - by rewrite decide_True, decide_True by done.
  - by rewrite decide_False, decide_False by (done || set_solver).
Qed.

(** The rows picked by the ids of a duplicate-free part of the table. *)
Lemma pick_ids (l grp : list AccrualRow) :
  NoDup (a_id <$> l) → NoDup grp → (∀ a, a ∈ grp → a ∈ l) →
  filter (λ a, a_id a ∈ a_id <$> grp) l ≡ₚ grp.
Proof.
  intros Hl Hg Hsub. apply NoDup_same_Permutation; [|done|].
  - apply NoDup_filter. by eapply NoDup_fmap_1.
  - intros x. rewrite list_elem_of_filter, list_elem_of_fmap. split.
    + intros [(y & Hy & Hin) Hx]. by rewrite (NoDup_map_inj a_id l x y Hl Hx (Hsub y Hin) Hy).
    + intros Hin. split; [by exists x|by apply Hsub].
Qed.

Lemma total_of_from grp z :
  0 ≤ z → Forall (λ a, 0 ≤ a_amount a) grp → z + sumZ a_amount grp < 10 ^ prec →
  fold_left (λ acc a, dec_add acc (dec_int (a_amount a))) grp (dec_int z) = dec_int (z + sumZ a_amount grp).
Proof.
  revert z. induction grp as [|a grp IH]; intros z Hz Hpos Hlt; simpl in *; [f_equal; lia|].
  apply Forall_cons in Hpos as [Ha Hpos].
  assert (0 ≤ sumZ a_amount grp) by (apply sumZ_nonneg; by apply Forall_forall).
  rewrite dec_add_int_exact by (rewrite Z.abs_eq; lia). rewrite IH by (done || lia). f_equal. lia.
Qed.

Lemma total_of_exact grp :
  Forall (λ a, 0 ≤ a_amount a) grp → sumZ a_amount grp < 10 ^ prec → total_of grp = sumZ a_amount grp.
Proof.
  intros Hp Hlt. unfold total_of. rewrite total_of_from by (done || lia). simpl. lia.
Qed.

(** *** Groups *)

Definition group_ok (period : string) (d : pdb) (g : (uuid * string) * list AccrualRow) : Prop :=
  NoDup g.2 ∧ Forall (λ a, a ∈ accruals d ∧ a_invoice_id a = None ∧ a_period a = period ∧
                        (a_merchant a, a_currency a) = g.1) g.2.

Definition groups_ok (period : string) (d : pdb) (gs : list ((uuid * string) * list AccrualRow)) : Prop :=
  NoDup gs.*1 ∧ Forall (group_ok period d) gs.

Lemma add_to_group_keys a gs :
  NoDup gs.*1 → NoDup (add_to_group a gs).*1 ∧
  (∀ k, k ∈ (add_to_group a gs).*1 ↔ k ∈ gs.*1 ∨ k = (a_merchant a, a_currency a)).
Proof.
  induction gs as [|[k l] gs IH]; intros Hnd; simpl.
  { split; [apply NoDup_singleton|]. set_solver. }
  apply NoDup_cons in Hnd as [Hk Hnd]. case_bool_decide as Heq; simpl.
  - split; [by constructor|]. intros k'. rewrite !elem_of_cons. naive_solver.
  - destruct (IH Hnd) as [IH1 IH2]. split.
    + constructor; [|done]. rewrite IH2. naive_solver.
    + intros k'. rewrite !elem_of_cons, IH2. naive_solver.
Qed.

Lemma add_to_group_ok period d a gs :
  groups_ok period d gs → (∀ g, g ∈ gs → a ∉ g.2) →
  a ∈ accruals d → a_invoice_id a = None → a_period a = period →
  groups_ok period d (add_to_group a gs).
Proof.
  intros [Hnd Hgs] Hnew Ha Hi Hp. split; [by apply add_to_group_keys|].
  clear Hnd. induction Hgs as [|[k l] gs [Hl Hall] Hgs IH]; simpl.
  { constructor; [|constructor]. split; [apply NoDup_singleton|]. by repeat constructor. }
  simpl in *. case_bool_decide as Heq; constructor; try done.
  - split; simpl.
    + apply NoDup_app. split_and!; [done| |apply NoDup_singleton].
      intros x Hx ->%list_elem_of_singleton. apply (Hnew (k, l)); set_solver.
    + apply Forall_app. split; [done|]. by repeat constructor.
  - apply IH. intros g Hg. apply Hnew. set_solver.
Qed.

Lemma group_accruals_ok period d rows :
  NoDup rows → Forall (λ a, a ∈ accruals d ∧ a_invoice_id a = None ∧ a_period a = period) rows →
  groups_ok period d (group_accruals rows).
Proof.
  intros Hnd Hall. unfold group_accruals.
  assert (Hgen : ∀ gs, groups_ok period d gs → (∀ g a, g ∈ gs → a ∈ g.2 → a ∉ rows) →
    groups_ok period d (fold_left (λ gs a, add_to_group a gs) rows gs)); [|apply Hgen; [by split; constructor|set_solver]].
  induction rows as [|a rows IH]; intros gs Hgs Hdisj; simpl; [done|].
  apply NoDup_cons in Hnd as [Ha Hnd]. apply Forall_cons in Hall as [(Ha1 & Ha2 & Ha3) Hall].
  apply IH; [done|done| |].
  - apply add_to_group_ok; try done. intros g Hg Hin. apply (Hdisj g a Hg Hin). set_solver.
  - intros g x Hg Hx Hin.
    assert (Hfrom : x = a ∨ ∃ g', g' ∈ gs ∧ x ∈ g'.2).
    { clear -Hg Hx. induction gs as [|[k l] gs IH]; simpl in *.
      { apply list_elem_of_singleton in Hg as ->. simpl in Hx. set_solver. }
      case_bool_decide; apply elem_of_cons in Hg as [->|Hg]; simpl in *.
      - apply elem_of_app in Hx as [Hx|Hx]; [right; exists (k, l)|]; set_solver.
      - right. exists g. set_solver.
      - right. exists (k, l). set_solver.
      - destruct (IH Hg) as [?|(g' & ? & ?)]; [by left|right; exists g'; set_solver]. }
    destruct Hfrom as [->|(g' & Hg' & Hx')]; [done|]. apply (Hdisj g' x Hg' Hx'). set_solver.
Qed.

(** *** Billing one group *)

Section bill.
Variables (period : string) (inv m : uuid) (c : string) (grp : list AccrualRow) (d d1 : pdb).
Hypothesis Hd : books_ok d.
Hypothesis Hg : group_ok period d ((m, c), grp).
Hypothesis Hput : put_invoice (mkInvoice inv m period c (total_of grp) (Z.of_nat (length grp)) "ISSUED") d = Ok d1.

Lemma put_invoice_inv :
  inv ∉ i_id <$> invoices d ∧ (m, period) ∉ (λ i, (i_merchant i, i_period i)) <$> invoices d ∧
  accruals d1 = accruals d ∧ next_accrual d1 = next_accrual d ∧
  invoices d1 = invoices d ++ [mkInvoice inv m period c (total_of grp) (Z.of_nat (length grp)) "ISSUED"].
Proof.
  clear Hd Hg. unfold put_invoice in Hput. simpl in Hput. repeat case_bool_decide; try done.
  destruct (_ <=? _); [done|]. by simplify_eq.
Qed.

Lemma grp_unbilled a : a ∈ accruals d → a_id a ∈ a_id <$> grp → a_invoice_id a = None.
Proof.
  destruct Hd as (Hids & _), Hg as [_ Hall]. intros Ha (b & Hb & Hin)%list_elem_of_fmap.
  rewrite Forall_forall in Hall. destruct (Hall b Hin) as (Hb' & Hn & _).
  by rewrite (NoDup_map_inj a_id (accruals d) a b Hids Ha Hb' Hb).
Qed.

(** The accruals of the new invoice are the group, stamped. *)
Lemma billed_new :
  filter (λ a, a_invoice_id a = Some inv) (stamped (a_id <$> grp) inv (accruals d)) ≡ₚ stamp inv <$> grp.
Proof.
  destruct put_invoice_inv as (Hinv & _). destruct Hd as (Hids & _ & Hst & _), Hg as [Hnd Hall].
  rewrite stamped_new.
  - f_equiv. apply pick_ids; [done|done|]. rewrite Forall_forall in Hall. naive_solver.
  - intros a Ha Hi. by apply Hinv, (Hst a).
Qed.

Lemma bill_books : books_ok (mark_accruals_invoiced (a_id <$> grp) inv d1).
Proof.
  destruct put_invoice_inv as (Hinv & Hmp & Hacc & Hnx & Hi). pose proof grp_unbilled as Hun.
  pose proof billed_new as Hnew. destruct Hd as (Hids & Hpos & Hst & Hnd1 & Hnd2 & Hok), Hg as [Hgnd Hall].
  unfold books_ok, mark_accruals_invoiced, set_accruals. cbn [accruals invoices next_accrual].
  change (_ <$> accruals d1) with (stamped (a_id <$> grp) inv (accruals d1)). rewrite Hacc, Hi, Hnx, !fmap_app.
  split_and!.
  - by rewrite stamped_ids.
  - apply Forall_fmap. eapply Forall_impl; [exact Hpos|]. intros a ?. simpl. by case_bool_decide.
  - intros a i (b & -> & Hb)%list_elem_of_fmap. rewrite elem_of_app. simpl.
    case_bool_decide; [intros [= <-]; right; set_solver|]. intros. left. by eapply Hst.
  - apply NoDup_app. split_and!; [done| |apply NoDup_singleton]. set_solver.
  - apply NoDup_app. split_and!; [done| |apply NoDup_singleton]. set_solver.
  - apply Forall_app. split; [|constructor; [|constructor]].
    + rewrite Forall_forall in *. intros i Hin. specialize (Hok i Hin). unfold invoice_ok, billed_by in *.
      cbn [accruals]. rewrite stamped_other; [done| |done].
      intros Heq. apply Hinv. rewrite <- Heq. by apply list_elem_of_fmap_2.
    + unfold invoice_ok, billed_by. cbn [accruals i_id i_merchant i_period i_currency i_line_count i_total_fee].
      split_and!.
      * rewrite Hnew. apply Forall_fmap. eapply Forall_impl; [exact Hall|].
        intros a (_ & _ & Hp & Hk). simpl in *. by simplify_eq.
      * by rewrite Hnew, length_fmap.
      * rewrite (sumZ_perm _ _ _ Hnew), sumZ_map. simpl. intros Hlt. apply total_of_exact; [|done].
        rewrite Forall_forall in *. intros a Ha. apply Hpos. by apply Hall.
Qed.

(** The other groups of the run stay as they were read. *)
Lemma bill_other_group g :
  g.1 ≠ (m, c) → group_ok period d g → group_ok period (mark_accruals_invoiced (a_id <$> grp) inv d1) g.
Proof.
  destruct put_invoice_inv as (_ & _ & Hacc & _). destruct Hd as (Hids & _), Hg as [_ Hall].
  intros Hne [Hnd Hok]. split; [done|]. eapply Forall_impl; [exact Hok|]. intros a (Ha & Hn & Hp & Hk).
  split_and!; try done. unfold mark_accruals_invoiced. cbn [set_accruals accruals].
  rewrite Hacc. apply list_elem_of_fmap. exists a. split; [|done]. rewrite bool_decide_eq_false_2; [done|].
  intros (b & Hb & Hin)%list_elem_of_fmap. rewrite Forall_forall in Hall. destruct (Hall b Hin) as (Hb1 & _ & _ & Hb2).
  assert (a = b) as -> by by eapply (NoDup_map_inj a_id). simpl in *. congruence.
Qed.
End bill.

(** *** The loop over the groups *)

Definition invoiced (period : string) (m : uuid) (d : pdb) : Prop :=
  ∃ i, i ∈ invoices d ∧ i_merchant i = m ∧ i_period i = period.

Lemma get_invoice_some period m d : invoiced period m d ↔ get_invoice_for_period m period d ≠ None.
Proof.
  unfold get_invoice_for_period, invoiced. rewrite head_filter_none. split.
  - intros (i & ? & ? & ?) Hn. by apply (Hn i).
  - intros Hn. destruct (decide (Exists (λ i, i_merchant i = m ∧ i_period i = period) (invoices d))) as [He|He].
    + apply Exists_exists in He as (i & ? & ? & ?). by exists i.
    + exfalso. apply Hn. intros i Hi [? ?]. apply He, Exists_exists. by exists i.
Qed.

(** What a run for a period may do: stamp unbilled accruals of that period, of merchants
    without an invoice for it, and add invoices. *)
Definition bills (period : string) (d d' : pdb) : Prop :=
  (∀ a, a ∈ accruals d' → a_invoice_id a = None → a ∈ accruals d) ∧
  (∀ i, i ∈ invoices d → i ∈ invoices d') ∧
  (∀ a, invoiced period (a_merchant a) d ∨ a_period a ≠ period → a ∈ accruals d → a ∈ accruals d').

#[global] Instance bills_preorder period : PreOrder (bills period).
Proof.
  split; [by split|]. intros d1 d2 d3 (H1 & H2 & H3) (H4 & H5 & H6). split_and!; [naive_solver..|].
  intros a Hk Ha. apply H6; [|by apply H3]. destruct Hk as [(i & Hi & Him)|?]; [left; exists i; auto|by right].
Qed.

Section loop.
Variables (settings : Settings) (uuid_str : uuid → string) (period : string).

Definition run_ok (w : uow pdb pworld) (w' : uow pdb pworld) : Prop :=
  db w' = db w ∧ books_ok (tx w') ∧ bills period (tx w) (tx w').

Lemma bill_done inv m c grp d d1 gs e k j :
  books_ok d → group_ok period d ((m, c), grp) → Forall (group_ok period d) gs → (m, c) ∉ gs.*1 →
  put_invoice (mkInvoice inv m period c (total_of grp) (Z.of_nat (length grp)) "ISSUED") d = Ok d1 →
  let d' := put_event e k j (mark_accruals_invoiced (a_id <$> grp) inv d1) in
  books_ok d' ∧ bills period d d' ∧ invoiced period m d' ∧ Forall (group_ok period d') gs.
Proof.
  intros Hb Hg Hgs Hnin Hput d'. destruct (put_invoice_inv _ _ _ _ _ _ _ Hput) as (_ & Hmp & Hacc & _ & Hinv).
  split_and!.
  - exact (bill_books _ _ _ _ _ _ _ Hb Hg Hput).
  - split_and!; [|simpl; rewrite Hinv; set_solver|].
    + intros a (b & -> & Hin)%list_elem_of_fmap. rewrite Hacc in Hin. by case_bool_decide.
    + intros a Hkeep Ha. apply list_elem_of_fmap. exists a. rewrite Hacc. split; [|done].
      rewrite bool_decide_eq_false_2; [done|]. intros (b & Hid & Hin)%list_elem_of_fmap.
      destruct Hb as (Hids & _), Hg as [_ Hall]. rewrite Forall_forall in Hall.
      destruct (Hall b Hin) as (Hb' & _ & Hp & Hk).
      rewrite (NoDup_map_inj a_id (accruals d) a b Hids Ha Hb' Hid) in Hkeep.
      destruct Hkeep as [(i & Hi & Him & Hip)|?]; [|done]. apply Hmp, list_elem_of_fmap. exists i.
      simpl in Hk. injection Hk as Hk1 Hk2. split; [congruence|done].
  - exists (mkInvoice inv m period c (total_of grp) (Z.of_nat (length grp)) "ISSUED").
    simpl. rewrite Hinv. set_solver.
  - rewrite Forall_forall in *. intros g Hin. assert (g.1 ≠ (m, c)) by set_solver.
    exact (bill_other_group period inv m c grp d d1 Hb Hg Hput g ltac:(done) (Hgs g Hin)).
Qed.

Lemma bill_group_rule inv m c grp w gs :
  books_ok (tx w) → group_ok period (tx w) ((m, c), grp) →
  Forall (group_ok period (tx w)) gs → (m, c) ∉ gs.*1 →
  wp (bill_group settings uuid_str period inv m c grp)
    (λ r w', db w' = db w ∧ (is_ok r = false ∨
       books_ok (tx w') ∧ bills period (tx w) (tx w') ∧ invoiced period m (tx w') ∧ Forall (group_ok period (tx w')) gs)) w.
Proof.
  intros Hb Hg Hgs Hnin. unfold bill_group, add_event, publish.
  wp_go; (split; [done|]); try (by left); right.
  - split_and!; [done|by split| |done]. apply get_invoice_some. congruence.
  - by eapply bill_done.
  - by eapply bill_done.
Qed.

Lemma bill_groups_rule fresh k gs w :
  books_ok (tx w) → groups_ok period (tx w) gs →
  wp (bill_groups settings uuid_str period fresh k gs)
    (λ r w', db w' = db w ∧ (is_ok r = false ∨
       books_ok (tx w') ∧ bills period (tx w) (tx w') ∧ ∀ g, g ∈ gs.*1 → invoiced period g.1 (tx w'))) w.
Proof.
  revert k w. induction gs as [|[[m c] grp] gs IH]; intros k w Hb [Hnd Hgs]; cbn [bill_groups].
  { wp_step. split; [done|]. right. split_and!; [done|done|set_solver]. }
  apply NoDup_cons in Hnd as [Hm Hnd]. apply Forall_cons in Hgs as [Hg Hgs].
  wp_step. eapply wp_mono; [by eapply bill_group_rule|].
  intros [b|e] w1 [Hdb H1]; [|by split; [|left]]. destruct H1 as [|(Hb1 & Hbl & Hi & Hg1)]; [done|].
  wp_step. eapply wp_mono; [by apply IH|]. intros [r|e] w2 [Hdb2 H2]; [|by split; [congruence|left]].
  destruct H2 as [|(Hb2 & Hbl2 & Hi2)]; [done|]. wp_step. split; [congruence|]. right.
  split_and!; [done|by etrans|]. intros g. rewrite fmap_cons, elem_of_cons. intros [->|Hin]; [|by apply Hi2].
  destruct Hi as (i & Hin & ? & ?). exists i. split; [by apply Hbl2|done].
Qed.

(** When every group's merchant is already invoiced, the run changes nothing. *)
Lemma bill_groups_idle fresh k gs w :
  (∀ g, g ∈ gs.*1 → invoiced period g.1 (tx w)) →
  bill_groups settings uuid_str period fresh k gs w = (Ok ([], length gs), w).
Proof.
  revert k. induction gs as [|[[m c] grp] gs IH]; intros k Hall; [done|].
  cbn [bill_groups]. unfold mbind, handler_bind.
  assert (Hskip : bill_group settings uuid_str period (fresh k) m c grp w = (Ok None, w)).
  { unfold bill_group, mbind, handler_bind, query.
    destruct (get_invoice_for_period m period (tx w)) eqn:E; [done|].
    by destruct (proj1 (get_invoice_some period m (tx w)) (Hall (m, c) ltac:(set_solver))). }
  rewrite Hskip, IH by set_solver. done.
Qed.
End loop.

Lemma unbilled_rows period mo d :
  NoDup (a_id <$> accruals d) →
  NoDup (unbilled_accruals period mo d) ∧
  ∀ a, a ∈ unbilled_accruals period mo d ↔
    a ∈ accruals d ∧ a_period a = period ∧ a_invoice_id a = None ∧ opt_is mo (a_merchant a) = true.
Proof.
  intros Hnd. unfold unbilled_accruals. split.
  - rewrite merge_sort_Permutation. apply NoDup_filter. by eapply NoDup_fmap_1.
  - intros a. rewrite merge_sort_Permutation, list_elem_of_filter. naive_solver.
Qed.

Lemma group_accruals_keys rows g :
  g ∈ (group_accruals rows).*1 ↔ ∃ a, a ∈ rows ∧ g = (a_merchant a, a_currency a).
Proof.
  unfold group_accruals.
  assert (Hgen : ∀ gs, NoDup gs.*1 → (g ∈ (fold_left (λ gs a, add_to_group a gs) rows gs).*1 ↔
      g ∈ gs.*1 ∨ ∃ a, a ∈ rows ∧ g = (a_merchant a, a_currency a)));
    [|rewrite Hgen by constructor; set_solver].
  induction rows as [|a rows IH]; intros gs Hnd; simpl; [set_solver|].
  destruct (add_to_group_keys a gs Hnd) as [Hnd' Hk]. rewrite IH, Hk by done. set_solver.
Qed.

(** *** Whole requests *)

Inductive billing_req :=
| RecordAccrual (m : uuid) (amount : Z) (currency source_ref : string) (occurred_at : Z) (quote_id : option uuid)
| Generate (fresh : nat → uuid) (period : string) (m : option uuid).

Definition bill_request (settings : Settings) (uuid_str : uuid → string) (q : billing_req) (s : pdb * pworld) :
    pdb * pworld :=
  match q with
  | RecordAccrual m a c r t qi => let '(_, d, x) := request (record_accrual m a c r t qi) s.1 s.2 in (d, x)
  | Generate f p m => let '(_, d, x) := request (generate_for_period settings uuid_str f p m) s.1 s.2 in (d, x)
  end.

(** The request schema: [amount: int = Field(ge=0)]. *)
Definition req_ok (q : billing_req) : Prop :=
  match q with RecordAccrual _ a _ _ _ _ => 0 ≤ a | Generate _ _ _ => True end.

Lemma generate_rule settings uuid_str fresh period m d x :
  books_ok d →
  wp (generate_for_period settings uuid_str fresh period m)
    (λ r w', books_ok (db w') ∧ bills period d (db w') ∧
       (is_ok r = true → ∀ a, a ∈ unbilled_accruals period m d → invoiced period (a_merchant a) (db w')))
    (Uow d d x).
Proof.
  intros Hd. unfold generate_for_period. wp_step; [wp_go; by split_and!|]. wp_step. wp_step. wp_step.
  destruct (unbilled_rows period m d (proj1 Hd)) as [Hnd Hin].
  eapply wp_mono; [apply bill_groups_rule; [done|]|].
  - apply group_accruals_ok; [done|]. apply Forall_forall. intros a Ha%Hin. naive_solver.
  - intros [res|e] w' [Hdb [?|(Hb & Hbl & Hi)]]; try done; [|simpl in Hdb; by rewrite Hdb..].
    wp_go. split_and!; [done|done|]. intros _ a Ha. apply (Hi (a_merchant a, a_currency a)).
    apply group_accruals_keys. by exists a.
Qed.

Lemma record_rule m amount c ref t qi d x :
  books_ok d → 0 ≤ amount →
  wp (record_accrual m amount c ref t qi) (λ _ w', books_ok (db w')) (Uow d d x).
Proof.
  intros Hd Ha. unfold record_accrual. wp_go; try done.
  match goal with He : (if _ then _ else _) = Ok _ |- _ => simpl in He; destruct (numeric38 <=? _); [done|];
    injection He as <- end.
  destruct Hd as (Hids & Hpos & Hst & Hnd1 & Hnd2 & Hok). unfold books_ok. simpl. split_and!; try done.
  - rewrite fmap_app. apply NoDup_app. split_and!; [done| |apply NoDup_singleton].
    intros z (a & -> & Hin)%list_elem_of_fmap Hz%list_elem_of_singleton.
    rewrite Forall_forall in Hpos. destruct (Hpos a Hin). simpl in *. lia.
  - apply Forall_app. split; [|repeat constructor; simpl; lia].
    eapply Forall_impl; [exact Hpos|]. simpl. lia.
  - intros a inv [Hin| ->%list_elem_of_singleton]%elem_of_app; [by apply Hst|done].
  - eapply Forall_impl; [exact Hok|]. intros i Hi. unfold invoice_ok, billed_by in *. simpl.
    by rewrite filter_app, filter_cons_False, filter_nil, app_nil_r by done.
Qed.

Lemma bill_request_ok settings uuid_str q s :
  req_ok q → books_ok s.1 → books_ok (bill_request settings uuid_str q s).1.
Proof.
  intros Hq Hs. destruct s as [d x], q as [m a c r t qi|f p m]; simpl in *.
  - pose proof (wp_request _ (λ _ d _, books_ok d) d x (record_rule m a c r t qi d x Hs Hq)) as Hw.
    by destruct (request _ d x) as [[? ?] ?].
  - assert (Hw : wp (generate_for_period settings uuid_str f p m) (λ _ w', books_ok (db w')) (Uow d d x)).
    { eapply wp_mono; [by apply generate_rule|]. by intros r w' [? _]. }
    apply (wp_request _ (λ _ d _, books_ok d)) in Hw. by destruct (request _ d x) as [[? ?] ?].
Qed.

(** ** Replaying merchant events *)

Section replay.
Variable parse_uuid : string → option uuid.

Definition consume_one (d : pdb) (e : Z * merchant_event) : pdb :=
  (request (consume parse_uuid e.1 e.2) d (mkPW ∅ [] [])).1.2.

Definition consume_all (es : list (Z * merchant_event)) (d : pdb) : pdb := fold_left consume_one es d.

(** A merchant's org, tier and source. *)
Definition pricing_of (d : pdb) (m : uuid) : option (option uuid * string * string) :=
  (λ r, (mp_org_id r, mp_tier r, mp_source r)) <$> merchant_pricing d !! m.

(** What an event writes, given the tier table: merchant, org, tier, source. *)
Definition update_of (ts : gmap string TierRow) (e : merchant_event) : option (uuid * (option uuid * string * string)) :=
  match e with
  | MerchantOnboarded mid org =>
      if negb (truthy mid) then None
      else match parse_uuid mid with
           | None => None
           | Some m => Some (m, (match org with Some o => if truthy o then parse_uuid o else None | None => None end,
                                 DEFAULT_TIER, "onboarded"))
           end
  | MerchantFeeTierChanged mid tier =>
      if negb (truthy mid) || negb (truthy tier) then None
      else match parse_uuid mid with
           | None => None
           | Some m => Some (m, (None, match ts !! tier with Some _ => tier | None => DEFAULT_TIER end,
                                 "fee_tier.changed"))
           end
  | OtherEvent => None
  end.

(** An update on a merchant's pricing: a null org keeps the known one. *)
Definition merge (u : option uuid * string * string) (old : option (option uuid * string * string)) :
    option (option uuid * string * string) :=
  Some (match u.1.1 with Some o => Some o | None => old ≫= λ v, v.1.1 end, u.1.2, u.2).

Definition apply_update (u : option (uuid * (option uuid * string * string))) (m : uuid)
    (old : option (option uuid * string * string)) : option (option uuid * string * string) :=
  match u with
  | Some (m', v) => if decide (m' = m) then merge v old else old
  | None => old
  end.

Lemma consume_one_spec d now e :
  tiers (consume_one d (now, e)) = tiers d ∧
  ∀ m, pricing_of (consume_one d (now, e)) m = apply_update (update_of (tiers d) e) m (pricing_of d m).
Proof.
  unfold consume_one, request, consume, upsert_merchant_pricing, pricing_of. cbn [fst snd].
  destruct e as [mid org|mid tier|]; simpl; [| |done].
  - destruct (truthy mid); simpl; [|done]. destruct (parse_uuid mid) as [m'|]; simpl; [|done].
    assert (match get_tier DEFAULT_TIER d with Some _ => DEFAULT_TIER | None => DEFAULT_TIER end = DEFAULT_TIER) as ->
      by by destruct (get_tier _ _).
    split; [done|]. intros m. case_decide; subst; [rewrite lookup_insert_eq|by rewrite lookup_insert_ne].
    destruct org as [o|]; simpl; [destruct (truthy o) eqn:Ho; simpl; rewrite ?Ho|];
      destruct (merchant_pricing d !! m); simpl; try done; by destruct (parse_uuid o).
  - destruct (truthy mid), (truthy tier); simpl; try done. destruct (parse_uuid mid) as [m'|]; simpl; [|done].
    split; [done|]. intros m. unfold get_tier.
    case_decide; subst; [rewrite lookup_insert_eq|by rewrite lookup_insert_ne].
    by destruct (merchant_pricing d !! m).
Qed.

Lemma consume_all_spec es d :
  tiers (consume_all es d) = tiers d ∧
  ∀ m, pricing_of (consume_all es d) m =
    fold_left (λ v e, apply_update (update_of (tiers d) e) m v) es.*2 (pricing_of d m).
Proof.
  unfold consume_all. revert d. induction es as [|[now e] es IH]; intros d; simpl; [done|].
  destruct (consume_one_spec d now e) as [Ht Hp]. destruct (IH (consume_one d (now, e))) as [Ht' Hp'].
  split; [congruence|]. intros m. by rewrite Hp', Ht, Hp.
Qed.

(** A run of updates on one merchant is no update or a single [merge]. *)
Lemma updates_collapse ts m (es : list merchant_event) :
  (∀ v, fold_left (λ v e, apply_update (update_of ts e) m v) es v = v) ∨
  (∃ u, ∀ v, fold_left (λ v e, apply_update (update_of ts e) m v) es v = merge u v).
Proof.
  induction es as [|e es IH]; [by left|]. simpl.
  assert (He : (∀ v, apply_update (update_of ts e) m v = v) ∨
               ∃ u, ∀ v, apply_update (update_of ts e) m v = merge u v).
  { unfold apply_update. destruct (update_of ts e) as [[m' u]|]; [|by left].
    case_decide; [right; by exists u|by left]. }
  destruct IH as [IH|[u IH]], He as [He|[u' He]].
  - left. intros v. by rewrite He, IH.
  - right. exists u'. intros v. by rewrite He, IH.
  - right. exists u. intros v. by rewrite He, IH.
  - right. exists (match u.1.1 with Some o => Some o | None => u'.1.1 end, u.1.2, u.2).
    intros v. rewrite He, IH. destruct u as [[[?|] ?] ?], u' as [[[?|] ?] ?]; done.
Qed.

Lemma merge_twice u v : merge u (merge u v) = merge u v.
Proof. destruct u as [[[?|] ?] ?]; done. Qed.
End replay.

(** ** Properties *)

(** a quote in one currency is exact integer arithmetic: with fees in the
    settlement currency and products below 28 digits, [compute_quote] returns
    the percentages rounded half up to the minor unit, the fixed parts, and the
    rest as net, and raises FEE_EXCEEDS_GROSS exactly when the fees exceed the
    gross. *)
Theorem quote_matches_integers (gross : Z) (c st : string) (tier : TierFee) (rail : RailFee) (fx : option Rate)
    (Hcur : upper c = upper st) (Htf : upper (tier_fixed_currency tier) = upper st)
    (Hrf : upper (rail_fixed_currency rail) = upper st)
    (Hp : 0 ≤ gross * platform_pct_bps tier < 10 ^ prec) (Hr : 0 ≤ gross * pct_bps rail < 10 ^ prec) :
  let pf := bps_round gross (platform_pct_bps tier) + platform_fixed tier in
  let rf := bps_round gross (pct_bps rail) + fixed rail in
  compute_quote gross c st tier rail fx =
    if gross - pf - rf <? 0 then Raise (AppError FEE_EXCEEDS_GROSS)
    else Ok (mkQuote gross (upper c) gross (upper st)
               (bps_round gross (platform_pct_bps tier)) (platform_fixed tier) pf
               (bps_round gross (pct_bps rail)) (fixed rail) rf (gross - pf - rf) None).
Proof.
  intros pf rf. unfold compute_quote, settle_gross. rewrite bool_decide_eq_true_2 by done. simpl.
  rewrite !bps_of_exact, !_convert_same by done. simpl. done.
Qed.

(** every quote conserves money, in any currencies and at any rate: gross in
    the settlement currency is platform fee plus rail fee plus net, the net is
    never negative, each fee is its percentage part plus its fixed part, and a
    cross-currency quote used exactly the rate it was given for that pair. *)
Theorem quote_conserves (gross : Z) (c st : string) (tier : TierFee) (rail : RailFee) (fx : option Rate) (q : QuoteResult)
    (Hq : compute_quote gross c st tier rail fx = Ok q) :
  q_gross_settled q = q_platform_fee q + q_rail_fee q + q_net q ∧ 0 ≤ q_net q ∧
  q_platform_fee q = q_platform_pct_amount q + q_platform_fixed_amount q ∧
  q_rail_fee q = q_rail_pct_amount q + q_rail_fixed_amount q ∧
  (upper c ≠ upper st → ∃ r, fx = Some r ∧ q_fx q = Some r ∧ base r = upper c ∧ quote_ccy r = upper st ∧
     quantize0 (dec_mul (dec_int gross) (rate r)) = Some (q_gross_settled q)).
Proof.
  apply compute_quote_ok in Hq as ((Hs & Hn & Hpf & Hrf) & _ & _ & _ & Hg). split_and!; try done.
  intros Hne. unfold settle_gross in Hg. rewrite bool_decide_eq_false_2 in Hg by done.
  destruct fx as [r|]; [|done]. exists r. destruct (bool_decide (base r = upper c)) eqn:Hb; [|done].
  destruct (bool_decide (quote_ccy r = upper st)) eqn:Hqc; [|done]. simpl in Hg.
  apply bool_decide_eq_true in Hb, Hqc. unfold _round0 in Hg.
  destruct (quantize0 _) as [g|] eqn:E; simpl in Hg; [|done].
  injection Hg as Hg1 Hg2. split_and!; congruence.
Qed.

(** quoting a request is all or nothing: it commits one quote row for each
    tier and rail of the request, in order, with the locked rate and fees that
    conserve the gross; if any of them fails, no quote row is committed. *)
Theorem quote_all_or_nothing (settings : Settings) (fx_provider : provider) (uuid_str : uuid → string)
    (dec_str : dec → string) (now : Z) (fresh : nat → uuid) (m : uuid) (gross : Z) (c st : string)
    (rails : list string) (tier_names : option (list string)) (d : pdb) (x : pworld) :
  let '(r, d', _) := request (quote settings fx_provider uuid_str dec_str now fresh m gross c st rails tier_names) d x in
  match r with
  | Raise _ => quotes d' = quotes d
  | Ok qs => ∃ names fx rows,
      (names = match tier_names with
               | Some (t :: ts) => t :: ts
               | _ => [match merchant_pricing d !! m with Some mp => mp_tier mp | None => DEFAULT_TIER end]
               end) ∧
      (λ q, (iss_tier q, iss_rail q)) <$> qs = pairs_of names rails ∧
      Forall2 (issued_row dec_str now m gross (upper c) (upper st) fx) qs rows ∧ quotes d' = quotes d ++ rows
  end.
Proof.
  set (P := λ (r : outcome (exn ErrorCode) (list QuoteIssued)) (d' : pdb) (_ : pworld), match r with
  | Raise _ => quotes d' = quotes d
  | Ok qs => ∃ names fx rows,
      (names = match tier_names with
               | Some (t :: ts) => t :: ts
               | _ => [match merchant_pricing d !! m with Some mp => mp_tier mp | None => DEFAULT_TIER end]
               end) ∧
      (λ q, (iss_tier q, iss_rail q)) <$> qs = pairs_of names rails ∧
      Forall2 (issued_row dec_str now m gross (upper c) (upper st) fx) qs rows ∧ quotes d' = quotes d ++ rows
  end).
  pose proof (wp_request (quote settings fx_provider uuid_str dec_str now fresh m gross c st rails tier_names) P d x) as Hw.
  destruct (request _ d x) as [[r d'] x']. apply Hw. clear Hw. unfold quote. wp_step.
  eapply wp_mono; [apply (lock_rule settings fx_provider dec_str)|].
  intros [fx|e] w1 (Hq1 & Hq2 & Hmp & Hlock); [|done]. wp_step. eapply wp_mono; [apply tier_names_rule|].
  intros [names|e] w2; [|done]. intros [-> Hnames]. wp_step.
  eapply wp_mono; [apply quote_tiers_rule; rewrite !upper_idem; by apply Hlock|]. intros [qs|e] w3 [Hdb Hqs]; [|unfold P; congruence].
  destruct (Hqs qs eq_refl) as (Hpairs & rows & Hrows & Htx). wp_go. exists names, fx, rows.
  rewrite Hmp in Hnames. split_and!; try done. congruence.
Qed.

(** C9: the books always balance: over any sequence of accruals and invoice runs
    starting from empty books, each accrual is on at most one invoice, a merchant
    has at most one invoice per period, and every invoice has the merchant,
    period, currency, number of lines and (up to 28 digits) the exact total of
    the accruals stamped with it. *)
Theorem books_always_balance (settings : Settings) (uuid_str : uuid → string) (qs : list billing_req)
    (d : pdb) (x : pworld) (Hempty : accruals d = [] ∧ invoices d = []) (Hqs : Forall req_ok qs) :
  let d' := (fold_left (λ s q, bill_request settings uuid_str q s) qs (d, x)).1 in
  NoDup (a_id <$> accruals d') ∧ NoDup ((λ i, (i_merchant i, i_period i)) <$> invoices d') ∧
  Forall (invoice_ok d') (invoices d').
Proof.
  assert (Hb : books_ok d).
  { destruct Hempty as [Ha Hi]. unfold books_ok. rewrite Ha, Hi. simpl.
    split_and!; try constructor. intros a inv Hin. set_solver. }
  clear Hempty. assert (Hgen : ∀ s, books_ok s.1 →
    books_ok (fold_left (λ s q, bill_request settings uuid_str q s) qs s).1).
  { induction Hqs as [|q qs Hq _ IH]; intros s Hs; simpl; [done|]. apply IH. by apply bill_request_ok. }
  destruct (Hgen (d, x) Hb) as (? & _ & _ & _ & ? & ?). by split_and!.
Qed.

(** invoice generation is idempotent: once a run for a period has succeeded,
    every merchant it looked at has an invoice, and running it again generates
    nothing and changes neither the database nor the outside. *)
Theorem generate_idempotent (settings : Settings) (uuid_str : uuid → string) (fresh fresh' : nat → uuid)
    (period : string) (m : option uuid) (d d1 : pdb) (x x1 : pworld) (res : list GeneratedInvoice * nat)
    (Hd : books_ok d)
    (Hrun : request (generate_for_period settings uuid_str fresh period m) d x = (Ok res, d1, x1)) :
  (∀ a, a ∈ unbilled_accruals period m d → invoiced period (a_merchant a) d1) ∧
  ∃ skipped, request (generate_for_period settings uuid_str fresh' period m) d1 x1 = (Ok ([], skipped), d1, x1).
Proof.
  pose proof (wp_request _ (λ r d' (_ : pworld), books_ok d' ∧ bills period d d' ∧
    (is_ok r = true → ∀ a, a ∈ unbilled_accruals period m d → invoiced period (a_merchant a) d')) d x
    (generate_rule settings uuid_str fresh period m d x Hd)) as Hw.
  rewrite Hrun in Hw. destruct Hw as (Hb1 & Hbl & Hinv). specialize (Hinv eq_refl). split; [done|].
  assert (Hall : ∀ g, g ∈ (group_accruals (unbilled_accruals period m d1)).*1 → invoiced period g.1 d1).
  { intros g (a & Ha & ->)%group_accruals_keys. apply Hinv.
    apply (unbilled_rows period m d1 (proj1 Hb1)) in Ha as (Ha & Hp & Hn & Hm).
    apply (unbilled_rows period m d (proj1 Hd)). split_and!; try done. by apply (proj1 Hbl). }
  unfold request, generate_for_period in *. destruct (valid_period period); simpl in *; [|done].
  unfold mbind, handler_bind, query. simpl.
  rewrite (bill_groups_idle settings uuid_str period fresh' 0 _ (Uow d1 d1 x1) Hall). simpl. by eexists.
Qed.

(** an accrual that reaches a merchant and period already invoiced (a second
    currency, or a late payment) is never billed: no later run of that period
    stamps it. *)
Theorem late_accrual_never_billed (settings : Settings) (uuid_str : uuid → string) (fresh : nat → uuid)
    (period : string) (m : option uuid) (d : pdb) (x : pworld) (a : AccrualRow)
    (Hd : books_ok d) (Ha : a ∈ accruals d) (Hperiod : a_period a = period) (Hunbilled : a_invoice_id a = None)
    (Hinvoiced : invoiced period (a_merchant a) d) :
  let '(_, d', _) := request (generate_for_period settings uuid_str fresh period m) d x in
  a ∈ accruals d' ∧ invoiced period (a_merchant a) d'.
Proof.
  pose proof (wp_request _ (λ r d' (_ : pworld), books_ok d' ∧ bills period d d' ∧
    (is_ok r = true → ∀ a, a ∈ unbilled_accruals period m d → invoiced period (a_merchant a) d')) d x
    (generate_rule settings uuid_str fresh period m d x Hd)) as Hw.
  destruct (request _ d x) as [[r d'] x']. destruct Hw as (_ & (_ & Hi & Hkeep) & _).
  split; [apply Hkeep; [by left|done]|]. destruct Hinvoiced as (i & ? & ? & ?). exists i. auto.
Qed.

(** the merchant-event consumer tolerates replay: processing a sequence of
    events and then the whole sequence again (at other times, as a redelivery
    does) leaves every merchant's org, tier and source as the first pass left
    them. *)
Theorem merchant_replay_idempotent (parse_uuid : string → option uuid) (es es' : list (Z * merchant_event)) (d : pdb)
    (Hsame : es'.*2 = es.*2) :
  ∀ m, pricing_of (consume_all parse_uuid (es ++ es') d) m = pricing_of (consume_all parse_uuid es d) m.
Proof.
  intros m. unfold consume_all. rewrite fold_left_app. fold (consume_all parse_uuid es d).
  fold (consume_all parse_uuid es' (consume_all parse_uuid es d)).
  destruct (consume_all_spec parse_uuid es' (consume_all parse_uuid es d)) as [_ ->].
  destruct (consume_all_spec parse_uuid es d) as [-> ->]. rewrite Hsame.
  destruct (updates_collapse parse_uuid (tiers d) m es.*2) as [Hid|[u Hu]].
  - by rewrite !Hid.
  - by rewrite !Hu, merge_twice.
Qed.

(** ** Witnesses *)

Definition demo_tier : TierFee := mkTierFee "standard" 250 10 "KES".
Definition demo_rail : RailFee := mkRailFee "mpesa" 100 5 "KES".

Example demo_quote_net :
  (λ q, (q_platform_fee q, q_rail_fee q, q_net q)) <$>
    match compute_quote 10050 "kes" "KES" demo_tier demo_rail None with Ok q => Some q | Raise _ => None end
  = Some (261, 106, 9683).
Proof. by vm_compute. Qed.

Lemma quote_matches_integers_witness :
  compute_quote 10050 "kes" "KES" demo_tier demo_rail None =
    Ok (mkQuote 10050 "KES" 10050 "KES" 251 10 261 101 5 106 9683 None).
Proof.
  pose proof (quote_matches_integers 10050 "kes" "KES" demo_tier demo_rail None) as Hq.
  rewrite Hq; [vm_compute; reflexivity|reflexivity..| |]; vm_compute; split; congruence.
Defined.

Definition usd_kes : Rate := mkRate "USD" "KES" (Dec 12950 (-2)) "static" 0.

Lemma quote_conserves_witness :
  ∃ q, compute_quote 1001 "USD" "KES" demo_tier demo_rail (Some usd_kes) = Ok q ∧
    q_gross_settled q = 129630 ∧ q_gross_settled q = q_platform_fee q + q_rail_fee q + q_net q.
Proof.
  destruct (compute_quote 1001 "USD" "KES" demo_tier demo_rail (Some usd_kes)) as [q|e] eqn:E;
    [|vm_compute in E; discriminate].
  exists q. split; [reflexivity|]. split; [vm_compute in E; injection E as <-; reflexivity|].
  apply (quote_conserves 1001 "USD" "KES" demo_tier demo_rail (Some usd_kes) q E).
Defined.

Definition demo_settings : Settings := mkSettings "fee-pricing-service" 60 ∅ false "KES".

Definition empty_db : pdb := mkPdb ∅ [] ∅ [] [] [] 1 [] [].

Definition demo_reqs : list billing_req :=
  [RecordAccrual 7%N 250 "kes" "pay-1" 1709251200 None; RecordAccrual 7%N 30 "kes" "pay-2" 1709251201 None;
   RecordAccrual 7%N 30 "kes" "pay-2" 1709251201 None; Generate N.of_nat "2024-03" None;
   RecordAccrual 7%N 5 "USD" "pay-3" 1709251202 None].

Definition demo_books : pdb :=
  (fold_left (λ s q, bill_request demo_settings (λ _, "") q s) demo_reqs (empty_db, mkPW ∅ [] [])).1.

Lemma books_always_balance_witness :
  i_total_fee <$> invoices demo_books = [280] ∧ Forall (invoice_ok demo_books) (invoices demo_books).
Proof.
  split; [vm_compute; reflexivity|].
  apply (books_always_balance demo_settings (λ _, "") demo_reqs empty_db (mkPW ∅ [] [])).
  - split; reflexivity.
  - repeat constructor; vm_compute; congruence.
Defined.

Lemma demo_books_ok : books_ok demo_books.
Proof.
  unfold demo_books. assert (Hgen : ∀ qs s, Forall req_ok qs → books_ok s.1 →
    books_ok (fold_left (λ s q, bill_request demo_settings (λ _, "") q s) qs s).1).
  { intros qs. induction qs as [|q qs IH]; intros s [Hq Hqs]%Forall_cons Hs || intros s _ Hs; simpl; [done|].
    apply IH; [done|]. by apply bill_request_ok. }
  apply Hgen; [repeat constructor; vm_compute; congruence|].
  unfold books_ok. simpl. split_and!; try constructor. intros a inv Hin. set_solver.
Qed.

Lemma generate_idempotent_witness :
  ∃ d1 x1, request (generate_for_period demo_settings (λ _, "") (λ k, N.of_nat (k + 40)) "2024-03" None) demo_books
             (mkPW ∅ [] []) = (Ok ([], 1%nat), d1, x1) ∧
  ∃ skipped, request (generate_for_period demo_settings (λ _, "") N.of_nat "2024-03" None) d1 x1
             = (Ok ([], skipped), d1, x1).
Proof.
  destruct (request (generate_for_period demo_settings (λ _, "") (λ k, N.of_nat (k + 40)) "2024-03" None) demo_books
             (mkPW ∅ [] [])) as [[r d1] x1] eqn:E.
  assert (r = Ok ([], 1%nat)) as -> by (vm_compute in E; injection E as <- _ _; reflexivity).
  exists d1, x1. split; [reflexivity|].
  exact (proj2 (generate_idempotent demo_settings (λ _, "") (λ k, N.of_nat (k + 40)) N.of_nat "2024-03" None
    demo_books d1 (mkPW ∅ [] []) x1 ([], 1%nat) demo_books_ok E)).
Defined.

Definition late_accrual : AccrualRow := mkAccrual 3 7%N "2024-03" 5 "USD" "pay-3" None None 1709251202.

Lemma late_accrual_never_billed_witness :
  let '(_, d', _) := request (generate_for_period demo_settings (λ _, "") N.of_nat "2024-03" None) demo_books
                       (mkPW ∅ [] []) in
  late_accrual ∈ accruals d' ∧ invoiced "2024-03" (a_merchant late_accrual) d'.
Proof.
  apply (late_accrual_never_billed demo_settings (λ _, "") N.of_nat "2024-03" None demo_books (mkPW ∅ [] []) late_accrual).
  - exact demo_books_ok.
  - apply (list_elem_of_lookup_2 _ 2). vm_compute. reflexivity.
  - reflexivity.
  - reflexivity.
  - exists (mkInvoice 0%N 7%N "2024-03" "KES" 280 2 "ISSUED"). split; [|split; reflexivity].
    apply (list_elem_of_lookup_2 _ 0). vm_compute. reflexivity.
Defined.

Definition demo_events (t : Z) : list (Z * merchant_event) :=
  [(t, MerchantOnboarded "m" (Some "o")); (t + 1, MerchantFeeTierChanged "m" "growth")].

Lemma merchant_replay_idempotent_witness :
  pricing_of (consume_all (λ _, Some 5%N) (demo_events 0 ++ demo_events 100) empty_db) 5%N =
  pricing_of (consume_all (λ _, Some 5%N) (demo_events 0) empty_db) 5%N.
Proof.
  apply (merchant_replay_idempotent (λ _, Some 5%N) (demo_events 0) (demo_events 100) empty_db). reflexivity.
Defined.

End Pricing.
