(* ===== verification/Invoice.v ===== *)
(** * invoice-subscription: invoices backed by one PayLink

    [invoice-subscription/app]: [domain/models.py] (line and tax arithmetic),
    [domain/services.py] (create, finalize, void, settlement and the overdue
    sweep), [db/repositories.py], [events/consumer.py] and the request checks of
    [api/v1/schemas.py].  paylink-service is reached through [PaylinkPort]. *)
From S2P Require Import Prelude PyText PyDecimal PyJson UnitOfWork Tables.
From Stdlib Require Import Ascii.

Module Invoice.
Open Scope Z_scope.

(** ** errors.py *)

Inductive ErrorCode :=
| INVALID_PAYLOAD | INVALID_QUERY | IDEMPOTENT_CONFLICT | UNAUTHORIZED | FORBIDDEN | INTERNAL_ERROR
| INVALID_TOKEN | TOKEN_EXPIRED | INVOICE_NOT_FOUND | INVALID_STATE | ALREADY_PAID | PAYLINK_UNAVAILABLE.

(** ** domain/models.py *)

Inductive InvoiceStatus := DRAFT | OPEN | PAID | VOID | OVERDUE.

#[global] Instance InvoiceStatus_eq_dec : EqDecision InvoiceStatus.
Proof. solve_decision. Defined.

Definition status_value (s : InvoiceStatus) : string :=
  match s with DRAFT => "DRAFT" | OPEN => "OPEN" | PAID => "PAID" | VOID => "VOID" | OVERDUE => "OVERDUE" end.

Record LineInput := mkLine { l_description : string; l_quantity : dec; l_unit_price : Z; l_tax_rate : dec }.

Record ComputedLine := mkComputed {
  cl_description : string; cl_quantity : dec; cl_unit_price : Z; cl_total : Z; cl_tax_rate : dec }.

Record ComputedTotals := mkTotals { t_lines : list ComputedLine; t_subtotal : Z; t_tax : Z; t_total : Z }.

Notation result := (outcome (exn ErrorCode)).

Definition _round0 (value : dec) : result Z :=
  match quantize0 value with Some z => Ok z | None => Raise (PyError InvalidOperation) end.

(** The loop of [compute_totals]. *)
Fixpoint totals_from (lines : list LineInput) (computed : list ComputedLine) (subtotal tax : Z) :
    result ComputedTotals :=
  match lines with
  | [] => Ok (mkTotals computed subtotal tax (subtotal + tax))
  | ln :: rest =>
      let? line_total := _round0 (dec_mul (l_quantity ln) (dec_int (l_unit_price ln))) in
      let? line_tax := _round0 (dec_mul (dec_int line_total) (l_tax_rate ln)) in
      totals_from rest
        (computed ++ [mkComputed (l_description ln) (l_quantity ln) (l_unit_price ln) line_total (l_tax_rate ln)])
        (subtotal + line_total) (tax + line_tax)
  end.

Definition compute_totals (lines : list LineInput) : result ComputedTotals := totals_from lines [] 0 0.

Definition effective_status (status : string) (due_at now : Z) : string :=
  if bool_decide (status = status_value OPEN) && (due_at <? now) then status_value OVERDUE else status.

(** ** db/models.py *)

Record InvoiceRow := mkInvoice {
  invoice_id : uuid;
  merchant_id : uuid;
  customer_id : option uuid;
  payee_addr : string;
  pl_id : option string;
  currency : string;
  subtotal : Z;
  tax : Z;
  total : Z;
  status : string;
  due_at : Z;
  paid_at : option Z;
  created_at : Z }.

Record InvoiceLineRow := mkLineRow {
  ln_invoice : uuid; ln_description : string; ln_quantity : dec; ln_unit_price : Z; ln_total : Z; ln_tax_rate : dec }.

Record InvoiceEventRow := mkEvent { ev_invoice : uuid; ev_kind : string; ev_payload : json }.

Record idb := mkIdb { invoices : gmap uuid InvoiceRow; lines : list InvoiceLineRow; events : list InvoiceEventRow }.

(** Outside: events published in process, and the PayLinks asked for (with
    their idempotency keys). *)
Record iworld := mkIW { published : list (string * json); minted : list string }.

Notation H := (handler idb iworld ErrorCode).

Definition numeric38 : Z := 10 ^ 38.

(** ** db/repositories.py *)

Definition insert_invoice (row : InvoiceRow) (d : idb) : outcome pyerr idb :=
  if numeric38 <=? Z.max (Z.max (Z.abs (subtotal row)) (Z.abs (tax row))) (Z.abs (total row)) then Raise DataError
  else match invoices d !! invoice_id row with
  | Some _ => Raise IntegrityError
  | None => Ok (mkIdb (<[invoice_id row := row]> (invoices d)) (lines d) (events d))
  end.

Definition insert_lines (rows : list InvoiceLineRow) (d : idb) : outcome pyerr idb :=
  if existsb (λ r, numeric38 <=? Z.max (Z.abs (ln_unit_price r)) (Z.abs (ln_total r))) rows then Raise DataError
  else Ok (mkIdb (invoices d) (lines d ++ rows) (events d)).

Definition list_lines (i : uuid) (d : idb) : list InvoiceLineRow := filter (λ r, ln_invoice r = i) (lines d).

Definition add_event (i : uuid) (kind : string) (payload : json) (d : idb) : idb :=
  mkIdb (invoices d) (lines d) (events d ++ [mkEvent i kind payload]).

Definition rows (d : idb) : list InvoiceRow := (map_to_list (invoices d)).*2.

Definition get_by_plid (p : string) (d : idb) : option InvoiceRow :=
  head (filter (λ r, pl_id r = Some p) (rows d)).

Definition due_first (a b : InvoiceRow) : Prop := due_at a ≤ due_at b.
Definition newest_first (a b : InvoiceRow) : Prop := created_at b ≤ created_at a.

#[global] Instance due_first_dec : RelDecision due_first.
Proof. intros a b. unfold due_first. apply _. Defined.

#[global] Instance newest_first_dec : RelDecision newest_first.
Proof. intros a b. unfold newest_first. apply _. Defined.

Definition find_overdue (now : Z) (limit : nat) (d : idb) : list InvoiceRow :=
  take limit (merge_sort due_first
    (filter (λ r, status r = status_value OPEN ∧ due_at r < now) (rows d))).

(** [ORDER BY created_at DESC LIMIT .. OFFSET ..] *)
Definition list_invoices (m : uuid) (st : option string) (limit offset : nat) (d : idb) : list InvoiceRow :=
  take limit (drop offset (merge_sort newest_first
    (filter (λ r, merchant_id r = m ∧ (st = None ∨ st = Some (status r))) (rows d)))).

(** Attribute writes on a loaded row. *)
Definition update_row (i : uuid) (f : InvoiceRow → InvoiceRow) (d : idb) : idb :=
  mkIdb (alter f i (invoices d)) (lines d) (events d).

Definition with_status (s : InvoiceStatus) (r : InvoiceRow) : InvoiceRow :=
  mkInvoice (invoice_id r) (merchant_id r) (customer_id r) (payee_addr r) (pl_id r) (currency r) (subtotal r)
    (tax r) (total r) (status_value s) (due_at r) (paid_at r) (created_at r).

Definition finalized (p : string) (r : InvoiceRow) : InvoiceRow :=
  mkInvoice (invoice_id r) (merchant_id r) (customer_id r) (payee_addr r) (Some p) (currency r) (subtotal r)
    (tax r) (total r) (status_value OPEN) (due_at r) (paid_at r) (created_at r).

Definition settled (now : Z) (r : InvoiceRow) : InvoiceRow :=
  mkInvoice (invoice_id r) (merchant_id r) (customer_id r) (payee_addr r) (pl_id r) (currency r) (subtotal r)
    (tax r) (total r) (status_value PAID) (due_at r) (Some now) (created_at r).

(** The UPDATE that sets [pl_id]; the column is UNIQUE. *)
Definition set_plid (i : uuid) (p : string) (d : idb) : outcome pyerr idb :=
  match get_by_plid p d with
  | Some other => if decide (invoice_id other = i) then Ok (update_row i (finalized p) d) else Raise IntegrityError
  | None => Ok (update_row i (finalized p) d)
  end.

(** ** domain/services.py *)

(** paylink-service's create: the [pl_id] of the answer ([None] when missing or
    empty), or nothing on [PaylinkError]. *)
Class PaylinkPort := mint :
  ∀ (receiver : string) (amount : Z) (currency : string) (expiry : Z) (metadata : json) (key : string),
    option (option string).

(** *** paylinks/client.py: the port over HTTP

    [http_answer]: [Unreachable] for [httpx.HTTPError], otherwise the status and
    the decoded body ([None] when it is no JSON). *)
Record http_request := mkPost { path : string; body : list (string * json); headers : list (string * string) }.

Inductive http_answer := Unreachable | Answer (code : Z) (data : option json).

Section client.
Variables (base : string) (token : option string) (iso : Z → string) (http : http_request → http_answer).

Definition client_request (receiver : string) (amount : Z) (cur : string) (expiry : Z) (metadata : list (string * json))
    (key : option string) : http_request :=
  mkPost (base +:+ "/v1/paylinks")
    ([("receiver", JStr receiver); ("amount", JInt amount); ("currency", JStr cur); ("expiry", JStr (iso expiry));
      ("usage", JStr "single")] ++ (if bool_decide (metadata = []) then [] else [("metadata", JObj metadata)]))
    ([("Content-Type", "application/json"); ("X-Creator-Addr", receiver)] ++
     (if otruthy token then [("X-Internal-Token", default "" token)] else []) ++
     (if otruthy key then [("Idempotency-Key", default "" key)] else [])).

(** [PaylinkClient.create]; nothing stands for [PaylinkError]. *)
Definition client_create (receiver : string) (amount : Z) (cur : string) (expiry : Z) (metadata : list (string * json))
    (key : option string) : option json :=
  match http (client_request receiver amount cur expiry metadata key) with
  | Unreachable => None
  | Answer code data => if bool_decide (code ≠ 201) then None else data
  end.

(** paylink-service answers 201 with an object whose [pl_id] is text. *)
Definition answered_plid (data : json) : option string :=
  match data with
  | JObj o => match head (filter (λ kv, kv.1 = "pl_id") o) with Some (_, JStr p) => Some p | _ => None end
  | _ => None
  end.

#[local] Instance client_port : PaylinkPort := λ receiver amount cur expiry metadata key,
  answered_plid <$> client_create receiver amount cur expiry (match metadata with JObj o => o | _ => [] end) (Some key).
End client.

Definition INVOICE_CREATED : string := "invoice.created".
Definition INVOICE_FINALIZED : string := "invoice.finalized".
Definition INVOICE_PAID : string := "invoice.paid".
Definition INVOICE_VOIDED : string := "invoice.voided".
Definition INVOICE_OVERDUE : string := "invoice.overdue".

Definition jz (z : Z) : json := JStr (text (PyJson.print_Z z)).

Section service.
Variables (uuid_str : uuid → string) (iso : Z → string).
Context `{!PaylinkPort}.

Definition _emit (i : uuid) (kind : string) (payload : json) : H unit :=
  write (add_event i kind payload) ;;
  effect (λ x, mkIW (published x ++ [(kind, payload)]) (minted x)).

Definition _load_owned (m i : uuid) : H InvoiceRow :=
  row ← query (λ d, invoices d !! i);
  match row with
  | Some r => if bool_decide (merchant_id r = m) then mret r else raise INVOICE_NOT_FOUND
  | None => raise INVOICE_NOT_FOUND
  end.

Definition line_row (i : uuid) (c : ComputedLine) : InvoiceLineRow :=
  mkLineRow i (cl_description c) (cl_quantity c) (cl_unit_price c) (cl_total c) (cl_tax_rate c).

Definition created_payload (i m : uuid) (cur : string) (t : Z) : json :=
  JObj [("invoice_id", JStr (uuid_str i)); ("merchant_id", JStr (uuid_str m)); ("currency", JStr cur);
        ("total", jz t); ("status", JStr (status_value DRAFT))].

Definition create (now : Z) (i m : uuid) (customer : option uuid) (payee cur : string) (ls : list LineInput) (due : Z) :
    H InvoiceRow :=
  t ← lift (compute_totals ls);
  let row := mkInvoice i m customer payee None cur (t_subtotal t) (t_tax t) (t_total t) (status_value DRAFT) due None now in
  try_write (insert_invoice row) ;;
  try_write (insert_lines (line_row i <$> t_lines t)) ;;
  _emit i INVOICE_CREATED (created_payload i m cur (t_total t)) ;;
  commit ;;
  mret row.

Definition row_payload (r : InvoiceRow) (p : string) (s : InvoiceStatus) : json :=
  JObj [("invoice_id", JStr (uuid_str (invoice_id r))); ("pl_id", JStr p); ("merchant_id", JStr (uuid_str (merchant_id r)));
        ("total", jz (total r)); ("currency", JStr (currency r)); ("status", JStr (status_value s))].

Definition mint_key (i : uuid) : string := "invoice-" +:+ uuid_str i.

Definition finalize (m i : uuid) : H InvoiceRow :=
  row ← _load_owned m i;
  if bool_decide (status row ≠ status_value DRAFT) then raise INVALID_STATE
  else
    effect (λ x, mkIW (published x) (minted x ++ [mint_key i])) ;;
    match mint (payee_addr row) (total row) (currency row) (due_at row)
            (JObj [("invoice_id", JStr (uuid_str i))]) (mint_key i) with
    | None => raise PAYLINK_UNAVAILABLE
    | Some answer =>
        let p := default "" answer in
        if negb (truthy p) then raise PAYLINK_UNAVAILABLE
        else
          try_write (set_plid i p) ;;
          _emit i INVOICE_FINALIZED (row_payload row p OPEN) ;;
          commit ;;
          mret (finalized p row)
    end.

Definition void_payload (i m : uuid) : json :=
  JObj [("invoice_id", JStr (uuid_str i)); ("merchant_id", JStr (uuid_str m)); ("status", JStr (status_value VOID))].

Definition void (m i : uuid) : H InvoiceRow :=
  row ← _load_owned m i;
  if bool_decide (status row = status_value PAID) then raise ALREADY_PAID
  else if bool_decide (status row = status_value VOID) then raise INVALID_STATE
  else
    write (update_row i (with_status VOID)) ;;
    _emit i INVOICE_VOIDED (void_payload i m) ;;
    commit ;;
    mret (with_status VOID row).

Definition get (m i : uuid) : H (InvoiceRow * list InvoiceLineRow) :=
  row ← _load_owned m i;
  ls ← query (list_lines i);
  mret (row, ls).

Definition mark_paid_by_plid (now : Z) (p : string) : H bool :=
  row ← query (get_by_plid p);
  match row with
  | None => mret false
  | Some r =>
      if bool_decide (status r ∈ [status_value OPEN; status_value OVERDUE]) then
        write (update_row (invoice_id r) (settled now)) ;;
        _emit (invoice_id r) INVOICE_PAID (row_payload r p PAID) ;;
        commit ;;
        mret true
      else mret false
  end.

Definition overdue_payload (r : InvoiceRow) : json :=
  JObj [("invoice_id", JStr (uuid_str (invoice_id r))); ("merchant_id", JStr (uuid_str (merchant_id r)));
        ("due_at", JStr (iso (due_at r))); ("total", jz (total r)); ("currency", JStr (currency r));
        ("status", JStr (status_value OVERDUE))].

(** The body of the sweep's loop. *)
Definition flip_overdue (r : InvoiceRow) : H unit :=
  write (update_row (invoice_id r) (with_status OVERDUE)) ;;
  _emit (invoice_id r) INVOICE_OVERDUE (overdue_payload r).

Definition sweep_overdue (now : Z) : H nat :=
  rs ← query (find_overdue now 100);
  for_each rs flip_overdue ;;
  when (negb (bool_decide (rs = []))) commit ;;
  mret (length rs).

(** ** events/consumer.py *)

Definition CHAIN_PAYLINK_VERIFIED : string := "chain.paylink.verified".

(** [payload.get("entity_id") or payload.get("pl_id")], as text. *)
Definition handle_event (now : Z) (name : string) (entity_id pl : option string) : H unit :=
  if bool_decide (name ≠ CHAIN_PAYLINK_VERIFIED) then mret tt
  else
    let p := if otruthy entity_id then entity_id else pl in
    match p with
    | Some p => if truthy p then _ ← mark_paid_by_plid now p; mret tt else mret tt
    | None => mret tt
    end.
End service.

(** ** api/v1: listing and request checks *)

Definition list_ (m : uuid) (st : option string) (limit offset : nat) : H (list InvoiceRow) :=
  match st with
  | Some v => if bool_decide (v ∉ status_value <$> [DRAFT; OPEN; PAID; VOID; OVERDUE]) then raise INVALID_QUERY
              else query (list_invoices m st limit offset)
  | None => query (list_invoices m st limit offset)
  end.

(** [_summary]: what a read shows of a row. *)
Record Summary := mkSummary { s_id : uuid; s_plid : option string; s_subtotal : Z; s_tax : Z; s_total : Z; s_status : string;
  s_due : Z; s_paid : option Z }.

Definition _summary (r : InvoiceRow) (now : Z) : Summary :=
  mkSummary (invoice_id r) (pl_id r) (subtotal r) (tax r) (total r) (effective_status (status r) (due_at r) now)
    (due_at r) (paid_at r).

Definition list_route (now : Z) (m : uuid) (st : option string) (limit offset : nat) : H (list Summary) :=
  rs ← list_ m st limit offset;
  mret ((λ r, _summary r now) <$> rs).

Definition get_route (now : Z) (m i : uuid) : H (Summary * list InvoiceLineRow) :=
  r ← get m i;
  mret (_summary r.1 now, r.2).

(** [(req.currency or settings.default_currency).upper()] *)
Definition create_route (uuid_str : uuid → string) (default_currency : string) (now : Z) (i m : uuid)
    (customer : option uuid) (payee : string) (cur : option string) (ls : list LineInput) (due : Z) :
    H (uuid * option string * string) :=
  r ← create uuid_str now i m customer payee (upper (str_or cur default_currency)) ls due;
  mret (invoice_id r, pl_id r, status r).

Definition is_lower_hex (c : ascii) : bool :=
  let k := N_of_ascii c in (((48 <=? k) && (k <=? 57)) || ((97 <=? k) && (k <=? 102)))%N.

(** [norm = v.strip().lower()], then [_ADDR_RE.match(norm)]; a stripped text has
    no final newline. *)
Definition _validate_addr (v : string) : outcome pyerr string :=
  let norm := lower (strip v) in
  match chars norm with
  | "0"%char :: "x"%char :: l =>
      if forallb is_lower_hex (take 40 l) && bool_decide (length (take 40 l) = 40%nat) &&
         bool_decide (drop 40 l = [] ∨ drop 40 l = [ascii_of_N 10])
      then Ok norm else Raise ValueError
  | _ => Raise ValueError
  end.

Definition _validate_due (now v : Z) : outcome pyerr Z := if v <=? now then Raise ValueError else Ok v.

(** ** Line arithmetic against integers *)

(** [n / 10^k] to the nearest integer, halves up. *)
Definition round_pow (n k : Z) : Z := (2 * n + 10 ^ k) / (2 * 10 ^ k).

Lemma half_up_round n k : 0 ≤ n → 0 ≤ k → half_up (Dec n (- k)) = round_pow n k.
Proof.
  intros Hn Hk. unfold half_up, round_pow. cbn [coef expo].
  assert (0 < 10 ^ k) by (apply Z.pow_pos_nonneg; lia).
  destruct (Z.leb_spec 0 (- k)) as [Hle|Hlt].
  - assert (k = 0) as -> by lia. change (10 ^ - 0) with 1. change (10 ^ 0) with 1.
    rewrite Z.mul_1_r, Z.mul_1_r. replace (2 * n + 1) with (1 + n * 2) by lia. by rewrite Z.div_add by lia.
  - replace (- - k) with k by lia. rewrite Z.abs_eq by lia.
    destruct (Z.eq_dec n 0) as [->|]; [|rewrite Z.sgn_pos by lia; lia].
    simpl. symmetry. apply Z.div_small. lia.
Qed.

Lemma round_pow_bounds n k : 0 ≤ n → 0 ≤ k → 0 ≤ round_pow n k ≤ n.
Proof.
  intros Hn Hk. unfold round_pow. assert (1 ≤ 10 ^ k) by (pose proof (Z.pow_pos_nonneg 10 k); lia). split.
  - apply Z.div_pos; lia.
  - apply Z.lt_succ_r. apply Z.div_lt_upper_bound; nia.
Qed.

(** What the request schema guarantees of a line (up to four decimals, nothing
    negative), and that its products fit 28 digits. *)
Definition line_fits (ln : LineInput) : Prop :=
  0 ≤ coef (l_quantity ln) ∧ -4 ≤ expo (l_quantity ln) ≤ 0 ∧ 0 ≤ l_unit_price ln ∧
  0 ≤ coef (l_tax_rate ln) ∧ -4 ≤ expo (l_tax_rate ln) ≤ 0 ∧
  coef (l_quantity ln) * l_unit_price ln < 10 ^ prec ∧
  coef (l_quantity ln) * l_unit_price ln * coef (l_tax_rate ln) < 10 ^ prec.

Definition line_net (ln : LineInput) : Z :=
  round_pow (coef (l_quantity ln) * l_unit_price ln) (- expo (l_quantity ln)).

Definition line_tax (ln : LineInput) : Z :=
  round_pow (line_net ln * coef (l_tax_rate ln)) (- expo (l_tax_rate ln)).

Lemma _round0_exact c e : 0 ≤ c < 10 ^ prec → e ≤ 0 → _round0 (dec_fix (Dec c e)) = Ok (round_pow c (- e)).
Proof.
  intros Hc He. rewrite dec_fix_small by (simpl; lia). unfold _round0, quantize0.
  replace (Dec c e) with (Dec c (- (- e))) by (f_equal; lia). rewrite half_up_round by lia.
  pose proof (round_pow_bounds c (- e) ltac:(lia) ltac:(lia)). rewrite (proj2 (Z.ltb_lt _ _)) by lia. done.
Qed.

Definition computed_line (ln : LineInput) : ComputedLine :=
  mkComputed (l_description ln) (l_quantity ln) (l_unit_price ln) (line_net ln) (l_tax_rate ln).

Lemma line_steps ln :
  line_fits ln →
  _round0 (dec_mul (l_quantity ln) (dec_int (l_unit_price ln))) = Ok (line_net ln) ∧
  _round0 (dec_mul (dec_int (line_net ln)) (l_tax_rate ln)) = Ok (line_tax ln).
Proof.
  intros (Hq & Hqe & Hp & Ht & Hte & Hf1 & Hf2). unfold dec_mul, dec_int. cbn [coef expo].
  pose proof (round_pow_bounds (coef (l_quantity ln) * l_unit_price ln) (- expo (l_quantity ln)) ltac:(nia) ltac:(lia)) as Hn.
  fold (line_net ln) in Hn. split.
  - rewrite Z.add_0_r. rewrite _round0_exact by nia. done.
  - rewrite Z.add_0_l. rewrite _round0_exact by nia. done.
Qed.

Lemma totals_from_exact ls acc s t :
  Forall line_fits ls →
  totals_from ls acc s t =
    Ok (mkTotals (acc ++ (computed_line <$> ls)) (s + sumZ line_net ls) (t + sumZ line_tax ls)
          ((s + sumZ line_net ls) + (t + sumZ line_tax ls))).
Proof.
  intros Hls. revert acc s t. induction Hls as [|ln ls Hl _ IH]; intros acc s t; simpl.
  { by rewrite app_nil_r, !Z.add_0_r. }
  destruct (line_steps ln Hl) as [-> Hx]. simpl. rewrite Hx. simpl. rewrite IH, <- app_assoc.
  do 2 f_equal; simpl; lia.
Qed.

(** ** Behaviour of the operations *)

Ltac inv_step :=
  match goal with
  | |- wp (_emit _ _ _) _ _ => unfold _emit
  | |- wp (_load_owned _ _) _ _ => unfold _load_owned
  | _ => wp_step
  end.
Ltac inv_go := repeat (cbv beta iota zeta; inv_step).

(** The moves of an invoice's status. *)
Inductive edge : InvoiceStatus → InvoiceStatus → Prop :=
| edge_draft s : s ∈ [OPEN; VOID] → edge DRAFT s
| edge_open s : s ∈ [PAID; VOID; OVERDUE] → edge OPEN s
| edge_overdue s : s ∈ [PAID; VOID] → edge OVERDUE s.

(** How a row may change: the terms stay, the status moves along the edges, a
    PayLink id once set stays. *)
Definition evolves (r r' : InvoiceRow) : Prop :=
  invoice_id r' = invoice_id r ∧ merchant_id r' = merchant_id r ∧ payee_addr r' = payee_addr r ∧
  currency r' = currency r ∧ subtotal r' = subtotal r ∧ tax r' = tax r ∧ total r' = total r ∧ due_at r' = due_at r ∧
  (pl_id r ≠ None → pl_id r' = pl_id r) ∧
  ∀ s, status r = status_value s → ∃ s', status r' = status_value s' ∧ rtc edge s s'.

#[global] Instance evolves_preorder : PreOrder evolves.
Proof.
  split.
  - intros r. repeat split; try done. intros s Hs. by exists s.
  - intros r1 r2 r3 (? & ? & ? & ? & ? & ? & ? & ? & Hp & Hs) (? & ? & ? & ? & ? & ? & ? & ? & Hp' & Hs').
    unfold evolves. split_and!; try congruence.
    + intros Hn. rewrite Hp' by (by rewrite Hp). by apply Hp.
    + intros s Hst. destruct (Hs s Hst) as (s2 & Hs2 & He). destruct (Hs' s2 Hs2) as (s3 & Hs3 & He').
      exists s3. split; [done|by etrans].
Qed.

Lemma invoice_status_inj s s' : status_value s = status_value s' → s = s'.
Proof. intros Hs. by destruct s, s'. Qed.

(** A row as the service keeps it. *)
Definition row_ok (i : uuid) (r : InvoiceRow) : Prop :=
  invoice_id r = i ∧
  ∃ s, status r = status_value s ∧
    (s = DRAFT → pl_id r = None) ∧ (s ∈ [OPEN; PAID; OVERDUE] → pl_id r ≠ None) ∧ (s = PAID ↔ paid_at r ≠ None).

Definition db_ok (d : idb) : Prop :=
  map_Forall row_ok (invoices d) ∧
  ∀ i j r r' p, invoices d !! i = Some r → invoices d !! j = Some r' → pl_id r = Some p → pl_id r' = Some p → i = j.

Definition announced (d : idb) : list (string * json) := (λ e, (ev_kind e, ev_payload e)) <$> events d.

(** A request keeps the database well formed, moves the rows it finds along the
    edges, and announces exactly what it commits. *)
Definition kept (d d' : idb) (x' : iworld) : Prop :=
  db_ok d' ∧ moves evolves (invoices d) (invoices d') ∧ announced d' = published x'.

(** Updating one row without touching its PayLink id. *)
Lemma update_ok d i r f :
  db_ok d → invoices d !! i = Some r → evolves r (f r) → row_ok i (f r) → pl_id (f r) = pl_id r →
  db_ok (update_row i f d) ∧ moves evolves (invoices d) (invoices (update_row i f d)).
Proof.
  intros [Hrows Huniq] Hr He Hok Hp. split; [split|].
  - simpl. apply map_Forall_alter_2; [done|]. intros r0 Hr0 _. by simplify_eq.
  - assert (Hpl : ∀ j rj p, invoices (update_row i f d) !! j = Some rj → pl_id rj = Some p →
        ∃ r0, invoices d !! j = Some r0 ∧ pl_id r0 = Some p).
    { simpl. intros j rj p [(-> & r0 & ? & ->)|[? ?]]%lookup_alter_Some Hpj; simplify_eq; eauto.
      exists r. split; [done|congruence]. }
    intros j k rj rk p Hj Hk Hpj Hpk. destruct (Hpl j rj p Hj Hpj) as (? & ? & ?).
    destruct (Hpl k rk p Hk Hpk) as (? & ? & ?). by eapply Huniq.
  - simpl. apply moves_alter; [apply _|]. intros r0 Hr0. by simplify_eq.
Qed.

Lemma evolves_status s s' (r : InvoiceRow) (r' : InvoiceRow) :
  status r = status_value s → status r' = status_value s' → rtc edge s s' →
  invoice_id r' = invoice_id r → merchant_id r' = merchant_id r → payee_addr r' = payee_addr r →
  currency r' = currency r → subtotal r' = subtotal r → tax r' = tax r → total r' = total r → due_at r' = due_at r →
  (pl_id r ≠ None → pl_id r' = pl_id r) → evolves r r'.
Proof.
  intros Hs Hs' He ?????????. unfold evolves. split_and!; try done.
  intros s0 Hs0. rewrite Hs in Hs0. apply invoice_status_inj in Hs0 as <-. eauto.
Qed.

Lemma void_row_ok i r s : row_ok i r → status r = status_value s → s ∈ [DRAFT; OPEN; OVERDUE] →
  evolves r (with_status VOID r) ∧ row_ok i (with_status VOID r).
Proof.
  intros (Hi & s0 & Hs0 & Hd & Ho & Hpaid) Hs Hin. rewrite Hs in Hs0. apply invoice_status_inj in Hs0 as <-. split.
  - eapply (evolves_status s VOID); try done. apply rtc_once. set_unfold. destruct_or!; subst; constructor; set_solver.
  - split; [done|]. exists VOID. split_and!; [done|done|set_solver|]. simpl. split; [done|].
    intros Hn%Hpaid. subst. set_solver.
Qed.

Lemma overdue_row_ok i r : row_ok i r → status r = status_value OPEN →
  evolves r (with_status OVERDUE r) ∧ row_ok i (with_status OVERDUE r).
Proof.
  intros (Hi & s0 & Hs0 & Hd & Ho & Hpaid) Hs. rewrite Hs in Hs0. apply invoice_status_inj in Hs0 as <-. split.
  - eapply (evolves_status OPEN OVERDUE); try done. apply rtc_once. constructor. set_solver.
  - split; [done|]. exists OVERDUE. split_and!; [done|done|simpl; intros _; apply Ho; set_solver|]. simpl.
    split; [done|]. by intros Hn%Hpaid.
Qed.

Lemma settled_row_ok now i r s : row_ok i r → status r = status_value s → s ∈ [OPEN; OVERDUE] →
  evolves r (settled now r) ∧ row_ok i (settled now r).
Proof.
  intros (Hi & s0 & Hs0 & Hd & Ho & Hpaid) Hs Hin. rewrite Hs in Hs0. apply invoice_status_inj in Hs0 as <-. split.
  - eapply (evolves_status s PAID); try done. apply rtc_once. set_unfold. destruct_or!; subst; constructor; set_solver.
  - split; [done|]. exists PAID. split_and!; [done|done|simpl; intros _; apply Ho; set_solver|done].
Qed.

Lemma finalized_row_ok p i r : row_ok i r → status r = status_value DRAFT →
  evolves r (finalized p r) ∧ row_ok i (finalized p r).
Proof.
  intros (Hi & s0 & Hs0 & Hd & Ho & Hpaid) Hs. rewrite Hs in Hs0. apply invoice_status_inj in Hs0 as <-. split.
  - eapply (evolves_status DRAFT OPEN); try done; [apply rtc_once; constructor; set_solver|].
    intros Hn. by rewrite Hd in Hn.
  - split; [done|]. exists OPEN. split_and!; [done|done|done|]. simpl. split; [done|]. by intros Hn%Hpaid.
Qed.

Lemma get_by_plid_some p d r : get_by_plid p d = Some r → pl_id r = Some p ∧ ∃ i, invoices d !! i = Some r.
Proof. unfold get_by_plid. intros [Hin Hp]%head_filter_some. by apply elem_of_values in Hin. Qed.

Lemma get_by_plid_none p d i r : get_by_plid p d = None → invoices d !! i = Some r → pl_id r ≠ Some p.
Proof.
  unfold get_by_plid. rewrite head_filter_none. intros Hn Hr. apply Hn, elem_of_values. by exists i.
Qed.

(** The UPDATE of finalize keeps the ids unique. *)
Lemma set_plid_ok d i r p d' :
  db_ok d → invoices d !! i = Some r → status r = status_value DRAFT → set_plid i p d = Ok d' →
  db_ok d' ∧ moves evolves (invoices d) (invoices d') ∧ events d' = events d.
Proof.
  intros Hd Hr Hs Hset. pose proof Hd as [Hrows Huniq]. destruct (finalized_row_ok p i r (Hrows i r Hr) Hs) as [He Hok].
  assert (Hfree : ∀ j rj, invoices d !! j = Some rj → pl_id rj = Some p → j = i).
  { unfold set_plid in Hset. destruct (get_by_plid p d) as [other|] eqn:E.
    - apply get_by_plid_some in E as (Hp & k & Hk). intros j rj Hj Hpj.
      destruct (Hrows k other Hk) as [Hid _]. case_decide; [|done]. rewrite (Huniq j k rj other p); congruence.
    - intros j rj Hj Hpj. by destruct (get_by_plid_none p d j rj). }
  assert (d' = update_row i (finalized p) d) as ->.
  { unfold set_plid in Hset. repeat case_match; congruence. }
  split_and!; [split|simpl; apply moves_alter; [apply _|intros ? ?; by simplify_eq]|done].
  - simpl. apply map_Forall_alter_2; [done|]. intros r0 Hr0 _. by simplify_eq.
  - assert (Hpl : ∀ j rj q, invoices (update_row i (finalized p) d) !! j = Some rj → pl_id rj = Some q →
        (j = i ∧ q = p) ∨ (j ≠ i ∧ invoices d !! j = Some rj)).
    { simpl. intros j rj q [(-> & r0 & ? & ->)|[? ?]]%lookup_alter_Some Hpj; simplify_eq/=; auto. }
    intros j k rj rk q Hj Hk Hpj Hpk.
    destruct (Hpl j rj q Hj Hpj) as [[Hji Hq]|[? Hj']], (Hpl k rk q Hk Hpk) as [[Hki Hq']|[? Hk']]; subst; try done.
    + symmetry. by eapply Hfree.
    + by eapply Hfree.
    + by eapply Huniq.
Qed.

(** ** The sweep as one function *)

Section sweep.
Variables (uuid_str : uuid → string) (iso : Z → string).

Definition sweep_one (d : idb) (r : InvoiceRow) : idb :=
  add_event (invoice_id r) INVOICE_OVERDUE (overdue_payload uuid_str iso r)
    (update_row (invoice_id r) (with_status OVERDUE) d).

Lemma sweep_loop rs d0 t x :
  for_each rs (flip_overdue uuid_str iso) (Uow d0 t x) =
  (Ok tt : outcome (exn ErrorCode) unit, Uow d0 (fold_left sweep_one rs t)
    (mkIW (published x ++ ((λ r, (INVOICE_OVERDUE, overdue_payload uuid_str iso r)) <$> rs)) (minted x))).
Proof.
  revert t x. induction rs as [|r rs IH]; intros t x; cbn [for_each].
  { destruct x. simpl. by rewrite app_nil_r. }
  unfold mbind at 1, handler_bind at 1.
  change (flip_overdue uuid_str iso r (Uow d0 t x)) with (Ok tt : outcome (exn ErrorCode) unit, Uow d0 (sweep_one t r)
    (mkIW (published x ++ [(INVOICE_OVERDUE, overdue_payload uuid_str iso r)]) (minted x))).
  cbv beta iota. rewrite IH. cbn [fold_left published minted]. by rewrite <- app_assoc.
Qed.

Lemma with_overdue_twice r : with_status OVERDUE (with_status OVERDUE r) = with_status OVERDUE r.
Proof. done. Qed.

Lemma sweep_lookup rs d i :
  invoices (fold_left sweep_one rs d) !! i =
    (if decide (i ∈ invoice_id <$> rs) then with_status OVERDUE else id) <$> invoices d !! i.
Proof.
  revert d. induction rs as [|r rs IH]; intros d; cbn [fold_left].
  { destruct (decide (i ∈ _)) as [Hi|_]; [by apply elem_of_nil in Hi|]. by destruct (invoices d !! i). }
  rewrite IH. unfold sweep_one, add_event, update_row. cbn [invoices fmap list_fmap].
  destruct (decide (i = invoice_id r)) as [->|Hne].
  - rewrite lookup_alter_eq, (decide_True (P := invoice_id r ∈ _ :: _)) by set_solver.
    destruct (invoices d !! invoice_id r); simpl; [|done]. by case_decide.
  - rewrite lookup_alter_ne by done. repeat case_decide; try done; set_solver.
Qed.

Lemma sweep_announced rs d :
  announced (fold_left sweep_one rs d) =
    announced d ++ ((λ r, (INVOICE_OVERDUE, overdue_payload uuid_str iso r)) <$> rs).
Proof.
  revert d. induction rs as [|r rs IH]; intros d; simpl; [by rewrite app_nil_r|].
  rewrite IH. unfold announced. simpl. by rewrite fmap_app, <- app_assoc.
Qed.

(** Rows that the sweep query returns are in the table, OPEN and due. *)
Lemma find_overdue_in now limit d r :
  r ∈ find_overdue now limit d → (∃ i, invoices d !! i = Some r) ∧ status r = status_value OPEN ∧ due_at r < now.
Proof.
  unfold find_overdue. intros Hin%elem_of_take. destruct Hin as (k & Hk & _). apply list_elem_of_lookup_2 in Hk.
  rewrite merge_sort_Permutation in Hk. apply list_elem_of_filter in Hk as [[? ?] Hk].
  by apply elem_of_values in Hk.
Qed.

Definition overdue_rows (now : Z) (d : idb) : list InvoiceRow :=
  filter (λ r, status r = status_value OPEN ∧ due_at r < now) (rows d).

Lemma find_overdue_all now d :
  (length (overdue_rows now d) ≤ 100)%nat → find_overdue now 100 d ≡ₚ overdue_rows now d.
Proof.
  intros Hlen. unfold find_overdue. fold (overdue_rows now d). rewrite take_ge; [apply merge_sort_Permutation|].
  by rewrite merge_sort_Permutation.
Qed.

(** Below the limit, the sweep takes exactly the due OPEN rows. *)
Lemma swept_iff now d i r :
  db_ok d → (length (overdue_rows now d) ≤ 100)%nat → invoices d !! i = Some r →
  i ∈ invoice_id <$> find_overdue now 100 d ↔ status r = status_value OPEN ∧ due_at r < now.
Proof.
  intros [Hrows _] Hlen Hr. rewrite (find_overdue_all now d Hlen), list_elem_of_fmap. split.
  - intros (r' & -> & [Hs Hin]%list_elem_of_filter). apply elem_of_values in Hin as [j Hj].
    destruct (Hrows j r' Hj) as [<- _]. congruence.
  - intros Hs. exists r. destruct (Hrows i r Hr) as [-> _]. split; [done|].
    apply list_elem_of_filter. split; [done|]. apply elem_of_values. by exists i.
Qed.

Lemma sweep_ok now d :
  db_ok d →
  db_ok (fold_left sweep_one (find_overdue now 100 d) d) ∧
  moves evolves (invoices d) (invoices (fold_left sweep_one (find_overdue now 100 d) d)).
Proof.
  intros [Hrows Huniq]. set (rs := find_overdue now 100 d).
  assert (Hin : ∀ i, i ∈ invoice_id <$> rs → ∃ r, invoices d !! i = Some r ∧ status r = status_value OPEN).
  { intros i (r & -> & Hr)%list_elem_of_fmap. apply find_overdue_in in Hr as ((j & Hj) & Hs & _).
    exists r. destruct (Hrows j r Hj) as [<- _]. by split. }
  split; [split|].
  - intros i r Hr. rewrite sweep_lookup in Hr. apply fmap_Some in Hr as (r0 & Hr0 & ->).
    case_decide as Hi; [|by apply Hrows]. destruct (Hin i Hi) as (r1 & Hr1 & Hs). simplify_eq.
    by apply overdue_row_ok; [apply Hrows|].
  - intros i j r r' p. rewrite !sweep_lookup. intros (r0 & Hr0 & ->)%fmap_Some (r1 & Hr1 & ->)%fmap_Some Hp Hp'.
    apply (Huniq i j r0 r1 p Hr0 Hr1); repeat case_decide; done.
  - intros i r Hr. eexists. rewrite sweep_lookup, Hr. split; [done|]. case_decide as Hi; [|done].
    destruct (Hin i Hi) as (r1 & Hr1 & Hs). simplify_eq. by apply (overdue_row_ok i); [apply Hrows|].
Qed.
End sweep.

(** ** Every request keeps the invariant *)

Section requests.
Variables (uuid_str : uuid → string) (iso : Z → string).
Context `{!PaylinkPort}.

Inductive ireq :=
| RCreate (now : Z) (i m : uuid) (customer : option uuid) (payee cur : string) (ls : list LineInput) (due : Z)
| RFinalize (m i : uuid)
| RVoid (m i : uuid)
| RGet (m i : uuid)
| REvent (now : Z) (name : string) (entity_id pl : option string)
| RSweep (now : Z).

Definition handle (q : ireq) : H unit :=
  match q with
  | RCreate now i m cust payee cur ls due => _ ← create uuid_str now i m cust payee cur ls due; mret tt
  | RFinalize m i => _ ← finalize uuid_str m i; mret tt
  | RVoid m i => _ ← void uuid_str m i; mret tt
  | RGet m i => _ ← get m i; mret tt
  | REvent now name e p => handle_event uuid_str now name e p
  | RSweep now => _ ← sweep_overdue uuid_str iso now; mret tt
  end.

Definition serve (s : idb * iworld) (q : ireq) : idb * iworld :=
  let '(_, d, x) := request (handle q) s.1 s.2 in (d, x).

Definition serve_all (s : idb * iworld) (qs : list ireq) : idb * iworld := fold_left serve qs s.

Definition sound (s : idb * iworld) : Prop := db_ok s.1 ∧ announced s.1 = published s.2.

Lemma kept_refl d x : db_ok d → announced d = published x → kept d d x.
Proof. intros Hd Ha. unfold kept. split_and!; [done|reflexivity|done]. Qed.

Lemma announced_add d i k p : announced (add_event i k p d) = announced d ++ [(k, p)].
Proof. unfold announced, add_event. simpl. by rewrite fmap_app. Qed.

Lemma insert_invoice_ok d row d' :
  db_ok d → insert_invoice row d = Ok d' → row_ok (invoice_id row) row → pl_id row = None →
  db_ok d' ∧ moves evolves (invoices d) (invoices d') ∧ events d' = events d.
Proof.
  intros [Hrows Huniq] Hins Hrow Hp. unfold insert_invoice in Hins. case_match; [done|].
  destruct (invoices d !! invoice_id row) eqn:Hn; [done|]. injection Hins as <-. split_and!; [split| |done].
  - simpl. by apply map_Forall_insert_2.
  - simpl. intros i j r r' p. rewrite !lookup_insert_Some.
    intros [[<- <-]|[? Hi]] [[<- <-]|[? Hj]]; try congruence. by apply (Huniq _ _ _ _ p).
  - simpl. by apply moves_insert; [apply _|].
Qed.

Lemma insert_lines_same d ls d' :
  insert_lines ls d = Ok d' → invoices d' = invoices d ∧ events d' = events d.
Proof. unfold insert_lines. case_match; [done|]. by intros [= <-]. Qed.

(** [keeps m]: from a well-formed state whose events are announced, [m] ends in one. *)
Definition keeps {A} (m : H A) : Prop := ∀ d x,
  db_ok d → announced d = published x → wp m (λ _ w, kept d (db w) (ext w)) (Uow d d x).

Lemma emit_kept d d' x i k p :
  db_ok d' → moves evolves (invoices d) (invoices d') → events d' = events d → announced d = published x →
  kept d (add_event i k p d') (mkIW (published x ++ [(k, p)]) (minted x)).
Proof.
  intros Hd Hm He Ha. split_and!; [done|done|]. rewrite announced_add. simpl. rewrite <- Ha. unfold announced. by rewrite He.
Qed.

Lemma create_keeps now i m cust payee cur ls due : keeps (create uuid_str now i m cust payee cur ls due).
Proof.
  intros d x Hd Ha. unfold create. inv_go; try by apply kept_refl.
  match goal with
  | H1 : insert_invoice _ _ = Ok ?d1, H2 : insert_lines _ ?d1 = Ok ?d2 |- _ =>
      apply insert_invoice_ok in H1 as (Hok & Hm & He); [|done| |done]; [|split; [done|exists DRAFT; set_solver]];
      apply insert_lines_same in H2 as [Hi2 He2]
  end.
  apply emit_kept; [|by rewrite Hi2|by rewrite He2|done]. unfold db_ok. by rewrite Hi2.
Qed.

Lemma finalize_keeps m i : keeps (finalize uuid_str m i).
Proof.
  intros d x Hd Ha. unfold finalize. inv_go; try by apply kept_refl.
  match goal with Hs : bool_decide (status _ ≠ _) = false |- _ => apply bool_decide_eq_false, dec_stable in Hs end.
  match goal with Hp : set_plid _ _ _ = Ok _ |- _ => eapply set_plid_ok in Hp as (Hok & Hm & He); [|done..] end.
  by apply (emit_kept d _ (mkIW (published x) (minted x ++ [mint_key uuid_str i]))).
Qed.

Lemma void_keeps m i : keeps (void uuid_str m i).
Proof.
  intros d x Hd Ha. unfold void. inv_go; try by apply kept_refl.
  match goal with Hr : invoices d !! i = Some ?r |- _ =>
    pose proof (proj1 Hd i r Hr) as Hrow; pose proof Hrow as (_ & s & Hs & _);
    destruct (void_row_ok i r s Hrow Hs) as [He Hok]; [|destruct (update_ok d i r (with_status VOID) Hd Hr He Hok eq_refl)]
  end; [|by apply emit_kept].
  repeat match goal with Hb : bool_decide _ = false |- _ => apply bool_decide_eq_false in Hb end.
  destruct s; set_solver.
Qed.

Lemma mark_paid_keeps now p : keeps (mark_paid_by_plid uuid_str now p).
Proof.
  intros d x Hd Ha. unfold mark_paid_by_plid. inv_go; try by apply kept_refl.
  match goal with Hg : get_by_plid p d = Some ?r |- _ =>
    destruct (get_by_plid_some p d r Hg) as (_ & j & Hr);
    pose proof (proj1 Hd j r Hr) as Hrow; pose proof Hrow as (Hid & s & Hs & _); rewrite Hid;
    destruct (settled_row_ok now j r s Hrow Hs) as [He Hok]; [|destruct (update_ok d j r (settled now) Hd Hr He Hok eq_refl)]
  end; [|by apply emit_kept].
  match goal with Hb : bool_decide (status _ ∈ _) = true |- _ => rewrite Hs in Hb; destruct s; try (by vm_compute in Hb) end;
    set_solver.
Qed.

Lemma sweep_keeps now : keeps (sweep_overdue uuid_str iso now).
Proof.
  intros d x Hd Ha. unfold sweep_overdue. inv_go. unfold wp at 1. rewrite sweep_loop. cbn [fst snd].
  destruct (sweep_ok uuid_str iso now d Hd) as [Hok Hm].
  inv_go.
  - split_and!; [done|done|]. cbn [db ext published]. by rewrite sweep_announced, Ha.
  - match goal with Hb : negb _ = false |- _ => apply negb_false_iff, bool_decide_eq_true in Hb as -> end.
    simpl. rewrite app_nil_r. by apply kept_refl.
Qed.

Lemma sweep_run s now :
  serve s (RSweep now) =
    (fold_left (sweep_one uuid_str iso) (find_overdue now 100 s.1) s.1,
     mkIW (published s.2 ++ ((λ r, (INVOICE_OVERDUE, overdue_payload uuid_str iso r)) <$> find_overdue now 100 s.1))
       (minted s.2)).
Proof.
  destruct s as [d x]. unfold serve. cbn [fst snd]. unfold request, handle, sweep_overdue.
  unfold mbind, handler_bind, query. cbn [tx]. rewrite sweep_loop. unfold when.
  destruct (bool_decide_reflect (find_overdue now 100 d = [])) as [->|Hne]; [|done]. simpl. by rewrite app_nil_r.
Qed.

Lemma get_keeps m i : keeps (get m i).
Proof. intros d x Hd Ha. unfold get. inv_go; by apply kept_refl. Qed.

Lemma keeps_void {A} (m : H A) : keeps m → keeps (m ≫= λ _, mret tt).
Proof.
  intros Hm d x Hd Ha. apply wp_bind. eapply wp_mono; [by apply Hm|]. by intros [a|e] w Hk.
Qed.

Lemma handle_keeps q : keeps (handle q).
Proof.
  destruct q; simpl; try apply keeps_void;
    auto using create_keeps, finalize_keeps, void_keeps, get_keeps, sweep_keeps.
  unfold handle_event. intros d x Hd Ha. inv_go; try by apply kept_refl.
  eapply wp_mono; [by apply mark_paid_keeps|]. by intros [b|e] w Hk.
Qed.

Lemma serve_kept q s : sound s → kept s.1 (serve s q).1 (serve s q).2.
Proof.
  destruct s as [d x]. intros [Hd Ha]. unfold serve. simpl.
  pose proof (wp_request (handle q) (λ _ d' x', kept d d' x') d x (handle_keeps q d x Hd Ha)) as Hk.
  by destruct (request (handle q) d x) as [[r d'] x'].
Qed.

Lemma serve_all_kept qs s : sound s → kept s.1 (serve_all s qs).1 (serve_all s qs).2.
Proof.
  revert s. induction qs as [|q qs IH]; intros s Hs; simpl; [destruct Hs; by apply kept_refl|].
  destruct (serve_kept q s Hs) as (Hd & Hm & Ha). destruct (IH (serve s q)) as (Hd' & Hm' & Ha'); [done|].
  split_and!; [done|by etrans|done].
Qed.

Definition start : idb * iworld := (mkIdb ∅ [] [], mkIW [] []).

Lemma start_sound : sound start.
Proof. split; [|done]. split; [apply map_Forall_empty|]. intros i j r r' p Hr. by destruct (lookup_empty_Some (M := gmap uuid) i r). Qed.

Lemma terminal_stays s s' : s ∈ [PAID; VOID] → rtc edge s s' → s' = s.
Proof. intros Hs He. inversion He as [|? y ? Hy]; subst; [done|]. inversion Hy; subst; set_solver. Qed.

(** One delivery of the settlement event. *)
Definition settle (p : string) (now : Z) : ireq := REvent now CHAIN_PAYLINK_VERIFIED (Some p) None.

Lemma get_by_plid_unique d i r p :
  db_ok d → invoices d !! i = Some r → pl_id r = Some p → get_by_plid p d = Some r.
Proof.
  intros [_ Huniq] Hr Hp. destruct (get_by_plid p d) as [r'|] eqn:E.
  - apply get_by_plid_some in E as (Hp' & j & Hj). assert (j = i) as -> by by eapply Huniq. congruence.
  - by destruct (get_by_plid_none p d i r E Hr).
Qed.

Lemma settle_run s p now r :
  truthy p = true → get_by_plid p s.1 = Some r →
  serve s (settle p now) =
    if bool_decide (status r ∈ [status_value OPEN; status_value OVERDUE]) then
      (add_event (invoice_id r) INVOICE_PAID (row_payload uuid_str r p PAID) (update_row (invoice_id r) (settled now) s.1),
       mkIW (published s.2 ++ [(INVOICE_PAID, row_payload uuid_str r p PAID)]) (minted s.2))
    else s.
Proof.
  destruct s as [d x]. intros Hp Hg. cbn [fst snd] in *. unfold serve, settle, handle, handle_event, otruthy. cbn [fst snd].
  rewrite bool_decide_false by (by intros Hn; apply Hn). rewrite !Hp. cbv iota. unfold request, mark_paid_by_plid.
  unfold mbind, handler_bind, query. cbv iota beta. cbn [tx]. rewrite Hg.
  by destruct (bool_decide (status r ∈ _)).
Qed.

Lemma settle_again s p r nows :
  truthy p = true → get_by_plid p s.1 = Some r → status r = status_value PAID →
  serve_all s (settle p <$> nows) = s.
Proof.
  intros Hp Hg Hs. induction nows as [|t nows IH]; [done|]. unfold serve_all. cbn [fmap list_fmap fold_left].
  rewrite (settle_run s p t r Hp Hg). rewrite Hs. exact IH.
Qed.
End requests.

(** ** Correctness *)

(** within 28 digits [compute_totals] is integer arithmetic: every line is
    quantity times unit price, rounded half up to a minor unit, its tax is that
    amount times the rate, rounded half up again, and the invoice's subtotal,
    tax and total are the sums; no line is lost or reordered. *)
Theorem totals_match_integers (ls : list LineInput) (Hfits : Forall line_fits ls) :
  compute_totals ls =
    Ok (mkTotals (computed_line <$> ls) (sumZ line_net ls) (sumZ line_tax ls) (sumZ line_net ls + sumZ line_tax ls)).
Proof. unfold compute_totals. by rewrite totals_from_exact. Qed.

Definition demo_lines : list LineInput :=
  [mkLine "consulting" (Dec 25 (-1)) 1001 (Dec 16 (-2)); mkLine "setup" (dec_int 1) 500 (dec_int 0)].

Lemma totals_match_integers_witness :
  compute_totals demo_lines = Ok (mkTotals (computed_line <$> demo_lines) 3003 400 3403).
Proof. apply (totals_match_integers demo_lines). repeat constructor; simpl; lia. Defined.

(** C15: over any sequence of merchant requests, settlement events and sweeps,
    with any answers of paylink-service, an invoice is never removed, keeps its
    owner, payee, currency, amounts and due date, keeps the PayLink once minted,
    moves only DRAFT to OPEN or VOID, OPEN to PAID, VOID or OVERDUE and OVERDUE to
    PAID or VOID, never leaves PAID or VOID; an OPEN, OVERDUE or PAID invoice has a
    PayLink that no other invoice has; and the events published are the committed
    outbox rows in order. *)
Theorem invoice_lifecycle (uuid_str : uuid → string) (iso : Z → string) (port : PaylinkPort) (qs qs' : list ireq) :
  let s := serve_all uuid_str iso start qs in
  let s' := serve_all uuid_str iso s qs' in
  db_ok s.1 ∧ announced s.1 = published s.2 ∧
  ∀ i r, invoices s.1 !! i = Some r →
    ∃ r', invoices s'.1 !! i = Some r' ∧ evolves r r' ∧
      (status r ∈ [status_value PAID; status_value VOID] → status r' = status r).
Proof.
  intros s s'. destruct (serve_all_kept uuid_str iso qs start start_sound) as (Hd & _ & Ha).
  destruct (serve_all_kept uuid_str iso qs' s (conj Hd Ha)) as (_ & Hm & _). split_and!; [done|done|].
  intros i r Hr. destruct (Hm i r Hr) as (r' & Hr' & He). exists r'. split_and!; [done|done|]. intros Hs.
  destruct (proj1 Hd i r Hr) as (_ & st & Hst & _). destruct He as (_ & _ & _ & _ & _ & _ & _ & _ & _ & Hmove).
  destruct (Hmove st Hst) as (st' & Hst' & He'). rewrite Hst', Hst. f_equal. apply terminal_stays; [|done].
  rewrite Hst in Hs. destruct st; set_solver.
Qed.

Definition demo_port : PaylinkPort := λ _ _ _ _ _ key, Some (Some ("0x" +:+ key)).
Definition demo_uuid (i : uuid) : string := text (PyJson.print_Z (Z.of_N i)).
Definition demo_iso (z : Z) : string := text (PyJson.print_Z z).
Definition demo_reqs : list ireq :=
  [RCreate 10 1%N 7%N None "0xa" "USD" demo_lines 100; RFinalize 7%N 1%N;
   RCreate 11 2%N 8%N None "0xb" "USD" demo_lines 20; RFinalize 8%N 2%N].
Definition demo_state : idb * iworld := serve_all (H0 := demo_port) demo_uuid demo_iso start demo_reqs.

Lemma invoice_lifecycle_witness :
  ∃ r', invoices (serve_all (H0 := demo_port) demo_uuid demo_iso
                    (serve_all (H0 := demo_port) demo_uuid demo_iso demo_state [settle "0xinvoice-1" 30]) [RVoid 7%N 1%N]).1
          !! 1%N = Some r' ∧ status r' = "PAID".
Proof.
  destruct (invoice_lifecycle demo_uuid demo_iso demo_port (demo_reqs ++ [settle "0xinvoice-1" 30]) [RVoid 7%N 1%N])
    as (_ & _ & Hlc).
  destruct (invoices (serve_all (H0 := demo_port) demo_uuid demo_iso start (demo_reqs ++ [settle "0xinvoice-1" 30])).1
    !! 1%N) as [r|] eqn:E; [|by vm_compute in E].
  destruct (Hlc 1%N r E) as (r' & Hr' & _ & Hs). exists r'. split; [exact Hr'|].
  vm_compute in E. injection E as <-. apply Hs. vm_compute. left.
Defined.

(** C25: a settlement event marks the invoice its PayLink backs as PAID exactly
    once: however often it is redelivered, one [invoice.paid] is recorded and
    published, the payment time is that of the first delivery, and no other
    invoice changes. *)
Theorem settlement_exactly_once (uuid_str : uuid → string) (iso : Z → string) (port : PaylinkPort)
    (s : idb * iworld) (i : uuid) (r : InvoiceRow) (p : string) (now : Z) (redeliveries : list Z)
    (Hsound : sound s) (Hr : invoices s.1 !! i = Some r) (Hp : pl_id r = Some p) (Htext : truthy p = true)
    (Hopen : status r ∈ [status_value OPEN; status_value OVERDUE]) :
  let paid := row_payload uuid_str r p PAID in
  serve_all uuid_str iso s (settle p <$> now :: redeliveries) =
    (mkIdb (<[i := settled now r]> (invoices s.1)) (lines s.1) (events s.1 ++ [mkEvent i INVOICE_PAID paid]),
     mkIW (published s.2 ++ [(INVOICE_PAID, paid)]) (minted s.2)).
Proof.
  intros paid. pose proof (get_by_plid_unique s.1 i r p (proj1 Hsound) Hr Hp) as Hg.
  destruct (proj1 (proj1 Hsound) i r Hr) as [Hid _].
  unfold serve_all. cbn [fmap list_fmap fold_left]. rewrite (settle_run uuid_str iso s p now r Htext Hg), bool_decide_true by done.
  rewrite Hid. assert (Halter : alter (settled now) i (invoices s.1) = <[i := settled now r]> (invoices s.1)).
  { apply map_eq. intros j. destruct (decide (j = i)) as [->|Hne].
    - by rewrite lookup_alter_eq, lookup_insert_eq, Hr.
    - by rewrite lookup_alter_ne, lookup_insert_ne. }
  unfold add_event, update_row. cbn [invoices lines events]. rewrite Halter.
  apply (settle_again uuid_str iso _ p (settled now r) redeliveries Htext); [|done]. cbn [fst].
  pose proof (serve_kept uuid_str iso (settle p now) s Hsound) as (Hok & _ & _).
  rewrite (settle_run uuid_str iso s p now r Htext Hg), bool_decide_true, Hid in Hok by done.
  unfold add_event, update_row in Hok. cbn [fst invoices lines events] in Hok. rewrite Halter in Hok.
  apply (get_by_plid_unique _ i); [exact Hok|cbn [invoices]; by rewrite lookup_insert_eq|done].
Qed.

Lemma settlement_exactly_once_witness :
  events (serve_all (H0 := demo_port) demo_uuid demo_iso demo_state (settle "0xinvoice-1" <$> [30; 31; 32])).1 =
    events demo_state.1 ++ [mkEvent 1%N INVOICE_PAID (JObj [("invoice_id", JStr "1"); ("pl_id", JStr "0xinvoice-1");
      ("merchant_id", JStr "7"); ("total", JStr "3403"); ("currency", JStr "USD"); ("status", JStr "PAID")])].
Proof.
  destruct (invoices demo_state.1 !! 1%N) as [r|] eqn:E; [|by vm_compute in E].
  rewrite (settlement_exactly_once demo_uuid demo_iso demo_port demo_state 1%N r "0xinvoice-1" 30 [31; 32]).
  - vm_compute in E. injection E as <-. by vm_compute.
  - destruct (serve_all_kept (H0 := demo_port) demo_uuid demo_iso demo_reqs start start_sound) as (Hd & _ & Ha). by split.
  - exact E.
  - vm_compute in E. by injection E as <-.
  - done.
  - vm_compute in E. injection E as <-. vm_compute. left.
Defined.

(** invoices are owner scoped: for a merchant who does not own the invoice,
    finalize, void and get answer exactly as for an invoice that does not exist
    and change nothing (no PayLink is minted), and a list returns only the
    merchant's own invoices. *)
Theorem not_owned_is_not_found (uuid_str : uuid → string) (port : PaylinkPort) (m i : uuid) (d : idb) (x : iworld)
    (Hforeign : ∀ r, invoices d !! i = Some r → merchant_id r ≠ m) :
  request (finalize uuid_str m i) d x = (Raise (AppError INVOICE_NOT_FOUND), d, x) ∧
  request (void uuid_str m i) d x = (Raise (AppError INVOICE_NOT_FOUND), d, x) ∧
  request (get m i) d x = (Raise (AppError INVOICE_NOT_FOUND), d, x) ∧
  ∀ st limit offset r, r ∈ list_invoices m st limit offset d → merchant_id r = m ∧ (st = None ∨ st = Some (status r)).
Proof.
  assert (Hload : ∀ w, tx w = d → _load_owned m i w = (Raise (AppError INVOICE_NOT_FOUND), w)).
  { intros w Hw. unfold _load_owned, mbind, handler_bind, query. rewrite Hw.
    destruct (invoices d !! i) as [r|]; [|done]. by rewrite bool_decide_false by by apply Hforeign. }
  unfold request, finalize, void, get. unfold mbind, handler_bind. rewrite !Hload by done. split_and!; [done..|].
  intros st limit offset r Hin. unfold list_invoices in Hin.
  eapply elem_of_submseteq in Hin; [|etrans; [apply submseteq_take|apply submseteq_drop]].
  rewrite merge_sort_Permutation in Hin. by apply list_elem_of_filter in Hin as [? _].
Qed.

Lemma not_owned_is_not_found_witness :
  request (void demo_uuid 8%N 1%N) demo_state.1 demo_state.2 =
    (Raise (AppError INVOICE_NOT_FOUND), demo_state.1, demo_state.2).
Proof.
  apply (not_owned_is_not_found demo_uuid demo_port 8%N 1%N demo_state.1 demo_state.2).
  intros r Hr. vm_compute in Hr. injection Hr as <-. done.
Defined.

(** with at most 100 invoices due (the scan's limit) a sweep stores exactly
    what reads already reported: every invoice's stored status becomes its
    effective status at the time of the sweep, nothing else of it changes, one
    [invoice.overdue] is published per flipped invoice, and what a reader sees of any
    invoice from then on is what it would have seen without the sweep. *)
Theorem sweep_stores_effective_status (uuid_str : uuid → string) (iso : Z → string) (port : PaylinkPort)
    (s : idb * iworld) (now : Z) (Hsound : sound s) (Hfew : (length (overdue_rows now s.1) ≤ 100)%nat) :
  let s' := serve uuid_str iso s (RSweep now) in
  (∀ i r, invoices s.1 !! i = Some r →
    ∃ r', invoices s'.1 !! i = Some r' ∧ status r' = effective_status (status r) (due_at r) now ∧
      ∀ t, now ≤ t → _summary r' t = _summary r t) ∧
  length (published s'.2) = (length (published s.2) + length (overdue_rows now s.1))%nat.
Proof.
  intros s'. unfold s'. rewrite sweep_run. destruct s as [d x]. destruct Hsound as [Hd Ha]. cbn [fst snd published] in *. split.
  - intros i r Hr. rewrite sweep_lookup, Hr. eexists. split; [done|].
    rewrite (decide_ext _ _ _ _ (swept_iff now d i r Hd Hfew Hr)).
    destruct (decide (status r = status_value OPEN ∧ due_at r < now)) as [[Hs Hdue]|Hn].
    + split; [|intros t Ht; unfold _summary; simpl; f_equal]; unfold effective_status; simpl; rewrite Hs;
        rewrite bool_decide_true by done; [by rewrite (proj2 (Z.ltb_lt _ _)) by lia|].
      rewrite (proj2 (Z.ltb_lt (due_at r) t)) by lia. done.
    + split; [|done]. unfold effective_status. simpl. case_bool_decide as Hs; [|done].
      destruct (Z.ltb_spec (due_at r) now); [naive_solver|done].
  - by rewrite length_app, length_fmap, (Permutation_length (find_overdue_all now d Hfew)).
Qed.

Lemma sweep_stores_effective_status_witness :
  ∃ r', invoices (serve (H0 := demo_port) demo_uuid demo_iso demo_state (RSweep 50)).1 !! 2%N = Some r' ∧
    status r' = "OVERDUE".
Proof.
  destruct (sweep_stores_effective_status demo_uuid demo_iso demo_port demo_state 50) as [Hs _].
  - destruct (serve_all_kept (H0 := demo_port) demo_uuid demo_iso demo_reqs start start_sound) as (Hd & _ & Ha). by split.
  - vm_compute. lia.
  - destruct (invoices demo_state.1 !! 2%N) as [r|] eqn:E; [|by vm_compute in E].
    destruct (Hs 2%N r E) as (r' & Hr' & Hst & _). exists r'. split; [exact Hr'|]. rewrite Hst.
    vm_compute in E. by injection E as <-.
Defined.

End Invoice.
