(* ===== verification/IdentityDb.v ===== *)
(** * identity-service: tables, errors, roles and permissions

    [identity-service/app]: [errors.py], [domain/models.py], [db/models.py],
    [db/repositories.py], [domain/rbac.py], [events/publisher.py] and the claims
    of [security/jwt.py].  A signed access token is represented by its claims. *)
From S2P Require Import Prelude PyText UnitOfWork Tables.

Module Identity.
Open Scope Z_scope.

(** ** errors.py *)

Inductive ErrorCode :=
| INVALID_PAYLOAD | INVALID_QUERY | IDEMPOTENT_CONFLICT | UNAUTHORIZED | FORBIDDEN | INTERNAL_ERROR
| EMAIL_TAKEN | PHONE_TAKEN | USER_NOT_FOUND | USER_SUSPENDED
| INVALID_CREDENTIALS | INVALID_TOKEN | TOKEN_EXPIRED
| MFA_REQUIRED | MFA_INVALID | MFA_NOT_ENROLLED | MFA_ALREADY_ENROLLED
| ORG_NOT_FOUND | MEMBER_NOT_FOUND | MEMBER_EXISTS | CANNOT_REMOVE_LAST_OWNER
| API_KEY_NOT_FOUND | SCOPE_NOT_ALLOWED | SESSION_NOT_FOUND
| OAUTH_PROVIDER_UNKNOWN | OAUTH_EXCHANGE_FAILED | KYC_GATE.

#[global] Instance ErrorCode_eq_dec : EqDecision ErrorCode.
Proof. solve_decision. Defined.

Definition _HTTP_STATUS (c : ErrorCode) : Z :=
  match c with
  | INVALID_PAYLOAD | INVALID_QUERY | OAUTH_PROVIDER_UNKNOWN => 400
  | IDEMPOTENT_CONFLICT | EMAIL_TAKEN | PHONE_TAKEN | MFA_ALREADY_ENROLLED | MEMBER_EXISTS
  | CANNOT_REMOVE_LAST_OWNER => 409
  | UNAUTHORIZED | INVALID_CREDENTIALS | INVALID_TOKEN | TOKEN_EXPIRED | MFA_REQUIRED | MFA_INVALID
  | OAUTH_EXCHANGE_FAILED => 401
  | FORBIDDEN | USER_SUSPENDED | SCOPE_NOT_ALLOWED => 403
  | INTERNAL_ERROR => 500
  | USER_NOT_FOUND | MFA_NOT_ENROLLED | ORG_NOT_FOUND | MEMBER_NOT_FOUND | API_KEY_NOT_FOUND
  | SESSION_NOT_FOUND => 404
  | KYC_GATE => 402
  end.

(** ** domain/models.py *)

Inductive UserStatus := ACTIVE | SUSPENDED | DELETED.

Definition user_status (s : UserStatus) : string :=
  match s with ACTIVE => "ACTIVE" | SUSPENDED => "SUSPENDED" | DELETED => "DELETED" end.

Definition OrgTypes : list string := ["merchant"; "developer"; "admin"].

Inductive Role := OWNER | ADMIN | DEVELOPER | OPERATOR | VIEWER.

#[global] Instance Role_eq_dec : EqDecision Role.
Proof. solve_decision. Defined.

Definition Roles : list Role := [OWNER; ADMIN; DEVELOPER; OPERATOR; VIEWER].

Definition role_value (r : Role) : string :=
  match r with
  | OWNER => "owner" | ADMIN => "admin" | DEVELOPER => "developer" | OPERATOR => "operator" | VIEWER => "viewer"
  end.

(** [Role(text)], nothing standing for [ValueError]. *)
Definition role_of (s : string) : option Role := head (filter (λ r, role_value r = s) Roles).

Inductive Permission :=
| ORG_READ | ORG_UPDATE | ORG_DELETE | MEMBER_READ | MEMBER_INVITE | MEMBER_REMOVE
| APIKEY_READ | APIKEY_ISSUE | APIKEY_REVOKE.

#[global] Instance Permission_eq_dec : EqDecision Permission.
Proof. solve_decision. Defined.

Definition Permissions : list Permission :=
  [ORG_READ; ORG_UPDATE; ORG_DELETE; MEMBER_READ; MEMBER_INVITE; MEMBER_REMOVE; APIKEY_READ; APIKEY_ISSUE; APIKEY_REVOKE].

Inductive Scope := PAYLINKS_READ | PAYLINKS_WRITE | PAYMENTS_READ | PAYMENTS_WRITE.

#[global] Instance Scope_eq_dec : EqDecision Scope.
Proof. solve_decision. Defined.

Definition Scopes : list Scope := [PAYLINKS_READ; PAYLINKS_WRITE; PAYMENTS_READ; PAYMENTS_WRITE].

Definition scope_value (s : Scope) : string :=
  match s with
  | PAYLINKS_READ => "paylinks:read" | PAYLINKS_WRITE => "paylinks:write"
  | PAYMENTS_READ => "payments:read" | PAYMENTS_WRITE => "payments:write"
  end.

(** ** security/jwt.py *)

Record OrgRole := mkOrgRole { or_org : string; or_role : string; or_type : option string }.

Record AccessClaims := mkClaims {
  c_user : string; c_roles : list OrgRole; c_user_roles : list string; c_kyc_tier : Z; c_jti : string; c_sid : string;
  c_mfa : bool; c_amr : list string; c_iat : Z; c_exp : Z }.

Record AuthTokens := mkTokens { access_token : AccessClaims; refresh_token : string; expires_in : Z }.

Notation result := (outcome (exn ErrorCode)).

(** ** domain/rbac.py *)

Definition _MATRIX (r : Role) : list Permission :=
  match r with
  | OWNER => Permissions
  | ADMIN => filter (λ p, p ≠ ORG_DELETE) Permissions
  | DEVELOPER => [ORG_READ; MEMBER_READ; APIKEY_READ; APIKEY_ISSUE; APIKEY_REVOKE]
  | OPERATOR => [ORG_READ; MEMBER_READ; APIKEY_READ]
  | VIEWER => [ORG_READ; MEMBER_READ]
  end.

Definition _SCOPE_GRANTS (r : Role) : list Scope :=
  match r with
  | OWNER | ADMIN => Scopes
  | DEVELOPER => [PAYLINKS_READ; PAYLINKS_WRITE; PAYMENTS_READ]
  | OPERATOR | VIEWER => []
  end.

Definition permissions_for (role : string) : list Permission :=
  match role_of role with Some r => _MATRIX r | None => [] end.

Definition can (role : string) (p : Permission) : bool := bool_decide (p ∈ permissions_for role).

Fixpoint role_in_org (roles : list OrgRole) (org : string) : option string :=
  match roles with
  | [] => None
  | r :: rest => if bool_decide (or_org r = org) then Some (or_role r) else role_in_org rest org
  end.

Definition require (roles : list OrgRole) (org : string) (p : Permission) : result string :=
  match role_in_org roles org with
  | None => Raise (AppError ORG_NOT_FOUND)
  | Some role => if can role p then Ok role else Raise (AppError FORBIDDEN)
  end.

Definition allowed_scopes_for_role (role : string) : list Scope :=
  match role_of role with Some r => _SCOPE_GRANTS r | None => [] end.

(** The loop of [validate_scopes]. *)
Fixpoint check_scopes (known allowed requested : list string) : result unit :=
  match requested with
  | [] => Ok tt
  | s :: rest =>
      if bool_decide (s ∉ known) then Raise (AppError SCOPE_NOT_ALLOWED)
      else if bool_decide (s ∉ allowed) then Raise (AppError SCOPE_NOT_ALLOWED)
      else check_scopes known allowed rest
  end.

Definition validate_scopes (role : string) (requested : list string) : result (list string) :=
  let allowed := scope_value <$> allowed_scopes_for_role role in
  let known := scope_value <$> Scopes in
  let? _ := check_scopes known allowed requested in
  Ok requested.

(** ** db/models.py *)

Record UserRow := mkUser {
  user_id : uuid; email : option string; phone : option string; password_hash : option string; kyc_tier : Z;
  status : string; last_login_at : option Z }.

Record MfaFactorRow := mkFactor { secret : string; activated_at : option Z }.

Record OrganizationRow := mkOrg { org_name : string; org_type : string; created_by : uuid; org_created : Z }.

Record ApiKeyRow := mkKey {
  key_org : uuid; key_name : string; prefix : string; key_hash : string; scopes : list string; key_status : string;
  key_created : Z; key_revoked_at : option Z }.

Record SessionRow := mkSession {
  s_user : uuid; s_refresh : string; s_agent : option string; s_ip : option string; s_created : Z; s_expires : Z;
  s_revoked : option Z }.

Record PasswordResetTokenRow := mkReset { r_user : uuid; r_hash : string; r_expires : Z; r_used : option Z }.

Record IdentityEventRow := mkIdEvent { e_type : string; e_subject : option uuid; e_kind : string; e_payload : json }.

Record iddb := mkDb {
  users : gmap uuid UserRow;
  oauth : gmap (string * string) uuid;
  mfa : gmap (uuid * string) MfaFactorRow;
  orgs : gmap uuid OrganizationRow;
  memberships : gmap (uuid * uuid) string;
  api_keys : gmap uuid ApiKeyRow;
  sessions : gmap uuid SessionRow;
  resets : gmap uuid PasswordResetTokenRow;
  id_events : list IdentityEventRow }.

(** Outside the database: events published in process and the Redis counters of
    failed logins, each with its expiry. *)
Record idworld := mkIdWorld { published : list (string * json); failures : gmap string (Z * Z) }.

Notation H := (handler iddb idworld ErrorCode).

Definition on_users f (d : iddb) : iddb :=
  mkDb (f (users d)) (oauth d) (mfa d) (orgs d) (memberships d) (api_keys d) (sessions d) (resets d) (id_events d).
Definition on_oauth f (d : iddb) : iddb :=
  mkDb (users d) (f (oauth d)) (mfa d) (orgs d) (memberships d) (api_keys d) (sessions d) (resets d) (id_events d).
Definition on_mfa f (d : iddb) : iddb :=
  mkDb (users d) (oauth d) (f (mfa d)) (orgs d) (memberships d) (api_keys d) (sessions d) (resets d) (id_events d).
Definition on_orgs f (d : iddb) : iddb :=
  mkDb (users d) (oauth d) (mfa d) (f (orgs d)) (memberships d) (api_keys d) (sessions d) (resets d) (id_events d).
Definition on_memberships f (d : iddb) : iddb :=
  mkDb (users d) (oauth d) (mfa d) (orgs d) (f (memberships d)) (api_keys d) (sessions d) (resets d) (id_events d).
Definition on_api_keys f (d : iddb) : iddb :=
  mkDb (users d) (oauth d) (mfa d) (orgs d) (memberships d) (f (api_keys d)) (sessions d) (resets d) (id_events d).
Definition on_sessions f (d : iddb) : iddb :=
  mkDb (users d) (oauth d) (mfa d) (orgs d) (memberships d) (api_keys d) (f (sessions d)) (resets d) (id_events d).
Definition on_resets f (d : iddb) : iddb :=
  mkDb (users d) (oauth d) (mfa d) (orgs d) (memberships d) (api_keys d) (sessions d) (f (resets d)) (id_events d).

(** ** db/repositories.py *)

(** [ORDER BY .. DESC] *)
Definition newest {A} (at_ : A → Z) (a b : A) : Prop := at_ b ≤ at_ a.

#[global] Instance newest_dec {A} (at_ : A → Z) : RelDecision (newest at_).
Proof. intros a b. unfold newest. apply _. Defined.

Definition get_user_by_email (e : string) (d : iddb) : option UserRow :=
  head (filter (λ u, email u = Some e) (map_to_list (users d)).*2).

Definition get_user_by_phone (p : string) (d : iddb) : option UserRow :=
  head (filter (λ u, phone u = Some p) (map_to_list (users d)).*2).

(** Whether a unique column refuses a value. *)
Definition taken {A} (o : option string) (find : string → option A) : bool :=
  match o with Some v => bool_decide (is_Some (find v)) | None => false end.

Definition insert_user (u : UserRow) (d : iddb) : outcome pyerr iddb :=
  if bool_decide (is_Some (users d !! user_id u)) || taken (email u) (λ e, get_user_by_email e d)
     || taken (phone u) (λ p, get_user_by_phone p d)
  then Raise IntegrityError else Ok (on_users (<[user_id u := u]>) d).

Definition insert_oauth_identity (provider subject : string) (u : uuid) (d : iddb) : outcome pyerr iddb :=
  if bool_decide (is_Some (oauth d !! (provider, subject))) || bool_decide (users d !! u = None) then Raise IntegrityError
  else Ok (on_oauth (<[(provider, subject) := u]>) d).

Definition insert_mfa_factor (u : uuid) (kind : string) (f : MfaFactorRow) (d : iddb) : outcome pyerr iddb :=
  if bool_decide (is_Some (mfa d !! (u, kind))) || bool_decide (users d !! u = None) then Raise IntegrityError
  else Ok (on_mfa (<[(u, kind) := f]>) d).

Definition list_active_mfa (u : uuid) (d : iddb) : list (string * MfaFactorRow) :=
  (λ kv, (kv.1.2, kv.2)) <$>
    filter (λ kv, kv.1.1 = u ∧ is_Some (activated_at kv.2)) (map_to_list (mfa d)).

Definition insert_org (o : uuid) (row : OrganizationRow) (d : iddb) : outcome pyerr iddb :=
  if bool_decide (is_Some (orgs d !! o)) || bool_decide (users d !! created_by row = None) then Raise IntegrityError
  else Ok (on_orgs (<[o := row]>) d).

Definition insert_membership (o u : uuid) (role : string) (d : iddb) : outcome pyerr iddb :=
  if bool_decide (is_Some (memberships d !! (o, u))) || bool_decide (orgs d !! o = None)
     || bool_decide (users d !! u = None)
  then Raise IntegrityError else Ok (on_memberships (<[(o, u) := role]>) d).

Definition list_members (o : uuid) (d : iddb) : list (uuid * string) :=
  (λ kv, (kv.1.2, kv.2)) <$> filter (λ kv, kv.1.1 = o) (map_to_list (memberships d)).

Definition list_memberships_for_user (u : uuid) (d : iddb) : list (uuid * string) :=
  (λ kv, (kv.1.1, kv.2)) <$> filter (λ kv, kv.1.2 = u) (map_to_list (memberships d)).

Definition list_orgs_for_user (u : uuid) (d : iddb) : list (uuid * OrganizationRow * string) :=
  merge_sort (newest (λ x, org_created x.1.2))
    (omap (λ m, (λ o, (m.1, o, m.2)) <$> orgs d !! m.1) (list_memberships_for_user u d)).

Definition count_owners (o : uuid) (d : iddb) : nat :=
  length (filter (λ kv, kv.1.1 = o ∧ kv.2 = role_value OWNER) (map_to_list (memberships d))).

Definition delete_membership (o u : uuid) (d : iddb) : iddb := on_memberships (delete (o, u)) d.

Definition insert_api_key (k : uuid) (row : ApiKeyRow) (d : iddb) : outcome pyerr iddb :=
  if bool_decide (is_Some (api_keys d !! k)) || bool_decide (orgs d !! key_org row = None) then Raise IntegrityError
  else Ok (on_api_keys (<[k := row]>) d).

Definition list_api_keys_for_org (o : uuid) (d : iddb) : list (uuid * ApiKeyRow) :=
  merge_sort (newest (λ kv, key_created kv.2)) (filter (λ kv, key_org kv.2 = o) (map_to_list (api_keys d))).

Definition list_api_keys_by_prefix (p : string) (d : iddb) : list (uuid * ApiKeyRow) :=
  filter (λ kv, prefix kv.2 = p ∧ key_status kv.2 = "ACTIVE") (map_to_list (api_keys d)).

Definition get_session_by_refresh_hash (h : string) (d : iddb) : option (uuid * SessionRow) :=
  head (filter (λ kv, s_refresh kv.2 = h) (map_to_list (sessions d))).

Definition insert_session (i : uuid) (row : SessionRow) (d : iddb) : outcome pyerr iddb :=
  if bool_decide (is_Some (sessions d !! i)) || bool_decide (users d !! s_user row = None)
     || bool_decide (is_Some (get_session_by_refresh_hash (s_refresh row) d))
  then Raise IntegrityError else Ok (on_sessions (<[i := row]>) d).

Definition list_sessions_for_user (u : uuid) (d : iddb) : list (uuid * SessionRow) :=
  merge_sort (newest (λ kv, s_created kv.2)) (filter (λ kv, s_user kv.2 = u) (map_to_list (sessions d))).

Definition list_active_sessions_for_user (u : uuid) (d : iddb) : list (uuid * SessionRow) :=
  filter (λ kv, s_user kv.2 = u ∧ s_revoked kv.2 = None) (map_to_list (sessions d)).

Definition get_password_reset_by_hash (h : string) (d : iddb) : option (uuid * PasswordResetTokenRow) :=
  head (filter (λ kv, r_hash kv.2 = h) (map_to_list (resets d))).

Definition insert_password_reset_token (i : uuid) (row : PasswordResetTokenRow) (d : iddb) : outcome pyerr iddb :=
  if bool_decide (is_Some (resets d !! i)) || bool_decide (users d !! r_user row = None)
     || bool_decide (is_Some (get_password_reset_by_hash (r_hash row) d))
  then Raise IntegrityError else Ok (on_resets (<[i := row]>) d).

Definition mark_used (now : Z) (r : PasswordResetTokenRow) : PasswordResetTokenRow :=
  mkReset (r_user r) (r_hash r) (r_expires r) (Some now).

(** Stamps every unused token of the user. *)
Definition invalidate_user_reset_tokens (now : Z) (u : uuid) (d : iddb) : iddb :=
  on_resets (fmap (λ r, if bool_decide (r_user r = u ∧ r_used r = None) then mark_used now r else r)) d.

Definition add_event (ty : string) (subject : option uuid) (kind : string) (payload : json) (d : iddb) : iddb :=
  mkDb (users d) (oauth d) (mfa d) (orgs d) (memberships d) (api_keys d) (sessions d) (resets d)
    (id_events d ++ [mkIdEvent ty subject kind payload]).

(** ** events/publisher.py *)

Definition USER_REGISTERED : string := "identity.user.registered".
Definition USER_VERIFIED : string := "identity.user.verified".
Definition ORG_CREATED : string := "identity.org.created".
Definition MEMBER_ADDED : string := "identity.member.added".
Definition MEMBER_REMOVED : string := "identity.member.removed".
Definition API_KEY_ISSUED : string := "identity.api_key.issued".
Definition API_KEY_REVOKED : string := "identity.api_key.revoked".
Definition MFA_ENABLED : string := "identity.mfa.enabled".
Definition AUTH_FAILED : string := "identity.auth.failed".
Definition PASSWORD_RESET_REQUESTED : string := "identity.auth.password_reset_requested".
Definition PASSWORD_RESET_SUCCEEDED : string := "identity.auth.password_reset_succeeded".

Definition publish (name : string) (payload : json) : H unit :=
  effect (λ x, mkIdWorld (published x ++ [(name, payload)]) (failures x)).
End Identity.
