(* ===== verification/IdentityTables.v ===== *)
(** * The identity tables implement the identity schema

    The insert functions of [IdentityDb] write out the constraints of
    [identity-service/alembic/versions]; here they are compared with the
    database the migrations build. *)
From S2P Require Import Prelude PyText PyDecimal UnitOfWork Tables IdentityDb Sql SqlFacts Migrations Schema Codec.

Module IdentityTables.
Import Identity.
Import Sql(Now, VText, VUuid, VInt, VTime, VInet, VTexts, value, UniqueViolation, ForeignKeyViolation, int_range).
Import SqlFacts(catalog, conforms).
Import Codec.
Open Scope Z_scope.

Definition identity : Migrations.service := Schema.demo_identity.

(** ** Codecs *)

Definition users_codec : codec uuid UserRow := mkCodec
  ["user_id"; "email"; "phone"; "password_hash"; "kyc_tier"; "status"; "last_login_at"]
  (λ k u, [("user_id", Some (VUuid k)); ("email", VText <$> email u); ("phone", VText <$> phone u);
           ("password_hash", VText <$> password_hash u); ("kyc_tier", Some (VInt (kyc_tier u)));
           ("status", Some (VText (status u))); ("last_login_at", VTime <$> last_login_at u)]).

Definition oauth_codec : codec (string * string) uuid := mkCodec
  ["provider"; "subject"; "user_id"]
  (λ k u, [("provider", Some (VText k.1)); ("subject", Some (VText k.2)); ("user_id", Some (VUuid u))]).

Definition mfa_codec : codec (uuid * string) MfaFactorRow := mkCodec
  ["user_id"; "kind"; "secret"; "activated_at"]
  (λ k f, [("user_id", Some (VUuid k.1)); ("kind", Some (VText k.2)); ("secret", Some (VText (secret f)));
           ("activated_at", VTime <$> activated_at f)]).

Definition orgs_codec : codec uuid OrganizationRow := mkCodec
  ["org_id"; "name"; "type"; "created_by"; "created_at"]
  (λ k o, [("org_id", Some (VUuid k)); ("name", Some (VText (org_name o))); ("type", Some (VText (org_type o)));
           ("created_by", Some (VUuid (created_by o))); ("created_at", Some (VTime (org_created o)))]).

Definition memberships_codec : codec (uuid * uuid) string := mkCodec
  ["org_id"; "user_id"; "role"]
  (λ k r, [("org_id", Some (VUuid k.1)); ("user_id", Some (VUuid k.2)); ("role", Some (VText r))]).

Definition api_keys_codec : codec uuid ApiKeyRow := mkCodec
  ["api_key_id"; "org_id"; "name"; "prefix"; "hash"; "scopes"; "status"; "created_at"; "revoked_at"]
  (λ k r, [("api_key_id", Some (VUuid k)); ("org_id", Some (VUuid (key_org r))); ("name", Some (VText (key_name r)));
           ("prefix", Some (VText (prefix r))); ("hash", Some (VText (key_hash r))); ("scopes", Some (VTexts (scopes r)));
           ("status", Some (VText (key_status r))); ("created_at", Some (VTime (key_created r)));
           ("revoked_at", VTime <$> key_revoked_at r)]).

Definition sessions_codec : codec uuid SessionRow := mkCodec
  ["session_id"; "user_id"; "refresh_token"; "user_agent"; "ip"; "created_at"; "expires_at"; "revoked_at"]
  (λ k r, [("session_id", Some (VUuid k)); ("user_id", Some (VUuid (s_user r))); ("refresh_token", Some (VText (s_refresh r)));
           ("user_agent", VText <$> s_agent r); ("ip", (λ a, VInet a true) <$> s_ip r); ("created_at", Some (VTime (s_created r)));
           ("expires_at", Some (VTime (s_expires r))); ("revoked_at", VTime <$> s_revoked r)]).

Definition resets_codec : codec uuid PasswordResetTokenRow := mkCodec
  ["token_id"; "user_id"; "token_hash"; "expires_at"; "used_at"]
  (λ k r, [("token_id", Some (VUuid k)); ("user_id", Some (VUuid (r_user r))); ("token_hash", Some (VText (r_hash r)));
           ("expires_at", Some (VTime (r_expires r))); ("used_at", VTime <$> r_used r)]).

Ltac regular := split; [intros; reflexivity|apply (bool_decide_eq_true_1 _); vm_compute; reflexivity].

#[global] Instance users_regular : Regular users_codec. Proof. regular. Qed.
#[global] Instance oauth_regular : Regular oauth_codec. Proof. regular. Qed.
#[global] Instance mfa_regular : Regular mfa_codec. Proof. regular. Qed.
#[global] Instance orgs_regular : Regular orgs_codec. Proof. regular. Qed.
#[global] Instance memberships_regular : Regular memberships_codec. Proof. regular. Qed.
#[global] Instance api_keys_regular : Regular api_keys_codec. Proof. regular. Qed.
#[global] Instance sessions_regular : Regular sessions_codec. Proof. regular. Qed.
#[global] Instance resets_regular : Regular resets_codec. Proof. regular. Qed.

(** ** The representation *)

(** A database of the identity schema at its head whose tables hold, on the
    columns of the model, what the model's tables hold. *)
Record represents (s : Sql.db) (d : iddb) : Prop := mkRep {
  rep_catalog : catalog s = catalog (Migrations.head 0 identity);
  rep_users : holds_table users_codec s "users" (users d);
  rep_oauth : holds_table oauth_codec s "oauth_identities" (oauth d);
  rep_mfa : holds_table mfa_codec s "mfa_factors" (mfa d);
  rep_orgs : holds_table orgs_codec s "organizations" (orgs d);
  rep_memberships : holds_table memberships_codec s "memberships" (memberships d);
  rep_api_keys : holds_table api_keys_codec s "api_keys" (api_keys d);
  rep_sessions : holds_table sessions_codec s "sessions" (sessions d);
  rep_resets : holds_table resets_codec s "password_reset_tokens" (resets d) }.

(** The database and the model agree on an insert: both accept, and the new
    database represents the new tables, or both refuse. *)
Definition agrees (m : outcome pyerr iddb) (x : outcome Sql.sqlerr (gmap string value * Sql.db)) : Prop :=
  match x, m with
  | Ok (_, s'), Ok d' => represents s' d'
  | Raise e, Raise IntegrityError => e ∈ [UniqueViolation; ForeignKeyViolation]
  | _, _ => False
  end.

(** The shape of a table of the schema, from the catalog. *)
Ltac shape Hcat Ht Hcol Hpk Hfk Hix Hfit C :=
  let t0 := fresh "t0" in let H0 := fresh "H0" in let Hs := fresh "Hs" in
  destruct (SqlFacts.catalog_lookup _ _ _ _ Hcat Ht) as (t0 & H0 & Hs); vm_compute in H0; injection H0 as <-;
  match type of Hs with _ = SqlFacts.strip ?t =>
    assert (Hfit : codec_fits C t = true) by (rewrite <- (codec_fits_strip C _ _ Hs); vm_compute; reflexivity) end;
  apply SqlFacts.strip_fields in Hs; cbn in Hs; destruct Hs as (Hcol & Hpk & Hfk & Hix).

Ltac stores_all :=
  repeat (apply Forall_cons; split;
    [unfold stores; cbn; repeat (match goal with |- context [_ <$> ?o] => destruct o end; cbn); unfold stored; cbn; try reflexivity|]);
  try by apply Forall_nil.

(** Splits the constraints of a table, one goal per index and foreign key. *)
Ltac constraints Hpk Hfk Hix :=
  unfold Sql.pk_index; rewrite <- ?Hpk, <- ?Hfk, <- ?Hix; rewrite ?orb_false_iff, ?Forall_cons, ?Forall_nil.

(** An index on the key of a table, and one on a column looked up by the model. *)
Ltac by_columns := intros; cbn; rewrite ?clash_column, ?clash_columns by auto; cbn; split;
  [intros; destruct_and?; repeat (match goal with H : ∃ _, _ |- _ => destruct H end; destruct_and?); congruence
  |intros; repeat eexists; congruence].

Lemma users_pk k a k' a' :
  attr_clash (Sql.mkIndex "" [Sql.Col "user_id"] true None) (enc users_codec k a) (enc users_codec k' a') ↔ k' = k.
Proof. by_columns. Qed.

Lemma users_email n w k a k' a' :
  w = None ∨ w = Some (Sql.IsNotNull "email") →
  attr_clash (Sql.mkIndex n [Sql.Col "email"] true w) (enc users_codec k a) (enc users_codec k' a') ↔
  ∃ e, email a = Some e ∧ email a' = Some e.
Proof. intros Hw. rewrite clash_column by done. cbn. destruct (email a), (email a'); naive_solver. Qed.

Lemma users_phone n w k a k' a' :
  w = None ∨ w = Some (Sql.IsNotNull "phone") →
  attr_clash (Sql.mkIndex n [Sql.Col "phone"] true w) (enc users_codec k a) (enc users_codec k' a') ↔
  ∃ e, phone a = Some e ∧ phone a' = Some e.
Proof. intros Hw. rewrite clash_column by done. cbn. destruct (phone a), (phone a'); naive_solver. Qed.

(** A unique column the model looks up among the rows. *)
Lemma taken_free (f : UserRow → option string) (m : gmap uuid UserRow) (o : option string) :
  taken o (λ e, head (filter (λ u, f u = Some e) (map_to_list m).*2)) = false ↔
  ∀ k' a', m !! k' = Some a' → ¬ ∃ e, o = Some e ∧ f a' = Some e.
Proof.
  unfold taken. destruct o as [e|]; [|naive_solver]. rewrite bool_decide_eq_false, <- eq_None_not_Some, head_filter_none. split.
  - intros Hn k' a' Hk' (e' & [= <-] & Hf). apply (Hn a'); [|done]. apply elem_of_values. eauto.
  - intros Hn a' (k' & Hk')%elem_of_values Hf. apply (Hn k' a' Hk'). eauto.
Qed.

Lemma oauth_pk k a k' a' :
  attr_clash (Sql.mkIndex "" [Sql.Col "provider"; Sql.Col "subject"] true None) (enc oauth_codec k a) (enc oauth_codec k' a') ↔ k' = k.
Proof. destruct k, k'. by_columns. Qed.

Lemma mfa_pk k a k' a' :
  attr_clash (Sql.mkIndex "" [Sql.Col "user_id"; Sql.Col "kind"] true None) (enc mfa_codec k a) (enc mfa_codec k' a') ↔ k' = k.
Proof. destruct k, k'. by_columns. Qed.

Lemma orgs_pk k a k' a' :
  attr_clash (Sql.mkIndex "" [Sql.Col "org_id"] true None) (enc orgs_codec k a) (enc orgs_codec k' a') ↔ k' = k.
Proof. by_columns. Qed.

Lemma memberships_pk k a k' a' :
  attr_clash (Sql.mkIndex "" [Sql.Col "org_id"; Sql.Col "user_id"] true None) (enc memberships_codec k a) (enc memberships_codec k' a') ↔ k' = k.
Proof. destruct k, k'. by_columns. Qed.

Lemma api_keys_pk k a k' a' :
  attr_clash (Sql.mkIndex "" [Sql.Col "api_key_id"] true None) (enc api_keys_codec k a) (enc api_keys_codec k' a') ↔ k' = k.
Proof. by_columns. Qed.

Lemma sessions_pk k a k' a' :
  attr_clash (Sql.mkIndex "" [Sql.Col "session_id"] true None) (enc sessions_codec k a) (enc sessions_codec k' a') ↔ k' = k.
Proof. by_columns. Qed.

Lemma sessions_refresh n k a k' a' :
  attr_clash (Sql.mkIndex n [Sql.Col "refresh_token"] true None) (enc sessions_codec k a) (enc sessions_codec k' a') ↔ s_refresh a' = s_refresh a.
Proof. by_columns. Qed.

Lemma resets_pk k a k' a' :
  attr_clash (Sql.mkIndex "" [Sql.Col "token_id"] true None) (enc resets_codec k a) (enc resets_codec k' a') ↔ k' = k.
Proof. by_columns. Qed.

Lemma resets_hash n k a k' a' :
  attr_clash (Sql.mkIndex n [Sql.Col "token_hash"] true None) (enc resets_codec k a) (enc resets_codec k' a') ↔ r_hash a' = r_hash a.
Proof. by_columns. Qed.

(** The foreign keys. *)
Lemma user_present s d c l u :
  represents s d → get c l = Some (VUuid u) →
  bool_decide (users d !! u = None) = false ↔ Sql.fk_ok s (to_row l) (Sql.mkFk c "users" "user_id") = true.
Proof.
  intros Hrep Hg. apply (fk_present users_codec _ _ _ _ _ _ (VUuid u)); [apply Hrep|by vm_compute|done|].
  intros k' a. cbn. naive_solver.
Qed.

Lemma org_present s d c l o :
  represents s d → get c l = Some (VUuid o) →
  bool_decide (orgs d !! o = None) = false ↔ Sql.fk_ok s (to_row l) (Sql.mkFk c "organizations" "org_id") = true.
Proof.
  intros Hrep Hg. apply (fk_present orgs_codec _ _ _ _ _ _ (VUuid o)); [apply Hrep|by vm_compute|done|].
  intros k' a. cbn. naive_solver.
Qed.

Lemma plain_free {K A} `{Countable K} (C : codec K A) (m : gmap K A) n on w l :
  (∀ k' a', m !! k' = Some a' → ¬ attr_clash (Sql.mkIndex n on false w) l (enc C k' a')) ↔ True.
Proof. split; [done|]. intros _ k' a' _. apply clash_plain. Qed.

(** One row more in one table. *)
Ltac represented Hrep Ht Hs He :=
  intros -> r t' Hs He; destruct Hrep; split; simpl;
  first [ by apply holds_same | apply holds_other; [discriminate|assumption] | by rewrite (catalog_same _ _ _ _ Ht Hs) ].

Lemma key_free {K A} `{Countable K} (m : gmap K A) k : bool_decide (is_Some (m !! k)) = false → m !! k = None.
Proof. intros Hk%bool_decide_eq_false. by apply eq_None_not_Some. Qed.

Ltac fresh_key guard := unfold guard; rewrite ?orb_false_iff; intros; destruct_and?;
  by apply key_free.

Lemma users_sim now s d u :
  represents s d → int_range 16 (kyc_tier u) = true →
  agrees (insert_user u d) (Sql.insert now "users" (list_to_map (enc users_codec (user_id u) u)) s).
Proof.
  intros Hrep Hk. unfold insert_user. destruct (rep_users _ _ Hrep) as (t & Ht & He).
  pose proof (rep_catalog _ _ Hrep) as Hcat. shape Hcat Ht Hcol Hpk Hfk Hix Hfit users_codec.
  set (guard := _ || _).
  apply (insert_cases users_codec _ now "users" t s (users d) (user_id u) u guard Ht Hfit He).
  - rewrite <- Hcol. stores_all. by rewrite Hk.
  - fresh_key guard.
  - unfold guard. constraints Hpk Hfk Hix. unfold get_user_by_email, get_user_by_phone. rewrite !taken_free.
    rewrite (pk_free users_codec _ (users d) (user_id u) u (users_pk _ _)).
    setoid_rewrite users_email; [|by right]. setoid_rewrite users_phone; [|by right]. tauto.
  - represented Hrep Ht Hs He'.
  - by intros -> e Hin.
Qed.

Lemma oauth_sim now s d p sub u :
  represents s d →
  agrees (insert_oauth_identity p sub u d) (Sql.insert now "oauth_identities" (list_to_map (enc oauth_codec (p, sub) u)) s).
Proof.
  intros Hrep. unfold insert_oauth_identity. destruct (rep_oauth _ _ Hrep) as (t & Ht & He).
  pose proof (rep_catalog _ _ Hrep) as Hcat. shape Hcat Ht Hcol Hpk Hfk Hix Hfit oauth_codec.
  set (guard := _ || _).
  apply (insert_cases oauth_codec _ now "oauth_identities" t s (oauth d) (p, sub) u guard Ht Hfit He).
  - rewrite <- Hcol. stores_all.
  - fresh_key guard.
  - unfold guard. constraints Hpk Hfk Hix. rewrite (pk_free oauth_codec _ (oauth d) (p, sub) u (oauth_pk _ _)), ?plain_free.
    rewrite (user_present s d "user_id" (enc oauth_codec (p, sub) u) u Hrep eq_refl). tauto.
  - represented Hrep Ht Hs He'.
  - by intros -> e Hin.
Qed.

Lemma mfa_sim now s d u kind f :
  represents s d →
  agrees (insert_mfa_factor u kind f d) (Sql.insert now "mfa_factors" (list_to_map (enc mfa_codec (u, kind) f)) s).
Proof.
  intros Hrep. unfold insert_mfa_factor. destruct (rep_mfa _ _ Hrep) as (t & Ht & He).
  pose proof (rep_catalog _ _ Hrep) as Hcat. shape Hcat Ht Hcol Hpk Hfk Hix Hfit mfa_codec.
  set (guard := _ || _).
  apply (insert_cases mfa_codec _ now "mfa_factors" t s (mfa d) (u, kind) f guard Ht Hfit He).
  - rewrite <- Hcol. stores_all.
  - fresh_key guard.
  - unfold guard. constraints Hpk Hfk Hix. rewrite (pk_free mfa_codec _ (mfa d) (u, kind) f (mfa_pk _ _)), ?plain_free.
    rewrite (user_present s d "user_id" (enc mfa_codec (u, kind) f) u Hrep eq_refl). tauto.
  - represented Hrep Ht Hs He'.
  - by intros -> e Hin.
Qed.

Lemma orgs_sim now s d o row :
  represents s d →
  agrees (insert_org o row d) (Sql.insert now "organizations" (list_to_map (enc orgs_codec o row)) s).
Proof.
  intros Hrep. unfold insert_org. destruct (rep_orgs _ _ Hrep) as (t & Ht & He).
  pose proof (rep_catalog _ _ Hrep) as Hcat. shape Hcat Ht Hcol Hpk Hfk Hix Hfit orgs_codec.
  set (guard := _ || _).
  apply (insert_cases orgs_codec _ now "organizations" t s (orgs d) o row guard Ht Hfit He).
  - rewrite <- Hcol. stores_all.
  - fresh_key guard.
  - unfold guard. constraints Hpk Hfk Hix. rewrite (pk_free orgs_codec _ (orgs d) o row (orgs_pk _ _)), ?plain_free.
    rewrite (user_present s d "created_by" (enc orgs_codec o row) (created_by row) Hrep eq_refl). tauto.
  - represented Hrep Ht Hs He'.
  - by intros -> e Hin.
Qed.

Lemma memberships_sim now s d o u role :
  represents s d →
  agrees (insert_membership o u role d) (Sql.insert now "memberships" (list_to_map (enc memberships_codec (o, u) role)) s).
Proof.
  intros Hrep. unfold insert_membership. destruct (rep_memberships _ _ Hrep) as (t & Ht & He).
  pose proof (rep_catalog _ _ Hrep) as Hcat. shape Hcat Ht Hcol Hpk Hfk Hix Hfit memberships_codec.
  set (guard := _ || _).
  apply (insert_cases memberships_codec _ now "memberships" t s (memberships d) (o, u) role guard Ht Hfit He).
  - rewrite <- Hcol. stores_all.
  - fresh_key guard.
  - unfold guard. constraints Hpk Hfk Hix. rewrite (pk_free memberships_codec _ (memberships d) (o, u) role (memberships_pk _ _)), ?plain_free.
    rewrite (user_present s d "user_id" (enc memberships_codec (o, u) role) u Hrep eq_refl).
    rewrite (org_present s d "org_id" (enc memberships_codec (o, u) role) o Hrep eq_refl). tauto.
  - represented Hrep Ht Hs He'.
  - by intros -> e Hin.
Qed.

Lemma api_keys_sim now s d k row :
  represents s d →
  agrees (insert_api_key k row d) (Sql.insert now "api_keys" (list_to_map (enc api_keys_codec k row)) s).
Proof.
  intros Hrep. unfold insert_api_key. destruct (rep_api_keys _ _ Hrep) as (t & Ht & He).
  pose proof (rep_catalog _ _ Hrep) as Hcat. shape Hcat Ht Hcol Hpk Hfk Hix Hfit api_keys_codec.
  set (guard := _ || _).
  apply (insert_cases api_keys_codec _ now "api_keys" t s (api_keys d) k row guard Ht Hfit He).
  - rewrite <- Hcol. stores_all.
  - fresh_key guard.
  - unfold guard. constraints Hpk Hfk Hix. rewrite (pk_free api_keys_codec _ (api_keys d) k row (api_keys_pk _ _)), ?plain_free.
    rewrite (org_present s d "org_id" (enc api_keys_codec k row) (key_org row) Hrep eq_refl). tauto.
  - represented Hrep Ht Hs He'.
  - by intros -> e Hin.
Qed.

Lemma sessions_sim now s d i row :
  represents s d →
  agrees (insert_session i row d) (Sql.insert now "sessions" (list_to_map (enc sessions_codec i row)) s).
Proof.
  intros Hrep. unfold insert_session, get_session_by_refresh_hash. destruct (rep_sessions _ _ Hrep) as (t & Ht & He).
  pose proof (rep_catalog _ _ Hrep) as Hcat. shape Hcat Ht Hcol Hpk Hfk Hix Hfit sessions_codec.
  set (guard := _ || _).
  apply (insert_cases sessions_codec _ now "sessions" t s (sessions d) i row guard Ht Hfit He).
  - rewrite <- Hcol. stores_all.
  - fresh_key guard.
  - unfold guard. constraints Hpk Hfk Hix. rewrite (pk_free sessions_codec _ (sessions d) i row (sessions_pk _ _)), ?plain_free.
    rewrite (user_present s d "user_id" (enc sessions_codec i row) (s_user row) Hrep eq_refl).
    rewrite (lookup_free sessions_codec _ _ (sessions d) i row (sessions_refresh "uq_sessions_refresh_token" i row)). tauto.
  - represented Hrep Ht Hs He'.
  - by intros -> e Hin.
Qed.

Lemma resets_sim now s d i row :
  represents s d →
  agrees (insert_password_reset_token i row d) (Sql.insert now "password_reset_tokens" (list_to_map (enc resets_codec i row)) s).
Proof.
  intros Hrep. unfold insert_password_reset_token, get_password_reset_by_hash. destruct (rep_resets _ _ Hrep) as (t & Ht & He).
  pose proof (rep_catalog _ _ Hrep) as Hcat. shape Hcat Ht Hcol Hpk Hfk Hix Hfit resets_codec.
  set (guard := _ || _).
  apply (insert_cases resets_codec _ now "password_reset_tokens" t s (resets d) i row guard Ht Hfit He).
  - rewrite <- Hcol. stores_all.
  - fresh_key guard.
  - unfold guard. constraints Hpk Hfk Hix. rewrite (pk_free resets_codec _ (resets d) i row (resets_pk _ _)), ?plain_free.
    rewrite (user_present s d "user_id" (enc resets_codec i row) (r_user row) Hrep eq_refl).
    rewrite (lookup_free resets_codec _ _ (resets d) i row (resets_hash "uq_password_reset_token_hash" i row)). tauto.
  - represented Hrep Ht Hs He'.
  - by intros -> e Hin.
Qed.

(** C23: every insert function of the identity tables decides exactly what the
    database built by the migrations decides.  On a database at the head of the
    identity schema that holds the model's tables, the model raises
    [IntegrityError] if and only if the database refuses the row for its primary
    key, a unique index (with NULLs distinct and the predicates of the partial
    indexes) or a foreign key; otherwise both accept, and the new database holds
    the new tables. *)
Theorem identity_tables_meet_schema now s d :
  represents s d →
  (∀ u, int_range 16 (kyc_tier u) = true →
     agrees (insert_user u d) (Sql.insert now "users" (list_to_map (enc users_codec (user_id u) u)) s)) ∧
  (∀ p sub u, agrees (insert_oauth_identity p sub u d)
     (Sql.insert now "oauth_identities" (list_to_map (enc oauth_codec (p, sub) u)) s)) ∧
  (∀ u kind f, agrees (insert_mfa_factor u kind f d)
     (Sql.insert now "mfa_factors" (list_to_map (enc mfa_codec (u, kind) f)) s)) ∧
  (∀ o row, agrees (insert_org o row d) (Sql.insert now "organizations" (list_to_map (enc orgs_codec o row)) s)) ∧
  (∀ o u role, agrees (insert_membership o u role d)
     (Sql.insert now "memberships" (list_to_map (enc memberships_codec (o, u) role)) s)) ∧
  (∀ k row, agrees (insert_api_key k row d) (Sql.insert now "api_keys" (list_to_map (enc api_keys_codec k row)) s)) ∧
  (∀ i row, agrees (insert_session i row d) (Sql.insert now "sessions" (list_to_map (enc sessions_codec i row)) s)) ∧
  (∀ i row, agrees (insert_password_reset_token i row d)
     (Sql.insert now "password_reset_tokens" (list_to_map (enc resets_codec i row)) s)).
Proof.
  intros Hrep. split_and!; intros; [by apply users_sim|apply oauth_sim|apply mfa_sim|apply orgs_sim|apply memberships_sim
    |apply api_keys_sim|apply sessions_sim|apply resets_sim]; done.
Qed.

(** The empty tables and the freshly migrated database. *)
Definition no_rows : iddb := mkDb ∅ ∅ ∅ ∅ ∅ ∅ ∅ ∅ [].

Lemma fresh_represents : represents (Migrations.head 0 identity) no_rows.
Proof. split; [reflexivity|..]; (eexists; split; [vm_compute; reflexivity|constructor]). Qed.

Definition first_user : UserRow := mkUser 1%N (Some "a@x.io") None None 0 "ACTIVE" None.

(** A first user is accepted, then a second one with the same email is refused
    and a session of an unknown user is refused. *)
Lemma identity_tables_meet_schema_witness :
  ∃ s1, represents s1 (on_users (<[1%N := first_user]>) no_rows) ∧
    agrees (insert_user (mkUser 2%N (Some "a@x.io") None None 0 "ACTIVE" None) (on_users (<[1%N := first_user]>) no_rows))
      (Raise UniqueViolation) ∧
    agrees (insert_session 5%N (mkSession 9%N "h" None None 0 10 None) (on_users (<[1%N := first_user]>) no_rows))
      (Raise ForeignKeyViolation).
Proof.
  pose proof (proj1 (identity_tables_meet_schema 0 _ _ fresh_represents) first_user eq_refl) as H0.
  destruct (Sql.insert 0 "users" _ (Migrations.head 0 identity)) as [[r s1]|e] eqn:E; [|vm_compute in E; discriminate E].
  exists s1. split; [exact H0|]. split; vm_compute; repeat (left + right); constructor.
Defined.
End IdentityTables.
