(* ===== verification/Sessions.v ===== *)
(** * identity-service: accounts, sessions and second factor

    [identity-service/app]: [domain/sessions_service.py], [domain/mfa_service.py],
    [domain/auth_service.py], [domain/users_service.py], [events/consumer.py] and
    [security/login_attempts.py].  Random values (ids, tokens, salts, secrets) are
    arguments; SHA-256, argon2, TOTP and AES-GCM are the parameters [Crypto]. *)
From S2P Require Import Prelude PyText UnitOfWork Tables IdentityDb.
From Stdlib Require Import Ascii.

Module Sessions.
Import Identity.
Open Scope Z_scope.

(** [hash_refresh_token]/[hash_reset_token], [PasswordHashing], [verify_totp] at
    a time, [MfaCipher] ([decrypt] raises on a foreign ciphertext). *)
Class Crypto := {
  sha256 : string → string;
  pw_hash : string → string → string;
  pw_verify : string → string → bool;
  totp : string → string → Z → bool;
  encrypt : string → string → string;
  decrypt : string → outcome pyerr string }.

Record Settings := mkSettings {
  refresh_ttl : Z; access_ttl : Z; reset_ttl : Z; threshold : Z; window : Z; dev_return_token : bool }.

Section service.
Context `{!Crypto}.
Variables (uuid_str : uuid → string) (cfg : Settings).

(** ** domain/sessions_service.py *)

Definition org_role_of (d : iddb) (m : uuid * string) : OrgRole :=
  mkOrgRole (uuid_str m.1) m.2 (org_type <$> orgs d !! m.1).

Definition _roles (u : uuid) : H (list OrgRole * list string) :=
  rs ← query (λ d, org_role_of d <$> list_memberships_for_user u d);
  mret (rs, ["payer"]).

(** [JwtIssuer.issue_access]. *)
Definition issue_access (now : Z) (jti : string) (u : uuid) (roles : list OrgRole) (user_roles : list string) (tier : Z)
    (sid : uuid) (elevated : bool) : AccessClaims * Z :=
  (mkClaims (uuid_str u)
     ((λ r, mkOrgRole (or_org r) (or_role r) (match or_type r with Some t => if truthy t then Some t else None | None => None end))
        <$> roles)
     user_roles tier jti (uuid_str sid) elevated (if elevated then ["pwd"; "mfa"] else ["pwd"]) now (now + access_ttl cfg),
   access_ttl cfg).

(** The random values of one login: session id, refresh token and token id. *)
Record Fresh := mkFresh { f_sid : uuid; f_token : string; f_jti : string }.

Definition issue (now : Z) (fr : Fresh) (user : UserRow) (agent ip : option string) (elevated : bool) : H AuthTokens :=
  let session := mkSession (user_id user) (sha256 (f_token fr)) agent ip now (now + refresh_ttl cfg) None in
  try_write (insert_session (f_sid fr) session) ;;
  roles ← _roles (user_id user);
  let '(access, expires) := issue_access now (f_jti fr) (user_id user) roles.1 roles.2 (kyc_tier user) (f_sid fr) elevated in
  commit ;;
  mret (mkTokens access (f_token fr) expires).

Definition revoked (now : Z) (s : SessionRow) : SessionRow :=
  mkSession (s_user s) (s_refresh s) (s_agent s) (s_ip s) (s_created s) (s_expires s) (Some now).

Definition revoke_session (now : Z) (i : uuid) (d : iddb) : iddb := on_sessions (alter (revoked now) i) d.

Definition _revoke_family (now : Z) (u : uuid) : H unit :=
  ss ← query (list_active_sessions_for_user u);
  for_each ss (λ kv, write (revoke_session now kv.1)).

Definition reuse_payload (u : uuid) : json :=
  JObj [("user_id", JStr (uuid_str u)); ("reason", JStr "refresh_token_reuse")].

Definition rotate (now : Z) (fr : Fresh) (token : string) (agent ip : option string) : H AuthTokens :=
  found ← query (get_session_by_refresh_hash (sha256 token));
  match found with
  | None => raise INVALID_TOKEN
  | Some (i, s) =>
      if bool_decide (s_revoked s ≠ None) then
        _revoke_family now (s_user s) ;;
        commit ;;
        publish AUTH_FAILED (reuse_payload (s_user s)) ;;
        raise INVALID_TOKEN
      else if s_expires s <=? now then raise TOKEN_EXPIRED
      else
        user ← query (λ d, users d !! s_user s);
        match user with
        | None => raise INVALID_TOKEN
        | Some u =>
            if bool_decide (status u ≠ user_status ACTIVE) then raise INVALID_TOKEN
            else
              write (revoke_session now i) ;;
              issue now fr u agent ip false
        end
  end.

Definition logout (now : Z) (u : uuid) (token : string) : H unit :=
  found ← query (get_session_by_refresh_hash (sha256 token));
  match found with
  | Some (i, s) =>
      if bool_decide (s_user s = u) && bool_decide (s_revoked s = None) then
        write (revoke_session now i) ;; commit
      else mret tt
  | None => mret tt
  end.

Definition list_active (now : Z) (u : uuid) : H (list (uuid * SessionRow)) :=
  ss ← query (list_sessions_for_user u);
  mret (filter (λ kv, s_revoked kv.2 = None ∧ now < s_expires kv.2) ss).

Definition revoke (now : Z) (u i : uuid) : H unit :=
  found ← query (λ d, sessions d !! i);
  match found with
  | None => raise SESSION_NOT_FOUND
  | Some s =>
      if bool_decide (s_user s ≠ u) then raise SESSION_NOT_FOUND
      else if bool_decide (s_revoked s = None) then write (revoke_session now i) ;; commit
      else mret tt
  end.

Definition revoke_all (now : Z) (u : uuid) : H unit := _revoke_family now u.

(** ** domain/mfa_service.py *)

Definition TOTP : string := "totp".

Definition is_required (u : uuid) : H bool :=
  fs ← query (list_active_mfa u);
  mret (negb (bool_decide (fs = []))).

(** [verify_totp(cipher.decrypt(secret), code)] *)
Definition totp_matches (now : Z) (f : MfaFactorRow) (code : string) : result bool :=
  match decrypt (secret f) with
  | Ok s => Ok (truthy code && totp s code now)
  | Raise k => Raise (PyError k)
  end.

Fixpoint any_factor (now : Z) (fs : list (string * MfaFactorRow)) (code : string) : result bool :=
  match fs with
  | [] => Ok false
  | (kind, f) :: rest =>
      if bool_decide (kind = TOTP) then
        let? b := totp_matches now f code in
        if b then Ok true else any_factor now rest code
      else any_factor now rest code
  end.

Definition verify_login (now : Z) (u : uuid) (code : string) : H bool :=
  fs ← query (list_active_mfa u);
  lift (any_factor now fs code).

(** [secret] and [nonce] are the random values of the enrollment. *)
Definition enroll (u : uuid) (nonce fresh_secret : string) : H string :=
  existing ← query (λ d, mfa d !! (u, TOTP));
  match existing with
  | Some f =>
      if bool_decide (activated_at f ≠ None) then raise MFA_ALREADY_ENROLLED
      else
        write (on_mfa (alter (λ _, mkFactor (encrypt nonce fresh_secret) None) (u, TOTP))) ;;
        commit ;; mret fresh_secret
  | None =>
      try_write (insert_mfa_factor u TOTP (mkFactor (encrypt nonce fresh_secret) None)) ;;
      commit ;; mret fresh_secret
  end.

Definition verify (now : Z) (u : uuid) (code : string) : H unit :=
  factor ← query (λ d, mfa d !! (u, TOTP));
  match factor with
  | None => raise MFA_NOT_ENROLLED
  | Some f =>
      ok ← lift (totp_matches now f code);
      if negb ok then raise MFA_INVALID
      else if bool_decide (activated_at f = None) then
        write (on_mfa (alter (λ f, mkFactor (secret f) (Some now)) (u, TOTP))) ;;
        commit ;;
        publish MFA_ENABLED (JObj [("user_id", JStr (uuid_str u))])
      else mret tt
  end.

Definition disable (now : Z) (u : uuid) (code : string) : H unit :=
  factor ← query (λ d, mfa d !! (u, TOTP));
  match factor with
  | None => raise MFA_NOT_ENROLLED
  | Some f =>
      ok ← lift (totp_matches now f code);
      if negb ok then raise MFA_INVALID
      else write (on_mfa (delete (u, TOTP))) ;; commit
  end.

(** ** security/login_attempts.py *)

Definition fail_key (identifier : string) : string := "authfail:" +:+ lower identifier.

(** [INCR], and [EXPIRE] when the counter starts. *)
Definition count_failure (now : Z) (identifier : string) (x : idworld) : Z * idworld :=
  let k := fail_key identifier in
  let '(n, until) := match failures x !! k with
                     | Some (n, until) => if until <=? now then (1, now + window cfg) else (n + 1, until)
                     | None => (1, now + window cfg)
                     end in
  (n, mkIdWorld (published x) (<[k := (n, until)]> (failures x))).

Definition record_failed (now : Z) (identifier : string) : H Z :=
  n ← observe (λ x, (count_failure now identifier x).1);
  effect (λ x, (count_failure now identifier x).2) ;;
  mret n.

Definition reset_failures (identifier : string) : H unit :=
  effect (λ x, mkIdWorld (published x) (delete (fail_key identifier) (failures x))).

(** ** domain/auth_service.py *)

Definition user_payload (u : uuid) : json := JObj [("user_id", JStr (uuid_str u))].

Definition register (u : uuid) (mail tel : option string) (salt password : string) : H UserRow :=
  by_mail ← query (λ d, get_user_by_email (default "" mail) d);
  by_tel ← query (λ d, get_user_by_phone (default "" tel) d);
  if otruthy mail && bool_decide (is_Some by_mail) then raise EMAIL_TAKEN
  else if otruthy tel && bool_decide (is_Some by_tel) then raise PHONE_TAKEN
  else
    let user := mkUser u mail tel (Some (pw_hash salt password)) 0 (user_status ACTIVE) None in
    try_write (insert_user user) ;;
    write (add_event "user" (Some u) USER_REGISTERED (user_payload u)) ;;
    commit ;;
    publish USER_REGISTERED (user_payload u) ;;
    mret user.

Definition _lookup (identifier : string) : H (option UserRow) :=
  if has_char "@"%char identifier then query (get_user_by_email identifier) else query (get_user_by_phone identifier).

Definition _record_failure (now : Z) (identifier : string) : H unit :=
  n ← record_failed now identifier;
  when (threshold cfg <=? n)
    (publish AUTH_FAILED (JObj [("identifier", JStr identifier); ("failures", JInt n)])).

Definition logged_in (now : Z) (u : UserRow) : UserRow :=
  mkUser (user_id u) (email u) (phone u) (password_hash u) (kyc_tier u) (status u) (Some now).

(** The MFA part of [login]: whether the login is MFA-elevated. *)
Definition second_factor (now : Z) (u : uuid) (identifier : string) (code : option string) : H bool :=
  required ← is_required u;
  if negb required then mret false
  else if negb (otruthy code) then raise MFA_REQUIRED
  else
    ok ← verify_login now u (default "" code);
    if negb ok then _record_failure now identifier ;; raise MFA_INVALID else mret true.

Definition login (now : Z) (fr : Fresh) (identifier password : string) (code : option string) (agent ip : option string) :
    H AuthTokens :=
  found ← _lookup identifier;
  let denied : H AuthTokens := _record_failure now identifier ;; raise INVALID_CREDENTIALS in
  match found with
  | None => denied
  | Some user =>
      match password_hash user with
      | None => denied
      | Some h =>
          if negb (pw_verify h password) then denied
          else if bool_decide (status user ≠ user_status ACTIVE) then raise USER_SUSPENDED
          else
            elevated ← second_factor now (user_id user) identifier code;
            reset_failures identifier ;;
            write (on_users (alter (logged_in now) (user_id user))) ;;
            issue now fr user agent ip elevated
      end
  end.

Definition request_password_reset (now : Z) (i : uuid) (raw : string) (identifier : string) : H (option string) :=
  found ← _lookup identifier;
  match found with
  | None => mret None
  | Some user =>
      if bool_decide (password_hash user = None) then mret None
      else
        write (invalidate_user_reset_tokens now (user_id user)) ;;
        try_write (insert_password_reset_token i (mkReset (user_id user) (sha256 raw) (now + reset_ttl cfg) None)) ;;
        write (add_event "user" (Some (user_id user)) PASSWORD_RESET_REQUESTED (user_payload (user_id user))) ;;
        commit ;;
        publish PASSWORD_RESET_REQUESTED (user_payload (user_id user)) ;;
        mret (if dev_return_token cfg then Some raw else None)
  end.

Definition with_password (h : string) (u : UserRow) : UserRow :=
  mkUser (user_id u) (email u) (phone u) (Some h) (kyc_tier u) (status u) (last_login_at u).

Definition confirm_password_reset (now : Z) (token salt new_password : string) : H unit :=
  found ← query (get_password_reset_by_hash (sha256 token));
  match found with
  | None => raise INVALID_TOKEN
  | Some (i, row) =>
      if bool_decide (r_used row ≠ None) || (r_expires row <=? now) then raise INVALID_TOKEN
      else
        user ← query (λ d, users d !! r_user row);
        match user with
        | None => raise INVALID_TOKEN
        | Some u =>
            if bool_decide (status u ≠ user_status ACTIVE) then raise INVALID_TOKEN
            else
              write (on_users (alter (with_password (pw_hash salt new_password)) (user_id u))) ;;
              write (on_resets (alter (mark_used now) i)) ;;
              revoke_all now (user_id u) ;;
              write (add_event "user" (Some (user_id u)) PASSWORD_RESET_SUCCEEDED (user_payload (user_id u))) ;;
              commit ;;
              publish PASSWORD_RESET_SUCCEEDED (user_payload (user_id u))
        end
  end.

(** What a provider's code exchange answers; nothing for [OAuthError]. *)
Record OAuthIdentity := mkOAuth { o_provider : string; o_subject : string; o_email : option string }.

(** The linked account, or a fresh one (and whether it is fresh). *)
Definition resolve_account (u : uuid) (ident : OAuthIdentity) : H (UserRow * bool) :=
  link ← query (λ d, oauth d !! (o_provider ident, o_subject ident));
  match link with
  | Some l =>
      found ← query (λ d, users d !! l);
      match found with None => raise OAUTH_EXCHANGE_FAILED | Some user => mret (user, false) end
  | None =>
      known ← query (λ d, match o_email ident with Some e => get_user_by_email e d | None => None end);
      let user := mkUser u (if bool_decide (is_Some known) then None else o_email ident) None None 0
                    (user_status ACTIVE) None in
      try_write (insert_user user) ;;
      write (add_event "user" (Some u) USER_REGISTERED (user_payload u)) ;;
      try_write (insert_oauth_identity (o_provider ident) (o_subject ident) u) ;;
      mret (user, true)
  end.

(** [exchange]: nothing for an unknown provider, else the provider's answer. *)
Definition oauth_callback (now : Z) (fr : Fresh) (u : uuid) (exchange : option (option OAuthIdentity)) (agent ip : option string) :
    H AuthTokens :=
  match exchange with
  | None => raise OAUTH_PROVIDER_UNKNOWN
  | Some None => raise OAUTH_EXCHANGE_FAILED
  | Some (Some ident) =>
      acc ← resolve_account u ident;
      if bool_decide (status acc.1 ≠ user_status ACTIVE) then raise USER_SUSPENDED
      else
        write (on_users (alter (logged_in now) (user_id acc.1))) ;;
        tokens ← issue now fr acc.1 agent ip false;
        when acc.2 (publish USER_REGISTERED (user_payload (user_id acc.1))) ;;
        mret tokens
  end.

(** ** domain/users_service.py and events/consumer.py *)

Definition get_user (u : uuid) : H UserRow :=
  found ← query (λ d, users d !! u);
  match found with None => raise USER_NOT_FOUND | Some user => mret user end.

Definition with_email (e : string) (u : UserRow) : UserRow :=
  mkUser (user_id u) (Some e) (phone u) (password_hash u) (kyc_tier u) (status u) (last_login_at u).
Definition with_phone (p : string) (u : UserRow) : UserRow :=
  mkUser (user_id u) (email u) (Some p) (password_hash u) (kyc_tier u) (status u) (last_login_at u).
Definition with_tier (t : Z) (u : UserRow) : UserRow :=
  mkUser (user_id u) (email u) (phone u) (password_hash u) t (status u) (last_login_at u).

Definition update (u : uuid) (mail tel : option string) : H unit :=
  user ← get_user u;
  match mail with
  | Some e =>
      if bool_decide (Some e ≠ email user) then
        other ← query (get_user_by_email e);
        if bool_decide (is_Some other) then raise EMAIL_TAKEN else write (on_users (alter (with_email e) u))
      else mret tt
  | None => mret tt
  end ;;
  match tel with
  | Some p =>
      if bool_decide (Some p ≠ phone user) then
        other ← query (get_user_by_phone p);
        if bool_decide (is_Some other) then raise PHONE_TAKEN else write (on_users (alter (with_phone p) u))
      else mret tt
  | None => mret tt
  end ;;
  commit.

(** The column is a SMALLINT: the flush refuses a wider number. *)
Definition smallint (z : Z) : bool := (- 2 ^ 15 <=? z) && (z <? 2 ^ 15).

Definition set_kyc_tier (u : uuid) (tier : Z) : H unit :=
  found ← query (λ d, users d !! u);
  match found with
  | None => mret tt
  | Some _ =>
      (if smallint tier then write (on_users (alter (with_tier tier) u)) else throw (PyError DataError)) ;;
      commit ;;
      publish USER_VERIFIED (JObj [("user_id", JStr (uuid_str u)); ("kyc_tier", JInt tier)])
  end.

Definition KYC_PASSED : string := "compliance.kyc.passed".
Definition KYC_FAILED : string := "compliance.kyc.failed".

(** [KycConsumer.handle]: [user] is [uuid.UUID] of the payload's user id, absent
    when the field is missing or empty; [tier] is [int] of the payload's tier, absent
    when the field is.  Both conversions may raise. *)
Definition kyc_event (name : string) (user : option (result uuid)) (tier : option (result Z)) : H unit :=
  match user with
  | None => mret tt
  | Some raw =>
      u ← lift raw;
      if bool_decide (name = KYC_PASSED) then (t ← lift (default (Ok 1) tier); set_kyc_tier u t)
      else if bool_decide (name = KYC_FAILED) then set_kyc_tier u 0
      else mret tt
  end.
End service.

(** ** Sessions and reset tokens only move forward *)

Definition acct_ok (d : iddb) : Prop :=
  map_Forall (λ u r, user_id r = u) (users d) ∧ unique_by s_refresh (sessions d) ∧ unique_by r_hash (resets d).

(** A session keeps its user, token and expiry, and once revoked stays revoked. *)
Definition session_moves (s s' : SessionRow) : Prop :=
  s_user s' = s_user s ∧ s_refresh s' = s_refresh s ∧ s_expires s' = s_expires s ∧
  (s_revoked s ≠ None → s_revoked s' ≠ None).

Definition reset_moves (r r' : PasswordResetTokenRow) : Prop :=
  r_user r' = r_user r ∧ r_hash r' = r_hash r ∧ r_expires r' = r_expires r ∧ (r_used r ≠ None → r_used r' ≠ None).

#[global] Instance session_moves_preorder : PreOrder session_moves.
Proof. split; [done|]. intros a b c (?&?&?&?) (?&?&?&?). unfold session_moves. split_and!; try congruence; auto. Qed.

#[global] Instance reset_moves_preorder : PreOrder reset_moves.
Proof. split; [done|]. intros a b c (?&?&?&?) (?&?&?&?). unfold reset_moves. split_and!; try congruence; auto. Qed.

Definition acct_step (d0 d : iddb) : Prop :=
  acct_ok d ∧ moves session_moves (sessions d0) (sessions d) ∧ moves reset_moves (resets d0) (resets d).

Lemma acct_step_refl d : acct_ok d → acct_step d d.
Proof. intros Hd. split_and!; [done|reflexivity..]. Qed.

Lemma acct_step_trans d1 d2 d3 : acct_step d1 d2 → acct_step d2 d3 → acct_step d1 d3.
Proof. intros (?&?&?) (?&?&?). split_and!; [done|by etrans..]. Qed.

Section steps.
Variable d0 : iddb.

Lemma step_alter_user d k g :
  (∀ r, user_id (g r) = user_id r) → acct_step d0 d → acct_step d0 (on_users (alter g k) d).
Proof.
  intros Hg ((Hu & ? & ?) & ? & ?). split_and!; [split_and!|..]; try done.
  simpl. apply map_Forall_alter_2; [done|]. intros r _ Hr. by rewrite Hg.
Qed.

Lemma step_insert_user d u d' : acct_step d0 d → insert_user u d = Ok d' → acct_step d0 d'.
Proof.
  intros ((Hu & ? & ?) & ? & ?) Hi. unfold insert_user in Hi. case_match; [done|]. injection Hi as <-.
  split_and!; [split_and!|..]; try done. simpl. by apply map_Forall_insert_2.
Qed.

Lemma step_revoke_session d now i : acct_step d0 d → acct_step d0 (revoke_session now i d).
Proof.
  intros ((? & Hs & ?) & Hm & ?). split_and!; [split_and!|..]; try done; simpl.
  - by apply unique_by_alter.
  - etrans; [exact Hm|]. apply moves_alter; [apply _|]. intros s _. by split_and!.
Qed.

Lemma step_insert_session d i row d' : acct_step d0 d → insert_session i row d = Ok d' → acct_step d0 d'.
Proof.
  intros ((? & Hs & ?) & Hm & ?) Hi. unfold insert_session in Hi. case_match eqn:E; [done|]. injection Hi as <-.
  apply orb_false_elim in E as [[E1 _]%orb_false_elim E3]. apply bool_decide_eq_false, eq_None_not_Some in E1.
  apply bool_decide_eq_false, eq_None_not_Some in E3.
  split_and!; [split_and!|..]; try done; simpl.
  - apply unique_by_insert; [done|]. intros j b Hj. by apply (head_by_none _ _ j b E3).
  - etrans; [exact Hm|]. by apply moves_insert; [apply _|].
Qed.

Lemma step_mark_used d now i : acct_step d0 d → acct_step d0 (on_resets (alter (mark_used now) i) d).
Proof.
  intros ((? & ? & Hr) & ? & Hm). split_and!; [split_and!|..]; try done; simpl.
  - by apply unique_by_alter.
  - etrans; [exact Hm|]. apply moves_alter; [apply _|]. intros s _. by split_and!.
Qed.

Lemma step_invalidate d now u : acct_step d0 d → acct_step d0 (invalidate_user_reset_tokens now u d).
Proof.
  intros ((? & ? & Hr) & ? & Hm). split_and!; [split_and!|..]; try done; simpl.
  - apply unique_by_fmap; [done|]. intros r. by case_match.
  - etrans; [exact Hm|]. apply moves_fmap. intros r. case_match; by split_and!.
Qed.

Lemma step_insert_reset d i row d' :
  acct_step d0 d → insert_password_reset_token i row d = Ok d' → acct_step d0 d'.
Proof.
  intros ((? & ? & Hr) & ? & Hm) Hi. unfold insert_password_reset_token in Hi. case_match eqn:E; [done|]. injection Hi as <-.
  apply orb_false_elim in E as [[E1 _]%orb_false_elim E3]. apply bool_decide_eq_false, eq_None_not_Some in E1.
  apply bool_decide_eq_false, eq_None_not_Some in E3.
  split_and!; [split_and!|..]; try done; simpl.
  - apply unique_by_insert; [done|]. intros j b Hj. by apply (head_by_none _ _ j b E3).
  - etrans; [exact Hm|]. by apply moves_insert; [apply _|].
Qed.

Lemma step_insert_oauth d p s u d' : acct_step d0 d → insert_oauth_identity p s u d = Ok d' → acct_step d0 d'.
Proof. unfold insert_oauth_identity. case_match; [done|]. by intros ? [= <-]. Qed.

Lemma step_insert_mfa d u k f d' : acct_step d0 d → insert_mfa_factor u k f d = Ok d' → acct_step d0 d'.
Proof. unfold insert_mfa_factor. case_match; [done|]. by intros ? [= <-]. Qed.
End steps.

(** One lemma per kind of write; writes to other tables leave the claim as it is. *)
Ltac acct_write :=
  match goal with
  | |- acct_step _ (on_users (alter _ _) _) => by apply step_alter_user
  | |- acct_step _ (revoke_session _ _ _) => by apply step_revoke_session
  | |- acct_step _ (on_resets (alter _ _) _) => by apply step_mark_used
  | |- acct_step _ (invalidate_user_reset_tokens _ _ _) => by apply step_invalidate
  | Hi : insert_user _ _ = Ok ?d |- acct_step _ ?d => by eapply step_insert_user
  | Hi : insert_session _ _ _ = Ok ?d |- acct_step _ ?d => by eapply step_insert_session
  | Hi : insert_password_reset_token _ _ _ = Ok ?d |- acct_step _ ?d => by eapply step_insert_reset
  | Hi : insert_oauth_identity _ _ _ _ = Ok ?d |- acct_step _ ?d => by eapply step_insert_oauth
  | Hi : insert_mfa_factor _ _ _ _ = Ok ?d |- acct_step _ ?d => by eapply step_insert_mfa
  | Hd : acct_step _ ?d |- acct_step _ (_ ?d) => exact Hd
  end.

(** ** Sequences of requests *)

Section requests.
Context `{!Crypto}.
Variables (uuid_str : uuid → string) (cfg : Settings).

Inductive areq :=
| RRegister (u : uuid) (mail tel : option string) (salt password : string)
| RLogin (now : Z) (fr : Fresh) (identifier password : string) (code agent ip : option string)
| RRefresh (now : Z) (fr : Fresh) (token : string) (agent ip : option string)
| RLogout (now : Z) (u : uuid) (token : string)
| RRevoke (now : Z) (u i : uuid)
| RResetRequest (now : Z) (i : uuid) (raw identifier : string)
| RResetConfirm (now : Z) (token salt password : string)
| ROAuth (now : Z) (fr : Fresh) (u : uuid) (exchange : option (option OAuthIdentity)) (agent ip : option string)
| REnroll (u : uuid) (nonce secret : string)
| RVerify (now : Z) (u : uuid) (code : string)
| RDisable (now : Z) (u : uuid) (code : string)
| RUpdate (u : uuid) (mail tel : option string)
| RKyc (name : string) (user : option (result uuid)) (tier : option (result Z)).

(** The handler of a request, with the tokens it hands out. *)
Definition handle (q : areq) : H (option AuthTokens) :=
  match q with
  | RRegister u mail tel salt pw => _ ← register uuid_str u mail tel salt pw; mret None
  | RLogin now fr idf pw code agent ip => t ← login uuid_str cfg now fr idf pw code agent ip; mret (Some t)
  | RRefresh now fr token agent ip => t ← rotate uuid_str cfg now fr token agent ip; mret (Some t)
  | RLogout now u token => _ ← logout now u token; mret None
  | RRevoke now u i => _ ← revoke now u i; mret None
  | RResetRequest now i raw idf => _ ← request_password_reset uuid_str cfg now i raw idf; mret None
  | RResetConfirm now token salt pw => _ ← confirm_password_reset uuid_str now token salt pw; mret None
  | ROAuth now fr u ex agent ip => t ← oauth_callback uuid_str cfg now fr u ex agent ip; mret (Some t)
  | REnroll u nonce sec => _ ← enroll u nonce sec; mret None
  | RVerify now u code => _ ← verify uuid_str now u code; mret None
  | RDisable now u code => _ ← disable now u code; mret None
  | RUpdate u mail tel => _ ← update u mail tel; mret None
  | RKyc name user tier => _ ← kyc_event uuid_str name user tier; mret None
  end.

Definition serve (s : iddb * idworld) (q : areq) : iddb * idworld :=
  let '(_, d, x) := request (handle q) s.1 s.2 in (d, x).

Definition serve_all (s : iddb * idworld) (qs : list areq) : iddb * idworld := fold_left serve qs s.

Lemma stable_issue d0 now fr u agent ip e : stable (acct_step d0) (issue uuid_str cfg now fr u agent ip e).
Proof. unfold issue, _roles. stable_go; acct_write. Qed.

Lemma stable_handle d0 q : stable (acct_step d0) (handle q).
Proof.
  destruct q; unfold handle, register, login, rotate, logout, revoke, request_password_reset, confirm_password_reset,
    oauth_callback, resolve_account, enroll, verify, disable, update, kyc_event, set_kyc_tier, get_user, revoke_all, _revoke_family,
    second_factor, is_required, verify_login, _lookup, _record_failure, record_failed, reset_failures, publish;
    stable_go; first [apply stable_issue|acct_write].
Qed.

Lemma serve_step s q : acct_ok s.1 → acct_step s.1 (serve s q).1.
Proof.
  intros Hs. unfold serve. pose proof (stable_request (acct_step s.1) (handle q) s.1 s.2 (stable_handle _ q)
    (acct_step_refl _ Hs)) as H'. by destruct (request (handle q) s.1 s.2) as [[r d'] x'].
Qed.

Lemma serve_all_step qs s : acct_ok s.1 → acct_step s.1 (serve_all s qs).1.
Proof.
  revert s. induction qs as [|q qs IH]; intros s Hs; simpl; [by apply acct_step_refl|].
  pose proof (serve_step s q Hs) as Hq. eapply acct_step_trans; [exact Hq|]. apply IH, Hq.
Qed.

(** ** Revoking a family *)

Definition revoke_list (now : Z) (l : list (uuid * SessionRow)) (d : iddb) : iddb :=
  fold_left (λ d kv, revoke_session now kv.1 d) l d.

Definition family_revoked (now : Z) (u : uuid) (d : iddb) : iddb :=
  revoke_list now (list_active_sessions_for_user u d) d.

Lemma revoke_family_run now u w :
  _revoke_family now u w = (Ok tt, Uow (db w) (family_revoked now u (tx w)) (ext w)).
Proof.
  unfold _revoke_family, mbind, handler_bind, query, family_revoked.
  generalize (list_active_sessions_for_user u (tx w)). intros l. revert w.
  induction l as [|kv l IH]; intros w; simpl; [by destruct w|]. unfold mbind, handler_bind, write. simpl. by rewrite IH.
Qed.

Lemma wp_revoke_family now u Φ w :
  Φ (Ok tt) (Uow (db w) (family_revoked now u (tx w)) (ext w)) → wp (_revoke_family now u) Φ w.
Proof. unfold wp. by rewrite revoke_family_run. Qed.

Lemma revoke_list_lookup now l d i :
  sessions (revoke_list now l d) !! i = (if decide (i ∈ l.*1) then revoked now else id) <$> sessions d !! i.
Proof.
  revert d. unfold revoke_list. induction l as [|kv l IH]; intros d; cbn [fold_left].
  { destruct (decide (i ∈ _)) as [Hi|_]; [by apply elem_of_nil in Hi|]. by destruct (sessions d !! i). }
  rewrite IH. unfold revoke_session, on_sessions. cbn [sessions fmap list_fmap].
  destruct (decide (i = kv.1)) as [->|Hne].
  - rewrite lookup_alter_eq, (decide_True (P := kv.1 ∈ _ :: _)) by set_solver.
    destruct (sessions d !! kv.1); simpl; [|done]. by case_decide.
  - rewrite lookup_alter_ne by done. repeat case_decide; try done; set_solver.
Qed.

Lemma family_revoked_on now u d :
  family_revoked now u d =
    on_sessions (λ m, fold_left (λ m kv, alter (revoked now) kv.1 m)
      (filter (λ kv, s_user kv.2 = u ∧ s_revoked kv.2 = None) (map_to_list m)) m) d.
Proof.
  unfold family_revoked, list_active_sessions_for_user, on_sessions.
  generalize (filter (λ kv, s_user kv.2 = u ∧ s_revoked kv.2 = None) (map_to_list (sessions d))). intros l.
  unfold revoke_list. revert d. induction l as [|kv l IH]; intros d; simpl; [by destruct d|]. by rewrite IH.
Qed.

Lemma family_revoked_all now u d i s :
  sessions (family_revoked now u d) !! i = Some s → s_user s = u → s_revoked s ≠ None.
Proof.
  unfold family_revoked. rewrite revoke_list_lookup. intros (s0 & Hs0 & ->)%fmap_Some Hu.
  case_decide as Hi; [done|]. simpl in *. intros Hn. apply Hi, list_elem_of_fmap. exists (i, s0). split; [done|].
  apply list_elem_of_filter. split; [done|]. by apply elem_of_map_to_list.
Qed.

Lemma family_revoked_found now u d i s :
  sessions d !! i = Some s → ∃ s', sessions (family_revoked now u d) !! i = Some s' ∧ s_user s' = s_user s.
Proof.
  intros Hs. unfold family_revoked. rewrite revoke_list_lookup, Hs. eexists. split; [done|]. by case_decide.
Qed.

(** Presenting a revoked token: the family dies, nothing is issued. *)
Lemma rotate_reuse now fr token agent ip d x i s :
  get_session_by_refresh_hash (sha256 token) d = Some (i, s) → s_revoked s ≠ None →
  request (rotate uuid_str cfg now fr token agent ip) d x =
    (Raise (AppError INVALID_TOKEN), family_revoked now (s_user s) d,
     mkIdWorld (published x ++ [(AUTH_FAILED, reuse_payload uuid_str (s_user s))]) (failures x)).
Proof.
  intros Hg Hr. unfold request, rotate. unfold mbind at 1, handler_bind at 1, query. cbn [tx]. rewrite Hg.
  rewrite bool_decide_true by done. unfold mbind, handler_bind. by rewrite revoke_family_run.
Qed.

Lemma issue_spec now fr u agent ip e w :
  wp (issue uuid_str cfg now fr u agent ip e)
    (λ r w', ∀ t, r = Ok t →
      insert_session (f_sid fr) (mkSession (user_id u) (sha256 (f_token fr)) agent ip now (now + refresh_ttl cfg) None) (tx w) =
        Ok (db w') ∧ c_mfa (access_token t) = e ∧ c_user (access_token t) = uuid_str (user_id u) ∧
        refresh_token t = f_token fr ∧ published (ext w') = published (ext w)) w.
Proof. unfold issue, _roles, issue_access. wp_go; intros t Ht; simplify_eq/=; by split_and!. Qed.

Lemma insert_session_lookup i row d d' j s :
  insert_session i row d = Ok d' → sessions d !! j = Some s → sessions d' !! j = Some s.
Proof.
  unfold insert_session. case_match eqn:E; [done|]. intros [= <-] Hj. simpl.
  apply orb_false_elim in E as [[E1 _]%orb_false_elim _]. apply bool_decide_eq_false, eq_None_not_Some in E1.
  rewrite lookup_insert_ne; [done|congruence].
Qed.

(** A successful refresh retires the presented session. *)
Lemma rotate_ok now fr token agent ip d x t :
  (request (rotate uuid_str cfg now fr token agent ip) d x).1.1 = Ok t →
  ∃ i s, get_session_by_refresh_hash (sha256 token) d = Some (i, s) ∧ s_revoked s = None ∧ now < s_expires s ∧
    sessions (request (rotate uuid_str cfg now fr token agent ip) d x).1.2 !! i = Some (revoked now s) ∧
    c_mfa (access_token t) = false.
Proof.
  apply (wp_request (rotate uuid_str cfg now fr token agent ip)
    (λ r d' _, r = Ok t → ∃ i s, get_session_by_refresh_hash (sha256 token) d = Some (i, s) ∧ s_revoked s = None ∧
      now < s_expires s ∧ sessions d' !! i = Some (revoked now s) ∧ c_mfa (access_token t) = false)).
  unfold rotate, publish. wp_go; try done.
  - apply wp_revoke_family. by wp_go.
  - eapply wp_mono; [apply issue_spec|]. intros r w Hi Hr. destruct (Hi t Hr) as (Hins & Hm & _). cbn [tx] in Hins.
    match goal with Hg : get_session_by_refresh_hash _ d = Some (?i, ?s) |- _ =>
      exists i, s; apply head_by_some in Hg as Hs; destruct Hs as [_ Hs] end.
    repeat match goal with Hb : bool_decide _ = false |- _ => apply bool_decide_eq_false in Hb end.
    split_and!; [done|by apply dec_stable|by apply Z.leb_gt| |done].
    eapply insert_session_lookup; [exact Hins|]. simpl. by rewrite lookup_alter_eq, Hs.
Qed.

Lemma serve_refresh s now fr token agent ip :
  serve s (RRefresh now fr token agent ip) =
    ((request (rotate uuid_str cfg now fr token agent ip) s.1 s.2).1.2, (request (rotate uuid_str cfg now fr token agent ip) s.1 s.2).2).
Proof. unfold serve, handle. by rewrite (request_map _ Some). Qed.

(** ** Correctness *)

(** C17: a refresh token works once.  After a refresh that handed out new tokens,
    whatever requests follow, presenting the old token again is refused, and it
    ends every session of its user, the ones opened with the new tokens
    included. *)
Theorem refresh_token_single_use (now now' : Z) (fr fr' : Fresh) (token : string) (agent ip agent' ip' : option string)
    (s : iddb * idworld) (qs : list areq) (t : AuthTokens) (Hok : acct_ok s.1)
    (Hrotated : (request (rotate uuid_str cfg now fr token agent ip) s.1 s.2).1.1 = Ok t) :
  let later := serve_all (serve s (RRefresh now fr token agent ip)) qs in
  let '(answer, d, _) := request (rotate uuid_str cfg now' fr' token agent' ip') later.1 later.2 in
  ∃ i old, get_session_by_refresh_hash (sha256 token) s.1 = Some (i, old) ∧
    answer = Raise (AppError INVALID_TOKEN) ∧
    ∀ j s', sessions d !! j = Some s' → s_user s' = s_user old → s_revoked s' ≠ None.
Proof.
  intros later. destruct (rotate_ok _ _ _ _ _ _ _ _ Hrotated) as (i & old & Hg & Hn & _ & Hdead & _).
  pose proof (serve_step s (RRefresh now fr token agent ip) Hok) as H1.
  pose proof (serve_all_step qs _ (proj1 H1)) as H2. fold later in H2.
  rewrite serve_refresh in H2. destruct H2 as ((_ & Huniq & _) & Hmove & _).
  destruct (Hmove i _ Hdead) as (dead & Hdead' & Hu & Hh & _ & Hrev).
  apply head_by_some in Hg as Hold. destruct Hold as [Hhash _]. simpl in Hhash.
  assert (Hfind : get_session_by_refresh_hash (sha256 token) later.1 = Some (i, dead)).
  { rewrite <- Hhash. change (s_refresh old) with (s_refresh (revoked now old)). rewrite <- Hh. by apply head_by_unique. }
  rewrite (rotate_reuse now' fr' token agent' ip' later.1 later.2 i dead Hfind) by by apply Hrev.
  exists i, old. split_and!; [done|done|]. intros j s' Hj Hus. apply (family_revoked_all _ _ _ _ _ Hj). by rewrite Hu.
Qed.
(** *** Password reset *)

Lemma confirm_ok now token salt pw d x :
  acct_ok d → (request (confirm_password_reset uuid_str now token salt pw) d x).1.1 = Ok tt →
  ∃ i row u, get_password_reset_by_hash (sha256 token) d = Some (i, row) ∧ users d !! r_user row = Some u ∧
    let d' := (request (confirm_password_reset uuid_str now token salt pw) d x).1.2 in
    users d' !! r_user row = Some (with_password (pw_hash salt pw) u) ∧ resets d' !! i = Some (mark_used now row) ∧
    sessions d' = sessions (family_revoked now (r_user row) d).
Proof.
  intros (Husers & _). apply (wp_request (confirm_password_reset uuid_str now token salt pw) (λ r d' _, r = Ok tt →
    ∃ i row u, get_password_reset_by_hash (sha256 token) d = Some (i, row) ∧ users d !! r_user row = Some u ∧
      users d' !! r_user row = Some (with_password (pw_hash salt pw) u) ∧ resets d' !! i = Some (mark_used now row) ∧
      sessions d' = sessions (family_revoked now (r_user row) d))).
  unfold confirm_password_reset, revoke_all, publish. wp_go; try done.
  apply wp_revoke_family. wp_go. intros _.
  match goal with Hg : get_password_reset_by_hash _ d = Some (?i, ?r), Hu : users d !! _ = Some ?u |- _ =>
    exists i, r, u; pose proof (Husers _ _ Hu) as Hid; apply head_by_some in Hg as Hrow; destruct Hrow as [_ Hrow]
  end.
  simpl in Hid. rewrite Hid, !family_revoked_on. simpl. split_and!; [done|done| | |done].
  - rewrite lookup_alter_eq. by match goal with Hu : users d !! _ = Some _ |- _ => rewrite Hu end.
  - by rewrite lookup_alter_eq, Hrow.
Qed.

Lemma serve_confirm s now token salt pw :
  serve s (RResetConfirm now token salt pw) =
    ((request (confirm_password_reset uuid_str now token salt pw) s.1 s.2).1.2,
     (request (confirm_password_reset uuid_str now token salt pw) s.1 s.2).2).
Proof. unfold serve, handle. by rewrite (request_map _ (λ _, None)). Qed.

Lemma confirm_used now token salt pw d x i row :
  get_password_reset_by_hash (sha256 token) d = Some (i, row) → r_used row ≠ None →
  request (confirm_password_reset uuid_str now token salt pw) d x = (Raise (AppError INVALID_TOKEN), d, x).
Proof.
  intros Hg Hu. unfold request, confirm_password_reset. unfold mbind, handler_bind, query. cbn [tx]. rewrite Hg.
  by rewrite bool_decide_true by done.
Qed.

(** a completed password reset sets the password, ends every session the
    user had, for good, and uses up the token: whatever requests follow, no
    earlier session is ever active again and the token is refused without any
    effect. *)
Theorem password_reset_ends_sessions (now : Z) (token salt pw : string) (s : iddb * idworld) (qs : list areq)
    (Hok : acct_ok s.1) (Hdone : (request (confirm_password_reset uuid_str now token salt pw) s.1 s.2).1.1 = Ok tt) :
  let s1 := serve s (RResetConfirm now token salt pw) in
  let later := serve_all s1 qs in
  ∃ i row u, get_password_reset_by_hash (sha256 token) s.1 = Some (i, row) ∧ users s.1 !! r_user row = Some u ∧
    users s1.1 !! r_user row = Some (with_password (pw_hash salt pw) u) ∧
    (∀ j sess, sessions s.1 !! j = Some sess → s_user sess = r_user row →
      ∃ sess', sessions later.1 !! j = Some sess' ∧ s_revoked sess' ≠ None) ∧
    ∀ now' salt' pw', request (confirm_password_reset uuid_str now' token salt' pw') later.1 later.2 =
      (Raise (AppError INVALID_TOKEN), later.1, later.2).
Proof.
  intros s1 later. destruct (confirm_ok now token salt pw s.1 s.2 Hok Hdone) as (i & row & u & Hg & Hu & Hpw & Hused & Hsess).
  pose proof (serve_step s (RResetConfirm now token salt pw) Hok) as H1. fold s1 in H1.
  pose proof (serve_all_step qs s1 (proj1 H1)) as ((_ & _ & Huniq) & Hs2 & Hr2). fold later in Huniq, Hs2, Hr2.
  unfold s1 in Hs2, Hr2 |- *. rewrite serve_confirm in Hs2, Hr2 |- *. cbn [fst snd] in *. exists i, row, u. split_and!; try done.
  - intros j sess Hj Huj. destruct (family_revoked_found now (r_user row) s.1 j sess Hj) as (sess1 & Hj1 & Hu1).
    rewrite <- Hsess in Hj1. destruct (Hs2 j sess1 Hj1) as (sess2 & Hj2 & _ & _ & _ & Hrev). exists sess2. split; [done|].
    apply Hrev. rewrite Hsess in Hj1. apply (family_revoked_all _ _ _ _ _ Hj1). congruence.
  - intros now' salt' pw'. destruct (Hr2 i _ Hused) as (row' & Hrow' & _ & Hh & _ & Hu').
    apply (confirm_used now' token salt' pw' later.1 later.2 i row'); [|by apply Hu'].
    apply head_by_some in Hg as Hold. destruct Hold as [Hhash _]. simpl in Hhash, Hh. rewrite <- Hhash, <- Hh.
    by apply head_by_unique.
Qed.
(** *** Login *)

Definition found_by (identifier : string) (d : iddb) : option UserRow :=
  if has_char "@"%char identifier then get_user_by_email identifier d else get_user_by_phone identifier d.

Lemma any_factor_true now fs code :
  any_factor now fs code = Ok true → ∃ f sec, (TOTP, f) ∈ fs ∧ decrypt (secret f) = Ok sec ∧ truthy code = true ∧ totp sec code now = true.
Proof.
  induction fs as [|[kind f] fs IH]; [done|]. simpl. unfold totp_matches. case_bool_decide as Hk; [subst|].
  - destruct (decrypt (secret f)) as [sec|k] eqn:E; [|done]. simpl. destruct (truthy code && totp sec code now) eqn:Eb.
    + intros _. apply andb_prop in Eb as [? ?]. exists f, sec. split_and!; try done. left.
    + intros (f' & sec' & ? & ?)%IH. exists f', sec'. split; [by right|done].
  - intros (f' & sec' & ? & ?)%IH. exists f', sec'. split; [by right|done].
Qed.

Lemma second_factor_spec now u idf code w :
  wp (second_factor cfg now u idf code)
    (λ r w', db w' = db w ∧ tx w' = tx w ∧ ∀ e, r = Ok e →
      e = negb (bool_decide (list_active_mfa u (tx w) = [])) ∧
      (e = true → ∃ c f sec, code = Some c ∧ (TOTP, f) ∈ list_active_mfa u (tx w) ∧ decrypt (secret f) = Ok sec ∧
        truthy c = true ∧ totp sec c now = true)) w.
Proof.
  unfold second_factor, is_required, verify_login, _record_failure, record_failed, publish.
  wp_go; (split_and!; [done|done|]); intros b0 Hb0; simplify_eq;
    (split; [by destruct (bool_decide (list_active_mfa _ _ = []))|]); try done; intros _.
  destruct a; [|done]. destruct code as [c|]; [|done]. simpl in *.
  match goal with Ha : any_factor _ _ _ = Ok true |- _ => apply any_factor_true in Ha as (f & sec & Hin & Hdec & Ht & Hok) end.
  exists c, f, sec. by split_and!.
Qed.

(** What a login that handed out [t] has checked, against the database it ran on. *)
Definition login_checked (d : iddb) (now : Z) (idf pw : string) (code : option string) (t : AuthTokens) : Prop :=
  ∃ u h, found_by idf d = Some u ∧ password_hash u = Some h ∧ pw_verify h pw = true ∧ status u = user_status ACTIVE ∧
    c_user (access_token t) = uuid_str (user_id u) ∧
    if decide (list_active_mfa (user_id u) d = []) then c_mfa (access_token t) = false
    else c_mfa (access_token t) = true ∧
      ∃ c f sec, code = Some c ∧ (TOTP, f) ∈ list_active_mfa (user_id u) d ∧ decrypt (secret f) = Ok sec ∧ totp sec c now = true.

Lemma login_spec now fr idf pw code agent ip d x :
  wp (login uuid_str cfg now fr idf pw code agent ip) (λ r _, ∀ t, r = Ok t → login_checked d now idf pw code t) (Uow d d x).
Proof.
  unfold login, _lookup, _record_failure, record_failed, publish. apply wp_bind.
  apply (wp_mono _ (λ r w, r = Ok (found_by idf d) ∧ tx w = d)); [by unfold found_by; destruct (has_char _ _)|].
  intros r w [-> Hw]. unfold reset_failures. wp_go; try (by intros t Ht).
  eapply wp_mono; [apply second_factor_spec|]. intros [e|e] w' (_ & Htx & He); [|by intros t Ht]. wp_go.
  eapply wp_mono; [apply issue_spec|]. intros r w2 Hi t Ht. destruct (Hi t Ht) as (_ & Hm & Hu & _).
  destruct (He e eq_refl) as [He1 He2]. rewrite Hw in He1, He2.
  match goal with Hf : found_by _ _ = Some ?u, Hp : password_hash ?u = Some ?h |- _ => exists u, h end.
  repeat match goal with Hb : bool_decide (_ ≠ _) = false |- _ => apply bool_decide_eq_false, dec_stable in Hb end.
  split_and!; try done; [by apply negb_false_iff|]. rewrite Hm. case_decide as Hn.
  - rewrite He1. by rewrite bool_decide_true.
  - rewrite bool_decide_false in He1 by done. split; [done|]. destruct (He2 He1) as (c & f & sec & ?).
    exists c, f, sec. naive_solver.
Qed.

(** What a refresh has checked: the token is the one of a live session, whose user
    is an active account. *)
Definition refresh_checked (d : iddb) (now : Z) (token : string) (t : AuthTokens) : Prop :=
  ∃ i s u, get_session_by_refresh_hash (sha256 token) d = Some (i, s) ∧ s_revoked s = None ∧ now < s_expires s ∧
    users d !! s_user s = Some u ∧ status u = user_status ACTIVE ∧
    c_user (access_token t) = uuid_str (user_id u) ∧ c_mfa (access_token t) = false.

(** What an OAuth sign-in has checked: the provider vouched for an identity, and
    the account linked to it is active; an identity without a link gets the new
    account [fresh], which no row had. *)
Definition oauth_checked (d : iddb) (fresh : uuid) (exchange : option (option OAuthIdentity)) (t : AuthTokens) : Prop :=
  ∃ ident, exchange = Some (Some ident) ∧ c_mfa (access_token t) = false ∧
    match oauth d !! (o_provider ident, o_subject ident) with
    | Some l => ∃ u, users d !! l = Some u ∧ status u = user_status ACTIVE ∧ c_user (access_token t) = uuid_str (user_id u)
    | None => users d !! fresh = None ∧ c_user (access_token t) = uuid_str fresh
    end.

Lemma refresh_spec now fr token agent ip d x :
  wp (rotate uuid_str cfg now fr token agent ip) (λ r _, ∀ t, r = Ok t → refresh_checked d now token t) (Uow d d x).
Proof.
  unfold rotate, publish. wp_go; try (by intros t Ht).
  - apply wp_revoke_family. wp_go; by intros t Ht.
  - eapply wp_mono; [apply issue_spec|]. intros r w Hi t Hr. destruct (Hi t Hr) as (_ & Hm & Hc & _).
    match goal with Hg : get_session_by_refresh_hash _ d = Some (?i, ?s), Hu : users d !! _ = Some ?u |- _ => exists i, s, u end.
    repeat match goal with Hb : bool_decide _ = false |- _ => apply bool_decide_eq_false in Hb end.
    split_and!; try done; [by apply dec_stable|by apply Z.leb_gt|by apply dec_stable].
Qed.

Lemma insert_user_fresh u d d' : insert_user u d = Ok d' → users d !! user_id u = None.
Proof. unfold insert_user. case_match eqn:E; [done|]. intros _. repeat apply orb_false_elim in E as [E _].
  by apply bool_decide_eq_false, eq_None_not_Some in E. Qed.

Lemma oauth_spec now fr u ex agent ip d x :
  wp (oauth_callback uuid_str cfg now fr u ex agent ip) (λ r _, ∀ t, r = Ok t → oauth_checked d u ex t) (Uow d d x).
Proof.
  unfold oauth_callback, resolve_account, publish, oauth_checked. wp_go; try (by intros t Ht).
  all: eapply wp_mono; [apply issue_spec|]; intros [t|e] w' Hi; [|by intros ? ?]; wp_go; intros t' [= <-];
    destruct (Hi t eq_refl) as (_ & Hm & Hc & _); eexists; (split; [done|]); (split; [exact Hm|]).
  all: simplify_option_eq.
  - eexists. by split_and!.
  - split; [|done]. by match goal with Hi : insert_user _ d = Ok _ |- _ => apply insert_user_fresh in Hi end.
Qed.

(** C26: tokens are only handed out with the checks done.  A login's tokens mean
    the account was found by the identifier, its password verified, the account
    active and, when a second factor is active, the code verified against it; the
    MFA claim is set exactly when a factor was checked.  A refresh's tokens mean the
    presented token is that of a session neither revoked nor expired, whose user is
    active; an OAuth sign-in's that the provider vouched for the identity and the
    account linked to it is active, or is the one just created for it.  Those two ask
    for no password and no second factor, and never set the MFA claim.  The tokens
    are always the account's own, and no other request hands out any. *)
Theorem tokens_mean_checks (q : areq) (d : iddb) (x : idworld) (t : AuthTokens)
    (Hissued : (request (handle q) d x).1.1 = Ok (Some t)) :
  match q with
  | RLogin now _ idf pw code _ _ => login_checked d now idf pw code t
  | RRefresh now _ token _ _ => refresh_checked d now token t
  | ROAuth _ _ u exchange _ _ => oauth_checked d u exchange t
  | _ => False
  end.
Proof.
  destruct q; unfold handle in Hissued.
  all: try (match type of Hissued with context [request (?m ≫= _) _ _] => rewrite (request_map m (λ _, None)) in Hissued end;
    simpl in Hissued; by case_match).
  all: match type of Hissued with context [request (?m ≫= _) _ _] => rewrite (request_map m Some) in Hissued; simpl in Hissued;
    destruct (request m d x).1.1 as [t'|e] eqn:E; [|done]; injection Hissued as ->; revert E end.
  - apply (wp_request (login uuid_str cfg now fr identifier password code agent ip)
      (λ r _ _, r = Ok t → login_checked d now identifier password code t)).
    eapply wp_mono; [apply login_spec|]. auto.
  - apply (wp_request (rotate uuid_str cfg now fr token agent ip) (λ r _ _, r = Ok t → refresh_checked d now token t)).
    eapply wp_mono; [apply refresh_spec|]. auto.
  - apply (wp_request (oauth_callback uuid_str cfg now fr u exchange agent ip)
      (λ r _ _, r = Ok t → oauth_checked d u exchange t)).
    eapply wp_mono; [apply oauth_spec|]. auto.
Qed.
End requests.

(** ** Concrete runs *)

Definition empty_id : iddb * idworld := (mkDb ∅ ∅ ∅ ∅ ∅ ∅ ∅ ∅ [], mkIdWorld [] ∅).

Lemma empty_id_ok : acct_ok empty_id.1.
Proof.
  split_and!; [apply map_Forall_empty|intros i j a b Hi..]; by destruct (lookup_empty_Some (M := gmap uuid) i a).
Qed.

Definition demo_crypto : Crypto :=
  {| sha256 s := "#" +:+ s; pw_hash salt p := salt +:+ p; pw_verify h p := bool_decide (h = "s" +:+ p);
     totp sec code now := bool_decide (sec = code); encrypt n s := s; decrypt s := Ok s |}.
#[local] Existing Instance demo_crypto.

Definition demo_cfg : Settings := mkSettings 100 10 30 5 900 false.
Definition demo_str (i : uuid) : string := if bool_decide (i = 1%N) then "one" else "two".

Definition demo_account : list areq :=
  [RRegister 1%N (Some "a@x") None "s" "secret"; RLogin 10 (mkFresh 20%N "tok1" "j1") "a@x" "secret" None None None;
   RResetRequest 11 30%N "reset" "a@x"; REnroll 1%N "n" "123456"; RVerify 12 1%N "123456"].

Definition demo_id : iddb * idworld := serve_all demo_str demo_cfg empty_id demo_account.

Lemma demo_id_ok : acct_ok demo_id.1.
Proof. apply (serve_all_step demo_str demo_cfg demo_account empty_id empty_id_ok). Qed.

Lemma refresh_token_single_use_witness :
  let s1 := serve demo_str demo_cfg demo_id (RRefresh 13 (mkFresh 21%N "tok2" "j2") "tok1" None None) in
  (request (rotate demo_str demo_cfg 14 (mkFresh 22%N "tok3" "j3") "tok1" None None) s1.1 s1.2).1.1 =
    Raise (AppError INVALID_TOKEN).
Proof.
  destruct ((request (rotate demo_str demo_cfg 13 (mkFresh 21%N "tok2" "j2") "tok1" None None) demo_id.1 demo_id.2).1.1)
    as [t|e] eqn:E; [|by vm_compute in E].
  pose proof (refresh_token_single_use demo_str demo_cfg 13 14 (mkFresh 21%N "tok2" "j2") (mkFresh 22%N "tok3" "j3") "tok1"
    None None None None demo_id [] t demo_id_ok E) as Hsingle.
  unfold serve_all in Hsingle. cbn [fold_left] in Hsingle. cbv zeta in Hsingle |- *.
  match goal with |- (request ?m ?d ?x).1.1 = _ => destruct (request m d x) as [[r d'] x'] end.
  by destruct Hsingle as (i & old & _ & -> & _).
Defined.

Lemma password_reset_ends_sessions_witness :
  ∃ sess', sessions (serve demo_str demo_cfg demo_id (RResetConfirm 13 "reset" "s" "new")).1 !! 20%N = Some sess' ∧
    s_revoked sess' ≠ None.
Proof.
  destruct (password_reset_ends_sessions demo_str demo_cfg 13 "reset" "s" "new" demo_id []) as (i & row & u & Hg & _ & _ & Hs & _).
  - apply demo_id_ok.
  - by vm_compute.
  - destruct (sessions demo_id.1 !! 20%N) as [sess|] eqn:E; [|by vm_compute in E].
    apply (Hs 20%N sess E). vm_compute in E, Hg. injection E as <-. by injection Hg as <- <-.
Defined.

Lemma tokens_mean_checks_witness :
  (request (handle demo_str demo_cfg (RLogin 13 (mkFresh 23%N "tok4" "j4") "a@x" "secret" (Some "123456") None None))
     demo_id.1 demo_id.2).1.1 ≠ Raise (AppError MFA_REQUIRED) ∧
  ∃ t, login_checked demo_str demo_id.1 13 "a@x" "secret" (Some "123456") t ∧ c_mfa (access_token t) = true.
Proof.
  split; [by vm_compute|].
  destruct ((request (handle demo_str demo_cfg (RLogin 13 (mkFresh 23%N "tok4" "j4") "a@x" "secret" (Some "123456") None None))
     demo_id.1 demo_id.2).1.1) as [[t|]|e] eqn:E; [|by vm_compute in E..].
  exists t. split; [exact (tokens_mean_checks demo_str demo_cfg _ _ _ _ E)|].
  vm_compute in E. by injection E as <-.
Defined.
End Sessions.
