(* ===== verification/Orgs.v ===== *)
(** * identity-service: organizations, memberships and API keys

    [identity-service/app]: [domain/orgs_service.py], [domain/api_keys_service.py]
    and [security/api_keys.py]. *)
From S2P Require Import Prelude PyText PyJson UnitOfWork Tables IdentityDb Sessions.

Module Orgs.
Import Identity.
Open Scope Z_scope.

Section service.
Context `{!Sessions.Crypto}.
Variable uuid_str : uuid → string.

(** ** domain/orgs_service.py *)

Definition _actor_roles (actor : uuid) : H (list OrgRole) :=
  query (λ d, (λ m, mkOrgRole (uuid_str m.1) m.2 None) <$> list_memberships_for_user actor d).

Definition create (now : Z) (o creator : uuid) (name ty : string) : H unit :=
  if bool_decide (ty ∉ OrgTypes) then raise INVALID_PAYLOAD
  else
    try_write (insert_org o (mkOrg name ty creator now)) ;;
    try_write (insert_membership o creator (role_value OWNER)) ;;
    write (add_event "org" (Some o) ORG_CREATED (JObj [("org_id", JStr (uuid_str o)); ("type", JStr ty)])) ;;
    commit ;;
    publish ORG_CREATED (JObj [("org_id", JStr (uuid_str o)); ("created_by", JStr (uuid_str creator))]) ;;
    publish MEMBER_ADDED (JObj [("org_id", JStr (uuid_str o)); ("user_id", JStr (uuid_str creator));
                                ("role", JStr (role_value OWNER))]).

Definition member_payload (o u : uuid) (role : string) : json :=
  JObj [("org_id", JStr (uuid_str o)); ("user_id", JStr (uuid_str u)); ("role", JStr role)].

Definition find_target (target_id : option uuid) (target_email : option string) : H (option UserRow) :=
  match target_id, target_email with
  | Some i, _ => query (λ d, users d !! i)
  | None, Some e => query (get_user_by_email e)
  | None, None => mret None
  end.

Definition add_member (actor o : uuid) (target_id : option uuid) (target_email : option string) (role : string) : H uuid :=
  roles ← _actor_roles actor;
  _ ← lift (require roles (uuid_str o) MEMBER_INVITE);
  if bool_decide (role ∉ role_value <$> Roles) then raise INVALID_PAYLOAD
  else
    target ← find_target target_id target_email;
    match target with
    | None => raise MEMBER_NOT_FOUND
    | Some t =>
        existing ← query (λ d, memberships d !! (o, user_id t));
        if bool_decide (is_Some existing) then raise MEMBER_EXISTS
        else
          try_write (insert_membership o (user_id t) role) ;;
          write (add_event "org" (Some o) MEMBER_ADDED (member_payload o (user_id t) role)) ;;
          commit ;;
          publish MEMBER_ADDED (member_payload o (user_id t) role) ;;
          mret (user_id t)
    end.

Definition list_for_user (u : uuid) : H (list (uuid * OrganizationRow * string)) := query (list_orgs_for_user u).

Definition list_members_of (actor o : uuid) : H (list (uuid * string)) :=
  roles ← _actor_roles actor;
  _ ← lift (require roles (uuid_str o) MEMBER_READ);
  query (list_members o).

Definition removed_payload (o u : uuid) : json := JObj [("org_id", JStr (uuid_str o)); ("user_id", JStr (uuid_str u))].

Definition remove_member (actor o target : uuid) : H unit :=
  roles ← _actor_roles actor;
  _ ← lift (require roles (uuid_str o) MEMBER_REMOVE);
  membership ← query (λ d, memberships d !! (o, target));
  match membership with
  | None => raise MEMBER_NOT_FOUND
  | Some role =>
      owners ← query (count_owners o);
      if bool_decide (role = role_value OWNER) && (owners <=? 1)%nat then raise CANNOT_REMOVE_LAST_OWNER
      else
        write (delete_membership o target) ;;
        write (add_event "org" (Some o) MEMBER_REMOVED (removed_payload o target)) ;;
        commit ;;
        publish MEMBER_REMOVED (removed_payload o target)
  end.

(** ** security/api_keys.py *)

Definition PREFIX : string := "lm_live_".

Record GeneratedApiKey := mkGenerated { full_key : string; g_prefix : string; g_hash : string }.

(** [secret] is [secrets.token_urlsafe(32)], [salt] argon2's. *)
Definition generate_api_key (secret salt : string) : GeneratedApiKey :=
  let full := PREFIX +:+ secret in
  mkGenerated full (PREFIX +:+ text (take 8 (chars secret))) (Sessions.pw_hash salt full).

Definition prefix_of (full : string) : string :=
  let l := chars full in
  let secret := if bool_decide (take 8 l = chars PREFIX) then drop 8 l else [] in
  PREFIX +:+ text (take 8 secret).

(** ** domain/api_keys_service.py *)

Definition key_payload (k o : uuid) (sc : list string) : json :=
  JObj [("api_key_id", JStr (uuid_str k)); ("org_id", JStr (uuid_str o)); ("scopes", JList (JStr <$> sc))].

Definition issue (now : Z) (k : uuid) (secret salt : string) (actor o : uuid) (name : string) (sc : list string) :
    H (ApiKeyRow * string) :=
  roles ← _actor_roles actor;
  role ← lift (require roles (uuid_str o) APIKEY_ISSUE);
  _ ← lift (validate_scopes role sc);
  let g := generate_api_key secret salt in
  let row := mkKey o name (g_prefix g) (g_hash g) sc "ACTIVE" now None in
  try_write (insert_api_key k row) ;;
  write (add_event "api_key" (Some k) API_KEY_ISSUED (key_payload k o sc)) ;;
  commit ;;
  publish API_KEY_ISSUED (key_payload k o sc) ;;
  mret (row, full_key g).

(** The role's [org_id] text parsed back is the membership's organization. *)
Definition list_for_actor (actor : uuid) : H (list (uuid * ApiKeyRow)) :=
  query (λ d, list_memberships_for_user actor d ≫= λ m,
    if can m.2 APIKEY_READ then list_api_keys_for_org m.1 d else []).

Definition revoked_key (now : Z) (r : ApiKeyRow) : ApiKeyRow :=
  mkKey (key_org r) (key_name r) (prefix r) (key_hash r) (scopes r) "REVOKED" (key_created r) (Some now).

Definition revoked_payload (k o : uuid) : json := JObj [("api_key_id", JStr (uuid_str k)); ("org_id", JStr (uuid_str o))].

Definition revoke (now : Z) (actor k : uuid) : H ApiKeyRow :=
  found ← query (λ d, api_keys d !! k);
  match found with
  | None => raise API_KEY_NOT_FOUND
  | Some row =>
      roles ← _actor_roles actor;
      _ ← lift (require roles (uuid_str (key_org row)) APIKEY_REVOKE);
      if bool_decide (key_status row ≠ "REVOKED") then
        write (on_api_keys (alter (revoked_key now) k)) ;;
        write (add_event "api_key" (Some k) API_KEY_REVOKED (revoked_payload k (key_org row))) ;;
        commit ;;
        publish API_KEY_REVOKED (revoked_payload k (key_org row)) ;;
        mret (revoked_key now row)
      else mret row
  end.

Fixpoint first_match (full : string) (l : list (uuid * ApiKeyRow)) : option (uuid * ApiKeyRow) :=
  match l with
  | [] => None
  | (k, row) :: rest =>
      if bool_decide (key_status row = "ACTIVE") && Sessions.pw_verify (key_hash row) full then Some (k, row)
      else first_match full rest
  end.

Definition verify (full : string) : H (option (uuid * ApiKeyRow)) :=
  query (λ d, first_match full (list_api_keys_by_prefix (prefix_of full) d)).
End service.

(** ** Every organization keeps an owner *)

Definition org_ok (d : iddb) : Prop :=
  (∀ o, is_Some (orgs d !! o) → ∃ u, memberships d !! (o, u) = Some (role_value OWNER)) ∧
  (∀ o u r, memberships d !! (o, u) = Some r → is_Some (orgs d !! o) ∧ r ∈ role_value <$> Roles).

Section owners.
Context `{!Sessions.Crypto}.
Variable uuid_str : uuid → string.
Context `{!Inj (=) (=) uuid_str}.

(** The caller's role in an organization is the one the table holds. *)
Lemma role_in_org_lookup d actor o :
  role_in_org ((λ m, mkOrgRole (uuid_str m.1) m.2 None) <$> list_memberships_for_user actor d) (uuid_str o) =
    memberships d !! (o, actor).
Proof.
  assert (Hgen : ∀ l : list (uuid * string), NoDup l.*1 →
    role_in_org ((λ m, mkOrgRole (uuid_str m.1) m.2 None) <$> l) (uuid_str o) = list_to_map (M := gmap uuid string) l !! o).
  { induction l as [|[o' r] l IH]; intros Hnd; [done|]. apply NoDup_cons in Hnd as [Hni Hnd]. simpl.
    case_bool_decide as Ho; simpl in Ho.
    - apply (inj uuid_str) in Ho as ->. by rewrite lookup_insert_eq.
    - rewrite lookup_insert_ne by congruence. by apply IH. }
  assert (Hnd : NoDup (list_memberships_for_user actor d).*1).
  { unfold list_memberships_for_user. rewrite <- list_fmap_compose. apply NoDup_fmap_2_strong.
    - intros [[o1 u1] r1] [[o2 u2] r2] [Hu1 H1]%list_elem_of_filter [Hu2 H2]%list_elem_of_filter Heq. simpl in *. subst.
      apply elem_of_map_to_list in H1, H2. congruence.
    - apply NoDup_filter, NoDup_map_to_list. }
  rewrite Hgen by done. destruct (memberships d !! (o, actor)) as [r|] eqn:E.
  - apply elem_of_list_to_map_1; [done|]. unfold list_memberships_for_user. apply list_elem_of_fmap.
    exists ((o, actor), r). split; [done|]. apply list_elem_of_filter. split; [done|]. by apply elem_of_map_to_list.
  - apply not_elem_of_list_to_map_1. intros (m & -> & Hm)%list_elem_of_fmap. unfold list_memberships_for_user in Hm.
    apply list_elem_of_fmap in Hm as ([[o' u'] r'] & -> & [Hu Hm]%list_elem_of_filter). simpl in *. subst.
    apply elem_of_map_to_list in Hm. congruence.
Qed.

(** Two owners are left after removing one of at least two. *)
Lemma other_owner d o u :
  (2 ≤ count_owners o d)%nat → ∃ v, v ≠ u ∧ memberships d !! (o, v) = Some (role_value OWNER).
Proof.
  unfold count_owners. intros Hlen.
  set (l := filter (λ kv : uuid * uuid * string, kv.1.1 = o ∧ kv.2 = role_value OWNER) (map_to_list (memberships d))) in *.
  assert (Hin : ∀ kv, kv ∈ l → kv.1.1 = o ∧ kv.2 = role_value OWNER ∧ memberships d !! kv.1 = Some kv.2).
  { intros [k r] [[? ?] Hk]%list_elem_of_filter. apply elem_of_map_to_list in Hk. done. }
  assert (Hnd : NoDup l) by apply NoDup_filter, NoDup_map_to_list.
  destruct l as [|[[o1 u1] r1] [|[[o2 u2] r2] l']]; simpl in Hlen; [lia..|].
  apply NoDup_cons in Hnd as [Hni _].
  destruct (Hin ((o1, u1), r1)) as (? & ? & Hk1); [by left|]. destruct (Hin ((o2, u2), r2)) as (? & ? & Hk2); [by right; left|].
  simpl in *. subst. destruct (decide (u1 = u)) as [->|Hne]; [|by exists u1]. exists u2. split; [|done].
  intros ->. apply Hni. left.
Qed.

Inductive oreq :=
| OCreate (now : Z) (o creator : uuid) (name ty : string)
| OAdd (actor o : uuid) (target_id : option uuid) (target_email : option string) (role : string)
| ORemove (actor o target : uuid)
| OIssue (now : Z) (k : uuid) (secret salt : string) (actor o : uuid) (name : string) (sc : list string)
| ORevoke (now : Z) (actor k : uuid)
| OAccount (cfg : Sessions.Settings) (q : Sessions.areq).

Definition handle (q : oreq) : H unit :=
  match q with
  | OCreate now o creator name ty => create uuid_str now o creator name ty
  | OAdd actor o ti te role => _ ← add_member uuid_str actor o ti te role; mret tt
  | ORemove actor o target => remove_member uuid_str actor o target
  | OIssue now k secret salt actor o name sc => _ ← issue uuid_str now k secret salt actor o name sc; mret tt
  | ORevoke now actor k => _ ← revoke uuid_str now actor k; mret tt
  | OAccount cfg q => _ ← Sessions.handle uuid_str cfg q; mret tt
  end.

Definition serve (s : iddb * idworld) (q : oreq) : iddb * idworld :=
  let '(_, d, x) := request (handle q) s.1 s.2 in (d, x).

Definition serve_all (s : iddb * idworld) (qs : list oreq) : iddb * idworld := fold_left serve qs s.

Lemma insert_org_same o row d d' : insert_org o row d = Ok d' →
  orgs d' = <[o := row]> (orgs d) ∧ memberships d' = memberships d ∧ orgs d !! o = None.
Proof.
  unfold insert_org. case_match eqn:E; [done|]. intros [= <-]. apply orb_false_elim in E as [E _].
  by apply bool_decide_eq_false, eq_None_not_Some in E.
Qed.

Lemma insert_membership_same o u r d d' : insert_membership o u r d = Ok d' →
  orgs d' = orgs d ∧ memberships d' = <[(o, u) := r]> (memberships d) ∧ is_Some (orgs d !! o) ∧ memberships d !! (o, u) = None.
Proof.
  unfold insert_membership. case_match eqn:E; [done|]. intros [= <-].
  apply orb_false_elim in E as [[E1 E2]%orb_false_elim _].
  apply bool_decide_eq_false, eq_None_not_Some in E1. apply bool_decide_eq_false in E2. by apply not_eq_None_Some in E2.
Qed.

Lemma org_ok_add o u r d d' :
  org_ok d → r ∈ role_value <$> Roles → insert_membership o u r d = Ok d' → org_ok d'.
Proof.
  intros [Hown Hmem] Hr (Ho & Hm & Hex & Hn)%insert_membership_same. unfold org_ok. rewrite Ho, Hm. split.
  - intros o' Ho'. destruct (Hown o' Ho') as [v Hv]. exists v. rewrite lookup_insert_ne; [done|congruence].
  - intros o' u' r' [[[= <- <-] <-]|[_ Hl]]%lookup_insert_Some; [done|by eapply Hmem].
Qed.

Lemma org_ok_create now o creator name ty d d1 d2 :
  org_ok d → insert_org o (mkOrg name ty creator now) d = Ok d1 →
  insert_membership o creator (role_value OWNER) d1 = Ok d2 → org_ok d2.
Proof.
  intros [Hown Hmem] (Ho & Hm & Hn)%insert_org_same (Ho2 & Hm2 & _ & Hnm)%insert_membership_same.
  unfold org_ok. rewrite Ho2, Hm2, Ho, Hm. split.
  - intros o' Ho'. destruct (decide (o' = o)) as [->|Hne]; [exists creator; by rewrite lookup_insert_eq|].
    rewrite lookup_insert_ne in Ho' by done. destruct (Hown o' Ho') as [v Hv]. exists v.
    rewrite lookup_insert_ne; [done|congruence].
  - intros o' u' r' [[[= <- <-] <-]|[_ Hl]]%lookup_insert_Some.
    + rewrite lookup_insert_eq. split; [done|]. set_solver.
    + destruct (Hmem o' u' r' Hl) as [? ?]. split; [|done]. rewrite lookup_insert_is_Some. destruct (decide (o = o')); auto.
Qed.

Lemma org_ok_remove o u d role :
  org_ok d → memberships d !! (o, u) = Some role → (role = role_value OWNER → (2 ≤ count_owners o d)%nat) →
  org_ok (delete_membership o u d).
Proof.
  intros [Hown Hmem] Hu Hcount. split; simpl.
  - intros o' Ho'. destruct (Hown o' Ho') as [v Hv]. destruct (decide ((o, u) = (o', v))) as [[= -> ->]|Hne].
    + rewrite Hu in Hv. injection Hv as ->. destruct (other_owner d o' v (Hcount eq_refl)) as (v' & Hne & Hv').
      exists v'. rewrite lookup_delete_ne; [done|congruence].
    + exists v. by rewrite lookup_delete_ne.
  - intros o' u' r [_ Hl]%lookup_delete_Some. by eapply Hmem.
Qed.
(** Account requests touch neither organizations nor memberships. *)
Ltac org_untouched :=
  match goal with
  | Hd : org_ok ?d, Hi : _ ?d = Ok ?d' |- org_ok ?d' =>
      unfold insert_user, insert_session, insert_password_reset_token, insert_oauth_identity, insert_mfa_factor, insert_api_key
        in Hi; case_match; [done|]; injection Hi as <-; exact Hd
  | Hd : org_ok _ |- _ => exact Hd
  end.

Lemma account_keeps cfg q : stable org_ok (Sessions.handle uuid_str cfg q).
Proof.
  destruct q; unfold Sessions.handle, Sessions.register, Sessions.login, Sessions.rotate, Sessions.logout, Sessions.revoke,
    Sessions.request_password_reset, Sessions.confirm_password_reset, Sessions.oauth_callback, Sessions.resolve_account,
    Sessions.enroll, Sessions.verify, Sessions.disable, Sessions.update, Sessions.kyc_event, Sessions.set_kyc_tier,
    Sessions.get_user, Sessions.revoke_all, Sessions._revoke_family, Sessions.second_factor, Sessions.is_required,
    Sessions.verify_login, Sessions._lookup, Sessions._record_failure, Sessions.record_failed, Sessions.reset_failures,
    Sessions.issue, Sessions._roles, publish;
    stable_go; org_untouched.
Qed.

Ltac org_wp := repeat (cbv beta iota zeta; match goal with
  | |- wp (_actor_roles _ _) _ _ => unfold _actor_roles
  | |- wp (publish _ _) _ _ => unfold publish
  | |- wp (find_target _ _) _ _ => unfold find_target
  | _ => wp_step end).

Lemma orgs_handle_keeps q d x : org_ok d → wp (handle q) (λ _ w, org_ok (db w)) (Uow d d x).
Proof.
  intros Hd. destruct q; unfold handle.
  - unfold create. org_wp; try done.
    match goal with H1 : insert_org _ _ _ = Ok _, H2 : insert_membership _ _ _ _ = Ok _ |- _ =>
      exact (org_ok_create _ _ _ _ _ _ _ _ Hd H1 H2) end.
  - unfold add_member. org_wp; try done;
      match goal with Hb : bool_decide (_ ∉ _) = false, Hi : insert_membership _ _ _ _ = Ok _ |- _ =>
        apply bool_decide_eq_false, dec_stable in Hb; exact (org_ok_add _ _ _ _ _ Hd Hb Hi) end.
  - unfold remove_member. org_wp; try done.
    match goal with Hm : memberships d !! _ = Some ?r |- _ => apply (org_ok_remove o target d r Hd Hm) end.
    intros ->. match goal with Hb : _ && _ = false |- _ => rewrite bool_decide_true in Hb by done; simpl in Hb;
      apply Nat.leb_gt in Hb; lia end.
  - unfold issue. org_wp; try done.
    match goal with Hi : insert_api_key _ _ _ = Ok _ |- _ => unfold insert_api_key in Hi; case_match; [done|]; by injection Hi as <- end.
  - unfold revoke. org_wp; by try done.
  - apply wp_bind. eapply wp_mono; [by apply account_keeps|]. intros [a|e] w [Hw _]; [by apply wp_ret|done].
Qed.

Lemma serve_keeps s q : org_ok s.1 → org_ok (serve s q).1.
Proof.
  intros Hs. unfold serve. pose proof (wp_request (handle q) (λ _ d' _, org_ok d') s.1 s.2 (orgs_handle_keeps q _ _ Hs)) as H'.
  by destruct (request (handle q) s.1 s.2) as [[r d'] x'].
Qed.

Lemma serve_all_keeps qs s : org_ok s.1 → org_ok (serve_all s qs).1.
Proof. revert s. induction qs as [|q qs IH]; intros s Hs; simpl; [done|]. by apply IH, serve_keeps. Qed.

Lemma empty_org_ok : org_ok Sessions.empty_id.1.
Proof.
  split; simpl.
  - intros o [r Hr]. by destruct (lookup_empty_Some (M := gmap uuid) o r).
  - intros o u r Hr. by destruct (lookup_empty_Some (M := gmap (uuid * uuid)) (o, u) r).
Qed.

(** ** Correctness *)

(** C24: over any sequence of organization, API-key and account requests, by any
    callers, every organization always has an owner, every membership belongs to an
    existing organization and has one of the five roles; and removing the only
    owner is refused with CANNOT_REMOVE_LAST_OWNER, by whoever holds the permission,
    with nothing changed. *)
Theorem org_always_has_owner (qs : list oreq) :
  let s := serve_all Sessions.empty_id qs in
  org_ok s.1 ∧
  ∀ actor o target role, memberships s.1 !! (o, actor) = Some role → can role MEMBER_REMOVE = true →
    memberships s.1 !! (o, target) = Some (role_value OWNER) → count_owners o s.1 = 1%nat →
    request (remove_member uuid_str actor o target) s.1 s.2 = (Raise (AppError CANNOT_REMOVE_LAST_OWNER), s.1, s.2).
Proof.
  intros s. split; [apply serve_all_keeps, empty_org_ok|]. intros actor o target role Hrole Hcan Ht Hc.
  unfold request, remove_member, _actor_roles. unfold mbind, handler_bind, query, lift. cbn [tx].
  unfold require. rewrite role_in_org_lookup, Hrole, Hcan. cbv beta iota. cbn [tx]. rewrite Ht.
  cbv beta iota. cbn [tx]. rewrite Hc.
  by rewrite bool_decide_true by done.
Qed.

(** *** API keys *)

Lemma prefix_of_key secret : prefix_of (PREFIX +:+ secret) = PREFIX +:+ text (take 8 (chars secret)).
Proof. done. Qed.

Lemma first_match_spec full l k row :
  first_match full l = Some (k, row) → (k, row) ∈ l ∧ key_status row = "ACTIVE" ∧ Sessions.pw_verify (key_hash row) full = true.
Proof.
  induction l as [|[k' r'] l IH]; [done|]. simpl. destruct (bool_decide _ && _) eqn:E.
  - intros [= <- <-]. apply andb_prop in E as [E1%bool_decide_eq_true E2]. split; [by left|done].
  - intros [? ?]%IH. split; [by right|done].
Qed.

Lemma first_match_none full l :
  (∀ k row, (k, row) ∈ l → key_status row = "ACTIVE" → Sessions.pw_verify (key_hash row) full = false) → first_match full l = None.
Proof.
  intros Hl. destruct (first_match full l) as [[k row]|] eqn:E; [|done].
  apply first_match_spec in E as (Hin & Ha & Hv). rewrite Hl with k row in Hv; done.
Qed.

Lemma by_prefix p d k row :
  (k, row) ∈ list_api_keys_by_prefix p d ↔ api_keys d !! k = Some row ∧ prefix row = p ∧ key_status row = "ACTIVE".
Proof. unfold list_api_keys_by_prefix. rewrite list_elem_of_filter, elem_of_map_to_list. simpl. naive_solver. Qed.

Lemma check_scopes_ok known allowed sc : check_scopes known allowed sc = Ok tt → ∀ s, s ∈ sc → s ∈ known ∧ s ∈ allowed.
Proof.
  induction sc as [|s sc IH]; simpl; [set_solver|]. repeat case_bool_decide; try done. intros Hc s' [->|Hs']%elem_of_cons.
  - done.
  - by apply IH.
Qed.

(** What a successful issue did. *)
Lemma issue_ok now k secret salt actor o name sc d x row full :
  (request (issue uuid_str now k secret salt actor o name sc) d x).1.1 = Ok (row, full) →
  let d1 := (request (issue uuid_str now k secret salt actor o name sc) d x).1.2 in
  full = PREFIX +:+ secret ∧
  row = mkKey o name (PREFIX +:+ text (take 8 (chars secret))) (Sessions.pw_hash salt full) sc "ACTIVE" now None ∧
  api_keys d1 = <[k := row]> (api_keys d) ∧ memberships d1 = memberships d ∧
  ∃ role, memberships d !! (o, actor) = Some role ∧ can role APIKEY_ISSUE = true ∧
    ∀ s, s ∈ sc → s ∈ scope_value <$> allowed_scopes_for_role role.
Proof.
  apply (wp_request (issue uuid_str now k secret salt actor o name sc) (λ r d1 _, r = Ok (row, full) →
    full = PREFIX +:+ secret ∧
    row = mkKey o name (PREFIX +:+ text (take 8 (chars secret))) (Sessions.pw_hash salt full) sc "ACTIVE" now None ∧
    api_keys d1 = <[k := row]> (api_keys d) ∧ memberships d1 = memberships d ∧
    ∃ role, memberships d !! (o, actor) = Some role ∧ can role APIKEY_ISSUE = true ∧
      ∀ s, s ∈ sc → s ∈ scope_value <$> allowed_scopes_for_role role)).
  unfold issue. org_wp; try done. intros [= <- <-].
  match goal with Hi : insert_api_key _ _ _ = Ok _ |- _ => unfold insert_api_key in Hi; case_match; [done|]; injection Hi as <- end.
  split_and!; try done.
  match goal with Hr : require _ _ _ = Ok ?role, Hv : validate_scopes ?role _ = Ok _ |- _ => exists role;
    unfold require in Hr; rewrite role_in_org_lookup in Hr; unfold validate_scopes in Hv end.
  repeat case_match; simplify_eq. split_and!; [done|done|].
  match goal with Hv : obind (check_scopes ?kn ?al sc) _ = Ok _ |- _ => destruct (check_scopes kn al sc) as [[]|] eqn:Ec; [|done] end.
  intros s Hs. by apply (check_scopes_ok _ _ _ Ec).
Qed.

Lemma revoke_runs now actor k d x row role :
  api_keys d !! k = Some row → key_status row = "ACTIVE" → memberships d !! (key_org row, actor) = Some role →
  can role APIKEY_REVOKE = true →
  api_keys (request (revoke uuid_str now actor k) d x).1.2 = <[k := revoked_key now row]> (api_keys d).
Proof.
  intros Hk Ha Hr Hc. unfold request, revoke, _actor_roles. unfold mbind, handler_bind, query, lift. cbn [tx]. rewrite Hk.
  cbv beta iota. cbn [tx]. unfold require. rewrite role_in_org_lookup, Hr, Hc, Ha. simpl.
  apply map_eq. intros j. destruct (decide (j = k)) as [->|Hne].
  - by rewrite lookup_alter_eq, lookup_insert_eq, Hk.
  - by rewrite lookup_alter_ne, lookup_insert_ne.
Qed.

Lemma verify_found full d k row :
  api_keys d !! k = Some row → key_status row = "ACTIVE" → prefix row = prefix_of full →
  Sessions.pw_verify (key_hash row) full = true →
  (∀ k' r', api_keys d !! k' = Some r' → k' ≠ k → Sessions.pw_verify (key_hash r') full = false) →
  first_match full (list_api_keys_by_prefix (prefix_of full) d) = Some (k, row).
Proof.
  intros Hk Ha Hp Hv Ho. destruct (first_match _ _) as [[k' r']|] eqn:E.
  - apply first_match_spec in E as ((Hk' & _ & _)%by_prefix & _ & Hv').
    destruct (decide (k' = k)) as [->|Hne]; [congruence|]. by rewrite (Ho k' r' Hk' Hne) in Hv'.
  - assert (Hin : (k, row) ∈ list_api_keys_by_prefix (prefix_of full) d) by by apply by_prefix.
    revert E Hin. generalize (list_api_keys_by_prefix (prefix_of full) d). intros l.
    induction l as [|[k1 r1] l IH]; [by intros _ ?%elem_of_nil|]. simpl. case_match eqn:Eb; [done|].
    intros Hn [[= <- <-]|Hin]%elem_of_cons; [|by apply IH]. by rewrite bool_decide_true, Hv in Eb.
Qed.

(** an API key is issued only to a member whose role may issue keys, with
    scopes that role may grant; the key shown once then resolves to exactly the
    stored row, and after a revocation by a member allowed to revoke it resolves to
    nothing. *)
Theorem api_key_lifecycle (now now' : Z) (k : uuid) (secret salt : string) (actor o actor' : uuid) (name : string)
    (sc : list string) (d : iddb) (x x' : idworld) (row : ApiKeyRow) (full : string) (role' : string)
    (Hargon : ∀ salt p, Sessions.pw_verify (Sessions.pw_hash salt p) p = true)
    (Hissued : (request (issue uuid_str now k secret salt actor o name sc) d x).1.1 = Ok (row, full))
    (Hfresh : ∀ k' r', api_keys d !! k' = Some r' → Sessions.pw_verify (key_hash r') full = false)
    (Hmember : memberships d !! (o, actor') = Some role') (Hmay : can role' APIKEY_REVOKE = true) :
  let d1 := (request (issue uuid_str now k secret salt actor o name sc) d x).1.2 in
  let d2 := (request (revoke uuid_str now' actor' k) d1 x').1.2 in
  (∃ role, memberships d !! (o, actor) = Some role ∧ can role APIKEY_ISSUE = true ∧
    ∀ s, s ∈ sc → s ∈ scope_value <$> allowed_scopes_for_role role) ∧
  key_org row = o ∧ scopes row = sc ∧
  (request (verify full) d1 x').1.1 = (Ok (Some (k, row)) : result _) ∧
  (request (verify full) d2 x').1.1 = (Ok None : result _).
Proof.
  intros d1 d2. destruct (issue_ok _ _ _ _ _ _ _ _ _ _ _ _ Hissued) as (Hfull & Hrow & Hkeys & Hmem & Hauth).
  fold d1 in Hkeys, Hmem. assert (Hk1 : api_keys d1 !! k = Some row) by by rewrite Hkeys, lookup_insert_eq.
  assert (Hother : ∀ k' r', api_keys d1 !! k' = Some r' → k' ≠ k → Sessions.pw_verify (key_hash r') full = false).
  { intros k' r' Hk' Hne. rewrite Hkeys, lookup_insert_ne in Hk' by done. by eapply Hfresh. }
  assert (Hhash : Sessions.pw_verify (key_hash row) full = true) by (rewrite Hrow; apply Hargon).
  assert (Hd2 : api_keys d2 = <[k := revoked_key now' row]> (api_keys d1)).
  { apply (revoke_runs now' actor' k d1 x' row role'); [done|by rewrite Hrow|rewrite Hrow; simpl; by rewrite Hmem|done]. }
  split_and!; [done|by rewrite Hrow..| |].
  - simpl. f_equal. apply verify_found; try done; [by rewrite Hrow|by rewrite Hrow, Hfull].
  - simpl. f_equal. apply first_match_none. intros k' r' (Hk' & _ & Ha')%by_prefix _.
    rewrite Hd2 in Hk'. apply lookup_insert_Some in Hk' as [[<- <-]|[Hne Hk']]; [done|by apply (Hother k')].
Qed.
End owners.

(** ** Concrete runs *)

#[local] Existing Instance Sessions.demo_crypto.

Definition demo_org : list oreq :=
  [OAccount Sessions.demo_cfg (Sessions.RRegister 1%N (Some "a@x") None "s" "secret");
   OAccount Sessions.demo_cfg (Sessions.RRegister 2%N (Some "b@x") None "s" "secret");
   OCreate 5 10%N 1%N "shop" "merchant"; OAdd 1%N 10%N None (Some "b@x") "admin"].

Definition demo_orgs : iddb * idworld := serve_all PyJson.show_N Sessions.empty_id demo_org.

Lemma org_always_has_owner_witness :
  request (remove_member PyJson.show_N 2%N 10%N 1%N) demo_orgs.1 demo_orgs.2 =
    (Raise (AppError CANNOT_REMOVE_LAST_OWNER), demo_orgs.1, demo_orgs.2).
Proof. apply (org_always_has_owner PyJson.show_N demo_org) with "admin"; by vm_compute. Defined.

(** A verifier for which the law of argon2 holds. *)
Definition plain_crypto : Sessions.Crypto :=
  {| Sessions.sha256 s := s; Sessions.pw_hash salt p := p; Sessions.pw_verify h p := bool_decide (h = p);
     Sessions.totp sec code now := false; Sessions.encrypt n s := s; Sessions.decrypt s := Ok s |}.

Lemma api_key_lifecycle_witness :
  ∃ row full,
    (request (issue (H0 := plain_crypto) PyJson.show_N 6 50%N "abcdefghijk" "s" 2%N 10%N "key" ["paylinks:read"])
      demo_orgs.1 demo_orgs.2).1.1 = Ok (row, full) ∧ scopes row = ["paylinks:read"].
Proof.
  destruct (request (issue (H0 := plain_crypto) PyJson.show_N 6 50%N "abcdefghijk" "s" 2%N 10%N "key" ["paylinks:read"])
      demo_orgs.1 demo_orgs.2).1.1 as [[row full]|e] eqn:E; [|by vm_compute in E].
  exists row, full. split; [done|].
  destruct (api_key_lifecycle (H0 := plain_crypto) PyJson.show_N 6 7 50%N "abcdefghijk" "s" 2%N 10%N 1%N "key" ["paylinks:read"]
    demo_orgs.1 demo_orgs.2 demo_orgs.2 row full "owner") as (_ & _ & Hs & _).
  - intros salt p. by apply bool_decide_eq_true.
  - exact E.
  - intros k' r' Hk'. exfalso. vm_compute in Hk'. by destruct k'.
  - by vm_compute.
  - by vm_compute.
  - exact Hs.
Defined.
End Orgs.
