(* ===== verification/Ciphers.v ===== *)
(** * Keys and ciphers at rest

    [identity-service/app/security/mfa_crypto.py] (the same code is
    [merchant-onboarding]'s [bank_crypto.py] and [compliance-risk]'s
    [provider_crypto.py]), [identity-service/app/security/keys.py] and
    [paylink-service/app/chain/signer.py].  AES-GCM, Keccak and the P-256 curve are
    parameters. *)
From S2P Require Import Prelude PyText PyNum PyBase64 UnitOfWork Tables Chain IdentityDb Sessions.
From Stdlib Require Import Ascii.

Module Ciphers.
Import PyBase64.
Open Scope Z_scope.

(** ** mfa_crypto.py *)

Definition is_ascii (c : ascii) : bool := (N_of_ascii c <? 128)%N.

(** [s.encode()]: a text is its UTF-8 bytes. *)
Definition encode (l : list ascii) : bytes := l.

(** Well-formed UTF-8: no stray continuation byte, no overlong form, no surrogate,
    nothing beyond U+10FFFF. *)
Definition byte_in (lo hi : N) (c : ascii) : bool := (lo <=? N_of_ascii c)%N && (N_of_ascii c <=? hi)%N.

Definition continuation : ascii → bool := byte_in 128 191.

Definition second_of_three (lead : N) : ascii → bool :=
  if (lead =? 224)%N then byte_in 160 191 else if (lead =? 237)%N then byte_in 128 159 else continuation.

Definition second_of_four (lead : N) : ascii → bool :=
  if (lead =? 240)%N then byte_in 144 191 else if (lead =? 244)%N then byte_in 128 143 else continuation.

Fixpoint utf8_ok (l : bytes) : bool :=
  match l with
  | [] => true
  | a :: l1 =>
      if is_ascii a then utf8_ok l1
      else match l1 with
      | [] => false
      | b :: l2 =>
          if byte_in 194 223 a then continuation b && utf8_ok l2
          else match l2 with
          | [] => false
          | c :: l3 =>
              if byte_in 224 239 a then second_of_three (N_of_ascii a) b && continuation c && utf8_ok l3
              else match l3 with
              | [] => false
              | d :: l4 =>
                  byte_in 240 244 a && second_of_four (N_of_ascii a) b && continuation c && continuation d && utf8_ok l4
              end
          end
      end
  end.

(** [b.decode()]: a [UnicodeDecodeError], which is a [ValueError], on other bytes. *)
Definition decode (b : bytes) : outcome pyerr string := if utf8_ok b then Ok (text b) else Raise ValueError.

(** A decoder of text: only ASCII is accepted. *)
Definition of_text (f : list ascii → outcome pyerr bytes) (l : list ascii) : outcome pyerr bytes :=
  if forallb is_ascii l then f l else Raise ValueError.

Definition KEY_LEN : nat := 32.

(** The first reading of the right length. *)
Fixpoint first_key (readings : list (outcome pyerr bytes)) : outcome pyerr bytes :=
  match readings with
  | [] => Raise ValueError
  | Ok key :: rest => if (length key =? KEY_LEN)%nat then Ok key else first_key rest
  | Raise _ :: rest => first_key rest
  end.

Definition _decode_key (raw : string) : outcome pyerr bytes :=
  let s := chars (strip raw) in
  let padded := repad (rstrip_pads s) in
  first_key [fromhex s; of_text b64decode padded; of_text urlsafe_b64decode padded; Ok (encode s)].

Definition _VERSION : ascii := ascii_of_N 1.
Definition _NONCE_LEN : nat := 12.

(** [AESGCM(key)]: a message decrypts under the nonce it was encrypted with, what
    decrypts is an encryption of the result (the tag is checked), and the tag takes
    16 bytes. *)
Class AESGCM := {
  aes_encrypt : bytes → bytes → bytes → bytes;
  aes_decrypt : bytes → bytes → bytes → outcome pyerr bytes;
  aes_decrypts : ∀ k n p, length n = _NONCE_LEN → aes_decrypt k n (aes_encrypt k n p) = Ok p;
  aes_authentic : ∀ k n c p, aes_decrypt k n c = Ok p → c = aes_encrypt k n p;
  aes_tag : ∀ k n p, length (aes_encrypt k n p) = (length p + 16)%nat }.

Section cipher.
Context `{!AESGCM}.
Variable key : bytes.

Definition encrypt (nonce plaintext : string) : string :=
  text (b64encode (_VERSION :: chars nonce ++ aes_encrypt key (chars nonce) (encode (chars plaintext)))).

Definition decrypt (token : string) : outcome pyerr string :=
  let? raw := b64decode (encode (chars token)) in
  let version := take 1 raw in
  let nonce := take _NONCE_LEN (drop 1 raw) in
  let ct := drop (1 + _NONCE_LEN) raw in
  if bool_decide (version ≠ [_VERSION]) then Raise ValueError
  else let? p := aes_decrypt key nonce ct in decode p.
End cipher.

(** [MfaCipher.from_settings]; [fresh] is [AESGCM.generate_key]. *)
Definition from_settings (configured : option string) (fresh : bytes) : outcome pyerr bytes :=
  let raw := default "" configured in
  let? key := (if truthy raw then _decode_key raw else Ok fresh) in
  if (length key =? KEY_LEN)%nat then Ok key else Raise ValueError.

(** ** keys.py *)

Definition _b64url_uint (value : N) : string :=
  let len := Nat.max 1 (N.to_nat ((N.size value + 7) / 8)) in
  text (rstrip_pads (urlsafe_b64encode (be_bytes len value))).

Definition jwks (kid : string) (n e : N) : json :=
  JObj [("keys", JList [JObj [("kty", JStr "RSA"); ("use", JStr "sig"); ("alg", JStr "RS256"); ("kid", JStr kid);
                              ("n", JStr (_b64url_uint n)); ("e", JStr (_b64url_uint e))]])].

(** ** signer.py *)

(** The curve: the private key of a number, nothing when it is refused, the
    uncompressed point of a scalar's public key, and the signature
    of a digest; Keccak-256. *)
Record P256 := mkP256 {
  derive : Z → option N;
  public_point : N → bytes;
  ecdsa : N → bytes → N * N;
  keccak256 : bytes → bytes }.

Section signer.
Variable lib : P256.

Definition address_from_public_key (raw : bytes) : string :=
  "0x" +:+ text (to_hex (drop 12 (keccak256 lib (drop 1 raw)))).

(** [ServiceKeySigner.sign_digest] *)
Definition service_sign (d : N) (digest : bytes) : outcome pyerr string :=
  let '(r, s) := ecdsa lib d digest in
  let? rb := to_bytes 32 r in
  let? sb := to_bytes 32 s in
  Ok (text (b64encode (rb ++ sb))).

Definition service_public_key (d : N) : string := text (b64encode (public_point lib d)).

Inductive signer_mode := service_key | unsigned.

Record SignerClass := mkSigner { sg_address : string; sg_public : string; sg_sign : bytes → outcome pyerr string }.

(** [ServiceKeySigner] and [UnsignedSigner] on the scalar [d]. *)
Definition signer_of (m : signer_mode) (d : N) : SignerClass :=
  mkSigner (address_from_public_key (public_point lib d))
    (match m with service_key => service_public_key d | unsigned => "" end)
    (match m with service_key => service_sign d | unsigned => λ _, Ok "" end).

(** [key_hex.removeprefix("0x")] *)
Definition remove_0x (s : string) : string :=
  match PyNum.drop_prefix (chars "0x") (chars s) with Some l => text l | None => s end.

(** [generated] is [ec.generate_private_key]. *)
Definition build_signer (m : signer_mode) (chain_submit_enabled : bool) (key : option string) (generated : N) : outcome pyerr SignerClass :=
  match m, chain_submit_enabled with
  | unsigned, true => Raise ValueError
  | _, _ =>
      let raw := default "" key in
      if truthy raw then
        match PyNum.parse_hex (remove_0x raw) with
        | Some z => match derive lib z with Some d => Ok (signer_of m d) | None => Raise ValueError end
        | None => Raise ValueError
        end
      else Ok (signer_of m generated)
  end.
End signer.

(** ** Reading a key *)

Lemma first_key_skip r rest : (∀ k, r = Ok k → length k ≠ KEY_LEN) → first_key (r :: rest) = first_key rest.
Proof. intros Hr. destruct r as [k|e]; [|done]. cbn [first_key]. by rewrite (proj2 (Nat.eqb_neq _ _)) by by apply Hr. Qed.

Lemma first_key_take k rest : length k = KEY_LEN → first_key (Ok k :: rest) = Ok k.
Proof. intros Hk. cbn [first_key]. by rewrite Hk, Nat.eqb_refl. Qed.

Lemma of_text_length f l k (n : nat) : (∀ k, f l = Ok k → (length k < n)%nat) → of_text f l = Ok k → (length k < n)%nat.
Proof. unfold of_text. destruct (forallb is_ascii l); [auto|done]. Qed.

Lemma b64encode_ascii l : forallb is_ascii (b64encode l) = true ∧ Forall (λ c, is_space c = false) (b64encode l).
Proof.
  assert (Hc : ∀ x, is_ascii (b64_char x) = true ∧ is_space (b64_char x) = false)
    by (intros [[] [] [] [] [] []]; vm_compute; by split).
  induction l as [|a|a b|a b c l [IH1 IH2]] using three_ind; [by split|..];
    repeat match goal with a : ascii |- _ => destruct a end; cbn [b64encode forallb];
    rewrite ?(proj1 (Hc _)); (split; [done|]); repeat constructor; try apply Hc; done.
Qed.

Lemma urlsafe_ascii l : forallb is_ascii (urlsafe_b64encode l) = true ∧ Forall (λ c, is_space c = false) (urlsafe_b64encode l).
Proof.
  destruct (b64encode_ascii l) as [H1 H2]. unfold urlsafe_b64encode.
  assert (Hu : ∀ c, is_ascii c = true → is_ascii (to_url c) = true) by (intros c; unfold to_url; by repeat case_bool_decide).
  assert (Hs : ∀ c, is_space c = false → is_space (to_url c) = false) by (intros c; unfold to_url; by repeat case_bool_decide).
  split.
  - induction (b64encode l) as [|c r IH]; [done|]. simpl in *. apply andb_true_iff in H1 as [Hc Hr]. inversion H2; subst.
    rewrite Hu by done. by apply IH.
  - apply Forall_fmap. eapply Forall_impl; [exact H2|]. intros c. apply Hs.
Qed.

Lemma to_hex_solid l : Forall (λ c, is_space c = false) (to_hex l).
Proof.
  induction l as [|c l IH]; [constructor|]. unfold to_hex. rewrite bind_cons. apply Forall_app. split; [|exact IH].
  unfold hex_byte. eapply Forall_impl; [apply PyNum.hexn_lowhex|].
  intros d Hd. apply negb_true_iff. revert d Hd. by apply PyNum.lowhex_all.
Qed.

(** The text of an encoding of 32 bytes is too short for 32 bytes in
    hexadecimal. *)
Lemma b64encode_length l : length (b64encode l) = (4 * ((length l + 2) / 3))%nat.
Proof.
  induction l as [|a|a b|a b c l IH] using three_ind; [done|by destruct a|by destruct a, b|].
  destruct a, b, c. cbn [b64encode length]. rewrite IH.
  replace (S (S (S (length l))) + 2)%nat with (length l + 2 + 1 * 3)%nat by lia. rewrite Nat.div_add by lia. lia.
Qed.

Lemma hex_too_short l : (length l < 64)%nat → ∀ k, fromhex l = Ok k → length k ≠ KEY_LEN.
Proof. intros Hl k Hk%fromhex_length. unfold KEY_LEN. lia. Qed.

Lemma strip_solid l : Forall (λ c, is_space c = false) l → strip (text l) = text l.
Proof. intros Hl. apply PyNum.strip_none. by rewrite chars_text. Qed.

Lemma to_url_value c : is_Some (b64_value (to_url c)) → to_url c = c.
Proof. unfold to_url. repeat case_bool_decide; [intros [x Hx]; by vm_compute in Hx..|done]. Qed.

Lemma filter_full {A} (P : A → Prop) `{∀ a, Decision (P a)} (l : list A) : (length l ≤ length (filter P l))%nat → Forall P l.
Proof.
  induction l as [|a l IH]; [done|]. rewrite filter_cons. pose proof (length_filter P l) as Hf. case_decide; simpl; intros Hl.
  - constructor; [done|]. apply IH. lia.
  - lia.
Qed.

(** A key in the URL-safe alphabet that the standard decoder would read as one of
    32 bytes uses neither ['-'] nor ['_']. *)
Lemma standard_reading l k : length l = KEY_LEN → of_text b64decode (urlsafe_b64encode l) = Ok k → length k = KEY_LEN → k = l.
Proof.
  intros Hl Hk Hlen. unfold of_text in Hk. rewrite (proj1 (urlsafe_ascii l)) in Hk.
  assert (Hplain : urlsafe_b64encode l = b64encode l); [|rewrite Hplain, b64decode_encode in Hk; congruence].
  apply b64decode_length in Hk. revert Hk. rewrite Hlen. unfold urlsafe_b64encode.
  destruct (b64encode_split l) as (body & p & -> & _ & _ & _ & Hs). rewrite Hl in Hs. unfold KEY_LEN in *.
  rewrite fmap_app, fmap_replicate. change (to_url "="%char) with "="%char. unfold data_chars. rewrite filter_app, length_app.
  replace (length (filter (λ c, is_Some (b64_value c)) (replicate p "="%char))) with 0%nat by by induction p.
  intros Hk. f_equal. assert (Hall : Forall (λ c, is_Some (b64_value c)) (to_url <$> body)).
  { apply (filter_full (λ c, is_Some (b64_value c))). rewrite length_fmap. lia. }
  clear -Hall. induction body as [|c r IH]; [done|]. rewrite fmap_cons in *. apply Forall_cons in Hall as [Hc Hr].
  by rewrite to_url_value, IH.
Qed.

Lemma read_raw l : Forall (λ c, is_space c = false) l → _decode_key (text l) =
  first_key [fromhex l; of_text b64decode (repad (rstrip_pads l)); of_text urlsafe_b64decode (repad (rstrip_pads l)); Ok (encode l)].
Proof. intros Hl. unfold _decode_key. by rewrite strip_solid, chars_text. Qed.

(** Stripping padding keeps characters. *)
Lemma rstrip_sub l : ∃ p, l = rstrip_pads l ++ replicate p "="%char.
Proof.
  unfold rstrip_pads. assert (Hd : ∀ r, ∃ p, r = replicate p "="%char ++ drop_pads r).
  { induction r as [|c r [p IH]]; [by exists 0%nat|]. simpl. case_bool_decide as Hc; [|by exists 0%nat].
    exists (S p). simpl. by rewrite Hc, <- IH. }
  destruct (Hd (reverse l)) as [p Hp]. exists p. apply (f_equal reverse) in Hp.
  rewrite reverse_involutive, reverse_app, reverse_replicate in Hp. exact Hp.
Qed.

Lemma rstrip_forall (P : ascii → Prop) l : Forall P l → Forall P (rstrip_pads l).
Proof. intros Hl. destruct (rstrip_sub l) as [p Hp]. rewrite Hp in Hl. by apply Forall_app in Hl as [? _]. Qed.

Lemma rstrip_idem l : rstrip_pads (rstrip_pads l) = rstrip_pads l.
Proof.
  unfold rstrip_pads. rewrite reverse_involutive. f_equal. induction (reverse l) as [|c r IH]; [done|]. simpl.
  case_bool_decide; [exact IH|]. simpl. by rewrite bool_decide_eq_false_2.
Qed.

(** Text of at most 42 characters is too short for 32 bytes in base64. *)
Lemma repad_data (f : ascii → ascii) l : f "="%char = "="%char → (data_chars (f <$> repad l) ≤ length l)%nat.
Proof.
  intros Hf. unfold repad, data_chars. rewrite fmap_app, fmap_replicate, Hf, filter_app, length_app.
  replace (length (filter _ (replicate _ "="%char))) with 0%nat by by induction (Z.to_nat _).
  pose proof (length_filter (λ c, is_Some (b64_value c)) (f <$> l)) as Hl. rewrite length_fmap in Hl. lia.
Qed.

Lemma rstrip_length l : (length (rstrip_pads l) ≤ length l)%nat.
Proof. destruct (rstrip_sub l) as [p Hp]. rewrite Hp at 2. rewrite length_app. lia. Qed.

Lemma base64_too_short l : (length l ≤ 42)%nat →
  (∀ k, of_text b64decode (repad (rstrip_pads l)) = Ok k → length k ≠ KEY_LEN) ∧
  (∀ k, of_text urlsafe_b64decode (repad (rstrip_pads l)) = Ok k → length k ≠ KEY_LEN).
Proof.
  intros Hl. pose proof (rstrip_length l) as Hr. unfold of_text, KEY_LEN.
  split; intros k; (destruct (forallb _ _); [|done]); intros Hk%b64decode_length.
  - pose proof (repad_data (λ c, c) (rstrip_pads l) eq_refl) as Hd. rewrite list_fmap_id in Hd. lia.
  - pose proof (repad_data of_url (rstrip_pads l) eq_refl). lia.
Qed.

Lemma read_standard l key : length key = KEY_LEN → (length l < 64)%nat → Forall (λ c, is_space c = false) l →
  repad (rstrip_pads l) = b64encode key → _decode_key (text l) = Ok key.
Proof.
  intros Hk Hl Hs Hp. rewrite read_raw, Hp by done. rewrite first_key_skip by by apply hex_too_short.
  unfold of_text at 1. rewrite (proj1 (b64encode_ascii key)), b64decode_encode. by apply first_key_take.
Qed.

Lemma read_urlsafe l key : length key = KEY_LEN → (length l < 64)%nat → Forall (λ c, is_space c = false) l →
  repad (rstrip_pads l) = urlsafe_b64encode key → _decode_key (text l) = Ok key.
Proof.
  intros Hk Hl Hs Hp. rewrite read_raw, Hp by done. rewrite first_key_skip by by apply hex_too_short.
  destruct (of_text b64decode (urlsafe_b64encode key)) as [k|e] eqn:E.
  - destruct (decide (length k = KEY_LEN)) as [Hlen|Hlen].
    + rewrite first_key_take by done. f_equal. by eapply standard_reading.
    + rewrite first_key_skip by congruence. unfold of_text. rewrite (proj1 (urlsafe_ascii key)), urlsafe_decode_encode.
      by apply first_key_take.
  - rewrite first_key_skip by done. unfold of_text. rewrite (proj1 (urlsafe_ascii key)), urlsafe_decode_encode.
    by apply first_key_take.
Qed.

Lemma first_key_length rs k : first_key rs = Ok k → length k = KEY_LEN.
Proof.
  induction rs as [|[key|e] rs IH]; [done| |exact IH]. cbn [first_key]. destruct (Nat.eqb_spec (length key) KEY_LEN); [|exact IH].
  by intros [= <-].
Qed.

(** a key is read in every documented format: 32 bytes in hexadecimal, in
    base64 of either alphabet, padded or not, or as they are; whatever is read has
    32 bytes. *)
Theorem key_formats (key : bytes) (Hlen : length key = KEY_LEN) :
  _decode_key (text (to_hex key)) = Ok key ∧
  _decode_key (text (b64encode key)) = Ok key ∧ _decode_key (text (rstrip_pads (b64encode key))) = Ok key ∧
  _decode_key (text (urlsafe_b64encode key)) = Ok key ∧ _decode_key (text (rstrip_pads (urlsafe_b64encode key))) = Ok key ∧
  (strip (text key) = text key → _decode_key (text key) = Ok key) ∧
  ∀ raw k, _decode_key raw = Ok k → length k = KEY_LEN.
Proof.
  assert (Hel : length (b64encode key) = 44%nat) by (rewrite b64encode_length, Hlen; done).
  assert (Hul : length (urlsafe_b64encode key) = 44%nat) by (unfold urlsafe_b64encode; by rewrite length_fmap).
  pose proof (rstrip_length (b64encode key)) as Hr. pose proof (rstrip_length (urlsafe_b64encode key)) as Hru.
  split_and!.
  - rewrite read_raw, fromhex_to_hex by apply to_hex_solid. by apply first_key_take.
  - apply read_standard; [done|lia|apply b64encode_ascii|apply repad_encode].
  - apply read_standard; [done|lia|apply rstrip_forall, b64encode_ascii|rewrite rstrip_idem; apply repad_encode].
  - apply read_urlsafe; [done|lia|apply urlsafe_ascii|apply repad_urlsafe].
  - apply read_urlsafe; [done|lia|apply rstrip_forall, urlsafe_ascii|rewrite rstrip_idem; apply repad_urlsafe].
  - intros Hs. unfold _decode_key. rewrite Hs, chars_text. unfold KEY_LEN in Hlen.
    destruct (base64_too_short key) as [H1 H2]; [lia|].
    rewrite first_key_skip by (apply hex_too_short; lia). rewrite first_key_skip by done. rewrite first_key_skip by done.
    by apply first_key_take.
  - intros raw k. apply first_key_length.
Qed.

(** ** The cipher *)

Section cipher_facts.
Context `{!AESGCM}.
Variable key : bytes.

Lemma decrypt_sealed token nonce p : length nonce = _NONCE_LEN →
  b64decode (chars token) = Ok (_VERSION :: nonce ++ aes_encrypt key nonce (chars p)) → decrypt key token = decode (chars p).
Proof.
  intros Hn Hraw. unfold decrypt, encode. rewrite Hraw. cbn [obind Nat.add drop].
  rewrite bool_decide_eq_false_2 by by intros [].
  by rewrite drop_0, take_app_length', drop_app_length', aes_decrypts by done.
Qed.

Lemma decode_chars p : utf8_ok (chars p) = true → decode (chars p) = Ok p.
Proof. intros Hp. unfold decode. by rewrite Hp, text_chars. Qed.

Lemma decrypt_encrypt nonce p : String.length nonce = _NONCE_LEN → utf8_ok (chars p) = true → decrypt key (encrypt key nonce p) = Ok p.
Proof.
  intros Hn Hp. assert (Hc : length (chars nonce) = _NONCE_LEN) by (rewrite <- Hn; clear; by induction nonce; simpl; f_equal).
  rewrite (decrypt_sealed _ (chars nonce) p Hc); [by apply decode_chars|]. unfold encrypt, encode. by rewrite chars_text, b64decode_encode.
Qed.

Lemma decrypt_authentic token p : decrypt key token = Ok p →
  ∃ nonce, length nonce = _NONCE_LEN ∧ b64decode (chars token) = Ok (_VERSION :: nonce ++ aes_encrypt key nonce (chars p)) ∧
    utf8_ok (chars p) = true.
Proof.
  unfold decrypt, encode. destruct (b64decode (chars token)) as [raw|]; [|done]. cbn [obind]. case_bool_decide as Hv; [done|].
  destruct raw as [|v raw]; [done|]. cbn [take Nat.add drop] in *. injection Hv as ->. rewrite drop_0.
  destruct (aes_decrypt key _ _) as [q|] eqn:E; [|done]. cbn [obind]. unfold decode. destruct (utf8_ok q) eqn:Hq; [|done]. intros [= <-].
  apply aes_authentic in E. exists (take _NONCE_LEN raw). rewrite chars_text. split_and!; [|by rewrite <- E, take_drop|done].
  apply (f_equal length) in E. rewrite aes_tag, length_drop in E. rewrite length_take. lia.
Qed.

(** C40: secrets at rest come back, and only they do.  What a cipher encrypted
    under any nonce of 12 bytes decrypts to the same text.  A stored text decrypts to
    [q] exactly when it is base64 of the version byte, a nonce of 12 bytes and the
    encryption of [q] under that nonce and the cipher's key, and [q] is well-formed
    UTF-8; so whatever was altered into anything else is refused, and another version
    byte is refused with a [ValueError]. *)
Theorem cipher_seals (nonce p : string) (Hnonce : String.length nonce = _NONCE_LEN) (Htext : utf8_ok (chars p) = true) :
  decrypt key (encrypt key nonce p) = Ok p ∧
  (∀ token q, decrypt key token = Ok q ↔
    ∃ n, length n = _NONCE_LEN ∧ b64decode (chars token) = Ok (_VERSION :: n ++ aes_encrypt key n (chars q)) ∧ utf8_ok (chars q) = true) ∧
  ∀ token raw, b64decode (chars token) = Ok raw → take 1 raw ≠ [_VERSION] → decrypt key token = Raise ValueError.
Proof.
  split_and!; [by apply decrypt_encrypt|intros token q; split; [apply decrypt_authentic|]|].
  - intros (n & Hn & Hraw & Hq). rewrite (decrypt_sealed _ _ _ Hn Hraw). by apply decode_chars.
  - intros token raw Hraw Hv. unfold decrypt, encode. rewrite Hraw. cbn [obind]. by rewrite bool_decide_true.
Qed.

(** ** A second factor, from enrolment to login *)

Section mfa.
Context (base : Sessions.Crypto).
Variable uuid_str : uuid → string.
Import Identity.

(** The account service with this cipher. *)
Definition with_cipher : Sessions.Crypto :=
  {| Sessions.sha256 := Sessions.sha256; Sessions.pw_hash := Sessions.pw_hash; Sessions.pw_verify := Sessions.pw_verify;
     Sessions.totp := Sessions.totp; Sessions.encrypt := encrypt key; Sessions.decrypt := decrypt key |}.
#[local] Existing Instance with_cipher | 0.

Lemma any_factor_one now fs f s code :
  (Sessions.TOTP, f) ∈ fs → (∀ f', (Sessions.TOTP, f') ∈ fs → f' = f) → decrypt key (secret f) = Ok s →
  Sessions.any_factor now fs code = Ok (truthy code && Sessions.totp s code now).
Proof.
  intros Hin Huniq Hs.
  assert (Hgen : ∀ fs', (∀ f', (Sessions.TOTP, f') ∈ fs' → f' = f) → Sessions.any_factor now fs' code =
    Ok (bool_decide (Sessions.TOTP ∈ fs'.*1) && (truthy code && Sessions.totp s code now))).
  { induction fs' as [|[k g] fs' IH]; intros Hf; [done|]. cbn [Sessions.any_factor].
    destruct (decide (k = Sessions.TOTP)) as [->|Hne].
    - rewrite bool_decide_true by done. rewrite (Hf g) by by left. unfold Sessions.totp_matches. cbn [Sessions.decrypt with_cipher].
      rewrite Hs. cbn [obind]. rewrite (bool_decide_true (Sessions.TOTP ∈ _)) by by left.
      destruct (truthy code && Sessions.totp s code now) eqn:E; [done|]. rewrite IH by (intros f' Hf'; apply Hf; by right).
      by rewrite andb_false_r.
    - rewrite bool_decide_eq_false_2 by done. rewrite IH by (intros f' Hf'; apply Hf; by right). f_equal. f_equal.
      apply bool_decide_ext. set_solver. }
  rewrite Hgen by done. rewrite bool_decide_true; [done|]. apply list_elem_of_fmap. by exists (Sessions.TOTP, f).
Qed.

(** a second factor works from enrolment to login.  When a user without a
    factor enrols and confirms with a code of the secret shown, the factor is
    active: logins ask for a code from then on, and accept at any later time
    exactly the codes of that secret. *)
Theorem mfa_enrolment_completes (u : uuid) (nonce s code : string) (now : Z) (d : iddb) (x : idworld)
    (Huser : is_Some (users d !! u)) (Hnone : mfa d !! (u, Sessions.TOTP) = None)
    (Hnonce : String.length nonce = _NONCE_LEN) (Htext : utf8_ok (chars s) = true) (Hcode : truthy code && Sessions.totp s code now = true) :
  let '(r1, d1, x1) := request (Sessions.enroll u nonce s) d x in
  let '(r2, d2, x2) := request (Sessions.verify uuid_str now u code) d1 x1 in
  r1 = Ok s ∧ r2 = Ok tt ∧
  (request (Sessions.is_required u) d2 x2).1.1 = Ok true ∧
  ∀ now' code', (request (Sessions.verify_login now' u code') d2 x2).1.1 = Ok (truthy code' && Sessions.totp s code' now').
Proof.
  set (f := mkFactor (encrypt key nonce s) None). set (d1 := on_mfa (<[(u, Sessions.TOTP) := f]>) d).
  assert (He : request (Sessions.enroll u nonce s) d x = (Ok s, d1, x)).
  { unfold request, Sessions.enroll, mbind, handler_bind, query, try_write, insert_mfa_factor. cbn [tx]. rewrite Hnone.
    cbn [tx]. rewrite Hnone, (bool_decide_eq_false_2 (is_Some None)) by by intros []. destruct Huser as [r Hr].
    by rewrite bool_decide_eq_false_2 by congruence. }
  set (d2 := on_mfa (alter (λ f, mkFactor (secret f) (Some now)) (u, Sessions.TOTP)) d1).
  assert (Hv : ∃ x2, request (Sessions.verify uuid_str now u code) d1 x = (Ok tt, d2, x2)).
  { unfold request, Sessions.verify, mbind, handler_bind, query, lift. cbn [tx]. unfold d1 at 1. cbn [mfa on_mfa].
    rewrite lookup_insert_eq. unfold Sessions.totp_matches. cbn [Sessions.decrypt with_cipher secret f].
    rewrite decrypt_encrypt by done. rewrite Hcode. cbn [negb activated_at f].
    by eexists. }
  rewrite He. destruct Hv as [x2 ->].
  assert (Hin : ∀ f', (Sessions.TOTP, f') ∈ list_active_mfa u d2 ↔ f' = mkFactor (encrypt key nonce s) (Some now)).
  { intros f'. unfold list_active_mfa. rewrite list_elem_of_fmap. split.
    - intros ([[u' k] g] & [= <- <-] & [[Hu _] Hg]%list_elem_of_filter). simpl in *. subst. apply elem_of_map_to_list in Hg.
      unfold d2, d1 in Hg. cbn [mfa on_mfa] in Hg. rewrite lookup_alter_eq, lookup_insert_eq in Hg. by injection Hg as <-.
    - intros ->. exists ((u, Sessions.TOTP), mkFactor (encrypt key nonce s) (Some now)). split; [done|].
      apply list_elem_of_filter. split; [by eauto|]. apply elem_of_map_to_list. unfold d2, d1. cbn [mfa on_mfa].
      by rewrite lookup_alter_eq, lookup_insert_eq. }
  split_and!; [done|done| |].
  - unfold request, Sessions.is_required, mbind, handler_bind, query. cbn [tx fst mret handler_ret]. rewrite bool_decide_eq_false_2; [done|].
    intros Hnil. pose proof (proj2 (Hin _) eq_refl) as Hel. rewrite Hnil in Hel. by apply elem_of_nil in Hel.
  - intros now' code'. unfold request, Sessions.verify_login, mbind, handler_bind, query, lift. cbn [tx fst].
    apply (any_factor_one now' _ (mkFactor (encrypt key nonce s) (Some now)) s); [by apply Hin|by intros f' Hf'; apply Hin|].
    by apply decrypt_encrypt.
Qed.
End mfa.
End cipher_facts.

(** ** Numbers of a JWK *)

Lemma be_bytes_head n v : ∃ rest, be_bytes (S n) v = ascii_of_N ((v / 256 ^ N.of_nat n) mod 256) :: rest.
Proof.
  revert v. induction n as [|n IH]; intros v.
  - exists []. simpl. by rewrite N.div_1_r.
  - destruct (IH (v / 256)%N) as [rest Hr]. exists (rest ++ [ascii_of_N (v mod 256)]).
    change (be_bytes (S (S n)) v) with (be_bytes (S n) (v / 256) ++ [ascii_of_N (v mod 256)]). rewrite Hr. simpl app.
    rewrite N.Div0.div_div, <- N.pow_succ_r', <- Nat2N.inj_succ. done.
Qed.

Definition octets (v : N) : nat := Nat.max 1 (N.to_nat ((N.size v + 7) / 8)).

Lemma octets_enough v : (v < 256 ^ N.of_nat (octets v))%N.
Proof.
  eapply N.lt_le_trans; [apply N.size_gt|]. change 256%N with (2 ^ 8)%N. rewrite <- N.pow_mul_r. apply N.pow_le_mono_r; [done|].
  unfold octets. pose proof (N.div_mod (N.size v + 7) 8 ltac:(done)) as Hd. pose proof (N.mod_lt (N.size v + 7) 8 ltac:(done)). lia.
Qed.

Lemma octets_needed v n : octets v = S n → n ≠ 0%nat → (256 ^ N.of_nat n ≤ v)%N.
Proof.
  intros Ho Hn. pose proof (N.size_le v) as Hs. pose proof (N.div_mod (N.size v + 7) 8 ltac:(done)) as Hd.
  pose proof (N.mod_lt (N.size v + 7) 8 ltac:(done)) as Hm. unfold octets in Ho.
  set (q := ((N.size v + 7) / 8)%N) in *. set (m := ((N.size v + 7) mod 8)%N) in *. clearbody q m.
  assert (Hsize : (8 * N.of_nat n + 1 ≤ N.size v)%N) by lia.
  assert (Hp : (2 ^ (8 * N.of_nat n + 1) ≤ N.succ_double v)%N) by (etrans; [by apply N.pow_le_mono_r|exact Hs]).
  change 256%N with (2 ^ 8)%N. rewrite <- N.pow_mul_r. rewrite N.pow_add_r in Hp. rewrite N.succ_double_spec in Hp. lia.
Qed.

(** the numbers of the published key set are exact.  The modulus and the
    exponent are written in base64url without padding; a verifier that restores
    the padding and decodes gets the big-endian octets of the number, as few as
    represent it, and different numbers are written differently. *)
Theorem jwk_integers_exact (v : N) :
  (∃ raw, urlsafe_b64decode (repad (chars (_b64url_uint v))) = Ok raw ∧ from_bytes raw = v ∧
    ∀ b rest, raw = b :: rest → rest ≠ [] → b ≠ zero) ∧
  ∀ w, _b64url_uint w = _b64url_uint v → w = v.
Proof.
  assert (Hread : ∀ v, urlsafe_b64decode (repad (chars (_b64url_uint v))) = Ok (be_bytes (octets v) v)).
  { intros w. unfold _b64url_uint. rewrite chars_text. fold (octets w). rewrite repad_urlsafe. apply urlsafe_decode_encode. }
  split.
  - exists (be_bytes (octets v) v). split_and!; [apply Hread|apply from_be_bytes, octets_enough|].
    intros b rest Hr Hrest. pose proof (octets_enough v) as He. destruct (octets v) as [|n] eqn:Ho; [done|].
    destruct (be_bytes_head n v) as [rest' Hh]. rewrite Hh in Hr. injection Hr as <- ->.
    assert (Hn : n ≠ 0%nat). { intros ->. by injection Hh as _ <-. }
    pose proof (octets_needed v n Ho Hn) as Hlow. rewrite Nat2N.inj_succ, N.pow_succ_r' in He.
    assert (Hp : (256 ^ N.of_nat n ≠ 0)%N) by (apply N.pow_nonzero; done).
    assert (Hq : (1 ≤ v / 256 ^ N.of_nat n < 256)%N).
    { split; [by apply N.div_le_lower_bound; [|rewrite N.mul_1_r]|]. apply N.Div0.div_lt_upper_bound. lia. }
    rewrite N.mod_small by lia. intros Hz. apply (f_equal N_of_ascii) in Hz. rewrite N_ascii_embedding in Hz by lia.
    change (N_of_ascii zero) with 0%N in Hz. lia.
  - intros w Hw. pose proof (Hread w) as H1. rewrite Hw, Hread in H1. injection H1 as H1. apply (f_equal from_bytes) in H1.
    rewrite !from_be_bytes in H1 by apply octets_enough. done.
Qed.

(** ** Signatures on the wire *)

Lemma to_bytes_ok n v : (v < 256 ^ N.of_nat n)%N → to_bytes n v = Ok (be_bytes n v).
Proof. intros Hv. unfold to_bytes. by rewrite (proj2 (N.ltb_lt _ _)). Qed.

(** what is submitted to the chain is signed in the chain's format.  A signer
    built for submitting signs with the key it was given: the public key it sends
    decodes to the uncompressed point of that key, from which the address is
    derived, and a signature decodes to 64 bytes, the first half the number [r] and
    the second the number [s] of the curve's signature. *)
Theorem signatures_on_the_wire (lib : P256) (m : signer_mode) (key : option string) (generated : N) (sg : SignerClass)
    (Hbuilt : build_signer lib m true key generated = Ok sg)
    (Hrange : ∀ d digest, let '(r, s) := ecdsa lib d digest in (r < 2 ^ 256)%N ∧ (s < 2 ^ 256)%N) :
  ∃ d, (key = None → d = generated) ∧ sg_address sg = address_from_public_key lib (public_point lib d) ∧
    b64decode (chars (sg_public sg)) = Ok (public_point lib d) ∧
    ∀ digest, ∃ t raw, sg_sign sg digest = Ok t ∧ b64decode (chars t) = Ok raw ∧ length raw = 64%nat ∧
      (from_bytes (take 32 raw), from_bytes (drop 32 raw)) = ecdsa lib d digest.
Proof.
  destruct m; [|done]. assert (Hd : ∃ d, (key = None → d = generated) ∧ sg = signer_of lib service_key d).
  { cbn [build_signer] in Hbuilt. destruct (truthy (default "" key)) eqn:Ek.
    - destruct (PyNum.parse_hex _) as [z|]; [|done]. destruct (derive lib z) as [d|]; [|done]. injection Hbuilt as <-.
      exists d. split; [by intros ->|done].
    - injection Hbuilt as <-. by exists generated. }
  destruct Hd as (d & Hgen & ->). exists d. cbn [signer_of sg_address sg_public sg_sign].
  split_and!; [done|done|unfold service_public_key; rewrite chars_text; apply b64decode_encode|].
  intros digest. specialize (Hrange d digest). unfold service_sign. destruct (ecdsa lib d digest) as [r s]. destruct Hrange as [Hr Hs].
  change (2 ^ 256)%N with (256 ^ N.of_nat 32)%N in Hr, Hs. rewrite !to_bytes_ok by done. cbn [obind].
  exists (text (b64encode (be_bytes 32 r ++ be_bytes 32 s))), (be_bytes 32 r ++ be_bytes 32 s). split_and!; [done| | |].
  - rewrite chars_text. apply b64decode_encode.
  - by rewrite length_app, !be_bytes_length.
  - rewrite take_app_length', drop_app_length' by (by rewrite be_bytes_length). by rewrite !from_be_bytes.
Qed.

(** ** Concrete runs *)

Definition demo_mac (k n : bytes) : bytes := take 16 (k ++ n ++ replicate 16 zero).

Lemma demo_mac_length k n : length (demo_mac k n) = 16%nat.
Proof. unfold demo_mac. rewrite length_take, !length_app, length_replicate. lia. Qed.

#[local] Program Instance demo_aes : AESGCM :=
  {| aes_encrypt k n p := demo_mac k n ++ p;
     aes_decrypt k n c := if bool_decide (take 16 c = demo_mac k n) then Ok (drop 16 c) else Raise InvalidTag |}.
Next Obligation.
  intros k n p _. simpl. rewrite take_app_length', bool_decide_true by (done || by rewrite demo_mac_length).
  by rewrite drop_app_length' by by rewrite demo_mac_length.
Qed.
Next Obligation.
  intros k n c p. cbn beta. case_bool_decide as Ht; [|done]. intros [= <-]. rewrite <- Ht. by rewrite take_drop.
Qed.
Next Obligation. intros k n p. simpl. rewrite length_app, demo_mac_length. lia. Qed.

Definition demo_key : bytes := chars "0123456789abcdef0123456789abcde-".

Lemma key_formats_witness :
  _decode_key "MDEyMzQ1Njc4OWFiY2RlZjAxMjM0NTY3ODlhYmNkZS0=" = Ok demo_key ∧ _decode_key (text demo_key) = Ok demo_key.
Proof.
  destruct (key_formats demo_key eq_refl) as (_ & Hb & _ & _ & _ & Hr & _). split; [|apply Hr; by vm_compute].
  change "MDEyMzQ1Njc4OWFiY2RlZjAxMjM0NTY3ODlhYmNkZS0=" with (text (b64encode demo_key)). exact Hb.
Defined.

Lemma cipher_seals_witness :
  decrypt demo_key (encrypt demo_key "nonce-nonce-" "JBSWY3DPEHPK3PXP") = Ok "JBSWY3DPEHPK3PXP" ∧
  decrypt demo_key (encrypt (chars "another key") "nonce-nonce-" "JBSWY3DPEHPK3PXP") = Raise InvalidTag.
Proof. split; [exact (proj1 (cipher_seals demo_key "nonce-nonce-" "JBSWY3DPEHPK3PXP" eq_refl eq_refl))|by vm_compute]. Defined.

Definition demo_d : Identity.iddb :=
  Identity.mkDb {[1%N := Identity.mkUser 1%N (Some "a@x.io") None None 0 "ACTIVE" None]} ∅ ∅ ∅ ∅ ∅ ∅ ∅ [].

Lemma mfa_enrolment_completes_witness :
  let _ := with_cipher demo_key Sessions.demo_crypto in
  let '(_, d1, x1) := request (Sessions.enroll 1%N "nonce-nonce-" "123456") demo_d (Identity.mkIdWorld [] ∅) in
  let '(_, d2, x2) := request (Sessions.verify PyNum.uuid_text 5 1%N "123456") d1 x1 in
  (request (Sessions.verify_login 9 1%N "123456") d2 x2).1.1 = Ok true.
Proof.
  pose proof (mfa_enrolment_completes demo_key Sessions.demo_crypto PyNum.uuid_text 1%N "nonce-nonce-" "123456" "123456" 5 demo_d
    (Identity.mkIdWorld [] ∅) ltac:(by eexists) eq_refl eq_refl eq_refl eq_refl) as Hrun. cbv zeta.
  destruct (request _ demo_d _) as [[r1 d1] x1]. destruct (request _ d1 x1) as [[r2 d2] x2]. destruct Hrun as (_ & _ & _ & Hl).
  exact (Hl 9 "123456").
Defined.

Definition demo_lib : P256 :=
  mkP256 (λ z, if (0 <? z)%Z then Some (Z.to_N z) else None) (λ d, ascii_of_N 4 :: be_bytes 32 d ++ be_bytes 32 (d + 1))
    (λ d digest, (d mod 2 ^ 256, from_bytes digest mod 2 ^ 256)%N) (λ l, be_bytes 32 (from_bytes l)).

Lemma signatures_on_the_wire_witness : ∃ d sg, build_signer demo_lib service_key true (Some "0x1f") 7%N = Ok sg ∧
  b64decode (chars (sg_public sg)) = Ok (public_point demo_lib d) ∧ build_signer demo_lib unsigned true (Some "0x1f") 7%N = Raise ValueError.
Proof.
  assert (Hok : is_ok (build_signer demo_lib service_key true (Some "0x1f") 7%N) = true) by by vm_compute.
  destruct (build_signer demo_lib service_key true (Some "0x1f") 7%N) as [sg|e] eqn:E; [|discriminate Hok].
  destruct (signatures_on_the_wire demo_lib service_key (Some "0x1f") 7%N sg E) as (d & _ & _ & Hp & _).
  { intros d digest. cbn [ecdsa demo_lib]. split; by apply N.mod_lt. }
  by exists d, sg.
Defined.
End Ciphers.
