(* ===== verification/Pydantic.v ===== *)
(** * Request models

    What the services' [api/v1/schemas.py] use of pydantic: the fields of a JSON
    body (the last of duplicate members wins), optional and required strings,
    length bounds, enumerations, and values that
    pydantic itself coerces, through the class [Lax].  Every failure is one [ValidationError], which
    the error handlers answer with 400. *)
From S2P Require Import Prelude PyText PyDecimal.

Module Pydantic.

Abbreviation fields := (list (string * json)).
Abbreviation parsed := (outcome pyerr).

Definition field (k : string) (o : fields) : option json :=
  snd <$> head (filter (λ kv, kv.1 = k) (reverse o)).

Definition model (b : json) : parsed fields := match b with JObj o => Ok o | _ => Raise ValidationError end.

(** [k: str | None = None] *)
Definition opt_str (k : string) (o : fields) : parsed (option string) :=
  match field k o with
  | None | Some JNull => Ok None
  | Some (JStr s) => Ok (Some s)
  | Some _ => Raise ValidationError
  end.

(** [k: str] *)
Definition req_str (k : string) (o : fields) : parsed string :=
  match field k o with Some (JStr s) => Ok s | _ => Raise ValidationError end.

(** [k: str = d] *)
Definition str_default (k d : string) (o : fields) : parsed string :=
  match field k o with None => Ok d | Some (JStr s) => Ok s | Some _ => Raise ValidationError end.

(** [Field(min_length=lo, max_length=hi)] *)
Definition sized (lo : nat) (hi : option nat) (s : string) : parsed string :=
  if (lo <=? String.length s)%nat && match hi with Some h => (String.length s <=? h)%nat | None => true end
  then Ok s else Raise ValidationError.

Definition sized_str (k : string) (lo : nat) (hi : option nat) (o : fields) : parsed string :=
  let? s := req_str k o in sized lo hi s.

(** [k: str | None = Field(default=None, max_length=hi)] *)
Definition opt_sized (k : string) (hi : nat) (o : fields) : parsed (option string) :=
  let? v := opt_str k o in
  match v with None => Ok None | Some s => let? s := sized 0 (Some hi) s in Ok (Some s) end.

(** A [StrEnum] member by its value. *)
Definition member (values : list string) (s : string) : parsed string :=
  if bool_decide (s ∈ values) then Ok s else Raise ValidationError.

Definition enum (k : string) (values : list string) (o : fields) : parsed string :=
  let? s := req_str k o in member values s.

Fixpoint members (values : list string) (l : list json) : parsed (list string) :=
  match l with
  | [] => Ok []
  | JStr s :: l => let? s := member values s in let? r := members values l in Ok (s :: r)
  | _ :: _ => Raise ValidationError
  end.

(** [k: list[Enum] = Field(default_factory=list)] *)
Definition enum_list (k : string) (values : list string) (o : fields) : parsed (list string) :=
  match field k o with
  | None => Ok []
  | Some (JList l) => members values l
  | Some _ => Raise ValidationError
  end.

(** An optional field through a validator. *)
Definition validated {A} (f : A → parsed A) (v : option A) : parsed (option A) :=
  match v with None => Ok None | Some a => let? a := f a in Ok (Some a) end.

(** A condition of a [model_validator]. *)
Definition check (b : bool) : parsed unit := if b then Ok tt else Raise ValidationError.

Definition ostr (o : option string) : json := match o with Some s => JStr s | None => JNull end.
Definition otime (o : option Z) : json := match o with Some t => JInt t | None => JNull end.

(** What pydantic reads from a JSON value as an integer, a UUID, a datetime (the
    instant and the text it dumps) and a decimal of so many digits and places. *)
Class Lax := {
  as_int : json → option Z;
  as_uuid : json → option uuid;
  as_datetime : json → option (Z * string);
  as_decimal : nat → nat → json → option dec }.

(** [k: T] and [k: T | None = None] *)
Definition req_as {A} (f : json → option A) (k : string) (o : fields) : parsed A :=
  match field k o ≫= f with Some a => Ok a | None => Raise ValidationError end.

Definition opt_as {A} (f : json → option A) (k : string) (o : fields) : parsed (option A) :=
  match field k o with
  | None | Some JNull => Ok None
  | Some v => match f v with Some a => Ok (Some a) | None => Raise ValidationError end
  end.

Definition as_str (v : json) : option string := match v with JStr s => Some s | _ => None end.

(** [list[T]] *)
Definition as_list {A} (f : json → option A) (v : json) : option (list A) :=
  match v with JList l => mapM f l | _ => None end.

(** Changing one member leaves the others. *)
Lemma field_other (l1 l2 : fields) k v v' f : f ≠ k → field f (l1 ++ (k, v) :: l2) = field f (l1 ++ (k, v') :: l2).
Proof.
  intros Hf. unfold field. rewrite !reverse_app, !reverse_cons, !filter_app, !filter_cons.
  by rewrite !decide_False by (simpl; congruence).
Qed.

Lemma check_ok b u : check b = Ok u → b = true.
Proof. by destruct b. Qed.
End Pydantic.
