(* ===== verification/Routes.v ===== *)
(** * Routes

    How the services' routers run a request: FastAPI validates the body, path ids
    are parsed, and the service call runs in a unit of work, under an
    Idempotency-Key where the route takes one ([api/v1/_helpers.py]).  [R] is the
    idempotency store, [D * X] the service's database and outside world. *)
From S2P Require Import Prelude PyText PyNum Fingerprint UnitOfWork Relational Idempotency Pydantic.

Module Routes.
Import Pydantic.
Open Scope Z_scope.

Section routes.
Context {D X Code R : Type} `{!RedisLike R}.

Abbreviation answer := (outcome (Idem.route_exn (exn Code)) (Z * json)).
Abbreviation run := (R → D * X → answer * R * (D * X)).

(** A request that is refused before anything runs. *)
Definition refused (e : exn Code) : run := λ s w, (Raise (Idem.Action e), s, w).

(** FastAPI validates the body first; its exception carries what was sent. *)
Definition with_body {A} (p : json → parsed A) (b : json) (k : A → run) : run := λ s w,
  match p b with Ok a => k a s w | Raise _ => (Raise (Idem.RequestValidationError b), s, w) end.

(** [_helpers.parse_uuid] *)
Definition with_uuid (invalid : Code) (v : string) (k : uuid → run) : run := λ s w,
  match PyNum.parse_uuid v with Some u => k u s w | None => refused (AppError invalid) s w end.

(** A route with no key. *)
Definition plain {A} (st : Z) (render : A → json) (work : handler D X Code A) : run := λ s w,
  match action_of work w with
  | (Ok a, w') => (Ok (st, render a), s, w')
  | (Raise e, w') => (Raise (Idem.Action e), s, w')
  end.

Variables (service : string) (ttl : Z) (sha256_hex : string → string).

(** [_helpers.idempotent] *)
Definition idempotent {A} (c : Idem.clock) (route : string) (key : option string) (payload : fields) (st : Z)
    (render : A → json) (work : handler D X Code A) : run :=
  Idem.idempotent_route service ttl c route key (Fingerprint.fingerprint sha256_hex (JObj payload)) st render (action_of work).

(** ** Invariants of the database *)

Variable P : D → Prop.

(** A route keeps an invariant when its service call does. *)
Definition keeps (k : run) : Prop := ∀ s w, P w.1 → P (k s w).2.1.

Lemma keeps_action {A} (work : handler D X Code A) w : stable P work → P w.1 → P (action_of work w).2.1.
Proof.
  intros Hs Hw. unfold action_of. pose proof (stable_request P work w.1 w.2 Hs Hw) as Hr.
  by destruct (request work w.1 w.2) as [[r d] x].
Qed.

Lemma keeps_plain {A} st (render : A → json) (work : handler D X Code A) : stable P work → keeps (plain st render work).
Proof.
  intros Hs s w Hw. pose proof (keeps_action work w Hs Hw) as Ha. unfold plain.
  by destruct (action_of work w) as [[a|e] w'].
Qed.

Lemma keeps_idempotent {A} c route key payload st (render : A → json) (work : handler D X Code A) :
  stable P work → keeps (idempotent c route key payload st render work).
Proof.
  intros Hs s w Hw. pose proof (keeps_action work w Hs Hw) as Ha. unfold idempotent, Idem.idempotent_route.
  destruct (action_of work w) as [[a|e] w']; repeat case_match; done.
Qed.

Lemma keeps_body {A} (f : json → parsed A) b k : (∀ a, f b = Ok a → keeps (k a)) → keeps (with_body f b k).
Proof. intros Hk s w Hw. unfold with_body. destruct (f b) as [a|e]; [by apply (Hk a)|done]. Qed.

Lemma keeps_uuid invalid v k : (∀ u, keeps (k u)) → keeps (with_uuid invalid v k).
Proof. intros Hk s w Hw. unfold with_uuid. destruct (PyNum.parse_uuid v) as [u|]; [by apply Hk|done]. Qed.

(** ** Replays *)

(** A keyed route runs its work once or not at all. *)
Lemma idempotent_world {A} c route key payload st (render : A → json) (work : handler D X Code A) s w :
  (idempotent c route key payload st render work s w).2 = w ∨
  (idempotent c route key payload st render work s w).2 = (action_of work w).2.
Proof.
  unfold idempotent, Idem.idempotent_route. destruct (action_of work w) as [[a|e] w']; repeat case_match; simpl; auto.
Qed.

(** An answer that is no replay comes from the work. *)
Lemma idempotent_ok {A} c route key payload st (render : A → json) (work : handler D X Code A) s w r s1 w1 :
  (∀ k, key = Some k → truthy k = true → r_get (Idem.c_set c) (Idem._key service route k) s = None) →
  idempotent c route key payload st render work s w = (Ok r, s1, w1) →
  ∃ a, action_of work w = (Ok a, w1) ∧ r = (st, render a).
Proof.
  intros Hfree. unfold idempotent, Idem.idempotent_route.
  destruct key as [k|]; [destruct (truthy k) eqn:Hk; [rewrite Idem.begin_free by by apply Hfree|]|];
    destruct (action_of work w) as [[a|e] w2]; try done; intros [= <- <- <-]; by exists a.
Qed.

(** A completed request is replayed to whoever presents the key with the same
    payload, whatever the work would have done. *)
Lemma idempotent_replay {A B} c c' route key payload st st' (render : A → json) (render' : B → json)
    (work : handler D X Code A) (work' : handler D X Code B) s s1 w w1 w' r :
  truthy key = true → r_get (Idem.c_set c) (Idem._key service route key) s = None →
  Idem.c_set c' ≤ Idem.c_get c' ∧ Idem.c_done c ≤ Idem.c_get c' < Idem.c_done c + ttl →
  idempotent c route (Some key) payload st render work s w = (Ok r, s1, w1) →
  idempotent c' route (Some key) payload st' render' work' s1 w' = (Ok r, s1, w').
Proof.
  intros Hk Hfree Hc. unfold idempotent at 1. unfold Idem.idempotent_route. rewrite Hk, Idem.begin_free by done.
  destruct (action_of work w) as [[a|e] w2]; [|done]. intros [= <- <- <-]. unfold idempotent.
  rewrite (Idem.route_completed _ _ _ _ _ (Fingerprint.fingerprint sha256_hex (JObj payload)) _ st _ (render a))
    by (done || lia || apply Idem.complete_get; lia).
  by rewrite decide_True.
Qed.

End routes.

(** ** Two runs of a route *)

Section same_runs.
Context {D X Code R O : Type} `{!RedisLike R} (view : D → O).
Variables (service : string) (ttl : Z) (sha256_hex : string → string).

Abbreviation run := (R → D * X → outcome (Idem.route_exn (exn Code)) (Z * json) * R * (D * X)).

(** From worlds the view cannot tell apart: same answer, same store, and worlds
    it cannot tell apart. *)
Definition same_run (k k' : run) : Prop := ∀ s w w', view w.1 = view w'.1 → w.2 = w'.2 →
  (k s w).1 = (k' s w').1 ∧ view (k s w).2.1 = view (k' s w').2.1 ∧ (k s w).2.2 = (k' s w').2.2.

Lemma same_refused e : same_run (refused e) (refused e).
Proof. by intros s w w' Hd Hx. Qed.

Lemma same_plain {A B} st (render : A → json) (render' : B → json) (work : handler D X Code A) (work' : handler D X Code B) :
  alike view work work' (λ a b, render a = render' b) → same_run (plain st render work) (plain st render' work').
Proof.
  intros Ha s w w' Hd Hx. destruct (alike_request view work work' _ w w' Ha Hd Hx) as (Hr & Hv & He). unfold plain.
  destruct (action_of work w) as [[a|e] w1], (action_of work' w') as [[b|e'] w1']; simpl in *; try done;
    [by rewrite Hr|by subst].
Qed.

Lemma same_idempotent {A B} c route key payload st (render : A → json) (render' : B → json)
    (work : handler D X Code A) (work' : handler D X Code B) :
  alike view work work' (λ a b, render a = render' b) →
  same_run (idempotent service ttl sha256_hex c route key payload st render work)
    (idempotent service ttl sha256_hex c route key payload st render' work').
Proof.
  intros Ha s w w' Hd Hx. destruct (alike_request view work work' _ w w' Ha Hd Hx) as (Hr & Hv & He).
  unfold idempotent, Idem.idempotent_route.
  destruct (action_of work w) as [[a|e] w1], (action_of work' w') as [[b|e'] w1']; simpl in *; try done;
    [rewrite Hr|subst]; repeat case_match; done.
Qed.

Lemma same_body {A} (p : json → parsed A) b (k k' : A → run) :
  (∀ a, p b = Ok a → same_run (k a) (k' a)) → same_run (with_body p b k) (with_body p b k').
Proof. intros Hk. unfold with_body. intros s w w' Hd Hx. destruct (p b) as [a|e]; [by apply Hk|done]. Qed.

Lemma same_uuid invalid v (k k' : uuid → run) :
  (∀ u, same_run (k u) (k' u)) → same_run (with_uuid invalid v k) (with_uuid invalid v k').
Proof. intros Hk. unfold with_uuid. intros s w w' Hd Hx. destruct (PyNum.parse_uuid v) as [u|]; [by apply Hk|done]. Qed.
End same_runs.
End Routes.
