(* ===== verification/IdentityApi.v ===== *)
(** * identity-service: the HTTP API

    [identity-service/app/api/v1]: the request and response models of
    [schemas.py] and the routes of [auth.py], [users.py], [organizations.py] and
    [sessions.py] over the services of [Sessions] and [Orgs], with the
    idempotency of [_helpers.py].  A route takes the authenticated principal and
    the JSON body; times are numbers; the signed access token, the otpauth URI
    and the creation times the database fills in are parameters. *)
From S2P Require Import Prelude PyText PyJson PyNum Fingerprint UnitOfWork Tables Idempotency IdentityDb Sessions Orgs Pydantic Routes.
From Stdlib Require Import Ascii.

Module IdentityApi.
Import Identity Pydantic PyNum.
Open Scope Z_scope.

(** ** schemas.py *)

(** [[^@\s]+@[^@\s]+\.[^@\s]+] on stripped text. *)
Definition solid (c : ascii) : bool := negb (is_space c) && negb (bool_decide (c = "@"%char)).

Definition dot_inside (l : list ascii) : bool :=
  match l with [] => false | _ :: l => existsb (λ c, bool_decide (c = "."%char)) (removelast l) end.

Definition _EMAIL_RE (v : string) : bool :=
  match cut_chars "@"%char (chars v) with
  | Some (a, b) => negb (bool_decide (a = [])) && forallb solid a && forallb solid b && dot_inside b
  | None => false
  end.

Definition _norm_email (value : string) : parsed string :=
  let v := lower (strip value) in if _EMAIL_RE v then Ok v else Raise ValidationError.

Definition email_field (o : fields) : parsed (option string) :=
  let? e := opt_str "email" o in validated _norm_email e.

Record RegisterRequest := mkRegister { rg_email : option string; rg_phone : option string; rg_password : string }.

Definition parse_register (b : json) : parsed RegisterRequest :=
  let? o := model b in
  let? e := email_field o in
  let? p := opt_str "phone" o in
  let? pw := sized_str "password" 8 (Some 256%nat) o in
  let? _ := check (otruthy e || otruthy p) in
  Ok (mkRegister e p pw).

Definition dump_register (q : RegisterRequest) : fields :=
  [("email", ostr (rg_email q)); ("phone", ostr (rg_phone q)); ("password", JStr (rg_password q))].

(** [self.email or self.phone or ""] *)
Definition identifier (e p : option string) : string := str_or e (str_or p "").

(** [bool(a) == bool(b)] is refused. *)
Definition exactly_one (a b : option string) : bool := negb (Bool.eqb (otruthy a) (otruthy b)).

Record LoginRequest := mkLogin { lg_identifier : string; lg_password : string; lg_code : option string }.

Definition parse_login (b : json) : parsed LoginRequest :=
  let? o := model b in
  let? e := email_field o in
  let? p := opt_str "phone" o in
  let? pw := req_str "password" o in
  let? code := opt_str "mfa_code" o in
  let? _ := check (exactly_one e p) in
  Ok (mkLogin (identifier e p) pw code).

(** [RefreshRequest] and [LogoutRequest]. *)
Definition parse_refresh (b : json) : parsed string := let? o := model b in sized_str "refresh_token" 1 None o.

Record OAuthStartRequest := mkStart { os_redirect : option string; os_state : option string }.

Definition parse_oauth_start (b : json) : parsed OAuthStartRequest :=
  let? o := model b in
  let? r := opt_str "redirect_uri" o in
  let? s := opt_str "state" o in
  Ok (mkStart r s).

Record OAuthCallbackRequest := mkCallback { oc_code : string; oc_state : string; oc_redirect : option string }.

Definition parse_oauth_callback (b : json) : parsed OAuthCallbackRequest :=
  let? o := model b in
  let? c := sized_str "code" 1 None o in
  let? s := str_default "state" "" o in
  let? r := opt_str "redirect_uri" o in
  Ok (mkCallback c s r).

Definition dump_callback (q : OAuthCallbackRequest) : fields :=
  [("code", JStr (oc_code q)); ("state", JStr (oc_state q)); ("redirect_uri", ostr (oc_redirect q))].

(** [MfaCodeRequest] *)
Definition parse_code (b : json) : parsed string := let? o := model b in sized_str "code" 1 (Some 16%nat) o.

(** [PasswordResetRequestRequest], as its [identifier]. *)
Definition parse_reset_request (b : json) : parsed string :=
  let? o := model b in
  let? e := email_field o in
  let? p := opt_str "phone" o in
  let? _ := check (exactly_one e p) in
  Ok (identifier e p).

Record PasswordResetConfirmRequest := mkConfirm { pc_token : string; pc_password : string }.

Definition parse_reset_confirm (b : json) : parsed PasswordResetConfirmRequest :=
  let? o := model b in
  let? t := sized_str "token" 1 None o in
  let? p := sized_str "new_password" 8 (Some 256%nat) o in
  Ok (mkConfirm t p).

Record UpdateProfileRequest := mkUpdate { up_email : option string; up_phone : option string }.

Definition parse_update (b : json) : parsed UpdateProfileRequest :=
  let? o := model b in
  let? e := email_field o in
  let? p := opt_str "phone" o in
  Ok (mkUpdate e p).

Definition dump_update (q : UpdateProfileRequest) : fields := [("email", ostr (up_email q)); ("phone", ostr (up_phone q))].

Record IssueApiKeyRequest := mkIssue { ik_org : string; ik_name : string; ik_scopes : list string }.

Definition parse_issue (b : json) : parsed IssueApiKeyRequest :=
  let? o := model b in
  let? g := req_str "org_id" o in
  let? n := sized_str "name" 1 (Some 128%nat) o in
  let? s := enum_list "scopes" (scope_value <$> Scopes) o in
  Ok (mkIssue g n s).

Definition dump_issue (q : IssueApiKeyRequest) : fields :=
  [("org_id", JStr (ik_org q)); ("name", JStr (ik_name q)); ("scopes", JList (JStr <$> ik_scopes q))].

Record CreateOrgRequest := mkCreateOrg { co_name : string; co_type : string }.

Definition parse_create_org (b : json) : parsed CreateOrgRequest :=
  let? o := model b in
  let? n := sized_str "name" 1 (Some 200%nat) o in
  let? t := enum "type" OrgTypes o in
  Ok (mkCreateOrg n t).

Definition dump_create_org (q : CreateOrgRequest) : fields := [("name", JStr (co_name q)); ("type", JStr (co_type q))].

Record AddMemberRequest := mkAdd { am_user : option string; am_email : option string; am_role : string }.

Definition parse_add_member (b : json) : parsed AddMemberRequest :=
  let? o := model b in
  let? u := opt_str "user_id" o in
  let? e := email_field o in
  let? r := enum "role" (role_value <$> Roles) o in
  let? _ := check (exactly_one u e) in
  Ok (mkAdd u e r).

Definition dump_add_member (q : AddMemberRequest) : fields :=
  [("user_id", ostr (am_user q)); ("email", ostr (am_email q)); ("role", JStr (am_role q))].

(** ** security/oauth *)

Record AuthorizeRequest := mkAuthorize { authorize_url : string; az_state : string }.

(** An [OAuthProvider]; nothing for an [OAuthError]. *)
Record OAuthProvider := mkProvider {
  authorize : string → option string → AuthorizeRequest;
  exchange_code : string → string → option string → option Sessions.OAuthIdentity }.

Definition FakeOAuthProvider (sha256_hex : string → string) (provider : string) : OAuthProvider :=
  mkProvider
    (λ state _, mkAuthorize ("https://fake-oauth.local/" +:+ provider +:+ "/authorize?state=" +:+ state) state)
    (λ code _ _,
      if truthy code then
        let subject := text (take 32 (chars (sha256_hex (provider +:+ ":" +:+ code)))) in
        Some (Sessions.mkOAuth provider subject (Some (subject +:+ "@fake-" +:+ provider +:+ ".local")))
      else None).

Definition _SUPPORTED : list string := ["google"; "apple"; "github"].

(** [real] is [AuthlibOAuthProvider] at a provider's settings, nothing when it
    has none. *)
Definition build_oauth_resolver (sha256_hex : string → string) (oauth_fake : bool) (real : string → option OAuthProvider)
    (provider : string) : option OAuthProvider :=
  if bool_decide (provider ∈ _SUPPORTED) then
    if oauth_fake then Some (FakeOAuthProvider sha256_hex provider) else real provider
  else None.

(** ** Responses *)

Definition RegisterResponse (u : UserRow) : json :=
  JObj [("user_id", JStr (uuid_text (user_id u))); ("status", JStr (status u))].

Definition OrgRoleEntry (m : uuid * string) : json := JObj [("org_id", JStr (uuid_text m.1)); ("role", JStr m.2)].

Definition ApiKeyResponse (k : uuid * ApiKeyRow) : json :=
  JObj [("api_key_id", JStr (uuid_text k.1)); ("org_id", JStr (uuid_text (key_org k.2))); ("name", JStr (key_name k.2));
        ("prefix", JStr (prefix k.2)); ("scopes", JList (JStr <$> scopes k.2)); ("status", JStr (key_status k.2));
        ("created_at", JInt (key_created k.2)); ("revoked_at", otime (key_revoked_at k.2))].

(** [full_key] is absent from what is cached. *)
Definition IssueApiKeyResponse (k : uuid) (row : ApiKeyRow) (full : option string) : json :=
  JObj [("api_key_id", JStr (uuid_text k)); ("org_id", JStr (uuid_text (key_org row))); ("name", JStr (key_name row));
        ("prefix", JStr (prefix row)); ("full_key", ostr full); ("scopes", JList (JStr <$> scopes row));
        ("status", JStr (key_status row)); ("created_at", JInt (key_created row))].

Definition RevokeApiKeyResponse (k : uuid) (row : ApiKeyRow) : json :=
  JObj [("api_key_id", JStr (uuid_text k)); ("status", JStr (key_status row))].

Definition OrgResponse (r : uuid * OrganizationRow * string) : json :=
  JObj [("org_id", JStr (uuid_text r.1.1)); ("name", JStr (org_name r.1.2)); ("type", JStr (org_type r.1.2));
        ("role", JStr r.2); ("created_at", JInt (org_created r.1.2))].

Definition MemberResponse (o : uuid) (m : uuid * string) : json :=
  JObj [("org_id", JStr (uuid_text o)); ("user_id", JStr (uuid_text m.1)); ("role", JStr m.2)].

Definition SessionResponse (sid : string) (s : uuid * SessionRow) : json :=
  JObj [("session_id", JStr (uuid_text s.1)); ("user_agent", ostr (s_agent s.2)); ("ip", ostr (s_ip s.2));
        ("created_at", JInt (s_created s.2)); ("expires_at", JInt (s_expires s.2));
        ("current", JBool (bool_decide (uuid_text s.1 = sid)))].

Definition items (l : list json) : json := JObj [("items", JList l)].

(** ** Routes *)

Section api.
Context `{!Sessions.Crypto} {R : Type} `{!RedisLike R}.
Variables (cfg : Sessions.Settings) (service : string) (ttl : Z) (sha256_hex : string → string).
(** [JwtIssuer]'s signature over the claims, [provisioning_uri], the
    [created_at] default of [users], the providers. *)
Variables (sign : AccessClaims → string) (otpauth : string → string → string) (created_at : uuid → Z)
  (providers : string → option OAuthProvider).

Abbreviation world := (iddb * idworld)%type.
Abbreviation answer := (outcome (Idem.route_exn (exn ErrorCode)) (Z * json)).
Abbreviation served := (answer * R * world)%type.

Abbreviation with_body := (Routes.with_body (D := iddb) (X := idworld) (Code := ErrorCode) (R := R)).
Abbreviation with_uuid := (Routes.with_uuid (D := iddb) (X := idworld) (R := R) INVALID_PAYLOAD).
Abbreviation idempotent := (Routes.idempotent (R := R) service ttl sha256_hex).

(** [uuid.UUID(principal.user_id)] *)
Definition uid_of (p : AccessClaims) : H uuid :=
  match parse_uuid (c_user p) with Some u => mret u | None => throw (PyError ValueError) end.

Definition status_only (t : string) : json := JObj [("status", JStr t)].

(** *** auth.py *)

Definition _tokens (t : AuthTokens) : json :=
  JObj [("access_token", JStr (sign (access_token t))); ("refresh_token", JStr (refresh_token t));
        ("token_type", JStr "Bearer"); ("expires_in", JInt (expires_in t))].

Definition openid_configuration (issuer base_url : string) : json :=
  let base := text (reverse (drop_these ["/"%char] (reverse (chars base_url)))) in
  JObj [("issuer", JStr issuer); ("jwks_uri", JStr (base +:+ "/v1/auth/.well-known/jwks.json"));
        ("id_token_signing_alg_values_supported", JList [JStr "RS256"]); ("response_types_supported", JList [JStr "token"]);
        ("subject_types_supported", JList [JStr "public"])].

Definition register (c : Idem.clock) (key : option string) (u : uuid) (salt : string) (b : json) : R → world → served :=
  with_body parse_register b (λ q,
    idempotent c "register" key (dump_register q) 201 RegisterResponse
      (Sessions.register uuid_text u (rg_email q) (rg_phone q) salt (rg_password q))).

Definition login (now : Z) (fr : Sessions.Fresh) (agent ip : option string) (b : json) : R → world → served :=
  with_body parse_login b (λ q,
    Routes.plain 200 _tokens (Sessions.login uuid_text cfg now fr (lg_identifier q) (lg_password q) (lg_code q) agent ip)).

Definition refresh (now : Z) (fr : Sessions.Fresh) (agent ip : option string) (b : json) : R → world → served :=
  with_body parse_refresh b (λ t, Routes.plain 200 _tokens (Sessions.rotate uuid_text cfg now fr t agent ip)).

Definition logout (c : Idem.clock) (key : option string) (now : Z) (p : AccessClaims) (b : json) : R → world → served :=
  with_body parse_refresh b (λ t,
    idempotent c "logout" key [("refresh_token", JStr t)] 200 (λ _, status_only "logged_out")
      (u ← uid_of p; Sessions.logout now u t)).

Definition password_reset_request (now : Z) (i : uuid) (raw : string) (b : json) : R → world → served :=
  with_body parse_reset_request b (λ ident,
    Routes.plain 200 (λ t, JObj [("status", JStr "ok"); ("reset_token", ostr t)])
      (Sessions.request_password_reset uuid_text cfg now i raw ident)).

Definition password_reset_confirm (now : Z) (salt : string) (b : json) : R → world → served :=
  with_body parse_reset_confirm b (λ q,
    Routes.plain 200 (λ _, status_only "reset") (Sessions.confirm_password_reset uuid_text now (pc_token q) salt (pc_password q))).

(** [AuthService.oauth_start]; [fresh] is [secrets.token_urlsafe(16)]. *)
Definition start_authorization (provider fresh : string) (state redirect_uri : option string) : H AuthorizeRequest :=
  match providers provider with
  | None => raise OAUTH_PROVIDER_UNKNOWN
  | Some p => mret (authorize p (str_or state fresh) redirect_uri)
  end.

Definition oauth_start (provider fresh : string) (b : json) : R → world → served :=
  with_body parse_oauth_start b (λ q,
    Routes.plain 200 (λ a, JObj [("authorize_url", JStr (authorize_url a)); ("state", JStr (az_state a))])
      (start_authorization provider fresh (os_state q) (os_redirect q))).

Definition oauth_callback (c : Idem.clock) (key : option string) (now : Z) (fr : Sessions.Fresh) (u : uuid) (provider : string)
    (agent ip : option string) (b : json) : R → world → served :=
  with_body parse_oauth_callback b (λ q,
    idempotent c "oauth_callback" key (("provider", JStr provider) :: dump_callback q) 200 _tokens
      (Sessions.oauth_callback uuid_text cfg now fr u
         ((λ p, exchange_code p (oc_code q) (oc_state q) (oc_redirect q)) <$> providers provider) agent ip)).

Definition account_name (u : UserRow) : string := str_or (email u) (str_or (phone u) (uuid_text (user_id u))).

Definition mfa_enroll (nonce fresh : string) (p : AccessClaims) : R → world → served :=
  Routes.plain 200 (λ r, JObj [("secret", JStr r.1); ("otpauth_uri", JStr (otpauth r.1 r.2))])
    (u ← uid_of p;
     user ← Sessions.get_user u;
     secret ← Sessions.enroll u nonce fresh;
     mret (secret, account_name user)).

Definition mfa_payload (p : AccessClaims) (code : string) : fields := [("user", JStr (c_user p)); ("code", JStr code)].

Definition mfa_verify (c : Idem.clock) (key : option string) (now : Z) (p : AccessClaims) (b : json) : R → world → served :=
  with_body parse_code b (λ code,
    idempotent c "mfa_verify" key (mfa_payload p code) 200 (λ _, JObj [("enabled", JBool true)])
      (u ← uid_of p; Sessions.verify uuid_text now u code)).

Definition mfa_disable (c : Idem.clock) (key : option string) (now : Z) (p : AccessClaims) (b : json) : R → world → served :=
  with_body parse_code b (λ code,
    idempotent c "mfa_disable" key (mfa_payload p code) 200 (λ _, status_only "disabled")
      (u ← uid_of p; Sessions.disable now u code)).

(** *** users.py *)

(** [UsersService.roles] *)
Definition roles_of (u : uuid) : H (list (uuid * string)) := query (list_memberships_for_user u).

Definition _profile (p : AccessClaims) (r : UserRow * list (uuid * string) * bool) : json :=
  let '(u, roles, mfa_enabled) := r in
  JObj [("user_id", JStr (uuid_text (user_id u))); ("email", ostr (email u)); ("phone", ostr (phone u));
        ("kyc_tier", JInt (kyc_tier u)); ("status", JStr (status u)); ("mfa_enabled", JBool mfa_enabled);
        ("roles", JList (OrgRoleEntry <$> roles)); ("user_roles", JList (JStr <$> c_user_roles p));
        ("created_at", JInt (created_at (user_id u))); ("last_login_at", otime (last_login_at u))].

Definition profile_of (u : uuid) : H (UserRow * list (uuid * string) * bool) :=
  user ← Sessions.get_user u;
  roles ← roles_of u;
  enabled ← Sessions.is_required u;
  mret (user, roles, enabled).

Definition get_me (p : AccessClaims) : R → world → served :=
  Routes.plain 200 (_profile p) (u ← uid_of p; profile_of u).

Definition update_me (c : Idem.clock) (key : option string) (p : AccessClaims) (b : json) : R → world → served :=
  with_body parse_update b (λ q s w,
    match parse_uuid (c_user p) with
    | None => Routes.refused (PyError ValueError) s w
    | Some u =>
        idempotent c "update_me" key (("user", JStr (c_user p)) :: dump_update q) 200 (_profile p)
          (Sessions.update u (up_email q) (up_phone q) ;; profile_of u) s w
    end).

(** [services.api_keys.issue] for the principal. *)
Definition issue_for (now : Z) (k : uuid) (secret salt : string) (p : AccessClaims) (o : uuid) (q : IssueApiKeyRequest) :
    H (ApiKeyRow * string) :=
  u ← uid_of p; Orgs.issue uuid_text now k secret salt u o (ik_name q) (ik_scopes q).

(** The key's record is cached with [full_key] redacted. *)
Definition issue_api_key (c : Idem.clock) (key : option string) (now : Z) (k : uuid) (secret salt : string)
    (p : AccessClaims) (b : json) : R → world → served :=
  with_body parse_issue b (λ q, with_uuid (ik_org q) (λ o s w,
    let fp := Fingerprint.fingerprint sha256_hex (JObj (("user", JStr (c_user p)) :: dump_issue q)) in
    let unkeyed := Routes.plain 201 (λ r, IssueApiKeyResponse k r.1 (Some r.2)) (issue_for now k secret salt p o q) s w in
    match key with
    | Some i =>
        if truthy i then
          match Idem.begin service ttl (Idem.c_set c) (Idem.c_get c) (Idem.c_set2 c) "issue_api_key" i fp s with
          | (Raise (inl e), s1) => (Raise (Idem.Conflict e), s1, w)
          | (Raise (inr e), s1) => (Raise (Idem.StoreError e), s1, w)
          | (Ok (Some cached), s1) => (Ok (Idem.http_status cached, Idem.body cached), s1, w)
          | (Ok None, s1) =>
              match action_of (issue_for now k secret salt p o q) w with
              | (Raise e, w') => (Raise (Idem.Action e), Idem.release service "issue_api_key" i s1, w')
              | (Ok (row, full), w') =>
                  (Ok (201, IssueApiKeyResponse k row (Some full)),
                   Idem.complete service ttl (Idem.c_done c) "issue_api_key" i fp 201 (IssueApiKeyResponse k row None) s1, w')
              end
          end
        else unkeyed
    | None => unkeyed
    end)).

Definition list_api_keys (p : AccessClaims) : R → world → served :=
  Routes.plain 200 (λ l, items (ApiKeyResponse <$> l)) (u ← uid_of p; Orgs.list_for_actor u).

Definition revoke_api_key (c : Idem.clock) (key : option string) (now : Z) (api_key_id : string) (p : AccessClaims) :
    R → world → served :=
  with_uuid api_key_id (λ k,
    idempotent c "revoke_api_key" key [("api_key_id", JStr api_key_id)] 200 (RevokeApiKeyResponse k)
      (u ← uid_of p; Orgs.revoke uuid_text now u k)).

(** *** organizations.py *)

Definition create_org (c : Idem.clock) (key : option string) (now : Z) (o : uuid) (p : AccessClaims) (b : json) : R → world → served :=
  with_body parse_create_org b (λ q,
    idempotent c "create_org" key (("user", JStr (c_user p)) :: dump_create_org q) 201 OrgResponse
      (u ← uid_of p;
       Orgs.create uuid_text now o u (co_name q) (co_type q) ;;
       mret (o, mkOrg (co_name q) (co_type q) u now, role_value OWNER))).

Definition list_orgs (p : AccessClaims) : R → world → served :=
  Routes.plain 200 (λ l, items (OrgResponse <$> l)) (u ← uid_of p; Orgs.list_for_user u).

Definition add_member (c : Idem.clock) (key : option string) (org_id : string) (p : AccessClaims) (b : json) : R → world → served :=
  with_body parse_add_member b (λ q, with_uuid org_id (λ o,
    let work target :=
      idempotent c "add_member" key (("org_id", JStr org_id) :: dump_add_member q) 201 (λ t, MemberResponse o (t, am_role q))
        (u ← uid_of p; Orgs.add_member uuid_text u o target (am_email q) (am_role q)) in
    match am_user q with
    | Some v => if truthy v then with_uuid v (λ t, work (Some t)) else work None
    | None => work None
    end)).

Definition list_members_route (org_id : string) (p : AccessClaims) (s : R) (w : world) : served :=
  match parse_uuid (c_user p), parse_uuid org_id with
  | None, _ => Routes.refused (PyError ValueError) s w
  | _, None => Routes.refused (AppError INVALID_PAYLOAD) s w
  | Some u, Some o => Routes.plain 200 (λ l, items (MemberResponse o <$> l)) (Orgs.list_members_of uuid_text u o) s w
  end.

Definition remove_member (c : Idem.clock) (key : option string) (org_id user_id : string) (p : AccessClaims) : R → world → served :=
  with_uuid org_id (λ o, with_uuid user_id (λ t,
    idempotent c "remove_member" key [("org_id", JStr org_id); ("user_id", JStr user_id)] 200
      (λ _, JObj [("status", JStr "removed"); ("org_id", JStr org_id); ("user_id", JStr user_id)])
      (u ← uid_of p; Orgs.remove_member uuid_text u o t))).

(** *** sessions.py *)

Definition list_sessions (now : Z) (p : AccessClaims) : R → world → served :=
  Routes.plain 200 (λ l, items (SessionResponse (c_sid p) <$> l)) (u ← uid_of p; Sessions.list_active now u).

Definition revoke_session (c : Idem.clock) (key : option string) (now : Z) (session_id : string) (p : AccessClaims) :
    R → world → served :=
  with_uuid session_id (λ i,
    idempotent c "revoke_session" key [("session_id", JStr session_id)] 200
      (λ _, JObj [("status", JStr "revoked"); ("session_id", JStr session_id)])
      (u ← uid_of p; Sessions.revoke now u i)).

(** *** The routes together *)

(** A request: the values the server draws for it, the principal and the
    body.  [key] is the Idempotency-Key header, [c] the times of its Redis
    calls. *)
Inductive call :=
| Register (c : Idem.clock) (key : option string) (u : uuid) (salt : string) (b : json)
| Login (now : Z) (fr : Sessions.Fresh) (agent ip : option string) (b : json)
| Refresh (now : Z) (fr : Sessions.Fresh) (agent ip : option string) (b : json)
| Logout (c : Idem.clock) (key : option string) (now : Z) (p : AccessClaims) (b : json)
| ResetRequest (now : Z) (i : uuid) (raw : string) (b : json)
| ResetConfirm (now : Z) (salt : string) (b : json)
| OAuthStart (provider fresh : string) (b : json)
| OAuthCallback (c : Idem.clock) (key : option string) (now : Z) (fr : Sessions.Fresh) (u : uuid) (provider : string)
    (agent ip : option string) (b : json)
| MfaEnroll (nonce fresh : string) (p : AccessClaims)
| MfaVerify (c : Idem.clock) (key : option string) (now : Z) (p : AccessClaims) (b : json)
| MfaDisable (c : Idem.clock) (key : option string) (now : Z) (p : AccessClaims) (b : json)
| GetMe (p : AccessClaims)
| UpdateMe (c : Idem.clock) (key : option string) (p : AccessClaims) (b : json)
| IssueKey (c : Idem.clock) (key : option string) (now : Z) (k : uuid) (secret salt : string) (p : AccessClaims) (b : json)
| ListKeys (p : AccessClaims)
| RevokeKey (c : Idem.clock) (key : option string) (now : Z) (api_key_id : string) (p : AccessClaims)
| CreateOrg (c : Idem.clock) (key : option string) (now : Z) (o : uuid) (p : AccessClaims) (b : json)
| ListOrgs (p : AccessClaims)
| AddMember (c : Idem.clock) (key : option string) (org_id : string) (p : AccessClaims) (b : json)
| ListMembers (org_id : string) (p : AccessClaims)
| RemoveMember (c : Idem.clock) (key : option string) (org_id member_id : string) (p : AccessClaims)
| ListSessions (now : Z) (p : AccessClaims)
| RevokeSession (c : Idem.clock) (key : option string) (now : Z) (session_id : string) (p : AccessClaims).

Definition serve (q : call) : R → world → served :=
  match q with
  | Register c key u salt b => register c key u salt b
  | Login now fr agent ip b => login now fr agent ip b
  | Refresh now fr agent ip b => refresh now fr agent ip b
  | Logout c key now p b => logout c key now p b
  | ResetRequest now i raw b => password_reset_request now i raw b
  | ResetConfirm now salt b => password_reset_confirm now salt b
  | OAuthStart provider fresh b => oauth_start provider fresh b
  | OAuthCallback c key now fr u provider agent ip b => oauth_callback c key now fr u provider agent ip b
  | MfaEnroll nonce fresh p => mfa_enroll nonce fresh p
  | MfaVerify c key now p b => mfa_verify c key now p b
  | MfaDisable c key now p b => mfa_disable c key now p b
  | GetMe p => get_me p
  | UpdateMe c key p b => update_me c key p b
  | IssueKey c key now k secret salt p b => issue_api_key c key now k secret salt p b
  | ListKeys p => list_api_keys p
  | RevokeKey c key now i p => revoke_api_key c key now i p
  | CreateOrg c key now o p b => create_org c key now o p b
  | ListOrgs p => list_orgs p
  | AddMember c key o p b => add_member c key o p b
  | ListMembers o p => list_members_route o p
  | RemoveMember c key o u p => remove_member c key o u p
  | ListSessions now p => list_sessions now p
  | RevokeSession c key now i p => revoke_session c key now i p
  end.

Definition is_read (q : call) : bool :=
  match q with GetMe _ | ListKeys _ | ListOrgs _ | ListMembers _ _ | ListSessions _ _ => true | _ => false end.

(** Requests one after the other. *)
Fixpoint serve_all (qs : list call) (s : R) (w : world) : list answer * R * world :=
  match qs with
  | [] => ([], s, w)
  | q :: qs =>
      let '(a, s1, w1) := serve q s w in
      let '(l, s2, w2) := serve_all qs s1 w1 in
      (a :: l, s2, w2)
  end.
End api.
End IdentityApi.
