(* ===== verification/ApiFacts.v ===== *)
(** * identity-service: what the HTTP API promises

    Theorems about the routes of [IdentityApi]: reads do not depend on stored
    secrets, the secret of an API key is shown once and never cached, a
    registered account logs in under any spelling of its e-mail address, the
    e-mail addresses of accounts stay normalised and distinct, and which replays
    of an Idempotency-Key cross accounts. *)
From S2P Require Import Prelude PyText PyJson PyNum Fingerprint UnitOfWork Tables Idempotency IdentityDb Sessions Orgs Pydantic Routes IdentityApi.
From Stdlib Require Import Ascii.

Module ApiFacts.
Import Identity Pydantic PyNum Routes IdentityApi.
Open Scope Z_scope.

(** ** Secrets *)

(** The database with every secret column blanked: password hashes, MFA
    secrets, API-key hashes, refresh-token and reset-token hashes. *)
Definition hide_user (u : UserRow) : UserRow :=
  mkUser (user_id u) (email u) (phone u) None (kyc_tier u) (status u) (last_login_at u).
Definition hide_factor (f : MfaFactorRow) : MfaFactorRow := mkFactor "" (activated_at f).
Definition hide_key (k : ApiKeyRow) : ApiKeyRow :=
  mkKey (key_org k) (key_name k) (prefix k) "" (scopes k) (key_status k) (key_created k) (key_revoked_at k).
Definition hide_session (s : SessionRow) : SessionRow :=
  mkSession (s_user s) "" (s_agent s) (s_ip s) (s_created s) (s_expires s) (s_revoked s).
Definition hide_reset (r : PasswordResetTokenRow) : PasswordResetTokenRow := mkReset (r_user r) "" (r_expires r) (r_used r).

Definition hide (d : iddb) : iddb :=
  mkDb (hide_user <$> users d) (oauth d) (hide_factor <$> mfa d) (orgs d) (memberships d) (hide_key <$> api_keys d)
    (hide_session <$> sessions d) (hide_reset <$> resets d) (id_events d).

Lemma list_api_keys_hidden o d : list_api_keys_for_org o (hide d) = prod_map id hide_key <$> list_api_keys_for_org o d.
Proof.
  unfold list_api_keys_for_org. cbn [api_keys hide]. rewrite map_to_list_fmap.
  rewrite (@filter_fmap_same _ _ (prod_map id hide_key) (λ kv : uuid * ApiKeyRow, key_org kv.2 = o) _ _ _) by done.
  by apply merge_sort_fmap.
Qed.

Lemma list_sessions_hidden u d : list_sessions_for_user u (hide d) = prod_map id hide_session <$> list_sessions_for_user u d.
Proof.
  unfold list_sessions_for_user. cbn [sessions hide]. rewrite map_to_list_fmap.
  rewrite (@filter_fmap_same _ _ (prod_map id hide_session) (λ kv : uuid * SessionRow, s_user kv.2 = u) _ _ _) by done.
  by apply merge_sort_fmap.
Qed.

Lemma list_active_mfa_hidden u d : list_active_mfa u (hide d) = prod_map id hide_factor <$> list_active_mfa u d.
Proof.
  unfold list_active_mfa. cbn [mfa hide]. rewrite map_to_list_fmap.
  rewrite (@filter_fmap_same _ _ (prod_map id hide_factor) (λ kv : uuid * string * MfaFactorRow, kv.1.1 = u ∧ is_Some (activated_at kv.2)) _ _ _) by done.
  by rewrite <- !list_fmap_compose.
Qed.

Lemma keys_hidden (l : list (uuid * string)) d :
  ApiKeyResponse <$> (l ≫= λ m, if can m.2 APIKEY_READ then list_api_keys_for_org m.1 (hide d) else []) =
  ApiKeyResponse <$> (l ≫= λ m, if can m.2 APIKEY_READ then list_api_keys_for_org m.1 d else []).
Proof.
  induction l as [|m l IH]; [done|]. rewrite !bind_cons, !fmap_app, IH. f_equal. destruct (can m.2 APIKEY_READ); [|done].
  rewrite list_api_keys_hidden, <- list_fmap_compose. apply list_fmap_ext. by intros _ [k row] _.
Qed.

Lemma sessions_hidden now sid u d :
  SessionResponse sid <$> filter (λ kv : uuid * SessionRow, s_revoked kv.2 = None ∧ now < s_expires kv.2) (list_sessions_for_user u (hide d)) =
  SessionResponse sid <$> filter (λ kv : uuid * SessionRow, s_revoked kv.2 = None ∧ now < s_expires kv.2) (list_sessions_for_user u d).
Proof.
  rewrite list_sessions_hidden.
  rewrite (@filter_fmap_same _ _ (prod_map id hide_session) (λ kv : uuid * SessionRow, s_revoked kv.2 = None ∧ now < s_expires kv.2) _ _ _) by done.
  rewrite <- list_fmap_compose. apply list_fmap_ext. by intros _ [k row] _.
Qed.

(** ** E-mail addresses *)

Lemma norm_idem v v' : _norm_email v = Ok v' → _norm_email v' = Ok v'.
Proof.
  unfold _norm_email. destruct (_EMAIL_RE (lower (strip v))) eqn:E; [|done]. intros [= <-].
  rewrite strip_lower, strip_idem, lower_idem. by rewrite E.
Qed.

(** Every account is filed under its id and its address is normalised; no two
    accounts have the same address. *)
Definition normal (d : iddb) : Prop :=
  map_Forall (λ u r, user_id r = u ∧ ∀ e, email r = Some e → _norm_email e = Ok e) (users d) ∧
  ∀ u1 u2 r1 r2 e, users d !! u1 = Some r1 → users d !! u2 = Some r2 → email r1 = Some e → email r2 = Some e → u1 = u2.

Lemma by_email_none e d u r : get_user_by_email e d = None → users d !! u = Some r → email r ≠ Some e.
Proof.
  unfold get_user_by_email. intros Hn Hu He. apply head_None in Hn.
  assert (Hin : r ∈ filter (λ u, email u = Some e) (map_to_list (users d)).*2).
  { apply list_elem_of_filter. split; [done|]. apply list_elem_of_fmap. exists (u, r). split; [done|]. by apply elem_of_map_to_list. }
  rewrite Hn in Hin. by apply elem_of_nil in Hin.
Qed.

Lemma by_email_some e d r : get_user_by_email e d = Some r → email r = Some e ∧ ∃ u, users d !! u = Some r.
Proof.
  unfold get_user_by_email. intros Hh. apply head_Some_elem_of in Hh.
  apply list_elem_of_filter in Hh as [He Hin]. split; [done|]. apply list_elem_of_fmap in Hin as ([u r'] & -> & Hin).
  exists u. by apply elem_of_map_to_list.
Qed.

Lemma by_email_unique e d u r :
  normal d → users d !! u = Some r → email r = Some e → get_user_by_email e d = Some r.
Proof.
  intros [_ Hu] Hr He. destruct (get_user_by_email e d) as [r'|] eqn:E.
  - apply by_email_some in E as (He' & u' & Hr'). assert (u' = u) as -> by by eapply Hu. congruence.
  - by apply (by_email_none _ _ _ _ E) in Hr.
Qed.

Lemma normal_users d d' : users d' = users d → normal d → normal d'.
Proof. unfold normal. by intros ->. Qed.

Lemma normal_alter g u d : (∀ r, user_id (g r) = user_id r ∧ email (g r) = email r) → normal d → normal (on_users (alter g u) d).
Proof.
  intros Hg [Hn Hu]. split; simpl.
  - apply map_Forall_alter_2; [done|]. intros r _ [Hi He]. destruct (Hg r) as [-> ->]. done.
  - intros u1 u2 r1 r2 e [[<- (a & Ha & ->)]|[_ H1]]%lookup_alter_Some [[<- (a' & Ha' & ->)]|[_ H2]]%lookup_alter_Some;
      rewrite ?(proj2 (Hg _)); naive_solver.
Qed.

Lemma normal_insert row d d' : (∀ e, email row = Some e → _norm_email e = Ok e) → normal d → insert_user row d = Ok d' → normal d'.
Proof.
  intros He [Hn Hu]. unfold insert_user. case_match eqn:E; [done|]. intros [= <-].
  apply orb_false_elim in E as [[_ E]%orb_false_elim _]. unfold taken in E. split; simpl.
  - by apply map_Forall_insert_2.
  - assert (Hnew : ∀ u r e, users d !! u = Some r → email r = Some e → email row ≠ Some e).
    { intros u r e Hr Her Hrow. rewrite Hrow in E. apply bool_decide_eq_false, eq_None_not_Some in E.
      by apply (by_email_none _ _ _ _ E) in Hr. }
    intros u1 u2 r1 r2 e [[<- <-]|[_ H1]]%lookup_insert_Some [[<- <-]|[_ H2]]%lookup_insert_Some He1 He2; [done| | |by eapply Hu].
    + by destruct (Hnew _ _ _ H2 He2).
    + by destruct (Hnew _ _ _ H1 He1).
Qed.

Lemma normal_with_email e u d :
  _norm_email e = Ok e → get_user_by_email e d = None → normal d → normal (on_users (alter (Sessions.with_email e) u) d).
Proof.
  intros He Hnone [Hn Hu]. split; simpl.
  - apply map_Forall_alter_2; [done|]. intros r _ [Hi _]. split; [done|]. by intros ? [= <-].
  - intros u1 u2 r1 r2 e' [[<- (a & Ha & ->)]|[_ H1]]%lookup_alter_Some [[<- (a' & Ha' & ->)]|[_ H2]]%lookup_alter_Some He1 He2;
      simpl in *; simplify_eq; [done| | |by eapply Hu].
    + by destruct (by_email_none _ _ _ _ Hnone H2).
    + by destruct (by_email_none _ _ _ _ Hnone H1).
Qed.

Section routes.
Context `{!Sessions.Crypto} {R : Type} `{!RedisLike R}.
Variables (cfg : Sessions.Settings) (service : string) (ttl : Z) (sha256_hex : string → string).
Variables (sign : AccessClaims → string) (otpauth : string → string → string) (created_at : uuid → Z)
  (providers : string → option OAuthProvider).
Implicit Types (s : R) (w : iddb * idworld) (p : AccessClaims).

Abbreviation api := (serve cfg service ttl sha256_hex sign otpauth created_at providers).
Abbreviation api_all := (serve_all cfg service ttl sha256_hex sign otpauth created_at providers).

Lemma get_me_answer p s d x : get_me created_at p s (d, x) =
  (match parse_uuid (c_user p) with
   | None => Raise (Idem.Action (PyError ValueError))
   | Some u => match users d !! u with
               | None => Raise (Idem.Action (AppError USER_NOT_FOUND))
               | Some r => Ok (200, _profile created_at p (r, list_memberships_for_user u d, negb (bool_decide (list_active_mfa u d = []))))
               end
   end, s, (d, x)).
Proof.
  unfold get_me, plain, action_of, request, uid_of, mbind, handler_bind. destruct (parse_uuid (c_user p)) as [u|]; [|done].
  unfold profile_of, Sessions.get_user, mbind, handler_bind, query. cbn [tx mret handler_ret fst snd]. by destruct (users d !! u).
Qed.

Lemma list_members_answer o p s d x : list_members_route o p s (d, x) =
  (match parse_uuid (c_user p), parse_uuid o with
   | None, _ => Raise (Idem.Action (PyError ValueError))
   | _, None => Raise (Idem.Action (AppError INVALID_PAYLOAD))
   | Some u, Some o => match require ((λ m, mkOrgRole (uuid_text m.1) m.2 None) <$> list_memberships_for_user u d) (uuid_text o) MEMBER_READ with
                       | Ok _ => Ok (200, items (MemberResponse o <$> list_members o d))
                       | Raise e => Raise (Idem.Action e)
                       end
   end, s, (d, x)).
Proof.
  unfold list_members_route, refused. destruct (parse_uuid (c_user p)) as [u|], (parse_uuid o) as [i|]; try done.
  unfold plain, action_of, request, Orgs.list_members_of, Orgs._actor_roles, mbind, handler_bind, query, lift. cbn [tx].
  by destruct (require _ _ _).
Qed.

Lemma list_sessions_answer now p s d x : list_sessions now p s (d, x) =
  (match parse_uuid (c_user p) with
   | None => Raise (Idem.Action (PyError ValueError))
   | Some u => Ok (200, items (SessionResponse (c_sid p) <$>
       filter (λ kv : uuid * SessionRow, s_revoked kv.2 = None ∧ now < s_expires kv.2) (list_sessions_for_user u d)))
   end, s, (d, x)).
Proof.
  unfold list_sessions, plain, action_of, request, uid_of, mbind, handler_bind. by destruct (parse_uuid (c_user p)).
Qed.

(** C20: no read answers from a secret.  Whatever a client reads - its profile, its
    organizations, their members and API keys, its sessions - the answer is the
    same on the database with every password hash, MFA secret, API-key hash,
    refresh-token and reset-token hash blanked; and a read changes nothing. *)
Theorem reads_hide_secrets (q : call) s (d : iddb) (x : idworld) (Hread : is_read q = true) :
  api q s (d, x) = ((api q s (hide d, x)).1.1, s, (d, x)).
Proof.
  destruct q; try discriminate Hread; cbn [serve].
  - rewrite !get_me_answer. cbn [fst users hide]. f_equal. f_equal. destruct (parse_uuid (c_user p)) as [u|]; [|done].
    rewrite lookup_fmap, list_active_mfa_hidden. destruct (users d !! u) as [r|]; [|done]. simpl.
    by destruct (list_active_mfa u d).
  - unfold list_api_keys, plain, action_of, request, uid_of, mbind, handler_bind.
    destruct (parse_uuid (c_user p)) as [u|]; [|done]. cbn -[list_memberships_for_user list_api_keys_for_org].
    change (list_memberships_for_user u (hide d)) with (list_memberships_for_user u d). by rewrite keys_hidden.
  - unfold list_orgs, plain, action_of, request, uid_of, mbind, handler_bind. by destruct (parse_uuid (c_user p)).
  - by rewrite !list_members_answer.
  - rewrite !list_sessions_answer. cbn [fst]. destruct (parse_uuid (c_user p)) as [u|]; [|done]. by rewrite sessions_hidden.
Qed.

(** ** The secret of an API key *)

Definition key_row (now : Z) (secret salt : string) (o : uuid) (q : IssueApiKeyRequest) : ApiKeyRow :=
  mkKey o (ik_name q) (Orgs.PREFIX +:+ text (take 8 (chars secret))) (Sessions.pw_hash salt (Orgs.PREFIX +:+ secret))
    (ik_scopes q) "ACTIVE" now None.

(** Whether a key is issued, and what happens besides its row, does not depend
    on the secret. *)
Lemma issue_for_run now k p o q d x : ∃ (r : result unit) (kind : string) (payload : json) (x' : idworld), ∀ secret salt,
  action_of (issue_for now k secret salt p o q) (d, x) =
    match r with
    | Raise e => (Raise e, (d, x))
    | Ok _ => (Ok (key_row now secret salt o q, Orgs.PREFIX +:+ secret),
               (add_event "api_key" (Some k) kind payload (on_api_keys (<[k := key_row now secret salt o q]>) d), x'))
    end.
Proof.
  unfold action_of, request, issue_for, uid_of, Orgs.issue, Orgs._actor_roles, publish, insert_api_key.
  destruct (parse_uuid (c_user p)) as [u|]; [|by exists (Raise (PyError ValueError)), "", JNull, x].
  unfold mbind, handler_bind, query, lift, try_write. cbn [tx mret handler_ret fst key_org].
  destruct (require _ _ _) as [role|e]; [|by exists (Raise e), "", JNull, x].
  destruct (validate_scopes role (ik_scopes q)) as [sc|e]; [|by exists (Raise e), "", JNull, x].
  destruct (bool_decide (is_Some _) || _); [by exists (Raise (PyError IntegrityError)), "", JNull, x|].
  by exists (Ok tt), API_KEY_ISSUED, (Orgs.key_payload uuid_text k o (ik_scopes q)),
    (mkIdWorld (published x ++ [(API_KEY_ISSUED, Orgs.key_payload uuid_text k o (ik_scopes q))]) (failures x)).
Qed.

Lemma fmap_insert_hidden k (r1 r2 : ApiKeyRow) d :
  hide_key r1 = hide_key r2 → hide (on_api_keys (<[k := r1]>) d) = hide (on_api_keys (<[k := r2]>) d).
Proof. intros Hr. unfold hide, on_api_keys. simpl. by rewrite !fmap_insert, Hr. Qed.

Lemma hide_event ty subject kind payload d : hide (add_event ty subject kind payload d) = add_event ty subject kind payload (hide d).
Proof. done. Qed.

(** C36: the secret of an API key is shown once.  The answer that creates a key
    carries it; a retry with the same Idempotency-Key, whatever new key it would
    have drawn, replays the same record with [full_key] null and issues nothing;
    and nothing kept of the request depends on the secret beyond its first eight
    characters: with another secret of the same prefix, the idempotency store is
    the same and the database differs in the key's hash only. *)
Theorem api_key_secret_shown_once (c c' : Idem.clock) (key : string) (now now' : Z) (k k' : uuid) (secret salt secret' salt' : string)
    p (b : json) (o : fields) s s1 w w1 (Hkey : truthy key = true)
    (Hfree : r_get (Idem.c_set c) (Idem._key service "issue_api_key" key) s = None)
    (Hissued : api (IssueKey c (Some key) now k secret salt p b) s w = (Ok (201, JObj o), s1, w1))
    (Hlater : Idem.c_set c' ≤ Idem.c_get c' ∧ Idem.c_done c ≤ Idem.c_get c' < Idem.c_done c + ttl) :
  field "full_key" o = Some (JStr (Orgs.PREFIX +:+ secret)) ∧
  (∃ o', api (IssueKey c' (Some key) now' k' secret' salt' p b) s1 w1 = (Ok (201, JObj o'), s1, w1) ∧
    field "full_key" o' = Some JNull ∧ ∀ f, f ≠ "full_key" → field f o' = field f o) ∧
  (take 8 (chars secret') = take 8 (chars secret) → ∃ r w2,
    api (IssueKey c (Some key) now k secret' salt' p b) s w = (Ok r, s1, w2) ∧ hide w2.1 = hide w1.1 ∧ w2.2 = w1.2).
Proof.
  destruct w as [d x]. cbn [serve] in *. unfold issue_api_key, with_body, with_uuid in *.
  destruct (parse_issue b) as [q|]; [|done]. destruct (parse_uuid (ik_org q)) as [i|]; [|done].
  set (fp := Fingerprint.fingerprint _ _) in *. rewrite Hkey, (Idem.begin_free _ _ _ _ _ _ _ fp s Hfree) in Hissued.
  destruct (issue_for_run now k p i q d x) as ([[]|e] & kind & payload & x' & Hrun); rewrite Hrun in Hissued; [|done].
  injection Hissued as <- <- <-. split_and!; [done| |].
  - set (row := key_row now secret salt i q). exists
      [("api_key_id", JStr (uuid_text k)); ("org_id", JStr (uuid_text (key_org row))); ("name", JStr (key_name row));
       ("prefix", JStr (prefix row)); ("full_key", JNull); ("scopes", JList (JStr <$> scopes row));
       ("status", JStr (key_status row)); ("created_at", JInt (key_created row))].
    split_and!; [|done|].
    + rewrite Hkey, (Idem.begin_completed service ttl _ _ _ _ key fp fp 201 (IssueApiKeyResponse k row None)) by
        (lia || apply Idem.complete_get; lia). by rewrite decide_True.
    + intros f Hf. by apply (field_other [_; _; _; _]).
  - intros Hp. rewrite Hkey, (Idem.begin_free _ _ _ _ _ _ _ fp s Hfree), Hrun.
    assert (Hb : IssueApiKeyResponse k (key_row now secret' salt' i q) None = IssueApiKeyResponse k (key_row now secret salt i q) None).
    { unfold IssueApiKeyResponse, key_row. cbn [prefix key_org key_name scopes key_status key_created]. by rewrite Hp. }
    do 2 eexists. rewrite Hb. split_and!; [done| |done].
    cbn [fst]. rewrite !hide_event. f_equal. apply fmap_insert_hidden. unfold hide_key, key_row. simpl. by rewrite Hp.
Qed.

(** ** Addresses stay normalised *)

(** One lemma per kind of write. *)
Ltac normal_write :=
  match goal with
  | |- normal (on_users (alter _ _) _) => by apply normal_alter
  | Hi : insert_user _ _ = Ok ?d |- normal ?d => by eapply normal_insert
  | Hi : _ = Ok ?d |- normal ?d =>
      cbv [insert_session insert_password_reset_token insert_oauth_identity insert_mfa_factor insert_org insert_membership
           insert_api_key] in Hi;
      case_match; [discriminate Hi|]; injection Hi as <-; normal_write
  | Hd : normal ?d |- normal _ => exact Hd
  end.

Lemma issue_keeps_emails now fr u agent ip e : stable normal (Sessions.issue uuid_text cfg now fr u agent ip e).
Proof. unfold Sessions.issue, Sessions._roles. stable_go; normal_write. Qed.

Lemma stable_uid p : stable normal (uid_of p).
Proof. unfold uid_of. stable_go. Qed.

Lemma stable_update u mail tel : (∀ e, mail = Some e → _norm_email e = Ok e) → stable normal (Sessions.update u mail tel).
Proof.
  intros Hm w0 Hdb Htx. unfold Sessions.update, Sessions.get_user. destruct mail as [e|].
  - wp_go; repeat match goal with Hb : bool_decide (is_Some _) = false |- _ => apply bool_decide_eq_false, eq_None_not_Some in Hb end;
      simpl; split; try done; repeat first [apply normal_alter; [done|] | by apply normal_with_email; [apply Hm| |] | done].
  - wp_go; simpl; split; try done; by apply normal_alter.
Qed.

Lemma keeps_issue c key now k secret salt p b :
  keeps normal (issue_api_key service ttl sha256_hex c key now k secret salt p b).
Proof.
  apply keeps_body. intros q _. apply keeps_uuid. intros o s w Hw.
  assert (Hs : stable normal (issue_for now k secret salt p o q)).
  { unfold issue_for, uid_of, Orgs.issue, Orgs._actor_roles, publish. stable_go; normal_write. }
  pose proof (keeps_action normal _ w Hs Hw) as Ha.
  pose proof (keeps_plain normal 201 (λ r, IssueApiKeyResponse k r.1 (Some r.2)) _ Hs s w Hw) as Hp. cbv zeta.
  destruct (action_of _ w) as [[[row full]|e] w']; repeat case_match; done.
Qed.

(** The address of a parsed body is normalised. *)
Lemma email_field_norm o v e : email_field o = Ok v → v = Some e → _norm_email e = Ok e.
Proof.
  unfold email_field. destruct (opt_str "email" o) as [[x|]|]; simpl; try (by intros [= <-]).
  destruct (_norm_email x) as [y|] eqn:E; [|done]. intros [= <-] [= ->]. by eapply norm_idem.
Qed.

Lemma parse_register_norm b q e : parse_register b = Ok q → rg_email q = Some e → _norm_email e = Ok e.
Proof.
  unfold parse_register. destruct (model b) as [o|]; [|done]. simpl. destruct (email_field o) as [v|] eqn:E; [|done]. simpl.
  destruct (opt_str _ _); [|done]. simpl. destruct (sized_str _ _ _ _); [|done]. simpl. destruct (check _); [|done].
  intros [= <-] He. by eapply email_field_norm.
Qed.

Lemma parse_update_norm b q e : parse_update b = Ok q → up_email q = Some e → _norm_email e = Ok e.
Proof.
  unfold parse_update. destruct (model b) as [o|]; [|done]. simpl. destruct (email_field o) as [v|] eqn:E; [|done]. simpl.
  destruct (opt_str _ _); [|done]. intros [= <-] He. by eapply email_field_norm.
Qed.

Ltac service_stable :=
  unfold profile_of, roles_of, Sessions.register, Sessions.login, Sessions.rotate, Sessions.logout, Sessions.revoke, Sessions.request_password_reset,
    Sessions.confirm_password_reset, Sessions.enroll, Sessions.verify, Sessions.disable, Sessions.revoke_all, Sessions._revoke_family,
    Sessions.second_factor, Sessions.is_required, Sessions.verify_login, Sessions._lookup, Sessions._record_failure,
    Sessions.record_failed, Sessions.reset_failures, Sessions.get_user, Sessions.list_active,
    start_authorization, Orgs.create, Orgs.add_member, Orgs.find_target, Orgs.list_for_user, Orgs.list_members_of,
    Orgs.remove_member, Orgs.list_for_actor, Orgs.revoke, Orgs._actor_roles, publish;
  stable_go; first [apply stable_uid | apply issue_keeps_emails | normal_write].

(** What the providers answer is a normalised address. *)
Definition normal_providers : Prop := ∀ provider pr code state uri ident e,
  providers provider = Some pr → exchange_code pr code state uri = Some ident → Sessions.o_email ident = Some e → _norm_email e = Ok e.

Lemma stable_callback now fr u ex agent ip :
  (∀ ident e, ex = Some (Some ident) → Sessions.o_email ident = Some e → _norm_email e = Ok e) →
  stable normal (Sessions.oauth_callback uuid_text cfg now fr u ex agent ip).
Proof.
  intros He. unfold Sessions.oauth_callback, Sessions.resolve_account, publish.
  stable_go; try first [apply issue_keeps_emails | normal_write].
  match goal with Hi : insert_user _ _ = Ok _ |- _ => eapply normal_insert; [|done|exact Hi] end.
  intros e. simpl. case_bool_decide; [done|]. by apply He.
Qed.

Lemma keeps_serve q : normal_providers → keeps normal (api q).
Proof.
  intros Hprov. destruct q; cbn [serve]; try (apply keeps_issue).
  - apply keeps_body. intros q Hq. apply keeps_idempotent. unfold Sessions.register, publish. stable_go; try normal_write.
    match goal with Hi : insert_user _ _ = Ok _ |- _ => eapply normal_insert; [|done|exact Hi] end.
    intros e. by apply (parse_register_norm b).
  - apply keeps_body. intros q _. apply keeps_plain. service_stable.
  - apply keeps_body. intros q _. apply keeps_plain. service_stable.
  - apply keeps_body. intros q _. apply keeps_idempotent. service_stable.
  - apply keeps_body. intros q _. apply keeps_plain. service_stable.
  - apply keeps_body. intros q _. apply keeps_plain. service_stable.
  - apply keeps_body. intros q _. apply keeps_plain. service_stable.
  - apply keeps_body. intros q _. apply keeps_idempotent, stable_callback.
    intros ident e (pr & Hpr & Hex)%fmap_Some. by apply (Hprov provider pr (oc_code q) (oc_state q) (oc_redirect q)).
  - apply keeps_plain. service_stable.
  - apply keeps_body. intros q _. apply keeps_idempotent. service_stable.
  - apply keeps_body. intros q _. apply keeps_idempotent. service_stable.
  - apply keeps_plain. service_stable.
  - apply keeps_body. intros q Hq s w Hw. destruct (parse_uuid (c_user p)) as [u|]; [|done].
    apply keeps_idempotent; [|done]. apply stable_bind; [|intros _; service_stable].
    apply stable_update. intros e. by apply (parse_update_norm b).
  - apply keeps_plain. service_stable.
  - apply keeps_uuid. intros k. apply keeps_idempotent. service_stable.
  - apply keeps_body. intros q _. apply keeps_idempotent. service_stable.
  - apply keeps_plain. service_stable.
  - apply keeps_body. intros q _. apply keeps_uuid. intros o. cbv zeta.
    destruct (am_user q) as [v|]; [destruct (truthy v); [apply keeps_uuid; intros t|]|]; apply keeps_idempotent; service_stable.
  - intros s w Hw. unfold list_members_route. repeat case_match; try done. apply keeps_plain; [service_stable|done].
  - apply keeps_uuid. intros o. apply keeps_uuid. intros t. apply keeps_idempotent. service_stable.
  - apply keeps_plain. service_stable.
  - apply keeps_uuid. intros i. apply keeps_idempotent. service_stable.
Qed.

Lemma keeps_serve_all qs s w : normal_providers → normal w.1 → normal (api_all qs s w).2.1.
Proof.
  intros Hprov. revert s w. induction qs as [|q qs IH]; intros s w Hw; [done|]. cbn [serve_all].
  pose proof (keeps_serve q Hprov s w Hw) as Hq. destruct (api q s w) as [[a s1] w1].
  pose proof (IH s1 w1 Hq) as Hr. by destruct (api_all qs s1 w1) as [[l s2] w2].
Qed.

(** e-mail addresses identify accounts.  Where the OAuth providers answer
    normalised addresses, after any requests to the API no two accounts have
    addresses that differ in letter case or surrounding blanks only, and every
    stored address is of the accepted form. *)
Theorem emails_stay_distinct (qs : list call) s w (Hproviders : normal_providers) (Hstart : normal w.1) :
  let d := (api_all qs s w).2.1 in
  ∀ u1 u2 r1 r2 e1 e2, users d !! u1 = Some r1 → users d !! u2 = Some r2 → email r1 = Some e1 → email r2 = Some e2 →
    _EMAIL_RE e1 = true ∧ (lower (strip e1) = lower (strip e2) → u1 = u2).
Proof.
  intros d u1 u2 r1 r2 e1 e2 H1 H2 He1 He2. destruct (keeps_serve_all qs s w Hproviders Hstart) as [Hn Hu].
  assert (Hnorm : ∀ u r e, users d !! u = Some r → email r = Some e → lower (strip e) = e ∧ _EMAIL_RE e = true).
  { intros u r e Hr He. destruct (Hn u r Hr) as [_ Hf]. specialize (Hf e He). unfold _norm_email in Hf.
    destruct (_EMAIL_RE _) eqn:E; [|done]. injection Hf as Hf. by rewrite Hf in E. }
  destruct (Hnorm _ _ _ H1 He1) as [Hl1 Hre], (Hnorm _ _ _ H2 He2) as [Hl2 _]. split; [done|].
  rewrite Hl1, Hl2. intros ->. by eapply Hu.
Qed.

(** ** Registering and logging in *)

Definition register_body (e pw : string) : json := JObj [("email", JStr e); ("password", JStr pw)].

Lemma parse_register_email e v pw : _norm_email e = Ok v → v ≠ "" → (8 ≤ String.length pw ≤ 256)%nat →
  parse_register (register_body e pw) = Ok (mkRegister (Some v) None pw).
Proof.
  intros He Hv Hpw. unfold parse_register, register_body, email_field, opt_str, sized_str, req_str, field. simpl.
  rewrite He. simpl. unfold sized. rewrite !(proj2 (Nat.leb_le _ _)) by lia. simpl. unfold truthy.
  by rewrite bool_decide_true.
Qed.

Lemma parse_login_email e v pw : _norm_email e = Ok v → v ≠ "" →
  parse_login (register_body e pw) = Ok (mkLogin v pw None).
Proof.
  intros He Hv. unfold parse_login, register_body, email_field, opt_str, sized_str, req_str, field. simpl.
  rewrite He. simpl. unfold exactly_one, identifier, str_or, otruthy, truthy. by rewrite bool_decide_true.
Qed.

Lemma norm_has_at e v : _norm_email e = Ok v → has_char "@"%char v = true ∧ v ≠ "".
Proof.
  unfold _norm_email. destruct (_EMAIL_RE _) eqn:E; [|done]. intros [= <-]. unfold _EMAIL_RE in E.
  destruct (cut_chars _ _) as [[a b]|] eqn:Ec; [|done]. unfold has_char.
  assert (Hin : "@"%char ∈ chars (lower (strip e))).
  { destruct (decide ("@"%char ∈ chars (lower (strip e)))) as [|Hni]; [done|]. apply cut_chars_none in Hni. congruence. }
  split; [by apply bool_decide_true|]. intros Hv. rewrite Hv in Hin. by apply elem_of_nil in Hin.
Qed.

(** The account a registration creates. *)
Definition new_user (u : uuid) (v pw salt : string) : UserRow :=
  mkUser u (Some v) None (Some (Sessions.pw_hash salt pw)) 0 (user_status ACTIVE) None.

Definition registered (u : uuid) (v pw salt : string) (w : iddb * idworld) : iddb * idworld :=
  (add_event "user" (Some u) USER_REGISTERED (Sessions.user_payload uuid_text u) (on_users (<[u := new_user u v pw salt]>) w.1),
   mkIdWorld (published w.2 ++ [(USER_REGISTERED, Sessions.user_payload uuid_text u)]) (failures w.2)).

Lemma register_run u v pw salt w :
  v ≠ "" → get_user_by_email v w.1 = None → users w.1 !! u = None →
  action_of (Sessions.register uuid_text u (Some v) None salt pw) w = (Ok (new_user u v pw salt), registered u v pw salt w).
Proof.
  intros Hv Hfree Hu. unfold action_of, request, Sessions.register, mbind, handler_bind, query. cbn [tx default id].
  rewrite Hfree, bool_decide_eq_false_2, andb_false_r by by intros [].
  unfold try_write, insert_user. cbn [tx user_id email phone taken otruthy andb].
  by rewrite Hu, Hfree, !bool_decide_eq_false_2 by by intros [].
Qed.

Lemma register_taken u v pw salt w r :
  v ≠ "" → get_user_by_email v w.1 = Some r →
  action_of (Sessions.register uuid_text u (Some v) None salt pw) w = (Raise (AppError EMAIL_TAKEN), w).
Proof.
  intros Hv Hr. unfold action_of, request, Sessions.register, mbind, handler_bind, query, otruthy, truthy. cbn [tx default id].
  rewrite Hr, !bool_decide_true by done. by destruct w.
Qed.

Lemma register_normal u v pw salt w :
  _norm_email v = Ok v → get_user_by_email v w.1 = None → users w.1 !! u = None → normal w.1 → normal (registered u v pw salt w).1.
Proof.
  intros Hv Hfree Hu Hw. apply (normal_users (on_users (<[u := new_user u v pw salt]>) w.1)); [done|].
  eapply (normal_insert (new_user u v pw salt)); [|exact Hw|]; [by intros ? [= <-]|].
  unfold insert_user. simpl. by rewrite Hu, Hfree, !bool_decide_eq_false_2 by by intros [].
Qed.

(** A password login of an active account without a second factor. *)
Lemma login_run now fr v pw agent ip w u user h :
  has_char "@"%char v = true → get_user_by_email v w.1 = Some user → user_id user = u → users w.1 !! u = Some user →
  password_hash user = Some h → Sessions.pw_verify h pw = true → status user = user_status ACTIVE → list_active_mfa u w.1 = [] →
  sessions w.1 !! Sessions.f_sid fr = None → get_session_by_refresh_hash (Sessions.sha256 (Sessions.f_token fr)) w.1 = None →
  ∃ t w2, action_of (Sessions.login uuid_text cfg now fr v pw None agent ip) w = (Ok t, w2) ∧
    c_user (access_token t) = uuid_text u ∧ c_mfa (access_token t) = false ∧ refresh_token t = Sessions.f_token fr.
Proof.
  intros Hat Hfind Hid Hu Hh Hv Hst Hmfa Hsid Htok. unfold action_of, request, Sessions.login, Sessions._lookup. rewrite Hat.
  unfold mbind, handler_bind, query. cbn [tx]. rewrite Hfind, Hh, Hv, Hst. cbn [negb].
  rewrite bool_decide_eq_false_2 by by intros []. rewrite Hid.
  unfold Sessions.second_factor, Sessions.is_required, mbind, handler_bind, query. cbn [tx]. rewrite Hmfa. cbn.
  unfold Sessions.issue, try_write, insert_session, mbind, handler_bind. cbn -[get_session_by_refresh_hash].
  rewrite Hid, lookup_alter_eq, Hu, Hsid.
  unfold get_session_by_refresh_hash in *. cbn. rewrite Htok, !bool_decide_eq_false_2 by (by intros []). cbn.
  by do 2 eexists.
Qed.

(** registering and logging in.  A registration with a free address creates
    the account; then a login with the password it chose and any spelling of the
    address (letter case and surrounding blanks do not count) is answered with
    tokens for that account, and registering any spelling of the address again
    is refused. *)
Theorem registered_account_logs_in (c : Idem.clock) (e v pw salt : string) (u : uuid) (now : Z) (fr : Sessions.Fresh)
    (agent ip : option string) s w
    (Hargon : Sessions.pw_verify (Sessions.pw_hash salt pw) pw = true) (Hnorm : _norm_email e = Ok v)
    (Hpw : (8 ≤ String.length pw ≤ 256)%nat) (Hnormal : normal w.1) (Hfree : get_user_by_email v w.1 = None)
    (Hid : users w.1 !! u = None) (Hmfa : list_active_mfa u w.1 = []) (Hsid : sessions w.1 !! Sessions.f_sid fr = None)
    (Htok : get_session_by_refresh_hash (Sessions.sha256 (Sessions.f_token fr)) w.1 = None) :
  ∃ w1, api (Register c None u salt (register_body e pw)) s w = (Ok (201, RegisterResponse (new_user u v pw salt)), s, w1) ∧
    ∀ e', _norm_email e' = Ok v →
      (∃ t w2, api (Login now fr agent ip (register_body e' pw)) s w1 = (Ok (200, _tokens sign t), s, w2) ∧
        c_user (access_token t) = uuid_text u ∧ c_mfa (access_token t) = false ∧ refresh_token t = Sessions.f_token fr) ∧
      ∀ c' u' salt' pw', (8 ≤ String.length pw' ≤ 256)%nat →
        api (Register c' None u' salt' (register_body e' pw')) s w1 = (Raise (Idem.Action (AppError EMAIL_TAKEN)), s, w1).
Proof.
  destruct (norm_has_at _ _ Hnorm) as [Hat Hv]. exists (registered u v pw salt w). cbn [serve].
  unfold register, with_body, idempotent, Idem.idempotent_route. rewrite (parse_register_email e v) by done.
  cbn [rg_email rg_phone rg_password]. rewrite register_run by done. split; [done|]. intros e' He'.
  assert (Hreg : users (registered u v pw salt w).1 !! u = Some (new_user u v pw salt)) by apply lookup_insert_eq.
  assert (Hfind : get_user_by_email v (registered u v pw salt w).1 = Some (new_user u v pw salt)).
  { apply (by_email_unique v _ u); [|done|done]. apply register_normal; try done. by eapply norm_idem. }
  split.
  - unfold login, with_body, plain. rewrite (parse_login_email e' v) by done. cbn [lg_identifier lg_password lg_code].
    destruct (login_run now fr v pw agent ip (registered u v pw salt w) u (new_user u v pw salt) (Sessions.pw_hash salt pw))
      as (t & w2 & -> & ?); try done. by exists t, w2.
  - intros c' u' salt' pw' Hpw'. rewrite (parse_register_email e' v) by done. cbn [rg_email rg_phone rg_password].
    by rewrite (register_taken u' v pw' salt' _ _ Hv Hfind).
Qed.

(** ** Replays and principals *)

(** The keyed routes whose payload does not name the principal, with the name
    of the route and its key. *)
Definition anonymous (q : call) : option (Idem.clock * string * string) :=
  match q with
  | Logout c (Some key) _ _ _ => Some (c, "logout", key)
  | RevokeKey c (Some key) _ _ _ => Some (c, "revoke_api_key", key)
  | AddMember c (Some key) _ _ _ => Some (c, "add_member", key)
  | RemoveMember c (Some key) _ _ _ => Some (c, "remove_member", key)
  | RevokeSession c (Some key) _ _ _ => Some (c, "revoke_session", key)
  | _ => None
  end.

(** The same request, later and from another principal. *)
Definition by_another (c' : Idem.clock) (p' : AccessClaims) (q : call) : call :=
  match q with
  | Logout _ key now _ b => Logout c' key now p' b
  | RevokeKey _ key now i _ => RevokeKey c' key now i p'
  | AddMember _ key o _ b => AddMember c' key o p' b
  | RemoveMember _ key o u _ => RemoveMember c' key o u p'
  | RevokeSession _ key now i _ => RevokeSession c' key now i p'
  | q => q
  end.

(** a replay is not tied to the caller.  When a request to log out, to revoke
    a key or a session, or to add or remove a member has succeeded under an
    Idempotency-Key, anyone else who repeats the request with that key is answered
    as the first caller was - no role in the organization is asked for - and
    nothing changes. *)
Theorem replay_ignores_principal (q : call) (c c' : Idem.clock) (route key : string) (r : Z * json) s s1 w w1
    (Hq : anonymous q = Some (c, route, key)) (Hkey : truthy key = true)
    (Hfree : r_get (Idem.c_set c) (Idem._key service route key) s = None) (Hdone : api q s w = (Ok r, s1, w1))
    (Hlater : Idem.c_set c' ≤ Idem.c_get c' ∧ Idem.c_done c ≤ Idem.c_get c' < Idem.c_done c + ttl) :
  ∀ p' w', api (by_another c' p' q) s1 w' = (Ok r, s1, w').
Proof.
  intros p' w'. destruct q; try done; destruct key0; try done; injection Hq as -> <- ->; revert Hdone; cbn [serve by_another];
    unfold logout, revoke_api_key, add_member, remove_member, revoke_session, with_body, with_uuid.
  - destruct (parse_refresh b); [|done]. by apply idempotent_replay.
  - destruct (parse_uuid api_key_id); [|done]. by apply idempotent_replay.
  - destruct (parse_add_member b) as [q|]; [|done]. destruct (parse_uuid org_id); [|done].
    destruct (am_user q) as [v|]; [destruct (truthy v); [destruct (parse_uuid v); [|done]|]|]; by apply idempotent_replay.
  - destruct (parse_uuid org_id); [|done]. destruct (parse_uuid member_id); [|done]. by apply idempotent_replay.
  - destruct (parse_uuid session_id); [|done]. by apply idempotent_replay.
Qed.
End routes.

(** ** Concrete runs *)

#[local] Existing Instance Sessions.demo_crypto.

Abbreviation demo_api := (serve (R := gmap_redis) Sessions.demo_cfg "identity" 86400 (λ t, t) c_jti (λ sec acc, sec) (λ _, 0)
  (build_oauth_resolver (λ t, t) true (λ _, None))).
Abbreviation demo_all := (serve_all (R := gmap_redis) Sessions.demo_cfg "identity" 86400 (λ t, t) c_jti (λ sec acc, sec) (λ _, 0)
  (build_oauth_resolver (λ t, t) true (λ _, None))).

Definition demo_who (u : uuid) (sid : uuid) : AccessClaims := mkClaims (uuid_text u) [] ["payer"] 0 "j" (uuid_text sid) false ["pwd"] 0 10.
Definition demo_fresh (n : uuid) : Sessions.Fresh := Sessions.mkFresh n ("tok" +:+ uuid_text n) "jti".

(** Two accounts, a login, an organization with an API key. *)
Definition demo_calls : list call :=
  [Register (Idem.demo_clock 0) None 1%N "s" (register_body " Ann@X.io" "password1");
   Register (Idem.demo_clock 0) None 2%N "s" (register_body "bob@x.io" "password2");
   Login 5 (demo_fresh 20%N) None None (register_body "ann@x.io " "password1");
   CreateOrg (Idem.demo_clock 6) None 6 10%N (demo_who 1 20) (JObj [("name", JStr "Shop"); ("type", JStr "merchant")]);
   IssueKey (Idem.demo_clock 7) None 7 30%N "abcdefghijkl" "s" (demo_who 1 20)
     (JObj [("org_id", JStr (uuid_text 10)); ("name", JStr "till"); ("scopes", JList [JStr "paylinks:read"])])].

Definition demo_run := Eval vm_compute in demo_all demo_calls ∅ Sessions.empty_id.
Definition demo_world : iddb * idworld := demo_run.2.

Lemma reads_hide_secrets_witness :
  (demo_api (ListKeys (demo_who 1 20)) ∅ demo_world).1.1 = (demo_api (ListKeys (demo_who 1 20)) ∅ (hide demo_world.1, demo_world.2)).1.1 ∧
  api_keys (hide demo_world.1) !! 30%N ≠ api_keys demo_world.1 !! 30%N ∧ demo_run.1.1 !! 4%nat ≠ None.
Proof.
  split_and!; [|by vm_compute..].
  exact (f_equal (λ r, r.1.1) (reads_hide_secrets (R := gmap_redis) Sessions.demo_cfg "identity" 86400 (λ t, t) c_jti (λ sec acc, sec)
    (λ _, 0) (build_oauth_resolver (λ t, t) true (λ _, None)) (ListKeys (demo_who 1 20)) ∅ demo_world.1 demo_world.2 eq_refl)).
Defined.

Definition demo_issue (secret : string) : call :=
  IssueKey (Idem.demo_clock 8) (Some "k1") 8 31%N secret "s" (demo_who 1 20)
    (JObj [("org_id", JStr (uuid_text 10)); ("name", JStr "till 2"); ("scopes", JList [JStr "payments:read"])]).

Lemma api_key_secret_shown_once_witness : ∃ o s1 w1,
  demo_api (demo_issue "0123456789") ∅ demo_world = (Ok (201, JObj o), s1, w1) ∧
  field "full_key" o = Some (JStr "lm_live_0123456789") ∧
  ∃ o', demo_api (IssueKey (Idem.demo_clock 9) (Some "k1") 9 32%N "other" "s" (demo_who 1 20)
    (JObj [("org_id", JStr (uuid_text 10)); ("name", JStr "till 2"); ("scopes", JList [JStr "payments:read"])])) s1 w1 =
      (Ok (201, JObj o'), s1, w1) ∧ field "full_key" o' = Some JNull.
Proof.
  assert (Hok : (demo_api (demo_issue "0123456789") ∅ demo_world).1.1 = Ok (201, IssueApiKeyResponse 31
    (key_row 8 "0123456789" "s" 10 (mkIssue (uuid_text 10) "till 2" ["payments:read"])) (Some "lm_live_0123456789"))) by by vm_compute.
  destruct (demo_api (demo_issue "0123456789") ∅ demo_world) as [[a s1] w1] eqn:E. cbn [fst] in Hok.
  assert (Ho : ∃ o, a = Ok (201, JObj o)) by (rewrite Hok; unfold IssueApiKeyResponse; by eexists). clear Hok.
  destruct Ho as [o ->]. exists o, s1, w1. split; [done|].
  destruct (api_key_secret_shown_once (R := gmap_redis) Sessions.demo_cfg "identity" 86400 (λ t, t) c_jti (λ sec acc, sec)
    (λ _, 0) (build_oauth_resolver (λ t, t) true (λ _, None)) (Idem.demo_clock 8) (Idem.demo_clock 9) "k1" 8 9 31%N 32%N "0123456789" "s"
    "other" "s" _ _ o ∅ s1 demo_world w1 eq_refl ltac:(by vm_compute) E) as (Hf & (o' & Hr & Hn & _) & _); [simpl; lia|].
  split; [exact Hf|]. exists o'. by split.
Defined.

Lemma fake_providers_normal : normal_providers (build_oauth_resolver (λ _, "ab") true (λ _, None)).
Proof.
  intros provider pr code state uri ident e. unfold build_oauth_resolver. case_bool_decide as Hp; [|done]. intros [= <-].
  simpl. destruct (truthy code); [|done]. intros [= <-]. simpl. intros [= <-].
  repeat (apply elem_of_cons in Hp as [->|Hp]; [by vm_compute|]). by apply elem_of_nil in Hp.
Qed.

Lemma empty_normal : normal Sessions.empty_id.1.
Proof.
  split; [apply map_Forall_empty|]. intros u1 u2 r1 r2 e H1. by destruct (lookup_empty_Some (M := gmap uuid) u1 r1).
Qed.

Definition demo_signups : list call :=
  [Register (Idem.demo_clock 0) None 1%N "s" (register_body " Ann@X.io" "password1");
   Register (Idem.demo_clock 0) None 2%N "s" (register_body "ANN@x.io" "password2");
   Register (Idem.demo_clock 0) None 3%N "s" (register_body "bob@x.io" "password2");
   UpdateMe (Idem.demo_clock 1) None (demo_who 3 20) (JObj [("email", JStr "aNN@x.io")]);
   OAuthCallback (Idem.demo_clock 2) None 2 (demo_fresh 21%N) 4%N "google" None None (JObj [("code", JStr "c")])].

Abbreviation normal_run providers := (serve_all (R := gmap_redis) Sessions.demo_cfg "identity" 86400 (λ t, t) c_jti (λ sec acc, sec) (λ _, 0)
  providers demo_signups ∅ Sessions.empty_id).

Lemma emails_stay_distinct_witness :
  let d := (normal_run (build_oauth_resolver (λ _, "ab") true (λ _, None))).2.1 in
  (email <$> (map_to_list (users d)).*2) = [Some "ab@fake-google.local"; Some "bob@x.io"; Some "ann@x.io"] ∧
  ∀ u2 r2 e2, users d !! u2 = Some r2 → email r2 = Some e2 → lower (strip e2) = "ann@x.io" → u2 = 1%N.
Proof.
  split; [by vm_compute|]. intros u2 r2 e2 H2 He2 Hl. symmetry.
  refine (proj2 (emails_stay_distinct (R := gmap_redis) Sessions.demo_cfg "identity" 86400 (λ t, t) c_jti (λ sec acc, sec) (λ _, 0)
    (build_oauth_resolver (λ _, "ab") true (λ _, None)) demo_signups ∅ Sessions.empty_id fake_providers_normal empty_normal
    1%N u2 (new_user 1 "ann@x.io" "password1" "s") r2 "ann@x.io" e2 _ H2 _ He2) _); [by vm_compute|done|by rewrite Hl].
Defined.

(** A provider that answers an address as the user once typed it: the same
    mailbox ends up with two accounts. *)
Lemma oauth_duplicates_mailbox :
  let google := mkProvider (λ st _, mkAuthorize "" st) (λ _ _ _, Some (Sessions.mkOAuth "google" "sub" (Some "Ann@x.io"))) in
  (email <$> (map_to_list (users (normal_run (λ p, if bool_decide (p = "google") then Some google else None)).2.1)).*2) =
    [Some "Ann@x.io"; Some "bob@x.io"; Some "ann@x.io"].
Proof. by vm_compute. Qed.

Lemma registered_account_logs_in_witness : ∃ w1 t w2,
  demo_api (Register (Idem.demo_clock 0) None 1%N "s" (register_body "Ann@x.io" "password1")) ∅ Sessions.empty_id =
    (Ok (201, RegisterResponse (new_user 1 "ann@x.io" "password1" "s")), ∅, w1) ∧
  demo_api (Login 5 (demo_fresh 20%N) None None (register_body " ann@X.IO " "password1")) ∅ w1 = (Ok (200, _tokens c_jti t), ∅, w2) ∧
  c_user (access_token t) = uuid_text 1%N.
Proof.
  destruct (registered_account_logs_in (R := gmap_redis) Sessions.demo_cfg "identity" 86400 (λ t, t) c_jti (λ sec acc, sec) (λ _, 0)
    (build_oauth_resolver (λ t, t) true (λ _, None)) (Idem.demo_clock 0) "Ann@x.io" "ann@x.io" "password1" "s" 1%N 5 (demo_fresh 20%N)
    None None ∅ Sessions.empty_id) as (w1 & Hr & Hl); [by vm_compute|by vm_compute|simpl; lia|apply empty_normal|by vm_compute..|].
  destruct (Hl " ann@X.IO ") as [(t & w2 & Ht & Hu & _) _]; [by vm_compute|]. by exists w1, t, w2.
Defined.

Definition demo_add : call := AddMember (Idem.demo_clock 8) (Some "k2") (uuid_text 10) (demo_who 1 20)
  (JObj [("email", JStr "bob@x.io"); ("role", JStr "admin")]).

(** A stranger to the shop is told that the member was added. *)
Lemma replay_ignores_principal_witness : ∃ r s1 w1,
  demo_api demo_add ∅ demo_world = (Ok r, s1, w1) ∧
  demo_api (AddMember (Idem.demo_clock 9) (Some "k2") (uuid_text 10) (demo_who 99 0)
    (JObj [("email", JStr "bob@x.io"); ("role", JStr "admin")])) s1 w1 = (Ok r, s1, w1).
Proof.
  assert (Hok : is_ok (demo_api demo_add ∅ demo_world).1.1 = true) by by vm_compute.
  destruct (demo_api demo_add ∅ demo_world) as [[[r|e] s1] w1] eqn:E; [|discriminate Hok].
  exists r, s1, w1. split; [done|].
  refine (replay_ignores_principal (R := gmap_redis) Sessions.demo_cfg "identity" 86400 (λ t, t) c_jti (λ sec acc, sec) (λ _, 0)
    (build_oauth_resolver (λ t, t) true (λ _, None)) demo_add (Idem.demo_clock 8) (Idem.demo_clock 9) "add_member" "k2" r ∅ s1 demo_world w1
    eq_refl eq_refl ltac:(by vm_compute) E _ (demo_who 99 0) w1). simpl. lia.
Defined.
End ApiFacts.
