(* ===== verification/Tokens.v ===== *)
(** * Access tokens: what identity-service signs and every service reads

    [security/jwt.py] and [deps.py] ([get_principal]) of identity-service,
    admin-backoffice, merchant-onboarding, fee-pricing-service, compliance-risk and
    invoice-subscription.  PyJWT is the class [PyJwt] with its documented behaviour as
    [PyJwtLaws]; the services differ in whether they keep the MFA claims and the
    organization types, and in whether they insist on an expiry. *)
From S2P Require Import Prelude PyText PyJson PyNum Fingerprint UnitOfWork Tables IdentityDb Sessions Chain.
From Stdlib Require Import Ascii.

Module Tokens.
Import PyNum Identity.
Open Scope Z_scope.

Abbreviation jfind := Chain.jfind.
Abbreviation payload := (list (string * json)).

(** ** PyJWT *)

(** [InvalidTokenError] stands for every subclass but [ExpiredSignatureError]. *)
Inductive jwt_error := ExpiredSignatureError | InvalidTokenError.

(** [jwt.encode] with a private key and a [kid] header, and [jwt.decode] with a public key, an
    audience, an issuer, whether [exp] is required, and the time. *)
Class PyJwt := {
  jwt_encode : string → string → payload → string;
  jwt_decode : string → string → string → bool → Z → string → outcome jwt_error payload }.

Definition started (now : Z) (p : payload) : Prop :=
  ∃ i n, jfind "iat" p = Some (JInt i) ∧ jfind "nbf" p = Some (JInt n) ∧ i ≤ now ∧ n ≤ now.

Definition expires (p : payload) (e : Z) : Prop := jfind "exp" p = Some (JInt e).

Definition for_us (aud iss : string) (p : payload) : Prop :=
  jfind "aud" p = Some (JStr aud) ∧ jfind "iss" p = Some (JStr iss).

(** A dictionary whose registered claims have the types PyJWT asks for. *)
Definition claims_typed (p : payload) : Prop :=
  Fingerprint.distinct_keys (JObj p) = true ∧ (∃ s, jfind "sub" p = Some (JStr s)) ∧ (∃ s, jfind "jti" p = Some (JStr s)) ∧
  (∃ a, jfind "aud" p = Some (JStr a)) ∧ (∃ i, jfind "iss" p = Some (JStr i)).

Class PyJwtLaws `{!PyJwt} (keypair : string → string → Prop) := {
  decode_valid priv pub kid aud iss req now p e : keypair priv pub → claims_typed p → started now p → expires p e → now < e →
    for_us aud iss p → jwt_decode pub aud iss req now (jwt_encode priv kid p) = Ok p;
  decode_expired priv pub kid aud iss req now p e : keypair priv pub → claims_typed p → started now p → expires p e → e ≤ now →
    jwt_decode pub aud iss req now (jwt_encode priv kid p) = Raise ExpiredSignatureError;
  decode_foreign priv pub kid aud iss req now p e : keypair priv pub → claims_typed p → started now p → expires p e → now < e →
    ¬ for_us aud iss p → jwt_decode pub aud iss req now (jwt_encode priv kid p) = Raise InvalidTokenError;
  decode_signed pub aud iss req now t p : jwt_decode pub aud iss req now t = Ok p →
    ∃ priv kid, keypair priv pub ∧ t = jwt_encode priv kid p ∧ (req = true → is_Some (jfind "exp" p)) ∧ ∀ e, expires p e → now < e;
  token_text priv kid p : jwt_encode priv kid p ≠ "" ∧ Forall (λ c, is_space c = false) (chars (jwt_encode priv kid p)) }.

(** ** identity-service: the payload of [JwtIssuer.issue_access] *)

Definition role_claim (r : OrgRole) : json :=
  JObj ([("org_id", JStr (or_org r)); ("role", JStr (or_role r))] ++ match or_type r with Some t => [("type", JStr t)] | None => [] end).

Definition access_payload (iss aud : string) (c : AccessClaims) : payload :=
  [("sub", JStr (c_user c)); ("iss", JStr iss); ("aud", JStr aud); ("iat", JInt (c_iat c)); ("nbf", JInt (c_iat c));
   ("exp", JInt (c_exp c)); ("jti", JStr (c_jti c)); ("sid", JStr (c_sid c)); ("roles", JList (role_claim <$> c_roles c));
   ("user_roles", JList (JStr <$> c_user_roles c)); ("kyc_tier", JInt (c_kyc_tier c)); ("mfa", JBool (c_mfa c));
   ("amr", JList (JStr <$> c_amr c))].

(** ** [JwtVerifier.verify] *)

Inductive auth_error := UNAUTHORIZED | INVALID_TOKEN | TOKEN_EXPIRED.

Definition as_py {A} (o : outcome pyerr A) : outcome (exn auth_error) A :=
  match o with Ok a => Ok a | Raise e => Raise (PyError e) end.

(** One element of the claim [roles]; [typed]: the service keeps the organization type. *)
Definition org_role_claim (typed : bool) (r : json) : option OrgRole :=
  match r with
  | JObj o =>
      match jfind "org_id" o, jfind "role" o with
      | Some i, Some ro =>
          let t := Chain.jfield_or "type" JNull o in
          Some (mkOrgRole (py_str i) (py_str ro) (if typed && jtruthy t then Some (py_str t) else None))
      | _, _ => None
      end
  | _ => None
  end.

Definition texts (j : json) : outcome pyerr (list string) :=
  let? l := py_iter j in Ok (py_str <$> l).

(** The time claims are kept for [Sessions]; no service reads them back. *)
Definition time_claim (k : string) (p : payload) : Z := match jfind k p with Some (JInt z) => z | _ => 0 end.

(** The claims of a decoded payload; [full]: with [mfa], [amr] and the organization types. *)
Definition claims_of (full : bool) (p : payload) : outcome pyerr AccessClaims :=
  let? rs := py_iter (Chain.jfield_or "roles" (JList []) p) in
  let roles := omap (org_role_claim full) rs in
  let? sub := Chain.jfield "sub" p in
  let? user_roles := texts (Chain.jfield_or "user_roles" (JList []) p) in
  let? tier := Chain.py_int (Chain.jfield_or "kyc_tier" (JInt 0) p) in
  let? amr := if full then texts (Chain.jfield_or "amr" (JList []) p) else Ok [] in
  Ok (mkClaims (py_str sub) roles user_roles tier (py_str (Chain.jfield_or "jti" (JStr "") p)) (py_str (Chain.jfield_or "sid" (JStr "") p))
    (full && jtruthy (Chain.jfield_or "mfa" (JBool false) p)) amr (time_claim "iat" p) (time_claim "exp" p)).

(** A service's verifier: its public key, audience and issuer at a time. *)
Record Verifier := mkVerifier { public_pem : string; v_audience : string; v_issuer : string }.

Section verifier.
Context `{!PyJwt}.

Definition verify_with (require_exp full : bool) (v : Verifier) (now : Z) (token : string) : outcome (exn auth_error) AccessClaims :=
  match jwt_decode (public_pem v) (v_audience v) (v_issuer v) require_exp now token with
  | Raise ExpiredSignatureError => Raise (AppError TOKEN_EXPIRED)
  | Raise InvalidTokenError => Raise (AppError INVALID_TOKEN)
  | Ok p => as_py (claims_of full p)
  end.

Definition identity_verify := verify_with false true.
Definition admin_verify := verify_with false true.
Definition merchant_verify := verify_with false false.
Definition pricing_verify := verify_with false false.
Definition compliance_verify := verify_with true false.
Definition invoice_verify := verify_with true false.

(** [get_principal] *)
Definition principal_with (verify : string → outcome (exn auth_error) AccessClaims) (authorization : option string) : outcome (exn auth_error) AccessClaims :=
  match authorization with
  | None => Raise (AppError UNAUTHORIZED)
  | Some h =>
      if negb (truthy h) then Raise (AppError UNAUTHORIZED)
      else match cut " "%char h with
           | None => Raise (AppError UNAUTHORIZED)
           | Some (scheme, rest) =>
               if bool_decide (lower scheme ≠ "bearer") || negb (truthy (strip rest)) then Raise (AppError UNAUTHORIZED)
               else verify (strip rest)
           end
  end.

Definition identity_principal (v : Verifier) (now : Z) := principal_with (identity_verify v now).
Definition admin_principal (v : Verifier) (now : Z) := principal_with (admin_verify v now).
Definition merchant_principal (v : Verifier) (now : Z) := principal_with (merchant_verify v now).
Definition pricing_principal (v : Verifier) (now : Z) := principal_with (pricing_verify v now).
Definition compliance_principal (v : Verifier) (now : Z) := principal_with (compliance_verify v now).
Definition invoice_principal (v : Verifier) (now : Z) := principal_with (invoice_verify v now).
End verifier.

(** ** Round trip of the claims *)

(** What a service without MFA claims and organization types keeps. *)
Definition narrowed (c : AccessClaims) : AccessClaims :=
  mkClaims (c_user c) ((λ r, mkOrgRole (or_org r) (or_role r) None) <$> c_roles c) (c_user_roles c) (c_kyc_tier c) (c_jti c) (c_sid c)
    false [] (c_iat c) (c_exp c).

Definition kept (full : bool) (c : AccessClaims) : AccessClaims := if full then c else narrowed c.

(** Organization types are absent rather than empty, as [issue_access] writes them. *)
Definition types_truthy (c : AccessClaims) : Prop := Forall (λ r, ∀ t, or_type r = Some t → truthy t = true) (c_roles c).

Lemma py_str_texts (l : list string) : py_str <$> (JStr <$> l) = l.
Proof. rewrite <- list_fmap_compose. apply list_fmap_id. Qed.

Lemma org_role_claims (full : bool) rs : Forall (λ r, ∀ t, or_type r = Some t → truthy t = true) rs →
  omap (org_role_claim full) (role_claim <$> rs) = if full then rs else (λ r, mkOrgRole (or_org r) (or_role r) None) <$> rs.
Proof.
  induction 1 as [|[o ro t] rs Ht _ IH]; [by destruct full|].
  change (omap (org_role_claim full) (role_claim <$> mkOrgRole o ro t :: rs)) with
    (from_option (λ r, r :: omap (org_role_claim full) (role_claim <$> rs)) (omap (org_role_claim full) (role_claim <$> rs))
       (org_role_claim full (role_claim (mkOrgRole o ro t)))). rewrite IH.
  destruct t as [t|]; [|by destruct full]. unfold org_role_claim, Chain.jfield_or. simpl. rewrite (Ht t eq_refl). by destruct full.
Qed.

Lemma claims_round_trip (full : bool) iss aud c : types_truthy c → claims_of full (access_payload iss aud c) = Ok (kept full c).
Proof.
  intros Ht. unfold claims_of, access_payload, texts, Chain.jfield_or, Chain.jfield. simpl. rewrite org_role_claims by done.
  rewrite !py_str_texts. destruct c, full; done.
Qed.

Lemma role_claims_distinct rs : forallb Fingerprint.distinct_keys (role_claim <$> rs) = true.
Proof. induction rs as [|[o ro [t|]] rs IH]; [done|..]; rewrite fmap_cons; cbn [forallb]; by rewrite IH. Qed.

Lemma texts_distinct l : forallb Fingerprint.distinct_keys (JStr <$> l) = true.
Proof. induction l; [done|]. rewrite fmap_cons. done. Qed.

Lemma access_payload_typed iss aud c : claims_typed (access_payload iss aud c).
Proof.
  unfold claims_typed, access_payload. split_and!; try by eexists.
  cbn [Fingerprint.distinct_keys forallb]. rewrite role_claims_distinct, !texts_distinct. done.
Qed.

Lemma issued_types now jti (uuid_str : uuid → string) cfg u roles user_roles tier sid e :
  types_truthy (Sessions.issue_access uuid_str cfg now jti u roles user_roles tier sid e).1.
Proof.
  unfold types_truthy, Sessions.issue_access. simpl. apply Forall_fmap, Forall_true. intros [o ro [t|]] t'; simpl; [|done].
  destruct (truthy t) eqn:E; [|done]. by intros [= <-].
Qed.

Lemma bearer_header (verify : string → outcome (exn auth_error) AccessClaims) scheme token :
  lower scheme = "bearer" → token ≠ "" → Forall (λ c, is_space c = false) (chars token) →
  principal_with verify (Some (scheme +:+ " " +:+ token)) = verify token.
Proof.
  intros Hs Hne Hclean.
  assert (Hsp : " "%char ∉ chars scheme).
  { intros Hin. assert (Hin' : " "%char ∈ chars (lower scheme)); [|rewrite Hs in Hin'; apply list_elem_of_In in Hin'; simpl in Hin'; intuition discriminate].
    unfold lower. rewrite chars_text. by apply (list_elem_of_fmap_2 lower_char _ " "%char). }
  unfold principal_with. assert (truthy (scheme +:+ " " +:+ token) = true) as ->.
  { apply bool_decide_eq_true. by destruct scheme. }
  change (scheme +:+ " " +:+ token) with (scheme +:+ String " " token). rewrite cut_app by done. simpl.
  rewrite strip_none by done. rewrite bool_decide_false by (intros Hno; exact (Hno Hs)). unfold truthy. by rewrite bool_decide_true.
Qed.

Section round_trip.
Context `{!PyJwt} (keypair : string → string → Prop) `{!PyJwtLaws keypair}.
Variables (uuid_str : uuid → string) (cfg : Sessions.Settings) (iss aud priv kid : string).

(** The token of [JwtIssuer.issue_access]. *)
Definition signed (c : AccessClaims) : string := jwt_encode priv kid (access_payload iss aud c).

Lemma verify_signed req full v now c (Hk : keypair priv (public_pem v)) (Ht : types_truthy c) (Hn : c_iat c ≤ now) :
  (v_audience v = aud → v_issuer v = iss → now < c_exp c → verify_with req full v now (signed c) = Ok (kept full c)) ∧
  (c_exp c ≤ now → verify_with req full v now (signed c) = Raise (AppError TOKEN_EXPIRED)) ∧
  (now < c_exp c → v_audience v ≠ aud ∨ v_issuer v ≠ iss → verify_with req full v now (signed c) = Raise (AppError INVALID_TOKEN)).
Proof.
  assert (Hst : started now (access_payload iss aud c)) by by exists (c_iat c), (c_iat c).
  assert (Hex : expires (access_payload iss aud c) (c_exp c)) by done.
  pose proof (access_payload_typed iss aud c) as Hty. unfold verify_with, signed. split_and!.
  - intros <- <- Hlt. rewrite (decode_valid _ _ _ _ _ _ _ _ _ Hk Hty Hst Hex Hlt) by done. by rewrite claims_round_trip.
  - intros Hle. by rewrite (decode_expired _ _ _ _ _ _ _ _ _ Hk Hty Hst Hex Hle).
  - intros Hlt Hne. rewrite (decode_foreign _ _ _ _ _ _ _ _ _ Hk Hty Hst Hex Hlt); [done|]. intros [[= ?] [= ?]]. naive_solver.
Qed.

(** C35: every service reads back the claims that identity-service signed.  A token of
    [issue_access], sent as a bearer token with the scheme in any case, is accepted by
    each of the six services until it expires: identity-service and
    admin-backoffice get exactly the issued claims, the others the same without the MFA claims
    and organization types; from its expiry on every service answers TOKEN_EXPIRED, and before
    that one configured for another issuer or audience answers INVALID_TOKEN. *)
Theorem issued_token_round_trip (now now' : Z) (jti scheme : string) (u sid : uuid) (roles : list OrgRole) (user_roles : list string)
    (tier : Z) (elevated : bool) (v : Verifier)
    (Hkey : keypair priv (public_pem v)) (Hscheme : lower scheme = "bearer") (Hnow : now ≤ now') :
  let c := (Sessions.issue_access uuid_str cfg now jti u roles user_roles tier sid elevated).1 in
  let header := Some (scheme +:+ " " +:+ signed c) in
  let answers := [identity_principal v now' header; admin_principal v now' header; merchant_principal v now' header;
                  pricing_principal v now' header; compliance_principal v now' header; invoice_principal v now' header] in
  (v_audience v = aud → v_issuer v = iss → now' < now + Sessions.access_ttl cfg →
     answers = [Ok c; Ok c; Ok (narrowed c); Ok (narrowed c); Ok (narrowed c); Ok (narrowed c)]) ∧
  (now + Sessions.access_ttl cfg ≤ now' → answers = replicate 6 (Raise (AppError TOKEN_EXPIRED))) ∧
  (now' < now + Sessions.access_ttl cfg → v_audience v ≠ aud ∨ v_issuer v ≠ iss → answers = replicate 6 (Raise (AppError INVALID_TOKEN))).
Proof.
  intros c header answers. destruct (token_text priv kid (access_payload iss aud c)) as [Hne Hclean].
  assert (Hp : ∀ f, principal_with f header = f (signed c)) by (intros f; by apply bearer_header).
  unfold answers, identity_principal, admin_principal, merchant_principal, pricing_principal, compliance_principal, invoice_principal.
  rewrite !Hp. unfold identity_verify, admin_verify, merchant_verify, pricing_verify, compliance_verify, invoice_verify.
  pose proof (λ req full, verify_signed req full v now' c Hkey (issued_types _ _ _ _ _ _ _ _ _ _) Hnow) as Hv.
  destruct (Hv false true) as (A1 & A2 & A3), (Hv false false) as (B1 & B2 & B3), (Hv true false) as (C1 & C2 & C3).
  split_and!; intros; [rewrite A1, B1, C1 by done|rewrite A2, B2, C2 by done|rewrite A3, B3, C3 by done]; done.
Qed.
End round_trip.

(** ** An instance of PyJWT

    A token is the text of its key, key id and payload in letters, preceded by a unary size. *)

Definition letter (n : N) : ascii := ascii_of_N (97 + n).
Definition letters (c : ascii) : list ascii := [letter (code c / 16); letter (code c mod 16)].

Fixpoint unletters (l : list ascii) : list ascii :=
  match l with
  | a :: b :: l' => ascii_of_N (16 * (code a - 97) + (code b - 97)) :: unletters l'
  | _ => []
  end.

Lemma unletters_letters l : unletters (l ≫= letters) = l.
Proof. induction l as [|c l IH]; [done|]. rewrite bind_cons. cbn [letters app unletters]. rewrite IH. f_equal. by destruct c as [[] [] [] [] [] [] [] []]. Qed.

Definition envelope (key kid : string) (p : payload) : json := JList [JStr key; JStr kid; JObj p].

Definition demo_encode (key kid : string) (p : payload) : string :=
  text (replicate (PyJson.jsize (envelope key kid p)) "1"%char) +:+ String "."%char (text (PyJson.print PyJson.escape (envelope key kid p) ≫= letters)).

Definition demo_in_time (now : Z) (p : payload) : bool :=
  match jfind "iat" p, jfind "nbf" p with Some (JInt i), Some (JInt n) => (i <=? now) && (n <=? now) | _, _ => false end.

Definition demo_for_us (aud iss : string) (p : payload) : bool :=
  match jfind "aud" p, jfind "iss" p with Some (JStr a), Some (JStr i) => bool_decide (a = aud) && bool_decide (i = iss) | _, _ => false end.

Definition demo_check (aud iss : string) (req : bool) (now : Z) (p : payload) : outcome jwt_error payload :=
  if negb (demo_in_time now p) then Raise InvalidTokenError
  else match jfind "exp" p with
       | Some (JInt e) => if e <=? now then Raise ExpiredSignatureError else if demo_for_us aud iss p then Ok p else Raise InvalidTokenError
       | Some _ => Raise InvalidTokenError
       | None => if negb req && demo_for_us aud iss p then Ok p else Raise InvalidTokenError
       end.

Definition demo_decode (pub aud iss : string) (req : bool) (now : Z) (t : string) : outcome jwt_error payload :=
  match cut "."%char t with
  | Some (n, body) =>
      match PyJson.read (String.length n) (unletters (chars body)) with
      | Some (JList [JStr key; JStr kid; JObj p], _) =>
          if bool_decide (key = pub) && bool_decide (demo_encode key kid p = t) then demo_check aud iss req now p else Raise InvalidTokenError
      | _ => Raise InvalidTokenError
      end
  | None => Raise InvalidTokenError
  end.

#[export] Instance demo_jwt : PyJwt := {| jwt_encode := demo_encode; jwt_decode := demo_decode |}.

Lemma demo_read key kid p : PyJson.read (PyJson.jsize (envelope key kid p)) (PyJson.print PyJson.escape (envelope key kid p)) = Some (envelope key kid p, []).
Proof.
  rewrite <- (app_nil_r (PyJson.print _ _)). by apply (PyJson.read_print PyJson.escape PyJson.escape_read PyJson.escape_head).
Qed.

Lemma demo_decode_encode pub aud iss req now kid p : demo_decode pub aud iss req now (demo_encode pub kid p) = demo_check aud iss req now p.
Proof.
  unfold demo_decode. pose proof (demo_read pub kid p) as Hr. unfold demo_encode at 1.
  rewrite cut_app by (rewrite chars_text; intros [? _]%elem_of_replicate; done).
  assert (String.length (text (replicate (PyJson.jsize (envelope pub kid p)) "1"%char)) = PyJson.jsize (envelope pub kid p)) as ->.
  { generalize (PyJson.jsize (envelope pub kid p)). induction n; simpl; congruence. }
  rewrite chars_text, unletters_letters, Hr. unfold envelope. by rewrite !bool_decide_true.
Qed.

Lemma demo_token_text priv kid p : demo_encode priv kid p ≠ "" ∧ Forall (λ c, is_space c = false) (chars (demo_encode priv kid p)).
Proof.
  unfold demo_encode. generalize (PyJson.print PyJson.escape (envelope priv kid p)), (PyJson.jsize (envelope priv kid p)). intros l n.
  split; [by destruct n|]. rewrite chars_app, chars_text. apply Forall_app. split; [by apply Forall_replicate|].
  cbn [String.list_ascii_of_string]. constructor; [done|]. rewrite chars_text. apply Forall_bind, Forall_true.
  intros c. by destruct c as [[] [] [] [] [] [] [] []]; repeat constructor.
Qed.

#[export] Instance demo_jwt_laws : PyJwtLaws eq.
Proof.
  split; cbn [jwt_encode jwt_decode demo_jwt].
  - intros ? ? kid aud iss req now p e -> _ (i & n & Hi & Hn & ? & ?) He Hlt [Ha Hs]. rewrite demo_decode_encode.
    unfold demo_check, demo_in_time, demo_for_us. rewrite Hi, Hn, He, Ha, Hs, !bool_decide_true by done.
    by rewrite (proj2 (Z.leb_le i now)), (proj2 (Z.leb_le n now)), (proj2 (Z.leb_gt e now)).
  - intros ? ? kid aud iss req now p e -> _ (i & n & Hi & Hn & ? & ?) He Hle. rewrite demo_decode_encode.
    unfold demo_check, demo_in_time. rewrite Hi, Hn, He.
    by rewrite (proj2 (Z.leb_le i now)), (proj2 (Z.leb_le n now)), (proj2 (Z.leb_le e now)).
  - intros ? ? kid aud iss req now p e -> (_ & _ & _ & [a Ha] & [s Hs]) (i & n & Hi & Hn & ? & ?) He Hlt Hno. rewrite demo_decode_encode.
    unfold demo_check, demo_in_time, demo_for_us. rewrite Hi, Hn, He, Ha, Hs.
    rewrite (proj2 (Z.leb_le i now)), (proj2 (Z.leb_le n now)), (proj2 (Z.leb_gt e now)) by done. simpl.
    case_bool_decide; [|done]. case_bool_decide; [|done]. subst. destruct Hno. done.
  - intros pub aud iss req now t p. unfold demo_decode. destruct (cut _ t) as [[n body]|]; [|done].
    destruct (PyJson.read _ _) as [[[| | | |[|[| | |key| |] [|[| | |kid| |] [|[| | | | |q] [|]]]]|] ?]|]; try done.
    case_bool_decide as Hk; [|done]. case_bool_decide as Ht; [|done]. simpl. intros Hc. exists key, kid.
    unfold demo_check in Hc. repeat case_match; simplify_eq; split_and!; try done.
    + intros e. unfold expires. intros He. assert (z = e) as <- by congruence. lia.
    + by destruct req.
    + intros e. unfold expires. congruence.
  - exact demo_token_text.
Qed.

(** A token of an admin session of an hour, read ten minutes later. *)
Lemma issued_token_round_trip_witness :
  ∃ c, c_mfa c = true ∧ identity_principal (mkVerifier "k" "linkmint" "linkmint-identity") 700 (Some ("BEARER " +:+ signed "linkmint-identity" "linkmint" "k" "kid" c)) = Ok c.
Proof.
  pose proof (issued_token_round_trip eq PyJson.show_N (Sessions.mkSettings 1000 3600 100 5 60 false) "linkmint-identity" "linkmint" "k" "kid"
    100 700 "j" "BEARER" 1%N 2%N [mkOrgRole "o" "owner" (Some "merchant")] ["payer"] 1 true (mkVerifier "k" "linkmint" "linkmint-identity")
    eq_refl eq_refl ltac:(lia)) as (H & _).
  specialize (H eq_refl eq_refl ltac:(by vm_compute)). apply (f_equal head) in H. cbn [head] in H. apply (inj Some) in H. eexists. split; [|exact H]. reflexivity.
Defined.
End Tokens.
