(* ===== verification/Admin.v ===== *)
(** * admin-backoffice: the authorization gate

    [admin-backoffice/app]: [errors.py], [security/authz.py], [domain/scopes.py], [domain/models.py],
    [db/] and the grant parser of [config.py].  The principal is what identity-service
    put in the access token. *)
From S2P Require Import Prelude PyText PyJson PyNum UnitOfWork Tables IdentityDb Sessions Orgs.
From Stdlib Require Import Ascii.

Module Admin.
Import Identity.

Inductive ErrorCode :=
| INVALID_PAYLOAD | INVALID_QUERY | UNAUTHORIZED | FORBIDDEN | INTERNAL_ERROR
| INVALID_TOKEN | TOKEN_EXPIRED | MFA_REQUIRED | SCOPE_DENIED | ENTITY_NOT_FOUND | UPSTREAM_UNAVAILABLE.

Definition _HTTP_STATUS (c : ErrorCode) : Z :=
  match c with
  | INVALID_PAYLOAD | INVALID_QUERY => 400
  | UNAUTHORIZED | INVALID_TOKEN | TOKEN_EXPIRED => 401
  | FORBIDDEN | MFA_REQUIRED | SCOPE_DENIED => 403
  | ENTITY_NOT_FOUND => 404
  | INTERNAL_ERROR => 500
  | UPSTREAM_UNAVAILABLE => 502
  end.

Definition SCOPES : list string :=
  ["support.read"; "support.write"; "finance.refund"; "compliance.resolve"; "engineer.feature_flags"; "superuser"].

Definition is_admin (principal : AccessClaims) : bool :=
  if bool_decide ("admin" ∈ c_user_roles principal) then true
  else existsb (λ r, bool_decide (or_type r = Some "admin") || bool_decide (or_role r = "admin")) (c_roles principal).

(** One entry of [ADMIN_DEV_STAFF_GRANTS]. *)
Definition grant_entry (grants : gmap string (list string)) (entry : string) : gmap string (list string) :=
  let e := strip entry in
  match (if truthy e then cut ":"%char e else None) with
  | None => grants
  | Some (sub, raw) =>
      let sc := filter (λ s, truthy s = true) (strip <$> split ","%char raw) in
      if truthy (strip sub) && negb (bool_decide (sc = [])) then <[strip sub := sc]> grants else grants
  end.

Definition dev_staff_grant_map (csv : string) : gmap string (list string) :=
  fold_left grant_entry (split ";"%char csv) ∅.

(** The table [admin.staff]: the scopes of each subject. *)
Abbreviation staff_table := (gmap uuid (list string)).

Definition get_staff (staff : staff_table) (sub : string) : option (list string) :=
  match PyNum.parse_uuid sub with Some sid => staff !! sid | None => None end.

(** [ScopeResolver.resolve]: the dev seed and the staff table, sets as lists. *)
Definition resolve (dev_staff_grants : string) (staff : staff_table) (sub : string) : list string :=
  let granted := default [] (dev_staff_grant_map dev_staff_grants !! sub) ++ default [] (get_staff staff sub) in
  if bool_decide ("superuser" ∈ granted) then SCOPES else granted.

Definition require_admin (dev_staff_grants : string) (staff : staff_table) (scope : string)
    (principal : AccessClaims) : outcome ErrorCode (list string) :=
  if negb (is_admin principal) then Raise FORBIDDEN
  else if negb (c_mfa principal) then Raise MFA_REQUIRED
  else
    let granted := resolve dev_staff_grants staff (c_user principal) in
    if bool_decide (scope ∉ granted) then Raise SCOPE_DENIED else Ok granted.

(** ** The gate against the roles identity issues *)

Section gate.
Context `{!Sessions.Crypto}.
Variables (uuid_str : uuid → string) (cfg : Sessions.Settings).

(** The organizations a token carries are the memberships of its user. *)
Lemma issued_roles now fr user agent ip e d x t :
  (request (Sessions.issue uuid_str cfg now fr user agent ip e) d x).1.1 = Ok t →
  c_user (access_token t) = uuid_str (user_id user) ∧ c_mfa (access_token t) = e ∧
  ∀ o role org, memberships d !! (o, user_id user) = Some role → orgs d !! o = Some org → truthy (org_type org) = true →
    mkOrgRole (uuid_str o) role (Some (org_type org)) ∈ c_roles (access_token t).
Proof.
  apply (wp_request (Sessions.issue uuid_str cfg now fr user agent ip e) (λ r _ _, r = Ok t →
    c_user (access_token t) = uuid_str (user_id user) ∧ c_mfa (access_token t) = e ∧
    ∀ o role org, memberships d !! (o, user_id user) = Some role → orgs d !! o = Some org → truthy (org_type org) = true →
      mkOrgRole (uuid_str o) role (Some (org_type org)) ∈ c_roles (access_token t))).
  unfold Sessions.issue, Sessions._roles, Sessions.issue_access. wp_go; try done. intros [= <-]. simplify_eq/=. split_and!; [done..|].
  intros o role org Hm Ho Ht.
  match goal with Hi : insert_session _ _ _ = Ok _ |- _ => unfold insert_session in Hi; case_match; [done|]; injection Hi as <- end.
  apply list_elem_of_fmap. exists (Sessions.org_role_of uuid_str d (o, role)). split.
  - unfold Sessions.org_role_of. simpl. rewrite Ho. simpl. by rewrite Ht.
  - apply list_elem_of_fmap. exists (o, role). split; [done|]. unfold list_memberships_for_user. apply list_elem_of_fmap.
    exists ((o, user_id user), role). split; [done|]. apply list_elem_of_filter. split; [done|]. by apply elem_of_map_to_list.
Qed.

(** the admin check of the gate holds of every user who wants it: whoever
    creates an organization of type admin, which the API allows any account, gets
    tokens that pass [is_admin].  What then still refuses them is the staff
    table alone: without a grant, an MFA-elevated token of theirs is answered
    SCOPE_DENIED, for every scope. *)
Theorem self_made_admin (now now' : Z) (o u : uuid) (name scope csv : string) (d : iddb) (x x' : idworld) (user : UserRow)
    (fr : Sessions.Fresh) (agent ip : option string) (t : AuthTokens) (staff : staff_table)
    (Hu : users d !! u = Some user) (Hid : user_id user = u) (Hfresh : orgs d !! o = None) (Hfree : memberships d !! (o, u) = None)
    (Hstaff : get_staff staff (uuid_str u) = None) (Hdev : dev_staff_grant_map csv !! uuid_str u = None) :
  let d1 := (request (Orgs.create uuid_str now o u name "admin") d x).1.2 in
  (request (Sessions.issue uuid_str cfg now' fr user agent ip true) d1 x').1.1 = Ok t →
  is_admin (access_token t) = true ∧ require_admin csv staff scope (access_token t) = Raise SCOPE_DENIED.
Proof.
  intros d1 Hissue. destruct (issued_roles _ _ _ _ _ _ _ _ _ Hissue) as (Huser & Hmfa & Hroles).
  assert (Hd1 : orgs d1 !! o = Some (mkOrg name "admin" u now) ∧ memberships d1 !! (o, u) = Some (role_value OWNER)).
  { unfold d1, request, Orgs.create, publish. change (bool_decide ("admin" ∉ OrgTypes)) with false.
    unfold mbind, handler_bind, try_write, insert_org. simpl. rewrite Hfresh, Hu. simpl.
    unfold insert_membership. simpl. rewrite Hfree, lookup_insert_eq, Hu. simpl. by rewrite !lookup_insert_eq. }
  destruct Hd1 as [Ho Hm]. rewrite <- Hid in Hm. pose proof (Hroles o _ _ Hm Ho eq_refl) as Hin. simpl in Hin.
  assert (Hadmin : is_admin (access_token t) = true).
  { unfold is_admin. case_bool_decide; [done|]. apply existsb_exists. eexists. split; [by apply list_elem_of_In|]. done. }
  split; [done|]. unfold require_admin. rewrite Hadmin, Hmfa. simpl. unfold resolve.
  rewrite Huser, Hid, Hstaff, Hdev. simpl. done.
Qed.
End gate.

#[local] Existing Instance Sessions.demo_crypto.

Definition demo_grants : string := "9:superuser; 8:support.read".
Definition demo_staff : staff_table := {[ 9%N := ["superuser"] ]}.

Lemma self_made_admin_witness :
  ∃ t, is_admin t = true ∧ require_admin demo_grants demo_staff "support.read" t = Raise SCOPE_DENIED.
Proof.
  pose (d := (Orgs.serve_all PyNum.uuid_text Sessions.empty_id
    [Orgs.OAccount Sessions.demo_cfg (Sessions.RRegister 1%N (Some "a@x") None "s" "secret")]).1).
  pose (x := mkIdWorld [] ∅).
  destruct (users d !! 1%N) as [user|] eqn:Eu; [|by vm_compute in Eu].
  destruct (request (Sessions.issue PyNum.uuid_text Sessions.demo_cfg 6 (Sessions.mkFresh 20%N "tok" "j") user None None true)
    (request (Orgs.create PyNum.uuid_text 5 10%N 1%N "me" "admin") d x).1.2 x).1.1 as [t|e] eqn:E.
  - exists (access_token t).
    apply (self_made_admin PyNum.uuid_text Sessions.demo_cfg 5 6 10%N 1%N "me" "support.read" demo_grants d x x user
      (Sessions.mkFresh 20%N "tok" "j") None None t demo_staff); [exact Eu| |by vm_compute..|exact E].
    vm_compute in Eu. by injection Eu as <-.
  - exfalso. vm_compute in Eu. injection Eu as <-. by vm_compute in E.
Defined.
End Admin.
