(* ===== verification/EventBus.v ===== *)
(** * linkmint_eventbus: envelopes, topics and the consumer loop

    [eventbus-python/src/linkmint_eventbus]: [envelope.py], [topics.py],
    [publisher.py] and [consumer.py].  aiokafka is reached through the class
    [KafkaClient]; decoding a record ([Envelope.from_bytes], pydantic) is part of
    what it delivers. *)
From S2P Require Import Prelude PyText PyJson Tables.
From Stdlib Require Import Ascii.

Module EventBus.

(** ** topics.py *)

Definition DOMAINS : list string :=
  ["paylink"; "payment"; "chain"; "merchant"; "compliance"; "identity"; "notification"; "escrow"; "settlement"; "fee"].

(** [name[:name.find(".")]], the whole name when it has no dot. *)
Definition topic_for (name : string) : string :=
  match cut "."%char name with Some (domain, _) => domain | None => name end.

(** ** envelope.py *)

Definition key_le (a b : string * json) : Prop := String.leb a.1 b.1 = true.

#[global] Instance key_le_dec : RelDecision key_le.
Proof. intros a b. unfold key_le. apply _. Defined.

(** [_canonical]: members in the order of their keys, at every level. *)
Fixpoint _canonical (j : json) : json :=
  match j with
  | JObj o => JObj (merge_sort key_le ((λ '(k, v), (k, _canonical v)) <$> o))
  | JList l => JList (_canonical <$> l)
  | _ => j
  end.

Record Envelope := mkEnvelope {
  e_id : string; e_name : string; e_key : string; correlation_id : string; occurred_at : string; source : string;
  payload : list (string * json) }.

Definition to_canonical_bytes (e : Envelope) : string :=
  PyJson.dumps (JObj [("id", JStr (e_id e)); ("name", JStr (e_name e)); ("key", JStr (e_key e));
    ("correlation_id", JStr (correlation_id e)); ("occurred_at", JStr (occurred_at e)); ("source", JStr (source e));
    ("payload", _canonical (JObj (payload e)))]).

(** ** publisher.py: the record a publish produces (topic, key and value). *)

Definition publish (id now src name key correlation : string) (p : list (string * json)) :
    string * option string * string :=
  (topic_for name, if truthy key then Some key else None,
   to_canonical_bytes (mkEnvelope id name key correlation now src p)).

(** ** consumer.py *)

(** A fetched record; nothing for bytes that do not decode. *)
Record message := mkMessage { offset : nat; value : option Envelope }.

Section partition.
Context {S E : Type} (handle : Envelope → S → outcome E unit * S).

(** The loop of [_process_partition], from the commit offset so far. *)
Fixpoint process (msgs : list message) (commit_offset : option nat) (s : S) : option nat * S :=
  match msgs with
  | [] => (commit_offset, s)
  | msg :: rest =>
      match value msg with
      | None => process rest (Some (offset msg + 1)) s
      | Some env =>
          match handle env s with
          | (Raise _, s') => (commit_offset, s')
          | (Ok _, s') => process rest (Some (offset msg + 1)) s'
          end
      end
  end.
End partition.

(** aiokafka's consumer, for one partition: [getmany] with its offsets, and the
    committed offset. *)
Class KafkaClient (C : Type) := {
  getmany : C → list message * C;
  commit : nat → C → C;
  position : C → nat;
  committed : C → nat }.

(** Its documented behaviour: a fetch delivers records from the position on and
    moves the position past them; a commit records the offset and leaves the
    position. *)
Class KafkaLaws (C : Type) `{!KafkaClient C} : Prop := {
  getmany_position c msgs c' : getmany c = (msgs, c') → position c ≤ position c';
  getmany_offsets c msgs c' msg : getmany c = (msgs, c') → msg ∈ msgs → position c ≤ offset msg < position c';
  getmany_committed c msgs c' : getmany c = (msgs, c') → committed c' = committed c;
  commit_committed n c : committed (commit n c) = n;
  commit_position n c : position (commit n c) = position c }.

Section consumer.
Context `{!KafkaClient C}.
Context {S E : Type} (handle : Envelope → S → outcome E unit * S).

Definition _process_partition (msgs : list message) (c : C) (s : S) : C * S :=
  match process handle msgs None s with
  | (Some n, s') => (commit n c, s')
  | (None, s') => (c, s')
  end.

(** One turn of the loop of [run]. *)
Definition turn (cs : C * S) : C * S :=
  let '(msgs, c) := getmany cs.1 in _process_partition msgs c cs.2.

Fixpoint turns (n : nat) (cs : C * S) : C * S :=
  match n with
  | 0 => cs
  | Datatypes.S n' => turns n' (turn cs)
  end.
End consumer.

(** ** The commit offset is the end of the clean prefix *)

Section prefix.
Context {S E : Type} (handle : Envelope → S → outcome E unit * S).

(** All of these messages were handled without an error (or skipped because they
    do not decode), in order, taking [s] to [s']. *)
Inductive handled : list message → S → S → Prop :=
| handled_nil s : handled [] s s
| handled_skip o l s s' : handled l s s' → handled (mkMessage o None :: l) s s'
| handled_ok o env l s s1 s' : handle env s = (Ok tt, s1) → handled l s1 s' → handled (mkMessage o (Some env) :: l) s s'.

(** The offset after a list of messages. *)
Definition after (l : list message) (o : option nat) : option nat :=
  match last l with Some msg => Some (offset msg + 1) | None => o end.

Lemma after_cons msg l o : after (msg :: l) o = after l (Some (offset msg + 1)).
Proof. unfold after. rewrite last_cons. by destruct (last l). Qed.

Lemma process_prefix msgs o s :
  ∃ good bad s1, msgs = good ++ bad ∧ handled good s s1 ∧ (process handle msgs o s).1 = after good o ∧
    (bad = [] ∧ (process handle msgs o s).2 = s1 ∨
     ∃ k env rest e, bad = mkMessage k (Some env) :: rest ∧ handle env s1 = (Raise e, (process handle msgs o s).2)).
Proof.
  revert o s. induction msgs as [|[k [env|]] msgs IH]; intros o s; simpl.
  - exists [], [], s. split_and!; [done|constructor|done|]. by left.
  - destruct (handle env s) as [[[]|e] s1] eqn:Eh; simpl.
    + destruct (IH (Some (k + 1)) s1) as (good & bad & s2 & -> & Hg & Hc & Hb).
      exists (mkMessage k (Some env) :: good), bad, s2. split_and!; [done|by econstructor| |done].
      by rewrite after_cons.
    + exists [], (mkMessage k (Some env) :: msgs), s. split_and!; [done|constructor|done|]. right. by exists k, env, msgs, e.
  - destruct (IH (Some (k + 1)) s) as (good & bad & s2 & -> & Hg & Hc & Hb).
    exists (mkMessage k None :: good), bad, s2. split_and!; [done|by constructor| |done]. by rewrite after_cons.
Qed.

(** processing a fetched batch commits exactly its clean prefix: the messages
    before the first one whose handler fails have all been handled once, in
    order (undecodable ones skipped), the committed offset is the one after the
    last of them, and nothing is committed when the very first fails; neither the
    failed message nor anything after it is committed or handled. *)
Theorem partition_commits_clean_prefix `{!KafkaClient C, !KafkaLaws C} (msgs : list message) (c : C) (s : S) :
  ∃ good bad s1, msgs = good ++ bad ∧ handled good s s1 ∧
    let '(c', s') := _process_partition handle msgs c s in
    committed c' = default (committed c) (after good None) ∧ position c' = position c ∧
    (bad = [] ∧ s' = s1 ∨ ∃ k env rest e, bad = mkMessage k (Some env) :: rest ∧ handle env s1 = (Raise e, s')).
Proof.
  destruct (process_prefix msgs None s) as (good & bad & s1 & Hm & Hg & Hc & Hb). exists good, bad, s1. split_and!; [done|done|].
  unfold _process_partition. destruct (process handle msgs None s) as [[n|] s']; simpl in Hc, Hb; rewrite <- Hc; simpl.
  - split_and!; [apply commit_committed|apply commit_position|done].
  - by split_and!.
Qed.
End prefix.

(** ** What happens to a failed message *)

Section lost.
Context `{!KafkaClient C, !KafkaLaws C}.
Context {S E : Type} (handle : Envelope → S → outcome E unit * S).

Lemma process_partition_position msgs c s : position (_process_partition handle msgs c s).1 = position c.
Proof. unfold _process_partition. destruct (process _ _ _ _) as [[n|] s']; [apply commit_position|done]. Qed.

Lemma turn_position cs : position cs.1 ≤ position (turn handle cs).1.
Proof.
  unfold turn. destruct (getmany cs.1) as [msgs c] eqn:Eg. rewrite process_partition_position. by eapply getmany_position.
Qed.

Lemma turns_position n cs : position cs.1 ≤ position (turns handle n cs).1.
Proof. revert cs. induction n as [|n IH]; intros cs; simpl; [done|]. etrans; [apply turn_position|apply IH]. Qed.

(** a message whose handler fails is not redelivered by the consumer.  After
    the turn that fetched it, no later fetch of this consumer returns any message
    of that batch again, however long it runs; and as soon as a later turn handles
    the messages it fetches, their commit moves the committed offset past the
    failed message, so that a restart does not see it either. *)
Theorem failed_message_not_redelivered (c c1 : C) (s : S) (msgs : list message) (n : nat)
    (Hfetch : getmany c = (msgs, c1)) :
  let later := turns handle n (turn handle (c, s)) in
  (∀ msg msg', msg ∈ msgs → msg' ∈ (getmany later.1).1 → offset msg < offset msg') ∧
  ∀ msg msg' s', msg ∈ msgs → head (getmany later.1).1 = Some msg' → handled handle (getmany later.1).1 later.2 s' →
    offset msg < committed (turn handle later).1.
Proof.
  intros later. assert (Hpos : position c1 ≤ position later.1).
  { unfold later. etrans; [|apply turns_position]. unfold turn. simpl. rewrite Hfetch. by rewrite process_partition_position. }
  assert (Hnew : ∀ msg msg', msg ∈ msgs → msg' ∈ (getmany later.1).1 → offset msg < offset msg').
  { intros msg msg' Hm Hm'. pose proof (getmany_offsets c msgs c1 msg Hfetch Hm).
    destruct (getmany later.1) as [msgs' c'] eqn:Eg. pose proof (getmany_offsets _ _ _ msg' Eg Hm'). lia. }
  split; [done|]. intros msg msg' s' Hm Hhead Hh. unfold turn. destruct (getmany later.1) as [msgs' c'] eqn:Eg. simpl in *.
  assert (Hproc : ∀ l o s0 s1, handled handle l s0 s1 → process handle l o s0 = (after l o, s1)).
  { intros l o s0 s1 Hl. revert o. induction Hl as [s0|o l s0 s1 _ IH|o env l s0 s1 s2 Hok _ IH]; intros o'; simpl.
    - done.
    - rewrite IH. by rewrite after_cons.
    - rewrite Hok. rewrite IH. by rewrite after_cons. }
  unfold _process_partition. rewrite (Hproc _ _ _ _ Hh). unfold after.
  destruct (last msgs') as [m|] eqn:El; [|by apply last_None in El; subst].
  simpl. rewrite commit_committed. pose proof (Hnew msg m Hm (last_Some_elem_of _ _ El)). lia.
Qed.
End lost.

(** ** Canonical bytes *)

Lemma string_compare_trans a b c :
  String.compare a b ≠ Gt → String.compare b c ≠ Gt → String.compare a c ≠ Gt.
Proof.
  revert b c. induction a as [|x a IH]; intros [|y b] [|z c]; simpl; try done. unfold Ascii.compare.
  destruct (N.compare_spec (N_of_ascii x) (N_of_ascii y)), (N.compare_spec (N_of_ascii y) (N_of_ascii z)),
    (N.compare_spec (N_of_ascii x) (N_of_ascii z)); try done; try lia. intros ? ?. by eapply IH.
Qed.

Lemma string_leb_compare a b : String.leb a b = true ↔ String.compare a b ≠ Gt.
Proof. unfold String.leb. by destruct (String.compare a b). Qed.

#[global] Instance key_le_trans : Transitive key_le.
Proof. intros a b c. unfold key_le. rewrite !string_leb_compare. apply string_compare_trans. Qed.

#[global] Instance key_le_total : Total key_le.
Proof. intros a b. apply String.leb_total. Qed.

(** Equality of Python values: the order of a dict's members does not matter. *)
Inductive py_eq : json → json → Prop :=
| eq_same j : py_eq j j
| eq_list l l' : Forall2 py_eq l l' → py_eq (JList l) (JList l')
| eq_obj o o1 o' : Forall2 (λ kv kv', kv.1 = kv'.1 ∧ py_eq kv.2 kv'.2) o o1 → o1 ≡ₚ o' → py_eq (JObj o) (JObj o').

(** A dict has each key once. *)
Inductive dict_ok : json → Prop :=
| ok_null : dict_ok JNull
| ok_bool b : dict_ok (JBool b)
| ok_int z : dict_ok (JInt z)
| ok_str t : dict_ok (JStr t)
| ok_list l : Forall dict_ok l → dict_ok (JList l)
| ok_obj o : NoDup o.*1 → Forall (λ kv, dict_ok kv.2) o → dict_ok (JObj o).

(** Sorting by key gives one result for all orders of the same members. *)
Lemma sort_unique o o' : NoDup o.*1 → o ≡ₚ o' → merge_sort key_le o = merge_sort key_le o'.
Proof.
  intros Hnd Hp. apply (StronglySorted_unique_strong key_le); [|apply StronglySorted_merge_sort; apply _..|].
  - intros x y Hx Hy Hxy Hyx. rewrite merge_sort_Permutation in Hx, Hy. rewrite <- Hp in Hy.
    apply (NoDup_map_inj fst o x y Hnd Hx Hy). by apply String.leb_antisym.
  - by rewrite !merge_sort_Permutation.
Qed.

Lemma canonical_respects j : dict_ok j → ∀ j', py_eq j j' → _canonical j = _canonical j'.
Proof.
  induction j as [| | | |l IH|o IH] using json_ind_strong; intros Hok j' Heq; inversion Heq as [|? l' Hl|? o1 o' Ho Hp]; subst; try done.
  - simpl. f_equal. inversion Hok as [| | | |? Hall|]; subst. clear Heq Hok. revert l' Hl.
    induction l as [|x l IHl]; intros l' Hl; inversion Hl; subst; [done|]. apply Forall_cons in IH as [Hx IH], Hall as [Hox Hall].
    simpl. f_equal; [by apply Hx|by apply IHl].
  - simpl. f_equal. inversion Hok as [| | | | |? Hnd Hall]; subst.
    assert (Hsame : (λ '(k, v), (k, _canonical v)) <$> o = (λ '(k, v), (k, _canonical v)) <$> o1).
    { clear -IH Ho Hall. induction Ho as [|[k v] [k' v'] o o1 [Hk Hv] _ IHo]; [done|]. simpl in *. subst.
      apply Forall_cons in IH as [Hx IH], Hall as [Hox Hall]. simpl in Hx.
      f_equal; [by rewrite (Hx Hox v' Hv)|by apply IHo]. }
    rewrite Hsame. apply sort_unique; [|by rewrite Hp].
    rewrite <- Hsame, <- list_fmap_compose. erewrite list_fmap_ext; [exact Hnd|]. by intros i [k v] _.
Qed.

(** the bytes of an event identify it: they do not depend on the order in which
    the payload's dicts were built, at any level, and two envelopes with the same
    bytes agree in every field and in the canonical payload. *)
Theorem envelope_bytes_canonical (e e' : Envelope) (Hdict : dict_ok (JObj (payload e))) :
  (py_eq (JObj (payload e)) (JObj (payload e')) →
   to_canonical_bytes e = to_canonical_bytes (mkEnvelope (e_id e) (e_name e) (e_key e) (correlation_id e) (occurred_at e)
     (source e) (payload e'))) ∧
  (to_canonical_bytes e = to_canonical_bytes e' →
   e_id e = e_id e' ∧ e_name e = e_name e' ∧ e_key e = e_key e' ∧ correlation_id e = correlation_id e' ∧
   occurred_at e = occurred_at e' ∧ source e = source e' ∧ _canonical (JObj (payload e)) = _canonical (JObj (payload e'))).
Proof.
  split.
  - intros Heq. unfold to_canonical_bytes. cbn [e_id e_name e_key correlation_id occurred_at source payload].
    by rewrite (canonical_respects _ Hdict _ Heq).
  - unfold to_canonical_bytes. intros Hb%PyJson.dumps_inj. injection Hb as ? ? ? ? ? ? Hp. split_and!; try done.
    simpl. by rewrite Hp.
Qed.

(** ** Concrete runs *)

(** A broker that keeps one partition and delivers two records at a time. *)
Record broker := mkBroker { log : list (option Envelope); at_ : nat; done_ : nat }.

#[global] Instance broker_client : KafkaClient broker := {|
  getmany c := (imap (λ k v, mkMessage (at_ c + k) v) (take 2 (drop (at_ c) (log c))),
                mkBroker (log c) (at_ c + length (take 2 (drop (at_ c) (log c)))) (done_ c));
  commit n c := mkBroker (log c) (at_ c) n;
  position := at_;
  committed := done_ |}.

#[global] Instance broker_laws : KafkaLaws broker.
Proof.
  split; try done.
  - intros c msgs c' [= <- <-]. simpl. lia.
  - intros c msgs c' msg [= <- <-] Hm. apply list_elem_of_lookup in Hm as [k Hk]. rewrite list_lookup_imap in Hk.
    apply fmap_Some in Hk as (v & Hv & ->). apply lookup_lt_Some in Hv. simpl in *. lia.
  - by intros c msgs c' [= <- <-].
Qed.

Definition demo_event (name : string) : Envelope := mkEnvelope "i" name "" "" "t" "svc" [].
Definition demo_handle (env : Envelope) (s : list string) : outcome unit unit * list string :=
  if bool_decide (e_name env = "bad") then (Raise tt, s) else (Ok tt, s ++ [e_name env]).
Definition demo_broker : broker := mkBroker [Some (demo_event "a"); Some (demo_event "bad"); Some (demo_event "b")] 0 0.

Lemma partition_commits_clean_prefix_witness :
  ∃ good bad s1, (getmany demo_broker).1 = good ++ bad ∧ handled demo_handle good [] s1 ∧
    let '(c', s') := _process_partition demo_handle (getmany demo_broker).1 demo_broker [] in
    committed c' = default 0 (after good None) ∧ position c' = 0 ∧
    (bad = [] ∧ s' = s1 ∨ ∃ k env rest e, bad = mkMessage k (Some env) :: rest ∧ demo_handle env s1 = (Raise e, s')).
Proof. exact (partition_commits_clean_prefix demo_handle (getmany demo_broker).1 demo_broker []). Defined.

(** The failed record, offset 1, is committed over by the next turn and never handled. *)
Lemma failed_message_not_redelivered_witness :
  1 < committed (turn demo_handle (turn demo_handle (demo_broker, []))).1 ∧
  (turns demo_handle 9 (demo_broker, [])).2 = ["a"; "b"].
Proof.
  split; [|by vm_compute].
  destruct (failed_message_not_redelivered demo_handle demo_broker (getmany demo_broker).2 [] (getmany demo_broker).1 0)
    as [_ Hc]; [done|].
  apply (Hc (mkMessage 1 (Some (demo_event "bad"))) (mkMessage 2 (Some (demo_event "b"))) ["a"; "b"]).
  - vm_compute. right. left.
  - done.
  - change (handled demo_handle [mkMessage 2 (Some (demo_event "b"))] ["a"] ["a"; "b"]). econstructor; [done|constructor].
Defined.

Lemma envelope_bytes_canonical_witness :
  to_canonical_bytes (mkEnvelope "i" "n" "" "" "t" "svc" [("b", JInt 1); ("a", JNull)]) =
  to_canonical_bytes (mkEnvelope "i" "n" "" "" "t" "svc" [("a", JNull); ("b", JInt 1)]).
Proof.
  destruct (envelope_bytes_canonical (mkEnvelope "i" "n" "" "" "t" "svc" [("b", JInt 1); ("a", JNull)])
    (mkEnvelope "i" "n" "" "" "t" "svc" [("a", JNull); ("b", JInt 1)])) as [Heq _].
  - constructor; [apply (bool_decide_unpack _); by vm_compute|]. repeat constructor.
  - apply Heq. eapply eq_obj; [|apply perm_swap]. repeat constructor.
Defined.
End EventBus.
