(* ===== verification/Merchant.v ===== *)
(** * merchant-onboarding

    [merchant-onboarding/app]: [domain/state_machine.py], [domain/merchants_service.py],
    [domain/bank_accounts_service.py], [domain/contracts_service.py],
    [domain/documents_service.py], [domain/rbac.py], [db/repositories.py] and
    [events/consumer.py].  The principal is a verified access token of
    identity-service; the bank cipher and the object store are parameters. *)
From S2P Require Import Prelude PyText PyJson UnitOfWork Tables IdentityDb.
From Stdlib Require Import Ascii.

Module Merchant.
Open Scope Z_scope.
Import Identity (OrgRole, mkOrgRole, or_org, or_role, AccessClaims, c_user, c_roles).

(** ** errors.py *)

Inductive ErrorCode :=
| INVALID_PAYLOAD | INVALID_QUERY | IDEMPOTENT_CONFLICT | UNAUTHORIZED | FORBIDDEN | INTERNAL_ERROR
| INVALID_TOKEN | TOKEN_EXPIRED | ORG_NOT_FOUND | ALREADY_ONBOARDED | MERCHANT_NOT_FOUND | INVALID_TRANSITION
| UNSUPPORTED_COUNTRY | INVALID_ACCOUNT | BANK_ACCOUNT_NOT_FOUND | PAYLOAD_TOO_LARGE.

Definition _HTTP_STATUS (c : ErrorCode) : Z :=
  match c with
  | INVALID_PAYLOAD | INVALID_QUERY | UNSUPPORTED_COUNTRY => 400
  | IDEMPOTENT_CONFLICT | ALREADY_ONBOARDED | INVALID_TRANSITION => 409
  | UNAUTHORIZED | INVALID_TOKEN | TOKEN_EXPIRED => 401
  | FORBIDDEN => 403
  | INTERNAL_ERROR => 500
  | ORG_NOT_FOUND | MERCHANT_NOT_FOUND | BANK_ACCOUNT_NOT_FOUND => 404
  | INVALID_ACCOUNT => 422
  | PAYLOAD_TOO_LARGE => 413
  end.

(** ** domain/models.py *)

Inductive MerchantStatus := DRAFT | PENDING_VERIFICATION | ACTIVE | REJECTED | SUSPENDED.

#[global] Instance MerchantStatus_eq_dec : EqDecision MerchantStatus.
Proof. solve_decision. Defined.

Definition Statuses : list MerchantStatus := [DRAFT; PENDING_VERIFICATION; ACTIVE; REJECTED; SUSPENDED].

Definition status_value (s : MerchantStatus) : string :=
  match s with
  | DRAFT => "DRAFT" | PENDING_VERIFICATION => "PENDING_VERIFICATION" | ACTIVE => "ACTIVE" | REJECTED => "REJECTED"
  | SUSPENDED => "SUSPENDED"
  end.

(** [MerchantStatus(text)], nothing standing for [ValueError]. *)
Definition status_of (s : string) : option MerchantStatus := head (filter (λ x, status_value x = s) Statuses).

Definition MerchantTypes : list string := ["individual"; "company"; "nonprofit"].
Definition Rails : list string := ["mpesa"; "swift"; "sepa"; "ach"; "crypto"].
Definition FeeTiers : list string := ["standard"; "startup"; "enterprise"].
Definition DocumentKinds : list string :=
  ["cert_incorporation"; "tax_id"; "director_id"; "proof_of_address"; "bank_statement"; "other"].

Inductive ReviewDecision := APPROVE | REJECT | SUSPEND | REINSTATE.

Definition decision_value (d : ReviewDecision) : string :=
  match d with APPROVE => "approve" | REJECT => "reject" | SUSPEND => "suspend" | REINSTATE => "reinstate" end.

Notation result := (outcome (exn ErrorCode)).

(** ** domain/state_machine.py *)

Definition _EDGES (s : MerchantStatus) : list MerchantStatus :=
  match s with
  | DRAFT => [PENDING_VERIFICATION]
  | PENDING_VERIFICATION => [ACTIVE; REJECTED; SUSPENDED]
  | ACTIVE => [SUSPENDED]
  | SUSPENDED => [ACTIVE; REJECTED]
  | REJECTED => []
  end.

Definition can_transition (current target : MerchantStatus) : bool := bool_decide (target ∈ _EDGES current).

Definition target_for (d : ReviewDecision) : MerchantStatus :=
  match d with APPROVE => ACTIVE | REJECT => REJECTED | SUSPEND => SUSPENDED | REINSTATE => ACTIVE end.

Definition assert_transition (current target : MerchantStatus) : result unit :=
  if can_transition current target then Ok tt else Raise (AppError INVALID_TRANSITION).

(** ** domain/rbac.py *)

Fixpoint org_role_in (rs : list OrgRole) (org : string) : option string :=
  match rs with
  | [] => None
  | r :: rest => if bool_decide (or_org r = org) then Some (or_role r) else org_role_in rest org
  end.

Definition org_role (p : AccessClaims) (org : string) : option string := org_role_in (c_roles p) org.

Definition require_org_member (p : AccessClaims) (org : string) : result string :=
  match org_role p org with Some role => Ok role | None => Raise (AppError ORG_NOT_FOUND) end.

Definition require_admin (p : AccessClaims) (org : string) : result string :=
  let? role := require_org_member p org in
  if bool_decide (role ∈ ["owner"; "admin"]) then Ok role else Raise (AppError FORBIDDEN).

(** ** db/models.py *)

Record MerchantRow := mkMerchant {
  org_id : uuid; business_name : string; registration_no : option string; country : string; type_ : string; status : string;
  fee_tier : string; onboarded_at : option Z; suspended_at : option Z; suspended_reason : option string }.

Record BankAccountRow := mkBank {
  b_merchant : uuid; rail : string; account_ref : string; currency : string; b_status : string; verified_at : option Z }.

Record DocumentRow := mkDoc { d_merchant : uuid; d_kind : string; s3_key : string }.

Record ContractRow := mkContract {
  k_merchant : uuid; version : string; accepted_by : string; accepted_at : Z; k_ip : option string; k_agent : option string }.

Record MerchantEventRow := mkMEvent { me_type : string; me_subject : uuid; me_kind : string; me_payload : json }.

Record mdb := mkMdb {
  merchants : gmap uuid MerchantRow;
  banks : gmap uuid BankAccountRow;
  documents : gmap uuid DocumentRow;
  contracts : list ContractRow;
  m_events : list MerchantEventRow }.

(** Outside: published events and the object store. *)
Record mworld := mkMW { m_published : list (string * json); objects : gmap string string }.

Notation H := (handler mdb mworld ErrorCode).

(** ** db/repositories.py *)

Definition on_merchants f (d : mdb) : mdb := mkMdb (f (merchants d)) (banks d) (documents d) (contracts d) (m_events d).
Definition on_banks f (d : mdb) : mdb := mkMdb (merchants d) (f (banks d)) (documents d) (contracts d) (m_events d).

Definition get_merchant_by_org (o : uuid) (d : mdb) : option (uuid * MerchantRow) :=
  head (filter (λ kv, org_id kv.2 = o) (map_to_list (merchants d))).

(** [org_id] is UNIQUE. *)
Definition insert_merchant (i : uuid) (row : MerchantRow) (d : mdb) : outcome pyerr mdb :=
  if bool_decide (is_Some (merchants d !! i)) || bool_decide (is_Some (get_merchant_by_org (org_id row) d))
  then Raise IntegrityError else Ok (on_merchants (<[i := row]>) d).

Definition insert_bank_account (i : uuid) (row : BankAccountRow) (d : mdb) : outcome pyerr mdb :=
  if bool_decide (is_Some (banks d !! i)) || bool_decide (merchants d !! b_merchant row = None) then Raise IntegrityError
  else Ok (on_banks (<[i := row]>) d).

Definition list_bank_accounts (m : uuid) (d : mdb) : list (uuid * BankAccountRow) :=
  filter (λ kv, b_merchant kv.2 = m) (map_to_list (banks d)).

Definition count_verified_bank_accounts (m : uuid) (d : mdb) : nat :=
  length (filter (λ kv, b_merchant kv.2 = m ∧ b_status kv.2 = "VERIFIED") (map_to_list (banks d))).

Definition insert_document (i : uuid) (row : DocumentRow) (d : mdb) : outcome pyerr mdb :=
  if bool_decide (is_Some (documents d !! i)) || bool_decide (merchants d !! d_merchant row = None) then Raise IntegrityError
  else Ok (mkMdb (merchants d) (banks d) (<[i := row]> (documents d)) (contracts d) (m_events d)).

Definition insert_contract (row : ContractRow) (d : mdb) : outcome pyerr mdb :=
  if bool_decide (merchants d !! k_merchant row = None) then Raise IntegrityError
  else Ok (mkMdb (merchants d) (banks d) (documents d) (contracts d ++ [row]) (m_events d)).

Definition newest_contract (a b : ContractRow) : Prop := accepted_at b ≤ accepted_at a.

#[global] Instance newest_contract_dec : RelDecision newest_contract.
Proof. intros a b. unfold newest_contract. apply _. Defined.

Definition list_contracts (m : uuid) (d : mdb) : list ContractRow :=
  merge_sort newest_contract (filter (λ c, k_merchant c = m) (contracts d)).

Definition count_contracts (m : uuid) (d : mdb) : nat := length (filter (λ c, k_merchant c = m) (contracts d)).

Definition add_event (ty : string) (i : uuid) (kind : string) (payload : json) (d : mdb) : mdb :=
  mkMdb (merchants d) (banks d) (documents d) (contracts d) (m_events d ++ [mkMEvent ty i kind payload]).

(** ** Services *)

Record Settings := mkSettings {
  allowed_countries : string; require_verified_bank_for_active : bool; require_contract_for_active : bool;
  max_document_bytes : nat; s3_prefix : string }.

Definition allowed_country_set (cfg : Settings) : list string :=
  (λ c, upper (strip c)) <$> filter (λ c, truthy (strip c) = true) (split ","%char (allowed_countries cfg)).

Section service.
Variables (uuid_str : uuid → string) (cfg : Settings) (encrypt : string → string → string).

Definition publish (name : string) (payload : json) : H unit :=
  effect (λ x, mkMW (m_published x ++ [(name, payload)]) (objects x)).

(** The outbox pattern: record, commit, publish. *)
Definition announce (ty : string) (i : uuid) (name : string) (payload : json) : H unit :=
  write (add_event ty i name payload) ;; commit ;; publish name payload.

(** *** domain/merchants_service.py *)

Definition onboard (p : AccessClaims) (i o : uuid) (business : string) (reg : option string) (ctry ty : string) : H MerchantRow :=
  _ ← lift (require_org_member p (uuid_str o));
  if bool_decide (ty ∉ MerchantTypes) then raise INVALID_PAYLOAD
  else
    let code := upper (strip ctry) in
    if bool_decide (code ∉ allowed_country_set cfg) then raise UNSUPPORTED_COUNTRY
    else
      existing ← query (get_merchant_by_org o);
      if bool_decide (is_Some existing) then raise ALREADY_ONBOARDED
      else
        let m := mkMerchant o business reg code ty (status_value PENDING_VERIFICATION) "standard" None None None in
        try_write (insert_merchant i m) ;;
        announce "merchant" i "merchant.onboarded"
          (JObj [("merchant_id", JStr (uuid_str i)); ("org_id", JStr (uuid_str o)); ("country", JStr code);
                 ("type", JStr ty); ("status", JStr (status m))]) ;;
        mret m.

Definition get_for_member (p : AccessClaims) (i : uuid) : H MerchantRow :=
  found ← query (λ d, merchants d !! i);
  match found with
  | None => raise MERCHANT_NOT_FOUND
  | Some m => if bool_decide (org_role p (uuid_str (org_id m)) = None) then raise MERCHANT_NOT_FOUND else mret m
  end.

Definition with_tier (t : string) (m : MerchantRow) : MerchantRow :=
  mkMerchant (org_id m) (business_name m) (registration_no m) (country m) (type_ m) (status m) t (onboarded_at m)
    (suspended_at m) (suspended_reason m).

Definition set_fee_tier (p : AccessClaims) (i : uuid) (tier : string) : H MerchantRow :=
  m ← get_for_member p i;
  _ ← lift (require_admin p (uuid_str (org_id m)));
  if bool_decide (tier ∉ FeeTiers) then raise INVALID_PAYLOAD
  else
    write (on_merchants (alter (with_tier tier) i)) ;;
    announce "merchant" i "merchant.fee_tier.changed" (JObj [("merchant_id", JStr (uuid_str i)); ("tier", JStr tier)]) ;;
    mret (with_tier tier m).

Definition _assert_activation_preconditions (i : uuid) : H unit :=
  accounts ← query (count_verified_bank_accounts i);
  if require_verified_bank_for_active cfg && (accounts <? 1)%nat then raise INVALID_TRANSITION
  else
    accepted ← query (count_contracts i);
    if require_contract_for_active cfg && (accepted <? 1)%nat then raise INVALID_TRANSITION else mret tt.

(** The attribute writes of [decide]. *)
Definition moved (now : Z) (target : MerchantStatus) (reason : option string) (m : MerchantRow) : MerchantRow :=
  let '(onboarded, at_, why) :=
    match target with
    | ACTIVE => (match onboarded_at m with Some t => Some t | None => Some now end, None, None)
    | SUSPENDED => (onboarded_at m, Some now, reason)
    | REJECTED => (onboarded_at m, suspended_at m, reason)
    | _ => (onboarded_at m, suspended_at m, suspended_reason m)
    end in
  mkMerchant (org_id m) (business_name m) (registration_no m) (country m) (type_ m) (status_value target) (fee_tier m)
    onboarded at_ why.

Definition decision_event (target : MerchantStatus) : option string :=
  match target with
  | ACTIVE => Some "merchant.verified"
  | REJECTED => Some "merchant.rejected"
  | SUSPENDED => Some "merchant.suspended"
  | _ => None
  end.

Definition decide_ (now : Z) (i : uuid) (decision : ReviewDecision) (reason : option string) : H MerchantRow :=
  found ← query (λ d, merchants d !! i);
  match found with
  | None => raise MERCHANT_NOT_FOUND
  | Some m =>
      match status_of (status m) with
      | None => throw (PyError ValueError)
      | Some current =>
          let target := target_for decision in
          _ ← lift (assert_transition current target);
          when (bool_decide (target = ACTIVE)) (_assert_activation_preconditions i) ;;
          write (on_merchants (alter (moved now target reason) i)) ;;
          match decision_event target with
          | None => throw (PyError KeyError)
          | Some name =>
              announce "merchant" i name
                (JObj ([("merchant_id", JStr (uuid_str i)); ("status", JStr (status_value target));
                        ("decision", JStr (decision_value decision))] ++
                       match reason with Some r => [("reason", JStr r)] | None => [] end)) ;;
              mret (moved now target reason m)
          end
      end
  end.

(** *** domain/bank_accounts_service.py *)

Definition _valid_account_details (details : string) : bool :=
  let n := length (chars (strip details)) in (0 <? n)%nat && (n <=? 256)%nat.

(** [nonce] is the randomness of the cipher. *)
Definition add_bank_account (p : AccessClaims) (i m : uuid) (nonce rl details cur : string) : H BankAccountRow :=
  _ ← get_for_member p m;
  if bool_decide (rl ∉ Rails) then raise INVALID_PAYLOAD
  else if negb (_valid_account_details details) then raise INVALID_ACCOUNT
  else
    let row := mkBank m rl (encrypt nonce (strip details)) (upper (strip cur)) "PENDING_VERIFY" None in
    try_write (insert_bank_account i row) ;;
    announce "bank_account" i "merchant.bank_account.added"
      (JObj [("merchant_id", JStr (uuid_str m)); ("bank_account_id", JStr (uuid_str i)); ("rail", JStr rl);
             ("currency", JStr (currency row)); ("status", JStr (b_status row))]) ;;
    mret row.

Definition verified (now : Z) (b : BankAccountRow) : BankAccountRow :=
  mkBank (b_merchant b) (rail b) (account_ref b) (currency b) "VERIFIED" (Some now).

Definition verify_bank_account (now : Z) (p : AccessClaims) (m i : uuid) : H BankAccountRow :=
  _ ← get_for_member p m;
  found ← query (λ d, banks d !! i);
  match found with
  | None => raise BANK_ACCOUNT_NOT_FOUND
  | Some b =>
      if bool_decide (b_merchant b ≠ m) then raise BANK_ACCOUNT_NOT_FOUND
      else if bool_decide (b_status b ≠ "PENDING_VERIFY") then raise INVALID_TRANSITION
      else
        write (on_banks (alter (verified now) i)) ;;
        announce "bank_account" i "merchant.bank_account.verified"
          (JObj [("merchant_id", JStr (uuid_str m)); ("bank_account_id", JStr (uuid_str i)); ("status", JStr "VERIFIED")]) ;;
        mret (verified now b)
  end.

Definition list_accounts (p : AccessClaims) (m : uuid) : H (list (uuid * BankAccountRow)) :=
  _ ← get_for_member p m;
  query (list_bank_accounts m).

(** *** domain/contracts_service.py and documents_service.py *)

Definition accept_contract (now : Z) (p : AccessClaims) (m : uuid) (ver : string) (accepted : bool) (ip agent : option string) :
    H ContractRow :=
  _ ← get_for_member p m;
  if negb accepted then raise INVALID_PAYLOAD
  else
    let row := mkContract m ver (c_user p) now ip agent in
    try_write (insert_contract row) ;;
    announce "merchant" m "merchant.contract.accepted"
      (JObj [("merchant_id", JStr (uuid_str m)); ("version", JStr ver); ("accepted_by", JStr (c_user p))]) ;;
    mret row.

Definition contracts_of (p : AccessClaims) (m : uuid) : H (list ContractRow) :=
  _ ← get_for_member p m;
  query (list_contracts m).

Definition upload_document (p : AccessClaims) (i m : uuid) (kind content : string) : H DocumentRow :=
  _ ← get_for_member p m;
  if bool_decide (kind ∉ DocumentKinds) then raise INVALID_PAYLOAD
  else if (max_document_bytes cfg <? length (chars content))%nat then raise PAYLOAD_TOO_LARGE
  else
    let key := s3_prefix cfg +:+ "/" +:+ uuid_str m +:+ "/" +:+ uuid_str i in
    effect (λ x, mkMW (m_published x) (<[key := content]> (objects x))) ;;
    let row := mkDoc m kind key in
    try_write (insert_document i row) ;;
    commit ;;
    mret row.

(** ** events/consumer.py *)

Definition _DECISION_BY_EVENT (name : string) : option ReviewDecision :=
  if bool_decide (name = "compliance.kyb.passed") then Some APPROVE
  else if bool_decide (name = "compliance.kyb.failed") then Some REJECT
  else if bool_decide (name = "admin.override.suspend") then Some SUSPEND
  else if bool_decide (name = "admin.override.reinstate") then Some REINSTATE
  else None.

(** [merchant]: the payload's id, nothing when missing or malformed. *)
Definition handle_event (now : Z) (name : string) (merchant : option uuid) (reason : option string) : H unit :=
  match _DECISION_BY_EVENT name, merchant with
  | Some decision, Some i => _ ← decide_ now i decision reason; mret tt
  | _, _ => mret tt
  end.
End service.

(** ** Lifecycle and activation *)

Definition edge (a b : MerchantStatus) : Prop := b ∈ _EDGES a.

(** How a merchant may change: its identity stays, its status moves along the
    edges. *)
Definition evolves (m m' : MerchantRow) : Prop :=
  org_id m' = org_id m ∧ business_name m' = business_name m ∧ country m' = country m ∧ type_ m' = type_ m ∧
  ∀ s, status m = status_value s → ∃ s', status m' = status_value s' ∧ rtc edge s s'.

#[global] Instance evolves_preorder : PreOrder evolves.
Proof.
  split; [intros m; split_and!; try done; intros s Hs; by exists s|].
  intros m1 m2 m3 (?&?&?&?&Hs) (?&?&?&?&Hs'). unfold evolves. split_and!; try congruence.
  intros s Hst. destruct (Hs s Hst) as (s2 & Hs2 & He). destruct (Hs' s2 Hs2) as (s3 & Hs3 & He'). exists s3. split; [done|by etrans].
Qed.

Definition has_verified_bank (i : uuid) (d : mdb) : Prop :=
  ∃ b r, banks d !! b = Some r ∧ b_merchant r = i ∧ b_status r = "VERIFIED".

Definition has_contract (i : uuid) (d : mdb) : Prop := ∃ c, c ∈ contracts d ∧ k_merchant c = i.

Section invariant.
Variable cfg : Settings.

Definition may_be_active (i : uuid) (d : mdb) : Prop :=
  (require_verified_bank_for_active cfg = true → has_verified_bank i d) ∧
  (require_contract_for_active cfg = true → has_contract i d).

Definition row_ok (d : mdb) (i : uuid) (m : MerchantRow) : Prop :=
  ∃ s, status m = status_value s ∧ (s = ACTIVE → may_be_active i d).

Definition db_ok (d : mdb) : Prop := map_Forall (row_ok d) (merchants d) ∧ unique_by org_id (merchants d).

Definition step (d d' : mdb) : Prop := db_ok d' ∧ moves evolves (merchants d) (merchants d').

Lemma merchant_status_inj s s' : status_value s = status_value s' → s = s'.
Proof. by destruct s, s'. Qed.

Lemma m_status_of_value s : status_of (status_value s) = Some s.
Proof. by destruct s. Qed.

(** Facts that activation needs are never lost. *)
Lemma may_be_active_grows d d' i :
  (has_verified_bank i d → has_verified_bank i d') → (has_contract i d → has_contract i d') →
  may_be_active i d → may_be_active i d'.
Proof. intros Hb Hc [H1 H2]. split; auto. Qed.

Lemma step_same_merchants d d' :
  db_ok d → merchants d' = merchants d → (∀ i, has_verified_bank i d → has_verified_bank i d') →
  (∀ i, has_contract i d → has_contract i d') → step d d'.
Proof.
  intros [Hrows Hu] Hm Hb Hc. unfold step, db_ok. rewrite Hm. split_and!; [|done|reflexivity].
  intros i m Hi. destruct (Hrows i m Hi) as (s & Hs & Ha). exists s. split; [done|]. intros Hact.
  by apply (may_be_active_grows d); auto.
Qed.

Lemma step_alter d i m f :
  db_ok d → merchants d !! i = Some m → evolves m (f m) → row_ok d i (f m) → (∀ m, org_id (f m) = org_id m) →
  step d (on_merchants (alter f i) d).
Proof.
  intros [Hrows Hu] Hm He Hok Horg. split; [split|]; simpl.
  - apply map_Forall_alter_2; [done|]. intros m' Hm' _. by simplify_eq.
  - by apply unique_by_alter.
  - apply moves_alter; [apply _|]. intros m' Hm'. by simplify_eq.
Qed.

Lemma step_insert d i row d' :
  db_ok d → status row = status_value PENDING_VERIFICATION → insert_merchant i row d = Ok d' →
  step d d' ∧ m_events d' = m_events d.
Proof.
  intros [Hrows Hu] Hs Hi. unfold insert_merchant in Hi. case_match eqn:E; [done|]. injection Hi as <-.
  apply orb_false_elim in E as [E1 E2]. apply bool_decide_eq_false, eq_None_not_Some in E1.
  apply bool_decide_eq_false, eq_None_not_Some in E2. split; [split; [split|]|done]; simpl.
  - apply map_Forall_insert_2; [exists PENDING_VERIFICATION; by split|].
    intros j m Hj. destruct (Hrows j m Hj) as (s & ? & Ha). by exists s.
  - apply unique_by_insert; [done|]. intros j m Hj. by apply (head_by_none _ _ j m E2).
  - by apply moves_insert; [apply _|].
Qed.

Lemma step_insert_bank d i row d' : db_ok d → insert_bank_account i row d = Ok d' → step d d' ∧ m_events d' = m_events d.
Proof.
  intros Hd Hi. unfold insert_bank_account in Hi. case_match eqn:E; [done|]. injection Hi as <-. split; [|done].
  apply orb_false_elim in E as [E1 _]. apply bool_decide_eq_false, eq_None_not_Some in E1.
  apply step_same_merchants; try done. intros j (b & r & Hb & ?). exists b, r. split; [|done].
  simpl. rewrite lookup_insert_ne; [done|congruence].
Qed.

Lemma step_verify_bank d i now : db_ok d → step d (on_banks (alter (verified now) i) d).
Proof.
  intros Hd. apply step_same_merchants; try done. intros j (b & r & Hb & Hm & Hs). simpl.
  destruct (decide (b = i)) as [->|Hne].
  - exists i, (verified now r). simpl. by rewrite lookup_alter_eq, Hb.
  - exists b, r. simpl. by rewrite lookup_alter_ne.
Qed.

Lemma step_insert_contract d row d' : db_ok d → insert_contract row d = Ok d' → step d d' ∧ m_events d' = m_events d.
Proof.
  intros Hd Hi. unfold insert_contract in Hi. case_match; [done|]. injection Hi as <-. split; [|done].
  apply step_same_merchants; try done. intros j (c & Hc & ?). exists c. split; [|done]. simpl. apply elem_of_app. by left.
Qed.

Lemma count_verified_pos i d : (count_verified_bank_accounts i d <? 1)%nat = false → has_verified_bank i d.
Proof.
  unfold count_verified_bank_accounts. intros Hl%Nat.ltb_ge. destruct (filter _ _) as [|[b r] l] eqn:E; [simpl in Hl; lia|].
  assert (Hin : (b, r) ∈ (b, r) :: l) by left. rewrite <- E in Hin. apply list_elem_of_filter in Hin as [[? ?] Hin].
  apply elem_of_map_to_list in Hin. by exists b, r.
Qed.

Lemma count_contracts_pos i d : (count_contracts i d <? 1)%nat = false → has_contract i d.
Proof.
  unfold count_contracts. intros Hl%Nat.ltb_ge. destruct (filter _ _) as [|c l] eqn:E; [simpl in Hl; lia|].
  assert (Hin : c ∈ c :: l) by left. rewrite <- E in Hin. apply list_elem_of_filter in Hin as [? Hin]. by exists c.
Qed.

Lemma moved_evolves now i s target reason m d :
  status m = status_value s → target ∈ _EDGES s → (target = ACTIVE → may_be_active i d) →
  evolves m (moved now target reason m) ∧ row_ok d i (moved now target reason m).
Proof.
  intros Hs Ht Ha. split; [|exists target; by destruct target].
  unfold evolves. split_and!; try by destruct target. intros s0 Hs0. rewrite Hs in Hs0. apply merchant_status_inj in Hs0 as <-.
  exists target. split; [by destruct target|]. by apply rtc_once.
Qed.
End invariant.

(** ** Sequences of requests and events *)

Definition announced (d : mdb) : list (string * json) := (λ e, (me_kind e, me_payload e)) <$> m_events d.

Section requests.
Variables (uuid_str : uuid → string) (cfg : Settings) (encrypt : string → string → string).

Inductive mreq :=
| MOnboard (p : AccessClaims) (i o : uuid) (business : string) (reg : option string) (ctry ty : string)
| MTier (p : AccessClaims) (i : uuid) (tier : string)
| MDecide (now : Z) (i : uuid) (decision : ReviewDecision) (reason : option string)
| MEvent (now : Z) (name : string) (merchant : option uuid) (reason : option string)
| MAddBank (p : AccessClaims) (i m : uuid) (nonce rl details cur : string)
| MVerifyBank (now : Z) (p : AccessClaims) (m i : uuid)
| MContract (now : Z) (p : AccessClaims) (m : uuid) (ver : string) (accepted : bool) (ip agent : option string)
| MUpload (p : AccessClaims) (i m : uuid) (kind content : string).

Definition handle (q : mreq) : H unit :=
  match q with
  | MOnboard p i o b r c t => _ ← onboard uuid_str cfg p i o b r c t; mret tt
  | MTier p i t => _ ← set_fee_tier uuid_str p i t; mret tt
  | MDecide now i dec r => _ ← decide_ uuid_str cfg now i dec r; mret tt
  | MEvent now n m r => handle_event uuid_str cfg now n m r
  | MAddBank p i m nonce rl det cur => _ ← add_bank_account uuid_str encrypt p i m nonce rl det cur; mret tt
  | MVerifyBank now p m i => _ ← verify_bank_account uuid_str now p m i; mret tt
  | MContract now p m v a ip ag => _ ← accept_contract uuid_str now p m v a ip ag; mret tt
  | MUpload p i m k c => _ ← upload_document uuid_str cfg p i m k c; mret tt
  end.

Definition serve (s : mdb * mworld) (q : mreq) : mdb * mworld :=
  let '(_, d, x) := request (handle q) s.1 s.2 in (d, x).

Definition serve_all (s : mdb * mworld) (qs : list mreq) : mdb * mworld := fold_left serve qs s.

Definition sound (s : mdb * mworld) : Prop := db_ok cfg s.1 ∧ announced s.1 = m_published s.2.

(** What every request ends in, also where it raises. *)
Definition kept (d d' : mdb) (x' : mworld) : Prop := step cfg d d' ∧ announced d' = m_published x'.

Definition keeps {A} (m : H A) : Prop := ∀ d x,
  sound (d, x) → wp m (λ _ w, kept d (db w) (ext w)) (Uow d d x).

Lemma m_kept_refl d x : sound (d, x) → kept d d x.
Proof. intros [Hd Ha]. split; [split; [done|reflexivity]|done]. Qed.

Lemma announce_kept d t x ty i n p Φ :
  sound (d, x) → step cfg d t → m_events t = m_events d →
  (∀ w, kept d (db w) (ext w) → Φ (Ok tt) w) → wp (announce ty i n p) Φ (Uow d t x).
Proof.
  intros [Hd Ha] Hs He HΦ. unfold announce, publish. wp_go. apply HΦ. split; [exact Hs|].
  unfold announced, add_event. simpl in *. rewrite fmap_app, He, <- Ha. done.
Qed.

Ltac m_go := repeat (cbv beta iota zeta; match goal with
  | |- wp (announce _ _ _ _) _ _ => fail 1
  | |- wp (get_for_member _ _ _) _ _ => unfold get_for_member
  | |- wp (_assert_activation_preconditions _ _) _ _ => unfold _assert_activation_preconditions
  | _ => wp_step end); try by apply m_kept_refl.

(** The end of every mutation: announce, then answer. *)
Ltac m_announce Hs := eapply announce_kept; [exact Hs| | |intros w Hk; wp_go; done].

Lemma onboard_keeps p i o b r c t : keeps (onboard uuid_str cfg p i o b r c t).
Proof.
  intros d x Hs. unfold onboard. m_go.
  match goal with Hi : insert_merchant _ _ _ = Ok _ |- _ => eapply (step_insert cfg) in Hi as [Hst He]; [|apply Hs|done] end.
  by m_announce Hs.
Qed.

Lemma tier_keeps p i t : keeps (set_fee_tier uuid_str p i t).
Proof.
  intros d x Hs. unfold set_fee_tier. m_go.
  match goal with Hm : merchants d !! i = Some ?m |- _ => pose proof (proj1 (proj1 Hs) i m Hm) as (s & Hst & Ha);
    assert (Hstep : step cfg d (on_merchants (alter (with_tier t) i) d)) end.
  { eapply step_alter; [apply Hs|done|split_and!; try done; intros s0 Hs0; by exists s0|by exists s|done]. }
  by m_announce Hs.
Qed.

Lemma decide_keeps now i dec r : keeps (decide_ uuid_str cfg now i dec r).
Proof.
  intros d x Hs. unfold decide_.
  apply wp_bind, wp_query. cbn [tx]. destruct (merchants d !! i) as [m|] eqn:Hm; [|wp_go; by apply m_kept_refl].
  pose proof (proj1 (proj1 Hs) i m Hm) as (s & Hst & _). rewrite Hst, m_status_of_value. cbv zeta.
  set (target := target_for dec). apply wp_bind, wp_lift.
  unfold assert_transition. destruct (can_transition s target) eqn:Ht; [|by apply m_kept_refl].
  apply bool_decide_eq_true in Ht.
  assert (Hcont : (target = ACTIVE → may_be_active cfg i d) →
    wp (write (on_merchants (alter (moved now target r) i)) ;; match decision_event target with
        | None => throw (PyError KeyError)
        | Some name => announce "merchant" i name
            (JObj ([("merchant_id", JStr (uuid_str i)); ("status", JStr (status_value target)); ("decision", JStr (decision_value dec))] ++
               match r with Some r => [("reason", JStr r)] | None => [] end)) ;; mret (moved now target r m)
        end) (λ _ w, kept d (db w) (ext w)) (Uow d d x)).
  { intros Hact. destruct (moved_evolves cfg now i s target r m d Hst Ht Hact) as [He Hrow].
    assert (Hstep : step cfg d (on_merchants (alter (moved now target r) i) d)).
    { eapply step_alter; [apply Hs|done|done|done|]. intros m'. by destruct target. }
    m_go. by m_announce Hs. }
  apply wp_bind. destruct (bool_decide_reflect (target = ACTIVE)) as [Htg|Htg]; simpl; [|apply wp_ret; by apply Hcont].
  unfold when, _assert_activation_preconditions. wp_go; try by apply m_kept_refl. apply Hcont. intros _.
  split; intros Hreq; rewrite Hreq in *; simpl in *; [by apply count_verified_pos|by apply count_contracts_pos].
Qed.

Lemma add_bank_keeps p i m nonce rl det cur : keeps (add_bank_account uuid_str encrypt p i m nonce rl det cur).
Proof.
  intros d x Hs. unfold add_bank_account. m_go.
  match goal with Hi : insert_bank_account _ _ _ = Ok _ |- _ => eapply (step_insert_bank cfg) in Hi as [Hst He]; [|apply Hs] end.
  by m_announce Hs.
Qed.

Lemma verify_bank_keeps now p m i : keeps (verify_bank_account uuid_str now p m i).
Proof.
  intros d x Hs. unfold verify_bank_account. m_go.
  pose proof (step_verify_bank cfg d i now (proj1 Hs)) as Hst. by m_announce Hs.
Qed.

Lemma contract_keeps now p m v a ip ag : keeps (accept_contract uuid_str now p m v a ip ag).
Proof.
  intros d x Hs. unfold accept_contract. m_go.
  match goal with Hi : insert_contract _ _ = Ok _ |- _ => eapply (step_insert_contract cfg) in Hi as [Hst He]; [|apply Hs] end.
  by m_announce Hs.
Qed.

Lemma upload_keeps p i m k c : keeps (upload_document uuid_str cfg p i m k c).
Proof.
  intros d x Hs. unfold upload_document. m_go; try (split; [split; [apply Hs|reflexivity]|apply Hs]).
  match goal with Hi : insert_document _ _ _ = Ok _ |- _ => unfold insert_document in Hi; case_match; [done|]; injection Hi as <- end.
  split; [|apply Hs]. apply step_same_merchants; try done. apply Hs.
Qed.

Lemma keeps_unit {A} (m : H A) : keeps m → keeps (m ≫= λ _, mret tt).
Proof. intros Hm d x Hs. apply wp_bind. eapply wp_mono; [by apply Hm|]. by intros [a|e] w Hk. Qed.

Lemma merchant_handle_keeps q : keeps (handle q).
Proof.
  destruct q; simpl; try apply keeps_unit;
    auto using onboard_keeps, tier_keeps, decide_keeps, add_bank_keeps, verify_bank_keeps, contract_keeps, upload_keeps.
  unfold handle_event. destruct (_DECISION_BY_EVENT name) as [dec|]; [destruct merchant as [i|]|].
  - apply keeps_unit, decide_keeps.
  - intros d x Hs. apply wp_ret. by apply m_kept_refl.
  - intros d x Hs. destruct merchant; apply wp_ret; by apply m_kept_refl.
Qed.

Lemma m_serve_kept s q : sound s → kept s.1 (serve s q).1 (serve s q).2.
Proof.
  destruct s as [d x]. intros Hs. unfold serve. simpl.
  pose proof (wp_request (handle q) (λ _ d' x', kept d d' x') d x (merchant_handle_keeps q d x Hs)) as Hk.
  by destruct (request (handle q) d x) as [[r d'] x'].
Qed.

Lemma m_serve_all_kept qs s : sound s → kept s.1 (serve_all s qs).1 (serve_all s qs).2.
Proof.
  revert s. induction qs as [|q qs IH]; intros s Hs; simpl; [by destruct s; apply m_kept_refl|].
  destruct (m_serve_kept s q Hs) as [[Hd Hm] Ha]. destruct (IH (serve s q)) as [[Hd' Hm'] Ha']; [done|].
  split; [split; [done|by etrans]|done].
Qed.

Definition start : mdb * mworld := (mkMdb ∅ ∅ ∅ [] [], mkMW [] ∅).

Lemma m_start_sound : sound start.
Proof.
  split; [|done]. split; [apply map_Forall_empty|]. intros i j a b Hi. by destruct (lookup_empty_Some (M := gmap uuid) i a).
Qed.

(** ** Correctness *)

(** C18: over any sequence of merchant requests, review decisions and bus events,
    every organization has at most one merchant, a merchant keeps its
    organization, name, country and type, its status moves only along the edges
    of the state machine and never leaves REJECTED, the outbox is exactly what
    was published, and a merchant that is ACTIVE, now and whenever later, has a
    verified bank account and an accepted contract (as far as the settings demand
    them). *)
Theorem merchant_lifecycle (qs qs' : list mreq) :
  let s := serve_all start qs in
  let s' := serve_all s qs' in
  unique_by org_id (merchants s.1) ∧ announced s.1 = m_published s.2 ∧
  ∀ i m, merchants s.1 !! i = Some m →
    (status m = status_value ACTIVE → may_be_active cfg i s.1) ∧
    ∃ m', merchants s'.1 !! i = Some m' ∧ evolves m m' ∧ (status m = status_value REJECTED → status m' = status m).
Proof.
  intros s s'. destruct (m_serve_all_kept qs start m_start_sound) as [[[Hrows Hu] _] Ha].
  destruct (m_serve_all_kept qs' s) as [[_ Hm] _]; [by split|]. split_and!; [done|done|]. intros i m Hi.
  destruct (Hrows i m Hi) as (st & Hst & Hact). split.
  - rewrite Hst. intros Heq%merchant_status_inj. by apply Hact.
  - destruct (Hm i m Hi) as (m' & Hm' & He). exists m'. split_and!; [done|done|]. intros Hrej.
    destruct He as (_ & _ & _ & _ & Hmove). destruct (Hmove REJECTED Hrej) as (st' & Hst' & Hedge).
    inversion Hedge as [|? y ? Hy]; subst; [congruence|]. by apply elem_of_nil in Hy.
Qed.

(** bank details never leave the row they are encrypted into: two requests
    that differ only in the (valid) account details and the cipher's randomness
    write the same outbox rows, publish the same events, change the other tables
    alike and answer alike, up to the encrypted reference. *)
Theorem bank_details_not_announced (p : AccessClaims) (i m : uuid) (nonce nonce' rl details details' cur : string)
    (d : mdb) (x : mworld) (Hvalid : _valid_account_details details = _valid_account_details details') :
  let r := request (add_bank_account uuid_str encrypt p i m nonce rl details cur) d x in
  let r' := request (add_bank_account uuid_str encrypt p i m nonce' rl details' cur) d x in
  r.2 = r'.2 ∧ m_events r.1.2 = m_events r'.1.2 ∧ merchants r.1.2 = merchants r'.1.2 ∧
  match r.1.1, r'.1.1 with
  | Ok b, Ok b' =>
      account_ref b = encrypt nonce (strip details) ∧ account_ref b' = encrypt nonce' (strip details') ∧
      b' = mkBank (b_merchant b) (rail b) (account_ref b') (currency b) (b_status b) (verified_at b)
  | Raise e, Raise e' => e = e'
  | _, _ => False
  end.
Proof.
  unfold add_bank_account, get_for_member. rewrite <- Hvalid. unfold request, mbind, handler_bind, query. cbn [tx].
  destruct (merchants d !! m) as [row|] eqn:Hm; [|done].
  destruct (bool_decide (org_role p (uuid_str (org_id row)) = None)); [done|]. cbv beta iota.
  destruct (bool_decide (rl ∉ Rails)); [done|]. destruct (_valid_account_details details); [|done]. simpl.
  unfold try_write, insert_bank_account. simpl. by destruct (bool_decide (is_Some (banks d !! i)) || bool_decide _).
Qed.
End requests.

(** ** Concrete runs *)

Definition demo_cfg : Settings := mkSettings "KE, ug" true true 10 "docs".
Definition demo_owner : AccessClaims := Identity.mkClaims "1" [mkOrgRole "7" "owner" None] ["payer"] 0 "j" "s" false [] 0 0.

Definition demo_steps : list mreq :=
  [MOnboard demo_owner 20%N 7%N "Duka" None "ke " "company"; MAddBank demo_owner 21%N 20%N "n" "mpesa" " 0712 " "kes";
   MVerifyBank 5 demo_owner 20%N 21%N; MContract 6 demo_owner 20%N "v1" true None None;
   MEvent 7 "compliance.kyb.passed" (Some 20%N) None].

Lemma merchant_lifecycle_witness :
  ∃ m, merchants (serve_all PyJson.show_N demo_cfg String.append start demo_steps).1 !! 20%N = Some m ∧
    status m = "ACTIVE" ∧ may_be_active demo_cfg 20%N (serve_all PyJson.show_N demo_cfg String.append start demo_steps).1.
Proof.
  destruct (merchant_lifecycle PyJson.show_N demo_cfg String.append demo_steps []) as (_ & _ & Hm).
  destruct (merchants (serve_all PyJson.show_N demo_cfg String.append start demo_steps).1 !! 20%N) as [m|] eqn:E;
    [|by vm_compute in E].
  exists m. destruct (Hm 20%N m E) as [Hact _]. vm_compute in E. injection E as <-. split_and!; [done|done|by apply Hact].
Defined.

Lemma bank_details_not_announced_witness :
  let s := serve_all PyJson.show_N demo_cfg String.append start (take 1 demo_steps) in
  (request (add_bank_account PyJson.show_N String.append demo_owner 22%N 20%N "n" "mpesa" "0712" "kes") s.1 s.2).2 =
  (request (add_bank_account PyJson.show_N String.append demo_owner 22%N 20%N "k" "mpesa" "0799" "kes") s.1 s.2).2.
Proof.
  intros s. by apply (bank_details_not_announced PyJson.show_N String.append demo_owner 22%N 20%N "n" "k" "mpesa" "0712" "0799" "kes").
Defined.
End Merchant.
