(* ===== verification/ObjectStore.v ===== *)
(** * merchant-onboarding: the document store

    [merchant-onboarding/app/storage/object_store.py]: the filesystem store.  A
    resolved path is its list of segments (no symbolic links, no NUL in a key); the root is an
    absolute, resolved path; a directory exists when a file is below it. *)
From S2P Require Import Prelude PyText PyNum.
From Stdlib Require Import Ascii.

Module ObjectStore.

Abbreviation path := (list (list ascii)).

(** [key.lstrip("/")] *)
Definition lstrip_slash (l : list ascii) : list ascii := PyNum.drop_these ["/"%char] l.

(** The segments of [Path(text)]: empty ones and ["."] vanish. *)
Definition segments (l : list ascii) : path :=
  filter (λ s, s ≠ [] ∧ s ≠ chars ".") (split_chars "/"%char [] l).

(** [resolve()]: [".."] goes up, the root is its own parent. *)
Definition up_or_down (p : path) (s : list ascii) : path :=
  if bool_decide (s = chars "..") then removelast p else p ++ [s].
Definition resolve (p : path) (rel : path) : path := fold_left up_or_down rel p.

(** [str(path)] *)
Definition slashed (p : path) : list ascii := p ≫= λ s, "/"%char :: s.
Definition str_path (p : path) : list ascii := match p with [] => ["/"%char] | _ => slashed p end.

Definition starts_with (p l : list ascii) : bool := bool_decide (take (length p) l = p).

Definition _path (root : path) (key : string) : outcome pyerr path :=
  let target := resolve root (segments (lstrip_slash (chars key))) in
  if starts_with (str_path root) (str_path target) then Ok target else Raise ValueError.

(** The files by path. *)
Abbreviation files := (gmap (list (list ascii)) string).

(** A path is a directory when a file lies below it; a file on the way stops
    [mkdir]. *)
Definition below (p q : path) : bool := bool_decide (length p < length q)%nat && bool_decide (take (length p) q = p).
Definition obstructed (p : path) (fs : files) : bool := existsb (λ kv, below p kv.1 || below kv.1 p) (map_to_list fs).

Definition put (root : path) (key data : string) (fs : files) : outcome pyerr files :=
  let? p := _path root key in
  if obstructed p fs then Raise OSError else Ok (<[p := data]> fs).

Definition get (root : path) (key : string) (fs : files) : outcome pyerr string :=
  let? p := _path root key in
  match fs !! p with Some data => Ok data | None => Raise OSError end.

(** ** Containment *)

(** Segments are not empty and hold no slash. *)
Definition clean (p : path) : Prop := Forall (λ s, "/"%char ∉ s ∧ s ≠ []) p.

Lemma split_clean sep cur l : sep ∉ cur → Forall (λ s, sep ∉ s) (split_chars sep cur l).
Proof.
  revert cur. induction l as [|c l IH]; intros cur Hc; simpl.
  - constructor; [|constructor]. by rewrite ?elem_of_reverse.
  - case_bool_decide as E.
    + constructor; [by rewrite ?elem_of_reverse|]. apply IH. apply not_elem_of_nil.
    + apply IH. set_solver.
Qed.

Lemma segments_clean l : clean (segments l).
Proof.
  apply Forall_forall. intros s [[Hn _] Hs]%list_elem_of_filter. split; [|done]. revert s Hn Hs.
  pose proof (split_clean "/"%char [] l (not_elem_of_nil _)) as Hf. rewrite Forall_forall in Hf. auto.
Qed.

Lemma removelast_sub {A} (l : list A) : removelast l `prefix_of` l.
Proof. destruct l as [|a l]; [done|]. exists [List.last (a :: l) a]. by apply app_removelast_last. Qed.

Lemma resolve_clean p rel : clean p → clean rel → clean (resolve p rel).
Proof.
  unfold resolve. revert p. induction rel as [|s rel IH]; intros p Hp Hr; [done|]. apply Forall_cons in Hr as [Hs Hr].
  cbn [fold_left]. apply IH; [|done]. unfold up_or_down. case_bool_decide.
  - destruct (removelast_sub p) as [q Hq]. unfold clean in Hp. rewrite Hq in Hp. by apply Forall_app in Hp as [? _].
  - apply Forall_app. by split; [|constructor].
Qed.

(** Up to the first slash. *)
Lemma cut_at (a b x y : list ascii) : "/"%char ∉ a → "/"%char ∉ b → a ++ "/"%char :: x = b ++ "/"%char :: y → a = b ∧ x = y.
Proof.
  revert b. induction a as [|c a IH]; intros [|e b] Ha Hb Heq; simplify_eq/=; [done|set_solver|set_solver|].
  destruct (IH b) as [-> ->]; [set_solver|set_solver|done|done].
Qed.

Lemma cut_end (a b y z : list ascii) : "/"%char ∉ a → "/"%char ∉ b → a ++ z = b ++ "/"%char :: y → (∃ x, b = a ++ x) ∨ a = b ∧ z = "/"%char :: y.
Proof.
  revert b. induction a as [|c a IH]; intros [|e b] Ha Hb Heq; simplify_eq/=; [by right|left; by eexists|set_solver|].
  destruct (IH b) as [[x ->]|[-> ->]]; [set_solver|set_solver|done|left; by eexists|by right].
Qed.

(** The text of a path below another, or of a sibling whose name goes on. *)
Lemma slashed_prefix root target z : clean root → clean target → root ≠ [] → slashed root ++ z = slashed target →
  (∃ rest, target = root ++ rest) ∨
  ∃ parent name suffix rest, root = parent ++ [name] ∧ suffix ≠ [] ∧ target = parent ++ (name ++ suffix) :: rest.
Proof.
  revert target. induction root as [|r root IH]; intros [|t target] Hr Ht Hne Heq; try done.
  apply Forall_cons in Hr as [[Hr _] Hroot]. apply Forall_cons in Ht as [[Ht _] Htarget].
  unfold slashed in Heq. rewrite !bind_cons in Heq. simpl in Heq. injection Heq as Heq. fold (slashed root) (slashed target) in Heq.
  rewrite <- app_assoc in Heq. destruct root as [|r' root].
  - simpl in Heq. destruct target as [|t' target].
    + simpl in Heq. rewrite app_nil_r in Heq. subst t. destruct z as [|c z].
      * left. exists []. by rewrite app_nil_r.
      * right. exists [], r, (c :: z), []. done.
    + unfold slashed in Heq. rewrite bind_cons in Heq. simpl in Heq. apply cut_end in Heq as [[x ->]|[-> ->]]; [| |done|done].
      * destruct x as [|c x]; [left; exists (t' :: target); by rewrite app_nil_r|]. right. by exists [], r, (c :: x), (t' :: target).
      * left. by exists (t' :: target).
  - assert (Hx : ∃ x, slashed (r' :: root) = "/"%char :: x) by (unfold slashed; rewrite bind_cons; by eexists).
    destruct Hx as [x Hx]. rewrite Hx in Heq. destruct target as [|t' target].
    + simpl in Heq. rewrite app_nil_r in Heq. subst t. set_solver.
    + assert (Hy : ∃ y, slashed (t' :: target) = "/"%char :: y) by (unfold slashed; rewrite bind_cons; by eexists).
      destruct Hy as [y Hy]. rewrite Hy in Heq. simpl in Heq. apply cut_at in Heq as [-> Heq]; [|done|done].
      destruct (IH (t' :: target)) as [[rest ->]|(parent & name & suffix & rest & -> & Hs & ->)]; [done|done|done| | |].
      * rewrite Hx, Hy. simpl. by rewrite Heq.
      * left. by exists rest.
      * right. by exists (t :: parent), name, suffix, rest.
Qed.

(** Without [".."] a key only goes down. *)
Lemma resolve_down root rel : Forall (λ s, s ≠ chars "..") rel → resolve root rel = root ++ rel.
Proof.
  unfold resolve. revert root. induction rel as [|s rel IH]; intros root Hr; [by rewrite app_nil_r|].
  apply Forall_cons in Hr as [Hs Hr]. cbn [fold_left]. unfold up_or_down at 2. rewrite bool_decide_eq_false_2 by done.
  rewrite IH by done. by rewrite <- app_assoc.
Qed.

Lemma slashed_cons s p : slashed (s :: p) = "/"%char :: s ++ slashed p.
Proof. done. Qed.

Lemma str_slashed p : p ≠ [] → str_path p = slashed p.
Proof. by destruct p. Qed.

Lemma path_down root key : root ≠ [] → Forall (λ s, s ≠ chars "..") (segments (lstrip_slash (chars key))) →
  _path root key = Ok (root ++ segments (lstrip_slash (chars key))).
Proof.
  intros Hne Hk. unfold _path. rewrite resolve_down by done. unfold starts_with.
  rewrite bool_decide_true; [done|]. rewrite (str_slashed root), (str_slashed (root ++ _)) by (done || by destruct root).
  unfold slashed. by rewrite bind_app, take_app_length.
Qed.

Lemma path_contained root key target : root ≠ [] → clean root → _path root key = Ok target →
  (∃ rest, target = root ++ rest) ∨
  ∃ parent name suffix rest, root = parent ++ [name] ∧ suffix ≠ [] ∧ target = parent ++ (name ++ suffix) :: rest.
Proof.
  intros Hne Hclean. unfold _path. set (t := resolve root _). destruct (starts_with _ _) eqn:E; [|done]. intros [= <-].
  assert (Ht : clean t) by (apply resolve_clean; [done|apply segments_clean]).
  unfold starts_with in E. apply bool_decide_eq_true in E.
  assert (Hz : str_path root ++ drop (length (str_path root)) (str_path t) = str_path t) by (rewrite <- E at 1; apply take_drop).
  destruct root as [|r root]; [done|]. destruct t as [|t0 t'] eqn:Et.
  - rewrite str_slashed, slashed_cons in Hz by done. injection Hz as Hz.
    apply Forall_cons in Hclean as [[_ Hr] _]. by destruct r.
  - by eapply slashed_prefix.
Qed.

(** A key may leave the root for a sibling whose name starts with the root's. *)
Example sibling_escape :
  _path [chars "data"; chars "docs"] "../docs-old/secret" = Ok [chars "data"; chars "docs-old"; chars "secret"] ∧
  _path [chars "data"; chars "docs"] "../../etc/passwd" = Raise ValueError.
Proof. by vm_compute. Qed.

(** ** The documents of the service *)

(** A segment that stays one segment. *)
Definition plain (s : string) : bool :=
  bool_decide ("/"%char ∉ chars s) && bool_decide (s ≠ "" ∧ s ≠ "." ∧ s ≠ "..").

Lemma split_plain sep cur l : sep ∉ l → split_chars sep cur l = [reverse cur ++ l].
Proof.
  revert cur. induction l as [|c l IH]; intros cur Hl; simpl; [by rewrite app_nil_r|].
  rewrite bool_decide_eq_false_2 by set_solver. rewrite IH by set_solver. by rewrite reverse_cons, <- app_assoc.
Qed.

Lemma split_segment sep cur l m : sep ∉ l → split_chars sep cur (l ++ sep :: m) = (reverse cur ++ l) :: split_chars sep [] m.
Proof.
  revert cur. induction l as [|c l IH]; intros cur Hl; simpl; [by rewrite bool_decide_eq_true_2, app_nil_r|].
  rewrite bool_decide_eq_false_2 by set_solver. rewrite IH by set_solver. by rewrite reverse_cons, <- app_assoc.
Qed.

(** [str(uuid)] is hexadecimal digits and dashes. *)
Lemma uuid_text_plain u : plain (PyNum.uuid_text u) = true.
Proof.
  assert (Hall : ∀ c, c ≠ "-"%char → forallb (λ x, negb (bool_decide (x = c))) (chars "0123456789abcdef") = true →
    c ∉ chars (PyNum.uuid_text u)).
  { intros c Hc Hb Hin. unfold PyNum.uuid_text in Hin. fold (PyNum.dashed (PyNum.hexn 32 u)) in Hin. rewrite chars_text in Hin.
    assert (Hd : Forall (λ x, x ≠ c) (PyNum.dashed (PyNum.hexn 32 u))).
    { apply PyNum.dashed_forall; [congruence|]. eapply Forall_impl; [apply PyNum.hexn_lowhex|]. intros x. by apply PyNum.lowhex_not. }
    rewrite Forall_forall in Hd. by apply (Hd c). }
  assert (Hdash : "-"%char ∈ chars (PyNum.uuid_text u)).
  { unfold PyNum.uuid_text. rewrite chars_text. apply elem_of_app. right. by left. }
  unfold plain. apply andb_true_iff. rewrite !bool_decide_eq_true. split; [by apply Hall|].
  split_and!; intros E; rewrite E in Hdash; vm_compute in Hdash; set_solver.
Qed.

Section documents.
(** [uuid_text] is such a [uuid_str]. *)
Context (uuid_str : uuid → string) (uuid_plain : ∀ u, plain (uuid_str u) = true).
Variables (root : path) (prefix : string).

(** The key of [documents_service.upload]. *)
Definition document_key (m i : uuid) : string := prefix +:+ "/" +:+ uuid_str m +:+ "/" +:+ uuid_str i.

Record upload := mkUpload { u_merchant : uuid; u_document : uuid; u_content : string }.

(** A run of [put]s, each of which has to succeed. *)
Fixpoint put_all (us : list upload) (fs : files) : outcome pyerr files :=
  match us with
  | [] => Ok fs
  | u :: us => let? fs := put root (document_key (u_merchant u) (u_document u)) (u_content u) fs in put_all us fs
  end.

(** The same run on the map by key that [Merchant.v] has for the store. *)
Definition objects_after (us : list upload) (os : gmap string string) : gmap string string :=
  fold_left (λ os u, <[document_key (u_merchant u) (u_document u) := u_content u]> os) us os.

Lemma plain_chars s : plain s = true → "/"%char ∉ chars s ∧ chars s ≠ [] ∧ chars s ≠ chars "." ∧ chars s ≠ chars "..".
Proof.
  intros [H1 H2]%andb_true_iff. apply bool_decide_eq_true in H1, H2. destruct H2 as (? & ? & ?).
  split_and!; [done|intros E..]; apply (f_equal text) in E; by rewrite text_chars in E.
Qed.

Lemma document_path m i : root ≠ [] → plain prefix = true →
  _path root (document_key m i) = Ok (root ++ [chars prefix; chars (uuid_str m); chars (uuid_str i)]).
Proof.
  intros Hr Hp. destruct (plain_chars _ Hp) as (Hp1 & Hp2 & Hp3 & Hp4).
  destruct (plain_chars _ (uuid_plain m)) as (Hm1 & Hm2 & Hm3 & Hm4), (plain_chars _ (uuid_plain i)) as (Hi1 & Hi2 & Hi3 & Hi4).
  assert (Hs : segments (lstrip_slash (chars (document_key m i))) = [chars prefix; chars (uuid_str m); chars (uuid_str i)]).
  { unfold document_key, lstrip_slash. rewrite !chars_app. simpl. destruct (chars prefix) as [|c l] eqn:El; [done|].
    simpl. rewrite bool_decide_eq_false_2 by set_solver. unfold segments. rewrite app_comm_cons, split_segment by done.
    rewrite split_segment, split_plain by done. simpl. by rewrite !filter_cons_True, filter_nil. }
  rewrite path_down; [by rewrite Hs|done|]. rewrite Hs. by repeat constructor.
Qed.

(** The files are the objects, all below [root/prefix]. *)
Definition stores (os : gmap string string) (fs : files) : Prop :=
  (∀ m i, fs !! (root ++ [chars prefix; chars (uuid_str m); chars (uuid_str i)]) = os !! document_key m i) ∧
  ∀ p data, fs !! p = Some data → ∃ m i, p = root ++ [chars prefix; chars (uuid_str m); chars (uuid_str i)].

Lemma stores_free os fs m i : stores os fs → obstructed (root ++ [chars prefix; chars (uuid_str m); chars (uuid_str i)]) fs = false.
Proof.
  intros [_ Hall]. unfold obstructed. apply not_true_iff_false. intros ((p & data) & Hin & Hb)%existsb_exists.
  apply list_elem_of_In, elem_of_map_to_list in Hin. destruct (Hall _ _ Hin) as (m' & i' & ->). revert Hb. unfold below. cbn [fst].
  rewrite !length_app. simpl. rewrite !bool_decide_eq_false_2 by lia. done.
Qed.

(** Keys and paths determine each other. *)
Lemma key_path m i m' i' : root ≠ [] → plain prefix = true →
  document_key m i = document_key m' i' ↔
  root ++ [chars prefix; chars (uuid_str m); chars (uuid_str i)] = root ++ [chars prefix; chars (uuid_str m'); chars (uuid_str i')].
Proof.
  intros Hr Hp. split.
  - intros E. pose proof (document_path m i Hr Hp) as H1. rewrite E, document_path in H1 by done. by injection H1.
  - intros [= Em Ei]%app_inv_head. apply (f_equal text) in Em, Ei. rewrite !text_chars in Em, Ei.
    unfold document_key. by rewrite Em, Ei.
Qed.

Lemma put_stores os fs m i data : root ≠ [] → plain prefix = true → stores os fs →
  ∃ fs', put root (document_key m i) data fs = Ok fs' ∧ stores (<[document_key m i := data]> os) fs'.
Proof.
  intros Hr Hp Hst. unfold put. rewrite document_path by done. cbn. rewrite (stores_free os) by done. eexists. split; [done|].
  destruct Hst as [Heq Hall]. split.
  - intros m' i'. destruct (decide (document_key m i = document_key m' i')) as [E|E].
    + rewrite <- E. apply key_path in E as <-; [|done..]. by rewrite !lookup_insert_eq.
    + rewrite (lookup_insert_ne os) by done. rewrite lookup_insert_ne; [done|]. by rewrite <- key_path.
  - intros p d. destruct (decide (p = root ++ [chars prefix; chars (uuid_str m); chars (uuid_str i)])) as [->|E]; [by exists m, i|].
    rewrite lookup_insert_ne by done. apply Hall.
Qed.

Lemma put_all_stores us os fs : root ≠ [] → plain prefix = true → stores os fs →
  ∃ fs', put_all us fs = Ok fs' ∧ stores (objects_after us os) fs'.
Proof.
  intros Hr Hp. revert os fs. induction us as [|u us IH]; intros os fs Hst; [by exists fs|].
  destruct (put_stores os fs (u_merchant u) (u_document u) (u_content u) Hr Hp Hst) as (fs1 & Hput & Hst1).
  cbn [put_all]. rewrite Hput. by apply IH.
Qed.

(** C38: the filesystem store refines a map from key to content: whatever
    documents the service uploads under [prefix/merchant/document], each [put]
    succeeds, each [get] of such a key gives the last content stored under it
    (an OS error when there is none), and every file written is below the
    prefix directory of the root. *)
Theorem document_store_refines_map us (Hroot : root ≠ []) (Hprefix : plain prefix = true) :
  ∃ fs, put_all us ∅ = Ok fs ∧
    (∀ m i, get root (document_key m i) fs =
       match objects_after us ∅ !! document_key m i with Some data => Ok data | None => Raise OSError end) ∧
    ∀ p data, fs !! p = Some data → ∃ rest, p = root ++ chars prefix :: rest.
Proof.
  destruct (put_all_stores us ∅ ∅ Hroot Hprefix) as (fs & Hput & Heq & Hall); [split; [done|by intros]|].
  exists fs. split_and!; [done| |].
  - intros m i. unfold get. rewrite document_path by done. cbn. by rewrite Heq.
  - intros p data Hp. destruct (Hall p data Hp) as (m & i & ->). by eexists.
Qed.
End documents.

Lemma document_store_refines_map_witness : ∃ fs,
  put_all PyNum.uuid_text [chars "srv"; chars "docs"] "merchant-documents" [mkUpload 1 2 "first"; mkUpload 1 3 "other"; mkUpload 1 2 "second"] ∅ = Ok fs ∧
  get [chars "srv"; chars "docs"] (document_key PyNum.uuid_text "merchant-documents" 1 2) fs = Ok "second".
Proof.
  destruct (document_store_refines_map PyNum.uuid_text uuid_text_plain [chars "srv"; chars "docs"] "merchant-documents"
    [mkUpload 1 2 "first"; mkUpload 1 3 "other"; mkUpload 1 2 "second"]) as (fs & Hput & Hget & _); [done|by vm_compute|].
  exists fs. split; [exact Hput|]. rewrite Hget. by vm_compute.
Defined.
End ObjectStore.
