(* ===== verification/MerchantApi.v ===== *)
(** * merchant-onboarding: the HTTP API

    [merchant-onboarding/app/api/v1]: the request and response models of
    [schemas.py] and the routes of [merchants.py], [bank_accounts.py],
    [contracts.py], [documents.py] and [internal.py] over the services of
    [Merchant].  The ids of contract rows, which the database draws, and pydantic's
    reading of booleans and integers are parameters. *)
From S2P Require Import Prelude PyText PyJson PyNum Fingerprint UnitOfWork Tables Idempotency IdentityDb Merchant Pydantic Routes.

Module MerchantApi.
Import Identity Merchant Pydantic PyNum.
Open Scope Z_scope.

(** ** schemas.py *)

Record OnboardRequest := mkOnboard {
  on_org : string; on_business : string; on_registration : option string; on_country : string; on_type : string }.

Definition parse_onboard (b : json) : parsed OnboardRequest :=
  let? o := model b in
  let? g := req_str "org_id" o in
  let? n := sized_str "business_name" 1 (Some 200%nat) o in
  let? r := opt_sized "registration_no" 128 o in
  let? c := sized_str "country" 2 (Some 2%nat) o in
  let? t := enum "type" MerchantTypes o in
  Ok (mkOnboard g n r c t).

Definition dump_onboard (q : OnboardRequest) : fields :=
  [("org_id", JStr (on_org q)); ("business_name", JStr (on_business q)); ("registration_no", ostr (on_registration q));
   ("country", JStr (on_country q)); ("type", JStr (on_type q))].

Record AddBankAccountRequest := mkAddBank { ab_rail : string; ab_details : string; ab_currency : string; ab_country : string }.

Definition parse_add_bank (b : json) : parsed AddBankAccountRequest :=
  let? o := model b in
  let? r := enum "rail" Rails o in
  let? d := sized_str "account_details" 1 (Some 256%nat) o in
  let? cur := sized_str "currency" 3 (Some 3%nat) o in
  let? ctry := sized_str "country" 2 (Some 2%nat) o in
  Ok (mkAddBank r d cur ctry).

(** [VerifyBankAccountRequest | None]: the amounts are not used. *)
Definition parse_verify (lax_int : json → bool) (b : option json) : parsed unit :=
  match b with
  | None | Some JNull => Ok tt
  | Some v =>
      let? o := model v in
      match field "micro_deposit_amounts" o with
      | None | Some JNull => Ok tt
      | Some (JList l) => check (forallb lax_int l)
      | Some _ => Raise ValidationError
      end
  end.

Record AcceptContractRequest := mkAccept { ac_version : string; ac_accepted : bool }.

Definition parse_accept (lax_bool : json → option bool) (b : json) : parsed AcceptContractRequest :=
  let? o := model b in
  let? v := sized_str "contract_version" 1 (Some 64%nat) o in
  match field "accepted" o ≫= lax_bool with
  | Some a => Ok (mkAccept v a)
  | None => Raise ValidationError
  end.

Definition dump_accept (q : AcceptContractRequest) : fields :=
  [("contract_version", JStr (ac_version q)); ("accepted", JBool (ac_accepted q))].

Definition parse_tier (b : json) : parsed string := let? o := model b in enum "tier" FeeTiers o.

Definition Decisions : list ReviewDecision := [APPROVE; REJECT; SUSPEND; REINSTATE].

Record DecisionRequest := mkDecision { dr_decision : ReviewDecision; dr_reason : option string }.

Definition parse_decision (b : json) : parsed DecisionRequest :=
  let? o := model b in
  let? v := enum "decision" (decision_value <$> Decisions) o in
  let? r := opt_sized "reason" 512 o in
  match head (filter (λ d, decision_value d = v) Decisions) with
  | Some d => Ok (mkDecision d r)
  | None => Raise ValidationError
  end.

Definition dump_decision (q : DecisionRequest) : fields :=
  [("decision", JStr (decision_value (dr_decision q))); ("reason", ostr (dr_reason q))].

Definition id_status (k : string) (i : uuid) (st : string) : json := JObj [(k, JStr (uuid_text i)); ("status", JStr st)].

Definition BankAccountSummary (b : uuid * BankAccountRow) : json :=
  JObj [("bank_account_id", JStr (uuid_text b.1)); ("rail", JStr (rail b.2)); ("currency", JStr (currency b.2));
        ("status", JStr (b_status b.2)); ("verified_at", otime (verified_at b.2))].

(** ** Routes *)

Section api.
Context {R : Type} `{!RedisLike R}.
Variables (cfg : Settings) (encrypt : string → string → string) (service : string) (ttl : Z) (sha256_hex : string → string).
Variables (contract_id : ContractRow → Z) (lax_int : json → bool) (lax_bool : json → option bool).

Abbreviation world := (mdb * mworld)%type.
Abbreviation served := (outcome (Idem.route_exn (exn ErrorCode)) (Z * json) * R * world)%type.
Abbreviation with_body := (Routes.with_body (D := mdb) (X := mworld) (Code := ErrorCode) (R := R)).
Abbreviation with_uuid := (Routes.with_uuid (D := mdb) (X := mworld) (R := R) INVALID_PAYLOAD).
Abbreviation idempotent := (Routes.idempotent (R := R) service ttl sha256_hex).

(** *** merchants.py *)

(** [tax_id] is never set. *)
Definition _merchant_response (i : uuid) (r : MerchantRow * list (uuid * BankAccountRow)) : json :=
  let '(m, accounts) := r in
  JObj [("merchant_id", JStr (uuid_text i)); ("org_id", JStr (uuid_text (org_id m))); ("business_name", JStr (business_name m));
        ("registration_no", ostr (registration_no m)); ("tax_id", JNull); ("country", JStr (country m)); ("type", JStr (type_ m));
        ("status", JStr (status m)); ("fee_tier", JStr (fee_tier m)); ("onboarded_at", otime (onboarded_at m));
        ("suspended_at", otime (suspended_at m)); ("suspended_reason", ostr (suspended_reason m));
        ("bank_accounts", JList (BankAccountSummary <$> accounts))].

Definition onboard (c : Idem.clock) (key : option string) (i : uuid) (p : AccessClaims) (b : json) : R → world → served :=
  with_body parse_onboard b (λ q, with_uuid (on_org q) (λ o,
    idempotent c "onboard" key (("user", JStr (c_user p)) :: dump_onboard q) 201 (λ m, id_status "merchant_id" i (status m))
      (Merchant.onboard uuid_text cfg p i o (on_business q) (on_registration q) (on_country q) (on_type q)))).

Definition get_merchant (merchant_id : string) (p : AccessClaims) : R → world → served :=
  with_uuid merchant_id (λ i,
    Routes.plain 200 (_merchant_response i)
      (m ← get_for_member uuid_text p i;
       accounts ← list_accounts uuid_text p i;
       mret (m, accounts))).

(** *** internal_admin.py: the single view; the search is [Lookup.v]. *)

Definition get_admin (i : uuid) : H MerchantRow :=
  m ← query (λ d, merchants d !! i);
  match m with Some m => mret m | None => raise MERCHANT_NOT_FOUND end.

Definition list_bank_accounts_admin (i : uuid) : H (list (uuid * BankAccountRow)) := query (list_bank_accounts i).

Definition admin_get_merchant (merchant_id : string) : R → world → served :=
  with_uuid merchant_id (λ i,
    Routes.plain 200 (_merchant_response i)
      (m ← get_admin i;
       accounts ← list_bank_accounts_admin i;
       mret (m, accounts))).

Definition fee_tier_response (now : Z) (i : uuid) (m : MerchantRow) : json :=
  JObj [("merchant_id", JStr (uuid_text i)); ("tier", JStr (fee_tier m)); ("effective_at", JInt (default now (onboarded_at m)))].

Definition get_fee_tier (now : Z) (merchant_id : string) (p : AccessClaims) : R → world → served :=
  with_uuid merchant_id (λ i, Routes.plain 200 (fee_tier_response now i) (get_for_member uuid_text p i)).

Definition update_fee_tier (c : Idem.clock) (key : option string) (now : Z) (merchant_id : string) (p : AccessClaims) (b : json) :
    R → world → served :=
  with_body parse_tier b (λ t, with_uuid merchant_id (λ i,
    idempotent c "update_fee_tier" key [("merchant_id", JStr merchant_id); ("tier", JStr t)] 200 (fee_tier_response now i)
      (set_fee_tier uuid_text p i t))).

(** *** bank_accounts.py *)

(** The account details are not part of the payload. *)
Definition bank_payload (merchant_id : string) (q : AddBankAccountRequest) : fields :=
  [("merchant_id", JStr merchant_id); ("rail", JStr (ab_rail q)); ("currency", JStr (ab_currency q)); ("country", JStr (ab_country q))].

Definition add_bank (c : Idem.clock) (key : option string) (i : uuid) (nonce merchant_id : string) (p : AccessClaims) (b : json) :
    R → world → served :=
  with_body parse_add_bank b (λ q, with_uuid merchant_id (λ m,
    idempotent c "add_bank_account" key (bank_payload merchant_id q) 201 (λ a, id_status "bank_account_id" i (b_status a))
      (add_bank_account uuid_text encrypt p i m nonce (ab_rail q) (ab_details q) (ab_currency q)))).

Definition verify_bank (c : Idem.clock) (key : option string) (now : Z) (merchant_id bank_account_id : string) (p : AccessClaims)
    (b : option json) : R → world → served := λ s w,
  match parse_verify lax_int b with
  | Raise _ => (Raise (Idem.RequestValidationError (default JNull b)), s, w)
  | Ok _ =>
      with_uuid merchant_id (λ m, with_uuid bank_account_id (λ i,
        idempotent c "verify_bank_account" key [("merchant_id", JStr merchant_id); ("bank_account_id", JStr bank_account_id)] 200
          (λ a, id_status "bank_account_id" i (b_status a)) (verify_bank_account uuid_text now p m i))) s w
  end.

(** *** contracts.py *)

Definition _contract_response (k : ContractRow) : json :=
  JObj [("id", JInt (contract_id k)); ("merchant_id", JStr (uuid_text (k_merchant k))); ("version", JStr (version k));
        ("accepted_by", JStr (accepted_by k)); ("accepted_at", JInt (accepted_at k)); ("ip", ostr (k_ip k));
        ("user_agent", ostr (k_agent k))].

Definition contracts_route (merchant_id : string) (p : AccessClaims) : R → world → served :=
  with_uuid merchant_id (λ i,
    Routes.plain 200 (λ l, JObj [("items", JList (_contract_response <$> l))]) (contracts_of uuid_text p i)).

Definition accept (c : Idem.clock) (key : option string) (now : Z) (merchant_id : string) (p : AccessClaims) (ip agent : option string)
    (b : json) : R → world → served :=
  with_body (parse_accept lax_bool) b (λ q, with_uuid merchant_id (λ i,
    idempotent c "accept_contract" key ([("merchant_id", JStr merchant_id); ("user", JStr (c_user p))] ++ dump_accept q) 201
      _contract_response (accept_contract uuid_text now p i (ac_version q) (ac_accepted q) ip agent))).

(** *** documents.py *)

Definition upload (c : Idem.clock) (key : option string) (i : uuid) (merchant_id : string) (p : AccessClaims)
    (file_name : option string) (kind content : string) : R → world → served :=
  with_uuid merchant_id (λ m,
    idempotent c "upload_document" key
      [("merchant_id", JStr merchant_id); ("kind", JStr kind); ("filename", JStr (str_or file_name "document"));
       ("sha256", JStr (sha256_hex content))] 201
      (λ _, id_status "document_id" i "UPLOADED") (upload_document uuid_text cfg p i m kind content)).

(** *** internal.py *)

Definition decide_route (c : Idem.clock) (key : option string) (now : Z) (merchant_id : string) (b : json) : R → world → served :=
  with_body parse_decision b (λ q, with_uuid merchant_id (λ i,
    idempotent c "decision" key (("merchant_id", JStr merchant_id) :: dump_decision q) 200
      (λ m, id_status "merchant_id" i (status m)) (decide_ uuid_text cfg now i (dr_decision q) (dr_reason q)))).

(** *** The routes together *)

Inductive call :=
| Onboard (c : Idem.clock) (key : option string) (i : uuid) (p : AccessClaims) (b : json)
| GetMerchant (merchant_id : string) (p : AccessClaims)
| AdminGetMerchant (merchant_id : string)
| GetFeeTier (now : Z) (merchant_id : string) (p : AccessClaims)
| UpdateFeeTier (c : Idem.clock) (key : option string) (now : Z) (merchant_id : string) (p : AccessClaims) (b : json)
| AddBank (c : Idem.clock) (key : option string) (i : uuid) (nonce merchant_id : string) (p : AccessClaims) (b : json)
| VerifyBank (c : Idem.clock) (key : option string) (now : Z) (merchant_id bank_account_id : string) (p : AccessClaims) (b : option json)
| Contracts (merchant_id : string) (p : AccessClaims)
| Accept (c : Idem.clock) (key : option string) (now : Z) (merchant_id : string) (p : AccessClaims) (ip agent : option string) (b : json)
| Upload (c : Idem.clock) (key : option string) (i : uuid) (merchant_id : string) (p : AccessClaims) (file_name : option string)
    (kind content : string)
| Decide (c : Idem.clock) (key : option string) (now : Z) (merchant_id : string) (b : json).

Definition serve (q : call) : R → world → served :=
  match q with
  | Onboard c key i p b => onboard c key i p b
  | GetMerchant m p => get_merchant m p
  | AdminGetMerchant m => admin_get_merchant m
  | GetFeeTier now m p => get_fee_tier now m p
  | UpdateFeeTier c key now m p b => update_fee_tier c key now m p b
  | AddBank c key i nonce m p b => add_bank c key i nonce m p b
  | VerifyBank c key now m i p b => verify_bank c key now m i p b
  | Contracts m p => contracts_route m p
  | Accept c key now m p ip agent b => accept c key now m p ip agent b
  | Upload c key i m p f kind content => upload c key i m p f kind content
  | Decide c key now m b => decide_route c key now m b
  end.

Fixpoint serve_all (qs : list call) (s : R) (w : world) : list (outcome (Idem.route_exn (exn ErrorCode)) (Z * json)) * R * world :=
  match qs with
  | [] => ([], s, w)
  | q :: qs =>
      let '(a, s1, w1) := serve q s w in
      let '(l, s2, w2) := serve_all qs s1 w1 in
      (a :: l, s2, w2)
  end.
End api.
End MerchantApi.
