(* ===== verification/Outbox.v ===== *)
(** * The outbox relays

    [app/events/relay.py], the same class in six services: a background task that
    publishes the unpublished rows of the service's outbox table to Kafka, in the
    order of their ids, and marks them, one batch per transaction.  The producer
    ([linkmint_eventbus.KafkaPublisher]) is the class [BusProducer]; an exception
    of it may come before or after the broker took the message.

    [_drain_once] and [run] are the code of one relay; [rstep] is the system of
    several relays on one table, where a transaction holds the rows it selected
    ([FOR UPDATE SKIP LOCKED]) until it ends. *)
From S2P Require Import Prelude UnitOfWork Tables.

Module Outbox.

Record orow (P : Type) := mkRow {
  o_id : N; o_kind : string; o_key : option string; o_payload : P; published_at : option Z }.
Arguments mkRow {P} o_id o_kind o_key o_payload published_at.
Arguments o_id {P} o.
Arguments o_kind {P} o.
Arguments o_key {P} o.
Arguments o_payload {P} o.
Arguments published_at {P} o.

Section relay.
Context {P : Type}.
Notation row := (orow P).

Definition msg : Type := string * string * P.

(** [publish(row["kind"], row["key"] or "", row["payload"])] *)
Definition msg_of (r : row) : msg := (o_kind r, str_or (o_key r) "", o_payload r).

Definition id_le (a b : row) : Prop := (o_id a ≤ o_id b)%N.

#[global] Instance id_le_dec : RelDecision id_le.
Proof. intros a b. unfold id_le. apply _. Defined.
#[global] Instance id_le_trans : Transitive id_le.
Proof. unfold id_le. intros a b c. lia. Qed.
#[global] Instance id_le_total : Total id_le.
Proof. unfold id_le. intros a b. lia. Qed.

(** [WHERE published_at IS NULL ORDER BY id] *)
Definition pending (t : list row) : list row := merge_sort id_le (filter (λ r, published_at r = None) t).

(** The [_select] statement, with nothing locked. *)
Definition select (n : nat) (t : list row) : list row := take n (pending t).

(** The [_mark] statement. *)
Definition mark (now : Z) (i : N) (t : list row) : list row :=
  (λ r, if bool_decide (o_id r = i) then mkRow (o_id r) (o_kind r) (o_key r) (o_payload r) (Some now) else r) <$> t.

Definition mark_all (now : Z) (rows : list row) (t : list row) : list row :=
  fold_left (λ t r, mark now (o_id r) t) rows t.

(** ** The queue of unpublished rows *)

Implicit Types t : list row.

Definition ids (t : list row) : list N := o_id <$> t.

Lemma pending_perm t : pending t ≡ₚ filter (λ r, published_at r = None) t.
Proof. apply merge_sort_Permutation. Qed.

Lemma elem_of_pending t r : r ∈ pending t ↔ r ∈ t ∧ published_at r = None.
Proof. rewrite pending_perm, list_elem_of_filter. naive_solver. Qed.

Lemma NoDup_ids_filter (Q : row → Prop) `{∀ r, Decision (Q r)} t : NoDup (ids t) → NoDup (ids (filter Q t)).
Proof.
  induction t as [|r t IH]; [done|]. rewrite filter_cons. cbn [ids fmap list_fmap]. intros [Hn Ht]%NoDup_cons.
  destruct (decide (Q r)); [|by apply IH]. cbn. apply NoDup_cons. split; [|by apply IH].
  intros (r' & Hr & [_ Hin]%list_elem_of_filter)%list_elem_of_fmap. apply Hn. rewrite Hr. by apply list_elem_of_fmap_2.
Qed.

Lemma NoDup_pending t : NoDup (ids t) → NoDup (ids (pending t)).
Proof. intros Ht. unfold ids. rewrite pending_perm. by apply NoDup_ids_filter. Qed.

(** A sorted list without repeated ids is determined by its elements. *)
Lemma sorted_unique (l k : list row) :
  NoDup (ids l) → StronglySorted id_le l → StronglySorted id_le k → l ≡ₚ k → l = k.
Proof.
  intros Hnd Hl Hk Hp. apply (StronglySorted_unique_strong id_le); [|done..].
  intros x y Hx Hy Hxy Hyx. rewrite <- Hp in Hy. apply (NoDup_map_inj o_id l x y Hnd Hx Hy). unfold id_le in *. lia.
Qed.

Lemma pending_sorted t : StronglySorted id_le (pending t).
Proof. apply StronglySorted_merge_sort; apply _. Qed.

(** A new event with the largest id goes to the end of the queue. *)
Lemma pending_arrive t r :
  NoDup (ids (t ++ [r])) → (∀ r', r' ∈ t → (o_id r' < o_id r)%N) → published_at r = None →
  pending (t ++ [r]) = pending t ++ [r].
Proof.
  intros Hnd Hlt Hr. symmetry. apply sorted_unique.
  - apply (NoDup_ids_filter (λ r, published_at r = None)) in Hnd. rewrite filter_app, filter_cons_True in Hnd by done.
    unfold ids in *. by rewrite (pending_perm t).
  - apply StronglySorted_app. split_and!; [|apply pending_sorted|repeat constructor].
    intros x y [Hx _]%elem_of_pending ->%list_elem_of_singleton. unfold id_le. pose proof (Hlt x Hx). lia.
  - apply pending_sorted.
  - rewrite !pending_perm, filter_app. by rewrite filter_cons_True.
Qed.

Lemma ids_mark now i t : ids (mark now i t) = ids t.
Proof.
  unfold ids, mark. rewrite <- list_fmap_compose. apply list_fmap_ext. intros k r _. simpl. by case_bool_decide.
Qed.

Lemma ids_mark_all now rows t : ids (mark_all now rows t) = ids t.
Proof. unfold mark_all. revert t. induction rows as [|r rows IH]; intros t; simpl; [done|]. by rewrite IH, ids_mark. Qed.

Lemma mark_absent now i t : i ∉ ids t → mark now i t = t.
Proof.
  intros Hi. unfold mark. rewrite <- (list_fmap_id t) at 2. apply list_fmap_ext. intros k y Hy.
  case_bool_decide as Hy'; [|done]. destruct Hi. rewrite <- Hy'. by eapply list_elem_of_fmap_2, list_elem_of_lookup_2.
Qed.

Lemma filter_mark now r t : NoDup (ids t) → r ∈ t → published_at r = None →
  r :: filter (λ r, published_at r = None) (mark now (o_id r) t) ≡ₚ filter (λ r, published_at r = None) t.
Proof.
  intros Hnd Hr Hn. revert Hnd Hr. induction t as [|x t IH]; [by intros _ ?%elem_of_nil|].
  cbn [ids fmap list_fmap]. intros [Hx Ht]%NoDup_cons Hr. cbn [mark fmap list_fmap]. case_bool_decide as Hid.
  - assert (x = r) as ->.
    { apply elem_of_cons in Hr as [->|Hr]; [done|]. destruct Hx. rewrite Hid. by apply list_elem_of_fmap_2. }
    rewrite filter_cons_False by done. rewrite filter_cons_True by done. by fold (mark now (o_id r) t); rewrite mark_absent.
  - apply elem_of_cons in Hr as [->|Hr]; [done|]. rewrite !filter_cons.
    destruct (decide _); [rewrite <- (IH Ht Hr); apply perm_swap|by apply IH].
Qed.

Lemma pending_mark now r l t :
  NoDup (ids t) → pending t = r :: l → pending (mark now (o_id r) t) = l.
Proof.
  intros Hnd Hp. assert (Hs : StronglySorted id_le (r :: l)) by (rewrite <- Hp; apply pending_sorted).
  assert (Hr : r ∈ pending t) by (rewrite Hp; set_solver). apply elem_of_pending in Hr as [Hr Hn].
  apply sorted_unique; [by apply NoDup_pending; rewrite ids_mark|apply pending_sorted|by inversion Hs|].
  apply (Permutation_cons_inv (a := r)). by rewrite pending_perm, filter_mark, <- pending_perm, Hp.
Qed.

(** A clean drain takes the front of the queue. *)
Lemma pending_mark_all now n t : NoDup (ids t) → pending (mark_all now (take n (pending t)) t) = drop n (pending t).
Proof.
  revert t. induction n as [|n IH]; intros t Hnd; [done|].
  destruct (pending t) as [|r l] eqn:Hp; [done|]. simpl.
  pose proof (pending_mark now r l t Hnd Hp) as Hm. specialize (IH (mark now (o_id r) t)). rewrite Hm in IH.
  unfold mark_all in *. simpl. apply IH. by rewrite ids_mark.
Qed.
Lemma mark_all_other now rows t r : r ∈ t → o_id r ∉ ids rows → r ∈ mark_all now rows t.
Proof.
  revert t. unfold mark_all. induction rows as [|x rows IH]; intros t Hr Hn; simpl; [done|].
  apply IH; [|set_solver]. unfold mark. apply list_elem_of_fmap. exists r. split; [|done].
  rewrite bool_decide_eq_false_2; [done|set_solver].
Qed.

(** ** The producer *)

Class BusProducer (X : Type) := {
  send : msg → X → outcome pyerr unit * X;
  sent : X → list msg }.

Class BusLaws (X : Type) `{!BusProducer X} : Prop := {
  send_ok m x x' : send m x = (Ok tt, x') → sent x' = sent x ++ [m];
  send_raise m x e x' : send m x = (Raise e, x') → sent x' = sent x ∨ sent x' = sent x ++ [m] }.

Section drain.
Context {X : Type} `{!BusProducer X}.
Notation H := (handler (list row) X unit).

Definition publish (r : row) : H unit := λ w,
  let '(o, x) := send (msg_of r) (ext w) in
  (match o with Ok _ => Ok tt | Raise k => Raise (PyError k) end, Uow (db w) (tx w) x).

Definition _drain_once (batch : nat) (now : Z) : H nat :=
  rows ← query (select batch);
  for_each rows (λ r, publish r ;; write (mark now (o_id r))) ;;
  commit ;;
  mret (length rows).

(** One turn of the loop of [run]: the number of rows published, 0 after an
    exception, which decides whether the relay sleeps. *)
Definition turn (batch : nat) (now : Z) (s : list row * X) : nat * (list row * X) :=
  match request (_drain_once batch now) s.1 s.2 with
  | (Ok n, t, x) => (n, (t, x))
  | (Raise _, t, x) => (0, (t, x))
  end.

(** What happens to a relay's table: a turn of the relay at some time, or a
    service commits an event. *)
Inductive event := Turn (now : Z) | Arrive (r : row).

Definition happen (batch : nat) (s : list row * X) (e : event) : list row * X :=
  match e with
  | Turn now => (turn batch now s).2
  | Arrive r => (s.1 ++ [r], s.2)
  end.

Definition run (batch : nat) (s : list row * X) (es : list event) : list row * X := fold_left (happen batch) es s.

(** ** One drain *)

Context `{!BusLaws X}.

Lemma loop_spec (rows : list row) now w :
  ∃ k extra, let '(r, w') := for_each rows (λ r, publish r ;; write (mark now (o_id r))) w in
    db w' = db w ∧ sent (ext w') = sent (ext w) ++ (msg_of <$> take k rows) ++ extra ∧
    match r with
    | Ok _ => k = length rows ∧ extra = [] ∧ tx w' = mark_all now rows (tx w)
    | Raise _ => k < length rows ∧ (extra = [] ∨ ∃ r, rows !! k = Some r ∧ extra = [msg_of r])
    end.
Proof.
  revert w. induction rows as [|r rows IH]; intros w; simpl.
  { exists 0, []. by rewrite !app_nil_r. }
  unfold mbind, handler_bind, publish. destruct (send (msg_of r) (ext w)) as [[[]|e] x] eqn:Es; simpl.
  - destruct (IH (Uow (db w) (mark now (o_id r) (tx w)) x)) as (k & extra & IHk). exists (S k), extra.
    destruct (for_each _ _ _) as [o w']; simpl in *. destruct IHk as (Hdb & Hsent & Ho).
    rewrite Hsent, (send_ok _ _ _ Es), <- !app_assoc. split_and!; [done|done|].
    destruct o; [|simpl; destruct Ho; split; [lia|done]]. destruct Ho as (-> & ? & ?). by split_and!.
  - destruct (send_raise _ _ _ _ Es) as [Hs|Hs]; rewrite Hs.
    + exists 0, []. rewrite !app_nil_r. split_and!; [done|done|lia|by left].
    + exists 0, [msg_of r]. split_and!; [done|done|lia|]. right. by exists r.
Qed.

Lemma drain_spec batch now t x :
  let '(o, t', x') := request (_drain_once batch now) t x in
  let rows := select batch t in
  match o with
  | Ok n => n = length rows ∧ t' = mark_all now rows t ∧ sent x' = sent x ++ (msg_of <$> rows)
  | Raise _ => t' = t ∧ ∃ k extra, k < length rows ∧ sent x' = sent x ++ (msg_of <$> take k rows) ++ extra ∧
      (extra = [] ∨ ∃ r, rows !! k = Some r ∧ extra = [msg_of r])
  end.
Proof.
  unfold request, _drain_once. unfold mbind at 1, handler_bind at 1, query. simpl.
  destruct (loop_spec (select batch t) now (Uow t t x)) as (k & extra & Hl).
  unfold mbind, handler_bind, commit, mret, handler_ret.
  destruct (for_each _ _ _) as [[[]|e] w']; simpl in *; destruct Hl as (Hdb & Hsent & Ho).
  - destruct Ho as (-> & -> & Htx). rewrite Hsent, app_nil_r, firstn_all. by split_and!.
  - split; [done|]. exists k, extra. destruct Ho. by split_and!.
Qed.
(** one drain is all or nothing on the table.  When it succeeds it has published
    exactly the first [batch] unpublished rows, in the order of their ids and
    each once, and these rows, and no others, leave the queue; when the producer
    raises, no row is marked, and what went out is a prefix of the same rows, which
    the next drain starts again. *)
Theorem drain_takes_front (batch : nat) (now : Z) (t : list row) (x : X) (Hnd : NoDup (ids t)) :
  let '(o, t', x') := request (_drain_once batch now) t x in
  let rows := take batch (pending t) in
  match o with
  | Ok n => n = length rows ∧ pending t' = drop batch (pending t) ∧ ids t' = ids t ∧
      (∀ r, r ∈ t → r ∉ rows → r ∈ t') ∧ sent x' = sent x ++ (msg_of <$> rows)
  | Raise _ => t' = t ∧ ∃ k, k ≤ length rows ∧ sent x' = sent x ++ (msg_of <$> take k rows)
  end.
Proof.
  pose proof (drain_spec batch now t x) as Hd. destruct (request _ t x) as [[[n|e] t'] x']; unfold select in Hd.
  - destruct Hd as (-> & -> & ->). split_and!; [done|by apply pending_mark_all|by rewrite ids_mark_all| |done].
    intros r Hr Hn. apply mark_all_other; [done|]. intros (r' & Hid & Hr')%list_elem_of_fmap. apply Hn.
    assert (r = r') as ->; [|done]. apply (NoDup_map_inj o_id t); [done|done| |done].
    apply elem_of_take in Hr' as (k & Hk & _). apply list_elem_of_lookup_2, elem_of_pending in Hk. apply Hk.
  - destruct Hd as (-> & k & extra & Hk & -> & Hex). split; [done|]. destruct Hex as [->|(r & Hr & ->)].
    + exists k. rewrite app_nil_r. split; [lia|done].
    + exists (S k). split; [lia|]. by rewrite (take_S_r _ _ _ Hr), fmap_app.
Qed.

(** ** Every event is published in the end *)

Definition clean (batch : nat) (now : Z) (s : list row * X) : bool := is_ok (request (_drain_once batch now) s.1 s.2).1.1.

Fixpoint clean_turns (batch : nat) (s : list row * X) (es : list event) : nat :=
  match es with
  | [] => 0
  | e :: es' =>
      (match e with Turn now => if clean batch now s then 1 else 0 | Arrive _ => 0 end) +
      clean_turns batch (happen batch s e) es'
  end.

(** Ids come from a sequence: a new row has the largest. *)
Fixpoint arrivals_ok (batch : nat) (s : list row * X) (es : list event) : Prop :=
  match es with
  | [] => True
  | e :: es' =>
      match e with
      | Arrive r => published_at r = None ∧ ∀ r', r' ∈ s.1 → (o_id r' < o_id r)%N
      | Turn _ => True
      end ∧ arrivals_ok batch (happen batch s e) es'
  end.

(** The rows of [old] that wait are the front [q] of the queue. *)
Definition waiting (old : list N) (q : list row) (t : list row) : Prop :=
  NoDup (ids t) ∧ old ⊆ ids t ∧ ∃ rest, pending t = q ++ rest ∧ ∀ r, r ∈ rest → o_id r ∉ old.

Lemma waiting_start old t : NoDup (ids t) → old ⊆ ids t → waiting old (pending t) t.
Proof. intros. split_and!; [done|done|]. exists []. rewrite app_nil_r. split; [done|]. by intros ? ?%elem_of_nil. Qed.

Lemma waiting_arrive old q t r : waiting old q t → published_at r = None → (∀ r', r' ∈ t → (o_id r' < o_id r)%N) →
  waiting old q (t ++ [r]).
Proof.
  intros (Hnd & Hold & rest & Hp & Hrest) Hn Hlt.
  assert (Hfresh : o_id r ∉ ids t).
  { intros (r' & Hr & Hin)%list_elem_of_fmap. pose proof (Hlt r' Hin). lia. }
  assert (Hnd' : NoDup (ids (t ++ [r]))).
  { unfold ids. rewrite fmap_app. apply NoDup_app. split_and!; [done|set_solver|apply NoDup_singleton]. }
  split_and!; [done|unfold ids; rewrite fmap_app; set_solver|]. exists (rest ++ [r]). split.
  - rewrite pending_arrive by done. by rewrite Hp, app_assoc.
  - intros r' [Hr'|Hr']%elem_of_app; [by apply Hrest|]. apply list_elem_of_singleton in Hr' as ->. set_solver.
Qed.

Lemma turn_waiting old q batch now s :
  waiting old q s.1 → waiting old (if clean batch now s then drop batch q else q) (turn batch now s).2.1 ∧
    ∃ more, sent (turn batch now s).2.2 = sent s.2 ++ more ∧
      (clean batch now s = true → ∀ r, r ∈ take batch q → msg_of r ∈ more).
Proof.
  intros (Hnd & Hold & rest & Hp & Hrest). pose proof (drain_spec batch now s.1 s.2) as Hd. unfold turn, clean.
  destruct (request _ s.1 s.2) as [[[n|e] t'] x']; simpl.
  - destruct Hd as (_ & -> & ->). unfold select. split; [split_and!|].
    + by rewrite ids_mark_all.
    + by rewrite ids_mark_all.
    + exists (drop (batch - length q) rest). rewrite pending_mark_all by done. rewrite Hp, drop_app. split; [done|].
      intros r [k Hr]%list_elem_of_lookup. rewrite lookup_drop in Hr. apply Hrest. by eapply list_elem_of_lookup_2.
    + eexists. split; [done|]. intros _ r Hr. apply list_elem_of_fmap_2. rewrite Hp, take_app. set_solver.
  - destruct Hd as (-> & k & extra & _ & -> & _). split; [by split_and!; eauto|]. by eexists.
Qed.

Lemma run_waiting old batch es : ∀ q s, waiting old q s.1 → arrivals_ok batch s es →
  waiting old (drop (batch * clean_turns batch s es) q) (run batch s es).1 ∧
  ∃ more, sent (run batch s es).2 = sent s.2 ++ more ∧
    ∀ r, r ∈ take (batch * clean_turns batch s es) q → msg_of r ∈ more.
Proof.
  induction es as [|e es IH]; intros q s Hw Ha.
  { simpl. rewrite Nat.mul_0_r. split; [done|]. exists []. rewrite app_nil_r. split; [done|]. intros r ?%elem_of_nil. done. }
  destruct Ha as [He Ha]. change (run batch s (e :: es)) with (run batch (happen batch s e) es). cbn [clean_turns].
  destruct e as [now|r].
  - destruct (turn_waiting old q batch now s Hw) as [Hw' (more & Hs & Hmore)].
    destruct (IH _ (happen batch s (Turn now)) Hw' Ha) as [Hw2 (more2 & Hs2 & Hm2)]. destruct (clean batch now s).
    + rewrite Nat.mul_add_distr_l, Nat.mul_1_r, <- drop_drop. split; [done|]. exists (more ++ more2).
      rewrite Hs2. cbn [happen]. rewrite Hs, app_assoc. split; [done|]. intros r Hr. apply elem_of_app.
      rewrite <- take_take_drop in Hr. apply elem_of_app in Hr as [Hr|Hr]; [left; by apply Hmore|right; by apply Hm2].
    + split; [done|]. exists (more ++ more2). rewrite Hs2. cbn [happen]. rewrite Hs, app_assoc. split; [done|].
      intros r Hr. apply elem_of_app. right. by apply Hm2.
  - destruct He as [Hn Hlt]. apply (IH q (s.1 ++ [r], s.2)); [by apply waiting_arrive|done].
Qed.

(** no event is left behind.  Whatever the producer refuses in between and
    whatever new events the services commit, once enough turns of the relay have
    gone through to cover the rows that were waiting at the start, each of these rows
    is marked published and its message has been handed to the bus. *)
Theorem outbox_drained_eventually (batch : nat) (t : list row) (x : X) (es : list event) (r : row)
    (Hids : NoDup (ids t)) (Harr : arrivals_ok batch (t, x) es)
    (Henough : length (pending t) ≤ batch * clean_turns batch (t, x) es)
    (Hr : r ∈ t) (Hnew : published_at r = None) :
  let '(t', x') := run batch (t, x) es in
  (∃ r', r' ∈ t' ∧ o_id r' = o_id r ∧ published_at r' ≠ None) ∧ ∃ more, sent x' = sent x ++ more ∧ msg_of r ∈ more.
Proof.
  pose proof (waiting_start (ids t) t Hids (reflexivity _)) as Hw.
  destruct (run_waiting (ids t) batch es (pending t) (t, x) Hw Harr) as [(_ & Hold & rest & Hp & Hrest) (more & Hs & Hm)].
  destruct (run batch (t, x) es) as [t' x']. simpl in *. split.
  - assert (Hid : o_id r ∈ ids t') by (apply Hold; by apply list_elem_of_fmap_2).
    apply list_elem_of_fmap in Hid as (r' & Hid & Hr'). exists r'. split_and!; [done|done|]. intros Hn.
    assert (Hpr : r' ∈ pending t') by by apply elem_of_pending. rewrite Hp, drop_ge in Hpr by lia.
    apply (Hrest r' Hpr). rewrite <- Hid. by apply list_elem_of_fmap_2.
  - exists more. split; [done|]. apply Hm. rewrite take_ge by lia. by apply elem_of_pending.
Qed.
(** ** A row that the producer never takes *)

Fixpoint turns_of (es : list event) : nat :=
  match es with
  | [] => 0
  | Turn _ :: es' => S (turns_of es')
  | Arrive _ :: es' => turns_of es'
  end.

Fixpoint repeat_msgs (n : nat) (l : list msg) : list msg :=
  match n with 0 => [] | S n' => l ++ repeat_msgs n' l end.

Section poison.
Variables (batch k : nat) (bad : row).
Hypothesis Hrefused : ∀ x, ∃ e x', send (msg_of bad) x = (Raise e, x') ∧ sent x' = sent x.

Definition accepted (r : row) : Prop := ∀ x, is_ok (send (msg_of r) x).1 = true.

Lemma loop_blocked (good rest : list row) now w : Forall accepted good →
  let '(o, w') := for_each (good ++ bad :: rest) (λ r, publish r ;; write (mark now (o_id r))) w in
  is_ok o = false ∧ db w' = db w ∧ sent (ext w') = sent (ext w) ++ (msg_of <$> good).
Proof.
  intros Hg. revert w. induction Hg as [|r good Hr _ IH]; intros w; simpl; unfold mbind, handler_bind, publish.
  - destruct (Hrefused (ext w)) as (e & x' & -> & Hs). simpl. by rewrite app_nil_r, Hs.
  - specialize (Hr (ext w)). destruct (send (msg_of r) (ext w)) as [[[]|e] x] eqn:Es; [|done]. simpl.
    specialize (IH (Uow (db w) (mark now (o_id r) (tx w)) x)). destruct (for_each _ _ _) as [o w']. simpl in *.
    destruct IH as (? & ? & ->). by rewrite (send_ok _ _ _ Es), <- app_assoc.
Qed.

Lemma take_through (n j : nat) (r : row) (l : list row) : l !! j = Some r → j < n →
  take n l = take j l ++ r :: take (n - S j) (drop (S j) l).
Proof.
  intros Hr Hj. replace n with (S j + (n - S j)) at 1 by lia. rewrite <- take_take_drop.
  rewrite (take_S_r _ _ _ Hr). by rewrite <- app_assoc.
Qed.

Lemma turn_blocked now t x : pending t !! k = Some bad → k < batch → Forall accepted (take k (pending t)) →
  ∃ x', turn batch now (t, x) = (0, (t, x')) ∧ sent x' = sent x ++ (msg_of <$> take k (pending t)).
Proof.
  intros Hbad Hk Hg. unfold turn, request, _drain_once. cbn [fst snd].
  unfold mbind at 1, handler_bind at 1, query. cbn [tx]. unfold select.
  rewrite (take_through batch k bad) by done.
  pose proof (loop_blocked (take k (pending t)) (take (batch - S k) (drop (S k) (pending t))) now (Uow t t x) Hg) as Hl.
  unfold mbind, handler_bind. destruct (for_each _ _ _) as [[[]|e] w']; simpl in Hl; destruct Hl as (? & Hdb & Hs); [done|].
  exists (ext w'). simpl. by rewrite Hdb.
Qed.

(** one event that the producer always refuses stops the relay for good.  No row is
    marked any more, also none of the events that arrive later, while every
    turn publishes the rows before it once more: after [n] turns each of them has
    gone out [n] times. *)
Theorem poison_row_blocks_outbox (t : list row) (x : X) (es : list event)
    (Hids : NoDup (ids t)) (Hbad : pending t !! k = Some bad) (Hk : k < batch)
    (Hgood : Forall accepted (take k (pending t))) (Harr : arrivals_ok batch (t, x) es) :
  let '(t', x') := run batch (t, x) es in
  (∃ arrived, t' = t ++ arrived) ∧ (∃ more, pending t' = pending t ++ more) ∧
  sent x' = sent x ++ repeat_msgs (turns_of es) (msg_of <$> take k (pending t)).
Proof.
  revert t x Hids Hbad Hgood Harr. induction es as [|e es IH]; intros t x Hids Hbad Hgood Harr.
  { simpl. rewrite app_nil_r. split_and!; [by exists []; rewrite app_nil_r..|done]. }
  destruct Harr as [He Harr]. change (run batch (t, x) (e :: es)) with (run batch (happen batch (t, x) e) es).
  destruct e as [now|r].
  - destruct (turn_blocked now t x Hbad Hk Hgood) as (x1 & Ht & Hs).
    cbn [happen] in *. rewrite Ht in *. cbn [snd] in *. specialize (IH t x1 Hids Hbad Hgood Harr).
    destruct (run batch (t, x1) es) as [t' x']. destruct IH as (? & ? & ->). split_and!; [done|done|].
    rewrite Hs. simpl. by rewrite <- app_assoc.
  - cbn [happen fst snd turns_of] in *. destruct He as [Hn Hlt].
    pose proof (waiting_start [] t Hids ltac:(set_solver)) as Hw.
    destruct (waiting_arrive [] (pending t) t r Hw Hn Hlt) as (Hnd & _ & _).
    assert (Hp : pending (t ++ [r]) = pending t ++ [r]) by by apply pending_arrive.
    assert (Hpre : take k (pending (t ++ [r])) = take k (pending t)).
    { rewrite Hp. apply take_app_le. apply lookup_lt_Some in Hbad. lia. }
    specialize (IH (t ++ [r]) x Hnd). rewrite Hpre in IH.
    destruct (run batch (t ++ [r], x) es) as [t' x']. destruct IH as ((a & ->) & (more & Hm) & Hs); [|done|done|].
    + rewrite Hp. by apply lookup_app_l_Some.
    + split_and!; [exists (r :: a); by rewrite <- app_assoc|exists (r :: more); by rewrite Hm, Hp, <- app_assoc|done].
Qed.
End poison.
End drain.
(** ** Several relays on one table

    A relay's transaction holds the rows it selected: [todo] are still to be
    published, [done_] have been.  [log] is what the bus took, by row.  The label of
    a step counts failures: an exception or a crash of a relay, before or after
    the broker took the current row. *)

Record job := Job { done_ : list row; todo : list row }.
Record rsys := mkSys { table : list row; log : list (N * msg); jobs : gmap nat job }.

Definition held (j : job) : list row := done_ j ++ todo j.
Definition key_of (r : row) : N * msg := (o_id r, msg_of r).

(** The ids of locked rows. *)
Definition locks (js : gmap nat job) : list N := map_to_list js ≫= λ kv, o_id <$> held kv.2.

Variable batch : nat.

(** [... LIMIT n FOR UPDATE SKIP LOCKED] *)
Definition select_unlocked (s : rsys) : list row := take batch (filter (λ r, o_id r ∉ locks (jobs s)) (pending (table s))).

Inductive rstep : nat → rsys → rsys → Prop :=
| r_insert t l js r : o_id r ∉ o_id <$> t → published_at r = None → rstep 0 (mkSys t l js) (mkSys (t ++ [r]) l js)
| r_select s i : jobs s !! i = None → rstep 0 s (mkSys (table s) (log s) (<[i := Job [] (select_unlocked s)]> (jobs s)))
| r_publish t l js i d r rest : js !! i = Some (Job d (r :: rest)) →
    rstep 0 (mkSys t l js) (mkSys t (l ++ [key_of r]) (<[i := Job (d ++ [r]) rest]> js))
| r_lost_ack t l js i d r rest : js !! i = Some (Job d (r :: rest)) →
    rstep 1 (mkSys t l js) (mkSys t (l ++ [key_of r]) (delete i js))
| r_abort t l js i j : js !! i = Some j → rstep 1 (mkSys t l js) (mkSys t l (delete i js))
| r_commit t l js i d now : js !! i = Some (Job d []) →
    rstep 0 (mkSys t l js) (mkSys (mark_all now d t) l (delete i js)).

Inductive rsteps : nat → rsys → rsys → Prop :=
| rs_nil s : rsteps 0 s s
| rs_snoc n m s s1 s2 : rsteps n s s1 → rstep m s1 s2 → rsteps (n + m) s s2.

Lemma rsteps_one m s s' : rstep m s s' → rsteps m s s'.
Proof. intros Hs. apply (rs_snoc 0 m s s s'); [constructor|done]. Qed.

Lemma rsteps_app n m s s1 s2 : rsteps n s s1 → rsteps m s1 s2 → rsteps (n + m) s s2.
Proof.
  intros H1 H2. induction H2 as [s1|m k s1 s2 s3 _ IH Hs]; [by rewrite Nat.add_0_r|].
  rewrite Nat.add_assoc. eapply rs_snoc; [by apply IH|done].
Qed.

(** How often the bus took the row with id [i]. *)
Definition occ (i : N) (l : list (N * msg)) : nat := length (filter (λ kv, kv.1 = i) l).

Lemma occ_app i l k : occ i (l ++ k) = occ i l + occ i k.
Proof. unfold occ. by rewrite filter_app, length_app. Qed.

Lemma occ_one i r : occ i [key_of r] = if bool_decide (o_id r = i) then 1 else 0.
Proof. unfold occ. rewrite filter_cons. simpl. by destruct (decide (o_id r = i)) as [->|]; case_bool_decide. Qed.

(** A row of the table is settled when it is marked or published by a transaction
    in progress. *)
Definition settled (s : rsys) (i : N) : Prop :=
  (∃ r, r ∈ table s ∧ o_id r = i ∧ published_at r ≠ None) ∨
  ∃ k j, jobs s !! k = Some j ∧ i ∈ o_id <$> done_ j.

Record rinv (f : nat) (s : rsys) : Prop := {
  ri_ids : NoDup (o_id <$> table s);
  ri_held k j r : jobs s !! k = Some j → r ∈ held j → r ∈ table s ∧ published_at r = None;
  ri_nodup k j : jobs s !! k = Some j → NoDup (o_id <$> held j);
  ri_disjoint k1 k2 j1 j2 i : jobs s !! k1 = Some j1 → jobs s !! k2 = Some j2 →
    i ∈ o_id <$> held j1 → i ∈ o_id <$> held j2 → k1 = k2;
  ri_done k j r : jobs s !! k = Some j → r ∈ done_ j → key_of r ∈ log s;
  ri_marked r : r ∈ table s → published_at r ≠ None → key_of r ∈ log s;
  ri_occ i : occ i (log s) ≤ f ∨ (settled s i ∧ occ i (log s) ≤ f + 1) }.

Lemma elem_of_locks js i : i ∈ locks js ↔ ∃ k j, js !! k = Some j ∧ i ∈ o_id <$> held j.
Proof.
  unfold locks. rewrite list_elem_of_bind. split.
  - intros ([k j] & Hi & Hk%elem_of_map_to_list). by exists k, j.
  - intros (k & j & Hk & Hi). exists (k, j). split; [done|by apply elem_of_map_to_list].
Qed.
Definition marked (now : Z) (d : list row) (r : row) : row :=
  if bool_decide (o_id r ∈ ids d) then mkRow (o_id r) (o_kind r) (o_key r) (o_payload r) (Some now) else r.

Lemma mark_all_fmap now d t : mark_all now d t = marked now d <$> t.
Proof.
  revert t. unfold mark_all. induction d as [|x d IH]; intros t; simpl.
  { rewrite <- (list_fmap_id t) at 1. apply list_fmap_ext. intros k r _. unfold marked. rewrite bool_decide_eq_false_2; [done|].
    apply not_elem_of_nil. }
  rewrite IH. unfold mark. rewrite <- list_fmap_compose. apply list_fmap_ext. intros k r _. unfold compose, marked. cbn [ids fmap list_fmap].
  destruct (decide (o_id r = o_id x)) as [He|He].
  - rewrite (bool_decide_eq_true_2 (o_id r = o_id x)) by done. simpl. rewrite (bool_decide_eq_true_2 (o_id r ∈ _ :: _)) by set_solver.
    by case_bool_decide.
  - rewrite (bool_decide_eq_false_2 (o_id r = o_id x)) by done. change (o_id <$> d) with (ids d).
    repeat case_bool_decide; try done; set_solver.
Qed.

Lemma marked_key now d r : key_of (marked now d r) = key_of r.
Proof. unfold marked. by case_bool_decide. Qed.

Lemma marked_id now d r : o_id (marked now d r) = o_id r.
Proof. unfold marked. by case_bool_decide. Qed.

Lemma settled_commit now t l js i d k : js !! i = Some (Job d []) → rinv k (mkSys t l js) →
  ∀ n, settled (mkSys t l js) n → settled (mkSys (mark_all now d t) l (delete i js)) n.
Proof.
  intros Hi Hv n [(r & Hr & <- & Hp)|(k' & j & Hk & Hn)]; simpl in *.
  - left. exists (marked now d r). rewrite mark_all_fmap, marked_id. split_and!; [by apply list_elem_of_fmap_2|done|].
    unfold marked. by case_bool_decide.
  - destruct (decide (k' = i)) as [->|Hne]; [|right; exists k', j; simpl; by rewrite lookup_delete_ne].
    left. simplify_eq. simpl in Hn. apply list_elem_of_fmap in Hn as (r & -> & Hr).
    destruct (ri_held _ _ Hv i (Job d []) r Hi) as [Ht _]; [unfold held; set_solver|].
    exists (marked now d r). simpl. rewrite mark_all_fmap, marked_id. split_and!; [by apply list_elem_of_fmap_2|done|].
    unfold marked. rewrite bool_decide_eq_true_2; [done|by apply list_elem_of_fmap_2].
Qed.

(** The row a relay is about to publish is not settled: rows are locked. *)
Lemma todo_unsettled f s k d r rest : rinv f s → jobs s !! k = Some (Job d (r :: rest)) → ¬ settled s (o_id r).
Proof.
  intros Hv Hk. pose proof (ri_held _ _ Hv k _ r Hk ltac:(unfold held; set_solver)) as [Ht Hn].
  intros [(r' & Hr' & Hid & Hp)|(k' & j & Hk' & Hin)].
  - assert (r' = r) as -> by by apply (NoDup_map_inj o_id (table s)); [apply (ri_ids _ _ Hv)|..]. done.
  - assert (k = k') as <-.
    { apply (ri_disjoint _ _ Hv k k' _ _ (o_id r) Hk Hk'); unfold held; rewrite fmap_app; set_solver. }
    simplify_eq. pose proof (ri_nodup _ _ Hv k _ Hk) as Hnd. unfold held in Hnd. simpl in *. rewrite fmap_app in Hnd.
    apply NoDup_app in Hnd as (_ & Hd & _). apply (Hd _ Hin). set_solver.
Qed.
Lemma NoDup_take {A} (n : nat) (l : list A) : NoDup l → NoDup (take n l).
Proof. rewrite <- (take_drop n l) at 1. by intros (? & _)%NoDup_app. Qed.

Lemma rinv_weaken f g s : f ≤ g → rinv f s → rinv g s.
Proof. intros Hfg [H1 H2 H3 H4 H5 H6 H7]. split; [done..|]. intros i. destruct (H7 i) as [?|[? ?]]; [left; lia|right; split; [done|lia]]. Qed.

(** Taking a job away leaves an invariant that counts one more failure. *)
Lemma rinv_drop f t l l' js i : rinv f (mkSys t l js) → (∀ x, x ∈ l → x ∈ l') → (∀ n, occ n l' ≤ f + 1) →
  rinv (f + 1) (mkSys t l' (delete i js)).
Proof.
  intros [H1 H2 H3 H4 H5 H6 H7] Hl Ho. split; simpl in *; [done| | | | | |by left].
  - intros k j r [_ Hk]%lookup_delete_Some. by apply (H2 k).
  - intros k j [_ Hk]%lookup_delete_Some. by apply (H3 k).
  - intros k1 k2 j1 j2 n [_ Hk1]%lookup_delete_Some [_ Hk2]%lookup_delete_Some. by apply H4.
  - intros k j r [_ Hk]%lookup_delete_Some Hr. apply Hl. by eapply H5.
  - intros r Hr Hp. by apply Hl, H6.
Qed.

Lemma rinv_insert f t l js r : o_id r ∉ ids t → published_at r = None →
  rinv f (mkSys t l js) → rinv f (mkSys (t ++ [r]) l js).
Proof.
  intros Hf Hn [H1 H2 H3 H4 H5 H6 H7]. split; simpl in *; [|by set_solver|done|done|done| |].
  - rewrite fmap_app. apply NoDup_app. split_and!; [done| |apply NoDup_singleton]. intros x Hx ->%list_elem_of_singleton. done.
  - intros r' [Hr'|Hr']%elem_of_app Hp; [by apply H6|]. apply list_elem_of_singleton in Hr' as ->. done.
  - intros i. destruct (H7 i) as [?|[Hs ?]]; [by left|]. right. split; [|done].
    destruct Hs as [(r' & ? & ? & ?)|?]; [left; exists r'; set_solver|by right].
Qed.

Lemma rinv_select f s i : jobs s !! i = None → rinv f s →
  rinv f (mkSys (table s) (log s) (<[i := Job [] (select_unlocked s)]> (jobs s))).
Proof.
  intros Hi [H1 H2 H3 H4 H5 H6 H7].
  assert (Hsel : ∀ r, r ∈ select_unlocked s → r ∈ pending (table s) ∧ o_id r ∉ locks (jobs s)).
  { unfold select_unlocked. intros r (k & Hk & _)%elem_of_take. apply list_elem_of_lookup_2, list_elem_of_filter in Hk. tauto. }
  assert (Hnew : ∀ k j n, jobs s !! k = Some j → n ∈ o_id <$> held j → n ∉ o_id <$> select_unlocked s).
  { intros k j n Hk Hn (r & -> & [_ Hr]%Hsel)%list_elem_of_fmap. apply Hr, elem_of_locks. eauto. }
  split; simpl in *; [done| | | | |done|].
  - intros k j r [[<- <-]|[_ Hk]]%lookup_insert_Some Hr; [|by eapply H2]. apply elem_of_pending. by apply Hsel.
  - intros k j [[<- <-]|[_ Hk]]%lookup_insert_Some; [|by eapply H3]. unfold held, select_unlocked. simpl.
    rewrite fmap_take. by apply NoDup_take, NoDup_ids_filter, NoDup_pending.
  - intros k1 k2 j1 j2 n [[<- <-]|[? Hk1]]%lookup_insert_Some [[<- <-]|[? Hk2]]%lookup_insert_Some Hn1 Hn2;
      [done|by destruct (Hnew k2 j2 n)|by destruct (Hnew k1 j1 n)|by eapply H4].
  - intros k j r [[<- <-]|[_ Hk]]%lookup_insert_Some Hr; [by apply elem_of_nil in Hr|by eapply H5].
  - intros n. destruct (H7 n) as [?|[[?|(k & j & Hk & ?)] ?]]; [by left|right; split; [by left|done]|].
    right. split; [|done]. right. exists k, j. simpl. rewrite lookup_insert_ne; [done|congruence].
Qed.

Lemma rinv_publish f t l js i d r rest : js !! i = Some (Job d (r :: rest)) → rinv f (mkSys t l js) →
  rinv f (mkSys t (l ++ [key_of r]) (<[i := Job (d ++ [r]) rest]> js)).
Proof.
  intros Hi Hv. pose proof (todo_unsettled _ _ _ _ _ _ Hv Hi) as Hun. destruct Hv as [H1 H2 H3 H4 H5 H6 H7].
  assert (Hheld : held (Job (d ++ [r]) rest) = held (Job d (r :: rest))) by (unfold held; simpl; by rewrite <- app_assoc).
  assert (Hjob : ∀ k j, <[i := Job (d ++ [r]) rest]> js !! k = Some j → ∃ j', js !! k = Some j' ∧ held j' = held j).
  { intros k j [[<- <-]|[_ Hk]]%lookup_insert_Some; eauto. }
  split; simpl in *; [done| | | | |set_solver|].
  - intros k j r' (j' & Hk & <-)%Hjob. by apply (H2 k).
  - intros k j (j' & Hk & <-)%Hjob. by apply (H3 k).
  - intros k1 k2 j1 j2 n (j1' & Hk1 & <-)%Hjob (j2' & Hk2 & <-)%Hjob. by apply H4.
  - intros k j r' [[<- <-]|[_ Hk]]%lookup_insert_Some Hr'; [|by apply elem_of_app; left; eapply H5].
    simpl in Hr'. apply elem_of_app in Hr' as [Hr'|Hr']; [apply elem_of_app; left; by eapply (H5 i _ r' Hi)|set_solver].
  - intros n. rewrite occ_app, occ_one. case_bool_decide as Hn; [subst|].
    + destruct (H7 (o_id r)) as [?|[? _]]; [|done]. right. split; [|lia]. right. exists i, (Job (d ++ [r]) rest). simpl.
      rewrite lookup_insert_eq. split; [done|]. rewrite fmap_app. set_solver.
    + rewrite Nat.add_0_r. destruct (H7 n) as [?|[[?|(k & j & Hk & Hj)] ?]]; [by left|right; split; [by left|done]|].
      right. split; [|done]. right. simpl in *. destruct (decide (k = i)) as [->|Hne].
      * simplify_eq. exists i, (Job (d ++ [r]) rest). rewrite lookup_insert_eq. simpl. split; [done|]. rewrite fmap_app. set_solver.
      * exists k, j. by rewrite lookup_insert_ne.
Qed.

Lemma rinv_commit f t l js i d now : js !! i = Some (Job d []) → rinv f (mkSys t l js) →
  rinv f (mkSys (mark_all now d t) l (delete i js)).
Proof.
  intros Hi Hv. pose proof (settled_commit now _ _ _ _ _ _ Hi Hv) as Hset. destruct Hv as [H1 H2 H3 H4 H5 H6 H7].
  split; simpl in *.
  - fold (ids (mark_all now d t)). by rewrite ids_mark_all.
  - intros k j r [Hne Hk]%lookup_delete_Some Hr. destruct (H2 k j r Hk Hr) as [Ht Hn]. split; [|done].
    apply mark_all_other; [done|]. intros Hd. destruct Hne. apply (H4 i k _ j (o_id r) Hi Hk).
    + unfold held. simpl. by rewrite app_nil_r.
    + by apply list_elem_of_fmap_2.
  - intros k j [_ Hk]%lookup_delete_Some. by apply (H3 k).
  - intros k1 k2 j1 j2 n [_ Hk1]%lookup_delete_Some [_ Hk2]%lookup_delete_Some. by apply H4.
  - intros k j r [_ Hk]%lookup_delete_Some. by apply (H5 k).
  - intros r. rewrite mark_all_fmap. intros (r0 & -> & Hr0)%list_elem_of_fmap. rewrite marked_key. unfold marked.
    case_bool_decide as Hd; [|by apply H6]. intros _. apply list_elem_of_fmap in Hd as (r1 & Hid & Hr1).
    destruct (H2 i _ r1 Hi) as [Ht1 _]; [unfold held; set_solver|].
    assert (r0 = r1) as -> by by apply (NoDup_map_inj o_id t). by apply (H5 i _ r1 Hi).
  - intros n. destruct (H7 n) as [?|[? ?]]; [by left|]. right. split; [by apply Hset|done].
Qed.
Lemma rinv_occ_bound f s n : rinv f s → occ n (log s) ≤ f + 1.
Proof. intros Hv. destruct (ri_occ _ _ Hv n) as [?|[_ ?]]; lia. Qed.

Lemma rinv_step f m s s' : rstep m s s' → rinv f s → rinv (f + m) s'.
Proof.
  intros Hs Hv. destruct Hs; rewrite ?Nat.add_0_r.
  - by apply rinv_insert.
  - by apply rinv_select.
  - by apply rinv_publish.
  - apply (rinv_drop f t l); [done|set_solver|]. intros n. rewrite occ_app, occ_one. simpl.
    case_bool_decide as Hn; [subst|rewrite Nat.add_0_r; by apply (rinv_occ_bound _ _ n Hv)].
    destruct (ri_occ _ _ Hv (o_id r)) as [?|[Hset _]]; [simpl in *; lia|]. by apply (todo_unsettled _ _ _ _ _ _ Hv H) in Hset.
  - apply (rinv_drop f t l); [done|done|]. intros n. by apply (rinv_occ_bound _ _ n Hv).
  - by apply rinv_commit.
Qed.

Lemma rinv_steps n s s' : rsteps n s s' → rinv 0 s → rinv n s'.
Proof. intros Hs Hv. induction Hs as [s|n m s s1 s2 _ IH Hs]; [done|]. eapply rinv_step; [done|by apply IH]. Qed.

(** C12: several relays may drain one outbox.  From a table of unpublished events, in any
    interleaving of selects, publishes, commits, failures and new events: two
    relays never hold the same row, a row that is marked published has been handed
    to the bus, and with [f] failures no row has gone out more than [f + 1] times,
    so that without failures every row goes out at most once. *)
Theorem relays_at_least_once (t0 : list row) (f : nat) (s : rsys)
    (Hids : NoDup (ids t0)) (Hnew : Forall (λ r, published_at r = None) t0) (Hrun : rsteps f (mkSys t0 [] ∅) s) :
  (∀ k1 k2 j1 j2 r, jobs s !! k1 = Some j1 → jobs s !! k2 = Some j2 → r ∈ held j1 → r ∈ held j2 → k1 = k2) ∧
  (∀ r, r ∈ table s → published_at r ≠ None → key_of r ∈ log s) ∧
  ∀ i, occ i (log s) ≤ f + 1.
Proof.
  assert (Hv : rinv 0 (mkSys t0 [] ∅)).
  { split; simpl; [done|by intros; simplify_map_eq..| |].
    - intros r Hr Hp. rewrite Forall_forall in Hnew. by apply Hnew in Hr.
    - intros i. left. by unfold occ. }
  pose proof (rinv_steps f _ s Hrun Hv) as Hf. split_and!.
  - intros k1 k2 j1 j2 r Hk1 Hk2 Hr1 Hr2. by apply (ri_disjoint _ _ Hf k1 k2 j1 j2 (o_id r)); [..|apply list_elem_of_fmap_2|apply list_elem_of_fmap_2].
  - apply (ri_marked _ _ Hf).
  - intros i. by apply rinv_occ_bound.
Qed.

(** ** The code of a relay is one of these relays *)

Lemma publish_steps t l i d k rest rows : k ≤ length rows →
  rsteps 0 (mkSys t l {[i := Job d (rows ++ rest)]})
    (mkSys t (l ++ (key_of <$> take k rows)) {[i := Job (d ++ take k rows) (drop k rows ++ rest)]}).
Proof.
  revert l d k. induction rows as [|r rows IH]; intros l d k Hk.
  { destruct k; [|simpl in Hk; lia]. simpl. rewrite !app_nil_r. constructor. }
  destruct k as [|k]; [simpl; rewrite !app_nil_r; constructor|]. simpl in Hk.
  pose proof (r_publish t l {[i := Job d (r :: rows ++ rest)]} i d r (rows ++ rest) (lookup_singleton_eq _ _)) as Hp.
  rewrite insert_singleton_eq in Hp. apply (rsteps_app 0 0 _ _ _ (rsteps_one _ _ _ Hp)).
  specialize (IH (l ++ [key_of r]) (d ++ [r]) k ltac:(lia)). by rewrite <- !app_assoc in IH.
Qed.

(** C13: the code refines the system of relays.  A turn of the relay is a run of it,
    without failures when the turn succeeds and with one when it raises, which
    starts and ends with no transaction open, ends with the same table, and has
    given the bus the same messages in the same order. *)
Theorem drain_refines_relay {X : Type} `{!BusProducer X, !BusLaws X} (now : Z) (t : list row) (x : X) (l : list (N * msg)) :
  let '(o, t', x') := request (_drain_once batch now) t x in
  ∃ keys, rsteps (if is_ok o then 0 else 1) (mkSys t l ∅) (mkSys t' (l ++ keys) ∅) ∧ sent x' = sent x ++ keys.*2.
Proof.
  pose proof (drain_spec batch now t x) as Hd. destruct (request _ t x) as [[o t'] x'].
  assert (Hsel : rsteps 0 (mkSys t l ∅) (mkSys t l {[0 := Job [] (select batch t)]})).
  { apply rsteps_one. rewrite <- insert_empty. assert (Hs := r_select (mkSys t l ∅) 0 (lookup_empty _)). unfold select_unlocked in Hs.
    simpl in Hs. rewrite filter_all in Hs; [exact Hs|]. intros r _. unfold locks. rewrite map_to_list_empty. apply not_elem_of_nil. }
  assert (Hpub : ∀ k, k ≤ length (select batch t) → rsteps 0 (mkSys t l ∅)
    (mkSys t (l ++ (key_of <$> take k (select batch t))) {[0 := Job (take k (select batch t)) (drop k (select batch t))]})).
  { intros k Hk. eapply (rsteps_app 0 0); [exact Hsel|]. pose proof (publish_steps t l 0 [] k [] (select batch t) Hk) as Hp.
    by rewrite !app_nil_r in Hp. }
  assert (Hmsg : ∀ rows, (key_of <$> rows).*2 = msg_of <$> rows) by (intros rows; by rewrite <- list_fmap_compose).
  destruct o as [n|e]; simpl.
  - destruct Hd as (_ & -> & ->). exists (key_of <$> select batch t). split; [|by rewrite Hmsg].
    specialize (Hpub _ (reflexivity _)). rewrite firstn_all, drop_all in Hpub. eapply (rs_snoc 0 0); [exact Hpub|].
    assert (Hc := r_commit t (l ++ (key_of <$> select batch t)) _ 0 _ now (lookup_singleton_eq 0 (Job (select batch t) []))).
    by rewrite delete_singleton_eq in Hc.
  - destruct Hd as (-> & k & extra & Hk & -> & Hex). specialize (Hpub k ltac:(lia)). destruct Hex as [->|(r & Hr & ->)].
    + exists (key_of <$> take k (select batch t)). rewrite app_nil_r, Hmsg. split; [|done]. eapply (rs_snoc 0 1); [exact Hpub|].
      assert (Ha := r_abort t (l ++ (key_of <$> take k (select batch t))) _ 0 _
        (lookup_singleton_eq 0 (Job (take k (select batch t)) (drop k (select batch t))))). by rewrite delete_singleton_eq in Ha.
    + exists ((key_of <$> take k (select batch t)) ++ [key_of r]). rewrite fmap_app, Hmsg. split; [|done].
      rewrite (drop_S _ _ _ Hr) in Hpub. eapply (rs_snoc 0 1); [exact Hpub|]. rewrite app_assoc.
      assert (Ha := r_lost_ack t (l ++ (key_of <$> take k (select batch t))) _ 0 _ _ _
        (lookup_singleton_eq 0 (Job (take k (select batch t)) (r :: drop (S k) (select batch t))))). by rewrite delete_singleton_eq in Ha.
Qed.
End relay.
(** ** Concrete runs: a broker that is down for a while and never takes events of the
    kind ["bad"]. *)

Record demo_bus := mkBus { got : list (@msg nat); down : nat }.

#[global] Instance demo_producer : BusProducer (P := nat) demo_bus := {|
  send m b :=
    match down b with
    | S n => (Raise RuntimeError, mkBus (got b) n)
    | 0 => if bool_decide (m.1.1 = "bad") then (Raise RuntimeError, b) else (Ok tt, mkBus (got b ++ [m]) 0)
    end;
  sent := got |}.

#[global] Instance demo_bus_laws : BusLaws (P := nat) demo_bus.
Proof.
  split.
  - intros m [g [|n]] x'; simpl; [|done]. case_bool_decide; [done|]. by intros [= <-].
  - intros m [g [|n]] e x'; simpl; [case_bool_decide|]; intros [= <- <-]; by left.
Qed.

Definition demo_row (i : N) (kind : string) : orow nat := mkRow i kind None (N.to_nat i) None.
Definition demo_table : list (orow nat) := [demo_row 2 "b"; demo_row 1 "a"; demo_row 3 "c"].
Definition demo_msg (i : N) (kind : string) : @msg nat := (kind, "", N.to_nat i).

Lemma drain_takes_front_witness :
  let '(o, t', x') := request (_drain_once 2 7%Z) demo_table (mkBus [] 0) in
  o = Ok 2 ∧ pending t' = [demo_row 3 "c"] ∧ sent x' = [demo_msg 1 "a"; demo_msg 2 "b"].
Proof.
  pose proof (drain_takes_front 2 7 demo_table (mkBus [] 0) (bool_decide_unpack (NoDup (ids demo_table)) I)) as Hd.
  destruct (request (_drain_once 2 7%Z) demo_table (mkBus [] 0)) as [[o t'] x'] eqn:E. vm_compute in E.
  injection E as <- <- <-. cbv beta iota in Hd. destruct Hd as (Hn & Hp & _ & _ & Hs). split_and!; [done|by rewrite Hp|exact Hs].
Defined.

Lemma outbox_drained_eventually_witness :
  (run 2 (demo_table, mkBus [] 1) [Turn 7; Turn 8; Arrive (demo_row 9 "d"); Turn 9]).2 =
    mkBus [demo_msg 1 "a"; demo_msg 2 "b"; demo_msg 3 "c"; demo_msg 9 "d"] 0 ∧
  ∃ more, sent (run 2 (demo_table, mkBus [] 1) [Turn 7; Turn 8; Arrive (demo_row 9 "d"); Turn 9]).2 = [] ++ more ∧
    demo_msg 3 "c" ∈ more.
Proof.
  split; [by vm_compute|].
  pose proof (outbox_drained_eventually 2 demo_table (mkBus [] 1) [Turn 7; Turn 8; Arrive (demo_row 9 "d"); Turn 9] (demo_row 3 "c")
    (bool_decide_unpack (NoDup (ids demo_table)) I)) as H.
  destruct (run 2 (demo_table, mkBus [] 1) [Turn 7; Turn 8; Arrive (demo_row 9 "d"); Turn 9]) as [t' x'] eqn:E.
  destruct H as [_ Hm]; [| |do 2 right; left|done|exact Hm].
  - split; [done|]. split; [done|]. split; [|done]. split; [done|]. apply Forall_forall. vm_compute. repeat constructor.
  - vm_compute. lia.
Defined.

(** A broker that is always up. *)
Record picky_bus := mkPicky { taken : list (@msg nat) }.

#[global] Instance picky_producer : BusProducer (P := nat) picky_bus := {|
  send m b := if bool_decide (m.1.1 = "bad") then (Raise RuntimeError, b) else (Ok tt, mkPicky (taken b ++ [m]));
  sent := taken |}.

#[global] Instance picky_bus_laws : BusLaws (P := nat) picky_bus.
Proof. split; intros; simpl in *; case_bool_decide; simplify_eq/=; try done; by left. Qed.

Definition poisoned : list (orow nat) := [demo_row 1 "a"; demo_row 2 "bad"; demo_row 3 "c"].

Lemma poison_row_blocks_outbox_witness :
  let '(t', x') := run 5 (poisoned, mkPicky []) [Turn 7; Arrive (demo_row 4 "d"); Turn 8; Turn 9] in
  (∃ more, pending t' = pending poisoned ++ more) ∧ sent x' = [demo_msg 1 "a"; demo_msg 1 "a"; demo_msg 1 "a"].
Proof.
  assert (Href : ∀ x : picky_bus, ∃ e x', send (msg_of (demo_row 2 "bad")) x = (Raise e, x') ∧ sent x' = sent x).
  { intros x. exists RuntimeError, x. by vm_compute. }
  pose proof (poison_row_blocks_outbox 5 1 (demo_row 2 "bad") Href poisoned (mkPicky []) [Turn 7; Arrive (demo_row 4 "d"); Turn 8; Turn 9]
    (bool_decide_unpack (NoDup (ids poisoned)) I)) as H.
  destruct (run 5 (poisoned, mkPicky []) [Turn 7; Arrive (demo_row 4 "d"); Turn 8; Turn 9]) as [t' x'].
  destruct H as (_ & Hm & Hs); [done|lia| | |split; [exact Hm|exact Hs]].
  - vm_compute. constructor; [|constructor]. intros [l]. by vm_compute.
  - split; [done|]. split; [|done]. split; [done|]. apply Forall_forall. vm_compute. repeat constructor.
Defined.

(** One relay fails after the broker took row 1, another one publishes it again. *)
Definition demo_sys (t : list (orow nat)) (l : list (N * @msg nat)) (j : option job) : rsys :=
  mkSys t l (match j with Some j => {[0 := j]} | None => ∅ end).

Lemma demo_select l : rstep 2 0 (demo_sys [demo_row 1 "a"] l None) (demo_sys [demo_row 1 "a"] l (Some (Job [] [demo_row 1 "a"]))).
Proof. exact (r_select 2 (demo_sys [demo_row 1 "a"] l None) 0 (lookup_empty _)). Qed.

Lemma relays_at_least_once_witness :
  ∃ s : rsys, rsteps 2 1 (mkSys [demo_row 1 "a"] [] ∅) s ∧ occ 1%N (log s) = 2 ∧ occ 1%N (log s) ≤ 1 + 1.
Proof.
  assert (Hrun : rsteps 2 (0 + 1 + 0 + 0 + 0) (demo_sys [demo_row 1 "a"] [] None)
    (demo_sys [mkRow 1%N "a" None 1 (Some 9%Z)] [key_of (demo_row 1 "a"); key_of (demo_row 1 "a")] None)).
  { eapply rs_snoc; [eapply rs_snoc; [eapply rs_snoc; [eapply rs_snoc; [apply rsteps_one, demo_select|]|apply demo_select]|]|].
    - pose proof (r_lost_ack 2 [demo_row 1 "a"] [] {[0 := Job [] [demo_row 1 "a"]]} 0 [] (demo_row 1 "a") [] (lookup_singleton_eq _ _)) as Hs.
      rewrite delete_singleton_eq in Hs. exact Hs.
    - pose proof (r_publish 2 [demo_row 1 "a"] [key_of (demo_row 1 "a")] {[0 := Job [] [demo_row 1 "a"]]} 0 [] (demo_row 1 "a") []
        (lookup_singleton_eq _ _)) as Hs. rewrite insert_singleton_eq in Hs. exact Hs.
    - pose proof (r_commit 2 [demo_row 1 "a"] [key_of (demo_row 1 "a"); key_of (demo_row 1 "a")] {[0 := Job [demo_row 1 "a"] []]} 0
        [demo_row 1 "a"] 9 (lookup_singleton_eq _ _)) as Hs. rewrite delete_singleton_eq in Hs. exact Hs. }
  eexists. split; [exact Hrun|]. split; [by vm_compute|].
  apply (relays_at_least_once 2 [demo_row 1 "a"] 1 _ (NoDup_singleton 1%N)); [|exact Hrun].
  repeat constructor.
Defined.

Lemma drain_refines_relay_witness :
  ∃ keys, rsteps 2 0 (mkSys demo_table [] ∅) (mkSys (mark_all 7 [demo_row 1 "a"; demo_row 2 "b"] demo_table) ([] ++ keys) ∅) ∧
    [demo_msg 1 "a"; demo_msg 2 "b"] = keys.*2.
Proof.
  pose proof (drain_refines_relay 2 7 demo_table (mkPicky []) []) as Hd.
  destruct (request (_drain_once 2 7%Z) demo_table (mkPicky [])) as [[o t'] x'] eqn:E. vm_compute in E. injection E as <- <- <-.
  destruct Hd as (keys & Hr & Hk). exists keys. split; [exact Hr|exact Hk].
Defined.
End Outbox.
