(* ===== verification/Risk.v ===== *)
(** * compliance-risk: the risk engine

    [compliance-risk/app/domain/risk_engine.py], a pure function of the inputs that
    the service collects.  Weights and scores are binary64 floats and amounts are
    decimals, as in the source; a comparison with a NaN raises. *)
From S2P Require Import Prelude PyText PyDecimal PyJson PyNum.
From Stdlib Require Import SpecFloat.

Module Risk.
Import PyNum.
Open Scope Z_scope.

Definition VALUE_ACTIONS : list string := ["paylink.create"; "payment.initiate"; "withdraw"].

Inductive Decision := ALLOW | BLOCK | REVIEW.

#[global] Instance Decision_eq_dec : EqDecision Decision.
Proof. solve_decision. Defined.

Definition Decision_value (d : Decision) : string :=
  match d with ALLOW => "allow" | BLOCK => "block" | REVIEW => "review" end.

Record RiskConfig := mkRiskConfig {
  tier_ceilings : list (Z * num);
  aml_cumulative_threshold : num;
  velocity_block_24h : Z;
  velocity_review_24h : Z;
  velocity_review_1h : Z;
  score_block_threshold : float;
  score_review_threshold : float }.

Record RiskInputs := mkRiskInputs {
  tier : Z;
  action : string;
  amount : option dec;
  currency : string;
  geo_country : option string;
  registered_country : option string;
  count_1h : Z;
  count_24h : Z;
  count_7d : Z;
  cumulative_amount_window : num }.

Record Reason := mkReason { r_code : string; detail : string; weight : float }.

Record RiskOutcome := mkOutcome { decision : Decision; score : float; reasons : list Reason }.

Definition ceiling_at (cfg : RiskConfig) (t : Z) : option num :=
  snd <$> head (filter (λ kv, kv.1 = t) (tier_ceilings cfg)).

Definition _ceiling_for (cfg : RiskConfig) (t : Z) : num :=
  default (default (Fin (dec_int 0)) (ceiling_at cfg 0)) (ceiling_at cfg t).

Definition _HARD_CODES : list string := ["LOW_KYC"; "AML_THRESHOLD"; "AMOUNT_OVER_TIER_CEILING"].

Definition show (z : Z) : string := text (PyJson.print_Z z).

Definition LOW_KYC : Reason :=
  mkReason "LOW_KYC" "tier-0 user cannot perform a value action with a non-zero amount" (milli 1000).
Definition AML_THRESHOLD : Reason :=
  mkReason "AML_THRESHOLD"
    "cumulative amount over the window crosses the Kenya AML threshold without enhanced (tier-2) KYC" (milli 1000).
Definition AMOUNT_OVER_TIER_CEILING (t : Z) : Reason :=
  mkReason "AMOUNT_OVER_TIER_CEILING" ("amount exceeds the tier-" +:+ show t +:+ " per-transaction ceiling") (milli 600).
Definition VELOCITY_24H (n : Z) (which : string) (w : float) : Reason :=
  mkReason "VELOCITY_24H" (show n +:+ " actions in 24h exceeds the " +:+ which +:+ " threshold") w.
Definition VELOCITY_1H (n : Z) : Reason :=
  mkReason "VELOCITY_1H" (show n +:+ " actions in 1h exceeds the review threshold") (milli 300).
Definition GEO_MISMATCH : Reason :=
  mkReason "GEO_MISMATCH" "geo-IP country differs from the registered country" (milli 300).

(** [sum(...)] of floats; at most the last addition is inexact, so compensated
    summation gives the same. *)
Definition fsum (l : list float) : float := fold_left fadd l (S754_zero false).

Definition is_value_action (i : RiskInputs) : bool := bool_decide (action i ∈ VALUE_ACTIONS).

Definition has_amount (i : RiskInputs) : bool :=
  match amount i with Some a => match dec_compare a (dec_int 0) with Gt => true | _ => false end | None => false end.

(** [amount or Decimal(0)] *)
Definition amount_or_zero (i : RiskInputs) : dec :=
  match amount i with Some a => if coef a =? 0 then dec_int 0 else a | None => dec_int 0 end.

(** The running state of [evaluate]. *)
Record verdict := mkVerdict { v_reasons : list Reason; hard_block : bool; hard_review : bool; soft_score : float }.

Definition flag (r : Reason) (block review : bool) (v : verdict) : verdict :=
  mkVerdict (v_reasons v ++ [r]) (hard_block v || block) (hard_review v || review) (soft_score v).

Definition signal (r : Reason) (review : bool) (v : verdict) : verdict :=
  mkVerdict (v_reasons v ++ [r]) (hard_block v) (hard_review v || review) (fadd (soft_score v) (weight r)).

Definition low_kyc_rule (i : RiskInputs) (v : verdict) : verdict :=
  if is_value_action i && (tier i <=? 0) && has_amount i then flag LOW_KYC true false v else v.

Definition aml_rule (cfg : RiskConfig) (i : RiskInputs) (v : verdict) : outcome pyerr verdict :=
  if is_value_action i then
    let projected := num_add (cumulative_amount_window i) (Fin (amount_or_zero i)) in
    let? over := num_ge projected (aml_cumulative_threshold cfg) in
    Ok (if over && (tier i <? 2) then flag AML_THRESHOLD (tier i <=? 1) (negb (tier i <=? 1)) v else v)
  else Ok v.

Definition ceiling_rule (cfg : RiskConfig) (i : RiskInputs) (v : verdict) : outcome pyerr verdict :=
  match amount i with
  | Some a =>
      if is_value_action i then
        let? over := num_gt (Fin a) (_ceiling_for cfg (tier i)) in
        Ok (if over then flag (AMOUNT_OVER_TIER_CEILING (tier i)) false true v else v)
      else Ok v
  | None => Ok v
  end.

Definition velocity_24h_rule (cfg : RiskConfig) (i : RiskInputs) (v : verdict) : verdict :=
  if velocity_block_24h cfg <=? count_24h i then signal (VELOCITY_24H (count_24h i) "block" (milli 800)) true v
  else if velocity_review_24h cfg <=? count_24h i then signal (VELOCITY_24H (count_24h i) "review" (milli 400)) false v
  else v.

Definition velocity_1h_rule (cfg : RiskConfig) (i : RiskInputs) (v : verdict) : verdict :=
  if velocity_review_1h cfg <=? count_1h i then signal (VELOCITY_1H (count_1h i)) false v else v.

Definition geo_mismatch (i : RiskInputs) : bool :=
  match geo_country i, registered_country i with
  | Some g, Some r => truthy g && truthy r && negb (bool_decide (upper g = upper r))
  | _, _ => false
  end.

Definition geo_rule (i : RiskInputs) (v : verdict) : verdict :=
  if geo_mismatch i then signal GEO_MISMATCH false v else v.

Definition combine (cfg : RiskConfig) (v : verdict) : RiskOutcome :=
  let hard_weight := fsum (weight <$> filter (λ r, r_code r ∈ _HARD_CODES) (v_reasons v)) in
  let s := round3 (fmin (milli 1000) (fadd (soft_score v) hard_weight)) in
  let d :=
    if hard_block v || fle (score_block_threshold cfg) s then BLOCK
    else if hard_review v || fle (score_review_threshold cfg) s then REVIEW
    else ALLOW in
  mkOutcome d s (v_reasons v).

Definition evaluate (i : RiskInputs) (cfg : RiskConfig) : outcome pyerr RiskOutcome :=
  let v := low_kyc_rule i (mkVerdict [] false false (S754_zero false)) in
  let? v := aml_rule cfg i v in
  let? v := ceiling_rule cfg i v in
  Ok (combine cfg (geo_rule i (velocity_1h_rule cfg i (velocity_24h_rule cfg i v)))).

(** ** config.py: [Settings.risk_config] *)

Record RiskSettings := mkRiskSettings {
  tier1_ceiling : dec; tier2_ceiling : string; s_aml_threshold : dec; aml_window_hours : Z;
  s_velocity_block_24h : Z; s_velocity_review_24h : Z; s_velocity_review_1h : Z;
  s_score_block : float; s_score_review : float; kyc_validity_days : Z }.

Definition default_settings : RiskSettings :=
  mkRiskSettings (dec_int 50000) "" (dec_int 150000) 720 50 20 10 (milli 800) (milli 500) 365.

Definition risk_config (s : RiskSettings) : outcome pyerr RiskConfig :=
  let tier2 := strip (tier2_ceiling s) in
  let? c2 := if truthy tier2 then match parse_decimal tier2 with Some n => Ok n | None => Raise InvalidOperation end
             else Ok (Infinity false) in
  Ok (mkRiskConfig [(0, Fin (dec_int 0)); (1, Fin (tier1_ceiling s)); (2, c2)] (Fin (s_aml_threshold s))
    (s_velocity_block_24h s) (s_velocity_review_24h s) (s_velocity_review_1h s) (s_score_block s) (s_score_review s)).
(** ** The policy in integers

    What [evaluate] decides, with scores counted in thousandths and no floats. *)

Definition aml_hit (cfg : RiskConfig) (i : RiskInputs) : outcome pyerr bool :=
  if is_value_action i then
    let? over := num_ge (num_add (cumulative_amount_window i) (Fin (amount_or_zero i))) (aml_cumulative_threshold cfg) in
    Ok (over && (tier i <? 2))
  else Ok false.

Definition ceiling_hit (cfg : RiskConfig) (i : RiskInputs) : outcome pyerr bool :=
  match amount i with
  | Some a => if is_value_action i then num_gt (Fin a) (_ceiling_for cfg (tier i)) else Ok false
  | None => Ok false
  end.

Definition low_kyc_hit (i : RiskInputs) : bool := is_value_action i && (tier i <=? 0) && has_amount i.

Record signals := mkSignals { s_low : bool; s_aml : bool; s_over : bool; s_24h : nat; s_1h : bool; s_geo : bool }.

Definition signals_of (cfg : RiskConfig) (i : RiskInputs) : outcome pyerr signals :=
  let? aml := aml_hit cfg i in
  let? over := ceiling_hit cfg i in
  Ok (mkSignals (low_kyc_hit i) aml over
    (if velocity_block_24h cfg <=? count_24h i then 2%nat else if velocity_review_24h cfg <=? count_24h i then 1%nat else 0%nat)
    (velocity_review_1h cfg <=? count_1h i) (geo_mismatch i)).

Definition pts (b : bool) (n : Z) : Z := if b then n else 0.

Definition ref_score (s : signals) : Z :=
  Z.min 1000 (pts (s_low s) 1000 + pts (s_aml s) 1000 + pts (s_over s) 600 +
    400 * Z.of_nat (s_24h s) + pts (s_1h s) 300 + pts (s_geo s) 300).

Definition ref_decision (cfg : RiskConfig) (s : signals) : Decision :=
  if s_low s || s_aml s || fle (score_block_threshold cfg) (milli (ref_score s)) then BLOCK
  else if s_over s || (s_24h s =? 2)%nat || fle (score_review_threshold cfg) (milli (ref_score s)) then REVIEW
  else ALLOW.

Definition when_code (b : bool) (c : string) : list string := if b then [c] else [].

Definition ref_codes (s : signals) : list string :=
  when_code (s_low s) "LOW_KYC" ++ when_code (s_aml s) "AML_THRESHOLD" ++ when_code (s_over s) "AMOUNT_OVER_TIER_CEILING" ++
  when_code (0 <? s_24h s)%nat "VELOCITY_24H" ++ when_code (s_1h s) "VELOCITY_1H" ++ when_code (s_geo s) "GEO_MISMATCH".

(** The verdict that a set of signals leads to. *)
Definition apply_if (b : bool) (f : verdict → verdict) (v : verdict) : verdict := if b then f v else v.

Definition verdict_of (i : RiskInputs) (s : signals) : verdict :=
  apply_if (s_geo s) (signal GEO_MISMATCH false)
    (apply_if (s_1h s) (signal (VELOCITY_1H (count_1h i)) false)
      (match s_24h s with
       | 0%nat => id
       | 1%nat => signal (VELOCITY_24H (count_24h i) "review" (milli 400)) false
       | _ => signal (VELOCITY_24H (count_24h i) "block" (milli 800)) true
       end
        (apply_if (s_over s) (flag (AMOUNT_OVER_TIER_CEILING (tier i)) false true)
          (apply_if (s_aml s) (flag AML_THRESHOLD true false)
            (apply_if (s_low s) (flag LOW_KYC true false) (mkVerdict [] false false (S754_zero false))))))).

Lemma evaluate_signals i cfg :
  evaluate i cfg = let? s := signals_of cfg i in Ok (combine cfg (verdict_of i s)).
Proof.
  unfold evaluate, signals_of, aml_rule, aml_hit, ceiling_rule, ceiling_hit.
  assert (Hlow : ∀ v, low_kyc_rule i v = apply_if (low_kyc_hit i) (flag LOW_KYC true false) v) by done. rewrite Hlow.
  assert (Hv : ∀ v, geo_rule i (velocity_1h_rule cfg i (velocity_24h_rule cfg i v)) =
    apply_if (geo_mismatch i) (signal GEO_MISMATCH false) (apply_if (velocity_review_1h cfg <=? count_1h i)
      (signal (VELOCITY_1H (count_1h i)) false) (match (if velocity_block_24h cfg <=? count_24h i then 2%nat
        else if velocity_review_24h cfg <=? count_24h i then 1%nat else 0%nat) with
       | 0%nat => id
       | 1%nat => signal (VELOCITY_24H (count_24h i) "review" (milli 400)) false
       | _ => signal (VELOCITY_24H (count_24h i) "block" (milli 800)) true
       end v))).
  { intros v. unfold velocity_24h_rule. by destruct (velocity_block_24h cfg <=? count_24h i), (velocity_review_24h cfg <=? count_24h i). }
  assert (Haml : (tier i <? 2) = true → (tier i <=? 1) = true) by (rewrite Z.ltb_lt, Z.leb_le; lia).
  unfold verdict_of. destruct (is_value_action i).
  - destruct (num_ge _ _) as [o|e]; [|done]. simpl.
    destruct o; simpl; [destruct (tier i <? 2) eqn:Ht; simpl; [rewrite (Haml eq_refl)|]|];
      (destruct (amount i); simpl; [destruct (num_gt _ _) as [[]|]; simpl|]); by rewrite ?Hv.
  - simpl. destruct (amount i); simpl; by rewrite Hv.
Qed.
Lemma combine_spec cfg i s : (s_24h s ≤ 2)%nat →
  let o := combine cfg (verdict_of i s) in
  decision o = ref_decision cfg s ∧ score o = milli (ref_score s) ∧ r_code <$> reasons o = ref_codes s.
Proof.
  destruct s as [low aml over v24 v1 geo]. simpl. intros Hv. unfold ref_decision, combine. cbn [decision score reasons].
  assert (Hscore : round3 (fmin (milli 1000) (fadd (soft_score (verdict_of i (mkSignals low aml over v24 v1 geo)))
    (fsum (weight <$> filter (λ r, r_code r ∈ _HARD_CODES) (v_reasons (verdict_of i (mkSignals low aml over v24 v1 geo))))))) =
    milli (ref_score (mkSignals low aml over v24 v1 geo))).
  { destruct v24 as [|[|[|v24]]]; [| | |lia]; destruct low, aml, over, v1, geo; vm_compute; reflexivity. }
  rewrite Hscore. split_and!; [|done|].
  - destruct v24 as [|[|[|v24]]]; [| | |lia]; destruct low, aml, over, v1, geo; simpl; by rewrite ?orb_true_r.
  - destruct v24 as [|[|[|v24]]]; [| | |lia]; by destruct low, aml, over, v1, geo.
Qed.

Lemma ref_score_bounds s : 0 ≤ ref_score s ≤ 1000.
Proof. unfold ref_score, pts. destruct (s_low s), (s_aml s), (s_over s), (s_1h s), (s_geo s); lia. Qed.

Lemma signals_24h cfg i s : signals_of cfg i = Ok s → (s_24h s ≤ 2)%nat.
Proof.
  unfold signals_of. intros (aml & _ & (over & _ & [= <-])%obind_ok)%obind_ok. simpl.
  destruct (velocity_block_24h cfg <=? count_24h i), (velocity_review_24h cfg <=? count_24h i); lia.
Qed.

(** C32: the engine computes the policy without rounding surprises.  Whenever it
    returns, its float score is the binary64 number nearest to an integer number of
    thousandths between 0 and 1000, the capped sum of the points of the rules that
    fired; the decision is the one of the integer policy, and the reasons name
    exactly the rules that fired, in order.  It raises only where comparing with
    a NaN raises. *)
Theorem risk_engine_exact (i : RiskInputs) (cfg : RiskConfig) :
  match signals_of cfg i with
  | Ok s => ∃ o, evaluate i cfg = Ok o ∧ score o = milli (ref_score s) ∧ 0 ≤ ref_score s ≤ 1000 ∧
      decision o = ref_decision cfg s ∧ r_code <$> reasons o = ref_codes s
  | Raise e => evaluate i cfg = Raise e ∧ e = InvalidOperation
  end.
Proof.
  rewrite evaluate_signals. destruct (signals_of cfg i) as [s|e] eqn:Es; simpl.
  - destruct (combine_spec cfg i s (signals_24h _ _ _ Es)) as (Hd & Hs & Hc).
    eexists. split_and!; [done|done|apply ref_score_bounds..|done|done].
  - split; [done|]. revert Es. unfold signals_of, aml_hit, ceiling_hit, num_ge, num_gt, num_compare. clear.
    repeat first [case_match|progress simpl]; congruence.
Qed.

(** ** The default policy *)

Definition default_config : RiskConfig :=
  mkRiskConfig [(0, Fin (dec_int 0)); (1, Fin (dec_int 50000)); (2, Infinity false)] (Fin (dec_int 150000)) 50 20 10 (milli 800) (milli 500).

Lemma default_config_built : risk_config default_settings = Ok default_config.
Proof. reflexivity. Qed.

Lemma milli_le_all : forallb (λ n, Bool.eqb (fle (milli 800) (milli (Z.of_nat n))) (800 <=? Z.of_nat n) &&
  Bool.eqb (fle (milli 500) (milli (Z.of_nat n))) (500 <=? Z.of_nat n)) (seq 0 1001) = true.
Proof. vm_compute. reflexivity. Qed.

Lemma milli_le n : 0 ≤ n ≤ 1000 → fle (milli 800) (milli n) = (800 <=? n) ∧ fle (milli 500) (milli n) = (500 <=? n).
Proof.
  intros Hn. pose proof milli_le_all as Ha. rewrite forallb_forall in Ha.
  specialize (Ha (Z.to_nat n) ltac:(apply in_seq; lia)). rewrite Z2Nat.id in Ha by lia.
  by apply andb_prop in Ha as [?%Bool.eqb_prop ?%Bool.eqb_prop].
Qed.

(** How bad a decision is. *)
Definition severity (d : Decision) : Z := match d with ALLOW => 0 | REVIEW => 1 | BLOCK => 2 end.

(** The same inputs for a user of another tier. *)
Definition with_tier (t : Z) (i : RiskInputs) : RiskInputs :=
  mkRiskInputs t (action i) (amount i) (currency i) (geo_country i) (registered_country i) (count_1h i) (count_24h i) (count_7d i)
    (cumulative_amount_window i).

Definition le_bool (a b : bool) : Prop := a = true → b = true.

Lemma pts_mono b b' n : 0 ≤ n → le_bool b' b → pts b' n ≤ pts b n.
Proof. unfold le_bool, pts. destruct b, b'; naive_solver lia. Qed.

Lemma ref_score_mono s s' :
  le_bool (s_low s') (s_low s) → le_bool (s_aml s') (s_aml s) → le_bool (s_over s') (s_over s) →
  s_24h s' = s_24h s → s_1h s' = s_1h s → s_geo s' = s_geo s → ref_score s' ≤ ref_score s.
Proof.
  intros Hl Ha Ho H24 H1 Hg. unfold ref_score. rewrite H24, H1, Hg.
  pose proof (pts_mono _ _ 1000 ltac:(lia) Hl). pose proof (pts_mono _ _ 1000 ltac:(lia) Ha).
  pose proof (pts_mono _ _ 600 ltac:(lia) Ho). lia.
Qed.

(** The decisions of the default policy. *)
Lemma default_decision s : ref_decision default_config s =
  if s_low s || s_aml s || (800 <=? ref_score s) then BLOCK
  else if s_over s || (s_24h s =? 2)%nat || (500 <=? ref_score s) then REVIEW else ALLOW.
Proof.
  unfold ref_decision. cbn [score_block_threshold score_review_threshold default_config].
  by destruct (milli_le (ref_score s) (ref_score_bounds s)) as [-> ->].
Qed.

Lemma ref_mono s s' :
  le_bool (s_low s') (s_low s) → le_bool (s_aml s') (s_aml s) → le_bool (s_over s') (s_over s) →
  s_24h s' = s_24h s → s_1h s' = s_1h s → s_geo s' = s_geo s →
  severity (ref_decision default_config s') ≤ severity (ref_decision default_config s).
Proof.
  intros Hl Ha Ho H24 H1 Hg. pose proof (ref_score_mono s s' Hl Ha Ho H24 H1 Hg) as Hs. rewrite !default_decision, H24.
  unfold le_bool in *.
  assert (H800 : (800 <=? ref_score s') = true → (800 <=? ref_score s) = true) by (rewrite !Z.leb_le; lia).
  assert (H500 : (500 <=? ref_score s') = true → (500 <=? ref_score s) = true) by (rewrite !Z.leb_le; lia).
  destruct (s_low s); simpl; [by repeat case_match|]. destruct (s_low s'); [by specialize (Hl eq_refl)|].
  destruct (s_aml s); simpl; [by repeat case_match|]. destruct (s_aml s'); [by specialize (Ha eq_refl)|].
  destruct (800 <=? ref_score s); simpl; [by repeat case_match|]. destruct (800 <=? ref_score s'); [by specialize (H800 eq_refl)|]. simpl.
  destruct (s_over s); simpl; [by repeat case_match|]. destruct (s_over s'); [by specialize (Ho eq_refl)|].
  destruct (s_24h s =? 2)%nat; [done|]. simpl.
  destruct (500 <=? ref_score s); simpl; [by repeat case_match|]. destruct (500 <=? ref_score s'); [by specialize (H500 eq_refl)|]. done.
Qed.
Lemma dec_gt_smaller a n m : 0 ≤ m ≤ n → dec_compare a (dec_int n) = Gt → dec_compare a (dec_int m) = Gt.
Proof.
  intros Hnm. unfold dec_compare, dec_int. cbn [coef expo]. rewrite !Z.compare_gt_iff. intros Ha.
  set (p := 10 ^ (0 - Z.min (expo a) 0)) in *. assert (0 ≤ p) by (apply Z.pow_nonneg; lia). nia.
Qed.

Lemma default_ceiling_hit i t : 0 ≤ t ≤ 2 →
  ceiling_hit default_config (with_tier t i) = Ok (match amount i with
    | Some a => is_value_action i && (if t =? 0 then has_amount i else if t =? 1 then
        match dec_compare a (dec_int 50000) with Gt => true | _ => false end else false)
    | None => false end).
Proof.
  intros Ht. unfold ceiling_hit, has_amount, is_value_action. simpl. destruct (amount i) as [a|]; [|done].
  destruct (bool_decide (action i ∈ VALUE_ACTIONS)); simpl; [|done].
  assert (t = 0 ∨ t = 1 ∨ t = 2) as [->|[->| ->]] by lia; done.
Qed.

Lemma signals_with_tier i t t' s s' : 0 ≤ t ≤ t' → t' ≤ 2 →
  signals_of default_config (with_tier t i) = Ok s → signals_of default_config (with_tier t' i) = Ok s' →
  le_bool (s_low s') (s_low s) ∧ le_bool (s_aml s') (s_aml s) ∧ le_bool (s_over s') (s_over s) ∧
  s_24h s' = s_24h s ∧ s_1h s' = s_1h s ∧ s_geo s' = s_geo s.
Proof.
  intros Htt Ht. unfold signals_of. rewrite !default_ceiling_hit by lia.
  intros (aml & Ha & (o & [= <-] & [= <-])%obind_ok)%obind_ok (aml' & Ha' & (o' & [= <-] & [= <-])%obind_ok)%obind_ok.
  split_and!; try done; unfold le_bool; simpl.
  - unfold low_kyc_hit. simpl. intros ([Hv Hz]%andb_prop & Hh)%andb_prop. apply Z.leb_le in Hz.
    rewrite (proj2 (Z.leb_le _ _)) by lia. unfold is_value_action, has_amount in *. simpl in *. by rewrite Hv, Hh.
  - unfold aml_hit, is_value_action in *. simpl in *. destruct (bool_decide _); [|by simplify_eq].
    destruct (num_ge _ _) as [b|]; [|done]. simpl in *. injection Ha as <-. injection Ha' as <-.
    intros [-> Hlt%Z.ltb_lt]%andb_prop. rewrite (proj2 (Z.ltb_lt _ _)) by lia. done.
  - unfold has_amount. destruct (amount i) as [a|]; [|done]. destruct (is_value_action i); [|done]. simpl.
    assert (t' = 0 ∨ t' = 1 ∨ t' = 2) as [->|[->| ->]] by lia; simpl; [assert (t = 0) as -> by lia; done| |done].
    destruct (dec_compare a (dec_int 50000)) eqn:E; try done. intros _.
    assert (t = 0 ∨ t = 1) as [->| ->] by lia; simpl; [by rewrite (dec_gt_smaller a 50000 0)|done].
Qed.

(** better verification never makes a decision worse: under the default policy, for
    the same action and history, a user of a higher tier up to 2 is allowed
    whatever a user of a lower tier is allowed, and is reviewed at most where the
    other is reviewed or blocked. *)
Theorem higher_tier_no_worse (i : RiskInputs) (t t' : Z) (o o' : RiskOutcome)
    (Hle : 0 ≤ t ≤ t') (Hmax : t' ≤ 2)
    (Ho : evaluate (with_tier t i) default_config = Ok o) (Ho' : evaluate (with_tier t' i) default_config = Ok o') :
  severity (decision o') ≤ severity (decision o).
Proof.
  rewrite evaluate_signals in Ho, Ho'. apply obind_ok in Ho as (s & Hs & [= <-]), Ho' as (s' & Hs' & [= <-]).
  destruct (combine_spec default_config (with_tier t i) s (signals_24h _ _ _ Hs)) as (-> & _ & _).
  destruct (combine_spec default_config (with_tier t' i) s' (signals_24h _ _ _ Hs')) as (-> & _ & _).
  destruct (signals_with_tier i t t' s s' Hle Hmax Hs Hs') as (? & ? & ? & ? & ? & ?). by apply ref_mono.
Qed.

Lemma ceiling_unknown t : 2 < t → _ceiling_for default_config t = Fin (dec_int 0).
Proof.
  intros Ht. unfold _ceiling_for. assert (ceiling_at default_config t = None) as ->; [|done].
  unfold ceiling_at, default_config. cbn [tier_ceilings]. rewrite !filter_cons_False by (simpl; lia). done.
Qed.

(** the tiers stop at 2.  A user whose recorded tier is above 2 gets the ceiling of
    tier 0, so that every value action with an amount is at least reviewed, while
    a user of tier 2 with the same clean history is allowed. *)
Theorem tier_above_two_reviewed (i : RiskInputs) (t : Z) (o : RiskOutcome)
    (Ht : 2 < t) (Hv : is_value_action i = true) (Ha : has_amount i = true)
    (Ho : evaluate (with_tier t i) default_config = Ok o) :
  decision o ≠ ALLOW ∧ "AMOUNT_OVER_TIER_CEILING" ∈ r_code <$> reasons o ∧
  (count_24h i < 20 → count_1h i < 10 → geo_mismatch i = false → ∀ o2, evaluate (with_tier 2 i) default_config = Ok o2 → decision o2 = ALLOW).
Proof.
  rewrite evaluate_signals in Ho. apply obind_ok in Ho as (s & Hs & [= <-]).
  destruct (combine_spec default_config (with_tier t i) s (signals_24h _ _ _ Hs)) as (Hd & _ & Hc).
  assert (Hover : s_over s = true).
  { revert Hs. unfold signals_of, ceiling_hit. unfold has_amount in Ha. cbn [tier with_tier]. rewrite ceiling_unknown by done.
    unfold is_value_action in *. simpl in *. rewrite Hv. destruct (amount i) as [a|]; [|done].
    destruct (aml_hit _ _); [|done]. simpl. destruct (dec_compare a (dec_int 0)); try done. by intros [= <-]. }
  split_and!.
  - rewrite Hd. unfold ref_decision. rewrite Hover. simpl. by destruct (_ || _).
  - rewrite Hc. unfold ref_codes. rewrite Hover. set_solver.
  - intros H24 H1 Hg o2 Ho2. rewrite evaluate_signals in Ho2. apply obind_ok in Ho2 as (s2 & Hs2 & [= <-]).
    destruct (combine_spec default_config (with_tier 2 i) s2 (signals_24h _ _ _ Hs2)) as (-> & _ & _).
    revert Hs2. unfold signals_of. rewrite default_ceiling_hit by lia. simpl.
    intros (aml & Haml & [= <-])%obind_ok. assert (aml = false) as ->.
    { revert Haml. unfold aml_hit. simpl. destruct (is_value_action _); [|by intros [= <-]].
      destruct (num_ge _ _); [|done]. simpl. rewrite andb_false_r. by intros [= <-]. }
    rewrite default_decision. unfold ref_score, low_kyc_hit, geo_mismatch in *. simpl. rewrite Hg.
    rewrite (proj2 (Z.leb_gt 50 (count_24h i))), (proj2 (Z.leb_gt 20 (count_24h i))), (proj2 (Z.leb_gt 10 (count_1h i))) by lia.
    rewrite andb_false_r. by destruct (amount i); simpl; rewrite ?andb_false_r.
Qed.

Definition demo_inputs : RiskInputs :=
  mkRiskInputs 0 "paylink.create" (Some (dec_int 60000)) "KES" None None 0 0 0 (Fin (dec_int 0)).

Lemma higher_tier_no_worse_witness : severity ALLOW ≤ severity REVIEW.
Proof.
  destruct (evaluate (with_tier 1 demo_inputs) default_config) as [o|e] eqn:E1; vm_compute in E1; [|done].
  destruct (evaluate (with_tier 2 demo_inputs) default_config) as [o'|e] eqn:E2; vm_compute in E2; [|done].
  assert (Hd : decision o = REVIEW) by by injection E1 as <-. assert (Hd' : decision o' = ALLOW) by by injection E2 as <-.
  rewrite <- Hd, <- Hd'.
  apply (higher_tier_no_worse demo_inputs 1 2 o o'); [lia|lia|exact E1|exact E2].
Defined.

Lemma tier_above_two_reviewed_witness :
  ∃ o, evaluate (with_tier 3 demo_inputs) default_config = Ok o ∧ decision o ≠ ALLOW.
Proof.
  destruct (evaluate (with_tier 3 demo_inputs) default_config) as [o|e] eqn:E1; [|by vm_compute in E1].
  exists o. split; [done|]. apply (tier_above_two_reviewed demo_inputs 3 o); [lia|by vm_compute|by vm_compute|exact E1].
Defined.
End Risk.
