(* ===== verification/Compliance.v ===== *)
(** * compliance-risk: KYC tiers, risk decisions, flags and the activity ledger

    [compliance-risk/app]: [redaction.py], [providers/], [db/repositories.py],
    [domain/kyc_service.py], [domain/risk_service.py], [events/consumer.py],
    [security/hmac.py], [security/authz.py] and the routes of [api/v1].  The engine is
    [Risk]; AES-GCM, HMAC-SHA256, [json.loads] and the vendor's HTTP answer are
    parameters.  JSON numbers are integers. *)
From S2P Require Import Prelude PyText PyDecimal PyJson PyNum UnitOfWork Tables Idempotency Chain IdentityDb Risk.
From Stdlib Require Import Ascii.

Module Compliance.
Import PyNum.
Open Scope Z_scope.

(** ** errors.py, domain/models.py *)

Inductive ErrorCode :=
| INVALID_PAYLOAD | INVALID_QUERY | IDEMPOTENT_CONFLICT | UNAUTHORIZED | FORBIDDEN | INTERNAL_ERROR
| INVALID_TOKEN | TOKEN_EXPIRED
| INVALID_TIER | ALREADY_VERIFIED | UNKNOWN_PROVIDER | INVALID_SIGNATURE | PROVIDER_ERROR
| COMPLIANCE_NOT_FOUND.

#[global] Instance ErrorCode_eq_dec : EqDecision ErrorCode.
Proof. solve_decision. Defined.

Definition _HTTP_STATUS (c : ErrorCode) : Z :=
  match c with
  | INVALID_PAYLOAD | INVALID_QUERY | INVALID_TIER => 400
  | IDEMPOTENT_CONFLICT | ALREADY_VERIFIED => 409
  | UNAUTHORIZED | INVALID_TOKEN | TOKEN_EXPIRED | INVALID_SIGNATURE => 401
  | FORBIDDEN => 403
  | INTERNAL_ERROR => 500
  | UNKNOWN_PROVIDER | COMPLIANCE_NOT_FOUND => 404
  | PROVIDER_ERROR => 502
  end.

Definition KycTiers : list Z := [0; 1; 2].

Inductive FlagKind := SANCTIONS | VELOCITY | GEO | MANUAL.
Definition FlagKind_value (k : FlagKind) : string :=
  match k with SANCTIONS => "sanctions" | VELOCITY => "velocity" | GEO => "geo" | MANUAL => "manual" end.

Inductive FlagSeverity := INFO | WARN | SBLOCK.
Definition FlagSeverity_value (s : FlagSeverity) : string :=
  match s with INFO => "info" | WARN => "warn" | SBLOCK => "block" end.

(** ** events/publisher.py *)

Definition KYC_PASSED : string := "compliance.kyc.passed".
Definition KYC_FAILED : string := "compliance.kyc.failed".
Definition CHECK_PASSED : string := "compliance.check.passed".
Definition CHECK_FAILED : string := "compliance.check.failed".
Definition FLAG_RAISED : string := "compliance.flag.raised".

(** A member of an event payload: a JSON value, or the score. *)
Inductive pval := PJ (j : json) | PF (f : float).
Definition payload : Type := list (string * pval).

(** ** redaction.py *)

Definition _ALLOWED_KEYS : list string :=
  ["session_id"; "status"; "reason_code"; "decision"; "document_type"; "verification_level"; "completed_at"; "country";
   "tier"; "provider"; "check_id"].

Definition is_scalar (j : json) : bool :=
  match j with JList _ | JObj _ => false | _ => true end.

Definition redact (meta : list (string * json)) : list (string * json) :=
  filter (λ kv, kv.1 ∈ _ALLOWED_KEYS ∧ is_scalar kv.2 = true) meta.

(** ** providers/ *)

Record StartResult := mkStart { session_id : string; provider_url : string }.

Record CallbackResult := mkCallback {
  cb_user : uuid; passed : bool; tier_granted : Z; cb_provider_ref : string; metadata : list (string * json) }.

(** [uuid.UUID(str(value))] *)
Definition uuid_of (j : json) : outcome pyerr uuid :=
  match parse_uuid (py_str j) with Some u => Ok u | None => Raise ValueError end.

Definition jget (k : string) (d : json) (o : list (string * json)) : json := default d (Chain.jfind k o).

(** [FakeKycProvider.parse_callback] *)
Definition fake_parse_callback (body : list (string * json)) : outcome pyerr CallbackResult :=
  let? raw := Chain.jfield "user_id" body in
  let? user := uuid_of raw in
  let? st := Chain.jfield "status" body in
  let status := lower (py_str st) in
  let? tier := Chain.py_int (jget "tier" (JInt 2) body) in
  let sid := jget "session_id" JNull body in
  let ref := if jtruthy sid then py_str sid else "stub-" +:+ uuid_text user in
  Ok (mkCallback user (bool_decide (status = "passed")) tier ref
    [("status", JStr status); ("session_id", JStr (py_str (jget "session_id" (JStr "") body))); ("tier", JInt tier)]).

(** [HttpKycProvider.parse_callback] *)
Definition http_parse_callback (body : list (string * json)) : outcome pyerr CallbackResult :=
  let? raw := Chain.jfield "user_id" body in
  let? user := uuid_of raw in
  let status := lower (py_str (jget "status" (JStr "") body)) in
  let? tier := Chain.py_int (jget "tier" (JInt 1) body) in
  Ok (mkCallback user (bool_decide (status ∈ ["passed"; "approved"; "verified"])) tier
    (py_str (jget "session_id" (JStr "") body)) body).

(** A provider: its name, and how it reads a callback. *)
Record KycProvider := mkProvider {
  p_name : string; parse_callback : list (string * json) → outcome pyerr CallbackResult }.

Definition FakeKycProvider : KycProvider := mkProvider "stub" fake_parse_callback.
Definition HttpKycProvider (name : string) : KycProvider := mkProvider name http_parse_callback.

(** [FakeKycProvider.start] with the hex of a fresh UUID. *)
Definition fake_start (sid : string) : StartResult := mkStart sid ("https://kyc.stub.local/s/" +:+ sid).

(** [HttpKycProvider.start] on the vendor's answer: no answer, a status and a body. *)
Definition http_start (resp : option (Z * list (string * json))) : outcome unit (outcome pyerr StartResult) :=
  match resp with
  | None => Raise tt
  | Some (code, data) =>
      if 400 <=? code then Raise tt
      else Ok (let? s := Chain.jfield "session_id" data in
               let? u := Chain.jfield "provider_url" data in
               Ok (mkStart (py_str s) (py_str u)))
  end.

(** providers/registry.py *)
Record KycProviderRegistry := mkRegistry { providers : list KycProvider; secrets : list (string * string) }.

Definition registry_default (r : KycProviderRegistry) : option KycProvider := head (providers r).

(** Later entries of the dict replace earlier ones of the same name. *)
Definition registry_get (r : KycProviderRegistry) (name : string) : option KycProvider :=
  last (filter (λ p, p_name p = name) (providers r)).

Definition secret_for (r : KycProviderRegistry) (name : string) : string :=
  default "" (snd <$> last (filter (λ kv, kv.1 = name) (secrets r))).

(** [Settings.callback_secrets_map] *)
Definition secret_entry (entry : string) : list (string * string) :=
  let e := strip entry in
  match cut ":"%char e with
  | Some (p, raw) => if truthy (strip p) && truthy (strip raw) then [(strip p, strip raw)] else []
  | None => []
  end.

Definition callback_secrets_map (text : string) : list (string * string) := split ";"%char text ≫= secret_entry.

Definition build_registry (kyc_provider kyc_provider_url callback_secrets : string) : KycProviderRegistry :=
  mkRegistry
    (if bool_decide (kyc_provider = "http") && truthy kyc_provider_url then [HttpKycProvider "http"; FakeKycProvider]
     else [FakeKycProvider])
    (callback_secrets_map callback_secrets).
(** ** db/models.py, db/repositories.py *)

Record KycRecordRow := mkKyc {
  k_tier : Z; k_provider : option string; k_provider_ref : option string; documents : option (list (string * json));
  verified_at : option Z; expires_at : option Z }.

(** [score] is NUMERIC(4, 3), counted in thousandths. *)
Record RiskScoreRow := mkScore {
  rs_user : uuid; rs_context : string; rs_score : Z; rs_decision : string; rs_reasons : list (string * string); evaluated_at : Z }.

Record FlagRow := mkFlag {
  fl_user : uuid; fl_kind : string; fl_severity : string; fl_payload : payload; raised_at : Z; resolved_at : option Z }.

Record ActivityEventRow := mkActivity {
  ac_user : uuid; ac_action : string; ac_amount : option num; ac_currency : option string; occurred_at : Z }.

Record ComplianceEventRow := mkEvent {
  ev_subject_type : string; ev_subject_id : option uuid; ev_kind : string; ev_payload : payload }.

(** Tables with a serial id are lists in the order of insertion. *)
Record cdb := mkCdb {
  kyc_records : gmap uuid KycRecordRow; risk_scores : list RiskScoreRow; flags : list FlagRow;
  activity_events : list ActivityEventRow; compliance_events : list ComplianceEventRow }.

Record cworld := mkCw { published : list (string * payload) }.

Notation H := (handler cdb cworld ErrorCode).

Definition get_kyc_record (u : uuid) (d : cdb) : option KycRecordRow := kyc_records d !! u.

(** [tier] is a SMALLINT. *)
Definition upsert_kyc_record (u : uuid) (row : KycRecordRow) (d : cdb) : outcome pyerr cdb :=
  if (-32768 <=? k_tier row) && (k_tier row <=? 32767) then
    Ok (mkCdb (<[u := row]> (kyc_records d)) (risk_scores d) (flags d) (activity_events d) (compliance_events d))
  else Raise DataError.

Definition get_tier (u : uuid) (d : cdb) : Z :=
  match kyc_records d !! u with Some r => k_tier r | None => 0 end.

Definition insert_risk_score (row : RiskScoreRow) (d : cdb) : cdb :=
  mkCdb (kyc_records d) (risk_scores d ++ [row]) (flags d) (activity_events d) (compliance_events d).

(** [ORDER BY evaluated_at DESC, id DESC LIMIT 1] *)
Definition newer (best : option RiskScoreRow) (r : RiskScoreRow) : option RiskScoreRow :=
  match best with
  | Some b => if evaluated_at b <=? evaluated_at r then Some r else Some b
  | None => Some r
  end.

Definition latest_risk_score (u : uuid) (d : cdb) : option RiskScoreRow :=
  fold_left newer (filter (λ r, rs_user r = u) (risk_scores d)) None.

Definition insert_flag (row : FlagRow) (d : cdb) : cdb :=
  mkCdb (kyc_records d) (risk_scores d) (flags d ++ [row]) (activity_events d) (compliance_events d).

Definition raised_after (a b : FlagRow) : Prop := raised_at b ≤ raised_at a.
#[global] Instance raised_after_dec : RelDecision raised_after.
Proof. intros a b. unfold raised_after. apply _. Defined.

Definition list_open_flags (u : uuid) (d : cdb) : list FlagRow :=
  merge_sort raised_after (filter (λ f, fl_user f = u ∧ resolved_at f = None) (flags d)).

Definition count_flags (u : uuid) (d : cdb) : nat := length (filter (λ f, fl_user f = u) (flags d)).

(** The amount column is NUMERIC(20, 2). *)
Definition insert_activity (row : ActivityEventRow) (d : cdb) : outcome pyerr cdb :=
  let? a := match ac_amount row with
            | Some n => let? n := numeric_20_2 n in Ok (Some n)
            | None => Ok None
            end in
  Ok (mkCdb (kyc_records d) (risk_scores d) (flags d)
    (activity_events d ++ [mkActivity (ac_user row) (ac_action row) a (ac_currency row) (occurred_at row)]) (compliance_events d)).

Definition activity_since (u : uuid) (since : Z) (d : cdb) : list ActivityEventRow :=
  filter (λ a, ac_user a = u ∧ since ≤ occurred_at a) (activity_events d).

Definition count_activity_since (u : uuid) (since : Z) (d : cdb) : Z := Z.of_nat (length (activity_since u since d)).

(** The database adds exactly. *)
Definition exact_add (a b : num) : num :=
  match a, b with
  | Fin a, Fin b =>
      let e := Z.min (expo a) (expo b) in
      Fin (Dec (coef a * 10 ^ (expo a - e) + coef b * 10 ^ (expo b - e)) e)
  | _, _ => num_add a b
  end.

(** [coalesce(sum(amount), 0)] *)
Definition sum_amount_since (u : uuid) (since : Z) (d : cdb) : num :=
  fold_left exact_add (omap ac_amount (activity_since u since d)) (Fin (dec_int 0)).

Definition add_event (subject_type : string) (subject_id : option uuid) (kind : string) (p : payload) (d : cdb) : cdb :=
  mkCdb (kyc_records d) (risk_scores d) (flags d) (activity_events d)
    (compliance_events d ++ [mkEvent subject_type subject_id kind p]).

Definition publish (name : string) (p : payload) : H unit := effect (λ x, mkCw (published x ++ [(name, p)])).

(** ** domain/kyc_service.py *)

Definition usec : Z := 1000000.
Definition days (n : Z) : Z := n * 86400 * usec.
Definition hours (n : Z) : Z := n * 3600 * usec.

Section service.
(** AES-GCM under the provider key, with the nonce drawn. *)
Variable encrypt : string → string → string.
Variable settings : Risk.RiskSettings.

(** [started] is the provider's answer, nothing for an [UpstreamError]. *)
Definition create_session (provider : string) (nonce : string) (started : option StartResult) (u : uuid) (tier_requested : Z) : H StartResult :=
  if negb (bool_decide (tier_requested = 1 ∨ tier_requested = 2)) then raise INVALID_TIER
  else
    existing ← query (get_kyc_record u);
    let current_tier := match existing with Some r => k_tier r | None => 0 end in
    if tier_requested <=? current_tier then raise ALREADY_VERIFIED
    else match started with
         | None => raise PROVIDER_ERROR
         | Some st =>
             try_write (upsert_kyc_record u (mkKyc current_tier (Some provider) (Some (encrypt nonce (session_id st)))
               (existing ≫= documents) (existing ≫= verified_at) (existing ≫= expires_at))) ;;
             commit ;;
             mret st
         end.

Definition kyc_payload (u : uuid) (tier : option Z) : payload :=
  ("user_id", PJ (JStr (uuid_text u))) :: match tier with Some t => [("tier", PJ (JInt t))] | None => [] end.

(** The row a failed callback leaves. *)
Definition failed_row (provider nonce : string) (existing : option KycRecordRow) (r : CallbackResult) (redacted : list (string * json)) :
    KycRecordRow :=
  mkKyc (match existing with Some e => k_tier e | None => 0 end) (Some provider)
    (if truthy (cb_provider_ref r) then Some (encrypt nonce (cb_provider_ref r)) else existing ≫= k_provider_ref)
    (if bool_decide (length redacted = 0%nat) then existing ≫= documents else Some redacted)
    (existing ≫= verified_at) (existing ≫= expires_at).

Definition of_py {A} (o : outcome pyerr A) : outcome (exn ErrorCode) A :=
  match o with Ok a => Ok a | Raise k => Raise (PyError k) end.

Definition apply_callback (provider : KycProvider) (now : Z) (nonce : string) (body : list (string * json)) : H unit :=
  r ← lift (of_py (parse_callback provider body));
  let redacted := redact (metadata r) in
  existing ← query (get_kyc_record (cb_user r));
  let current_tier := match existing with Some e => k_tier e | None => 0 end in
  if passed r then
    let new_tier := Z.max current_tier (tier_granted r) in
    try_write (upsert_kyc_record (cb_user r) (mkKyc new_tier (Some (p_name provider)) (Some (encrypt nonce (cb_provider_ref r)))
      (Some redacted) (Some now) (Some (now + days (Risk.kyc_validity_days settings))))) ;;
    write (add_event "user" (Some (cb_user r)) KYC_PASSED (kyc_payload (cb_user r) (Some new_tier))) ;;
    commit ;;
    publish KYC_PASSED (kyc_payload (cb_user r) (Some new_tier))
  else
    try_write (upsert_kyc_record (cb_user r) (failed_row (p_name provider) nonce existing r redacted)) ;;
    write (add_event "user" (Some (cb_user r)) KYC_FAILED (kyc_payload (cb_user r) None)) ;;
    commit ;;
    publish KYC_FAILED (kyc_payload (cb_user r) None).

Record StatusView := mkView {
  sv_user_id : string; sv_kyc_tier : Z; sv_risk_score : option Z; sv_flags : list (string * string * Z) }.

Definition get_status (u : uuid) : H StatusView :=
  record ← query (get_kyc_record u);
  latest ← query (latest_risk_score u);
  open_flags ← query (list_open_flags u);
  flag_count ← query (count_flags u);
  if negb (bool_decide (is_Some record)) && (flag_count =? 0)%nat && negb (bool_decide (is_Some latest)) then raise COMPLIANCE_NOT_FOUND
  else
    mret (mkView (uuid_text u) (match record with Some r => k_tier r | None => 0 end) (rs_score <$> latest)
      ((λ f, (fl_kind f, fl_severity f, raised_at f)) <$> open_flags)).

(** ** domain/risk_service.py *)

Definition _KIND_BY_REASON (code : string) : option FlagKind :=
  if bool_decide (code = "AML_THRESHOLD") then Some VELOCITY
  else if bool_decide (code = "VELOCITY_24H") then Some VELOCITY
  else if bool_decide (code = "VELOCITY_1H") then Some VELOCITY
  else if bool_decide (code = "GEO_MISMATCH") then Some GEO
  else None.

Definition _reasons_payload (rs : list Risk.Reason) : list (string * string) := (λ r, (Risk.r_code r, Risk.detail r)) <$> rs.

(** [sorted(reasons, key=weight, reverse=True)]: stable. *)
Fixpoint place (r : Risk.Reason) (l : list Risk.Reason) : list Risk.Reason :=
  match l with
  | [] => [r]
  | x :: l' => if fle (Risk.weight r) (Risk.weight x) then x :: place r l' else r :: l
  end.

Definition by_weight (rs : list Risk.Reason) : list Risk.Reason := fold_left (λ l r, place r l) rs [].

Definition _dominant_kind (rs : list Risk.Reason) : FlagKind :=
  default MANUAL (head (omap (λ r, _KIND_BY_REASON (Risk.r_code r)) (by_weight rs))).

Definition reasons_json (rs : list Risk.Reason) : json :=
  JList ((λ r, JObj [("code", JStr (Risk.r_code r)); ("detail", JStr (Risk.detail r))]) <$> rs).

Definition check_payload (u : uuid) (action : string) (o : Risk.RiskOutcome) : payload :=
  [("user_id", PJ (JStr (uuid_text u))); ("action", PJ (JStr action)); ("decision", PJ (JStr (Risk.Decision_value (Risk.decision o))));
   ("score", PF (Risk.score o)); ("reasons", PJ (reasons_json (Risk.reasons o)))].

Definition flag_payload (u : uuid) (severity : FlagSeverity) (action : string) (o : Risk.RiskOutcome) : payload :=
  [("user_id", PJ (JStr (uuid_text u))); ("kind", PJ (JStr (FlagKind_value (_dominant_kind (Risk.reasons o)))));
   ("severity", PJ (JStr (FlagSeverity_value severity))); ("action", PJ (JStr action));
   ("decision", PJ (JStr (Risk.Decision_value (Risk.decision o)))); ("score", PF (Risk.score o));
   ("reasons", PJ (reasons_json (Risk.reasons o)))].

Definition _raise_flag (dbnow : Z) (u : uuid) (severity : FlagSeverity) (o : Risk.RiskOutcome) (action : string) : H payload :=
  let p := flag_payload u severity action o in
  write (insert_flag (mkFlag u (FlagKind_value (_dominant_kind (Risk.reasons o))) (FlagSeverity_value severity) p dbnow None)) ;;
  mret p.

(** [Decimal(str(score))] in thousandths: [repr] of a float that is the nearest to a
    decimal of three places is that decimal. *)
Definition score_column (f : float) : Z :=
  match f with
  | SpecFloat.S754_finite s m e =>
      signed s (if 0 <=? e then Zpos m * 2 ^ e * 1000 else half_even (Zpos m * 1000) (2 ^ (- e)))
  | _ => 0
  end.

(** The inputs that the service collects. *)
Definition collect (now : Z) (u : uuid) (action : string) (amount : option dec) (currency : string) (geo registered : option string)
    (d : cdb) : Risk.RiskInputs :=
  Risk.mkRiskInputs (get_tier u d) action amount currency geo registered
    (count_activity_since u (now - hours 1) d) (count_activity_since u (now - hours 24) d)
    (count_activity_since u (now - days 7) d) (sum_amount_since u (now - hours (Risk.aml_window_hours settings)) d).

Definition evaluate (now dbnow : Z) (u : uuid) (action : string) (amount : option dec) (currency : string)
    (geo registered context : option string) : H Risk.RiskOutcome :=
  inputs ← query (collect now u action amount currency geo registered);
  cfg ← lift (of_py (Risk.risk_config settings));
  o ← lift (of_py (Risk.evaluate inputs cfg));
  write (insert_risk_score (mkScore u (str_or context action) (score_column (Risk.score o))
    (Risk.Decision_value (Risk.decision o)) (_reasons_payload (Risk.reasons o)) dbnow)) ;;
  let check := check_payload u action o in
  post_commit ← match Risk.decision o with
    | Risk.BLOCK =>
        fp ← _raise_flag dbnow u SBLOCK o action;
        write (add_event "risk" (Some u) CHECK_FAILED check) ;;
        write (add_event "flag" (Some u) FLAG_RAISED fp) ;;
        mret [(CHECK_FAILED, check); (FLAG_RAISED, fp)]
    | Risk.REVIEW =>
        fp ← _raise_flag dbnow u WARN o action;
        write (add_event "flag" (Some u) FLAG_RAISED fp) ;;
        mret [(FLAG_RAISED, fp)]
    | Risk.ALLOW =>
        write (add_event "risk" (Some u) CHECK_PASSED check) ;;
        mret [(CHECK_PASSED, check)]
    end;
  commit ;;
  for_each post_commit (λ np, publish np.1 np.2) ;;
  mret o.

Definition record_activity (dbnow : Z) (u : uuid) (action : string) (amount : option num) (currency : option string) : H unit :=
  try_write (insert_activity (mkActivity u action amount currency dbnow)) ;;
  commit.
End service.
(** ** events/consumer.py *)

Definition PAYMENT_INITIATED : string := "payment.initiated".
Definition PAYLINK_REQUESTED : string := "paylink.requested".

Definition _parse_amount (raw : json) : option num :=
  match raw with JNull => None | _ => parse_decimal (py_str raw) end.

Definition _handle_payment_initiated (dbnow : Z) (p : list (string * json)) : H unit :=
  let raw := jget "user_id" JNull p in
  if negb (jtruthy raw) then mret tt
  else match uuid_of raw with
       | Raise _ => mret tt
       | Ok u =>
           let c := jget "currency" JNull p in
           record_activity dbnow u PAYMENT_INITIATED (_parse_amount (jget "amount" JNull p))
             (if jtruthy c then Some (py_str c) else None)
       end.

Definition handle (dbnow : Z) (name : string) (p : list (string * json)) : H unit :=
  if bool_decide (name = PAYMENT_INITIATED) then _handle_payment_initiated dbnow p
  else mret tt.

(** ** security/hmac.py *)

Section signature.
(** [hmac.new(secret, raw, sha256).hexdigest()] *)
Variable hmac_hex : string → string → string.

Definition compute_signature (secret raw : string) : string := hmac_hex secret raw.

(** [candidate[len("sha256="):]] when it starts so, in any case. *)
Definition strip_scheme (candidate : string) : string :=
  match drop_prefix (chars "sha256=") (chars (lower candidate)) with
  | Some _ => text (drop 7 (chars candidate))
  | None => candidate
  end.

(** [hmac.compare_digest] of two texts: a [TypeError] unless both are ASCII. *)
Definition ascii_text (s : string) : bool := forallb (λ c, (N_of_ascii c <? 128)%N) (chars s).

Definition compare_digest (a b : string) : outcome pyerr bool :=
  if ascii_text a && ascii_text b then Ok (bool_decide (a = b)) else Raise TypeError.

Definition verify_signature (secret raw : string) (presented : option string) : outcome pyerr bool :=
  match presented with
  | Some p =>
      if truthy secret && truthy p then compare_digest (compute_signature secret raw) (lower (strip_scheme (strip p)))
      else Ok false
  | None => Ok false
  end.

(** ** security/authz.py, deps.py *)

(** Compliance's [is_admin] looks at roles only, not at the type of the organization. *)
Definition is_admin (p : Identity.AccessClaims) : bool :=
  bool_decide ("admin" ∈ Identity.c_user_roles p) || existsb (λ r, bool_decide (Identity.or_role r = "admin")) (Identity.c_roles p).

Definition require_self_or_admin (p : Identity.AccessClaims) (user_id : string) : H unit :=
  if bool_decide (Identity.c_user p = user_id) || is_admin p then mret tt else raise FORBIDDEN.

Definition internal_gate (secret token : option string) : H unit :=
  match secret with
  | None => mret tt
  | Some expected =>
      match token with
      | Some t =>
          if truthy t then (same ← lift (of_py (compare_digest t expected)); if (same : bool) then mret tt else raise UNAUTHORIZED)
          else raise UNAUTHORIZED
      | None => raise UNAUTHORIZED
      end
  end.

Definition parse_uuid_field (value : string) : H uuid :=
  match parse_uuid value with Some u => mret u | None => raise INVALID_PAYLOAD end.

(** ** api/v1 *)

Variable encrypt : string → string → string.
Variable settings : Risk.RiskSettings.

(** [GET /v1/compliance/status] *)
Definition status_route (p : Identity.AccessClaims) (user_id : string) : H StatusView :=
  if bool_decide (String.length user_id = 0%nat) then raise INVALID_PAYLOAD
  else
    require_self_or_admin p user_id ;;
    u ← parse_uuid_field user_id;
    get_status u.

Record RiskEvaluateRequest := mkEvalReq {
  q_user_id : string; q_action : string; q_amount : option dec; q_currency : string; q_geo : option string;
  q_registered_country : option string; q_context : option string }.

Definition max_len (n : nat) (s : string) : bool := (String.length s <=? n)%nat.
Definition omax_len (n : nat) (o : option string) : bool := match o with Some s => max_len n s | None => true end.

(** The bounds of the request model. *)
Definition evaluate_request_ok (q : RiskEvaluateRequest) : bool :=
  max_len 64 (q_user_id q) && negb (bool_decide (q_action q = "")) && max_len 64 (q_action q) &&
  match q_amount q with
  | Some a => match dec_compare a (dec_int 0), dec_compare a (Dec 1 15) with Lt, _ | _, Gt => false | _, _ => true end
  | None => true
  end &&
  max_len 8 (q_currency q) && omax_len 8 (q_geo q) && omax_len 8 (q_registered_country q) && omax_len 200 (q_context q).

(** [POST /v1/risk/evaluate] *)
Definition evaluate_route (secret token : option string) (now dbnow : Z) (q : RiskEvaluateRequest) : H Risk.RiskOutcome :=
  internal_gate secret token ;;
  if negb (evaluate_request_ok q) then raise INVALID_PAYLOAD
  else
    u ← parse_uuid_field (q_user_id q);
    evaluate settings now dbnow u (q_action q) (q_amount q) (q_currency q) (q_geo q) (q_registered_country q) (q_context q).

(** [json.loads], nothing for its [ValueError]. *)
Variable loads : string → option json.

(** A malformed body is a client error. *)
Definition as_client_error (m : H unit) : H unit :=
  catch m (λ e, match e with
    | PyError KeyError | PyError ValueError | PyError TypeError => raise INVALID_PAYLOAD
    | _ => throw e
    end).

(** [POST /v1/kyc/callbacks/{provider}] *)
Definition callback_route (reg : KycProviderRegistry) (now : Z) (nonce : string) (provider raw : string) (x_signature : option string) : H unit :=
  match registry_get reg provider with
  | None => raise UNKNOWN_PROVIDER
  | Some p =>
      valid ← lift (of_py (verify_signature (secret_for reg provider) raw x_signature));
      if negb valid then raise INVALID_SIGNATURE
      else match loads (if truthy raw then raw else "{}") with
           | Some (JObj body) => as_client_error (apply_callback encrypt settings p now nonce body)
           | _ => raise INVALID_PAYLOAD
           end
  end.

(** The work of [POST /v1/kyc/sessions]; [started] is the answer of the provider. *)
Definition session_route (reg : KycProviderRegistry) (p : Identity.AccessClaims) (nonce : string) (started : option StartResult)
    (user_id : string) (tier_requested : Z) : H StartResult :=
  if negb ((1 <=? tier_requested) && (tier_requested <=? 2)) then raise INVALID_PAYLOAD
  else
    require_self_or_admin p user_id ;;
    u ← parse_uuid_field user_id;
    match registry_default reg with
    | Some provider => create_session encrypt (p_name provider) nonce started u tier_requested
    | None => throw (PyError RuntimeError)
    end.

(** [POST /v1/kyc/sessions] under an Idempotency-Key; [fp] is the fingerprint of the body and the caller. *)
Definition create_session_route {R : Type} `{!RedisLike R} (service : string) (ttl : Z) (c : Idem.clock) (fp : string) (key : option string)
    (reg : KycProviderRegistry) (p : Identity.AccessClaims) (nonce : string) (started : option StartResult)
    (user_id : string) (tier_requested : Z) (rs : R) (s : cdb * cworld) :=
  Idem.idempotent_route service ttl c "create_session" key fp 201
    (λ st, JObj [("session_id", JStr (session_id st)); ("provider_url", JStr (provider_url st))])
    (action_of (session_route reg p nonce started user_id tier_requested)) rs s.
End signature.
(** ** What is stored about a user *)

Definition doc_ok (o : list (string * json)) : Prop := ∀ k v, (k, v) ∈ o → k ∈ _ALLOWED_KEYS ∧ is_scalar v = true.

Lemma redact_ok meta : doc_ok (redact meta).
Proof. intros k v [? _]%list_elem_of_filter. done. Qed.

Definition row_ok (r : KycRecordRow) : Prop := ∀ o, documents r = Some o → doc_ok o.

Definition docs_ok (d : cdb) : Prop := map_Forall (λ _, row_ok) (kyc_records d).

(** Rows only move up: the tier never falls. *)
Definition tier_le (r r' : KycRecordRow) : Prop := k_tier r ≤ k_tier r'.

#[global] Instance tier_le_preorder : PreOrder tier_le.
Proof. split; unfold tier_le; [intros r; lia|intros a b c; lia]. Qed.

(** What every request keeps: documents are redacted, tiers do not fall, and the audit
    tables only grow. *)
Definition keeps (d0 d : cdb) : Prop :=
  docs_ok d ∧ moves tier_le (kyc_records d0) (kyc_records d) ∧
  risk_scores d0 `prefix_of` risk_scores d ∧ flags d0 `prefix_of` flags d ∧
  activity_events d0 `prefix_of` activity_events d ∧ compliance_events d0 `prefix_of` compliance_events d.

Lemma keeps_refl d : docs_ok d → keeps d d.
Proof. intros Hd. split_and!; [done|reflexivity..]. Qed.

Lemma keeps_trans d0 d1 d2 : keeps d0 d1 → keeps d1 d2 → keeps d0 d2.
Proof. intros (? & ? & ? & ? & ? & ?) (? & ? & ? & ? & ? & ?). split_and!; [done|by etrans..]. Qed.

Lemma keeps_event d0 d st i k p : keeps d0 d → keeps d0 (add_event st i k p d).
Proof. intros (? & ? & ? & ? & ? & ?). split_and!; simpl; try done. by apply prefix_app_r. Qed.

Lemma keeps_score d0 d row : keeps d0 d → keeps d0 (insert_risk_score row d).
Proof. intros (? & ? & ? & ? & ? & ?). split_and!; simpl; try done. by apply prefix_app_r. Qed.

Lemma keeps_flag d0 d row : keeps d0 d → keeps d0 (insert_flag row d).
Proof. intros (? & ? & ? & ? & ? & ?). split_and!; simpl; try done. by apply prefix_app_r. Qed.

Lemma keeps_activity d0 d d' row : keeps d0 d → insert_activity row d = Ok d' → keeps d0 d'.
Proof.
  intros (? & ? & ? & ? & ? & ?) (a & _ & [= <-])%obind_ok. split_and!; simpl; try done. by apply prefix_app_r.
Qed.

Lemma keeps_upsert d0 d d' u row : keeps d0 d → row_ok row → get_tier u d ≤ k_tier row →
  upsert_kyc_record u row d = Ok d' → keeps d0 d'.
Proof.
  intros (Hdoc & Hmv & ?) Hrow Ht. unfold upsert_kyc_record. destruct (_ && _); [|done]. intros [= <-].
  split_and!; simpl; [|etrans; [exact Hmv|]|tauto..].
  - by apply map_Forall_insert_2.
  - intros k r Hr. destruct (decide (k = u)) as [->|Hne].
    + exists row. rewrite lookup_insert_eq. split; [done|]. unfold get_tier in Ht. rewrite Hr in Ht. unfold tier_le. lia.
    + exists r. rewrite lookup_insert_ne by done. split; [done|]. reflexivity.
Qed.
Definition both (Q : cdb → Prop) (w : uow cdb cworld) : Prop := Q (db w) ∧ Q (tx w).

Lemma existing_tier u d : match get_kyc_record u d with Some r => k_tier r | None => 0 end = get_tier u d.
Proof. done. Qed.

Lemma existing_docs_ok d0 u d o : keeps d0 d → (get_kyc_record u d ≫= documents) = Some o → doc_ok o.
Proof.
  intros [Hd _] Ho. unfold get_kyc_record in Ho. destruct (kyc_records d !! u) as [r|] eqn:E; [|done]. by apply (Hd u r E o Ho).
Qed.

Lemma wp_create_session encrypt d0 provider nonce started u t w : both (keeps d0) w →
  wp (create_session encrypt provider nonce started u t) (λ _ w', both (keeps d0) w') w.
Proof.
  intros [Hdb Htx]. unfold create_session. wp_go; try (by split).
  match goal with Hu : upsert_kyc_record _ _ _ = Ok _ |- _ => apply (keeps_upsert d0 _ _ _ _ Htx) in Hu; [by split| |done] end.
  intros o Ho. by eapply existing_docs_ok.
Qed.

Lemma wp_apply_callback encrypt settings d0 p now nonce body w : both (keeps d0) w →
  wp (apply_callback encrypt settings p now nonce body) (λ _ w', both (keeps d0) w') w.
Proof.
  intros [Hdb Htx]. unfold apply_callback, publish. wp_go; try (by split).
  - match goal with Hu : upsert_kyc_record _ _ _ = Ok _ |- _ => apply (keeps_upsert d0 _ _ _ _ Htx) in Hu end.
    + split; by apply keeps_event.
    + intros o [= <-]. apply redact_ok.
    + simpl. rewrite existing_tier. lia.
  - match goal with Hu : upsert_kyc_record _ _ _ = Ok _ |- _ => apply (keeps_upsert d0 _ _ _ _ Htx) in Hu end.
    + split; by apply keeps_event.
    + intros o Ho. simpl in Ho. case_bool_decide; [by eapply existing_docs_ok|]. injection Ho as <-. apply redact_ok.
    + done.
Qed.

Lemma wp_evaluate settings d0 now dbnow u action amount currency geo reg ctx w : both (keeps d0) w →
  wp (evaluate settings now dbnow u action amount currency geo reg ctx) (λ _ w', both (keeps d0) w') w.
Proof.
  intros [Hdb Htx]. unfold evaluate, _raise_flag, publish. wp_go; try (by split).
  all: split; simpl; auto using keeps_event, keeps_score, keeps_flag.
Qed.
(** ** Any sequence of requests and events *)

Inductive creq :=
| QSession (p : Identity.AccessClaims) (nonce : string) (started : option StartResult) (user_id : string) (tier : Z)
| QCallback (now : Z) (nonce provider raw : string) (x_signature : option string)
| QEvaluate (token : option string) (now dbnow : Z) (q : RiskEvaluateRequest)
| QEvent (dbnow : Z) (name : string) (p : list (string * json))
| QStatus (p : Identity.AccessClaims) (user_id : string).

Section system.
Variables (encrypt hmac_hex : string → string → string) (loads : string → option json) (settings : Risk.RiskSettings).
Variables (reg : KycProviderRegistry) (secret : option string).

Definition dispatch (q : creq) : H unit :=
  match q with
  | QSession p nonce started u t => _ ← session_route encrypt reg p nonce started u t; mret tt
  | QCallback now nonce provider raw sig => callback_route hmac_hex encrypt settings loads reg now nonce provider raw sig
  | QEvaluate token now dbnow q => _ ← evaluate_route settings secret token now dbnow q; mret tt
  | QEvent dbnow name p => handle dbnow name p
  | QStatus p u => _ ← status_route p u; mret tt
  end.

Definition serve (s : cdb * cworld) (q : creq) : cdb * cworld := (action_of (dispatch q) s).2.

Definition serve_all (s : cdb * cworld) (qs : list creq) : cdb * cworld := fold_left serve qs s.

Lemma wp_dispatch d0 q w : both (keeps d0) w → wp (dispatch q) (λ _ w', both (keeps d0) w') w.
Proof.
  intros Hw. destruct q; unfold dispatch, session_route, callback_route, evaluate_route, status_route, handle, _handle_payment_initiated,
    record_activity, require_self_or_admin, internal_gate, parse_uuid_field, as_client_error, get_status; wp_go; try done.
  - eapply wp_mono; [by apply wp_create_session|]. by intros [] w'.
  - eapply wp_mono; [by apply wp_apply_callback|]. intros [|[|[]]] w' Hw'; try done; wp_go; done.
  - eapply wp_mono; [by apply wp_evaluate|]. by intros [] w'.
  - eapply wp_mono; [by apply wp_evaluate|]. by intros [] w'.
  - destruct Hw. split; by eapply keeps_activity.
Qed.
(** over any sequence of requests, callbacks and events: the stored documents hold
    only allowlisted scalar fields, whatever the vendor sent; no user's tier ever
    falls; and risk scores, flags, activity and outbox rows are only appended. *)
Theorem compliance_invariant (qs : list creq) (d : cdb) (x : cworld) (Hdocs : docs_ok d) :
  keeps d (serve_all (d, x) qs).1.
Proof.
  change d with (d, x).1 at 1. change d with (d, x).1 in Hdocs. revert Hdocs. generalize (d, x). clear d x.
  induction qs as [|q qs IH]; intros s Hdocs; [by apply keeps_refl|]. simpl.
  assert (Hq : keeps s.1 (serve s q).1).
  { unfold serve, action_of, request. pose proof (wp_dispatch s.1 q (Uow s.1 s.1 s.2)) as Hw. unfold wp in Hw.
    destruct (dispatch q _) as [r w]. by apply Hw; split; apply keeps_refl. }
  eapply keeps_trans; [exact Hq|]. apply IH. apply Hq.
Qed.

Definition same_tiers (d d' : cdb) : Prop := ∀ u, get_tier u d' = get_tier u d.

Lemma same_tiers_upsert d d' d'' u row : same_tiers d d' → k_tier row = get_tier u d' → upsert_kyc_record u row d' = Ok d'' → same_tiers d d''.
Proof.
  intros Hs Ht. unfold upsert_kyc_record. destruct (_ && _); [|done]. intros [= <-] v. rewrite <- Hs. unfold get_tier. simpl.
  destruct (decide (v = u)) as [->|Hne]; [by rewrite lookup_insert_eq|by rewrite lookup_insert_ne].
Qed.

Lemma same_tiers_activity d d' d'' row : same_tiers d d' → insert_activity row d' = Ok d'' → same_tiers d d''.
Proof. intros Hs (a & _ & [= <-])%obind_ok. done. Qed.

(** Only a callback that passed changes a tier, to the tier it grants. *)
Definition granted (d d' : cdb) (r : CallbackResult) : Prop :=
  ∀ u, get_tier u d' ≠ get_tier u d → passed r = true ∧ cb_user r = u ∧ get_tier u d' = tier_granted r.

Lemma wp_callback_tiers p now nonce body d x r : parse_callback p body = Ok r →
  wp (apply_callback encrypt settings p now nonce body) (λ _ w', granted d (db w') r) (Uow d d x).
Proof.
  intros Hp. unfold apply_callback, publish. rewrite Hp. simpl. wp_go; try (by intros u Hu).
  - match goal with Hu : upsert_kyc_record _ _ _ = Ok _ |- _ => revert Hu end. unfold upsert_kyc_record. destruct (_ && _); [|done].
    intros [= <-] u Hu. unfold get_tier in *. simpl in *. destruct (decide (u = cb_user r)) as [->|Hne].
    + rewrite lookup_insert_eq in *. simpl in *. unfold get_kyc_record in *. destruct (kyc_records d !! cb_user r); split_and!; try done; lia.
    + by rewrite lookup_insert_ne in Hu.
  - match goal with Hu : upsert_kyc_record _ _ _ = Ok _ |- _ => apply (same_tiers_upsert d) in Hu; [|done|done]; intros u []; apply Hu end.
Qed.

(** C33: a tier is granted only by the provider.  Whenever a request changes the tier of
    a user, it is a callback of a registered provider whose signature over the
    exact body verifies under the provider's configured secret, which the provider
    reads as a passed verification of that user, and the new tier is the one it
    grants. *)
Theorem tier_needs_signed_callback (q : creq) (d : cdb) (x : cworld) (u : uuid)
    (Hchange : get_tier u (serve (d, x) q).1 ≠ get_tier u d) :
  ∃ now nonce provider raw sig p body r,
    q = QCallback now nonce provider raw sig ∧ registry_get reg provider = Some p ∧
    verify_signature hmac_hex (secret_for reg provider) raw sig = Ok true ∧
    loads (if truthy raw then raw else "{}") = Some (JObj body) ∧
    parse_callback p body = Ok r ∧ passed r = true ∧ cb_user r = u ∧ get_tier u (serve (d, x) q).1 = tier_granted r.
Proof.
  assert (Hother : wp (dispatch q) (λ _ w', same_tiers d (db w')) (Uow d d x) → False).
  { unfold wp. revert Hchange. unfold serve, action_of, request. simpl. destruct (dispatch q _) as [r w]. simpl. intros Hc Hs. by apply Hc. }
  destruct q as [p nonce started v t|now nonce provider raw sig|token now dbnow q|dbnow name p|p v].
  - destruct Hother. unfold dispatch, session_route, require_self_or_admin, parse_uuid_field, create_session. wp_go; try done.
    match goal with Hu : upsert_kyc_record _ _ _ = Ok _ |- _ => by apply (same_tiers_upsert d) in Hu end.
  - unfold dispatch, callback_route in Hother. destruct (registry_get reg provider) as [p|] eqn:Ep; [|by destruct Hother].
    destruct (verify_signature hmac_hex _ raw sig) as [[]|e] eqn:Ev; simpl in Hother; [|by destruct Hother..].
    destruct (loads _) as [[| | | | |body]|] eqn:El; try by destruct Hother.
    destruct (parse_callback p body) as [r|e] eqn:Er.
    2:{ destruct Hother. unfold as_client_error, apply_callback. rewrite Er. simpl. apply wp_catch. wp_go; done. }
    exists now, nonce, provider, raw, sig, p, body, r. split_and!; try done.
    all: pose proof (wp_callback_tiers p now nonce body d x r Er) as Hg; revert Hchange; unfold serve, action_of, request, dispatch,
      callback_route, as_client_error, catch, mbind, handler_bind, lift; rewrite Ep, Ev; simpl; rewrite El; unfold wp in Hg;
      destruct (apply_callback _ _ _ _ _ _ _) as [[a|[c|[]]] w]; simpl in *; intros Hc; by destruct (Hg u Hc) as (? & ? & ?).
  - destruct Hother. unfold dispatch, evaluate_route, internal_gate, parse_uuid_field, evaluate, _raise_flag, publish. by wp_go.
  - destruct Hother. unfold dispatch, handle, _handle_payment_initiated, record_activity. wp_go; try done. by eapply same_tiers_activity.
  - destruct Hother. unfold dispatch, status_route, require_self_or_admin, parse_uuid_field, get_status. by wp_go.
Qed.
End system.
(** ** Vendor metadata does not reach the service's state *)

(** The members of a callback body that may matter: the four that are read, and
    allowlisted scalars. *)
Definition kept (kv : string * json) : Prop :=
  kv.1 ∈ ["user_id"; "status"; "tier"; "session_id"] ∨ (kv.1 ∈ _ALLOWED_KEYS ∧ is_scalar kv.2 = true).

#[global] Instance kept_dec kv : Decision (kept kv).
Proof. unfold kept. apply _. Defined.

Lemma jfind_kept k body : k ∈ ["user_id"; "status"; "tier"; "session_id"] → Chain.jfind k (filter kept body) = Chain.jfind k body.
Proof.
  intros Hk. induction body as [|[k' v] body IH]; [done|]. rewrite filter_cons. cbn [Chain.jfind].
  destruct (decide (kept (k', v))) as [Hd|Hd]; cbn [Chain.jfind].
  - by rewrite IH.
  - rewrite IH. rewrite bool_decide_eq_false_2; [done|]. intros ->. apply Hd. by left.
Qed.

Lemma redact_kept body : redact (filter kept body) = redact body.
Proof.
  unfold redact. rewrite list_filter_filter_l; [done|]. intros kv Hkv. by right.
Qed.

(** Two results of a callback that differ in metadata only, and not after redaction. *)
Definition same_callback (r r' : CallbackResult) : Prop :=
  cb_user r = cb_user r' ∧ passed r = passed r' ∧ tier_granted r = tier_granted r' ∧ cb_provider_ref r = cb_provider_ref r' ∧
  redact (metadata r) = redact (metadata r').

Lemma http_parse_kept body body' : filter kept body = filter kept body' →
  match http_parse_callback body, http_parse_callback body' with
  | Ok r, Ok r' => same_callback r r'
  | Raise e, Raise e' => e = e'
  | _, _ => False
  end.
Proof.
  intros Hk. assert (Hj : ∀ k, k ∈ ["user_id"; "status"; "tier"; "session_id"] → Chain.jfind k body = Chain.jfind k body').
  { intros k Hin. by rewrite <- (jfind_kept k body), <- (jfind_kept k body'), Hk. }
  unfold http_parse_callback, Chain.jfield, jget.
  rewrite (Hj "user_id"), (Hj "status"), (Hj "tier"), (Hj "session_id") by set_solver.
  destruct (Chain.jfind "user_id" body') as [raw|]; [|done]. simpl. destruct (uuid_of raw) as [u|]; [|done]. simpl.
  destruct (Chain.py_int _) as [t|]; [|done]. simpl. split_and!; try done. simpl. by rewrite <- (redact_kept body), Hk, redact_kept.
Qed.

Section callback.
Variables (encrypt : string → string → string) (settings : Risk.RiskSettings).

Lemma apply_callback_same p p' now nonce body body' w : p_name p = p_name p' →
  match parse_callback p body, parse_callback p' body' with
  | Ok r, Ok r' => same_callback r r'
  | Raise e, Raise e' => e = e'
  | _, _ => False
  end →
  apply_callback encrypt settings p now nonce body w = apply_callback encrypt settings p' now nonce body' w.
Proof.
  intros Hn Hp. unfold apply_callback, failed_row. rewrite Hn.
  destruct (parse_callback p body) as [[u ps t ref meta]|e], (parse_callback p' body') as [[u' ps' t' ref' meta']|e']; try done; [|by subst].
  destruct Hp as (Hu & Hps & Ht & Href & Hm). simpl in *. subst. unfold mbind, handler_bind, lift. simpl. by rewrite Hm.
Qed.

(** personal data in a vendor callback leaves no trace.  Two callbacks that agree on
    the fields that are read and on the allowlisted scalars, and differ in
    anything else (names, document numbers, images, nested objects), are answered
    alike and lead to the same database and the same events. *)
Theorem callback_metadata_noninterference (name nonce : string) (now : Z) (body body' : list (string * json)) (d : cdb) (x : cworld)
    (Hsame : filter kept body = filter kept body') :
  request (apply_callback encrypt settings (HttpKycProvider name) now nonce body) d x =
  request (apply_callback encrypt settings (HttpKycProvider name) now nonce body') d x.
Proof. unfold request. rewrite (apply_callback_same _ (HttpKycProvider name) now nonce body body'); [done|done|]. by apply http_parse_kept. Qed.
End callback.

(** ** What an evaluation records *)

Lemma score_column_all : forallb (λ n, score_column (milli (Z.of_nat n)) =? Z.of_nat n) (seq 0 1001) = true.
Proof. vm_compute. reflexivity. Qed.

Lemma score_column_milli n : 0 ≤ n ≤ 1000 → score_column (milli n) = n.
Proof.
  intros Hn. pose proof score_column_all as Ha. rewrite forallb_forall in Ha.
  specialize (Ha (Z.to_nat n) ltac:(apply in_seq; lia)). rewrite Z2Nat.id in Ha by lia. by apply Z.eqb_eq in Ha.
Qed.

Lemma engine_score i cfg o : Risk.evaluate i cfg = Ok o → ∃ n, 0 ≤ n ≤ 1000 ∧ Risk.score o = milli n.
Proof.
  rewrite Risk.evaluate_signals. intros (s & Hs & [= <-])%obind_ok. exists (Risk.ref_score s). split; [apply Risk.ref_score_bounds|].
  by apply Risk.combine_spec, (Risk.signals_24h cfg i).
Qed.

(** The flags and events of a decision. *)
Definition flags_of (dbnow : Z) (u : uuid) (action : string) (o : Risk.RiskOutcome) : list FlagRow :=
  let f sev := [mkFlag u (FlagKind_value (_dominant_kind (Risk.reasons o))) (FlagSeverity_value sev) (flag_payload u sev action o) dbnow None] in
  match Risk.decision o with Risk.ALLOW => [] | Risk.REVIEW => f WARN | Risk.BLOCK => f SBLOCK end.

Definition events_of (u : uuid) (action : string) (o : Risk.RiskOutcome) : list (string * payload) :=
  match Risk.decision o with
  | Risk.ALLOW => [(CHECK_PASSED, check_payload u action o)]
  | Risk.REVIEW => [(FLAG_RAISED, flag_payload u WARN action o)]
  | Risk.BLOCK => [(CHECK_FAILED, check_payload u action o); (FLAG_RAISED, flag_payload u SBLOCK action o)]
  end.

Lemma evaluate_run settings now dbnow u action amount currency geo reg ctx d x :
  request (evaluate settings now dbnow u action amount currency geo reg ctx) d x =
  match Risk.risk_config settings with
  | Raise e => (Raise (PyError e), d, x)
  | Ok cfg =>
      match Risk.evaluate (collect settings now u action amount currency geo reg d) cfg with
      | Raise e => (Raise (PyError e), d, x)
      | Ok o =>
          (Ok o,
           mkCdb (kyc_records d)
             (risk_scores d ++ [mkScore u (str_or ctx action) (score_column (Risk.score o)) (Risk.Decision_value (Risk.decision o))
                (_reasons_payload (Risk.reasons o)) dbnow])
             (flags d ++ flags_of dbnow u action o) (activity_events d)
             (compliance_events d ++
               ((λ np, mkEvent (if bool_decide (np.1 = FLAG_RAISED) then "flag" else "risk") (Some u) np.1 np.2) <$> events_of u action o)),
           mkCw (published x ++ events_of u action o))
      end
  end.
Proof.
  unfold request, evaluate, mbind, handler_bind, query, lift, write, commit, mret, handler_ret, _raise_flag. simpl.
  destruct (Risk.risk_config settings) as [cfg|e]; [|done]. simpl. destruct (Risk.evaluate _ cfg) as [o|e]; [|done]. simpl.
  unfold flags_of, events_of, publish, effect.
  destruct (Risk.decision o); simpl; unfold mbind, handler_bind, mret, handler_ret; simpl;
    unfold add_event, insert_flag, insert_risk_score; simpl; rewrite ?app_nil_r, <- ?app_assoc; destruct x; reflexivity.
Qed.
(** an evaluation records exactly its decision.  It changes neither tiers nor the
    activity it is computed from; it appends one score row, whose stored thousandths
    are the returned score; it raises one flag exactly when it does not allow,
    of severity block or warn as it blocks or reviews; and it publishes the outbox
    rows it committed.  When the engine raises, nothing is recorded. *)
Theorem evaluation_recorded (settings : Risk.RiskSettings) (now dbnow : Z) (u : uuid) (action : string) (amount : option dec)
    (currency : string) (geo reg ctx : option string) (d : cdb) (x : cworld) :
  let '(r, d', x') := request (evaluate settings now dbnow u action amount currency geo reg ctx) d x in
  match r with
  | Raise _ => d' = d ∧ x' = x
  | Ok o =>
      (∃ cfg, Risk.risk_config settings = Ok cfg ∧
         Risk.evaluate (collect settings now u action amount currency geo reg d) cfg = Ok o) ∧
      kyc_records d' = kyc_records d ∧ activity_events d' = activity_events d ∧
      (∃ row, risk_scores d' = risk_scores d ++ [row] ∧ rs_user row = u ∧ rs_decision row = Risk.Decision_value (Risk.decision o) ∧
         milli (rs_score row) = Risk.score o ∧ 0 ≤ rs_score row ≤ 1000) ∧
      (∃ fs, flags d' = flags d ++ fs ∧
         fl_severity <$> fs = match Risk.decision o with Risk.ALLOW => [] | Risk.REVIEW => ["warn"] | Risk.BLOCK => ["block"] end) ∧
      ∃ es, compliance_events d' = compliance_events d ++ es ∧ published x' = published x ++ ((λ e, (ev_kind e, ev_payload e)) <$> es)
  end.
Proof.
  rewrite evaluate_run. destruct (Risk.risk_config settings) as [cfg|e]; [|done].
  destruct (Risk.evaluate _ cfg) as [o|e] eqn:E; [|done]. cbn [kyc_records activity_events risk_scores flags compliance_events published].
  destruct (engine_score _ _ _ E) as (n & Hn & Hs). split_and!; [by exists cfg|done|done| | |].
  - eexists. split; [done|]. cbn [rs_user rs_decision rs_score]. rewrite Hs, score_column_milli by done. destruct Hn. by split_and!.
  - eexists. split; [done|]. unfold flags_of. by destruct (Risk.decision o).
  - eexists. split; [done|]. rewrite <- list_fmap_compose. f_equal. rewrite <- (list_fmap_id (events_of u action o)) at 1.
    apply list_fmap_ext. by intros i [k p] _.
Qed.

(** ** What the windows count *)

(** a redelivered event counts twice.  The activity ledger has no key of the event, so
    handling the same [payment.initiated] again records it again, and both the
    velocity counts and the amount of the window see it twice. *)
Theorem redelivered_payment_counts_twice (t since : Z) (p : list (string * json)) (u : uuid) (a : dec) (d : cdb) (x : cworld)
    (Huser : uuid_of (jget "user_id" JNull p) = Ok u) (Htruthy : jtruthy (jget "user_id" JNull p) = true)
    (Hamount : _parse_amount (jget "amount" JNull p) = Some (Fin a)) (Hstored : numeric_20_2 (Fin a) = Ok (Fin a)) (Hin : since ≤ t) :
  let once := (request (handle t PAYMENT_INITIATED p) d x).1.2 in
  let twice := (request (handle t PAYMENT_INITIATED p) once x).1.2 in
  count_activity_since u since twice = count_activity_since u since d + 2 ∧
  sum_amount_since u since twice = exact_add (exact_add (sum_amount_since u since d) (Fin a)) (Fin a).
Proof.
  assert (Hrun : ∀ d, (request (handle t PAYMENT_INITIATED p) d x).1.2 =
    mkCdb (kyc_records d) (risk_scores d) (flags d) (activity_events d ++ [mkActivity u PAYMENT_INITIATED (Some (Fin a))
      (if jtruthy (jget "currency" JNull p) then Some (py_str (jget "currency" JNull p)) else None) t]) (compliance_events d)).
  { intros d0. unfold handle. rewrite bool_decide_eq_true_2 by done. unfold _handle_payment_initiated. rewrite Htruthy, Huser, Hamount.
    unfold record_activity, request, mbind, handler_bind, try_write, insert_activity. cbn [ac_amount ac_user ac_action ac_currency occurred_at tx].
    by rewrite Hstored. }
  cbv zeta. rewrite !Hrun. unfold count_activity_since, sum_amount_since, activity_since. cbn [activity_events].
  rewrite !filter_app, !filter_cons_True, filter_nil by done. rewrite !length_app, !omap_app, !fold_left_app. simpl. split; [lia|done].
Qed.
(** an expired verification still counts.  The decision of an evaluation does not
    depend on when a verification was made or expires: with any other expiry date
    on every record, at any time, it is the same. *)
Theorem expired_kyc_still_counts (settings : Risk.RiskSettings) (now dbnow : Z) (u : uuid) (action : string) (amount : option dec)
    (currency : string) (geo reg ctx : option string) (d : cdb) (x : cworld) (expiry : option Z) :
  let d' := mkCdb ((λ r, mkKyc (k_tier r) (k_provider r) (k_provider_ref r) (documents r) (verified_at r) expiry) <$> kyc_records d)
    (risk_scores d) (flags d) (activity_events d) (compliance_events d) in
  (request (evaluate settings now dbnow u action amount currency geo reg ctx) d' x).1.1 =
  (request (evaluate settings now dbnow u action amount currency geo reg ctx) d x).1.1.
Proof.
  intros d'. rewrite !evaluate_run.
  assert (collect settings now u action amount currency geo reg d' = collect settings now u action amount currency geo reg d) as ->.
  { unfold collect, get_tier, d'. simpl. rewrite lookup_fmap. by destruct (kyc_records d !! u). }
  destruct (Risk.risk_config settings) as [cfg|]; [|done]. by destruct (Risk.evaluate _ cfg).
Qed.

Lemma exact_add_nan n : exact_add (NaN false) n = NaN false.
Proof. by destruct n. Qed.

Lemma sum_nan l acc : NaN false ∈ l → fold_left exact_add l acc = NaN false.
Proof.
  revert acc. assert (Habs : ∀ l, fold_left exact_add l (NaN false) = NaN false).
  { intros k. induction k as [|n k IH]; [done|]. cbn [fold_left]. by rewrite exact_add_nan. }
  induction l as [|n l IH]; intros acc Hin; [by apply elem_of_nil in Hin|]. simpl. apply elem_of_cons in Hin as [<-|Hin]; [|by apply IH].
  assert (exact_add acc (NaN false) = NaN false) as -> by by destruct acc. apply Habs.
Qed.

(** one [payment.initiated] whose amount is not a number locks its user out.  Once it
    is recorded, and as long as it is in the window, every evaluation of a
    value action of that user raises, whatever is requested and recorded since. *)
Theorem nan_amount_locks_user (settings : Risk.RiskSettings) (cfg : Risk.RiskConfig) (t now dbnow : Z) (p : list (string * json)) (u : uuid)
    (action : string) (amount : option dec) (currency : string) (geo reg ctx : option string) (d d' : cdb) (x x' : cworld)
    (Huser : uuid_of (jget "user_id" JNull p) = Ok u) (Htruthy : jtruthy (jget "user_id" JNull p) = true)
    (Hnan : _parse_amount (jget "amount" JNull p) = Some (NaN false))
    (Hlater : activity_events (request (handle t PAYMENT_INITIATED p) d x).1.2 `prefix_of` activity_events d')
    (Hwindow : now - hours (Risk.aml_window_hours settings) ≤ t)
    (Hcfg : Risk.risk_config settings = Ok cfg) (Hvalue : action ∈ Risk.VALUE_ACTIONS) :
  request (evaluate settings now dbnow u action amount currency geo reg ctx) d' x' = (Raise (PyError InvalidOperation), d', x').
Proof.
  rewrite evaluate_run, Hcfg.
  assert (Hsum : sum_amount_since u (now - hours (Risk.aml_window_hours settings)) d' = NaN false).
  { apply sum_nan, list_elem_of_omap. revert Hlater. unfold handle. rewrite bool_decide_eq_true_2 by done.
    unfold _handle_payment_initiated. rewrite Htruthy, Huser, Hnan. simpl. intros [more Hd'].
    exists (mkActivity u PAYMENT_INITIATED (Some (NaN false))
      (if jtruthy (jget "currency" JNull p) then Some (py_str (jget "currency" JNull p)) else None) t).
    split; [|done]. apply list_elem_of_filter. rewrite Hd'. split; [done|]. set_solver. }
  assert (Hev : Risk.evaluate (collect settings now u action amount currency geo reg d') cfg = Raise InvalidOperation); [|by rewrite Hev].
  unfold Risk.evaluate, Risk.aml_rule, Risk.is_value_action, collect. cbn [Risk.action Risk.cumulative_amount_window].
  rewrite bool_decide_eq_true_2 by done. by rewrite Hsum.
Qed.

(** ** The events that payment-orchestrator publishes *)

Record Payment := mkPayment {
  pay_id : string; pay_paylink : string; pay_rail : string; pay_status : string; pay_created : string; pay_updated : string }.

Definition payment_payload (p : Payment) : list (string * json) :=
  [("payment_id", JStr (pay_id p)); ("paylink_id", JStr (pay_paylink p)); ("rail", JStr (pay_rail p)); ("status", JStr (pay_status p));
   ("created_at", JStr (pay_created p)); ("updated_at", JStr (pay_updated p))].

Section windows.
Variables (encrypt hmac_hex : string → string → string) (loads : string → option json) (settings : Risk.RiskSettings).
Variables (reg : KycProviderRegistry) (secret : option string).

(** The [payment.initiated] events come from payment-orchestrator. *)
Definition from_orchestrator (q : creq) : Prop :=
  match q with QEvent _ name p => name = PAYMENT_INITIATED → ∃ pay, p = payment_payload pay | _ => True end.

(** the windows stay empty.  The payments that payment-orchestrator announces carry
    neither a user nor an amount, so that over any sequence of requests and such
    events the activity ledger never changes: every velocity count and every sum
    of the window is what it was at the start. *)
Theorem orchestrator_payments_not_counted (qs : list creq) (d : cdb) (x : cworld) (Hfrom : Forall from_orchestrator qs) :
  let d' := (serve_all encrypt hmac_hex loads settings reg secret (d, x) qs).1 in
  activity_events d' = activity_events d ∧
  ∀ u since, count_activity_since u since d' = count_activity_since u since d ∧ sum_amount_since u since d' = sum_amount_since u since d.
Proof.
  assert (Hact : activity_events (serve_all encrypt hmac_hex loads settings reg secret (d, x) qs).1 = activity_events d).
  2:{ intros d'. split; [exact Hact|]. intros u since. unfold count_activity_since, sum_amount_since, activity_since, d'. by rewrite Hact. }
  change d with (d, x).1 at 2. generalize (d, x). clear d x. induction Hfrom as [|q qs Hq _ IH]; intros s; [done|].
  unfold serve_all in *. simpl. rewrite IH. clear IH. unfold serve, action_of, request. simpl.
  assert (Hw : wp (dispatch encrypt hmac_hex loads settings reg secret q) (λ _ w', activity_events (db w') = activity_events s.1) (Uow s.1 s.1 s.2)).
  2:{ unfold wp in Hw. by destruct (dispatch _ _ _ _ _ _ q _) as [r w]. }
  assert (Hup : ∀ u row d d', upsert_kyc_record u row d = Ok d' → activity_events d' = activity_events d).
  { intros u row d d'. unfold upsert_kyc_record. destruct (_ && _); [|done]. by intros [= <-]. }
  destruct q as [p nonce started v t|now nonce provider raw sig|token now dbnow q|dbnow name p|p v];
    unfold dispatch, session_route, callback_route, evaluate_route, status_route, require_self_or_admin, internal_gate, parse_uuid_field,
      as_client_error, create_session, apply_callback, evaluate, get_status, _raise_flag, publish; try (wp_go; simpl; eauto; done).
  unfold handle. case_bool_decide as Hn; [|done]. destruct (Hq Hn) as [pay ->]. done.
Qed.
End windows.
(** any organization's admin is an administrator here.  Whoever holds the role
    admin in some organization, of whatever type, gets the compliance status
    of every user, as the user would. *)
Theorem org_admin_reads_any_status (p : Identity.AccessClaims) (org : string) (kind : option string) (u : uuid) (d : cdb) (x : cworld)
    (Hrole : Identity.mkOrgRole org "admin" kind ∈ Identity.c_roles p) (Hu : (u < 2 ^ 128)%N) :
  request (status_route p (uuid_text u)) d x = request (get_status u) d x.
Proof.
  unfold request, status_route, mbind, handler_bind, require_self_or_admin, parse_uuid_field. rewrite parse_uuid_text by done.
  assert (Hlen : bool_decide (String.length (uuid_text u) = 0%nat) = false).
  { apply bool_decide_eq_false. unfold uuid_text. destruct (hexn 32 u) as [|c l] eqn:E; [|done].
    pose proof (hexn_length 32 u) as Hl. by rewrite E in Hl. }
  assert (Hadmin : is_admin p = true).
  { unfold is_admin. apply orb_true_intro. right. apply existsb_exists. eexists.
    split; [by apply list_elem_of_In|]. by apply bool_decide_eq_true. }
  by rewrite Hlen, Hadmin, orb_true_r.
Qed.

(** The kind of a flag is not always that of the heaviest reason: reasons without a kind of
    their own are passed over. *)
Lemma dominant_kind_skips_heaviest : _dominant_kind [Risk.LOW_KYC; Risk.GEO_MISMATCH] = GEO ∧ _dominant_kind [Risk.LOW_KYC] = MANUAL.
Proof. split; vm_compute; reflexivity. Qed.

(** ** Concrete runs *)

Definition demo_seal (n s : string) : string := n +:+ "|" +:+ s.
Definition demo_hmac (s r : string) : string := "aa".
Definition demo_reg : KycProviderRegistry := build_registry "http" "https://vendor" "stub:dev; http : key ;".
Definition demo_body (extra : list (string * json)) : list (string * json) :=
  [("user_id", JStr (uuid_text 1)); ("status", JStr "Approved"); ("tier", JInt 2)] ++ extra.
Definition demo_loads (raw : string) : option json := Some (JObj (demo_body [("full_name", JStr raw); ("country", JStr "KE")])).
Definition demo_db : cdb := mkCdb ∅ [] [] [] [].
Definition demo_callback : creq := QCallback 5 "n" "http" "Jane Doe" (Some " sha256=AA").
Definition demo_claims : Identity.AccessClaims := Identity.mkClaims "x" [Identity.mkOrgRole "org" "admin" (Some "merchant")] [] 0 "" "" false [] 0 0.

Definition demo_serve : cdb * cworld → list creq → cdb * cworld :=
  serve_all demo_seal demo_hmac demo_loads Risk.default_settings demo_reg None.

Lemma compliance_invariant_witness :
  (∃ r, kyc_records (demo_serve (demo_db, mkCw []) [demo_callback]).1 !! 1%N = Some r ∧
     k_tier r = 2 ∧ documents r = Some [("status", JStr "Approved"); ("tier", JInt 2); ("country", JStr "KE")]) ∧
  keeps demo_db (demo_serve (demo_db, mkCw []) [demo_callback]).1.
Proof.
  split; [|by apply compliance_invariant].
  destruct (kyc_records (demo_serve (demo_db, mkCw []) [demo_callback]).1 !! 1%N) as [r|] eqn:E; vm_compute in E; [|done].
  injection E as <-. by eexists.
Defined.

Lemma tier_needs_signed_callback_witness :
  get_tier 1 (serve demo_seal demo_hmac demo_loads Risk.default_settings demo_reg None (demo_db, mkCw []) demo_callback).1 = 2 ∧
  ∃ p, registry_get demo_reg "http" = Some p ∧ verify_signature demo_hmac (secret_for demo_reg "http") "Jane Doe" (Some " sha256=AA") = Ok true.
Proof.
  split; [by vm_compute|].
  destruct (tier_needs_signed_callback demo_seal demo_hmac demo_loads Risk.default_settings demo_reg None demo_callback demo_db (mkCw []) 1)
    as (now & nonce & provider & raw & sig & p & body & r & Hq & Hp & Hv & _); [by vm_compute|].
  injection Hq as <- <- <- <- <-. exists p. by split.
Defined.

Lemma callback_metadata_noninterference_witness :
  request (apply_callback demo_seal Risk.default_settings (HttpKycProvider "http") 5 "n" (demo_body [("full_name", JStr "Jane Doe")])) demo_db (mkCw []) =
  request (apply_callback demo_seal Risk.default_settings (HttpKycProvider "http") 5 "n"
    (demo_body [("dob", JStr "1990-01-01"); ("country", JObj [("name", JStr "KE")])])) demo_db (mkCw []).
Proof. apply callback_metadata_noninterference. by vm_compute. Defined.

Definition demo_payment (amount : json) : list (string * json) := [("user_id", JStr (uuid_text 1)); ("amount", amount); ("currency", JStr "KES")].

Lemma redelivered_payment_counts_twice_witness :
  let once := (request (handle 10 PAYMENT_INITIATED (demo_payment (JStr "99.50"))) demo_db (mkCw [])).1.2 in
  let twice := (request (handle 10 PAYMENT_INITIATED (demo_payment (JStr "99.50"))) once (mkCw [])).1.2 in
  count_activity_since 1 0 twice = 0 + 2 ∧ sum_amount_since 1 0 twice = Fin (Dec 19900 (-2)).
Proof.
  destruct (redelivered_payment_counts_twice 10 0 (demo_payment (JStr "99.50")) 1 (Dec 9950 (-2)) demo_db (mkCw [])) as [Hc Hs];
    [by vm_compute|by vm_compute|by vm_compute|by vm_compute|lia|]. split; [exact Hc|]. cbv zeta. rewrite Hs. by vm_compute.
Defined.

Lemma nan_amount_locks_user_witness :
  let d1 := (request (handle 10 PAYMENT_INITIATED (demo_payment (JStr "NaN"))) demo_db (mkCw [])).1.2 in
  request (evaluate Risk.default_settings 20 20 1 "paylink.create" (Some (dec_int 5)) "KES" None None None) d1 (mkCw []) =
    (Raise (PyError InvalidOperation), d1, mkCw []).
Proof.
  apply (nan_amount_locks_user Risk.default_settings Risk.default_config 10 20 20 (demo_payment (JStr "NaN")) 1 "paylink.create" (Some (dec_int 5))
    "KES" None None None demo_db _ (mkCw []) (mkCw [])); [by vm_compute|by vm_compute|by vm_compute|reflexivity|by vm_compute|done|].
  vm_compute. left.
Defined.

Lemma orchestrator_payments_not_counted_witness :
  activity_events (demo_serve (demo_db, mkCw []) [QEvent 10 PAYMENT_INITIATED (payment_payload (mkPayment "p" "0x1" "mpesa" "AWAITING" "t" "t"))]).1 = [].
Proof.
  apply (orchestrator_payments_not_counted demo_seal demo_hmac demo_loads Risk.default_settings demo_reg None
    [QEvent 10 PAYMENT_INITIATED (payment_payload (mkPayment "p" "0x1" "mpesa" "AWAITING" "t" "t"))] demo_db (mkCw [])).
  repeat constructor. intros _. by eexists.
Defined.

Lemma org_admin_reads_any_status_witness :
  request (status_route demo_claims (uuid_text 7)) demo_db (mkCw []) = request (get_status 7) demo_db (mkCw []).
Proof. apply (org_admin_reads_any_status demo_claims "org" (Some "merchant")); [left|done]. Defined.
End Compliance.
