(* ===== verification/Relays.v ===== *)
(** * From the services' tables to the bus

    The outbox tables of the six services as the relays read them ([app/main.py] gives each relay its
    table and key column), the relay of each service ([app/events/relay.py], the class modelled
    in [Outbox]), and what reaches the bus of what paylink-service commits. *)
From S2P Require Import Prelude PyText PyJson PyNum UnitOfWork Tables Chain PayLink Pricing Invoice IdentityDb Merchant Outbox Risk Compliance.

Module Relays.
Import PyNum Outbox.
Open Scope nat_scope.

(** A table with a serial id, in the order of insertion, none of it published. *)
Definition serial {E P} (key : E → option string) (kind : E → string) (payload : E → P) (es : list E) : list (orow P) :=
  imap (λ i e, mkRow (N.of_nat i) (kind e) (key e) (payload e) None) es.

Definition paylink_outbox (d : PayLink.pldb) : list (orow json) :=
  serial (λ e, Some (PayLink.ev_pl_id e)) PayLink.ev_kind PayLink.ev_payload (PayLink.events d).

Definition identity_outbox (d : Identity.iddb) : list (orow json) :=
  serial (λ e, uuid_text <$> Identity.e_subject e) Identity.e_kind Identity.e_payload (Identity.id_events d).

Definition invoice_outbox (d : Invoice.idb) : list (orow json) :=
  serial (λ e, Some (uuid_text (Invoice.ev_invoice e))) Invoice.ev_kind Invoice.ev_payload (Invoice.events d).

Definition merchant_outbox (d : Merchant.mdb) : list (orow json) :=
  serial (λ e, Some (uuid_text (Merchant.me_subject e))) Merchant.me_kind Merchant.me_payload (Merchant.m_events d).

Definition pricing_outbox (d : Pricing.pdb) : list (orow json) :=
  serial (λ e, Some (Pricing.pe_entity e)) Pricing.pe_kind Pricing.pe_payload (Pricing.pricing_events d).

Definition compliance_outbox (d : Compliance.cdb) : list (orow Compliance.payload) :=
  serial (λ e, uuid_text <$> Compliance.ev_subject_id e) Compliance.ev_kind Compliance.ev_payload (Compliance.compliance_events d).

(** The relay's batch is 100 in every service. *)
Definition batch : nat := 100.

Section relays.
Context {X : Type} `{!BusProducer (P := json) X}.

Definition paylink_relay := run (P := json) (X := X) batch.
Definition identity_relay := run (P := json) (X := X) batch.
Definition invoice_relay := run (P := json) (X := X) batch.
Definition merchant_relay := run (P := json) (X := X) batch.
Definition pricing_relay := run (P := json) (X := X) batch.
End relays.

(** ** A fresh table is its own queue *)

Lemma sorted_by_lookup {A} (R : relation A) (l : list A) :
  (∀ (i j : nat) x y, l !! i = Some x → l !! j = Some y → (i < j)%nat → R x y) → StronglySorted R l.
Proof.
  induction l as [|a l IH]; intros Hl; constructor.
  - apply IH. intros i j x y Hi Hj Hij. apply (Hl (S i) (S j)); [done|done|lia].
  - apply Forall_lookup. intros i x Hi. apply (Hl 0 (S i)); [done|done|lia].
Qed.

Section serial.
Context {E P : Type} (key : E → option string) (kind : E → string) (payload : E → P).

Lemma serial_lookup es i : serial key kind payload es !! i = (λ e, mkRow (N.of_nat i) (kind e) (key e) (payload e) None) <$> es !! i.
Proof. apply list_lookup_imap. Qed.

Lemma serial_ids es : ids (serial key kind payload es) = N.of_nat <$> seq 0 (length es).
Proof.
  apply list_eq. intros i. unfold ids. rewrite !list_lookup_fmap, serial_lookup. destruct (es !! i) as [e|] eqn:Ei; simpl.
  - by rewrite lookup_seq_lt by (by eapply lookup_lt_Some).
  - rewrite lookup_seq_ge by by apply lookup_ge_None. done.
Qed.

Lemma serial_NoDup es : NoDup (ids (serial key kind payload es)).
Proof. rewrite serial_ids. apply (NoDup_fmap_2 N.of_nat). apply NoDup_seq. Qed.

Lemma serial_new es r : r ∈ serial key kind payload es → published_at r = None.
Proof. intros [i Hi]%list_elem_of_lookup. rewrite serial_lookup in Hi. destruct (es !! i); simpl in Hi; by simplify_eq. Qed.

Lemma serial_sorted es : StronglySorted id_le (serial key kind payload es).
Proof.
  apply sorted_by_lookup. intros i j x y Hi Hj Hlt. rewrite serial_lookup in Hi, Hj.
  destruct (es !! i), (es !! j); simpl in *; simplify_eq. unfold id_le. simpl. lia.
Qed.

Lemma serial_pending es : pending (serial key kind payload es) = serial key kind payload es.
Proof.
  apply sorted_unique; [apply NoDup_pending, serial_NoDup|apply pending_sorted|apply serial_sorted|].
  rewrite pending_perm, filter_all; [done|]. apply serial_new.
Qed.

Lemma serial_msgs es : msg_of <$> serial key kind payload es = (λ e, (kind e, str_or (key e) "", payload e)) <$> es.
Proof. apply list_eq. intros i. rewrite !list_lookup_fmap, serial_lookup. by destruct (es !! i). Qed.
End serial.

(** ** Delivery *)

Section delivery.
Context {P X : Type} `{!BusProducer (P := P) X} `{!BusLaws X}.

Lemma clean_turns_le n nows : ∀ s : list (orow P) * X, clean_turns n s (Turn <$> nows) ≤ length nows.
Proof.
  induction nows as [|now nows IH]; intros s; [done|]. rewrite fmap_cons. cbn [clean_turns length].
  specialize (IH (happen n s (Turn now))). destruct (clean n now s); lia.
Qed.

(** Turns without failures publish the queue in order, each row once. *)
Lemma clean_run n nows (t : list (orow P)) (x : X) : NoDup (ids t) → clean_turns n (t, x) (Turn <$> nows) = length nows →
  sent (run n (t, x) (Turn <$> nows)).2 = sent x ++ (msg_of <$> take (n * length nows) (pending t)).
Proof.
  revert t x. induction nows as [|now nows IH]; intros t x Hnd Hc; [simpl; by rewrite Nat.mul_0_r, take_0, app_nil_r|].
  rewrite fmap_cons in *. cbn [clean_turns length] in Hc. change (run n (t, x) (Turn now :: _)) with (run n (happen n (t, x) (Turn now)) (Turn <$> nows)).
  pose proof (clean_turns_le n nows (happen n (t, x) (Turn now))) as Hle.
  pose proof (drain_spec n now t x) as Hd. cbn [happen] in *.
  unfold clean, turn in *. cbn [fst snd] in *. destruct (request (_drain_once n now) t x) as [[[k|e] t'] x']; cbn [is_ok fst snd] in *; [|lia].
  destruct Hd as (_ & -> & Hs). rewrite IH; [|by rewrite ids_mark_all|lia]. rewrite Hs. unfold select. rewrite pending_mark_all by done.
  rewrite <- app_assoc, <- fmap_app. cbn [length].
  by rewrite take_take_drop, Nat.mul_succ_r, Nat.add_comm.
Qed.
End delivery.

(** what paylink-service announces reaches the bus.  After any sequence of requests, once the relay's successful turns cover
    the committed outbox, whatever the producer refuses in between and whatever new events arrive, every event the
    service announced has been handed to the bus, keyed by the PayLink it is about; and when no turn fails, the bus
    gets exactly these events, in the order in which they were announced. *)
Theorem paylink_events_reach_bus {X : Type} `{!BusProducer (P := json) X} `{!BusLaws X} (sha256_hex : string → string) (n : Chain.node) (signer : Chain.Signer)
    (settings : PayLink.Settings) (compliance : option PayLink.RiskPort) (qs : list PayLink.req) (es : list event) (nows : list Z) (x : X)
    (Harr : arrivals_ok batch (paylink_outbox (PayLink.serve_all sha256_hex n signer settings compliance qs PayLink.start).1, x) es) :
  let s := PayLink.serve_all sha256_hex n signer settings compliance qs PayLink.start in
  let t := paylink_outbox s.1 in
  (length t ≤ batch * clean_turns batch (t, x) es → ∀ kind p, (kind, p) ∈ PayLink.published s.2 →
     ∃ e more, e ∈ PayLink.events s.1 ∧ PayLink.ev_kind e = kind ∧ PayLink.ev_payload e = p ∧
       sent (paylink_relay (t, x) es).2 = sent x ++ more ∧ (kind, PayLink.ev_pl_id e, p) ∈ more) ∧
  (clean_turns batch (t, x) (Turn <$> nows) = length nows → length t ≤ batch * length nows →
     ∃ more, sent (paylink_relay (t, x) (Turn <$> nows)).2 = sent x ++ more ∧
       (λ m, (m.1.1, m.2)) <$> more = PayLink.published s.2 ∧ (λ m, m.1.2) <$> more = PayLink.ev_pl_id <$> PayLink.events s.1).
Proof.
  intros s t. destruct (PayLink.serve_all_ok sha256_hex n signer settings compliance qs PayLink.start PayLink.start_ok) as [[_ Hpub] _]. fold s in Hpub, Harr.
  assert (Hkey : ∀ k, str_or (Some k) "" = k) by (by intros [|c k]).
  assert (Hnd : NoDup (ids t)) by apply serial_NoDup. assert (Hpend : pending t = t) by apply serial_pending. split.
  - intros Henough kind p Hp. rewrite <- Hpub in Hp. apply list_elem_of_fmap in Hp as (e & [= -> ->] & He). exists e.
    destruct (run_waiting (ids t) batch es (pending t) (t, x) (waiting_start (ids t) t Hnd (reflexivity _)) Harr) as [_ (more & Hs & Hm)].
    exists more. split_and!; [done|done|done|exact Hs|]. apply list_elem_of_lookup in He as [i Hi].
    assert (Hr : t !! i = Some (mkRow (N.of_nat i) (PayLink.ev_kind e) (Some (PayLink.ev_pl_id e)) (PayLink.ev_payload e) None)).
    { unfold t, paylink_outbox. rewrite serial_lookup, Hi. done. }
    rewrite Hpend, take_ge in Hm by done. specialize (Hm _ (list_elem_of_lookup_2 _ _ _ Hr)). unfold msg_of in Hm. cbn [o_kind o_key o_payload] in Hm. by rewrite Hkey in Hm.
  - intros Hc Hlen. eexists. split; [apply (clean_run batch nows t x Hnd Hc)|]. rewrite Hpend, take_ge by done. unfold t, paylink_outbox.
    rewrite serial_msgs, <- !list_fmap_compose. split; [exact Hpub|]. apply list_fmap_ext. intros i e _. apply Hkey.
Qed.

(** A broker that takes everything after one failure. *)
Record json_bus := mkJsonBus { taken : list (@msg json); refusals : nat }.

#[global] Instance json_producer : BusProducer (P := json) json_bus := {|
  send m b := match refusals b with S k => (Raise RuntimeError, mkJsonBus (taken b) k) | 0 => (Ok tt, mkJsonBus (taken b ++ [m]) 0) end;
  sent := taken |}.

#[global] Instance json_bus_laws : BusLaws (P := json) json_bus.
Proof. split; [intros m [g [|k]] x'|intros m [g [|k]] e x']; simpl; intros [=]; subst; by auto. Qed.

Lemma paylink_events_reach_bus_witness :
  let s := PayLink.serve_all id PayLink.settled_node Chain.demo_signer PayLink.demo_settings None [PayLink.ReqCreate 1 "f" (PayLink.demo_cmd None)] PayLink.start in
  length (PayLink.published s.2) = 2 ∧
  ∃ more, sent (paylink_relay (paylink_outbox s.1, mkJsonBus [] 0) [Turn 7%Z]).2 = [] ++ more ∧ (λ m, (m.1.1, m.2)) <$> more = PayLink.published s.2.
Proof.
  destruct (paylink_events_reach_bus id PayLink.settled_node Chain.demo_signer PayLink.demo_settings None
    [PayLink.ReqCreate 1 "f" (PayLink.demo_cmd None)] [Turn 7%Z] [7%Z] (mkJsonBus [] 0) (conj I I)) as [_ H].
  split; [vm_compute; reflexivity|]. destruct H as (more & Hs & Hp & _); [vm_compute; reflexivity|vm_compute; lia|].
  exists more. split; [exact Hs|exact Hp].
Defined.
End Relays.
