(* ===== verification/Templating.v ===== *)
(** * Text of notification-service: templates, template lookup, masking

    [app/templating/render.py] with the substitution of [string.Template], the
    [LIKE] pattern by which [NotifyRepository] finds the templates of an event, and
    [app/redaction.py]. *)
From S2P Require Import Prelude PyText PyJson PyNum Chain.
From Stdlib Require Import Ascii.

Module Templating.
Import PyNum.

(** ** templating/render.py *)

Definition id_start (c : ascii) : bool :=
  let n := code c in ((n =? 95) || (65 <=? n) && (n <=? 90) || (97 <=? n) && (n <=? 122))%N.
Definition id_char (c : ascii) : bool :=
  let n := code c in id_start c || ((48 <=? n) && (n <=? 57))%N.

(** [Template.safe_substitute] as one left-to-right scan: in plain text, after a
    [$], inside [$name], inside [${name]. *)
Inductive scan := InText | InDollar | InName (acc : list ascii) | InBrace (acc : list ascii).

Section render.
Variable value : list ascii → option (list ascii).

Definition named (acc : list ascii) : list ascii := default ("$"%char :: acc) (value acc).
Definition braced (acc : list ascii) : list ascii := default (["$"; "{"]%char ++ acc ++ ["}"%char]) (value acc).

(** One character of plain text. *)
Definition plain (c : ascii) : list ascii * scan := if bool_decide (c = "$"%char) then ([], InDollar) else ([c], InText).

Definition scan_char (m : scan) (c : ascii) : list ascii * scan :=
  match m with
  | InText => plain c
  | InDollar =>
      if bool_decide (c = "$"%char) then (["$"%char], InText)
      else if id_start c then ([], InName [c])
      else if bool_decide (c = "{"%char) then ([], InBrace [])
      else (["$"%char; c], InText)
  | InName acc =>
      if id_char c then ([], InName (acc ++ [c]))
      else let '(out, m') := plain c in (named acc ++ out, m')
  | InBrace acc =>
      if (match acc with [] => id_start c | _ => id_char c end) then ([], InBrace (acc ++ [c]))
      else if bool_decide (c = "}"%char) && negb (bool_decide (acc = [])) then (braced acc, InText)
      else let '(out, m') := plain c in (["$"; "{"]%char ++ acc ++ out, m')
  end.

Definition scan_end (m : scan) : list ascii :=
  match m with
  | InText => []
  | InDollar => ["$"%char]
  | InName acc => named acc
  | InBrace acc => ["$"; "{"]%char ++ acc
  end.

Fixpoint substitute (m : scan) (l : list ascii) : list ascii :=
  match l with
  | [] => scan_end m
  | c :: l' => let '(out, m') := scan_char m c in out ++ substitute m' l'
  end.
End render.

(** The mapping [{key: str(value)}] of the event data. *)
Definition coerced (data : list (string * json)) (name : list ascii) : option (list ascii) :=
  (λ j, chars (py_str j)) <$> Chain.jfind (text name) data.

Definition render (body : string) (data : list (string * json)) : string :=
  text (substitute (coerced data) InText (chars body)).

(** ** db/repository.py: the templates of an event *)

(** The snake-case name with [LIKE]'s metacharacters escaped. *)
Definition snake (event_kind : string) : string := replace "." "_" event_kind.
Definition escaped (s : string) : string := replace "_" "\_" (replace "%" "\%" (replace "\" "\\" s)).
Definition template_pattern (event_kind : string) : string := "%." +:+ escaped (snake event_kind) +:+ ".%".

(** [text LIKE pattern ESCAPE '\'] of PostgreSQL. *)
Fixpoint suffixes (t : list ascii) : list (list ascii) :=
  t :: match t with [] => [] | _ :: t' => suffixes t' end.

Fixpoint like (p t : list ascii) {struct p} : bool :=
  match p with
  | [] => bool_decide (t = [])
  | c :: p' =>
      if bool_decide (c = "%"%char) then existsb (like p') (suffixes t)
      else if bool_decide (c = "_"%char) then match t with _ :: t' => like p' t' | [] => false end
      else if bool_decide (c = "\"%char) then
        match p', t with
        | x :: p'', y :: t' => bool_decide (x = y) && like p'' t'
        | _, _ => false
        end
      else match t with y :: t' => bool_decide (c = y) && like p' t' | [] => false end
  end.

Definition template_matches (event_kind template_id : string) : bool :=
  like (chars (template_pattern event_kind)) (chars template_id).

(** ** redaction.py *)

Definition stars (n : nat) : list ascii := replicate n "*"%char.

Definition mask_recipient (channel value : string) : string :=
  if negb (truthy value) then ""
  else if bool_decide (channel = "email") || has_char "@" value then
    let '(local, domain) := match cut "@" value with Some (a, b) => (a, b) | None => (value, "") end in
    let hd := text (take 1 (chars local)) in
    if truthy domain then hd +:+ "***@" +:+ domain else hd +:+ "***"
  else
    let v := chars value in
    if (length v <=? 4)%nat then text (stars (length v))
    else text (take 4 v ++ stars (Nat.max 1 (length v - 6)) ++ drop (length v - 2) v).

Definition is_scalar (j : json) : bool := match j with JList _ | JObj _ => false | _ => true end.

Definition safe_data_keys (data : list (string * json)) : list (string * json) := filter (λ kv, is_scalar kv.2 = true) data.

(** ** Rendering: the grammar of templates *)

(** A template as a reader understands it. *)
Inductive tok := Lit (c : ascii) | Esc | Var (name : list ascii) | Brace (name : list ascii).

Definition ident (name : list ascii) : bool :=
  match name with [] => false | c :: l => id_start c && forallb id_char l end.

Definition show_tok (t : tok) : list ascii :=
  match t with
  | Lit c => [c]
  | Esc => ["$"; "$"]%char
  | Var n => "$"%char :: n
  | Brace n => ["$"; "{"]%char ++ n ++ ["}"%char]
  end.

(** A literal is not a dollar, names are identifiers, and a name without braces ends
    where no identifier could go on. *)
Fixpoint grammatical (ts : list tok) : bool :=
  match ts with
  | [] => true
  | t :: ts' =>
      (match t with
       | Lit c => negb (bool_decide (c = "$"%char))
       | Esc => true
       | Var n => ident n && match ts' with Lit c :: _ => negb (id_char c) | _ => true end
       | Brace n => ident n
       end) && grammatical ts'
  end.

Definition meaning (value : list ascii → option (list ascii)) (t : tok) : list ascii :=
  match t with
  | Lit c => [c]
  | Esc => ["$"%char]
  | Var n => default (show_tok t) (value n)
  | Brace n => default (show_tok t) (value n)
  end.

Lemma id_start_char c : id_start c = true → id_char c = true.
Proof. unfold id_char. by intros ->. Qed.

Lemma id_char_not c x : id_char x = false → id_char c = true → c ≠ x.
Proof. intros Hx Hc ->. congruence. Qed.

Section grammar.
Variable value : list ascii → option (list ascii).

Lemma scan_name n acc rest : forallb id_char n = true →
  substitute value (InName acc) (n ++ rest) = substitute value (InName (acc ++ n)) rest.
Proof.
  revert acc. induction n as [|c n IH]; intros acc Hn; simpl; [by rewrite app_nil_r|].
  apply andb_prop in Hn as [Hc Hn]. rewrite Hc. simpl. rewrite IH by done. by rewrite <- app_assoc.
Qed.

Lemma scan_brace n acc rest : acc ≠ [] → forallb id_char n = true →
  substitute value (InBrace acc) (n ++ rest) = substitute value (InBrace (acc ++ n)) rest.
Proof.
  revert acc. induction n as [|c n IH]; intros acc Ha Hn; simpl; [by rewrite app_nil_r|].
  apply andb_prop in Hn as [Hc Hn]. destruct acc as [|a acc]; [done|]. rewrite Hc. cbn [app].
  change (a :: acc ++ [c]) with ((a :: acc) ++ [c]). rewrite IH by done. by rewrite <- app_assoc.
Qed.

Lemma scan_braced n rest : ident n = true → substitute value InText (show_tok (Brace n) ++ rest) = meaning value (Brace n) ++ substitute value InText rest.
Proof.
  destruct n as [|c n]; [done|]. intros [Hc Hn]%andb_prop. unfold show_tok. rewrite <- !app_assoc. simpl. rewrite Hc. simpl.
  rewrite scan_brace by done. simpl. unfold braced. by destruct (value _).
Qed.

(** After a name, text that cannot continue it. *)
Lemma scan_named n rest : ident n = true → match rest with [] => True | c :: _ => id_char c = false end →
  substitute value InText (show_tok (Var n) ++ rest) = meaning value (Var n) ++ substitute value InText rest.
Proof.
  destruct n as [|c n]; [done|]. intros [Hc Hn]%andb_prop Hr. unfold show_tok. rewrite <- app_comm_cons. simpl.
  assert (c ≠ "$"%char) as Hd by (apply id_char_not; [done|by apply id_start_char]). rewrite bool_decide_false by done.
  rewrite Hc. simpl. rewrite scan_name by done. destruct rest as [|x rest]; simpl; unfold named; [by destruct (value _); rewrite ?app_nil_r|].
  rewrite Hr. destruct (plain x) as [out m']. rewrite <- app_assoc. by destruct (value _).
Qed.

Lemma show_head ts : grammatical ts = true → match ts with Lit c :: _ => negb (id_char c) | _ => true end = true →
  match ts ≫= show_tok with [] => True | c :: _ => id_char c = false end.
Proof. destruct ts as [|[c| |n|n] ts]; try done. intros _ H. simpl. by apply negb_true_iff. Qed.

Lemma substitute_tokens ts : grammatical ts = true → substitute value InText (ts ≫= show_tok) = ts ≫= meaning value.
Proof.
  induction ts as [|t ts IH]; [done|]. intros [Ht Hts]%andb_prop. rewrite !bind_cons.
  destruct t as [c| |n|n].
  - simpl. unfold plain. apply negb_true_iff in Ht. rewrite Ht. simpl. by rewrite IH.
  - simpl. by rewrite IH.
  - apply andb_prop in Ht as [Hn Hr]. rewrite scan_named, IH; [done|done|done|by apply show_head].
  - by rewrite scan_braced, IH.
Qed.
End grammar.

(** rendering is substitution.  A template written as literals, [$$], [$name] and
    [${name}] renders to its literals, a dollar for each [$$], and for each name the
    text of the event's value, or the placeholder itself when the event has none;
    values are inserted as they are and never scanned again, so a value that looks
    like a placeholder is not expanded. *)
Theorem render_is_substitution (ts : list tok) (data : list (string * json)) (Hg : grammatical ts = true) :
  render (text (ts ≫= show_tok)) data = text (ts ≫= meaning (coerced data)).
Proof. unfold render. by rewrite chars_text, substitute_tokens. Qed.

(** ** The lookup pattern matches literally *)

Lemma replace_chars_each c q f l : (length l < f)%nat → replace_chars f [c] q l = l ≫= λ x, if bool_decide (x = c) then q else [x].
Proof.
  revert l. induction f as [|f IH]; intros l Hl; [lia|]. destruct l as [|x l]; [done|]. simpl in Hl.
  rewrite bind_cons. simpl. case_bool_decide as Hx; case_bool_decide as Hx'; subst; try done; by rewrite IH by lia.
Qed.

Lemma replace_each c q s : replace (String c "") q s = text (chars s ≫= λ x, if bool_decide (x = c) then chars q else [x]).
Proof. unfold replace. change (chars (String c "")) with [c]. by rewrite replace_chars_each by lia. Qed.

(** The three replacements, in their order, quote each character once. *)
Definition quote (c : ascii) : list ascii :=
  if bool_decide (c ∈ ["\"; "%"; "_"]%char) then ["\"%char; c] else [c].

Lemma escaped_quote s : chars (escaped s) = chars s ≫= quote.
Proof.
  unfold escaped. rewrite !replace_each, !chars_text. induction (chars s) as [|c l IH]; [done|].
  rewrite !bind_cons, !bind_app, IH. f_equal. clear IH.
  destruct (decide (c = "\"%char)) as [->|H1]; [done|]. destruct (decide (c = "%"%char)) as [->|H2]; [done|].
  destruct (decide (c = "_"%char)) as [->|H3]; [done|]. unfold quote. rewrite (bool_decide_false (c ∈ _)) by set_solver.
  rewrite (bool_decide_false (c = "\"%char)) by done. rewrite bind_cons, app_nil_r. rewrite (bool_decide_false (c = "%"%char)) by done.
  rewrite bind_cons, app_nil_r. by rewrite (bool_decide_false (c = "_"%char)).
Qed.

Lemma like_quote c p t : like (quote c ++ p) t = match t with y :: t' => bool_decide (c = y) && like p t' | [] => false end.
Proof.
  unfold quote. case_bool_decide as H; simpl; [by destruct t|].
  rewrite !bool_decide_false by set_solver. done.
Qed.

Lemma like_quoted s p t : like ((s ≫= quote) ++ p) t = true ↔ ∃ r, t = s ++ r ∧ like p r = true.
Proof.
  revert t. induction s as [|c s IH]; intros t; [naive_solver|]. rewrite bind_cons, <- app_assoc, like_quote.
  destruct t as [|y t]; [naive_solver|]. rewrite andb_true_iff, bool_decide_eq_true, IH. naive_solver.
Qed.

Lemma like_any p t : like ("%"%char :: p) t = true ↔ ∃ a r, t = a ++ r ∧ like p r = true.
Proof.
  simpl. rewrite existsb_exists. split.
  - intros (r & Hin & Hr). apply list_elem_of_In in Hin. revert Hin. induction t as [|c t IH]; simpl.
    + intros ->%list_elem_of_singleton. by exists [], [].
    + intros [->|H]%elem_of_cons; [by exists [], (c :: t)|]. destruct (IH H) as (a & r' & -> & Hr'). by exists (c :: a), r'.
  - intros (a & r & -> & Hr). exists r. split; [|done]. apply list_elem_of_In. clear Hr. induction a as [|c a IH]; simpl.
    + destruct r; simpl; set_solver.
    + set_solver.
Qed.

(** the template lookup is literal.  Whatever characters an event name has, [LIKE]
    wildcards and its escape character included, the pattern built for it matches
    exactly the template ids that contain its snake-case name between two dots: an event
    name cannot widen the match. *)
Theorem template_lookup_literal (event_kind template_id : string) :
  template_matches event_kind template_id = true ↔
  ∃ a b, template_id = a +:+ "." +:+ snake event_kind +:+ "." +:+ b.
Proof.
  unfold template_matches, template_pattern. generalize (snake event_kind). intros s.
  rewrite !chars_app, escaped_quote. change (chars "%.") with ["%"; "."]%char. change (chars ".%") with ["."; "%"]%char.
  cbn [app]. rewrite like_any. split.
  - intros (a & r & Ht & Hr). simpl in Hr. destruct r as [|y r]; [done|]. apply andb_prop in Hr as [Hy Hr]. apply bool_decide_eq_true in Hy as <-.
    apply like_quoted in Hr as (r' & -> & Hr). simpl in Hr. destruct r' as [|y r']; [done|]. apply andb_prop in Hr as [Hy _].
    apply bool_decide_eq_true in Hy as <-. exists (text a), (text r').
    rewrite <- (text_chars template_id), Ht. rewrite <- (text_chars (text a +:+ _)). f_equal.
    rewrite !chars_app, !chars_text. done.
  - intros (a & b & ->). exists (chars a), ("."%char :: chars s ++ "."%char :: chars b). rewrite !chars_app. split; [done|].
    simpl. apply like_quoted. exists ("."%char :: chars b). split; [done|]. simpl. apply existsb_exists. exists []. split; [|done].
    apply list_elem_of_In. clear. induction (chars b); simpl; set_solver.
Qed.

(** ** Masking *)

(** masking fails on short handles.  For every recipient of five or six characters
    that is not an email address, the masked form that is logged and returned still shows
    all of them: dropping the stars in the middle restores the recipient. *)
Theorem mask_shows_short_handles (channel value : string)
    (Hlen : length (chars value) = 5%nat ∨ length (chars value) = 6%nat) (Hch : channel ≠ "email") (Hat : has_char "@" value = false) :
  let m := chars (mask_recipient channel value) in
  length m = 7%nat ∧ value = text (take 4 m ++ drop (11 - length (chars value)) m).
Proof.
  assert (Ht : truthy value = true) by (unfold truthy; apply bool_decide_true; intros ->; simpl in *; lia).
  unfold mask_recipient. rewrite Ht, Hat, (bool_decide_false (channel = _)) by done. simpl.
  pose proof (text_chars value) as Hv. generalize dependent (chars value). intros v Hlen Hv.
  destruct v as [|c1 [|c2 [|c3 [|c4 [|c5 v]]]]]; simpl in *; try (exfalso; lia).
  destruct v as [|c6 [|c7 v]]; simpl in *; [done|done|exfalso; lia].
Qed.

(** ** Concrete runs *)

Lemma render_is_substitution_witness :
  render "Pay $amount ${cur}: $$5 $missing" [("amount", JStr "$cur"); ("cur", JInt 7)] = "Pay $cur 7: $5 $missing".
Proof.
  exact (render_is_substitution
    ((Lit <$> chars "Pay ") ++ [Var (chars "amount"); Lit " "; Brace (chars "cur"); Lit ":"; Lit " "; Esc; Lit "5"; Lit " "; Var (chars "missing")])
    [("amount", JStr "$cur"); ("cur", JInt 7)] eq_refl).
Defined.

Lemma mask_shows_short_handles_witness : mask_recipient "sms" "123456" = "1234*56".
Proof.
  destruct (mask_shows_short_handles "sms" "123456") as [Hl Hv]; [by right|done|done|]. vm_compute. reflexivity.
Defined.
End Templating.
