(* ===== verification/Lookup.v ===== *)
(** * The lookups behind the ops console

    [api/v1/internal_admin.py] of identity-service and merchant-onboarding with the
    repository searches they call: a substring match by [ILIKE] on escaped text, or an
    exact id.  [created_at] of a user is a default of the database and an argument here, as is the
    collation by which PostgreSQL orders business names. *)
From S2P Require Import Prelude PyText PyJson PyNum UnitOfWork Tables IdentityDb Sessions Merchant Templating.
From Stdlib Require Import Ascii.

Module Lookup.
Import PyNum.
Open Scope Z_scope.

(** ** db/repositories.py: [ILIKE] on escaped text *)

Definition _escape_like (value : string) : string := replace "_" "\_" (replace "%" "\%" (replace "\" "\\" value)).

(** [column ILIKE pattern ESCAPE '\']: both sides in lower case; [NULL] never matches. *)
Definition ilike (pattern : string) (column : option string) : bool :=
  match column with Some t => Templating.like (chars (lower pattern)) (chars (lower t)) | None => false end.

Definition containing (q : string) : string := "%" +:+ _escape_like q +:+ "%".

(** ** identity-service *)

Definition user_matches (q : string) (u : Identity.UserRow) : bool :=
  ilike (containing q) (Identity.email u) || ilike (containing q) (Identity.phone u) ||
  match parse_uuid q with Some i => bool_decide (Identity.user_id u = i) | None => false end.

Section users.
Variable created_at : uuid → Z.

Definition newer (a b : Identity.UserRow) : Prop := created_at (Identity.user_id b) ≤ created_at (Identity.user_id a).

#[global] Instance newer_dec : RelDecision newer.
Proof. intros a b. unfold newer. apply _. Defined.

Definition search_users (q : string) (limit : nat) (d : Identity.iddb) : list Identity.UserRow :=
  take limit (merge_sort newer (filter (λ u, user_matches q u = true) (map_to_list (Identity.users d)).*2)).

Definition ojson (o : option string) : json := match o with Some s => JStr s | None => JNull end.
Definition otime (o : option Z) : json := match o with Some t => JInt t | None => JNull end.

(** [AdminUserView], times as numbers. *)
Definition user_view (u : Identity.UserRow) : list (string * json) :=
  [("user_id", JStr (uuid_text (Identity.user_id u))); ("email", ojson (Identity.email u)); ("phone", ojson (Identity.phone u));
   ("kyc_tier", JInt (Identity.kyc_tier u)); ("status", JStr (Identity.status u)); ("created_at", JInt (created_at (Identity.user_id u)));
   ("last_login_at", otime (Identity.last_login_at u))].

Abbreviation HI := (handler Identity.iddb Identity.idworld Identity.ErrorCode).

(** [GET /internal/admin/users/{user_id}] *)
Definition get_user (user_id : string) : HI json :=
  match parse_uuid user_id with
  | None => raise Identity.INVALID_PAYLOAD
  | Some uid => user ← Sessions.get_user uid; mret (JObj (user_view user))
  end.

(** The bounds that FastAPI checks on [q] and [limit]. *)
Definition query_ok (q : string) (limit : Z) : bool :=
  (1 <=? String.length q)%nat && (String.length q <=? 256)%nat && (1 <=? limit) && (limit <=? 100).

(** [GET /internal/admin/users] *)
Definition search_users_route (q : string) (limit : Z) : HI json :=
  if negb (query_ok q limit) then raise Identity.INVALID_PAYLOAD
  else if negb (truthy (strip q)) then raise Identity.INVALID_QUERY
  else
    users ← query (search_users (strip q) (Z.to_nat limit));
    mret (JObj [("items", JList ((λ u, JObj (user_view u)) <$> users))]).
End users.

(** ** merchant-onboarding *)

Definition merchant_matches (q : string) (kv : uuid * Merchant.MerchantRow) : bool :=
  ilike (containing q) (Some (Merchant.business_name kv.2)) || ilike (containing q) (Merchant.registration_no kv.2) ||
  match parse_uuid q with Some i => bool_decide (kv.1 = i) || bool_decide (Merchant.org_id kv.2 = i) | None => false end.

Section merchants.
Variable name_le : relation string.
Context `{!RelDecision name_le}.

Definition by_name (a b : uuid * Merchant.MerchantRow) : Prop := name_le (Merchant.business_name a.2) (Merchant.business_name b.2).

#[global] Instance by_name_dec : RelDecision by_name.
Proof. intros a b. unfold by_name. apply _. Defined.

Definition search_merchants (q : string) (limit : nat) (d : Merchant.mdb) : list (uuid * Merchant.MerchantRow) :=
  take limit (merge_sort by_name (filter (λ kv, merchant_matches q kv = true) (map_to_list (Merchant.merchants d)))).

(** [AdminMerchantSummary] *)
Definition _summary (kv : uuid * Merchant.MerchantRow) : list (string * json) :=
  let m := kv.2 in
  [("merchant_id", JStr (uuid_text kv.1)); ("org_id", JStr (uuid_text (Merchant.org_id m))); ("business_name", JStr (Merchant.business_name m));
   ("country", JStr (Merchant.country m)); ("type", JStr (Merchant.type_ m)); ("status", JStr (Merchant.status m)); ("fee_tier", JStr (Merchant.fee_tier m))].

(** [GET /internal/admin/merchants] *)
Definition search_merchants_route (q : string) (limit : Z) : Merchant.H json :=
  if negb (query_ok q limit) then raise Merchant.INVALID_PAYLOAD
  else if negb (truthy (strip q)) then raise Merchant.INVALID_QUERY
  else
    found ← query (search_merchants (strip q) (Z.to_nat limit));
    mret (JObj [("items", JList ((λ kv, JObj (_summary kv)) <$> found))]).
End merchants.

(** ** The match is a substring match *)

Lemma lower_quote c : lower_char <$> Templating.quote c = Templating.quote (lower_char c).
Proof. by destruct c as [[] [] [] [] [] [] [] []]. Qed.

Lemma lower_quotes l : lower_char <$> (l ≫= Templating.quote) = (lower_char <$> l) ≫= Templating.quote.
Proof. induction l as [|c l IH]; [done|]. rewrite bind_cons, fmap_app, fmap_cons, bind_cons, lower_quote. by f_equal. Qed.

Lemma chars_lower s : chars (lower s) = lower_char <$> chars s.
Proof. unfold lower. apply chars_text. Qed.

(** [q] occurs in [t], whatever the case. *)
Definition occurs (q t : string) : Prop := ∃ a b, lower t = a +:+ lower q +:+ b.

Lemma ilike_occurs q o : ilike (containing q) o = true ↔ ∃ t, o = Some t ∧ occurs q t.
Proof.
  destruct o as [t|]; [|naive_solver]. unfold ilike, containing, occurs. change (_escape_like q) with (Templating.escaped q).
  rewrite (chars_lower ("%" +:+ _)), !chars_app, Templating.escaped_quote, !fmap_app, lower_quotes, <- (chars_lower q).
  change (lower_char <$> chars "%") with ["%"%char]. cbn [app]. rewrite Templating.like_any. split.
  - intros (a & r & Ht & (r' & -> & _)%Templating.like_quoted). exists t. split; [done|]. exists (text a), (text r').
    rewrite <- (text_chars (lower t)), Ht. rewrite <- (text_chars (text a +:+ _)). by rewrite !chars_app, !chars_text.
  - intros (t' & [= <-] & a & b & Ht). exists (chars a), (chars (lower q) ++ chars b). rewrite Ht, !chars_app. split; [done|].
    apply Templating.like_quoted. exists (chars b). split; [done|]. apply Templating.like_any. exists (chars b), []. by rewrite app_nil_r.
Qed.

(** The first [limit] rows of a sorted selection. *)
Lemma top_rows {A} (R : relation A) `{!RelDecision R, !Transitive R, !Total R} (P : A → Prop) `{!∀ x, Decision (P x)} (limit : nat) (l : list A) :
  let rows := take limit (merge_sort R (filter P l)) in
  (length rows ≤ limit)%nat ∧ (∀ x, x ∈ rows → P x ∧ x ∈ l) ∧ StronglySorted R rows ∧
  ∀ x, x ∈ l → P x → x ∈ rows ∨ length rows = limit ∧ ∀ y, y ∈ rows → R y x.
Proof.
  set (s := merge_sort R (filter P l)). pose proof (merge_sort_Permutation R (filter P l)) as Hp. fold s in Hp.
  assert (Hs : StronglySorted R s) by apply (StronglySorted_merge_sort R). clearbody s. simpl.
  pose proof (take_drop limit s) as Htd. rewrite <- Htd in Hs. apply StronglySorted_app in Hs as (Hcross & Ht & _). split_and!; [rewrite length_take; lia| |done|].
  - intros x (k & Hk & _)%elem_of_take. apply list_elem_of_lookup_2 in Hk. rewrite Hp in Hk. by apply list_elem_of_filter in Hk.
  - intros x Hx HP. assert (Hin : x ∈ s) by (rewrite Hp; by apply list_elem_of_filter). rewrite <- Htd in Hin.
    apply elem_of_app in Hin as [?|Hin]; [by left|]. right. split; [|by eauto]. rewrite length_take.
    destruct (decide (limit ≤ length s)%nat); [lia|]. rewrite drop_ge in Hin by lia. by apply elem_of_nil in Hin.
Qed.

(** A user is found by a part of the email or the phone in any case, or by the id. *)
Definition user_found (q : string) (u : Identity.UserRow) : Prop :=
  (∃ t, (Identity.email u = Some t ∨ Identity.phone u = Some t) ∧ occurs q t) ∨ parse_uuid q = Some (Identity.user_id u).

Definition merchant_found (q : string) (kv : uuid * Merchant.MerchantRow) : Prop :=
  occurs q (Merchant.business_name kv.2) ∨ (∃ t, Merchant.registration_no kv.2 = Some t ∧ occurs q t) ∨
  parse_uuid q = Some kv.1 ∨ parse_uuid q = Some (Merchant.org_id kv.2).

Lemma user_matches_found q u : user_matches q u = true ↔ user_found q u.
Proof.
  unfold user_matches, user_found. rewrite !orb_true_iff, !ilike_occurs. destruct (parse_uuid q) as [i|]; [rewrite bool_decide_eq_true|]; naive_solver.
Qed.

Lemma merchant_matches_found q kv : merchant_matches q kv = true ↔ merchant_found q kv.
Proof.
  unfold merchant_matches, merchant_found. rewrite !orb_true_iff, !ilike_occurs.
  destruct (parse_uuid q) as [i|]; [rewrite orb_true_iff, !bool_decide_eq_true|]; naive_solver.
Qed.

(** the console's lookups are literal and complete.  For any text, wildcards of [LIKE] included,
    a search returns only users whose email or phone contains it in some case or whose id it
    is, and merchants by name, registration number, id or organization id likewise; it
    returns at most [limit] rows in order, and leaves a matching row out only when it returned
    [limit] rows that come before it. *)
Theorem admin_search_literal (created_at : uuid → Z) (name_le : relation string) `{!RelDecision name_le, !Transitive name_le, !Total name_le}
    (q : string) (limit : nat) (d : Identity.iddb) (m : Merchant.mdb) :
  let us := search_users created_at q limit d in
  let ms := search_merchants name_le q limit m in
  (length us ≤ limit ∧ length ms ≤ limit)%nat ∧
  StronglySorted (newer created_at) us ∧ StronglySorted (by_name name_le) ms ∧
  (∀ u, u ∈ us → user_found q u ∧ ∃ i, Identity.users d !! i = Some u) ∧
  (∀ i u, Identity.users d !! i = Some u → user_found q u → u ∈ us ∨ length us = limit ∧ ∀ v, v ∈ us → newer created_at v u) ∧
  (∀ i r, (i, r) ∈ ms → merchant_found q (i, r) ∧ Merchant.merchants m !! i = Some r) ∧
  (∀ i r, Merchant.merchants m !! i = Some r → merchant_found q (i, r) →
     (i, r) ∈ ms ∨ length ms = limit ∧ ∀ kv, kv ∈ ms → by_name name_le kv (i, r)).
Proof.
  assert (Transitive (newer created_at)) by (intros a b c; unfold newer; lia).
  assert (Total (newer created_at)) by (intros a b; unfold newer; lia).
  assert (Transitive (by_name name_le)) by (intros a b c; unfold by_name; apply transitivity).
  assert (Total (by_name name_le)) by (intros a b; unfold by_name; apply total; done).
  destruct (top_rows (newer created_at) (λ u, user_matches q u = true) limit (map_to_list (Identity.users d)).*2) as (U1 & U2 & U3 & U4).
  destruct (top_rows (by_name name_le) (λ kv, merchant_matches q kv = true) limit (map_to_list (Merchant.merchants m))) as (M1 & M2 & M3 & M4).
  split_and!; [done..| | | |].
  - intros u [Hu Hin]%U2. split; [by apply user_matches_found|]. apply list_elem_of_fmap in Hin as ([i v] & -> & Hi). exists i. by apply elem_of_map_to_list.
  - intros i u Hi Hf. apply U4; [|by apply user_matches_found]. apply list_elem_of_fmap. exists (i, u). split; [done|]. by apply elem_of_map_to_list.
  - intros i r [Hu Hin]%M2. split; [by apply merchant_matches_found|]. by apply elem_of_map_to_list.
  - intros i r Hi Hf. apply M4; [by apply elem_of_map_to_list|by apply merchant_matches_found].
Qed.

(** A collation, and a table in which the text of the search would be a wildcard. *)
Definition code_le (a b : string) : Prop := (encode a <= encode b)%positive.

#[local] Instance code_le_dec : RelDecision code_le.
Proof. intros a b. unfold code_le. apply _. Defined.

#[local] Instance code_le_trans : Transitive code_le.
Proof. intros a b c. unfold code_le. lia. Qed.

#[local] Instance code_le_total : Total code_le.
Proof. intros a b. unfold code_le. lia. Qed.

Definition demo_user (i : uuid) (e : string) : Identity.UserRow := Identity.mkUser i (Some e) None None 0 "ACTIVE" None.

Definition demo_users : Identity.iddb :=
  Identity.mkDb (<[1%N := demo_user 1 "A%B@x.io"]> (<[2%N := demo_user 2 "axb@x.io"]> ∅)) ∅ ∅ ∅ ∅ ∅ ∅ ∅ [].

Lemma admin_search_literal_witness :
  search_users Z.of_N "a%b" 5 demo_users = [demo_user 1 "A%B@x.io"] ∧ user_found "a%b" (demo_user 1 "A%B@x.io").
Proof.
  assert (E : search_users Z.of_N "a%b" 5 demo_users = [demo_user 1 "A%B@x.io"]) by (vm_compute; reflexivity).
  split; [exact E|].
  destruct (admin_search_literal Z.of_N code_le "a%b" 5 demo_users (Merchant.mkMdb ∅ ∅ ∅ [] [])) as (_ & _ & _ & H & _).
  apply (H (demo_user 1 "A%B@x.io")). rewrite E. apply elem_of_cons. left. reflexivity.
Defined.
End Lookup.
