(* ===== verification/Console.v ===== *)
(** * admin-backoffice: the ops console

    [admin-backoffice/app]: [domain/entity_service.py], [domain/search_service.py], [audit/sink.py],
    [providers/] and the routes of [api/v1/].  The upstream services are an HTTP client
    [http_get], the audit log another ([http_post]); [late] says which providers miss the
    fan-out timeout.  The state of the service is its staff table; what it leaves
    behind is its audit trail. *)
From S2P Require Import Prelude PyText PyJson PyNum Fingerprint UnitOfWork Tables IdentityDb Sessions Chain Tokens Admin Templating.
From Stdlib Require Import Ascii.

Module Console.
Import PyNum.
Open Scope Z_scope.

Abbreviation jfield_or := Chain.jfield_or.
Abbreviation AccessClaims := Identity.AccessClaims.

(** ** domain/models.py *)

Definition ENTITY_TYPES : list string := ["user"; "merchant"; "paylink"; "payment"].

(** [status] is whatever the upstream sent. *)
Record SearchHit := mkHit { h_type : string; h_id : string; h_label : string; h_status : json; h_secondary : list (string * string) }.
Record EntityView := mkEView { v_type : string; v_id : string; v_data : list (string * json) }.
Record SearchResult := mkResult { r_query : string; groups : list (string * list SearchHit); degraded : list string }.

(** ** audit/sink.py *)

Record AuditRecord := mkAudit {
  actor : string; actor_scopes : list string; action : string; resource_type : string; resource_id : option string;
  a_query : option string; a_result : string; trace_id : string; a_ip : option string; a_user_agent : option string }.

(** An HTTP exchange: the response with its JSON body ([None]: not JSON), an [httpx.HTTPError],
    or another exception ([httpx.InvalidURL]). *)
Inductive http_answer := Response (status : Z) (body : option json) | HTTPError | OtherError (e : pyerr).

Inductive AuditSink :=
| LogAuditSink
| NoopAuditSink
| HttpAuditSink (url : string) (token : option string).

(** The log lines written, and the posts attempted with what came of each. *)
Record world := mkWorld { logged : list AuditRecord; posted : list (string * json * option string * http_answer) }.

Abbreviation H := (handler Admin.staff_table world Admin.ErrorCode).

Definition rstrip (cs s : string) : string := text (reverse (drop_these (chars cs) (reverse (chars s)))).

Definition ojson (o : option string) : json := match o with Some s => JStr s | None => JNull end.

Definition audit_body (r : AuditRecord) : json :=
  let resource := if otruthy (resource_id r) then resource_type r +:+ ":" +:+ default "" (resource_id r) else resource_type r in
  JObj [("actor", JStr (actor r)); ("action", JStr (action r)); ("resource", JStr resource);
        ("context", JObj [("trace_id", JStr (trace_id r)); ("ip", ojson (a_ip r)); ("user_agent", ojson (a_user_agent r));
                          ("query", ojson (a_query r)); ("actor_scopes", JList (JStr <$> actor_scopes r)); ("result", JStr (a_result r))])].

Definition build_audit_sink (mode : string) (client : bool) (audit_log_url : string) (audit_internal_token : option string) : AuditSink :=
  if bool_decide (mode = "noop") then NoopAuditSink
  else if bool_decide (mode = "http") then
    if negb client then LogAuditSink else HttpAuditSink (rstrip "/" audit_log_url +:+ "/v1/audit-log") audit_internal_token
  else LogAuditSink.

(** [headers], sent only with a token. *)
Definition audit_token (token : option string) : option string := if otruthy token then token else None.

Definition emit (http_post : string → json → option string → http_answer) (sink : AuditSink) (r : AuditRecord) : H unit :=
  match sink with
  | LogAuditSink => effect (λ x, mkWorld (logged x ++ [r]) (posted x))
  | NoopAuditSink => mret tt
  | HttpAuditSink url token =>
      let a := http_post url (audit_body r) (audit_token token) in
      effect (λ x, mkWorld (logged x) (posted x ++ [(url, audit_body r, audit_token token, a)])) ;;
      match a with
      | OtherError e => throw (PyError e)
      | _ => mret tt
      end
  end.

(** ** providers/base.py and http.py *)

(** [UpstreamError], or an exception that is none. *)
Inductive perr := UpstreamError (service : string) (status : option Z) | Escapes (k : pyerr).

Record Provider := mkProvider {
  entity_type : string;
  p_get : string → outcome perr (option EntityView);
  p_search : string → Z → outcome perr (list SearchHit) }.

Definition text_of (k : string) (d : list (string * json)) : string := py_str (jfield_or k (JStr "") d).

Definition _user_hit (d : list (string * json)) : SearchHit :=
  let email := jfield_or "email" JNull d in
  let phone := jfield_or "phone" JNull d in
  mkHit "user" (text_of "user_id" d)
    (if jtruthy email then py_str email else if jtruthy phone then py_str phone else text_of "user_id" d)
    (jfield_or "status" JNull d) [("kyc_tier", text_of "kyc_tier" d)].

Definition _merchant_hit (d : list (string * json)) : SearchHit :=
  mkHit "merchant" (text_of "merchant_id" d) (text_of "business_name" d) (jfield_or "status" JNull d)
    [("org_id", text_of "org_id" d); ("country", text_of "country" d); ("fee_tier", text_of "fee_tier" d)].

Definition _paylink_hit (d : list (string * json)) : SearchHit :=
  mkHit "paylink" (text_of "pl_id" d) (text_of "pl_id" d) (jfield_or "status" JNull d)
    [("amount", text_of "amount" d); ("currency", text_of "currency" d)].

Definition _payment_hit (d : list (string * json)) : SearchHit :=
  mkHit "payment" (text_of "id" d) (text_of "id" d) (jfield_or "status" JNull d)
    [("paylink_id", text_of "paylink_id" d); ("rail", text_of "rail" d)].

(** [[hit(i) for i in items]]: an item that is no object has no [get]. *)
Fixpoint hits_of (hit : list (string * json) → SearchHit) (l : list json) : outcome perr (list SearchHit) :=
  match l with
  | [] => Ok []
  | JObj o :: l' => let? hs := hits_of hit l' in Ok (hit o :: hs)
  | _ :: _ => Raise (Escapes AttributeError)
  end.

Definition items_of (data : option (list (string * json))) : json := jfield_or "items" (JList []) (default [] data).

Definition hits_in (hit : list (string * json) → SearchHit) (items : json) : outcome perr (list SearchHit) :=
  match py_iter items with Ok l => hits_of hit l | Raise e => Raise (Escapes e) end.

Section upstream.
Variable http_get : string → list (string * json) → http_answer.

(** [UpstreamClient.get_json]; the base URL has lost its trailing slashes. *)
Definition get_json (base_url service path : string) (params : list (string * json)) : outcome perr (option (list (string * json))) :=
  match http_get (rstrip "/" base_url +:+ path) params with
  | HTTPError => Raise (UpstreamError service None)
  | OtherError e => Raise (Escapes e)
  | Response st body =>
      if st =? 404 then Ok None
      else if 400 <=? st then Raise (UpstreamError service (Some st))
      else match body with
           | None => Raise (Escapes ValueError)
           | Some (JObj o) => Ok (Some o)
           | Some _ => Ok None
           end
  end.

Definition get_view (base_url service kind path entity_id : string) : outcome perr (option EntityView) :=
  let? data := get_json base_url service (path +:+ entity_id) [] in Ok (mkEView kind entity_id <$> data).

Definition search_by_q (base_url service path : string) (hit : list (string * json) → SearchHit) (q : string) (limit : Z) : outcome perr (list SearchHit) :=
  let? data := get_json base_url service path [("q", JStr q); ("limit", JInt limit)] in hits_in hit (items_of data).

Definition HttpUserProvider (base_url service : string) : Provider :=
  mkProvider "user" (get_view base_url service "user" "/internal/admin/users/") (search_by_q base_url service "/internal/admin/users" _user_hit).

Definition HttpMerchantProvider (base_url service : string) : Provider :=
  mkProvider "merchant" (get_view base_url service "merchant" "/internal/admin/merchants/")
    (search_by_q base_url service "/internal/admin/merchants" _merchant_hit).

Definition HttpPaymentProvider (base_url service : string) : Provider :=
  mkProvider "payment" (get_view base_url service "payment" "/internal/admin/payments/")
    (search_by_q base_url service "/internal/admin/payments" _payment_hit).

Definition _PAYLINK_ID_LEN : nat := 66.

(** The filters in turn, the first that finds something. *)
Fixpoint try_filters (base_url service q : string) (limit : Z) (filters : list string) : outcome perr (list SearchHit) :=
  match filters with
  | [] => Ok []
  | param :: rest =>
      let? data := get_json base_url service "/v1/paylinks" [(param, JStr q); ("limit", JInt limit)] in
      if jtruthy (items_of data) then hits_in _paylink_hit (items_of data) else try_filters base_url service q limit rest
  end.

Definition is_paylink_id (q : string) : bool :=
  match drop_prefix (chars "0x") (chars q) with Some _ => (String.length q =? _PAYLINK_ID_LEN)%nat | None => false end.

Definition paylink_get (base_url service : string) : string → outcome perr (option EntityView) :=
  get_view base_url service "paylink" "/v1/paylinks/".

Definition paylink_search (base_url service q : string) (limit : Z) : outcome perr (list SearchHit) :=
  if is_paylink_id q then
    let? view := paylink_get base_url service q in
    Ok (match view with Some v => [_paylink_hit (v_data v)] | None => [] end)
  else try_filters base_url service q limit ["creator"; "receiver"; "status"].

Definition HttpPaylinkProvider (base_url service : string) : Provider :=
  mkProvider "paylink" (paylink_get base_url service) (paylink_search base_url service).

(** ** providers/registry.py *)

(** [d[k] = v] on a dictionary that keeps its insertion order. *)
Fixpoint dict_set {A} (k : string) (v : A) (d : list (string * A)) : list (string * A) :=
  match d with
  | [] => [(k, v)]
  | (k', v') :: d' => if bool_decide (k' = k) then (k, v) :: d' else (k', v') :: dict_set k v d'
  end.

Definition ProviderRegistry (providers : list Provider) : list (string * Provider) :=
  fold_left (λ r p, dict_set (entity_type p) p r) providers [].

Definition all_providers (r : list (string * Provider)) : list Provider := r.*2.

Definition provider_for (kind : string) (r : list (string * Provider)) : option Provider :=
  snd <$> head (filter (λ kv, kv.1 = kind) r).

Definition build_registry (identity_url merchant_url paylink_url payment_url : string) : list (string * Provider) :=
  ProviderRegistry [HttpUserProvider identity_url "identity-service"; HttpMerchantProvider merchant_url "merchant-onboarding";
                    HttpPaylinkProvider paylink_url "paylink-service"; HttpPaymentProvider payment_url "payment-orchestrator"].
End upstream.

(** ** providers/fake.py *)

(** [q in s] *)
Definition str_in (q s : string) : bool :=
  existsb (λ t, bool_decide (is_Some (drop_prefix (chars q) t))) (Templating.suffixes (chars s)).

(** [l[:n]] *)
Definition upto {A} (n : Z) (l : list A) : list A :=
  take (Z.to_nat (if n <? 0 then Z.of_nat (length l) + n else n)) l.

Definition FakeProvider (kind : string) (entities : list (string * list (string * json))) (fail : bool) : Provider :=
  mkProvider kind
    (λ i, if fail then Raise (UpstreamError kind (Some 503))
          else Ok (mkEView kind i <$> (snd <$> head (filter (λ e, e.1 = i) entities))))
    (λ q limit, if fail then Raise (UpstreamError kind (Some 503))
       else
         let ql := lower q in
         let blob data := lower (text (join_with [" "%char] ((λ kv, chars (py_str kv.2)) <$> data))) in
         Ok (upto limit ((λ e, mkHit kind e.1 (py_str (jfield_or "label" (JStr e.1) e.2)) (jfield_or "status" JNull e.2) []) <$>
           filter (λ e, bool_decide (ql = lower e.1) || str_in ql (blob e.2) = true) entities))).

(** ** The services *)

Definition sorted (scopes : list string) : list string := merge_sort Fingerprint.str_le (remove_dups scopes).

(** Who asks, from where, in which trace. *)
Record Caller := mkCaller { principal : AccessClaims; scopes : list string; ip : option string; user_agent : option string; trace : string }.

Definition view_record (c : Caller) (kind entity_id result : string) : AuditRecord :=
  mkAudit (Identity.c_user (principal c)) (sorted (scopes c)) ("admin.view." +:+ kind) kind (Some entity_id) None result (trace c) (ip c) (user_agent c).

Definition search_record (c : Caller) (query result : string) : AuditRecord :=
  mkAudit (Identity.c_user (principal c)) (sorted (scopes c)) "admin.search" "search" None (Some query) result (trace c) (ip c) (user_agent c).

Section services.
Variables (http_post : string → json → option string → http_answer) (sink : AuditSink) (registry : list (string * Provider)).

(** [EntityService.get] *)
Definition entity_get (c : Caller) (kind entity_id : string) : H EntityView :=
  match provider_for kind registry with
  | None => throw (PyError KeyError)
  | Some p =>
      match p_get p entity_id with
      | Raise (UpstreamError _ _) => emit http_post sink (view_record c kind entity_id "error") ;; raise Admin.UPSTREAM_UNAVAILABLE
      | Raise (Escapes k) => throw (PyError k)
      | Ok view =>
          emit http_post sink (view_record c kind entity_id (match view with Some _ => "ok" | None => "not_found" end)) ;;
          match view with None => raise Admin.ENTITY_NOT_FOUND | Some v => mret v end
      end
  end.

Definition _MIN_QUERY_LEN : nat := 2.

Variables (late : string → bool) (limit : Z).

(** [SearchService._run]: any exception, the timeout included, degrades. *)
Definition _run (q : string) (p : Provider) : string * option (list SearchHit) :=
  (entity_type p, if late (entity_type p) then None else match p_search p q limit with Ok hs => Some hs | Raise _ => None end).

Definition gather (st : list (string * list SearchHit) * list string) (o : string * option (list SearchHit)) : list (string * list SearchHit) * list string :=
  match o.2 with Some hs => (dict_set o.1 hs st.1, st.2) | None => (st.1, st.2 ++ [o.1]) end.

(** [SearchService.search] *)
Definition search (c : Caller) (q : string) : H SearchResult :=
  let query := strip q in
  if (String.length query <? _MIN_QUERY_LEN)%nat then raise Admin.INVALID_QUERY
  else
    let '(gs, ds) := fold_left gather (_run query <$> all_providers registry) ([], []) in
    emit http_post sink (search_record c query (if bool_decide (ds = []) then "ok" else "degraded")) ;;
    mret (mkResult query gs (sorted ds)).

(** ** deps.py, security/authz.py and api/v1/ *)

Context `{!Tokens.PyJwt}.
Variables (verifier : Tokens.Verifier) (dev_staff_grants : string).

Definition auth_code (e : Tokens.auth_error) : Admin.ErrorCode :=
  match e with Tokens.UNAUTHORIZED => Admin.UNAUTHORIZED | Tokens.INVALID_TOKEN => Admin.INVALID_TOKEN | Tokens.TOKEN_EXPIRED => Admin.TOKEN_EXPIRED end.

Definition as_admin {A} (o : outcome (exn Tokens.auth_error) A) : outcome (exn Admin.ErrorCode) A :=
  match o with Ok a => Ok a | Raise (AppError e) => Raise (AppError (auth_code e)) | Raise (PyError k) => Raise (PyError k) end.

(** The headers of a request, its address and its trace. *)
Record Meta := mkMeta { authorization : option string; m_ip : option string; m_agent : option string; m_trace : string }.

(** [Depends(require_admin(scope))] *)
Definition admin_context (now : Z) (scope : string) (m : Meta) : H Caller :=
  p ← lift (as_admin (Tokens.admin_principal verifier now (authorization m)));
  staff ← query id;
  match Admin.require_admin dev_staff_grants staff scope p with
  | Raise e => raise e
  | Ok granted => mret (mkCaller p granted (m_ip m) (m_agent m) (m_trace m))
  end.

(** [_view] behind the four entity routes *)
Definition view_route (now : Z) (m : Meta) (kind entity_id : string) : H EntityView :=
  c ← admin_context now "support.read" m;
  entity_get c kind entity_id.

(** [SearchHitModel]: the status must be a text or missing. *)
Definition hit_valid (h : SearchHit) : bool := match h_status h with JStr _ | JNull => true | _ => false end.

Definition search_route (now : Z) (m : Meta) (q : string) : H SearchResult :=
  c ← admin_context now "support.read" m;
  if negb ((1 <=? String.length q)%nat && (String.length q <=? 256)%nat) then raise Admin.INVALID_PAYLOAD
  else
    r ← search c q;
    if forallb (λ g, forallb hit_valid g.2) (groups r) then mret r else throw (PyError ValidationError).
End services.

(** ** What a request leaves in the audit trail *)

Inductive creq := CView (kind entity_id : string) | CSearch (q : string).
Inductive answer := AView (v : EntityView) | ASearch (r : SearchResult).

Section trail.
Variables (http_post : string → json → option string → http_answer) (sink : AuditSink) (registry : list (string * Provider)).
Variables (late : string → bool) (limit : Z).
Context `{!Tokens.PyJwt}.
Variables (verifier : Tokens.Verifier) (dev_staff_grants : string).

Definition serve (now : Z) (m : Meta) (q : creq) : H answer :=
  match q with
  | CView kind i => v ← view_route http_post sink registry verifier dev_staff_grants now m kind i; mret (AView v)
  | CSearch text => r ← search_route http_post sink registry late limit verifier dev_staff_grants now m text; mret (ASearch r)
  end.
End trail.

(** The result a record may carry for an answer; none when no record is due. *)
Definition results (q : creq) (r : outcome (exn Admin.ErrorCode) answer) : list string :=
  match q, r with
  | CView _ _, Ok _ => ["ok"]
  | CView _ _, Raise (AppError Admin.ENTITY_NOT_FOUND) => ["not_found"]
  | CView _ _, Raise (AppError Admin.UPSTREAM_UNAVAILABLE) => ["error"]
  | CSearch _, Ok (ASearch s) => [if bool_decide (degraded s = []) then "ok" else "degraded"]
  | CSearch _, Raise (PyError ValidationError) => ["ok"; "degraded"]
  | _, _ => []
  end.

Definition record_for (c : Caller) (q : creq) (result : string) : AuditRecord :=
  match q with CView kind i => view_record c kind i result | CSearch text => search_record c (strip text) result end.

Definition never_other (http_post : string → json → option string → http_answer) : Prop := ∀ u b t e, http_post u b t ≠ OtherError e.

(** The records the audit log took: those of the posts it answered without an error. *)
Definition accepted (x : world) : list json :=
  omap (λ '(_, body, _, a), match a with Response st _ => if st <? 400 then Some body else None | _ => None end) (posted x).

(** What one emitted record leaves behind. *)
Definition recorded (http_post : string → json → option string → http_answer) (sink : AuditSink) (r : AuditRecord) (x : world) : world :=
  match sink with
  | LogAuditSink => mkWorld (logged x ++ [r]) (posted x)
  | NoopAuditSink => x
  | HttpAuditSink url token =>
      mkWorld (logged x) (posted x ++ [(url, audit_body r, audit_token token, http_post url (audit_body r) (audit_token token))])
  end.

(** The audit trail has grown by [r] and by nothing else: one log line; or one post, and
    one record at the audit log when it took the post; or nothing under the inert sink. *)
Definition audited (http_post : string → json → option string → http_answer) (sink : AuditSink) (r : AuditRecord) (x x' : world) : Prop :=
  match sink with
  | LogAuditSink => logged x' = logged x ++ [r] ∧ accepted x' = accepted x
  | NoopAuditSink => x' = x
  | HttpAuditSink url token =>
      let a := http_post url (audit_body r) (audit_token token) in
      logged x' = logged x ∧ posted x' = posted x ++ [(url, audit_body r, audit_token token, a)] ∧
      accepted x' = accepted x ++ match a with Response st _ => if st <? 400 then [audit_body r] else [] | _ => [] end
  end.

Lemma recorded_audited post sink r x : audited post sink r x (recorded post sink r x).
Proof.
  destruct sink as [| |url token]; simpl; [done|done|]. split_and!; [done|done|].
  unfold accepted. cbn [posted]. rewrite omap_app. f_equal. simpl. destruct (post _ _ _) as [st b| |]; [|done..]. by destruct (st <? 400).
Qed.

Lemma emit_run post sink r w : never_other post → emit post sink r w = (Ok tt, Uow (db w) (tx w) (recorded post sink r (ext w))).
Proof.
  intros Hp. unfold emit, mbind, handler_bind, effect. destruct sink as [| |url token]; simpl; [done|by destruct w|].
  destruct (post url _ _) as [| |e] eqn:E; [done|done|]. by apply Hp in E.
Qed.

Lemma obind_not {E A B} (m : outcome E A) (k : A → outcome E B) e : m ≠ Raise e → (∀ a, k a ≠ Raise e) → obind m k ≠ Raise e.
Proof. by destruct m; simpl; [|intros H _ [= ->]]. Qed.

Lemma py_iter_not j : py_iter j ≠ Raise ValidationError.
Proof. by destruct j. Qed.

Lemma texts_not j : Tokens.texts j ≠ Raise ValidationError.
Proof. apply obind_not; [apply py_iter_not|done]. Qed.

(** Reading a token never fails the way a response model does. *)
Lemma claims_of_not full p : Tokens.claims_of full p ≠ Raise ValidationError.
Proof.
  unfold Tokens.claims_of. apply obind_not; [apply py_iter_not|intros rs]. apply obind_not; [unfold Chain.jfield; by case_match|intros sub].
  apply obind_not; [apply texts_not|intros us]. apply obind_not; [unfold Chain.py_int; by repeat case_match|intros tier].
  apply obind_not; [|done]. destruct full; [apply texts_not|done].
Qed.

Lemma admin_principal_not `{!Tokens.PyJwt} v now h : Tokens.admin_principal v now h ≠ Raise (PyError ValidationError).
Proof.
  unfold Tokens.admin_principal, Tokens.principal_with. destruct h as [h|]; [|done]. destruct (negb (truthy h)); [done|].
  destruct (cut _ h) as [[a b]|]; [|done]. destruct (_ || _); [done|]. unfold Tokens.admin_verify, Tokens.verify_with.
  destruct (Tokens.jwt_decode _ _ _ _ _ _) as [p|[]]; [|done|done]. pose proof (claims_of_not true p). by destruct (Tokens.claims_of true p) as [|[]].
Qed.

Lemma require_admin_ok csv d scope p granted : Admin.require_admin csv d scope p = Ok granted →
  Admin.is_admin p = true ∧ Identity.c_mfa p = true ∧ scope ∈ granted.
Proof.
  unfold Admin.require_admin. destruct (Admin.is_admin p); [|done]. destruct (Identity.c_mfa p); [|done]. simpl.
  case_bool_decide as Hs; [done|]. intros [= <-]. by split_and!.
Qed.

Section audited.
Context (http_post : string → json → option string → http_answer) (sink : AuditSink) (registry : list (string * Provider)).
Context (late : string → bool) (limit : Z) `{!Tokens.PyJwt} (verifier : Tokens.Verifier) (csv : string).
Hypothesis Hpost : never_other http_post.

(** Past the gate, or refused without a trace. *)
Lemma admin_context_run now m w : tx w = db w →
  (∃ p granted, Tokens.admin_principal verifier now (authorization m) = Ok p ∧ Admin.require_admin csv (db w) "support.read" p = Ok granted ∧
     admin_context verifier csv now "support.read" m w = (Ok (mkCaller p granted (m_ip m) (m_agent m) (m_trace m)), w)) ∨
  ∃ e, admin_context verifier csv now "support.read" m w = (Raise e, w) ∧ e ≠ PyError ValidationError ∧
    e ≠ AppError Admin.ENTITY_NOT_FOUND ∧ e ≠ AppError Admin.UPSTREAM_UNAVAILABLE.
Proof.
  intros Ht. unfold admin_context, mbind, handler_bind, lift, query. pose proof (admin_principal_not verifier now (authorization m)) as Hn.
  destruct (Tokens.admin_principal _ _ _) as [p|[e|k]] eqn:Ep; simpl.
  - rewrite Ht. unfold id. destruct (Admin.require_admin csv (db w) "support.read" p) as [granted|e] eqn:Er.
    + left. by exists p, granted.
    + right. exists (AppError e). split; [done|]. revert Er. unfold Admin.require_admin. repeat case_match; intros [=]; by subst.
  - right. exists (AppError (auth_code e)). by destruct e.
  - right. exists (PyError k). split_and!; [done| |done|done]. congruence.
Qed.

Lemma entity_get_run c kind i w : let '(r, w') := entity_get http_post sink registry c kind i w in
  db w' = db w ∧ (∀ v, r = Ok v → ext w' = recorded http_post sink (view_record c kind i "ok") (ext w)) ∧
  (r = Raise (AppError Admin.ENTITY_NOT_FOUND) → ext w' = recorded http_post sink (view_record c kind i "not_found") (ext w)) ∧
  (r = Raise (AppError Admin.UPSTREAM_UNAVAILABLE) → ext w' = recorded http_post sink (view_record c kind i "error") (ext w)) ∧
  (∀ k, r = Raise (PyError k) → ext w' = ext w) ∧ (∀ e, r = Raise (AppError e) → e = Admin.ENTITY_NOT_FOUND ∨ e = Admin.UPSTREAM_UNAVAILABLE).
Proof.
  unfold entity_get. destruct (provider_for kind registry) as [p|]; [|simpl; naive_solver].
  destruct (p_get p i) as [[v|]|[s st|k]]; unfold mbind, handler_bind; rewrite ?emit_run by done; simpl; naive_solver.
Qed.

Lemma elem_of_sorted x l : x ∈ sorted l ↔ x ∈ l.
Proof. unfold sorted. by rewrite merge_sort_Permutation, elem_of_remove_dups. Qed.

Lemma sorted_nil l : sorted l = [] ↔ l = [].
Proof.
  split; [|by intros ->]. intros Hs. destruct l as [|x l]; [done|]. assert (Hx : x ∈ sorted (x :: l)) by (apply elem_of_sorted; set_solver).
  rewrite Hs in Hx. by apply elem_of_nil in Hx.
Qed.

Lemma search_run c q w :
  search http_post sink registry late limit c q w =
  if (String.length (strip q) <? _MIN_QUERY_LEN)%nat then (Raise (AppError Admin.INVALID_QUERY), w)
  else let gd := fold_left gather (_run late limit (strip q) <$> all_providers registry) ([], []) in
    let r := mkResult (strip q) gd.1 (sorted gd.2) in
    (Ok r, Uow (db w) (tx w) (recorded http_post sink (search_record c (strip q) (if bool_decide (degraded r = []) then "ok" else "degraded")) (ext w))).
Proof.
  unfold search. destruct (_ <? _)%nat; [done|]. destruct (fold_left _ _ _) as [gs ds]. unfold mbind, handler_bind. rewrite emit_run by done. simpl.
  rewrite (bool_decide_ext _ _ (sorted_nil ds)). done.
Qed.

(** C37: every privileged read leaves exactly one record.  When posting to the audit log
    fails with nothing but [httpx.HTTPError], a view or a search that is answered, with
    data, with not found or with an upstream outage, was asked with a valid token of
    an MFA-elevated admin who holds support.read, and emits exactly one audit record, which
    names its subject and scopes, the entity or the query, and how it ended: under the
    log sink one more line; under the HTTP sink one post, and so one more record at the
    audit log when it takes the post, none when it refuses or cannot be reached;
    under the inert sink nothing.  A request that is refused emits no record; and the
    staff table is never changed. *)
Theorem console_access_audited (now : Z) (m : Meta) (q : creq) (d : Admin.staff_table) (x : world) :
  let '(r, d', x') := request (serve http_post sink registry late limit verifier csv now m q) d x in
  d' = d ∧
  match results q r with
  | [] => x' = x
  | words => ∃ p granted w, Tokens.admin_principal verifier now (authorization m) = Ok p ∧ Admin.is_admin p = true ∧ Identity.c_mfa p = true ∧
      Admin.require_admin csv d "support.read" p = Ok granted ∧ "support.read" ∈ granted ∧ w ∈ words ∧
      audited http_post sink (record_for (mkCaller p granted (m_ip m) (m_agent m) (m_trace m)) q w) x x'
  end.
Proof.
  unfold request. destruct q as [kind i|text]; cbn [serve]; unfold view_route, search_route, mbind, handler_bind.
  - destruct (admin_context_run now m (Uow d d x) eq_refl) as [(p & g & Hp & Hg & ->)|(e & -> & H1 & H2 & H3)].
    + pose proof (entity_get_run (mkCaller p g (m_ip m) (m_agent m) (m_trace m)) kind i (Uow d d x)) as Hr.
      destruct (entity_get _ _ _ _ kind i _) as [[v|[e|k]] w']; destruct Hr as (Hd & Ho & Hn & Hu & Hk & He); cbn [results mret handler_ret fst snd].
      * split; [done|]. exists p, g, "ok". destruct (require_admin_ok csv d "support.read" p g Hg) as (? & ? & ?). split_and!; first [done|by left|rewrite (Ho v eq_refl); apply recorded_audited].
      * split; [done|]. destruct (require_admin_ok csv d "support.read" p g Hg) as (? & ? & ?).
        destruct (He e eq_refl) as [-> | ->]; cbn [results]; [exists p, g, "not_found"|exists p, g, "error"]; split_and!; first [done|by left|rewrite Hn by done; apply recorded_audited|rewrite Hu by done; apply recorded_audited].
      * split; [done|]. by apply (Hk k).
    + cbn. split; [done|]. destruct e as [[]|[]]; done.
  - destruct (admin_context_run now m (Uow d d x) eq_refl) as [(p & g & Hp & Hg & ->)|(e & -> & H1 & H2 & H3)].
    + destruct (require_admin_ok csv d "support.read" p g Hg) as (? & ? & ?). destruct (negb _); [done|]. rewrite search_run. destruct (_ <? _)%nat; [done|].
      destruct (fold_left gather _ _) as [gs ds]. cbn. match goal with |- context [forallb ?f ?l] => destruct (forallb f l) end.
      * cbn. split; [done|]. exists p, g, (if bool_decide (sorted ds = []) then "ok" else "degraded"). split_and!; first [done|by left|apply recorded_audited].
      * cbn. split; [done|]. exists p, g, (if bool_decide (sorted ds = []) then "ok" else "degraded"). split_and!; first [done|apply recorded_audited|case_bool_decide; set_solver].
    + cbn. split; [done|]. by destruct e as [[]|[]].
Qed.
End audited.

(** ** The fan-out *)

Lemma dict_set_fresh {A} k (v : A) d : k ∉ d.*1 → dict_set k v d = d ++ [(k, v)].
Proof.
  induction d as [|[k' v'] d IH]; simpl; [done|]. intros Hk. rewrite bool_decide_false by set_solver. by rewrite IH by set_solver.
Qed.

Lemma registry_fresh ps r : NoDup (r.*1 ++ (entity_type <$> ps)) →
  fold_left (λ r p, dict_set (entity_type p) p r) ps r = r ++ ((λ p, (entity_type p, p)) <$> ps).
Proof.
  revert r. induction ps as [|p ps IH]; intros r Hnd; simpl; [by rewrite app_nil_r|]. rewrite fmap_cons in Hnd.
  rewrite dict_set_fresh by (apply NoDup_app in Hnd as (_ & Hd & _); intros Hin; apply (Hd _ Hin); by left).
  rewrite IH; [by rewrite <- app_assoc|]. by rewrite fmap_app, <- app_assoc.
Qed.

Lemma all_registered ps : NoDup (entity_type <$> ps) → all_providers (ProviderRegistry ps) = ps.
Proof. intros Hnd. unfold ProviderRegistry, all_providers. rewrite registry_fresh by done. simpl. rewrite <- list_fmap_compose. apply list_fmap_id. Qed.

Definition group_of (o : string * option (list SearchHit)) : option (string * list SearchHit) := (λ hs, (o.1, hs)) <$> o.2.
Definition failed (o : string * option (list SearchHit)) : Prop := o.2 = None.

#[global] Instance failed_dec o : Decision (failed o).
Proof. unfold failed. destruct o.2; [by right|by left]. Defined.

Lemma omap_group_keys k os : k ∈ (omap group_of os).*1 → k ∈ os.*1.
Proof.
  intros ([k' hs] & -> & ([k'' o] & Hin & Ho)%list_elem_of_omap)%list_elem_of_fmap. destruct o as [hs'|]; [|done].
  unfold group_of in Ho. simpl in Ho. injection Ho as <- <-. simpl. by apply (list_elem_of_fmap_2 fst os (k'', Some hs')).
Qed.

Lemma gather_all os gs ds : NoDup (gs.*1 ++ os.*1) →
  fold_left gather os (gs, ds) = (gs ++ omap group_of os, ds ++ (filter failed os).*1).
Proof.
  revert gs ds. induction os as [|[k [hs|]] os IH]; intros gs ds Hnd; cbn [fold_left].
  - by rewrite !app_nil_r.
  - unfold gather at 2. cbn [fst snd]. rewrite fmap_cons in Hnd. cbn [fst] in Hnd.
    rewrite dict_set_fresh by (apply NoDup_app in Hnd as (_ & Hd & _); intros Hin; apply (Hd _ Hin); by left).
    rewrite IH by (by rewrite fmap_app, <- app_assoc). rewrite filter_cons_False by done. by rewrite <- app_assoc.
  - unfold gather at 2. cbn [fst snd]. rewrite fmap_cons in Hnd. cbn [fst] in Hnd.
    rewrite IH by (apply NoDup_app in Hnd as (? & Hd & [? ?]%NoDup_cons); apply NoDup_app; split_and!; [done| |done]; intros y Hy Hy'; apply (Hd y Hy); by right).
    rewrite filter_cons_True by done. by rewrite fmap_cons, <- app_assoc.
Qed.

Section fan_out.
Context (http_post : string → json → option string → http_answer) (sink : AuditSink) (late : string → bool) (limit : Z).
Hypothesis Hpost : never_other http_post.

Lemma run_keys q ps : (_run late limit q <$> ps).*1 = entity_type <$> ps.
Proof. rewrite <- list_fmap_compose. done. Qed.

(** What a search over distinct providers answers. *)
Lemma search_spec c q ps d x : NoDup (entity_type <$> ps) → (_MIN_QUERY_LEN ≤ String.length (strip q))%nat →
  (request (search http_post sink (ProviderRegistry ps) late limit c q) d x).1.1 =
  Ok (mkResult (strip q) (omap group_of (_run late limit (strip q) <$> ps)) (sorted (filter failed (_run late limit (strip q) <$> ps)).*1)).
Proof.
  intros Hnd Hlen. unfold request. rewrite search_run by done. rewrite (proj2 (Nat.ltb_ge _ _) Hlen), all_registered by done. cbv zeta.
  rewrite gather_all; [done|]. by rewrite run_keys.
Qed.

Lemma failed_run q k ps : k ∈ (filter failed (_run late limit q <$> ps)).*1 ↔
  ∃ p, p ∈ ps ∧ entity_type p = k ∧ (late k = true ∨ is_ok (p_search p q limit) = false).
Proof.
  split.
  - intros ([k' o] & -> & [Hf (p & Hp & Hin)%list_elem_of_fmap]%list_elem_of_filter)%list_elem_of_fmap. exists p. unfold _run in Hp. injection Hp as -> ->.
    split_and!; [done|done|]. unfold failed in Hf. simpl in *. destruct (late _); [by left|]. right. by destruct (p_search p q limit).
  - intros (p & Hin & <- & Hp). apply list_elem_of_fmap. exists (_run late limit q p). split; [done|]. apply list_elem_of_filter.
    split; [|by apply list_elem_of_fmap_2]. unfold failed, _run. simpl. destruct Hp as [->|Hp]; [done|]. destruct (late _); [done|]. by destruct (p_search p q limit).
Qed.

(** a provider degrades only itself.  A search of at least two characters always succeeds, whatever the
    providers do, time out or raise; a provider's group is in the answer exactly when it
    returned hits in time, and it is reported as degraded exactly otherwise; and replacing one provider by
    any other for the same entities changes neither the groups nor the report of the others. *)
Theorem provider_failure_is_local (c : Caller) (q : string) (pre post : list Provider) (p p' : Provider) (d : Admin.staff_table) (x : world)
    (Hsame : entity_type p' = entity_type p) (Hnd : NoDup (entity_type <$> pre ++ p :: post)) (Hlen : (2 ≤ String.length (strip q))%nat) :
  let k := entity_type p in
  let ask ps := (request (search http_post sink (ProviderRegistry ps) late limit c q) d x).1.1 in
  ∃ r r', ask (pre ++ p :: post) = Ok r ∧ ask (pre ++ p' :: post) = Ok r' ∧
    (∀ hs, (k, hs) ∈ groups r ↔ late k = false ∧ p_search p (strip q) limit = Ok hs) ∧
    (k ∈ degraded r ↔ late k = true ∨ is_ok (p_search p (strip q) limit) = false) ∧
    filter (λ g, g.1 ≠ k) (groups r) = filter (λ g, g.1 ≠ k) (groups r') ∧
    ∀ k', k' ≠ k → k' ∈ degraded r ↔ k' ∈ degraded r'.
Proof.
  intros k ask. assert (Hnd' : NoDup (entity_type <$> pre ++ p' :: post)) by (rewrite fmap_app, fmap_cons in Hnd |- *; by rewrite Hsame).
  eexists _, _. split; [by apply search_spec|]. split; [by apply search_spec|]. cbn [groups degraded].
  assert (Huniq : ∀ p0, p0 ∈ pre ++ p :: post → entity_type p0 = k → p0 = p).
  { intros p0 Hin Ek. apply list_elem_of_lookup in Hin as [i Hi]. assert (Hp : (pre ++ p :: post) !! length pre = Some p) by (by rewrite lookup_app_r, Nat.sub_diag).
    assert (i = length pre) as ->; [|congruence]. eapply NoDup_lookup; [exact Hnd|..]; rewrite list_lookup_fmap; [by rewrite Hi|rewrite Hp; simpl; unfold k in Ek; by rewrite Ek]. }
  split_and!.
  - intros hs. rewrite list_elem_of_omap. split.
    + intros (o & (p0 & -> & Hin)%list_elem_of_fmap & Hg). unfold group_of, _run in Hg. cbn [fst snd] in Hg.
      destruct (late (entity_type p0)) eqn:El; [done|]. destruct (p_search p0 _ _) as [hs'|] eqn:Es; [|done]. injection Hg as Ek ->.
      rewrite <- (Huniq p0 Hin Ek). split; [by rewrite <- Ek|done].
    + intros [El Es]. exists (_run late limit (strip q) p). split; [apply list_elem_of_fmap_2; set_solver|]. unfold group_of, _run. simpl. fold k. by rewrite El, Es.
  - rewrite elem_of_sorted, failed_run. split; [|intros; exists p; split_and!; [set_solver|done|done]].
    intros (p0 & Hin & Ek & Hf). by rewrite (Huniq p0 Hin Ek) in Hf.
  - assert (Hone : ∀ p0 : Provider, entity_type p0 = k → filter (λ g : string * list SearchHit, g.1 ≠ k) (omap group_of [_run late limit (strip q) p0]) = []).
    { intros p0 Ek. unfold _run. simpl. unfold group_of. simpl. destruct (if late _ then _ else _); [|done]. simpl. by rewrite filter_cons_False by tauto. }
    rewrite !fmap_app, !fmap_cons. change (?a :: ?l) with ([a] ++ l). rewrite !omap_app, !filter_app, !Hone by done. done.
  - intros k' Hk. rewrite !elem_of_sorted, !failed_run. split; intros (p0 & Hin & Ek & Hf); exists p0; (split; [|done]);
      rewrite elem_of_app, elem_of_cons in Hin |- *; destruct Hin as [?|[->|?]]; auto; destruct Hk; unfold k; congruence.
Qed.
End fan_out.

(** ** Outages *)

Section outages.
Context `{!Tokens.PyJwt} (verifier : Tokens.Verifier) (csv : string).

(** The gate looks at the token and the staff table only. *)
Lemma admin_context_pure now scope m w : admin_context verifier csv now scope m w =
  (match as_admin (Tokens.admin_principal verifier now (authorization m)) with
   | Raise e => Raise e
   | Ok p => match Admin.require_admin csv (tx w) scope p with
             | Raise e => Raise (AppError e)
             | Ok granted => Ok (mkCaller p granted (m_ip m) (m_agent m) (m_trace m))
             end
   end, w).
Proof.
  unfold admin_context, mbind, handler_bind, lift, query. destruct (as_admin _) as [p|]; [|done]. unfold id.
  by destruct (Admin.require_admin csv (tx w) scope p).
Qed.

(** an outage of the audit log breaks no read: with any two sinks, audit logs that answer anything or
    cannot be reached, every request gets the same answer. *)
Theorem audit_outage_harmless (post post' : string → json → option string → http_answer) (sink sink' : AuditSink)
    (registry : list (string * Provider)) (late : string → bool) (limit now : Z) (m : Meta) (q : creq) (d : Admin.staff_table) (x x' : world)
    (Hpost : never_other post) (Hpost' : never_other post') :
  (request (serve post sink registry late limit verifier csv now m q) d x).1.1 =
  (request (serve post' sink' registry late limit verifier csv now m q) d x').1.1.
Proof.
  unfold request. destruct q as [kind i|text]; cbn [serve]; unfold view_route, search_route, mbind, handler_bind; rewrite !admin_context_pure; cbn [tx].
  - destruct (as_admin _) as [p|]; [|done]. destruct (Admin.require_admin csv d _ p) as [g|]; [|done].
    unfold entity_get. destruct (provider_for kind registry) as [pr|]; [|done].
    destruct (p_get pr i) as [[v|]|[s st|k]]; unfold mbind, handler_bind; by rewrite ?emit_run.
  - destruct (as_admin _) as [p|]; [|done]. destruct (Admin.require_admin csv d _ p) as [g|]; [|done].
    destruct (negb _); [done|]. rewrite !search_run by done. destruct (_ <? _)%nat; [done|]. destruct (fold_left gather _ _) as [gs ds]. cbn.
    by match goal with |- context [forallb ?f ?l] => destruct (forallb f l) end.
Qed.

(** an upstream answer that is no JSON escapes the audit: the view of an admin whose token and scope
    are good fails with an unexpected exception, and leaves no record of the access. *)
Theorem unreadable_upstream_unaudited (http_get : string → list (string * json) → http_answer) (post : string → json → option string → http_answer)
    (sink : AuditSink) (now st : Z) (identity_url merchant_url paylink_url payment_url entity_id : string) (m : Meta) (p : AccessClaims)
    (granted : list string) (d : Admin.staff_table) (x : world)
    (Htoken : Tokens.admin_principal verifier now (authorization m) = Ok p) (Hscope : Admin.require_admin csv d "support.read" p = Ok granted)
    (Hst : st < 400) (Hbody : http_get (rstrip "/" identity_url +:+ "/internal/admin/users/" +:+ entity_id) [] = Response st None) :
  request (view_route post sink (build_registry http_get identity_url merchant_url paylink_url payment_url) verifier csv now m "user" entity_id) d x =
    (Raise (PyError ValueError), d, x).
Proof.
  unfold request, view_route, mbind, handler_bind. rewrite admin_context_pure, Htoken. cbn [as_admin tx]. rewrite Hscope.
  unfold entity_get. change (provider_for "user" _) with (Some (HttpUserProvider http_get identity_url "identity-service")).
  cbn [p_get HttpUserProvider]. unfold get_view, get_json. rewrite Hbody.
  rewrite (proj2 (Z.eqb_neq st 404)), (proj2 (Z.leb_gt 400 st)) by lia. done.
Qed.
End outages.

(** ** Witnesses *)

#[local] Existing Instance Tokens.demo_jwt.

Definition demo_v : Tokens.Verifier := Tokens.mkVerifier "k" "linkmint" "linkmint-identity".
Definition demo_claims : AccessClaims :=
  Identity.mkClaims (uuid_text 9) [Identity.mkOrgRole "o" "member" (Some "admin")] ["payer"] 0 "j" "s" true ["pwd"; "mfa"] 100 4000.
Definition demo_meta : Meta := mkMeta (Some ("Bearer " +:+ Tokens.signed "linkmint-identity" "linkmint" "k" "kid" demo_claims)) (Some "10.0.0.1") None "t1".
Definition demo_post (url : string) (body : json) (token : option string) : http_answer := HTTPError.
Definition demo_registry : list (string * Provider) :=
  ProviderRegistry [FakeProvider "user" [("u1", [("label", JStr "Ann"); ("status", JStr "ACTIVE")])] false; FakeProvider "merchant" [] true].

Lemma demo_post_ok : never_other demo_post.
Proof. done. Qed.

Definition demo_audit_log (url : string) (body : json) (token : option string) : http_answer := Response 201 None.

(** The audit log takes the record of a view. *)
Lemma console_access_audited_witness :
  ∃ p granted, let x' := (request (serve demo_audit_log (HttpAuditSink "http://a/v1/audit-log" None) demo_registry (λ _, false) 20 demo_v "" 700
      demo_meta (CView "user" "u1")) Admin.demo_staff (mkWorld [] [])).2 in
    accepted x' = [audit_body (record_for (mkCaller p granted (Some "10.0.0.1") None "t1") (CView "user" "u1") "ok")].
Proof.
  pose proof (console_access_audited demo_audit_log (HttpAuditSink "http://a/v1/audit-log" None) demo_registry (λ _, false) 20 demo_v ""
    ltac:(by intros u b t e) 700 demo_meta (CView "user" "u1") Admin.demo_staff (mkWorld [] [])) as Hc.
  destruct (request _ _ _) as [[r d'] x'] eqn:E. destruct Hc as [_ Hc].
  assert (Er : results (CView "user" "u1") r = ["ok"]) by (vm_compute in E; injection E as <- _ _; reflexivity).
  rewrite Er in Hc. destruct Hc as (p & g & w & _ & _ & _ & _ & _ & Hw & Hx). exists p, g. apply list_elem_of_singleton in Hw as ->.
  destruct Hx as (_ & _ & Hx). exact Hx.
Defined.

Lemma provider_failure_is_local_witness :
  ∃ r r', groups r = [("user", [mkHit "user" "u1" "Ann" (JStr "ACTIVE") []])] ∧ "merchant" ∈ degraded r ∧
    filter (λ g, g.1 ≠ "merchant") (groups r) = filter (λ g, g.1 ≠ "merchant") (groups r').
Proof.
  destruct (provider_failure_is_local demo_post LogAuditSink (λ _, false) 20 demo_post_ok (mkCaller demo_claims ["support.read"] None None "t") " ann "
    [FakeProvider "user" [("u1", [("label", JStr "Ann"); ("status", JStr "ACTIVE")])] false] [] (FakeProvider "merchant" [] true) (FakeProvider "merchant" [] false)
    ∅ (mkWorld [] []) eq_refl ltac:(by apply (bool_decide_unpack _); vm_compute) ltac:(vm_compute; lia)) as (r & r' & Hr & _ & _ & Hk & Hf & _).
  exists r, r'. split_and!; [|apply Hk; right; reflexivity|exact Hf]. vm_compute in Hr. injection Hr as <-. reflexivity.
Defined.

Lemma audit_outage_harmless_witness :
  ∃ v, (request (serve demo_post (HttpAuditSink "http://a/v1/audit-log" None) demo_registry (λ _, false) 20 demo_v "" 700 demo_meta (CView "user" "u1"))
          Admin.demo_staff (mkWorld [] [])).1.1 = Ok (AView v).
Proof.
  destruct (request (serve demo_post NoopAuditSink demo_registry (λ _, false) 20 demo_v "" 700 demo_meta (CView "user" "u1")) Admin.demo_staff (mkWorld [] [])).1.1
    as [[v|r]|e] eqn:E; [|by vm_compute in E|by vm_compute in E].
  exists v. rewrite <- E. exact (audit_outage_harmless demo_v "" demo_post demo_post _ NoopAuditSink demo_registry (λ _, false) 20 700 demo_meta (CView "user" "u1")
    Admin.demo_staff (mkWorld [] []) (mkWorld [] []) demo_post_ok demo_post_ok).
Defined.

Lemma unreadable_upstream_unaudited_witness :
  request (view_route demo_post LogAuditSink (build_registry (λ _ _, Response 200 None) "http://i/" "m" "p" "o") demo_v "" 700 demo_meta "user" "u1")
    Admin.demo_staff (mkWorld [] []) = (Raise (PyError ValueError), Admin.demo_staff, mkWorld [] []).
Proof.
  destruct (Tokens.admin_principal demo_v 700 (authorization demo_meta)) as [p|e] eqn:E; [|by vm_compute in E].
  apply (unreadable_upstream_unaudited demo_v "" (λ _ _, Response 200 None) demo_post LogAuditSink 700 200 "http://i/" "m" "p" "o" "u1" demo_meta p Admin.SCOPES);
    [exact E|vm_compute in E; injection E as <-; vm_compute; reflexivity|lia|reflexivity].
Defined.
End Console.
