(* ===== verification/Delivery.v ===== *)
(** * Delivering notifications: the worker of notification-service

    [app/delivery/] (backoff schedule and runner), [app/channels/] (console and vendor
    providers), [SyncDeliveryStore] of [app/db/repository.py], and the Celery task of
    [app/celeryapp/tasks.py].  A provider call is a network call: its answer is an
    argument, one per call made so far, and every call is logged in [sends]. *)
From S2P Require Import Prelude PyText PyJson PyNum UnitOfWork Tables Chain Templating.
From Stdlib Require Import Ascii.

Module Delivery.
Import PyNum.
Open Scope Z_scope.

Definition usec : Z := 1000000.

(** ** delivery/backoff.py *)

Definition BACKOFF_SCHEDULE_SECONDS : list Z := [30; 120; 600; 3600; 21600].
Definition MAX_RETRIES : Z := Z.of_nat (length BACKOFF_SCHEDULE_SECONDS).

Definition next_countdown (attempts_done : Z) : option Z :=
  if (1 <=? attempts_done) && (attempts_done <=? MAX_RETRIES)
  then BACKOFF_SCHEDULE_SECONDS !! Z.to_nat (attempts_done - 1) else None.

(** ** domain/models.py, db/models.py *)

Definition QUEUED : string := "QUEUED".
Definition SENT : string := "SENT".
Definition FAILED : string := "FAILED".
Definition EXHAUSTED : string := "EXHAUSTED".
Definition NOOP : string := "NOOP".

Inductive Channel := SMS | EMAIL.
Definition Channel_value (c : Channel) : string := match c with SMS => "sms" | EMAIL => "email" end.

#[global] Instance Channel_eq_dec : EqDecision Channel.
Proof. solve_decision. Defined.

(** The [payload] column: the rendered message and its dedupe key. *)
Record Payload := mkPayload { p_body : string; p_subject : option string; p_dedupe_key : string; p_data : list (string * json) }.

Record DeliveryRow := mkRow {
  channel : string; recipient : string; event_kind : string; payload : Payload; status : string; attempts : Z;
  last_error : option string; next_retry_at : option Z; delivered_at : option Z }.

Record DeliveryRecord := mkRec {
  rec_id : uuid; rec_channel : string; rec_recipient : string; rec_status : string; rec_attempts : Z; rec_body : string;
  rec_subject : option string }.

(** ** db/repository.py, SyncDeliveryStore *)

Abbreviation table := (gmap uuid DeliveryRow).

Definition get (i : uuid) (t : table) : option DeliveryRecord :=
  (λ r, mkRec i (channel r) (recipient r) (status r) (attempts r) (p_body (payload r)) (p_subject (payload r))) <$> t !! i.

Definition set_row (st : string) (att : Z) (err : option string) (next delivered : option Z) (r : DeliveryRow) : DeliveryRow :=
  mkRow (channel r) (recipient r) (event_kind r) (payload r) st att err next delivered.

Definition mark_sent (now : Z) (i : uuid) : table → table :=
  alter (λ r, set_row SENT (attempts r) None None (Some now) r) i.

Definition mark_failed (i : uuid) (att : Z) (err : string) (next : Z) : table → table :=
  alter (λ r, set_row FAILED att (Some err) (Some next) (delivered_at r) r) i.

Definition mark_exhausted (i : uuid) (att : Z) (err : string) : table → table :=
  alter (λ r, set_row EXHAUSTED att (Some err) None (delivered_at r) r) i.

(** ** channels/ *)

(** [SendError], and any other exception. *)
Inductive send_exn := SendError (message : string) | Escapes (kind : pyerr).
Record SendResult := mkResult { provider : string; provider_ref : string }.

(** A provider on its [n]th call. *)
Definition Provider : Type := nat → string → string → option string → outcome send_exn SendResult.

Definition send_error (name : string) (st : option Z) (detail : string) : send_exn :=
  SendError (strip (name +:+ " send failed (status=" +:+
    match st with Some s => text (PyJson.print_Z s) | None => "None" end +:+ ") " +:+ detail)).

(** console.py *)
Section console.
Variable sha1_hex : string → string.

Definition _provider_ref (ch to body : string) : string :=
  "console-" +:+ text (take 12 (chars (sha1_hex (ch +:+ "|" +:+ to +:+ "|" +:+ body)))).

Definition ConsoleProvider (ch : string) (fail : list string) : Provider := λ _ to body _,
  if bool_decide (to ∈ fail) then Raise (send_error "console" None ("forced failure for " +:+ Templating.mask_recipient ch to))
  else Ok (mkResult "console" (_provider_ref ch to body)).
End console.

(** The vendor's answer: a transport error, or a status with the message id header and the
    JSON body, absent when it is not JSON. *)
Inductive reply := HttpError (detail : string) | HttpReply (code : Z) (message_id : option string) (json_body : option json).

(** http_email.py *)
Definition SendGridEmailProvider (vendor : nat → reply) : Provider := λ n _ _ _,
  match vendor n with
  | HttpError e => Raise (send_error "http" None e)
  | HttpReply code mid _ => if 400 <=? code then Raise (send_error "http" (Some code) "") else Ok (mkResult "http" (default "" mid))
  end.

(** http_sms.py: the message id of the first recipient; the errors that the code does not
    catch are [TypeError] (a number is not indexable) and [KeyError] (an object indexed by 0). *)
Definition get_or (k : string) (d : json) (j : json) : outcome pyerr json :=
  match j with JObj o => Ok (default d (Chain.jfind k o)) | _ => Raise AttributeError end.

Definition first_item (j : json) : outcome pyerr json :=
  match j with
  | JList (x :: _) => Ok x
  | JStr (String c _) => Ok (JStr (String c ""))
  | JObj _ => Raise KeyError
  | _ => Raise TypeError
  end.

Definition sms_ref (b : option json) : outcome pyerr string :=
  match b with
  | None => Raise ValueError
  | Some j =>
      let? m := get_or "SMSMessageData" (JObj []) j in
      let? rs := get_or "Recipients" (JList []) m in
      if jtruthy rs then
        let? x := first_item rs in
        let? i := get_or "messageId" (JStr "") x in Ok (py_str i)
      else Ok ""
  end.

Definition AfricasTalkingSmsProvider (vendor : nat → reply) : Provider := λ n _ _ _,
  match vendor n with
  | HttpError e => Raise (send_error "http" None e)
  | HttpReply code _ b =>
      if 400 <=? code then Raise (send_error "http" (Some code) "")
      else match sms_ref b with
           | Ok r => Ok (mkResult "http" r)
           | Raise ValueError | Raise AttributeError => Ok (mkResult "http" "")
           | Raise k => Raise (Escapes k)
           end
  end.

(** registry.py *)
Record ChannelRegistry := mkChannels { sms : Provider; email : Provider }.

Definition for_channel (r : ChannelRegistry) (ch : string) : option Provider :=
  if bool_decide (ch = Channel_value SMS) then Some (sms r)
  else if bool_decide (ch = Channel_value EMAIL) then Some (email r) else None.

(** The part of [Settings] the registry reads. *)
Record ChannelSettings := mkCS {
  sms_provider : string; email_provider : string; console_fail_recipients : string;
  has_africastalking_key : bool; has_sendgrid_key : bool }.

Definition console_fail_set (s : ChannelSettings) : list string :=
  filter (λ r, truthy r = true) (strip <$> split "," (console_fail_recipients s)).

Definition build_channel_registry (sha1_hex : string → string) (sms_vendor email_vendor : nat → reply) (s : ChannelSettings) : ChannelRegistry :=
  mkChannels
    (if bool_decide (sms_provider s = "http") && has_africastalking_key s then AfricasTalkingSmsProvider sms_vendor
     else ConsoleProvider sha1_hex "sms" (console_fail_set s))
    (if bool_decide (email_provider s = "http") && has_sendgrid_key s then SendGridEmailProvider email_vendor
     else ConsoleProvider sha1_hex "email" (console_fail_set s)).

(** ** delivery/runner.py *)

Record RunOutcome := mkOutcome { o_id : uuid; o_status : string; should_retry : bool; countdown : option Z }.

(** One provider call and its end: accepted, refused with a [SendError], or ended by another exception (the vendor may
    have accepted the message, but its answer could not be read). *)
Inductive verdict := Accepted | Refused | Unread.

#[global] Instance verdict_eq_dec : EqDecision verdict.
Proof. solve_decision. Defined.

Definition verdict_of (r : outcome send_exn SendResult) : verdict :=
  match r with Ok _ => Accepted | Raise (SendError _) => Refused | Raise (Escapes _) => Unread end.

Record send_log := mkSend { l_id : uuid; l_to : string; l_body : string; l_time : Z; l_verdict : verdict }.

Record wstate := mkW { rows : table; sends : list send_log }.

Section runner.
Variable channels : ChannelRegistry.

(** [run_once] up to the provider call: done, or the call to make. *)
Definition run_begin (i : uuid) (s : wstate) : wstate * (RunOutcome + DeliveryRecord * Provider) :=
  match get i (rows s) with
  | None => (s, inl (mkOutcome i NOOP false None))
  | Some rec =>
      if bool_decide (rec_status rec = SENT) || bool_decide (rec_status rec = EXHAUSTED) then (s, inl (mkOutcome i NOOP false None))
      else match for_channel channels (rec_channel rec) with
           | None => (mkW (mark_exhausted i (rec_attempts rec) ("no provider for " +:+ rec_channel rec) (rows s)) (sends s),
                      inl (mkOutcome i EXHAUSTED false None))
           | Some p => (s, inr (rec, p))
           end
  end.

(** The call. *)
Definition run_send (now : Z) (rec : DeliveryRecord) (p : Provider) (s : wstate) : outcome send_exn SendResult * wstate :=
  let r := p (length (sends s)) (rec_recipient rec) (rec_body rec) (rec_subject rec) in
  (r, mkW (rows s) (sends s ++ [mkSend (rec_id rec) (rec_recipient rec) (rec_body rec) now (verdict_of r)])).

(** The rest, on the provider's answer. *)
Definition run_finish (now : Z) (rec : DeliveryRecord) (r : outcome send_exn SendResult) (s : wstate) : outcome pyerr RunOutcome * wstate :=
  let i := rec_id rec in
  match r with
  | Raise (Escapes k) => (Raise k, s)
  | Raise (SendError e) =>
      let att := rec_attempts rec + 1 in
      match next_countdown att with
      | None => (Ok (mkOutcome i EXHAUSTED false None), mkW (mark_exhausted i att e (rows s)) (sends s))
      | Some cd => (Ok (mkOutcome i FAILED true (Some cd)), mkW (mark_failed i att e (now + cd * usec) (rows s)) (sends s))
      end
  | Ok _ => (Ok (mkOutcome i SENT false None), mkW (mark_sent now i (rows s)) (sends s))
  end.

Definition run_once (now : Z) (i : uuid) (s : wstate) : outcome pyerr RunOutcome * wstate :=
  match run_begin i s with
  | (s', inl o) => (Ok o, s')
  | (s', inr (rec, p)) => let '(r, s'') := run_send now rec p s' in run_finish now rec r s''
  end.

(** ** celeryapp/tasks.py

    [deliver] with its retries: the task's outcome, or the exception that ends it; [left]
    counts the retries Celery still allows ([max_retries=MAX_RETRIES]). *)
Inductive task_end := Done (status : string) | MaxRetriesExceeded | TaskFailed (kind : pyerr).

Fixpoint deliver (left : nat) (now : Z) (i : uuid) (s : wstate) : task_end * wstate :=
  match run_once now i s with
  | (Raise k, s') => (TaskFailed k, s')
  | (Ok o, s') =>
      match should_retry o, countdown o with
      | true, Some cd => match left with O => (MaxRetriesExceeded, s') | S left' => deliver left' (now + cd * usec) i s' end
      | _, _ => (Done (o_status o), s')
      end
  end.
End runner.

(** ** The life of a delivery *)

Definition final (st : string) : bool := bool_decide (st = SENT) || bool_decide (st = EXHAUSTED).

(** What a row may look like. *)
Definition row_ok (r : DeliveryRow) : Prop :=
  (status r = QUEUED ∧ attempts r = 0 ∧ next_retry_at r = None ∧ delivered_at r = None) ∨
  (status r = FAILED ∧ 1 ≤ attempts r ≤ 5 ∧ is_Some (next_retry_at r) ∧ delivered_at r = None) ∨
  (status r = SENT ∧ 0 ≤ attempts r ≤ 5 ∧ next_retry_at r = None ∧ is_Some (delivered_at r)) ∨
  (status r = EXHAUSTED ∧ 0 ≤ attempts r ≤ 6 ∧ next_retry_at r = None ∧ delivered_at r = None).

Definition calls (i : uuid) (v : verdict) (ls : list send_log) : Z :=
  Z.of_nat (length (filter (λ l, l_id l = i ∧ l_verdict l = v) ls)).

(** The row agrees with the calls made for it. *)
Definition tracked (i : uuid) (s : wstate) : Prop := ∃ r, rows s !! i = Some r ∧ row_ok r ∧
  calls i Refused (sends s) = attempts r ∧ calls i Accepted (sends s) = if bool_decide (status r = SENT) then 1 else 0.

Lemma next_countdown_cases a : 1 ≤ a → (a ≤ 5 ∧ ∃ cd, next_countdown a = Some cd ∧ BACKOFF_SCHEDULE_SECONDS !! Z.to_nat (a - 1) = Some cd)
  ∨ (6 ≤ a ∧ next_countdown a = None).
Proof.
  intros Ha. unfold next_countdown. change MAX_RETRIES with 5. rewrite (proj2 (Z.leb_le 1 a)) by lia. simpl.
  destruct (Z.leb_spec a 5); [left|right; split; [lia|done]]. split; [lia|].
  assert (is_Some (BACKOFF_SCHEDULE_SECONDS !! Z.to_nat (a - 1))) as [cd Hcd] by (apply lookup_lt_is_Some_2; simpl; lia). eauto.
Qed.

Lemma calls_snoc i v ls l : calls i v (ls ++ [l]) = calls i v ls + if bool_decide (l_id l = i ∧ l_verdict l = v) then 1 else 0.
Proof.
  unfold calls. rewrite filter_app, length_app. case_bool_decide as H; [rewrite filter_cons_True by done|rewrite filter_cons_False by done]; simpl; lia.
Qed.

Section lifecycle.
Variable channels : ChannelRegistry.

(** What one run on a live row does. *)
Inductive ran (now : Z) (i : uuid) (r : DeliveryRow) (s : wstate) : outcome pyerr RunOutcome → wstate → Prop :=
| RanNoProvider e : for_channel channels (channel r) = None →
    ran now i r s (Ok (mkOutcome i EXHAUSTED false None)) (mkW (mark_exhausted i (attempts r) e (rows s)) (sends s))
| RanSent l : l_id l = i → l_time l = now → l_verdict l = Accepted → for_channel channels (channel r) ≠ None →
    ran now i r s (Ok (mkOutcome i SENT false None)) (mkW (mark_sent now i (rows s)) (sends s ++ [l]))
| RanFailed l e cd : l_id l = i → l_time l = now → l_verdict l = Refused → next_countdown (attempts r + 1) = Some cd → for_channel channels (channel r) ≠ None →
    ran now i r s (Ok (mkOutcome i FAILED true (Some cd))) (mkW (mark_failed i (attempts r + 1) e (now + cd * usec) (rows s)) (sends s ++ [l]))
| RanExhausted l e : l_id l = i → l_time l = now → l_verdict l = Refused → next_countdown (attempts r + 1) = None → for_channel channels (channel r) ≠ None →
    ran now i r s (Ok (mkOutcome i EXHAUSTED false None)) (mkW (mark_exhausted i (attempts r + 1) e (rows s)) (sends s ++ [l]))
| RanUnread l k p n : l_id l = i → l_time l = now → l_verdict l = Unread → for_channel channels (channel r) = Some p →
    p n (recipient r) (p_body (payload r)) (p_subject (payload r)) = Raise (Escapes k) →
    ran now i r s (Raise k) (mkW (rows s) (sends s ++ [l])).

Lemma run_live now i r s : rows s !! i = Some r → final (status r) = false →
  ∃ o s', run_once channels now i s = (o, s') ∧ ran now i r s o s'.
Proof.
  intros Hr Hf. unfold run_once, run_begin, get. rewrite Hr. simpl. unfold final in Hf. rewrite Hf.
  destruct (for_channel channels (channel r)) as [p|] eqn:Hc; [|eexists _, _; split; [done|by constructor]].
  unfold run_send, run_finish. simpl. destruct (p _ _ _ _) as [res|[e|k]] eqn:Hp.
  - eexists _, _. split; [done|]. constructor; simpl; congruence.
  - destruct (next_countdown (attempts r + 1)) as [cd|] eqn:Hn; eexists _, _; (split; [done|]); constructor; simpl; congruence.
  - eexists _, _. split; [done|]. by eapply RanUnread.
Qed.

Lemma run_final now i r s : rows s !! i = Some r → final (status r) = true →
  run_once channels now i s = (Ok (mkOutcome i NOOP false None), s).
Proof. intros Hr Hf. unfold run_once, run_begin, get. rewrite Hr. simpl. unfold final in Hf. by rewrite Hf. Qed.

Lemma row_ok_final r : row_ok r → final (status r) = false → (status r = QUEUED ∨ status r = FAILED) ∧ 0 ≤ attempts r ≤ 5 ∧ delivered_at r = None.
Proof.
  intros [(H & ? & ? & ?)|[(H & ? & ? & ?)|[(H & ?)|(H & ?)]]] Hf; rewrite H in Hf; try done; (split; [auto|]); split; (done || lia).
Qed.

Lemma live_not_sent r : row_ok r → final (status r) = false → bool_decide (status r = SENT) = false.
Proof. intros Hr Hf. unfold final in Hf. by apply orb_false_iff in Hf as [? _]. Qed.

(** A run of a delivery keeps its row in agreement with its calls. *)
Lemma run_tracked now i s : tracked i s → tracked i (run_once channels now i s).2.
Proof.
  intros (r & Hr & Hok & Hf & Ha). destruct (final (status r)) eqn:Hfin.
  { rewrite (run_final now i r s) by done. simpl. exists r. auto. }
  destruct (run_live now i r s Hr Hfin) as (o & s' & -> & Hran). simpl. rewrite (live_not_sent r Hok Hfin) in Ha.
  destruct (row_ok_final r Hok Hfin) as (_ & Hatt & Hdel). destruct s as [rs ls]. simpl in *.
  destruct Hran as [e|l Hi _ Hacc|l e cd Hi _ Hacc Hcd|l e Hi _ Hacc Hcd|l k p n Hi _ Hacc];
    [..|exists r; cbn [rows sends]; rewrite !calls_snoc, Hacc, Hf, Ha, (live_not_sent r Hok Hfin), !(bool_decide_false (_ ∧ _)) by naive_solver;
        rewrite !Z.add_0_r; by auto];
    unfold mark_sent, mark_failed, mark_exhausted; (eexists; split; [cbn [rows sends]; by rewrite lookup_alter_eq, Hr|]);
    cbn [rows sends]; rewrite ?calls_snoc; unfold row_ok; simpl; rewrite ?Hi, ?Hacc, ?Hf, ?Ha.
  - split; [|done]. do 3 right. split_and!; try done; lia.
  - split; [|split; [rewrite bool_decide_false by naive_solver; lia|by rewrite !bool_decide_true]]. do 2 right. left. split_and!; try done; lia.
  - destruct (next_countdown_cases (attempts r + 1)) as [(? & _)|(? & H0)]; [lia| |congruence].
    split; [|split; [by rewrite bool_decide_true|rewrite bool_decide_false by naive_solver; done]]. right. left. split_and!; try done; lia.
  - split; [|split; [by rewrite bool_decide_true|rewrite bool_decide_false by naive_solver; done]]. do 3 right. split_and!; try done; lia.
Qed.

Lemma run_other now i j s : i ≠ j → rows (run_once channels now j s).2 !! i = rows s !! i ∧
  ∀ b, calls i b (sends (run_once channels now j s).2) = calls i b (sends s).
Proof.
  intros Hne. unfold run_once, run_begin. destruct (get j (rows s)) as [rec|] eqn:Hg; [|done].
  assert (Hid : rec_id rec = j) by (unfold get in Hg; destruct (rows s !! j); simplify_eq/=; done).
  destruct (_ || _); [done|]. destruct (for_channel channels (rec_channel rec)) as [p|].
  2:{ simpl. unfold mark_exhausted. by rewrite lookup_alter_ne. }
  unfold run_send, run_finish. simpl. rewrite Hid.
  assert (Hl : ∀ b l, l_id l = j → calls i b (sends s ++ [l]) = calls i b (sends s)).
  { intros b l Hl. rewrite calls_snoc, bool_decide_false by naive_solver. lia. }
  destruct (p _ _ _ _) as [res|[e|k]]; simpl; [|destruct (next_countdown _); simpl|];
    unfold mark_sent, mark_failed, mark_exhausted; rewrite ?lookup_alter_ne by done; (split; [done|]); intros b; by apply Hl.
Qed.

Definition runs (js : list (Z * uuid)) (s : wstate) : wstate := fold_left (λ s nj, (run_once channels nj.1 nj.2 s).2) js s.

Lemma runs_tracked i js s : tracked i s → tracked i (runs js s).
Proof.
  revert s. induction js as [|[now j] js IH]; intros s Hs; [done|]. simpl. apply IH.
  destruct (decide (i = j)) as [<-|Hne]; [by apply run_tracked|].
  destruct (run_other now i j s Hne) as [Hrow Hcalls]. destruct Hs as (r & Hr & Hs). exists r. by rewrite Hrow, !Hcalls.
Qed.

Lemma runs_final i js s r : rows s !! i = Some r → final (status r) = true →
  rows (runs js s) !! i = Some r ∧ ∀ b, calls i b (sends (runs js s)) = calls i b (sends s).
Proof.
  intros Hr Hf. revert s Hr. induction js as [|[now j] js IH]; intros s Hr; [done|]. simpl.
  destruct (decide (i = j)) as [<-|Hne]; [rewrite (run_final now i r s) by done; by apply IH|].
  destruct (run_other now i j s Hne) as [Hrow Hcalls]. destruct (IH (run_once channels now j s).2) as [Hr' Hc']; [by rewrite Hrow|].
  split; [done|]. intros b. by rewrite Hc', Hcalls.
Qed.

(** The runs of a delivery that an exception other than [SendError] ended. *)
Fixpoint unread_runs (i : uuid) (js : list (Z * uuid)) (s : wstate) : Z :=
  match js with
  | [] => 0
  | (now, j) :: js' =>
      let '(o, s') := run_once channels now j s in
      (if bool_decide (j = i) && negb (is_ok o) then 1 else 0) + unread_runs i js' s'
  end.

Lemma run_unread now i r s : rows s !! i = Some r →
  calls i Unread (sends (run_once channels now i s).2) = calls i Unread (sends s) + if is_ok (run_once channels now i s).1 then 0 else 1.
Proof.
  intros Hr. destruct (final (status r)) eqn:Hf; [rewrite (run_final now i r s) by done; simpl; lia|].
  destruct (run_live now i r s Hr Hf) as (o & s' & -> & [e|l Hi _ Hv|l e cd Hi _ Hv|l e Hi _ Hv|l k p n Hi _ Hv]); cbn [fst snd sends is_ok];
    rewrite ?calls_snoc, ?Hv; [lia|rewrite bool_decide_false by (by intros []); lia..|by rewrite bool_decide_true].
Qed.

Lemma runs_unread i js s : tracked i s → calls i Unread (sends (runs js s)) = calls i Unread (sends s) + unread_runs i js s.
Proof.
  revert s. induction js as [|[now j] js IH]; intros s Hs; [simpl; lia|]. simpl.
  assert (Hn : tracked i (run_once channels now j s).2) by (apply (runs_tracked i [(now, j)] s Hs)).
  pose proof (IH _ Hn) as Hrec. destruct (decide (j = i)) as [->|Hne].
  - destruct Hs as (r & Hr & _). pose proof (run_unread now i r s Hr) as Hu. destruct (run_once channels now i s) as [o s']. simpl in *.
    rewrite bool_decide_true by done. rewrite Hrec, Hu. destruct (is_ok o); simpl; lia.
  - destruct (run_other now i j s (not_eq_sym Hne)) as [_ Hc]. destruct (run_once channels now j s) as [o s']. simpl in *.
    rewrite bool_decide_false by done. rewrite Hrec, Hc. simpl. lia.
Qed.

(** C34: delivery attempts are bounded.  Over any sequence of worker runs, each to its end before the next begins, in any
    order and at any times, a delivery's row keeps its shape, its attempt counter is the number of refused calls, the
    provider accepts at most one message and accepts or refuses at most six; the further calls are those whose answer
    ended the run with another exception, one for each such run, and leave the row as it was.  Once
    the row is SENT or EXHAUSTED neither the row nor the calls made for it change again. *)
Theorem delivery_attempts_bounded (i : uuid) (js js' : list (Z * uuid)) (s : wstate) (Hs : tracked i s) :
  ∃ r, rows (runs js s) !! i = Some r ∧ row_ok r ∧
    calls i Refused (sends (runs js s)) = attempts r ∧
    calls i Accepted (sends (runs js s)) ≤ 1 ∧ calls i Refused (sends (runs js s)) + calls i Accepted (sends (runs js s)) ≤ 6 ∧
    calls i Unread (sends (runs js s)) = calls i Unread (sends s) + unread_runs i js s ∧
    (final (status r) = true → rows (runs js' (runs js s)) !! i = Some r ∧
       ∀ v, calls i v (sends (runs js' (runs js s))) = calls i v (sends (runs js s))).
Proof.
  destruct (runs_tracked i js s Hs) as (r & Hr & Hok & Hf & Ha). exists r. rewrite Hf, Ha.
  split_and!; [done|done|done|by case_bool_decide| |by apply runs_unread|].
  - destruct Hok as [(-> & ->  & _)|[(-> & ? & _)|[(-> & ? & _)|(-> & ? & _)]]]; simpl; lia.
  - intros Hfin. by apply runs_final.
Qed.

(** ** A task runs to an end *)

(** The times of the attempts that remain, from the first at [now]. *)
Fixpoint attempt_times (now : Z) (sched : list Z) : list Z :=
  now :: match sched with [] => [] | c :: sched' => attempt_times (now + c * usec) sched' end.

(** A provider of the delivery's channel raised [k], which is no [SendError]. *)
Definition escaped (r : DeliveryRow) (k : pyerr) : Prop := ∃ p n,
  for_channel channels (channel r) = Some p ∧ p n (recipient r) (p_body (payload r)) (p_subject (payload r)) = Raise (Escapes k).

(** How a task ends: with the row final, or with the exception of its last call and the row still live. *)
Definition settled (i : uuid) (r0 : DeliveryRow) (e : task_end) (s : wstate) : Prop :=
  ∃ r, rows s !! i = Some r ∧
    (final (status r) = true ∧ e = Done (status r) ∨
     final (status r) = false ∧ ∃ k, e = TaskFailed k ∧ escaped r0 k ∧ l_verdict <$> last (sends s) = Some Unread).

Lemma one_attempt sched l ls : (l_time <$> ls ++ [l]) = (l_time <$> ls) ++ take 1 (attempt_times (l_time l) sched).
Proof. rewrite fmap_app. by destruct sched. Qed.

Lemma deliver_from left now i r s : rows s !! i = Some r → final (status r) = false →
  attempts r + Z.of_nat left = 5 → 0 ≤ attempts r →
  let '(e, s') := deliver channels left now i s in settled i r e s' ∧
  ∃ k, (k ≤ S left)%nat ∧ (l_time <$> sends s') =
    (l_time <$> sends s) ++ take k (attempt_times now (drop (Z.to_nat (attempts r)) BACKOFF_SCHEDULE_SECONDS)) ∧
  (e = Done EXHAUSTED → for_channel channels (channel r) ≠ None → k = S left).
Proof.
  revert now r s. induction left as [|left IH]; intros now r s Hr Hf Hn H0;
    destruct (run_live now i r s Hr Hf) as (o & s' & Hrun & Hran); simpl; rewrite Hrun;
    (destruct Hran as [e Hc|l Hi Ht Hacc|l e cd Hi Ht Hacc Hcd|l e Hi Ht Hacc Hcd|l k p n Hi Ht Hacc Hc Hp]; cbn [should_retry countdown o_status]);
    unfold settled, mark_sent, mark_failed, mark_exhausted; cbn [rows sends];
    try (split; [eexists; split; [by rewrite lookup_alter_eq, Hr|by left]|]).
  all: try (split; [exists r; split; [done|]; right; split; [done|]; exists k; split_and!;
    [done|by exists p, n|by rewrite last_snoc; simpl; rewrite Hacc]|]).
  all: try (exists 0%nat; cbn [take]; rewrite app_nil_r; split_and!; [lia|done|by intros _ []]).
  all: try (exists 1%nat; rewrite <- Ht, <- one_attempt; split_and!; [lia|done|by (done || intros [=])]).
  all: destruct (next_countdown_cases (attempts r + 1)) as [(? & cd' & Hcd' & Hl)|(? & Hcd')]; try lia; rewrite Hcd in Hcd'; simplify_eq.
  replace (attempts r + 1 - 1) with (attempts r) in Hl by lia.
  specialize (IH (l_time l + cd' * usec) (set_row FAILED (attempts r + 1) (Some e) (Some (l_time l + cd' * usec)) (delivered_at r) r)
    (mkW (alter (λ r0, set_row FAILED (attempts r + 1) (Some e) (Some (l_time l + cd' * usec)) (delivered_at r0) r0) (l_id l) (rows s)) (sends s ++ [l]))).
  destruct (deliver _ _ _ _ _) as [e' s'']. destruct IH as [Hset (k & Hk & Htimes & Hex)]; simpl; [by rewrite lookup_alter_eq, Hr|done|lia|lia|].
  split; [exact Hset|]. exists (S k). split; [lia|]. split; [|intros; f_equal; by apply Hex]. rewrite Htimes. simpl.
  rewrite fmap_app, <- app_assoc. f_equal. rewrite (drop_S _ _ _ Hl). cbn [attempt_times take].
  replace (Z.to_nat (attempts r + 1)) with (S (Z.to_nat (attempts r))) by lia. done.
Qed.

(** C30: the task of a delivery ends, on schedule.  The task of a queued delivery, with Celery's limit of
    five retries, never exceeds that limit.  It ends with the row SENT, or with the row EXHAUSTED, or, when the provider
    of the channel raised something else than a [SendError], with that exception at its last call and the row still
    QUEUED or FAILED.  Its calls are made at the start and then 30 s, 2 min, 10 min, 1 h and
    6 h after one another, stopping at the first accepted one; and it gives up only after all
    six (or at once when the channel has no provider). *)
Theorem delivery_settles (now : Z) (i : uuid) (r : DeliveryRow) (s : wstate)
    (Hr : rows s !! i = Some r) (Hq : status r = QUEUED) (Ha : attempts r = 0) :
  let '(e, s') := deliver channels (Z.to_nat MAX_RETRIES) now i s in
  ∃ r' k, rows s' !! i = Some r' ∧
    (e = Done SENT ∧ status r' = SENT ∨ e = Done EXHAUSTED ∧ status r' = EXHAUSTED ∨
     (∃ x, e = TaskFailed x ∧ escaped r x) ∧ final (status r') = false ∧ l_verdict <$> last (sends s') = Some Unread) ∧
    (l_time <$> sends s') = (l_time <$> sends s) ++ take k (attempt_times now BACKOFF_SCHEDULE_SECONDS) ∧
    (k ≤ 6)%nat ∧ (e = Done EXHAUSTED → for_channel channels (channel r) ≠ None → k = 6%nat).
Proof.
  pose proof (deliver_from 5 now i r s Hr ltac:(by rewrite Hq) ltac:(by rewrite Ha) ltac:(by rewrite Ha)) as Hd.
  change (Z.to_nat MAX_RETRIES) with 5%nat. destruct (deliver _ _ _ _ _) as [e s']. rewrite Ha in Hd.
  destruct Hd as [(r' & Hr' & Hend) (k & Hk & Ht & Hex)]. exists r', k. split_and!; try done.
  destruct Hend as [[Hf ->]|(Hf & x & -> & Hx & Hv)]; [|right; right; eauto].
  unfold final in Hf. apply orb_true_iff in Hf as [H|H]; apply bool_decide_eq_true in H as ->; auto.
Qed.
End lifecycle.

(** ** Two workers on one delivery *)

Lemma run_finish_sends now rec r s : sends (run_finish now rec r s).2 = sends s.
Proof. unfold run_finish. destruct r as [?|[?|?]]; [done| |done]. by destruct (next_countdown _). Qed.

(** the worker's read and its write are not protected against each other.  When two
    workers hold the same delivery (the task is acknowledged late, so the broker may hand it out
    again), one has its message accepted and marks the row SENT, and the other is refused, the
    second write turns the SENT row back into FAILED with a retry scheduled, and that retry calls
    the provider again for a message that was already delivered. *)
Theorem concurrent_run_undoes_sent (channels : ChannelRegistry) (i : uuid) (r : DeliveryRow) (p : Provider) (s : wstate) (t1 t2 t3 : Z)
    (res : SendResult) (e : string)
    (Hr : rows s !! i = Some r) (Hlive : final (status r) = false) (Hatt : 0 ≤ attempts r < 5) (Hp : for_channel channels (channel r) = Some p)
    (Hok : p (length (sends s)) (recipient r) (p_body (payload r)) (p_subject (payload r)) = Ok res)
    (Hno : p (S (length (sends s))) (recipient r) (p_body (payload r)) (p_subject (payload r)) = Raise (SendError e)) :
  let '(s1, a) := run_begin channels i s in
  let '(s2, b) := run_begin channels i s1 in
  ∃ rec, a = inr (rec, p) ∧ b = inr (rec, p) ∧
    let '(ra, s3) := run_send t1 rec p s2 in
    let '(oa, s4) := run_finish t1 rec ra s3 in
    let '(rb, s5) := run_send t2 rec p s4 in
    let '(ob, s6) := run_finish t2 rec rb s5 in
    (status <$> rows s4 !! i) = Some SENT ∧ (status <$> rows s6 !! i) = Some FAILED ∧
    (∃ o, ob = Ok o ∧ should_retry o = true) ∧
    length (sends (run_once channels t3 i s6).2) = (length (sends s) + 3)%nat.
Proof.
  assert (Hb : run_begin channels i s = (s, inr (mkRec i (channel r) (recipient r) (status r) (attempts r) (p_body (payload r)) (p_subject (payload r)), p))).
  { unfold run_begin, get. rewrite Hr. simpl. unfold final in Hlive. by rewrite Hlive, Hp. }
  rewrite Hb, Hb. eexists. split_and!; [done|done|]. unfold run_send. cbn [rec_recipient rec_body rec_subject]. rewrite Hok. cbn [run_finish].
  cbn [sends rec_recipient rec_body rec_subject rec_id rec_attempts]. rewrite length_app, Nat.add_1_r, Hno. cbn [run_finish rec_id rec_attempts].
  destruct (next_countdown_cases (attempts r + 1)) as [(_ & cd & Hcd & _)|(? & _)]; [lia| |lia]. rewrite Hcd.
  unfold mark_sent, mark_failed. cbn [rows sends]. split_and!; try (by rewrite ?lookup_alter_eq, Hr); [by eexists|].
  unfold run_once, run_begin, get. cbn [rows]. rewrite !lookup_alter_eq, Hr. cbn [fmap option_fmap option_map].
  cbn [set_row channel status rec_status rec_channel]. rewrite !bool_decide_false by done. cbn [orb]. rewrite Hp. unfold run_send.
  rewrite run_finish_sends. cbn [sends]. rewrite !length_app. simpl. lia.
Qed.

(** ** Providers *)

Lemma console_no_escape sha ch fail n to b su k : ConsoleProvider sha ch fail n to b su ≠ Raise (Escapes k).
Proof. unfold ConsoleProvider. by case_bool_decide. Qed.

Lemma sendgrid_no_escape v n to b su k : SendGridEmailProvider v n to b su ≠ Raise (Escapes k).
Proof. unfold SendGridEmailProvider. destruct (v n); [done|]. by destruct (400 <=? _). Qed.

(** An answer of the SMS vendor whose recipients are not a list fails the task although the
    message was accepted. *)
Lemma sms_bad_recipients : sms_ref (Some (JObj [("SMSMessageData", JObj [("Recipients", JInt 1)])])) = Raise TypeError.
Proof. done. Qed.

(** Only the SMS vendor's provider raises something else than a [SendError]. *)
Lemma built_escape sha sv ev cs r k : escaped (build_channel_registry sha sv ev cs) r k → channel r = "sms" ∧ sms_provider cs = "http".
Proof.
  intros (p & n & Hp & He). revert Hp. unfold for_channel, build_channel_registry. simpl. case_bool_decide as Hc; [|case_bool_decide; [|done]].
  - case_bool_decide as Hs; simpl; [|intros [= <-]; by apply console_no_escape in He]. intros _. done.
  - intros [= <-]. exfalso. destruct (_ && _); [by apply sendgrid_no_escape in He|by apply console_no_escape in He].
Qed.

(** ** Concrete runs *)

Definition demo_settings : ChannelSettings := mkCS "console" "http" "+254700, +2541" false true.
Definition demo_vendor (n : nat) : reply := if (n <? 1)%nat then HttpReply 202 (Some "m") None else HttpError "down".
Definition demo_channels : ChannelRegistry := build_channel_registry id demo_vendor demo_vendor demo_settings.
Definition demo_row (ch to : string) : DeliveryRow := mkRow ch to "payment.failed" (mkPayload "b" None "k" []) QUEUED 0 None None None.
Definition demo_state (ch to : string) : wstate := mkW {[1%N := demo_row ch to]} [].

Lemma delivery_attempts_bounded_witness :
  let js := (λ n, (Z.of_nat n, 1%N)) <$> seq 0 9 in
  length (sends (runs demo_channels js (demo_state "sms" "+2541"))) = 6%nat ∧
  ∃ r, rows (runs demo_channels js (demo_state "sms" "+2541")) !! 1%N = Some r ∧ row_ok r.
Proof.
  intros js. split; [by vm_compute|].
  destruct (delivery_attempts_bounded demo_channels 1 js [] (demo_state "sms" "+2541"))
    as (r & Hr & Hok & _); [|exact (ex_intro _ r (conj Hr Hok))].
  exists (demo_row "sms" "+2541"). split_and!; try done. left. done.
Defined.

Lemma delivery_settles_witness :
  ∃ r k, rows (deliver demo_channels (Z.to_nat MAX_RETRIES) 0 1 (demo_state "sms" "+2541")).2 !! 1%N = Some r ∧ status r = EXHAUSTED ∧
  (l_time <$> sends (deliver demo_channels (Z.to_nat MAX_RETRIES) 0 1 (demo_state "sms" "+2541")).2) =
    take k [0; 30000000; 150000000; 750000000; 4350000000; 25950000000].
Proof.
  pose proof (delivery_settles demo_channels 0 1 (demo_row "sms" "+2541")
    (demo_state "sms" "+2541") eq_refl eq_refl eq_refl) as H.
  destruct (deliver _ _ _ _ _) as [e s'] eqn:E. vm_compute in E. injection E as <- <-. destruct H as (r & k & Hr & Hst & Ht & _).
  exists r, k. split; [done|]. split; [|done]. by destruct Hst as [[? _]|[[_ ?]|((x & ? & _) & _)]].
Defined.

Lemma concurrent_run_undoes_sent_witness :
  let '(s1, a) := run_begin demo_channels 1 (demo_state "email" "a@b") in
  let '(s2, b) := run_begin demo_channels 1 s1 in
  ∃ rec, a = inr (rec, SendGridEmailProvider demo_vendor) ∧ b = inr (rec, SendGridEmailProvider demo_vendor) ∧
    let '(ra, s3) := run_send 1 rec (SendGridEmailProvider demo_vendor) s2 in
    let '(oa, s4) := run_finish 1 rec ra s3 in
    let '(rb, s5) := run_send 2 rec (SendGridEmailProvider demo_vendor) s4 in
    let '(ob, s6) := run_finish 2 rec rb s5 in
    (status <$> rows s4 !! 1%N) = Some SENT ∧ (status <$> rows s6 !! 1%N) = Some FAILED ∧
    (∃ o, ob = Ok o ∧ should_retry o = true) ∧
    length (sends (run_once demo_channels 3 1 s6).2) = 3%nat.
Proof.
  apply (concurrent_run_undoes_sent demo_channels 1 (demo_row "email" "a@b") (SendGridEmailProvider demo_vendor) (demo_state "email" "a@b") 1 2 3
    (mkResult "http" "m") "http send failed (status=None) down"); try reflexivity. split; [done|]. by vm_compute.
Defined.
End Delivery.
