(* ===== verification/Notify.v ===== *)
(** * notification-service: preferences, inbox and the intake of events

    [app/domain/] (preferences and the fan-out of an event), [app/templating/registry.py],
    [app/recipients/], [app/events/consumer.py], the async half of [app/db/repository.py],
    and the routes of [app/api/v1/].  A session reads and writes [ndb]; what it hands to
    Celery is [enqueued].  Other sessions may commit between the lookup of a delivery and
    its insertion: [between] is what they commit there. *)
From S2P Require Import Prelude PyText PyJson PyNum Fingerprint UnitOfWork Tables Paging Idempotency Chain Templating Delivery.
From Stdlib Require Import Ascii.

Module Notify.
Import PyNum Delivery.
Open Scope Z_scope.

(** ** errors.py *)

Inductive ErrorCode :=
| INVALID_PAYLOAD | INVALID_QUERY | IDEMPOTENT_CONFLICT | DELIVERY_NOT_FOUND | NOTIFICATION_NOT_FOUND
| TEMPLATE_NOT_FOUND | UNAUTHORIZED | INTERNAL_ERROR.

Definition _HTTP_STATUS (c : ErrorCode) : Z :=
  match c with
  | INVALID_PAYLOAD | INVALID_QUERY => 400
  | IDEMPOTENT_CONFLICT => 409
  | DELIVERY_NOT_FOUND | NOTIFICATION_NOT_FOUND => 404
  | TEMPLATE_NOT_FOUND => 422
  | UNAUTHORIZED => 401
  | INTERNAL_ERROR => 500
  end.

(** ** domain/preferences.py *)

Definition PREF_CHANNELS : list string := ["in_app"; "email"; "sms"].
Definition PREF_EVENTS : list string := ["paylink.created"; "paylink.verified"; "paylink.cancelled"; "payment.failed"].

Record Preferences := mkPrefs { pf_channels : gmap string bool; pf_events : gmap string bool }.

Definition allows (p : Preferences) (event_kind ch : string) : bool :=
  default true (pf_events p !! event_kind) && default true (pf_channels p !! ch).

Definition all_on (ks : list string) : gmap string bool := list_to_map ((λ k, (k, true)) <$> ks).

Definition default_preferences : Preferences := mkPrefs (all_on PREF_CHANNELS) (all_on PREF_EVENTS).

(** A stored map is JSON. *)
Definition _clean (values : option (gmap string json)) (allowed : list string) : gmap string bool :=
  jtruthy <$> filter (λ kv, kv.1 ∈ allowed) (default ∅ values).

Definition merge_preferences (chs evs : option (gmap string json)) : Preferences :=
  mkPrefs (_clean chs PREF_CHANNELS ∪ pf_channels default_preferences) (_clean evs PREF_EVENTS ∪ pf_events default_preferences).

(** ** db/models.py *)

Record InboxNotificationRow := mkInbox {
  recipient_addr : string; kind : string; title : string; ib_body : option string; href : option string;
  ib_event : string; dedupe_key : string; read : bool; created_at : Z; read_at : option Z }.

Record NotificationPreferenceRow := mkPref { pr_channels : gmap string json; pr_events : gmap string json; updated_at : Z }.

Record TemplateRow := mkTemplate { template_id : string; t_channel : string; locale : string; t_body : string; active : bool }.

(** The preferences are keyed by their unique [recipient_addr]. *)
Record ndb := mkNdb {
  deliveries : gmap uuid DeliveryRow; inbox : gmap uuid InboxNotificationRow;
  preferences : gmap string NotificationPreferenceRow; templates : list TemplateRow }.

Record nworld := mkNw { enqueued : list uuid }.

Notation H := (handler ndb nworld ErrorCode).

Definition with_deliveries (f : gmap uuid DeliveryRow → gmap uuid DeliveryRow) (d : ndb) : ndb :=
  mkNdb (f (deliveries d)) (inbox d) (preferences d) (templates d).
Definition with_inbox (f : gmap uuid InboxNotificationRow → gmap uuid InboxNotificationRow) (d : ndb) : ndb :=
  mkNdb (deliveries d) (f (inbox d)) (preferences d) (templates d).
Definition with_prefs (f : gmap string NotificationPreferenceRow → gmap string NotificationPreferenceRow) (d : ndb) : ndb :=
  mkNdb (deliveries d) (inbox d) (f (preferences d)) (templates d).

(** ** db/repository.py, NotifyRepository *)

(** [LIMIT 1] on a column the schema makes unique. *)
Definition find_by {A} (P : A → Prop) `{∀ a, Decision (P a)} (m : gmap uuid A) : option (uuid * A) :=
  head (filter (λ kv, P kv.2) (map_to_list m)).

Definition find_delivery_by_dedupe (k : string) (d : ndb) : option (uuid * DeliveryRow) :=
  find_by (λ r, p_dedupe_key (payload r) = k) (deliveries d).

Definition find_inbox_by_dedupe (k : string) (d : ndb) : option (uuid * InboxNotificationRow) :=
  find_by (λ r, dedupe_key r = k) (inbox d).

(** A savepoint: a conflict on the primary key or on the dedupe index leaves the
    session as it was. *)
Definition insert_delivery (i : uuid) (row : DeliveryRow) : H bool :=
  conflict ← query (λ d : ndb, bool_decide (is_Some (deliveries d !! i)) || bool_decide (is_Some (find_delivery_by_dedupe (p_dedupe_key (payload row)) d)));
  if (conflict : bool) then mret false else (write (with_deliveries <[i := row]>) ;; mret true).

Definition insert_inbox (i : uuid) (row : InboxNotificationRow) : H bool :=
  conflict ← query (λ d : ndb, bool_decide (is_Some (inbox d !! i)) || bool_decide (is_Some (find_inbox_by_dedupe (dedupe_key row) d)));
  if (conflict : bool) then mret false else (write (with_inbox <[i := row]>) ;; mret true).

Definition list_active_templates_for_event (event_kind : string) (d : ndb) : list TemplateRow :=
  filter (λ t, active t = true ∧ Templating.template_matches event_kind (template_id t) = true) (templates d).

Definition get_preferences (addr : string) (d : ndb) : option NotificationPreferenceRow := preferences d !! lower addr.

Definition upsert_preferences (now : Z) (addr : string) (chs evs : gmap string bool) : H NotificationPreferenceRow :=
  let row := mkPref (JBool <$> chs) (JBool <$> evs) now in
  write (with_prefs <[lower addr := row]>) ;; commit ;; mret row.

Definition mark_inbox_read (now : Z) (addr : string) (i : uuid) : H (option InboxNotificationRow) :=
  found ← query (λ d : ndb, inbox d !! i);
  match found with
  | None => mret None
  | Some row =>
      if negb (bool_decide (recipient_addr row = lower addr)) then mret None
      else
        let row' := if read row then row
                    else mkInbox (recipient_addr row) (kind row) (title row) (ib_body row) (href row) (ib_event row) (dedupe_key row)
                           true (created_at row) (Some now) in
        write (with_inbox <[i := row']>) ;; commit ;; mret (Some row')
  end.

(** The rows [mark_all_inbox_read] updates. *)
Definition unread_of (addr : string) (row : InboxNotificationRow) : Prop := recipient_addr row = lower addr ∧ read row = false.

#[global] Instance unread_of_dec addr row : Decision (unread_of addr row).
Proof. unfold unread_of. apply _. Defined.

Definition set_read (now : Z) (row : InboxNotificationRow) : InboxNotificationRow :=
  mkInbox (recipient_addr row) (kind row) (title row) (ib_body row) (href row) (ib_event row) (dedupe_key row) true (created_at row) (Some now).

Definition mark_all_inbox_read (now : Z) (addr : string) : H Z :=
  n ← query (λ d : ndb, Z.of_nat (size (filter (λ kv, unread_of addr kv.2) (inbox d))));
  write (with_inbox (fmap (λ row, if decide (unread_of addr row) then set_read now row else row))) ;;
  commit ;; mret n.

(** ** recipients/ *)

Record Recipient := mkRecipient { r_phone : option string; r_email : option string; r_locale : option string }.

Definition address_for (r : Recipient) (c : Channel) : option string := match c with SMS => r_phone r | EMAIL => r_email r end.

Definition contact : Type := list (string * json).

Definition contact_field (k : string) (c : contact) : option string :=
  match Chain.jfind k c with Some j => if jtruthy j then Some (py_str j) else None | None => None end.

Definition InlineRecipientResolver (u : uuid) (c : option contact) : Recipient :=
  let c := default [] c in mkRecipient (contact_field "phone" c) (contact_field "email" c) (contact_field "locale" c).

(** The answer of identity-service: none for a transport error or a status of 400 or more. *)
Definition IdentityRecipientResolver (lookup : uuid → option Recipient) (u : uuid) (c : option contact) : Recipient :=
  default (mkRecipient None None None) (lookup u).

(** ** templating/registry.py *)

Definition DEFAULT_LOCALE : string := "en".

Definition EMAIL_SUBJECTS (event_kind : string) : option string :=
  if bool_decide (event_kind = "paylink.verified") then Some "Your PayLink is verified"
  else if bool_decide (event_kind = "payment.failed") then Some "Your payment could not be completed"
  else None.

(** [by_channel[channel][locale]]: a later row replaces an earlier one. *)
Definition chosen (rs : list TemplateRow) (c : Channel) (l : string) : option TemplateRow :=
  last (filter (λ t, t_channel t = Channel_value c ∧ locale t = l) rs).

Definition resolve_for_event (rs : list TemplateRow) (l : option string) : list (Channel * TemplateRow) :=
  omap (λ c, (λ t, (c, t)) <$> match chosen rs c (str_or l DEFAULT_LOCALE) with Some t => Some t | None => chosen rs c DEFAULT_LOCALE end)
    [SMS; EMAIL].

Definition subject_for (event_kind : string) (data : list (string * json)) : string :=
  Templating.render (default "LinkMint notification" (EMAIL_SUBJECTS event_kind)) data.

(** ** domain/service.py *)

Definition _INBOX_KIND (event_kind : string) : option string :=
  if bool_decide (event_kind = "paylink.created") then Some "info"
  else if bool_decide (event_kind = "paylink.verified") then Some "success"
  else if bool_decide (event_kind = "paylink.cancelled") then Some "warning"
  else if bool_decide (event_kind = "payment.failed") then Some "error"
  else None.

Definition dget (k : string) (data : list (string * json)) : json := default JNull (Chain.jfind k data).
Definition j_or (a b : json) : json := if jtruthy a then a else b.

Definition _inbox_presentation (event_kind : string) (data : list (string * json)) : string * string * string :=
  let k := default "info" (_INBOX_KIND event_kind) in
  let pl := py_str (j_or (dget "pl_id" data) (j_or (dget "paylink_id" data) (JStr ""))) in
  let currency := py_str (j_or (dget "currency" data) (JStr "")) in
  let amt := match dget "amount" data with JNull => "" | a => strip (py_str a +:+ " " +:+ currency) end in
  if bool_decide (event_kind = "paylink.created") then
    (k, "PayLink created", if truthy amt then "PayLink " +:+ pl +:+ " for " +:+ amt +:+ " is ready to share." else "PayLink " +:+ pl +:+ " created.")
  else if bool_decide (event_kind = "paylink.verified") then
    (k, "PayLink settled", if truthy amt then "PayLink " +:+ pl +:+ " for " +:+ amt +:+ " was verified on-chain." else "PayLink " +:+ pl +:+ " verified.")
  else if bool_decide (event_kind = "paylink.cancelled") then (k, "PayLink cancelled", "PayLink " +:+ pl +:+ " was cancelled.")
  else if bool_decide (event_kind = "payment.failed") then
    let reason := py_str (j_or (dget "reason" data) (JStr "unknown reason")) in
    (k, "Payment failed", if truthy amt then "A payment of " +:+ amt +:+ " failed: " +:+ reason +:+ "." else "A payment failed: " +:+ reason +:+ ".")
  else (k, event_kind, "").

(** The text of an optional column: [a or b or None]. *)
Definition or_none (a : option string) (b : string) : option string :=
  if otruthy a then a else if truthy b then Some b else None.

Section service.
Variable sha256_hex : string → string.
Variable resolve : uuid → option contact → Recipient.
(** What other sessions commit between the lookup of a channel's delivery and its insertion. *)
Variable between : Channel → ndb → ndb.
(** Whether the broker takes the task of a delivery; a refusal is logged ([_enqueue] of main.py). *)
Variable broker : uuid → bool.

Definition _enqueue (i : uuid) : H unit :=
  if broker i then effect (λ x, mkNw (enqueued x ++ [i])) else mret tt.

Definition others (f : ndb → ndb) : H unit := λ w, (Ok tt, Uow (f (db w)) (f (tx w)) (ext w)).

Definition dedupe_base (data : list (string * json)) : string :=
  let id := dget "dedupe_id" data in if jtruthy id then py_str id else Fingerprint.fingerprint sha256_hex (JObj data).

Definition _dedupe_key (event_kind : string) (u : uuid) (c : Channel) (data : list (string * json)) : string :=
  sha256_hex (event_kind +:+ "|" +:+ uuid_text u +:+ "|" +:+ Channel_value c +:+ "|" +:+ dedupe_base data).

Definition inbox_key (event_kind addr : string) (data : list (string * json)) : string :=
  sha256_hex ("inbox|" +:+ event_kind +:+ "|" +:+ lower addr +:+ "|" +:+ dedupe_base data).

(** [data] is a dict or [.get] fails. *)
Definition dict_of (j : json) : outcome (exn ErrorCode) (list (string * json)) :=
  match j with JObj o => Ok o | _ => Raise (PyError AttributeError) end.

(** The fresh identifiers of an intake. *)
Record fresh := mkFresh { f_inbox : uuid; f_delivery : Channel → uuid }.

Definition _write_inbox (now : Z) (f : fresh) (event_kind addr : string) (data : json) (ttl bdy hrf : option string) : H (option uuid) :=
  o ← lift (dict_of data);
  let '(k, default_title, default_body) := _inbox_presentation event_kind o in
  let key := inbox_key event_kind addr o in
  inserted ← insert_inbox (f_inbox f) (mkInbox (lower addr) k (str_or ttl default_title) (or_none bdy default_body) hrf event_kind key false now None);
  if (inserted : bool) then mret (Some (f_inbox f))
  else (existing ← query (find_inbox_by_dedupe key); mret (fst <$> existing)).

Record Intake := mkIntake {
  in_data : json; in_user : option uuid; in_addr : option string; in_locale : option string; in_contact : option contact;
  in_title : option string; in_body : option string; in_href : option string }.

(** One channel of the fan-out: the delivery it stands for, and whether it is new. *)
Definition one_channel (f : fresh) (event_kind : string) (u : uuid) (data : json) (p : Preferences) (r : Recipient)
    (c : Channel) (t : TemplateRow) : H (option (uuid * bool)) :=
  if negb (allows p event_kind (Channel_value c)) then mret None
  else match address_for r c with
  | None => mret None
  | Some address =>
      if negb (truthy address) then mret None
      else
        o ← lift (dict_of data);
        let key := _dedupe_key event_kind u c o in
        existing ← query (find_delivery_by_dedupe key);
        match existing with
        | Some (i, _) => mret (Some (i, false))
        | None =>
            others (between c) ;;
            let subject := if decide (c = EMAIL) then Some (subject_for event_kind o) else None in
            let row := mkRow (Channel_value c) address event_kind
              (mkPayload (Templating.render (t_body t) o) subject key (Templating.safe_data_keys o)) QUEUED 0 None None None in
            inserted ← insert_delivery (f_delivery f c) row;
            if (inserted : bool) then mret (Some (f_delivery f c, true))
            else (winner ← query (find_delivery_by_dedupe key); mret ((λ kv, (kv.1, false)) <$> winner))
        end
  end.

(** The loop: the deliveries created or found, and the new ones to enqueue. *)
Fixpoint fan_out (f : fresh) (event_kind : string) (u : uuid) (data : json) (p : Preferences) (r : Recipient)
    (l : list (Channel * TemplateRow)) : H (list uuid * list uuid) :=
  match l with
  | [] => mret ([], [])
  | (c, t) :: l' =>
      one ← one_channel f event_kind u data p r c t;
      rest ← fan_out f event_kind u data p r l';
      mret (match one with
            | Some (i, true) => (i :: rest.1, i :: rest.2)
            | Some (i, false) => (i :: rest.1, rest.2)
            | None => rest
            end)
  end.

Definition effective (q : Intake) (d : ndb) : Preferences :=
  match in_addr q with
  | Some a => if truthy a then match get_preferences a d with
                               | Some row => merge_preferences (Some (pr_channels row)) (Some (pr_events row))
                               | None => default_preferences
                               end else default_preferences
  | None => default_preferences
  end.

(** The inbox half of [intake]. *)
Definition inbox_part (now : Z) (f : fresh) (event_kind : string) (pf : Preferences) (q : Intake) : H (list uuid) :=
  match in_addr q with
  | Some a =>
      if truthy a && allows pf event_kind "in_app" then
        (i ← _write_inbox now f event_kind a (in_data q) (in_title q) (in_body q) (in_href q);
         mret (match i with Some i => [i] | None => [] end))
      else mret []
  | None => mret []
  end.

Definition intake (now : Z) (f : fresh) (event_kind : string) (q : Intake) : H (list uuid) :=
  prefs ← query (effective q);
  created ← inbox_part now f event_kind prefs q;
  match in_user q with
  | None => commit ;; mret created
  | Some u =>
      let r := resolve u (in_contact q) in
      ts ← query (λ d : ndb, resolve_for_event (list_active_templates_for_event event_kind d)
             (if otruthy (in_locale q) then in_locale q else r_locale r));
      if bool_decide (length ts = 0%nat) then raise TEMPLATE_NOT_FOUND
      else
        out ← fan_out f event_kind u (in_data q) prefs r ts;
        commit ;;
        for_each out.2 _enqueue ;;
        mret (created ++ out.1)
  end.

(** ** events/consumer.py *)

Definition KNOWN_EVENTS : list string := ["paylink.created"; "paylink.verified"; "paylink.cancelled"; "payment.failed"].

(** The members of an event payload that [handle] reads. *)
Record EventPayload := mkEvent {
  e_user_id : json; e_recipient_addr : json; e_data : json; e_locale : option string; e_contact : option contact;
  e_title : option string; e_body : option string; e_href : option string }.

Definition handle (now : Z) (f : fresh) (name : string) (p : EventPayload) : H (list uuid) :=
  if negb (bool_decide (name ∈ KNOWN_EVENTS)) then mret []
  else
    let user := if jtruthy (e_user_id p) then parse_uuid (py_str (e_user_id p)) else None in
    let addr := match e_recipient_addr p with JStr a => if truthy a then Some a else None | _ => None end in
    if bool_decide (addr = None ∧ user = None) then mret []
    else intake now f name (mkIntake (j_or (e_data p) (JObj [])) user addr (e_locale p) (e_contact p) (e_title p) (e_body p) (e_href p)).
End service.

(** ** deps.py *)

Definition caller_address (x_creator_addr dev_creator_addr : option string) : H string :=
  let addr := if otruthy x_creator_addr then x_creator_addr else dev_creator_addr in
  match addr with
  | Some a => if truthy a then mret (lower a) else raise UNAUTHORIZED
  | None => raise UNAUTHORIZED
  end.

Definition internal_gate (secret token : option string) : H unit :=
  match secret with
  | None => mret tt
  | Some expected => if otruthy token && bool_decide (token = Some expected) then mret tt else raise UNAUTHORIZED
  end.

(** ** api/v1/inbox.py and the listing of the repository *)

(** [_encode_inbox_cursor] and [_decode_inbox_cursor]: a cursor gives back the timestamp and the
    id it was made of ([isoformat]/[fromisoformat] and base64 are inverse); a malformed one is no
    cursor. *)
Class InboxCursor := {
  _encode_inbox_cursor : Z * uuid → string;
  _decode_inbox_cursor : string → option (Z * uuid);
  decode_encode_inbox c : _decode_inbox_cursor (_encode_inbox_cursor c) = Some c;
  encode_inbox_truthy c : truthy (_encode_inbox_cursor c) = true }.

(** [ORDER BY created_at DESC, notification_id DESC] *)
Definition inbox_lt (a b : Z * uuid) : Prop := a.1 < b.1 ∨ (a.1 = b.1 ∧ (a.2 < b.2)%N).

#[global] Instance inbox_lt_dec : RelDecision inbox_lt.
Proof. intros a b. unfold inbox_lt. apply _. Defined.

Definition inbox_sort_key (kv : uuid * InboxNotificationRow) : Z * uuid := (created_at kv.2, kv.1).

Definition owned (addr : string) (d : ndb) : list (uuid * InboxNotificationRow) :=
  filter (λ kv, recipient_addr kv.2 = lower addr) (map_to_list (inbox d)).

Section inbox_api.
Context `{!InboxCursor}.

Definition list_inbox (addr : string) (limit : nat) (cursor : option string) (d : ndb) :
    list (uuid * InboxNotificationRow) * option string :=
  let c := if otruthy cursor then cursor ≫= _decode_inbox_cursor else None in
  let '(rs, next) := page inbox_sort_key inbox_lt limit c (owned addr d) in (rs, _encode_inbox_cursor <$> next).

Definition list_notifications (header dev : option string) (limit : Z) (cursor : option string) :
    H (list (uuid * InboxNotificationRow) * option string) :=
  caller ← caller_address header dev;
  if negb ((1 <=? limit) && (limit <=? 100)) then raise INVALID_PAYLOAD
  else query (list_inbox caller (Z.to_nat limit) cursor).
End inbox_api.

Definition mark_read (now : Z) (header dev : option string) (i : uuid) : H InboxNotificationRow :=
  caller ← caller_address header dev;
  row ← mark_inbox_read now caller i;
  match row with Some r => mret r | None => raise NOTIFICATION_NOT_FOUND end.

Definition mark_all_read (now : Z) (header dev : option string) : H Z :=
  caller ← caller_address header dev; mark_all_inbox_read now caller.

(** ** api/v1/preferences.py *)

Definition get_preferences_route (header dev : option string) : H (Preferences * option Z) :=
  caller ← caller_address header dev;
  row ← query (get_preferences caller);
  mret (match row with
        | None => (merge_preferences None None, None)
        | Some r => (merge_preferences (Some (pr_channels r)) (Some (pr_events r)), Some (updated_at r))
        end).

(** [UpdatePreferencesRequest] *)
Record PreferencesPatch := mkPatch { u_channels : option (gmap string bool); u_events : option (gmap string bool) }.

(** [{**base, **(patch or {})}] *)
Definition overlay (base : gmap string json) (patch : option (gmap string bool)) : gmap string json :=
  (JBool <$> default ∅ patch) ∪ base.

Definition update_preferences (now : Z) (header dev : option string) (body : PreferencesPatch) : H (Preferences * Z) :=
  caller ← caller_address header dev;
  current ← query (get_preferences caller);
  let base_channels := default ∅ (pr_channels <$> current) in
  let base_events := default ∅ (pr_events <$> current) in
  let merged := merge_preferences (Some (overlay base_channels (u_channels body))) (Some (overlay base_events (u_events body))) in
  row ← upsert_preferences now caller (pf_channels merged) (pf_events merged);
  mret (merge_preferences (Some (pr_channels row)) (Some (pr_events row)), updated_at row).

(** ** api/v1/internal.py *)

(** [NotificationIntakeRequest] *)
Record IntakeRequest := mkIntakeReq {
  q_event_kind : string; q_user_id : option string; q_recipient_addr : option string; q_locale : option string;
  q_data : list (string * json); q_contact : option (option string * option string * option string);
  q_title : option string; q_body : option string; q_href : option string }.

Definition ostr (o : option string) : json := match o with Some s => JStr s | None => JNull end.

(** [body.contact.model_dump(exclude_none=True)] *)
Definition contact_dump (c : option string * option string * option string) : contact :=
  let '(phone, mail, loc) := c in
  omap (λ kv : string * option string, (λ s, (kv.1, JStr s)) <$> kv.2) [("phone", phone); ("email", mail); ("locale", loc)].

(** [body.model_dump(mode="json")] *)
Definition request_json (q : IntakeRequest) : json :=
  JObj [("event_kind", JStr (q_event_kind q)); ("user_id", ostr (q_user_id q)); ("recipient_addr", ostr (q_recipient_addr q));
        ("locale", ostr (q_locale q)); ("data", JObj (q_data q));
        ("contact", match q_contact q with
                    | Some (phone, mail, loc) => JObj [("phone", ostr phone); ("email", ostr mail); ("locale", ostr loc)]
                    | None => JNull
                    end);
        ("title", ostr (q_title q)); ("body", ostr (q_body q)); ("href", ostr (q_href q))].

Definition event_of (q : IntakeRequest) : EventPayload :=
  mkEvent (ostr (q_user_id q)) (ostr (q_recipient_addr q)) (JObj (q_data q)) (q_locale q) (contact_dump <$> q_contact q)
    (q_title q) (q_body q) (q_href q).

Section internal_api.
Context {R : Type} `{!RedisLike R}.
Variables (sha256_hex : string → string) (resolve : uuid → option contact → Recipient) (between : Channel → ndb → ndb).
Variable broker : uuid → bool.
Variables (service_name : string) (ttl : Z).

Definition intake_result (ids : list uuid) : json := JObj [("delivery_ids", JList ((λ i, JStr (uuid_text i)) <$> ids))].

Definition intake_route (c : Idem.clock) (now : Z) (f : fresh) (secret token key : option string) (q : IntakeRequest) (rs : R) (s : ndb * nworld) :=
  match request (internal_gate secret token) s.1 s.2 with
  | (Raise e, _, _) => (Raise (Idem.Action e), rs, s)
  | (Ok _, _, _) =>
      Idem.idempotent_route service_name ttl c "notifications" key (Fingerprint.fingerprint sha256_hex (request_json q)) 201 intake_result
        (action_of (handle sha256_hex resolve between broker now f (q_event_kind q) (event_of q))) rs s
  end.

Record DeliveryView := mkView {
  v_id : string; v_channel : string; v_recipient : string; v_event_kind : string; v_status : string; v_attempts : Z;
  v_last_error : option string; v_next_retry_at : option Z; v_delivered_at : option Z }.

Definition get_delivery (secret token : option string) (i : uuid) : H DeliveryView :=
  internal_gate secret token ;;
  row ← query (λ d : ndb, deliveries d !! i);
  match row with
  | None => raise DELIVERY_NOT_FOUND
  | Some r => mret (mkView (uuid_text i) (channel r) (Templating.mask_recipient (channel r) (recipient r)) (event_kind r) (status r)
                (attempts r) (last_error r) (next_retry_at r) (delivered_at r))
  end.
End internal_api.

(** ** One delivery per event and channel *)

Definition keys_ok (d : ndb) : Prop :=
  unique_by (λ r, p_dedupe_key (payload r)) (deliveries d) ∧ unique_by dedupe_key (inbox d).

Lemma find_by_some {A} (P : A → Prop) `{∀ a, Decision (P a)} (m : gmap uuid A) i a : find_by P m = Some (i, a) → m !! i = Some a ∧ P a.
Proof. intros [HP Hi]%head_by_some. done. Qed.

Lemma find_by_none {A} (P : A → Prop) `{∀ a, Decision (P a)} (m : gmap uuid A) i a : find_by P m = None → m !! i = Some a → ¬ P a.
Proof. intros Hn Hi. by apply (head_by_none _ _ _ _ Hn) in Hi. Qed.

Lemma find_by_key {A B} (f : A → B) `{EqDecision B} (m : gmap uuid A) i a : unique_by f m → m !! i = Some a → find_by (λ r, f r = f a) m = Some (i, a).
Proof. apply head_by_unique. Qed.

Lemma no_conflict {A B} (a : option A) (b : option B) : bool_decide (is_Some a) || bool_decide (is_Some b) = false → a = None ∧ b = None.
Proof. intros [Ha Hb]%orb_false_iff. by apply bool_decide_eq_false, eq_None_not_Some in Ha, Hb. Qed.

Lemma stable_insert_delivery i row : stable keys_ok (insert_delivery i row).
Proof.
  intros w [Hd Hi] [Hd' Hi']. unfold insert_delivery. wp_go; try done. split; [done|]. split; [|done]. simpl.
  apply no_conflict in Heqb as [_ Hn]. apply unique_by_insert; [done|]. intros j b Hj. exact (find_by_none _ _ j b Hn Hj).
Qed.

Lemma stable_insert_inbox i row : stable keys_ok (insert_inbox i row).
Proof.
  intros w [Hd Hi] [Hd' Hi']. unfold insert_inbox. wp_go; try done. split; [done|]. split; [done|]. simpl.
  apply no_conflict in Heqb as [_ Hn]. apply unique_by_insert; [done|]. intros j b Hj. exact (find_by_none _ _ j b Hn Hj).
Qed.

(** The deliveries of [d] are unchanged in [d'], and the others of [d'] are new. *)
Definition queued (r : DeliveryRow) : Prop := status r = QUEUED ∧ row_ok r.

Definition adds (d d' : ndb) : Prop :=
  deliveries d ⊆ deliveries d' ∧ ∀ i r, deliveries d' !! i = Some r → deliveries d !! i = Some r ∨ (deliveries d !! i = None ∧ queued r).

#[global] Instance adds_preorder : PreOrder adds.
Proof.
  split; [by split; [|auto]|]. intros a b c [Hab Hab'] [Hbc Hbc']. split; [by etrans|]. intros i r Hi.
  destruct (Hbc' i r Hi) as [?|[Hn ?]]; [by apply Hab'|]. right. split; [by eapply lookup_weaken_None|done].
Qed.

Lemma adds_insert d i row : deliveries d !! i = None → queued row → adds d (with_deliveries <[i := row]> d).
Proof.
  intros Hn Hq. split; [by apply insert_subseteq|]. simpl. intros j r [[<- <-]|[? ?]]%lookup_insert_Some; auto.
Qed.

Section intake_facts.
Variables (sha256_hex : string → string) (resolve : uuid → option contact → Recipient) (between : Channel → ndb → ndb).
Variable broker : uuid → bool.

(** What other intakes commit: they keep the dedupe indexes and add queued deliveries. *)
Class Concurrent : Prop := {
  between_keys c d : keys_ok d → keys_ok (between c d);
  between_adds c d : adds d (between c d) }.
Context `{!Concurrent}.

Lemma wp_others g (Φ : outcome (exn ErrorCode) unit → uow ndb nworld → Prop) w : Φ (Ok tt) (Uow (g (db w)) (g (tx w)) (ext w)) → wp (others g) Φ w.
Proof. done. Qed.

Lemma stable_others c : stable keys_ok (others (between c)).
Proof. intros w H1 H2. split; by apply between_keys. Qed.

Lemma stable_one_channel f ev u data pf r c t : stable keys_ok (one_channel sha256_hex between f ev u data pf r c t).
Proof. unfold one_channel. stable_go; first [apply stable_others|apply stable_insert_delivery]. Qed.

Lemma stable_fan_out f ev u data pf r l : stable keys_ok (fan_out sha256_hex between f ev u data pf r l).
Proof.
  induction l as [|[c t] l IH]; simpl; [apply stable_ret|]. apply stable_bind; [apply stable_one_channel|intros o].
  apply stable_bind; [done|]. intros. apply stable_ret.
Qed.

Lemma stable_intake now f ev q : stable keys_ok (intake sha256_hex resolve between broker now f ev q).
Proof. unfold intake, inbox_part, _write_inbox, _enqueue. stable_go; first [apply stable_insert_inbox|apply stable_fan_out]. Qed.

Lemma stable_handle_event now f name p : stable keys_ok (handle sha256_hex resolve between broker now f name p).
Proof. unfold handle. stable_go; apply stable_intake. Qed.

(** What an intake does to the deliveries. *)
Definition grows (w w' : uow ndb nworld) : Prop := adds (tx w) (tx w') ∧ adds (db w) (db w') ∧ ext w' = ext w.

#[global] Instance grows_preorder : PreOrder grows.
Proof. split; [by intros w|]. intros a b c (?&?&?) (?&?&?). split_and!; [by etrans|by etrans|congruence]. Qed.

Definition made (i : uuid) (d d' : ndb) : Prop := deliveries d !! i = None ∧ is_Some (deliveries d' !! i).

Lemma wp_one_channel f ev u data pf r c t w :
  wp (one_channel sha256_hex between f ev u data pf r c t)
    (λ res w', grows w w' ∧ match res with Ok (Some (i, true)) => made i (tx w) (tx w') | _ => True end) w.
Proof.
  unfold one_channel, insert_delivery. wp_go; try (split; [done|]; done).
  apply wp_others. cbn [db tx ext]. wp_go.
  - split; [|by destruct (find_delivery_by_dedupe _ (between c (tx w))) as [[]|]]. split_and!; simpl; [apply between_adds|apply between_adds|done].
  - match goal with Hc : _ || _ = false |- _ => apply no_conflict in Hc as [Hn _] end. split; [split_and!; simpl; [|apply between_adds|done]|].
    + etrans; [apply between_adds|]. apply adds_insert; [done|]. split; [done|by left].
    + split; [by eapply lookup_weaken_None; [|apply between_adds]|]. simpl. rewrite lookup_insert_eq. by eexists.
Qed.

Lemma wp_fan_out f ev u data pf r l w :
  wp (fan_out sha256_hex between f ev u data pf r l)
    (λ res w', grows w w' ∧ match res with Ok out => ∀ i, i ∈ out.2 → made i (tx w) (tx w') | Raise _ => True end) w.
Proof.
  revert w. induction l as [|[c t] l IH]; intros w; simpl; [by split; [|set_solver]|].
  apply wp_bind. eapply wp_mono; [apply wp_one_channel|]. intros [one|e] w1 [Hg1 H1]; [|done].
  apply wp_bind. eapply wp_mono; [apply IH|]. intros [out|e] w2 [Hg2 H2]; [|by split; [etrans|]].
  apply wp_ret. split; [by etrans|]. destruct Hg1 as ((Hs1 & _) & _), Hg2 as ((Hs2 & _) & _).
  assert (Hout : ∀ i, i ∈ out.2 → made i (tx w) (tx w2)).
  { intros i Hi. destruct (H2 i Hi). split; [by eapply lookup_weaken_None|done]. }
  destruct one as [[i []]|]; simpl; [|done|done]. intros j [->|Hj]%elem_of_cons; [|by apply Hout].
  destruct H1 as [Hn [row Hr]]. split; [done|]. exists row. by eapply lookup_weaken.
Qed.

(** [write_inbox] touches the inbox only. *)
Lemma wp_write_inbox now f ev a data tl bd hr w :
  wp (_write_inbox sha256_hex now f ev a data tl bd hr)
    (λ _ w', db w' = db w ∧ deliveries (tx w') = deliveries (tx w) ∧ preferences (tx w') = preferences (tx w) ∧
             templates (tx w') = templates (tx w) ∧ ext w' = ext w) w.
Proof. unfold _write_inbox, insert_inbox. wp_go; done. Qed.

Definition new_enqueued (d : ndb) (x : nworld) (d' : ndb) (x' : nworld) : Prop :=
  adds d d' ∧ ∃ new, enqueued x' = enqueued x ++ new ∧ ∀ i, i ∈ new → made i d d'.

Lemma new_enqueued_refl d x : new_enqueued d x d x.
Proof. split; [done|]. exists []. rewrite app_nil_r. split; [done|set_solver]. Qed.

Lemma wp_enqueue_all l w :
  wp (for_each l (_enqueue broker))
    (λ r w', r = Ok tt ∧ db w' = db w ∧ enqueued (ext w') = enqueued (ext w) ++ filter (λ i, broker i = true) l) w.
Proof.
  revert w. induction l as [|i l IH]; intros w; simpl; [by rewrite app_nil_r|].
  apply wp_bind. unfold _enqueue at 1. destruct (broker i) eqn:E; wp_go; (eapply wp_mono; [apply IH|]); intros r w' (-> & Hdb & He); simpl in *.
  - split_and!; [done|done|]. by rewrite He, filter_cons_True, <- app_assoc by done.
  - split_and!; [done|done|]. rewrite He, filter_cons_False by congruence. done.
Qed.

Lemma intake_new now f ev q d x : let '(_, d', x') := request (intake sha256_hex resolve between broker now f ev q) d x in new_enqueued d x d' x'.
Proof.
  pose proof (wp_request (intake sha256_hex resolve between broker now f ev q) (λ _ d' x', new_enqueued d x d' x') d x) as Hw.
  destruct (request _ d x) as [[r d'] x']. apply Hw. clear Hw.
  unfold intake, inbox_part. wp_step. wp_step. wp_step.
  set (P := λ (w' : uow ndb nworld), db w' = d ∧ deliveries (tx w') = deliveries d ∧ ext w' = x).
  apply (wp_mono _ (λ _ w', P w')).
  { unfold P. wp_go; try done. eapply wp_mono; [apply wp_write_inbox|]. intros [[]|] w' (? & ? & ? & ? & ?); wp_go; done. }
  intros [created|e] w' (Hdb & Htx & Hext); [|simpl; rewrite Hdb, Hext; apply new_enqueued_refl].
  assert (Htx' : adds d (tx w')) by (unfold adds; by rewrite Htx; auto).
  wp_go; simpl; rewrite ?Hdb, ?Hext; try apply new_enqueued_refl.
  - eapply wp_mono; [apply wp_fan_out|]. intros [out|e] w2 [(Hs & Hs' & He) Hout]; wp_go; simpl.
    + eapply wp_mono; [apply wp_enqueue_all|]. intros r' w3 (-> & Hdb3 & He3). simpl in *. rewrite He, Hext in He3. wp_go.
      rewrite Hdb3. split; [by etrans|]. eexists. split; [done|]. intros i [_ Hi]%list_elem_of_filter.
      unfold made. rewrite <- Htx. by apply Hout.
    + rewrite He, Hext. split; [by rewrite <- Hdb|]. exists []. rewrite app_nil_r. split; [done|set_solver].
  - split; [done|]. exists []. rewrite app_nil_r. split; [done|set_solver].
Qed.

Lemma handle_new now f name p d x : let '(_, d', x') := request (handle sha256_hex resolve between broker now f name p) d x in new_enqueued d x d' x'.
Proof.
  unfold handle. destruct (negb _); [apply new_enqueued_refl|]. destruct (bool_decide _); [apply new_enqueued_refl|]. apply intake_new.
Qed.
End intake_facts.

(** ** The service: its API, its consumer and its workers *)

Record nsys := mkSys { s_db : ndb; s_x : nworld; s_log : list send_log }.

Inductive nreq :=
| NEvent (now : Z) (f : fresh) (broker : uuid → bool) (name : string) (p : EventPayload)
| NRead (now : Z) (header dev : option string) (i : uuid)
| NReadAll (now : Z) (header dev : option string)
| NPrefs (now : Z) (header dev : option string) (patch : PreferencesPatch)
| NWorker (now : Z) (i : uuid).

Section system.
Variables (sha256_hex : string → string) (resolve : uuid → option contact → Recipient) (between : Channel → ndb → ndb) (channels : ChannelRegistry).

Definition on_request {A} (m : H A) (s : nsys) : nsys :=
  let '(_, d, x) := request m (s_db s) (s_x s) in mkSys d x (s_log s).

Definition serve (s : nsys) (q : nreq) : nsys :=
  match q with
  | NEvent now f broker name p => on_request (handle sha256_hex resolve between broker now f name p) s
  | NRead now header dev i => on_request (mark_read now header dev i) s
  | NReadAll now header dev => on_request (mark_all_read now header dev) s
  | NPrefs now header dev patch => on_request (update_preferences now header dev patch) s
  | NWorker now i =>
      let '(_, w) := run_once channels now i (mkW (deliveries (s_db s)) (s_log s)) in
      mkSys (with_deliveries (λ _, rows w) (s_db s)) (s_x s) (sends w)
  end.

Definition serve_all (s : nsys) (qs : list nreq) : nsys := fold_left serve qs s.

(** Every delivery agrees with the calls made for it, and calls are made for deliveries only. *)
Definition sys_ok (s : nsys) : Prop :=
  keys_ok (s_db s) ∧ (∀ i, is_Some (deliveries (s_db s) !! i) → tracked i (mkW (deliveries (s_db s)) (s_log s))) ∧
  (∀ l, l ∈ s_log s → is_Some (deliveries (s_db s) !! l_id l)) ∧ (∀ i, i ∈ enqueued (s_x s) → is_Some (deliveries (s_db s) !! i)).

Lemma calls_absent i b ls : (∀ l, l ∈ ls → l_id l ≠ i) → calls i b ls = 0.
Proof.
  intros Hl. unfold calls. rewrite filter_none; [done|]. intros l Hin [Hi _]. by apply (Hl l Hin).
Qed.

Lemma sys_ok_adds s d' x' : sys_ok s → keys_ok d' → new_enqueued (s_db s) (s_x s) d' x' → sys_ok (mkSys d' x' (s_log s)).
Proof.
  intros (_ & Htr & Hlog & Henq) Hk [[Hsub Hnew] (new & Hx & Hmade)]. split_and!; simpl; [done| | |].
  - intros i [r Hr]. destruct (Hnew i r Hr) as [Hold|[Hn [Hq Hok]]].
    + destruct (Htr i ltac:(by eexists)) as (r0 & Hr0 & Ht). simpl in Hr0. exists r. simplify_eq. done.
    + exists r. simpl. assert (Habs : ∀ b, calls i b (s_log s) = 0).
      { intros b. apply calls_absent. intros l Hl Hi. destruct (Hlog l Hl) as [? Hs]. rewrite Hi in Hs. congruence. }
      rewrite !Habs. split_and!; [done|done| |].
      * destruct Hok as [(_ & -> & _)|[(Hs & _)|[(Hs & _)|(Hs & _)]]]; [done|rewrite Hs in Hq; by vm_compute in Hq..].
      * by rewrite Hq.
  - intros l Hl. destruct (Hlog l Hl) as [r Hr]. exists r. by eapply lookup_weaken.
  - intros i. rewrite Hx. intros [Hi|Hi]%elem_of_app; [|by apply Hmade]. destruct (Henq i Hi) as [r Hr]. exists r. by eapply lookup_weaken.
Qed.

Context `{!Concurrent between}.

(** Requests of the API that keep the deliveries and the queue. *)
Definition api_only (d : ndb) (x : nworld) (w : uow ndb nworld) : Prop :=
  deliveries (db w) = deliveries d ∧ keys_ok (db w) ∧ ext w = x.

Lemma mark_keys d g : keys_ok d → (∀ r, dedupe_key (g r) = dedupe_key r) → keys_ok (with_inbox (fmap g) d).
Proof. intros [H1 H2] Hg. split; [done|]. by apply unique_by_fmap. Qed.

Lemma insert_read_keys d i r r' : keys_ok d → inbox d !! i = Some r → dedupe_key r' = dedupe_key r → keys_ok (with_inbox <[i := r']> d).
Proof.
  intros [H1 H2] Hr Hk. split; [done|]. simpl. intros j k a b. rewrite !lookup_insert_Some.
  intros [[<- <-]|[? Ha]] [[<- <-]|[? Hb]] Hab; try done; [symmetry|..|].
  - apply (H2 k i b r); congruence.
  - apply (H2 j i a r); congruence.
  - by apply (H2 j k a b).
Qed.

Lemma wp_mark_read now header dev i d x : keys_ok d → wp (mark_read now header dev i) (λ _ w, api_only d x w) (Uow d d x).
Proof.
  intros Hk. unfold mark_read, caller_address, mark_inbox_read. wp_go; try done; unfold api_only; simpl; split_and!; try done.
  all: eapply insert_read_keys; [done|done|]; by destruct (read _).
Qed.

Lemma wp_mark_all_read now header dev d x : keys_ok d → wp (mark_all_read now header dev) (λ _ w, api_only d x w) (Uow d d x).
Proof.
  intros Hk. unfold mark_all_read, caller_address, mark_all_inbox_read. wp_go; try done; unfold api_only; simpl; split_and!; try done.
  all: apply mark_keys; [done|]; intros r; by case_decide.
Qed.

Lemma wp_update_preferences now header dev patch d x : keys_ok d → wp (update_preferences now header dev patch) (λ _ w, api_only d x w) (Uow d d x).
Proof. intros Hk. unfold update_preferences, caller_address, upsert_preferences. wp_go; done. Qed.

Lemma api_ok {A} (m : H A) s : keys_ok (s_db s) → wp m (λ _ w, api_only (s_db s) (s_x s) w) (Uow (s_db s) (s_db s) (s_x s)) →
  deliveries (s_db (on_request m s)) = deliveries (s_db s) ∧ keys_ok (s_db (on_request m s)) ∧ s_x (on_request m s) = s_x s ∧ s_log (on_request m s) = s_log s.
Proof.
  intros Hk Hw. pose proof (wp_request m (λ _ d' x', deliveries d' = deliveries (s_db s) ∧ keys_ok d' ∧ x' = s_x s) (s_db s) (s_x s) Hw) as H'.
  unfold on_request. destruct (request m _ _) as [[r d'] x']. simpl in *. naive_solver.
Qed.

Lemma sys_ok_api {A} (m : H A) s : sys_ok s → wp m (λ _ w, api_only (s_db s) (s_x s) w) (Uow (s_db s) (s_db s) (s_x s)) → sys_ok (on_request m s).
Proof.
  intros (Hk & Htr & Hlog & Henq) Hw. destruct (api_ok m s Hk Hw) as (Hd & Hk' & Hx & Hl). unfold sys_ok. by rewrite Hd, Hl, Hx.
Qed.

Lemma run_keeps_rows now j s i : is_Some (rows (run_once channels now j s).2 !! i) ↔ is_Some (rows s !! i).
Proof.
  unfold run_once, run_begin. destruct (get j (rows s)) as [rec|]; [|done]. destruct (_ || _); [done|].
  destruct (for_channel channels _) as [p|]; [|by apply lookup_alter_is_Some]. unfold run_send, run_finish. simpl.
  destruct (p _ _ _ _) as [?|[?|?]]; simpl; [by apply lookup_alter_is_Some| |done].
  destruct (next_countdown _); simpl; by apply lookup_alter_is_Some.
Qed.

Lemma run_keeps_keys now j s :
  unique_by (λ r, p_dedupe_key (payload r)) (rows s) → unique_by (λ r, p_dedupe_key (payload r)) (rows (run_once channels now j s).2).
Proof.
  intros Hu. unfold run_once, run_begin. destruct (get j (rows s)) as [rec|]; [|done]. destruct (_ || _); [done|].
  destruct (for_channel channels _) as [p|]; [|by apply unique_by_alter]. unfold run_send, run_finish. simpl.
  destruct (p _ _ _ _) as [?|[?|?]]; simpl; [by apply unique_by_alter| |done].
  destruct (next_countdown _); simpl; by apply unique_by_alter.
Qed.

Lemma run_log now j s l : l ∈ sends (run_once channels now j s).2 → l ∈ sends s ∨ l_id l = j ∧ is_Some (rows s !! j).
Proof.
  unfold run_once, run_begin. destruct (get j (rows s)) as [rec|] eqn:Hg; [|auto]. destruct (_ || _); [auto|].
  destruct (for_channel channels _) as [p|]; [|auto]. unfold run_send. rewrite run_finish_sends. simpl.
  intros [?|Hl]%elem_of_app; [auto|]. apply list_elem_of_singleton in Hl as ->. simpl. right.
  unfold get in Hg. destruct (rows s !! j); simplify_eq/=. eauto.
Qed.

Lemma notify_serve_ok s q : sys_ok s → sys_ok (serve s q).
Proof.
  intros Hs. pose proof Hs as (Hk & Htr & Hlog & Henq). destruct q as [now f broker name p|now h dv i|now h dv|now h dv patch|now i]; simpl.
  - pose proof (handle_new sha256_hex resolve between broker now f name p (s_db s) (s_x s)) as Hn.
    pose proof (stable_request keys_ok _ (s_db s) (s_x s) (stable_handle_event sha256_hex resolve between broker now f name p) Hk) as Hk'.
    unfold on_request. destruct (request _ _ _) as [[r d'] x']. by apply sys_ok_adds.
  - by apply sys_ok_api, wp_mark_read.
  - by apply sys_ok_api, wp_mark_all_read.
  - by apply sys_ok_api, wp_update_preferences.
  - set (w0 := mkW (deliveries (s_db s)) (s_log s)). pose proof (run_keeps_rows now i w0) as Hrows.
    pose proof (run_keeps_keys now i w0 (proj1 Hk)) as Hkeys. pose proof (run_log now i w0) as Hl.
    assert (Ht : ∀ j, is_Some (rows (run_once channels now i w0).2 !! j) → tracked j (run_once channels now i w0).2).
    { intros j Hj%Hrows. apply (runs_tracked channels j [(now, i)]). by apply Htr. }
    destruct (run_once channels now i w0) as [o w]. simpl in *. split_and!; simpl; [split; [done|apply Hk]| | |].
    + intros j Hj. by apply Ht in Hj.
    + intros l [Hin|[-> Hi]]%Hl; apply Hrows; [by apply Hlog|done].
    + intros j Hj. apply Hrows. by apply Henq.
Qed.

Lemma notify_serve_all_ok qs s : sys_ok s → sys_ok (serve_all s qs).
Proof. revert s. induction qs as [|q qs IH]; intros s Hs; [done|]. by apply IH, notify_serve_ok. Qed.

(** C11: exactly-once notification.  Whatever the service is asked to do, by the API, by the bus and by its
    workers (each run of a worker to its end), and whatever other intakes commit between an intake's lookup and its
    insertion, no two deliveries and no two inbox notifications have the same dedupe key; the attempt counter of
    every delivery is the number of provider calls refused for it, and its status is SENT exactly when one was accepted,
    so that at most six calls are refused or accepted and at most one accepted (a call whose answer could not be read
    counts as neither); and only recorded deliveries are ever sent. *)
Theorem notifications_exactly_once (qs : list nreq) (s : nsys) (Hs : sys_ok s) :
  let s' := serve_all s qs in
  keys_ok (s_db s') ∧
  (∀ i r, deliveries (s_db s') !! i = Some r → calls i Refused (s_log s') = attempts r ∧
     calls i Accepted (s_log s') = if bool_decide (status r = SENT) then 1 else 0) ∧
  (∀ i, calls i Accepted (s_log s') ≤ 1 ∧ calls i Refused (s_log s') + calls i Accepted (s_log s') ≤ 6) ∧
  (∀ l, l ∈ s_log s' → is_Some (deliveries (s_db s') !! l_id l)).
Proof.
  intros s'. destruct (notify_serve_all_ok qs s Hs) as (Hk & Htr & Hlog & _). fold s' in Hk, Htr, Hlog. split_and!; [done| | |done].
  - intros i r Hi. destruct (Htr i ltac:(by eexists)) as (r' & Hr' & _ & Hf & Ha). simpl in *. by simplify_eq.
  - intros i. destruct (deliveries (s_db s') !! i) as [r|] eqn:E.
    + destruct (Htr i ltac:(by eexists)) as (r' & _ & Hok & Hf & Ha). simpl in *. rewrite Hf, Ha.
      destruct Hok as [(-> & -> & _)|[(-> & ? & _)|[(-> & ? & _)|(-> & ? & _)]]]; simpl; lia.
    + rewrite !calls_absent; [lia|..]; intros l Hl Hi; destruct (Hlog l Hl); congruence.
Qed.

Lemma serve_enqueued s q i : is_Some (deliveries (s_db s) !! i) → i ∉ enqueued (s_x s) →
  is_Some (deliveries (s_db (serve s q)) !! i) ∧ i ∉ enqueued (s_x (serve s q)).
Proof.
  intros Hi He.
  assert (Hapi : ∀ A (m : H A), (∀ d x, wp m (λ _ w, deliveries (db w) = deliveries d ∧ ext w = x) (Uow d d x)) →
    is_Some (deliveries (s_db (on_request m s)) !! i) ∧ i ∉ enqueued (s_x (on_request m s))).
  { intros A m Hw. pose proof (wp_request m (λ _ d' x', deliveries d' = deliveries (s_db s) ∧ x' = s_x s) (s_db s) (s_x s) (Hw _ _)) as [Hd Hx].
    unfold on_request. destruct (request m _ _) as [[r d'] x']. simpl in *. by rewrite Hd, Hx. }
  destruct q as [now f broker name p|now h dv j|now h dv|now h dv patch|now j]; simpl.
  - pose proof (handle_new sha256_hex resolve between broker now f name p (s_db s) (s_x s)) as Hn. unfold on_request.
    destruct (request _ _ _) as [[r d'] x']. destruct Hn as [[Hsub _] (new & Hx & Hmade)]. simpl. destruct Hi as [row Hrow].
    split; [exists row; by eapply lookup_weaken|]. rewrite Hx. intros [?|Hin]%elem_of_app; [done|].
    destruct (Hmade i Hin). congruence.
  - apply Hapi. intros d x. unfold mark_read, caller_address, mark_inbox_read. wp_go; done.
  - apply Hapi. intros d x. unfold mark_all_read, caller_address, mark_all_inbox_read. wp_go; done.
  - apply Hapi. intros d x. unfold update_preferences, caller_address, upsert_preferences. wp_go; done.
  - pose proof (run_keeps_rows now j (mkW (deliveries (s_db s)) (s_log s)) i) as Hr.
    destruct (run_once channels now j _) as [o w]. simpl in *. split; [by apply Hr|done].
Qed.

(** a task the broker refused is never handed over again.  The intake commits a delivery before it is
    enqueued and only logs when the broker refuses the task ("the row stays QUEUED and is
    recoverable"); from then on no request of the service, the redelivery of the same event
    included, enqueues that delivery. *)
Theorem refused_task_never_requeued (qs : list nreq) (s : nsys) (i : uuid)
    (Hrow : is_Some (deliveries (s_db s) !! i)) (Hlost : i ∉ enqueued (s_x s)) :
  is_Some (deliveries (s_db (serve_all s qs)) !! i) ∧ i ∉ enqueued (s_x (serve_all s qs)).
Proof.
  revert s Hrow Hlost. induction qs as [|q qs IH]; intros s Hrow Hlost; [done|]. destruct (serve_enqueued s q i Hrow Hlost). by apply IH.
Qed.
End system.

(** ** Redelivery *)

(** No other session in between. *)
Definition alone (c : Channel) (d : ndb) : ndb := d.

#[global] Instance alone_concurrent : Concurrent alone.
Proof. split; [done|]. intros c d. unfold alone. done. Qed.

Section redelivery.
Variables (sha256_hex : string → string) (resolve : uuid → option contact → Recipient).

Lemma one_channel_replay f f' ev u data pf r c t w one w1 w2 :
  keys_ok (tx w) → deliveries (tx w) !! f_delivery f c = None → one_channel sha256_hex alone f ev u data pf r c t w = (Ok one, w1) →
  keys_ok (tx w2) → deliveries (tx w1) ⊆ deliveries (tx w2) →
  one_channel sha256_hex alone f' ev u data pf r c t w2 = (Ok ((λ p, (p.1, false)) <$> one), w2).
Proof.
  intros Hk Hn Hrun Hk2 Hsub. revert Hrun. unfold one_channel, insert_delivery, mbind, handler_bind, lift, query, mret, handler_ret.
  destruct (negb (allows _ _ _)); [by intros [= <- <-]|]. destruct (address_for r c) as [addr|]; [|by intros [= <- <-]].
  destruct (negb (truthy addr)); [by intros [= <- <-]|]. destruct (dict_of data) as [o|]; [|done].
  destruct (find_delivery_by_dedupe (_dedupe_key sha256_hex ev u c o) (tx w)) as [[i row]|] eqn:Hf.
  - intros [= <- <-]. apply find_by_some in Hf as [Hi Hkey]. unfold find_delivery_by_dedupe. rewrite <- Hkey.
    rewrite (find_by_key (λ r, p_dedupe_key (payload r)) _ i row (proj1 Hk2)); [done|]. by eapply lookup_weaken.
  - unfold others, alone, write. cbn [db tx ext p_dedupe_key payload]. rewrite Hn, Hf. simpl. intros [= <- <-]. simpl in Hsub.
    set (row := mkRow _ _ _ _ _ _ _ _ _) in Hsub. unfold find_delivery_by_dedupe.
    change (_dedupe_key sha256_hex ev u c o) with (p_dedupe_key (payload row)).
    rewrite (find_by_key (λ r, p_dedupe_key (payload r)) _ (f_delivery f c) row (proj1 Hk2)); [done|].
    eapply lookup_weaken; [|done]. apply lookup_insert_eq.
Qed.

Lemma one_channel_grows f ev u data pf r c t w one w1 : one_channel sha256_hex alone f ev u data pf r c t w = (Ok one, w1) →
  deliveries (tx w) ⊆ deliveries (tx w1) ∧ (∀ i, i ≠ f_delivery f c → deliveries (tx w) !! i = None → deliveries (tx w1) !! i = None) ∧
  preferences (tx w1) = preferences (tx w) ∧ templates (tx w1) = templates (tx w) ∧ inbox (tx w1) = inbox (tx w).
Proof.
  unfold one_channel, insert_delivery, mbind, handler_bind, lift, query, mret, handler_ret.
  destruct (negb (allows _ _ _)); [by intros [= <- <-]|]. destruct (address_for r c) as [addr|]; [|by intros [= <- <-]].
  destruct (negb (truthy addr)); [by intros [= <- <-]|]. destruct (dict_of data) as [o|]; [|done].
  destruct (find_delivery_by_dedupe _ _) as [[i row]|]; [by intros [= <- <-]|]. unfold others, alone, write. cbn [db tx ext].
  destruct (_ || _) eqn:Hc; intros [= <- <-]; [done|]. apply no_conflict in Hc as [Hn _]. simpl. split_and!; try done; [by apply insert_subseteq|].
  intros i Hne Hi. by rewrite lookup_insert_ne.
Qed.

Lemma one_channel_keys f ev u data pf r c t w one w1 : keys_ok (tx w) → one_channel sha256_hex alone f ev u data pf r c t w = (Ok one, w1) → keys_ok (tx w1).
Proof.
  intros Hk. unfold one_channel, mbind, handler_bind, lift, query, mret, handler_ret.
  destruct (negb (allows _ _ _)); [by intros [= <- <-]|]. destruct (address_for r c) as [addr|]; [|by intros [= <- <-]].
  destruct (negb (truthy addr)); [by intros [= <- <-]|]. destruct (dict_of data) as [o|]; [|done].
  destruct (find_delivery_by_dedupe _ _) as [[i row]|]; [by intros [= <- <-]|]. unfold others, alone. cbn [db tx ext].
  destruct (insert_delivery _ _ _) as [[[]|e] w'] eqn:E; [intros [= <- <-]|intros [= <- <-]|done];
    revert E; unfold insert_delivery, mbind, handler_bind, query, mret, handler_ret, write; simpl;
    (destruct (_ || _) eqn:Hc; intros [= <-]; try done).
  apply no_conflict in Hc as [_ Hf]. split; [|apply Hk]. apply unique_by_insert; [apply Hk|]. intros j b Hj. exact (find_by_none _ _ j b Hf Hj).
Qed.

Lemma fan_out_keys f ev u data pf r l w out w1 : keys_ok (tx w) → fan_out sha256_hex alone f ev u data pf r l w = (Ok out, w1) → keys_ok (tx w1).
Proof.
  revert w out. induction l as [|[c t] l IH]; intros w out Hk; simpl; [by intros [= <- <-]|]. unfold mbind, handler_bind.
  destruct (one_channel sha256_hex alone f ev u data pf r c t w) as [[one|e] w'] eqn:E1; [|done].
  destruct (fan_out sha256_hex alone f ev u data pf r l w') as [[rest|e] w''] eqn:E2; [|done]. intros [= <- <-].
  apply (IH w' rest); [|done]. exact (one_channel_keys _ _ _ _ _ _ _ _ _ _ _ Hk E1).
Qed.

Lemma fan_out_replay f f' ev u data pf r l w out w1 w2 :
  keys_ok (tx w) → (∀ c, c ∈ l.*1 → deliveries (tx w) !! f_delivery f c = None) → NoDup l.*1 → (∀ c c', f_delivery f c = f_delivery f c' → c = c') →
  fan_out sha256_hex alone f ev u data pf r l w = (Ok out, w1) → keys_ok (tx w2) → deliveries (tx w1) ⊆ deliveries (tx w2) →
  fan_out sha256_hex alone f' ev u data pf r l w2 = (Ok (out.1, []), w2) ∧ deliveries (tx w) ⊆ deliveries (tx w1) ∧
  preferences (tx w1) = preferences (tx w) ∧ templates (tx w1) = templates (tx w) ∧ inbox (tx w1) = inbox (tx w).
Proof.
  intros Hk Hn Hnd Hinj. revert w out Hk Hn Hnd. induction l as [|[c t] l IH]; intros w out Hk Hn Hnd; simpl.
  { intros [= <- <-] ? ?. done. }
  unfold mbind, handler_bind. destruct (one_channel sha256_hex alone f ev u data pf r c t w) as [[one|e] w'] eqn:E1; [|done].
  destruct (fan_out sha256_hex alone f ev u data pf r l w') as [[rest|e] w''] eqn:E2; [|done]. intros [= <- <-] Hk2 Hsub.
  rewrite fmap_cons in Hnd, Hn. apply NoDup_cons in Hnd as [Hc Hnd]. destruct (one_channel_grows _ _ _ _ _ _ _ _ _ _ _ E1) as (Hs & Hnew & Hpr & Ht & Hib).
  pose proof (one_channel_keys _ _ _ _ _ _ _ _ _ _ _ Hk E1) as Hk'.
  destruct (IH w' rest Hk') as (Hrep & Hs' & Hpr' & Ht' & Hib'); [|done|done|done|done|].
  { intros c' Hc'. apply Hnew; [|apply Hn; set_solver]. intros ->%Hinj. done. }
  rewrite (one_channel_replay f f' ev u data pf r c t w one w' w2) by (done || (apply Hn; set_solver) || by etrans).
  rewrite Hrep. split_and!; try congruence; [|by etrans]. by destruct one as [[i []]|].
Qed.

Lemma write_inbox_replay now now' f f' ev a data tl bd hr w r w1 w2 :
  keys_ok (tx w) → inbox (tx w) !! f_inbox f = None → _write_inbox sha256_hex now f ev a data tl bd hr w = (Ok r, w1) →
  keys_ok (tx w2) → inbox (tx w2) = inbox (tx w1) →
  _write_inbox sha256_hex now' f' ev a data tl bd hr w2 = (Ok r, w2).
Proof.
  intros Hk Hn Hrun Hk2 Hib. revert Hrun. unfold _write_inbox, insert_inbox, mbind, handler_bind, lift, query, mret, handler_ret.
  destruct (dict_of data) as [o|]; [|done]. destruct (_inbox_presentation ev o) as [[k dt] dbd]. cbn [dedupe_key].
  set (key := inbox_key sha256_hex ev a o). rewrite Hn. simpl.
  destruct (find_inbox_by_dedupe key (tx w)) as [[i row]|] eqn:Hf; simpl.
  - rewrite Hf. intros [= <- <-]. apply find_by_some in Hf as [Hi Hkey].
    assert (Hf2 : find_inbox_by_dedupe key (tx w2) = Some (i, row)).
    { unfold find_inbox_by_dedupe. rewrite <- Hkey. apply (find_by_key dedupe_key); [apply Hk2|by rewrite Hib]. }
    rewrite Hf2, orb_true_r. simpl. by rewrite Hf2.
  - intros [= <- <-]. simpl in Hib. set (row := mkInbox _ _ _ _ _ _ _ _ _ _) in Hib.
    assert (Hf2 : find_inbox_by_dedupe key (tx w2) = Some (f_inbox f, row)).
    { unfold find_inbox_by_dedupe. change key with (dedupe_key row). apply (find_by_key dedupe_key); [apply Hk2|]. by rewrite Hib, lookup_insert_eq. }
    rewrite Hf2, orb_true_r. simpl. by rewrite Hf2.
Qed.

Lemma write_inbox_keys now f ev a data tl bd hr w r w1 : keys_ok (tx w) →
  _write_inbox sha256_hex now f ev a data tl bd hr w = (Ok r, w1) →
  keys_ok (tx w1) ∧ db w1 = db w ∧ deliveries (tx w1) = deliveries (tx w) ∧ preferences (tx w1) = preferences (tx w) ∧
  templates (tx w1) = templates (tx w) ∧ ext w1 = ext w.
Proof.
  intros Hk Hrun. pose proof (wp_write_inbox sha256_hex now f ev a data tl bd hr w) as Hw. unfold wp in Hw. rewrite Hrun in Hw.
  split; [|exact Hw]. revert Hrun. unfold _write_inbox, insert_inbox, mbind, handler_bind, lift, query, mret, handler_ret.
  destruct (dict_of data) as [o|]; [|done]. destruct (_inbox_presentation ev o) as [[k dt] dbd]. cbn [dedupe_key].
  destruct (_ || _) eqn:Hc; intros [= <- <-]; [done|]. apply no_conflict in Hc as [_ Hf]. split; [apply Hk|].
  apply unique_by_insert; [apply Hk|]. intros j b Hj. exact (find_by_none _ _ j b Hf Hj).
Qed.

Lemma resolve_channels rs l : NoDup (resolve_for_event rs l).*1.
Proof.
  unfold resolve_for_event. simpl. destruct (match chosen rs SMS _ with Some t => Some t | None => _ end),
    (match chosen rs EMAIL _ with Some t => Some t | None => _ end); simpl; apply (bool_decide_unpack _); by vm_compute.
Qed.

(** Fresh identifiers: what [uuid4] gives. *)
Definition fresh_in (f : fresh) (d : ndb) : Prop :=
  inbox d !! f_inbox f = None ∧ (∀ c, deliveries d !! f_delivery f c = None) ∧ (∀ c c', f_delivery f c = f_delivery f c' → c = c').

Lemma inbox_part_replay now now' f f' ev pf q w r w1 w2 :
  keys_ok (tx w) → inbox (tx w) !! f_inbox f = None → inbox_part sha256_hex now f ev pf q w = (Ok r, w1) →
  keys_ok (tx w2) → inbox (tx w2) = inbox (tx w1) → inbox_part sha256_hex now' f' ev pf q w2 = (Ok r, w2).
Proof.
  intros Hk Hn. unfold inbox_part. destruct (in_addr q) as [a|]; [|by intros [= <- <-]]. destruct (_ && _); [|by intros [= <- <-]].
  unfold mbind, handler_bind. destruct (_write_inbox sha256_hex now f _ _ _ _ _ _ w) as [[i|e] w'] eqn:E; [|done]. intros [= <- <-] Hk2 Hib.
  by rewrite (write_inbox_replay now now' f f' _ _ _ _ _ _ w i w' w2).
Qed.

Lemma inbox_part_keys now f ev pf q w r w1 : keys_ok (tx w) → inbox_part sha256_hex now f ev pf q w = (Ok r, w1) →
  keys_ok (tx w1) ∧ db w1 = db w ∧ deliveries (tx w1) = deliveries (tx w) ∧ preferences (tx w1) = preferences (tx w) ∧
  templates (tx w1) = templates (tx w) ∧ ext w1 = ext w.
Proof.
  intros Hk. unfold inbox_part. destruct (in_addr q) as [a|]; [|by intros [= <- <-]]. destruct (_ && _); [|by intros [= <- <-]].
  unfold mbind, handler_bind. destruct (_write_inbox sha256_hex now f _ _ _ _ _ _ w) as [[i|e] w'] eqn:E; [|done]. intros [= <- <-].
  by eapply write_inbox_keys.
Qed.

Lemma enqueue_all_run broker l w : for_each l (_enqueue broker) w = (Ok tt, Uow (db w) (tx w) (mkNw (enqueued (ext w) ++ filter (λ i, broker i = true) l))).
Proof.
  revert w. induction l as [|i l IH]; intros [wd wt [we]]; simpl; [by rewrite app_nil_r|].
  unfold mbind, handler_bind, _enqueue at 1. destruct (broker i) eqn:E; simpl; rewrite IH; simpl.
  - by rewrite filter_cons_True, <- app_assoc by done.
  - by rewrite filter_cons_False by congruence.
Qed.

(** an event delivered again does nothing more.  After an intake that succeeded, handing the same event in
    again, at any later time, gives the same answer and changes neither the database nor the queue:
    nothing is written, rendered or sent a second time. *)
Theorem redelivered_intake_noop (broker broker' : uuid → bool) (now now' : Z) (f f' : fresh) (ev : string) (q : Intake)
    (d d' : ndb) (x x' : nworld) (ids : list uuid) (Hk : keys_ok d) (Hf : fresh_in f d)
    (Hfirst : request (intake sha256_hex resolve alone broker now f ev q) d x = (Ok ids, d', x')) :
  request (intake sha256_hex resolve alone broker' now' f' ev q) d' x' = (Ok ids, d', x').
Proof.
  destruct Hf as (Hfi & Hfd & Hinj). revert Hfirst. unfold request, intake.
  unfold mbind, handler_bind, query. cbn [tx].
  destruct (inbox_part sha256_hex now f ev (effective q d) q (Uow d d x)) as [[created|e] w1] eqn:E1; [|done].
  destruct (inbox_part_keys now f ev _ q (Uow d d x) created w1 Hk E1) as (Hk1 & Hdb1 & Hdel1 & Hpr1 & Ht1 & Hx1). simpl in *.
  assert (Heff : ∀ d2, preferences d2 = preferences d → effective q d2 = effective q d) by (intros d2 Hd2; unfold effective, get_preferences; by rewrite Hd2).
  destruct (in_user q) as [u|].
  - destruct (bool_decide _) eqn:Hempty; [done|].
    destruct (fan_out _ _ _ _ _ _ _ _ _ w1) as [[out|e] w2] eqn:E2; [|done]. cbn [commit db tx ext]. rewrite enqueue_all_run. intros [= <- <- <-].
    cbn [db tx ext].
    assert (Hfan : ∀ w3, keys_ok (tx w3) → deliveries (tx w2) ⊆ deliveries (tx w3) → _)
      by exact (λ w3, fan_out_replay f f' ev u (in_data q) _ _ _ w1 out w2 w3 Hk1 ltac:(intros c _; rewrite Hdel1; apply Hfd) (resolve_channels _ _) Hinj E2).
    pose proof (fan_out_keys _ _ _ _ _ _ _ _ _ _ Hk1 E2) as Hk2.
    destruct (Hfan (Uow (tx w2) (tx w2) (mkNw [])) Hk2 ltac:(done)) as (_ & _ & Hpr2 & Ht2 & Hib2).
    rewrite (Heff (tx w2)) by congruence.
    rewrite (inbox_part_replay now now' f f' ev (effective q d) q (Uow d d x) created w1 (Uow (tx w2) (tx w2) _) Hk Hfi E1 Hk2 Hib2).
    cbn [tx]. unfold list_active_templates_for_event in *. rewrite Ht2 in *. rewrite Hempty.
    rewrite (proj1 (Hfan (Uow (tx w2) (tx w2) _) Hk2 ltac:(done))). done.
  - cbn [commit db tx ext]. intros [= <- <- <-]. rewrite (Heff (tx w1)) by done.
    by rewrite (inbox_part_replay now now' f f' ev (effective q d) q (Uow d d x) created w1 (Uow (tx w1) (tx w1) _) Hk Hfi E1 Hk1 eq_refl).
Qed.
End redelivery.

(** ** Preferences *)

(** The preferences in force for an address. *)
Definition prefs_of (a : string) (d : ndb) : Preferences :=
  match get_preferences a d with
  | Some row => merge_preferences (Some (pr_channels row)) (Some (pr_events row))
  | None => default_preferences
  end.

Lemma all_on_lookup ks k : all_on ks !! k = if decide (k ∈ ks) then Some true else None.
Proof.
  unfold all_on. case_decide as Hk.
  - destruct (list_to_map ((λ k, (k, true)) <$> ks) !! k) as [b|] eqn:E.
    + apply elem_of_list_to_map_2, list_elem_of_fmap in E as (k' & [= _ ->] & _). done.
    + apply not_elem_of_list_to_map_2 in E. destruct E. rewrite <- list_fmap_compose. simpl. rewrite list_fmap_id. done.
  - apply not_elem_of_list_to_map_1. rewrite <- list_fmap_compose. simpl. by rewrite list_fmap_id.
Qed.

Lemma clean_lookup m ks k : _clean (Some m) ks !! k = if decide (k ∈ ks) then jtruthy <$> m !! k else None.
Proof.
  unfold _clean. simpl. rewrite lookup_fmap, map_lookup_filter. destruct (m !! k); simpl; [|by case_decide]. case_decide; [by rewrite option_guard_True|by rewrite option_guard_False].
Qed.

Lemma merged_lookup m ks k : (_clean (Some m) ks ∪ all_on ks) !! k = if decide (k ∈ ks) then Some (default true (jtruthy <$> m !! k)) else None.
Proof. rewrite lookup_union, clean_lookup, all_on_lookup. case_decide; [|done]. by destruct (m !! k). Qed.

(** A patch over the preferences in force. *)
Definition patched (ks : list string) (old : gmap string bool) (patch : option (gmap string bool)) (k : string) : option bool :=
  if decide (k ∈ ks) then Some (default (default true (old !! k)) (default ∅ patch !! k)) else None.

Lemma overlay_merged ks base patch k :
  (_clean (Some (JBool <$> (_clean (Some (overlay base patch)) ks ∪ all_on ks))) ks ∪ all_on ks) !! k =
  patched ks (_clean (Some base) ks ∪ all_on ks) patch k.
Proof.
  unfold patched. rewrite merged_lookup. case_decide as Hk; [|done]. f_equal. rewrite lookup_fmap, !merged_lookup, !decide_True by done. simpl.
  unfold overlay. rewrite lookup_union, lookup_fmap. destruct (default ∅ patch !! k), (base !! k); done.
Qed.

Lemma update_run now header dev patch d x : let '(r, d', x') := request (update_preferences now header dev patch) d x in
  match r with
  | Raise e => e = AppError UNAUTHORIZED ∧ d' = d ∧ x' = x
  | Ok (p, t) => ∃ a, (if otruthy header then header else dev) = Some a ∧ x' = x ∧ deliveries d' = deliveries d ∧ inbox d' = inbox d ∧
      (∀ b, b ≠ lower a → preferences d' !! b = preferences d !! b) ∧ prefs_of a d' = p ∧
      (∀ k, pf_channels p !! k = patched PREF_CHANNELS (pf_channels (prefs_of a d)) (u_channels patch) k) ∧
      (∀ k, pf_events p !! k = patched PREF_EVENTS (pf_events (prefs_of a d)) (u_events patch) k)
  end.
Proof.
  pose proof lower_idem as Hlow.
  unfold request, update_preferences, caller_address, upsert_preferences, mbind, handler_bind, query, mret, handler_ret, raise, throw, write, commit.
  destruct (if otruthy header then header else dev) as [a|]; [|done]. destruct (truthy a); [|done]. simpl. rewrite Hlow. exists a.
  assert (Hbase : ∀ (g : NotificationPreferenceRow → gmap string json) ks, _clean (Some (default ∅ (g <$> get_preferences (lower a) d))) ks ∪ all_on ks =
    match get_preferences a d with Some row => _clean (Some (g row)) ks ∪ all_on ks | None => all_on ks end).
  { intros g ks. unfold get_preferences. rewrite Hlow. destruct (preferences d !! lower a); [done|]. simpl. apply map_eq. intros k.
    rewrite merged_lookup, all_on_lookup, lookup_empty. done. }
  split_and!; try done.
  - intros b Hb. by rewrite lookup_insert_ne.
  - unfold prefs_of, get_preferences. simpl. by rewrite lookup_insert_eq.
  - intros k. rewrite overlay_merged, Hbase. unfold prefs_of, merge_preferences. by destruct (get_preferences a d).
  - intros k. rewrite overlay_merged, Hbase. unfold prefs_of, merge_preferences. by destruct (get_preferences a d).
Qed.

(** Where an intake may write. *)
Section gate.
Variables (sha256_hex : string → string) (resolve : uuid → option contact → Recipient) (broker : uuid → bool).

Definition allowed_rows (pf : Preferences) (ev : string) (d d' : ndb) : Prop :=
  inbox d' = inbox d ∧
  ∀ i r, deliveries d' !! i = Some r → deliveries d !! i = Some r ∨ ∃ c, channel r = Channel_value c ∧ allows pf ev (Channel_value c) = true.

#[local] Instance allowed_rows_preorder pf ev : PreOrder (allowed_rows pf ev).
Proof.
  split; [by split; [|auto]|]. intros a b c [Hi1 H1] [Hi2 H2]. split; [congruence|]. intros i r Hr. destruct (H2 i r Hr); [by apply H1|auto].
Qed.

Lemma wp_fan_allowed f ev u data pf r l w :
  wp (fan_out sha256_hex alone f ev u data pf r l) (λ _ w', allowed_rows pf ev (tx w) (tx w') ∧ db w' = db w) w.
Proof.
  revert w. induction l as [|[c t] l IH]; intros w; simpl; [done|]. apply wp_bind.
  apply (wp_mono _ (λ _ w', allowed_rows pf ev (tx w) (tx w') ∧ db w' = db w)).
  - unfold one_channel, insert_delivery. wp_go; try done. apply wp_others. unfold alone. cbn [db tx ext]. wp_go; try done.
    split; [|done]. split; [done|]. simpl. intros i row [[<- <-]|[_ ?]]%lookup_insert_Some; [|auto].
    right. exists c. split; [done|]. by apply negb_false_iff.
  - intros [one|e] w1 [H1 Hd1]; [|done]. apply wp_bind. eapply wp_mono; [apply IH|]. intros [out|e] w2 [H2 Hd2]; [apply wp_ret|]; (split; [by etrans|by rewrite Hd2]).
Qed.

(** An intake writes to the inbox only if the preferences allow the in-app channel. *)
Lemma intake_allowed now f ev q d x : allows (effective q d) ev "in_app" = false →
  allowed_rows (effective q d) ev d (request (intake sha256_hex resolve alone broker now f ev q) d x).1.2.
Proof.
  intros Hoff. apply (wp_request _ (λ _ d' _, allowed_rows (effective q d) ev d d')). unfold intake, inbox_part. do 3 wp_step.
  rewrite Hoff. apply (wp_mono _ (λ _ w', w' = Uow d d x)); [wp_go; try done; by rewrite andb_false_r in *|].
  intros [created|e] w' ->; [|done]. wp_go; try done. eapply wp_mono; [apply wp_fan_allowed|]. intros [out|e] w2 [H2 Hd2]; [|by simpl in *; rewrite Hd2].
  wp_go. eapply wp_mono; [apply wp_enqueue_all|]. intros r w3 (-> & Hd3 & _). wp_go. by rewrite Hd3.
Qed.

Lemma intake_channels now f ev q d x i r : let d' := (request (intake sha256_hex resolve alone broker now f ev q) d x).1.2 in
  deliveries d' !! i = Some r → deliveries d !! i = Some r ∨ ∃ c, channel r = Channel_value c ∧ allows (effective q d) ev (Channel_value c) = true.
Proof.
  set (P := λ d', ∀ i r, deliveries d' !! i = Some r → deliveries d !! i = Some r ∨
    ∃ c, channel r = Channel_value c ∧ allows (effective q d) ev (Channel_value c) = true).
  intros d'. apply (wp_request _ (λ _ d' _, P d')). unfold intake, inbox_part. do 3 wp_step.
  apply (wp_mono _ (λ _ w', db w' = d ∧ deliveries (tx w') = deliveries d)).
  { wp_go; try done. eapply wp_mono; [apply wp_write_inbox|]. intros [[]|] w' (? & ? & ? & ? & ?); wp_go; done. }
  intros [created|e] w' [Hdb Htx]; [|unfold P; simpl; rewrite Hdb; auto]. wp_go; unfold P; simpl; rewrite ?Hdb, ?Htx; auto.
  eapply wp_mono; [apply wp_fan_allowed|]. intros [out|e] w2 [[_ H2] Hd2]; [|simpl in *; rewrite Hd2, Hdb; auto].
  wp_go. eapply wp_mono; [apply wp_enqueue_all|]. intros r' w3 (-> & Hd3 & _). wp_go. rewrite Hd3. simpl. intros j row Hj.
  destruct (H2 j row Hj); [left; by rewrite <- Htx|auto].
Qed.

(** an opt-out is respected.  After a recipient has patched their preferences, an event for their address
    whose kind they switched off, or a channel they switched off, leaves that channel
    alone: no inbox notification is written for the in-app channel, and no delivery of the
    channel is created; the patch changes nothing else, in particular no other recipient's preferences. *)
Theorem opt_out_respected (now now' : Z) (f : fresh) (header dev : option string) (a a' ev : string) (patch : PreferencesPatch)
    (q : Intake) (d : ndb) (x : nworld) (p : Preferences) (t : Z) (d1 : ndb) (x1 : nworld)
    (Hput : request (update_preferences now header dev patch) d x = (Ok (p, t), d1, x1))
    (Hcaller : (if otruthy header then header else dev) = Some a) (Hto : in_addr q = Some a') (Ha' : truthy a' = true) (Hsame : lower a' = lower a) :
  let d2 := (request (intake sha256_hex resolve alone broker now' f ev q) d1 x1).1.2 in
  let off ch := (default ∅ (u_channels patch) !! ch = Some false ∨ (ev ∈ PREF_EVENTS ∧ default ∅ (u_events patch) !! ev = Some false)) in
  (off "in_app" → inbox d2 = inbox d1) ∧
  (∀ c i r, off (Channel_value c) → deliveries d2 !! i = Some r → channel r = Channel_value c → deliveries d1 !! i = Some r) ∧
  (∀ b, b ≠ lower a → preferences d1 !! b = preferences d !! b) ∧ inbox d1 = inbox d ∧ deliveries d1 = deliveries d.
Proof.
  intros d2 off. pose proof (update_run now header dev patch d x) as Hu. rewrite Hput in Hu.
  destruct Hu as (a0 & Ha0 & -> & Hdel & Hib & Hother & Hpf & Hch & Hevs). rewrite Hcaller in Ha0. injection Ha0 as <-.
  assert (Heff : effective q d1 = p).
  { unfold effective. rewrite Hto, Ha', <- Hpf. unfold prefs_of, get_preferences. by rewrite Hsame. }
  assert (Hoff : ∀ ch, ch ∈ PREF_CHANNELS → off ch → allows p ev ch = false).
  { intros ch Hin [Hc|[He Hc]]; unfold allows.
    - rewrite Hch. unfold patched. rewrite decide_True, Hc by done. apply andb_false_r.
    - rewrite Hevs. unfold patched. by rewrite decide_True, Hc by done. }
  split_and!; try done.
  - intros H1. pose proof (intake_allowed now' f ev q d1 x) as Hal. rewrite Heff in Hal. apply Hal. apply Hoff; [set_solver|done].
  - intros c i r H1 Hr Hc. destruct (intake_channels now' f ev q d1 x i r Hr) as [?|(c' & Hc' & Hall)]; [done|].
    rewrite Heff in Hall. rewrite <- Hc', Hc in Hall. rewrite Hoff in Hall; [done| |done]. destruct c; set_solver.
Qed.
End gate.

(** ** The inbox belongs to its address *)

(** What one API call may do to the row of another address: nothing; to an own row: mark it read. *)
Definition own_reads (a : string) (d d' : ndb) : Prop :=
  deliveries d' = deliveries d ∧ preferences d' = preferences d ∧
  ∀ i, match inbox d !! i, inbox d' !! i with
       | None, None => True
       | Some r, Some r' => r' = r ∨ (recipient_addr r = a ∧ read r = false ∧ ∃ now, r' = set_read now r)
       | _, _ => False
       end.

Lemma own_reads_refl a d : own_reads a d d.
Proof. split_and!; try done. intros i. destruct (inbox d !! i); auto. Qed.

(** a caller reads and marks only their own inbox.  Listing returns only notifications addressed to the
    caller; marking one or all as read changes only unread notifications addressed to the caller, and of
    those only the read mark; and a notification addressed to someone else is answered exactly as one
    that does not exist. *)
Theorem inbox_isolation `{!InboxCursor} (now : Z) (header dev : option string) (a : string) (i : uuid) (limit : Z) (cursor : option string)
    (d : ndb) (x : nworld) (Hcaller : (if otruthy header then header else dev) = Some a) :
  own_reads (lower a) d (request (mark_read now header dev i) d x).1.2 ∧
  own_reads (lower a) d (request (mark_all_read now header dev) d x).1.2 ∧
  (∀ rs next, (request (list_notifications header dev limit cursor) d x).1.1 = Ok (rs, next) →
     ∀ j r, (j, r) ∈ rs → inbox d !! j = Some r ∧ recipient_addr r = lower a) ∧
  (∀ r, inbox d !! i = Some r → recipient_addr r ≠ lower a → truthy a = true →
     request (mark_read now header dev i) d x = (Raise (AppError NOTIFICATION_NOT_FOUND), d, x)).
Proof.
  unfold mark_read, mark_all_read, list_notifications, caller_address. rewrite Hcaller. split_and!.
  - apply (wp_request _ (λ _ d' _, own_reads (lower a) d d')). unfold mark_inbox_read. wp_go; try apply own_reads_refl; simpl.
    all: apply negb_false_iff, bool_decide_eq_true in Heqb0; rewrite lower_idem in Heqb0; split_and!; try done; intros j; simpl;
      (destruct (decide (j = i)) as [->|Hne]; [rewrite lookup_insert_eq, Heqo|rewrite lookup_insert_ne by done; by destruct (inbox d !! j); auto]).
    all: destruct (read i0) eqn:Hr; [by left|right]; split_and!; try done; by exists now.
  - apply (wp_request _ (λ _ d' _, own_reads (lower a) d d')). unfold mark_all_inbox_read. wp_go; try apply own_reads_refl; simpl.
    split_and!; try done. intros j. simpl. rewrite lookup_fmap. destruct (inbox d !! j) as [r|]; simpl; [|done]. case_decide as Hu; [right|by left].
    destruct Hu as [Hu Hr]. rewrite lower_idem in Hu. split_and!; try done. by exists now.
  - intros rs next. unfold request, mbind, handler_bind, mret, handler_ret, query, raise, throw.
    destruct (truthy a); [|done]. destruct (negb _); [done|]. simpl. unfold list_inbox.
    destruct (page _ _ _ _ _) as [rs' nx] eqn:Hp. intros [= <- <-] j r Hin.
    assert (Hown : (j, r) ∈ owned (lower a) d).
    { revert Hp Hin. unfold page. destruct (_ <? _)%nat; intros [= <- <-] Hin.
      - apply elem_of_take in Hin as (n & Hin & _). apply list_elem_of_lookup_2, elem_of_take in Hin as (m & Hin & _).
        apply list_elem_of_lookup_2 in Hin. rewrite merge_sort_Permutation in Hin. by apply list_elem_of_filter in Hin as [_ ?].
      - apply elem_of_take in Hin as (n & Hin & _). apply list_elem_of_lookup_2 in Hin. rewrite merge_sort_Permutation in Hin.
        by apply list_elem_of_filter in Hin as [_ ?]. }
    apply list_elem_of_filter in Hown as [Ho Hin']. apply elem_of_map_to_list in Hin'. rewrite lower_idem in Ho. done.
  - intros r Hr Hne Ht. unfold request, mbind, handler_bind, mret, handler_ret. rewrite Ht. simpl. unfold mark_inbox_read, mbind, handler_bind, query. simpl.
    rewrite Hr. rewrite bool_decide_false by (by rewrite lower_idem). done.
Qed.

(** ** Templates *)

(** The templates of migration 0001. *)
Definition _SEED_TEMPLATES : list TemplateRow :=
  [mkTemplate "sms.paylink_verified.en" "sms" "en" "Your PayLink for $amount $currency is verified. Ref: $paylink_id" true;
   mkTemplate "email.paylink_verified.en" "email" "en" "Hi — your PayLink ($paylink_id) for $amount $currency has been verified." true;
   mkTemplate "sms.payment_failed.en" "sms" "en" "Payment of $amount $currency failed: $reason." true;
   mkTemplate "email.payment_failed.en" "email" "en" "Your payment of $amount $currency could not be completed. Reason: $reason." true].

Lemma seed_none ev d : ev = "paylink.created" ∨ ev = "paylink.cancelled" → templates d = _SEED_TEMPLATES → list_active_templates_for_event ev d = [].
Proof. intros Hev Ht. unfold list_active_templates_for_event. rewrite Ht. destruct Hev as [-> | ->]; vm_compute; reflexivity. Qed.

(** the two halves of an intake are not independent.  With the templates the service ships, an event
    paylink.created or paylink.cancelled that names both a recipient address and a user is refused with
    TEMPLATE_NOT_FOUND and leaves nothing behind, while the same event without the user is written to
    the inbox: the missing template of the SMS and email path takes the in-app notification
    with it. *)
Theorem missing_template_drops_inbox (sha256_hex : string → string) (resolve : uuid → option contact → Recipient) (broker : uuid → bool)
    (now : Z) (f : fresh) (ev a : string) (u : uuid) (o : list (string * json)) (lc : option string) (ct : option contact) (tl bd hr : option string)
    (d : ndb) (x : nworld) (Hev : ev = "paylink.created" ∨ ev = "paylink.cancelled") (Ha : truthy a = true)
    (Hon : allows (prefs_of a d) ev "in_app" = true) (Hseed : templates d = _SEED_TEMPLATES)
    (Hfree : inbox d !! f_inbox f = None) (Hnew : find_inbox_by_dedupe (inbox_key sha256_hex ev a o) d = None) :
  request (intake sha256_hex resolve alone broker now f ev (mkIntake (JObj o) (Some u) (Some a) lc ct tl bd hr)) d x =
    (Raise (AppError TEMPLATE_NOT_FOUND), d, x) ∧
  ∃ row, recipient_addr row = lower a ∧ read row = false ∧
    request (intake sha256_hex resolve alone broker now f ev (mkIntake (JObj o) None (Some a) lc ct tl bd hr)) d x =
      (Ok [f_inbox f], with_inbox <[f_inbox f := row]> d, x).
Proof.
  unfold request, intake, inbox_part, effective. cbn [in_addr in_data in_title in_body in_href in_user in_contact in_locale].
  unfold mbind, handler_bind, query. cbn [tx]. rewrite Ha. change (match get_preferences a d with Some row => _ | None => _ end) with (prefs_of a d).
  rewrite Hon. unfold _write_inbox, insert_inbox, mbind, handler_bind, lift, query, mret, handler_ret. cbn [dict_of andb tx].
  destruct (_inbox_presentation ev o) as [[k dt] dbd]. cbn [dedupe_key tx]. rewrite Hfree, Hnew. simpl. split.
  - by rewrite (seed_none ev (with_inbox _ d) Hev Hseed).
  - eexists. split_and!; [| |done]; done.
Qed.

(** ** Dedupe keys *)

Lemma uuid_text_no_bar u : has_char "|"%char (uuid_text u) = false.
Proof.
  unfold has_char, uuid_text. rewrite chars_text. apply bool_decide_eq_false. intros Hin.
  assert (Hf : Forall (λ c, c ≠ "|"%char) (dashed (hexn 32 u))).
  { apply dashed_forall; [done|]. eapply Forall_impl; [apply hexn_lowhex|]. by apply lowhex_not. }
  rewrite Forall_forall in Hf. by apply (Hf _ Hin).
Qed.

Lemma uuid_text_inj u u' : (u < 2 ^ 128)%N → (u' < 2 ^ 128)%N → uuid_text u = uuid_text u' → u = u'.
Proof. intros Hu Hu' He. apply (f_equal parse_uuid) in He. rewrite !parse_uuid_text in He by done. by injection He. Qed.

(** a delivery's dedupe key stands for one event, user, channel and dedupe base: SHA-256 not colliding on the
    two texts, equal keys come from equal parts, so distinct notifications are never taken for
    duplicates of one another. *)
Theorem dedupe_key_faithful (sha256_hex : string → string) (ev ev' : string) (u u' : uuid) (c c' : Channel) (data data' : list (string * json))
    (Hev : has_char "|"%char ev = false) (Hev' : has_char "|"%char ev' = false) (Hu : (u < 2 ^ 128)%N) (Hu' : (u' < 2 ^ 128)%N)
    (Hsha : ∀ s s', sha256_hex s = sha256_hex s' → s = s')
    (Hkey : _dedupe_key sha256_hex ev u c data = _dedupe_key sha256_hex ev' u' c' data') :
  ev = ev' ∧ u = u' ∧ c = c' ∧ dedupe_base sha256_hex data = dedupe_base sha256_hex data'.
Proof.
  apply Hsha in Hkey. apply (app_sep_inj "|"%char) in Hkey as [-> Hkey]; [|done|done].
  apply (app_sep_inj "|"%char) in Hkey as [Huu Hkey]; [|apply uuid_text_no_bar|apply uuid_text_no_bar]. apply uuid_text_inj in Huu as ->; [|done|done].
  apply (app_sep_inj "|"%char) in Hkey as [Hc Hb]; [|by destruct c|by destruct c']. split_and!; try done. by destruct c, c'.
Qed.

(** ** Paging through the inbox *)

#[global] Instance inbox_lt_strict : StrictOrder inbox_lt.
Proof. split; [intros a [?|[_ ?]]; lia|intros a b c; unfold inbox_lt; lia]. Qed.

Lemma inbox_lt_total a b : inbox_lt a b ∨ a = b ∨ inbox_lt b a.
Proof.
  destruct a as [t i], b as [t' i']. unfold inbox_lt. simpl. destruct (Z.lt_trichotomy t t') as [?|[->|?]]; [auto| |auto].
  destruct (N.lt_trichotomy i i') as [?|[->|?]]; auto.
Qed.

Lemma owned_keys a d : NoDup (inbox_sort_key <$> owned a d).
Proof.
  unfold owned. apply NoDup_fmap_2_strong; [|apply NoDup_filter, NoDup_map_to_list].
  intros [i r] [j r'] [_ Hi%elem_of_map_to_list]%list_elem_of_filter [_ Hj%elem_of_map_to_list]%list_elem_of_filter [= _ ->]. congruence.
Qed.

(** A client following the cursors. *)
Fixpoint inbox_all `{!InboxCursor} (fuel : nat) (addr : string) (limit : nat) (cursor : option string) (d : ndb) : list (uuid * InboxNotificationRow) :=
  let '(rs, next) := list_inbox addr limit cursor d in
  match next, fuel with Some c, S fuel' => rs ++ inbox_all fuel' addr limit (Some c) d | _, _ => rs end.

(** Following the cursors shows every notification of the caller once, newest first. *)
Lemma inbox_listing_complete `{!InboxCursor} (fuel limit : nat) (addr : string) (d : ndb) :
  (0 < limit)%nat → (length (owned addr d) ≤ fuel)%nat →
  inbox_all fuel addr limit None d ≡ₚ owned addr d ∧ StronglySorted (desc inbox_sort_key inbox_lt) (inbox_all fuel addr limit None d).
Proof.
  intros Hl Hf.
  assert (Hw : ∀ cur, inbox_all fuel addr limit (_encode_inbox_cursor <$> cur) d = walk inbox_sort_key inbox_lt fuel limit cur (owned addr d)).
  { clear Hf. induction fuel as [|fuel IH]; intros cur; cbn [inbox_all walk];
      (assert (list_inbox addr limit (_encode_inbox_cursor <$> cur) d =
         let '(rs, next) := page inbox_sort_key inbox_lt limit cur (owned addr d) in (rs, _encode_inbox_cursor <$> next)) as ->;
       [unfold list_inbox; destruct cur as [k|]; simpl; rewrite ?encode_inbox_truthy, ?decode_encode_inbox; done|]);
      destruct (page _ _ _ _ _) as [rs [nx|]]; simpl; try done. by rewrite <- (IH (Some nx)). }
  specialize (Hw None). simpl in Hw. rewrite Hw, walk_complete by (done || apply _ || apply owned_keys || apply inbox_lt_total).
  split; [apply merge_sort_Permutation|by apply sorted_rows; try apply _; apply inbox_lt_total].
Qed.

(** ** Concrete runs *)

Definition demo_fresh (n : uuid) : fresh := mkFresh n (λ c, match c with SMS => (n + 1)%N | EMAIL => (n + 2)%N end).
Definition demo_ndb : ndb := mkNdb ∅ ∅ ∅ _SEED_TEMPLATES.
Definition demo_sys : nsys := mkSys demo_ndb (mkNw []) [].
Definition demo_event (user addr : json) : EventPayload :=
  mkEvent user addr (JObj [("pl_id", JStr "0x1"); ("amount", JInt 5); ("currency", JStr "KES")]) None
    (Some [("phone", JStr "+2541"); ("email", JStr "a@b")]) None None None.
Definition demo_requests : list nreq :=
  [NEvent 1 (demo_fresh 10) (λ _, false) "paylink.verified" (demo_event (JStr (uuid_text 7)) (JStr "0xAb"));
   NWorker 2 11; NWorker 3 12; NRead 4 (Some "0xab") None 10].

Lemma demo_sys_ok : sys_ok demo_sys.
Proof. split_and!; [by split|..]; simpl; try set_solver. intros i [r Hr]. by rewrite lookup_empty in Hr. Qed.

Lemma notifications_exactly_once_witness :
  let s := serve_all id InlineRecipientResolver alone demo_channels demo_sys demo_requests in
  size (deliveries (s_db s)) = 2%nat ∧ length (s_log s) = 2%nat ∧ calls 12 Accepted (s_log s) ≤ 1.
Proof.
  intros s. split; [by vm_compute|]. split; [by vm_compute|].
  destruct (notifications_exactly_once id InlineRecipientResolver alone demo_channels
    demo_requests demo_sys demo_sys_ok) as (_ & _ & Hc & _).
  exact (proj1 (Hc 12%N)).
Defined.

Lemma refused_task_never_requeued_witness :
  let s := serve_all id InlineRecipientResolver alone demo_channels demo_sys (take 1 demo_requests) in
  11%N ∉ enqueued (s_x (serve_all id InlineRecipientResolver alone demo_channels s
    [NEvent 5 (demo_fresh 20) (λ _, true) "paylink.verified" (demo_event (JStr (uuid_text 7)) (JStr "0xAb"))])).
Proof.
  intros s. apply (refused_task_never_requeued id InlineRecipientResolver alone demo_channels
    [NEvent 5 (demo_fresh 20) (λ _, true) "paylink.verified" (demo_event (JStr (uuid_text 7)) (JStr "0xAb"))] s 11).
  - destruct (deliveries (s_db s) !! 11%N) as [r|] eqn:E; [by eexists|]. vm_compute in E. discriminate.
  - apply (bool_decide_unpack _). vm_compute. exact I.
Defined.

Definition demo_intake : Intake :=
  mkIntake (JObj [("amount", JInt 5)]) (Some 7%N) (Some "0xAb") None (Some [("phone", JStr "+2541"); ("email", JStr "a@b")]) None None None.

Lemma demo_fresh_ok : fresh_in (demo_fresh 10) demo_ndb.
Proof. split_and!; [done|done|]. by intros [] []. Qed.

Lemma redelivered_intake_noop_witness :
  let '(r, d, x) := request (intake id InlineRecipientResolver alone (λ _, true) 1 (demo_fresh 10) "payment.failed" demo_intake) demo_ndb (mkNw []) in
  r = Ok [10%N; 11%N; 12%N] ∧ enqueued x = [11%N; 12%N] ∧
  request (intake id InlineRecipientResolver alone (λ _, true) 9 (demo_fresh 20) "payment.failed" demo_intake) d x = (r, d, x).
Proof.
  destruct (request (intake id InlineRecipientResolver alone (λ _, true) 1 (demo_fresh 10) "payment.failed" demo_intake) demo_ndb (mkNw []))
    as [[[ids|e] d] x] eqn:E.
  - assert (Hids : ids = [10%N; 11%N; 12%N] ∧ enqueued x = [11%N; 12%N]) by (vm_compute in E; injection E as <- <- <-; done).
    destruct Hids as [Hids Hx]. split_and!; [by rewrite Hids|done|].
    apply (redelivered_intake_noop id InlineRecipientResolver (λ _, true) (λ _, true) 1 9 (demo_fresh 10) (demo_fresh 20) "payment.failed" demo_intake
      demo_ndb d (mkNw []) x ids); [by split|exact demo_fresh_ok|exact E].
  - vm_compute in E. discriminate.
Defined.

Definition demo_patch : PreferencesPatch := mkPatch (Some {[ "sms" := false ]}) None.

Lemma opt_out_respected_witness :
  match request (update_preferences 1 (Some "0xAB") None demo_patch) demo_ndb (mkNw []) with
  | (Ok _, d1, x1) =>
      ∀ i r, deliveries (request (intake id InlineRecipientResolver alone (λ _, true) 2 (demo_fresh 10) "payment.failed" demo_intake) d1 x1).1.2 !! i = Some r →
        channel r = "sms" → deliveries d1 !! i = Some r
  | _ => False
  end.
Proof.
  destruct (request (update_preferences 1 (Some "0xAB") None demo_patch) demo_ndb (mkNw [])) as [[[[p t]|e] d1] x1] eqn:E.
  - destruct (opt_out_respected id InlineRecipientResolver (λ _, true) 1 2 (demo_fresh 10) (Some "0xAB") None "0xAB" "0xAb" "payment.failed" demo_patch
      demo_intake demo_ndb (mkNw []) p t d1 x1 E eq_refl eq_refl eq_refl eq_refl) as (_ & Hc & _).
    intros i r Hr Hch. exact (Hc SMS i r (or_introl eq_refl) Hr Hch).
  - vm_compute in E. discriminate.
Defined.

(** A cursor text: the two numbers in decimal. *)
#[refine] Instance demo_cursor : InboxCursor := {
  _encode_inbox_cursor c := "c" +:+ text (PyJson.print PyJson.escape (JList [JInt c.1; JInt (Z.of_N c.2)]));
  _decode_inbox_cursor s := match chars s with
    | c :: l => match PyJson.read 10 l with Some (JList [JInt t; JInt i], []) => Some (t, Z.to_N i) | _ => None end
    | [] => None
    end }.
Proof.
  - intros [t i]. cbn [fst snd]. set (j := JList [JInt t; JInt (Z.of_N i)]).
    assert (Hc : chars ("c" +:+ text (PyJson.print PyJson.escape j)) = "c"%char :: PyJson.print PyJson.escape j) by (simpl; by rewrite chars_text).
    rewrite Hc. rewrite <- (app_nil_r (PyJson.print PyJson.escape j)).
    rewrite (PyJson.read_print PyJson.escape PyJson.escape_read PyJson.escape_head j); [|simpl; lia|done].
    simpl. by rewrite N2Z.id.
  - done.
Defined.

Lemma inbox_isolation_witness :
  let d := s_db (serve_all id InlineRecipientResolver alone demo_channels demo_sys (take 1 demo_requests)) in
  request (mark_read 3 (Some "0xcd") None 10) d (mkNw []) = (Raise (AppError NOTIFICATION_NOT_FOUND), d, mkNw []).
Proof.
  intros d. destruct (inbox_isolation 3 (Some "0xcd") None "0xcd" 10 5 None d (mkNw []) eq_refl) as (_ & _ & _ & Hno).
  destruct (inbox d !! 10%N) as [r|] eqn:E; [|vm_compute in E; discriminate]. apply (Hno r); [done| |done].
  vm_compute in E. injection E as <-. vm_compute. discriminate.
Defined.

Lemma missing_template_drops_inbox_witness :
  request (intake id InlineRecipientResolver alone (λ _, true) 1 (demo_fresh 10) "paylink.created"
    (mkIntake (JObj [("pl_id", JStr "0x1")]) (Some 7%N) (Some "0xAb") None None None None None)) demo_ndb (mkNw []) =
  (Raise (AppError TEMPLATE_NOT_FOUND), demo_ndb, mkNw []).
Proof.
  apply (missing_template_drops_inbox id InlineRecipientResolver (λ _, true) 1 (demo_fresh 10) "paylink.created" "0xAb" 7 [("pl_id", JStr "0x1")]
    None None None None None demo_ndb (mkNw [])); try reflexivity. by left.
Defined.

Lemma dedupe_key_faithful_witness :
  _dedupe_key id "payment.failed" 7 SMS [("amount", JInt 5)] = _dedupe_key id "payment.failed" 7 SMS [("amount", JInt 5)] ∧
  "payment.failed" = "payment.failed" ∧ 7%N = 7%N ∧ SMS = SMS ∧ dedupe_base id [("amount", JInt 5)] = dedupe_base id [("amount", JInt 5)].
Proof.
  split; [reflexivity|]. apply (dedupe_key_faithful id "payment.failed" "payment.failed" 7 7 SMS SMS [("amount", JInt 5)] [("amount", JInt 5)]);
    try reflexivity. by intros s s'.
Defined.
End Notify.
