(* ===== verification/Http.v ===== *)
(** * The HTTP shell of the services

    [errors.py], [logging.py] and [create_app] of [main.py], which every service
    has, and [telemetry-python]'s middleware: error codes and envelopes, exception
    handlers, the correlation id, the request metrics and the readiness probe.

    Starlette runs a service as [ServerErrorMiddleware] around the added
    middleware (the last added outermost) around [ExceptionMiddleware] around the
    router; the handler registered for [Exception] belongs to the outermost one,
    the others to [ExceptionMiddleware].  An application takes a request and the
    context (the [trace_id] context variable and the request counter) and answers
    or raises. *)
From S2P Require Import Prelude PyText PyNum Chain Pricing Invoice IdentityDb Admin Merchant Compliance Notify.
From Stdlib Require Import Ascii.

Module Http.
Import PyNum.
Open Scope Z_scope.

(** ** errors.py *)

(** A service's [ErrorCode] and [_HTTP_STATUS]: texts that tell the codes apart,
    error statuses, and the codes its handlers use.  A service without the
    idempotency library has no handler for its conflict. *)
Class ErrorTable (Code : Type) := {
  code_value : Code → string;
  http_status : Code → Z;
  invalid_payload : Code;
  internal_error : Code;
  idempotent_conflict : option Code;
  code_value_inj : ∀ a b, code_value a = code_value b → a = b;
  http_status_range : ∀ c, 400 ≤ http_status c ≤ 599;
  own_statuses : http_status invalid_payload = 400 ∧ http_status internal_error = 500 ∧
    ∀ c, idempotent_conflict = Some c → http_status c = 409 }.

(** What reaches the handlers: [AppError], [IdempotencyConflict],
    [RequestValidationError], Starlette's [HTTPException], anything else. *)
Inductive failure (Code : Type) :=
| App (code : Code) (message : string) (details : list (string * json)) (status : option Z)
| Conflict (message : string)
| Invalid (errors : json)
| Http (status : Z) (detail : json)
| Unexpected (kind : pyerr).
Arguments App {Code} code message details status.
Arguments Conflict {Code} message.
Arguments Invalid {Code} errors.
Arguments Http {Code} status detail.
Arguments Unexpected {Code} kind.

Definition envelope (trace_id code message : string) (details : list (string * json)) : json :=
  JObj [("error", JObj [("code", JStr code); ("message", JStr message); ("details", JObj details); ("trace_id", JStr trace_id)])].

Record response := mkResponse { r_status : Z; r_headers : list (string * string); r_body : json }.

Section handlers.
Context {Code : Type} `{!ErrorTable Code}.

(** [install_error_handlers], the handlers [ExceptionMiddleware] runs; nothing
    for an exception it passes on. *)
Definition install_error_handlers (trace_id : string) (f : failure Code) : option response :=
  match f with
  | App c m details st =>
      Some (mkResponse (match st with Some z => z | None => http_status c end) [] (envelope trace_id (code_value c) m details))
  | Conflict m =>
      (λ c, mkResponse (http_status c) [] (envelope trace_id (code_value c) m [])) <$> idempotent_conflict
  | Invalid errors =>
      Some (mkResponse (http_status invalid_payload) []
        (envelope trace_id (code_value invalid_payload) "request validation failed" [("errors", errors)]))
  | Http st detail =>
      Some (mkResponse st [] (envelope trace_id ("HTTP_" +:+ py_str (JInt st))
        match detail with JStr m => m | _ => "http error" end []))
  | Unexpected _ => None
  end.

Definition _handle_unexpected (trace_id : string) : response :=
  mkResponse 500 [] (envelope trace_id (code_value internal_error) "internal error" []).
End handlers.

(** ** logging.py and telemetry-python: asgi.py, metrics.py *)

Record request := mkRequest { method : string; path : string; q_headers : list (string * string) }.

Record context := mkContext { trace_id_var : string; HTTP_REQUESTS : list (string * string * Z) }.

Definition set_trace (t : string) (c : context) : context := mkContext t (HTTP_REQUESTS c).

Abbreviation app Code := (request → context → outcome (failure Code) response * context).

Definition header (name : string) (hs : list (string * string)) : option string :=
  snd <$> head (filter (λ kv, kv.1 = name) hs).

(** [uuid4().hex], and the 32 hexadecimal digits of a trace id. *)
Definition hex32 (u : N) : string := text (hexn 32 u).

Definition RequestIdMiddleware {Code} (fresh : uuid) (inner : app Code) : app Code := λ q c,
  let rid := str_or (header "x-request-id" (q_headers q)) (hex32 fresh) in
  let '(r, c1) := inner q (set_trace rid c) in
  (match r with
   | Ok a => Ok (mkResponse (r_status a) (r_headers a ++ [("x-request-id", rid)]) (r_body a))
   | Raise e => Raise e
   end, set_trace (trace_id_var c) c1).

Definition _set_header (name value : string) (hs : list (string * string)) : list (string * string) :=
  filter (λ kv, lower kv.1 ≠ lower name) hs ++ [(name, value)].

(** [routes]: each with its match on the request (it may raise) and its path. *)
Record route := mkRoute { matches : request → outcome pyerr bool; r_path : string }.

Fixpoint route_template (routes : list route) (q : request) : string :=
  match routes with
  | [] => "unmatched"
  | r :: rest =>
      match matches r q with
      | Ok true => if truthy (r_path r) then r_path r else "unmatched"
      | _ => route_template rest q
      end
  end.

(** [span] gives the trace id of the span started for the request's headers, 0
    when tracing is off. *)
Definition ObservabilityMiddleware {Code} (span : list (string * string) → N) (routes : list route) (inner : app Code) : app Code := λ q c,
  let t := span (q_headers q) in
  let q1 := if bool_decide (t = 0%N) then q else mkRequest (method q) (path q) (_set_header "x-request-id" (hex32 t) (q_headers q)) in
  let '(r, c1) := inner q1 c in
  let code := match r with Ok a => r_status a | Raise _ => 500 end in
  (r, mkContext (trace_id_var c1) (HTTP_REQUESTS c1 ++ [(method q, route_template routes q1, code)])).

Section service.
Context {Code : Type} `{!ErrorTable Code}.

Definition ExceptionMiddleware (inner : app Code) : app Code := λ q c,
  let '(r, c1) := inner q c in
  match r with
  | Ok a => (Ok a, c1)
  | Raise e => match install_error_handlers (trace_id_var c1) e with
               | Some a => (Ok a, c1)
               | None => (Raise e, c1)
               end
  end.

(** The handler of [Exception]; the exception is raised on to the server after
    the answer is sent. *)
Definition ServerErrorMiddleware (inner : app Code) (q : request) (c : context) : response * context :=
  let '(r, c1) := inner q c in
  (match r with Ok a => a | Raise _ => _handle_unexpected (trace_id_var c1) end, c1).

(** [create_app]: [RequestIdMiddleware] added first, [ObservabilityMiddleware]
    around it. *)
Definition serve_http (fresh : uuid) (span : list (string * string) → N) (routes : list route) (router : app Code) :
    request → context → response * context :=
  ServerErrorMiddleware (ObservabilityMiddleware span routes (RequestIdMiddleware fresh (ExceptionMiddleware router))).
End service.

(** ** main.py *)

Definition healthz : Z * json := (200, JObj [("status", JStr "ok")]).

(** [readyz]: the database and Redis must answer; a [soft] dependency only
    degrades. *)
Definition readyz (soft : option string) (db_up redis_up soft_up : bool) : Z * json :=
  let mark (b : bool) (bad : string) := JStr (if b then "ok" else bad) in
  let ready := db_up && redis_up in
  (if ready then 200 else 503,
   JObj [("status", JStr (if ready then "ready" else "not_ready"));
         ("checks", JObj ([("db", mark db_up "error"); ("redis", mark redis_up "error")]
            ++ match soft with Some k => [(k, mark soft_up "degraded")] | None => [] end))]).

(** The laws of a table, by cases. *)
Ltac table_inj := intros a b; destruct a, b; intros Hab; first [reflexivity | discriminate Hab].
Ltac table_range := intros c; destruct c; vm_compute; split; discriminate.

(** ** The error codes of the services *)

Definition identity_code_value (c : Identity.ErrorCode) : string :=
  match c with
  | Identity.INVALID_PAYLOAD => "INVALID_PAYLOAD" | Identity.INVALID_QUERY => "INVALID_QUERY"
  | Identity.IDEMPOTENT_CONFLICT => "IDEMPOTENT_CONFLICT" | Identity.UNAUTHORIZED => "UNAUTHORIZED"
  | Identity.FORBIDDEN => "FORBIDDEN" | Identity.INTERNAL_ERROR => "INTERNAL_ERROR"
  | Identity.EMAIL_TAKEN => "EMAIL_TAKEN" | Identity.PHONE_TAKEN => "PHONE_TAKEN"
  | Identity.USER_NOT_FOUND => "USER_NOT_FOUND" | Identity.USER_SUSPENDED => "USER_SUSPENDED"
  | Identity.INVALID_CREDENTIALS => "INVALID_CREDENTIALS" | Identity.INVALID_TOKEN => "INVALID_TOKEN"
  | Identity.TOKEN_EXPIRED => "TOKEN_EXPIRED" | Identity.MFA_REQUIRED => "MFA_REQUIRED"
  | Identity.MFA_INVALID => "MFA_INVALID" | Identity.MFA_NOT_ENROLLED => "MFA_NOT_ENROLLED"
  | Identity.MFA_ALREADY_ENROLLED => "MFA_ALREADY_ENROLLED" | Identity.ORG_NOT_FOUND => "ORG_NOT_FOUND"
  | Identity.MEMBER_NOT_FOUND => "MEMBER_NOT_FOUND" | Identity.MEMBER_EXISTS => "MEMBER_EXISTS"
  | Identity.CANNOT_REMOVE_LAST_OWNER => "CANNOT_REMOVE_LAST_OWNER"
  | Identity.API_KEY_NOT_FOUND => "API_KEY_NOT_FOUND" | Identity.SCOPE_NOT_ALLOWED => "SCOPE_NOT_ALLOWED"
  | Identity.SESSION_NOT_FOUND => "SESSION_NOT_FOUND" | Identity.OAUTH_PROVIDER_UNKNOWN => "OAUTH_PROVIDER_UNKNOWN"
  | Identity.OAUTH_EXCHANGE_FAILED => "OAUTH_EXCHANGE_FAILED" | Identity.KYC_GATE => "KYC_GATE"
  end.

#[global] Program Instance identity_errors : ErrorTable Identity.ErrorCode :=
  {| code_value := identity_code_value; http_status := Identity._HTTP_STATUS; invalid_payload := Identity.INVALID_PAYLOAD;
     internal_error := Identity.INTERNAL_ERROR; idempotent_conflict := Some Identity.IDEMPOTENT_CONFLICT |}.
Next Obligation. table_inj. Qed.
Next Obligation. table_range. Qed.
Next Obligation. by split_and!; [..|intros c [= <-]]. Qed.

Definition paylink_code_value (c : Chain.ErrorCode) : string :=
  match c with
  | Chain.PAYLINK_NOT_FOUND => "PAYLINK_NOT_FOUND" | Chain.INVALID_PAYLOAD => "INVALID_PAYLOAD"
  | Chain.INVALID_QUERY => "INVALID_QUERY" | Chain.IDEMPOTENT_CONFLICT => "IDEMPOTENT_CONFLICT"
  | Chain.PAYLINK_ALREADY_SETTLED => "PAYLINK_ALREADY_SETTLED" | Chain.PAYLINK_EXPIRED_ERR => "PAYLINK_EXPIRED"
  | Chain.KYC_REQUIRED => "KYC_REQUIRED" | Chain.CHAIN_UNAVAILABLE => "CHAIN_UNAVAILABLE"
  | Chain.UNAUTHORIZED => "UNAUTHORIZED" | Chain.INTERNAL_ERROR => "INTERNAL_ERROR"
  end.

#[global] Program Instance paylink_errors : ErrorTable Chain.ErrorCode :=
  {| code_value := paylink_code_value; http_status := Chain._HTTP_STATUS; invalid_payload := Chain.INVALID_PAYLOAD;
     internal_error := Chain.INTERNAL_ERROR; idempotent_conflict := Some Chain.IDEMPOTENT_CONFLICT |}.
Next Obligation. table_inj. Qed.
Next Obligation. table_range. Qed.
Next Obligation. by split_and!; [..|intros c [= <-]]. Qed.

Definition invoice_code_value (c : Invoice.ErrorCode) : string :=
  match c with
  | Invoice.INVALID_PAYLOAD => "INVALID_PAYLOAD" | Invoice.INVALID_QUERY => "INVALID_QUERY"
  | Invoice.IDEMPOTENT_CONFLICT => "IDEMPOTENT_CONFLICT" | Invoice.UNAUTHORIZED => "UNAUTHORIZED"
  | Invoice.FORBIDDEN => "FORBIDDEN" | Invoice.INTERNAL_ERROR => "INTERNAL_ERROR"
  | Invoice.INVALID_TOKEN => "INVALID_TOKEN" | Invoice.TOKEN_EXPIRED => "TOKEN_EXPIRED"
  | Invoice.INVOICE_NOT_FOUND => "INVOICE_NOT_FOUND" | Invoice.INVALID_STATE => "INVALID_STATE"
  | Invoice.ALREADY_PAID => "ALREADY_PAID" | Invoice.PAYLINK_UNAVAILABLE => "PAYLINK_UNAVAILABLE"
  end.

Definition invoice_http_status (c : Invoice.ErrorCode) : Z :=
  match c with
  | Invoice.INVALID_PAYLOAD | Invoice.INVALID_QUERY => 400
  | Invoice.IDEMPOTENT_CONFLICT | Invoice.INVALID_STATE | Invoice.ALREADY_PAID => 409
  | Invoice.UNAUTHORIZED | Invoice.INVALID_TOKEN | Invoice.TOKEN_EXPIRED => 401
  | Invoice.FORBIDDEN => 403
  | Invoice.INTERNAL_ERROR => 500
  | Invoice.INVOICE_NOT_FOUND => 404
  | Invoice.PAYLINK_UNAVAILABLE => 502
  end.

#[global] Program Instance invoice_errors : ErrorTable Invoice.ErrorCode :=
  {| code_value := invoice_code_value; http_status := invoice_http_status; invalid_payload := Invoice.INVALID_PAYLOAD;
     internal_error := Invoice.INTERNAL_ERROR; idempotent_conflict := Some Invoice.IDEMPOTENT_CONFLICT |}.
Next Obligation. table_inj. Qed.
Next Obligation. table_range. Qed.
Next Obligation. by split_and!; [..|intros c [= <-]]. Qed.

Definition merchant_code_value (c : Merchant.ErrorCode) : string :=
  match c with
  | Merchant.INVALID_PAYLOAD => "INVALID_PAYLOAD" | Merchant.INVALID_QUERY => "INVALID_QUERY"
  | Merchant.IDEMPOTENT_CONFLICT => "IDEMPOTENT_CONFLICT" | Merchant.UNAUTHORIZED => "UNAUTHORIZED"
  | Merchant.FORBIDDEN => "FORBIDDEN" | Merchant.INTERNAL_ERROR => "INTERNAL_ERROR"
  | Merchant.INVALID_TOKEN => "INVALID_TOKEN" | Merchant.TOKEN_EXPIRED => "TOKEN_EXPIRED"
  | Merchant.ORG_NOT_FOUND => "ORG_NOT_FOUND" | Merchant.ALREADY_ONBOARDED => "ALREADY_ONBOARDED"
  | Merchant.MERCHANT_NOT_FOUND => "MERCHANT_NOT_FOUND" | Merchant.INVALID_TRANSITION => "INVALID_TRANSITION"
  | Merchant.UNSUPPORTED_COUNTRY => "UNSUPPORTED_COUNTRY" | Merchant.INVALID_ACCOUNT => "INVALID_ACCOUNT"
  | Merchant.BANK_ACCOUNT_NOT_FOUND => "BANK_ACCOUNT_NOT_FOUND" | Merchant.PAYLOAD_TOO_LARGE => "PAYLOAD_TOO_LARGE"
  end.

#[global] Program Instance merchant_errors : ErrorTable Merchant.ErrorCode :=
  {| code_value := merchant_code_value; http_status := Merchant._HTTP_STATUS; invalid_payload := Merchant.INVALID_PAYLOAD;
     internal_error := Merchant.INTERNAL_ERROR; idempotent_conflict := Some Merchant.IDEMPOTENT_CONFLICT |}.
Next Obligation. table_inj. Qed.
Next Obligation. table_range. Qed.
Next Obligation. by split_and!; [..|intros c [= <-]]. Qed.

Definition compliance_code_value (c : Compliance.ErrorCode) : string :=
  match c with
  | Compliance.INVALID_PAYLOAD => "INVALID_PAYLOAD" | Compliance.INVALID_QUERY => "INVALID_QUERY"
  | Compliance.IDEMPOTENT_CONFLICT => "IDEMPOTENT_CONFLICT" | Compliance.UNAUTHORIZED => "UNAUTHORIZED"
  | Compliance.FORBIDDEN => "FORBIDDEN" | Compliance.INTERNAL_ERROR => "INTERNAL_ERROR"
  | Compliance.INVALID_TOKEN => "INVALID_TOKEN" | Compliance.TOKEN_EXPIRED => "TOKEN_EXPIRED"
  | Compliance.INVALID_TIER => "INVALID_TIER" | Compliance.ALREADY_VERIFIED => "ALREADY_VERIFIED"
  | Compliance.UNKNOWN_PROVIDER => "UNKNOWN_PROVIDER" | Compliance.INVALID_SIGNATURE => "INVALID_SIGNATURE"
  | Compliance.PROVIDER_ERROR => "PROVIDER_ERROR" | Compliance.COMPLIANCE_NOT_FOUND => "COMPLIANCE_NOT_FOUND"
  end.

#[global] Program Instance compliance_errors : ErrorTable Compliance.ErrorCode :=
  {| code_value := compliance_code_value; http_status := Compliance._HTTP_STATUS; invalid_payload := Compliance.INVALID_PAYLOAD;
     internal_error := Compliance.INTERNAL_ERROR; idempotent_conflict := Some Compliance.IDEMPOTENT_CONFLICT |}.
Next Obligation. table_inj. Qed.
Next Obligation. table_range. Qed.
Next Obligation. by split_and!; [..|intros c [= <-]]. Qed.

Definition notify_code_value (c : Notify.ErrorCode) : string :=
  match c with
  | Notify.INVALID_PAYLOAD => "INVALID_PAYLOAD" | Notify.INVALID_QUERY => "INVALID_QUERY"
  | Notify.IDEMPOTENT_CONFLICT => "IDEMPOTENT_CONFLICT" | Notify.DELIVERY_NOT_FOUND => "DELIVERY_NOT_FOUND"
  | Notify.NOTIFICATION_NOT_FOUND => "NOTIFICATION_NOT_FOUND" | Notify.TEMPLATE_NOT_FOUND => "TEMPLATE_NOT_FOUND"
  | Notify.UNAUTHORIZED => "UNAUTHORIZED" | Notify.INTERNAL_ERROR => "INTERNAL_ERROR"
  end.

#[global] Program Instance notify_errors : ErrorTable Notify.ErrorCode :=
  {| code_value := notify_code_value; http_status := Notify._HTTP_STATUS; invalid_payload := Notify.INVALID_PAYLOAD;
     internal_error := Notify.INTERNAL_ERROR; idempotent_conflict := Some Notify.IDEMPOTENT_CONFLICT |}.
Next Obligation. table_inj. Qed.
Next Obligation. table_range. Qed.
Next Obligation. by split_and!; [..|intros c [= <-]]. Qed.

Definition pricing_code_value (c : Pricing.ErrorCode) : string :=
  match c with
  | Pricing.INVALID_PAYLOAD => "INVALID_PAYLOAD" | Pricing.INVALID_QUERY => "INVALID_QUERY"
  | Pricing.IDEMPOTENT_CONFLICT => "IDEMPOTENT_CONFLICT" | Pricing.UNAUTHORIZED => "UNAUTHORIZED"
  | Pricing.FORBIDDEN => "FORBIDDEN" | Pricing.INTERNAL_ERROR => "INTERNAL_ERROR"
  | Pricing.INVALID_TOKEN => "INVALID_TOKEN" | Pricing.TOKEN_EXPIRED => "TOKEN_EXPIRED"
  | Pricing.ORG_NOT_FOUND => "ORG_NOT_FOUND" | Pricing.TIER_NOT_FOUND => "TIER_NOT_FOUND"
  | Pricing.RAIL_NOT_FOUND => "RAIL_NOT_FOUND" | Pricing.MERCHANT_PRICING_NOT_FOUND => "MERCHANT_PRICING_NOT_FOUND"
  | Pricing.FEE_EXCEEDS_GROSS => "FEE_EXCEEDS_GROSS" | Pricing.FX_UNAVAILABLE => "FX_UNAVAILABLE"
  | Pricing.INVALID_PERIOD => "INVALID_PERIOD"
  end.

Definition pricing_http_status (c : Pricing.ErrorCode) : Z :=
  match c with
  | Pricing.INVALID_PAYLOAD | Pricing.INVALID_QUERY | Pricing.INVALID_PERIOD => 400
  | Pricing.IDEMPOTENT_CONFLICT => 409
  | Pricing.UNAUTHORIZED | Pricing.INVALID_TOKEN | Pricing.TOKEN_EXPIRED => 401
  | Pricing.FORBIDDEN => 403
  | Pricing.INTERNAL_ERROR => 500
  | Pricing.ORG_NOT_FOUND | Pricing.TIER_NOT_FOUND | Pricing.RAIL_NOT_FOUND | Pricing.MERCHANT_PRICING_NOT_FOUND => 404
  | Pricing.FEE_EXCEEDS_GROSS => 422
  | Pricing.FX_UNAVAILABLE => 502
  end.

#[global] Program Instance pricing_errors : ErrorTable Pricing.ErrorCode :=
  {| code_value := pricing_code_value; http_status := pricing_http_status; invalid_payload := Pricing.INVALID_PAYLOAD;
     internal_error := Pricing.INTERNAL_ERROR; idempotent_conflict := Some Pricing.IDEMPOTENT_CONFLICT |}.
Next Obligation. table_inj. Qed.
Next Obligation. table_range. Qed.
Next Obligation. by split_and!; [..|intros c [= <-]]. Qed.

Definition admin_code_value (c : Admin.ErrorCode) : string :=
  match c with
  | Admin.INVALID_PAYLOAD => "INVALID_PAYLOAD" | Admin.INVALID_QUERY => "INVALID_QUERY"
  | Admin.UNAUTHORIZED => "UNAUTHORIZED" | Admin.FORBIDDEN => "FORBIDDEN" | Admin.INTERNAL_ERROR => "INTERNAL_ERROR"
  | Admin.INVALID_TOKEN => "INVALID_TOKEN" | Admin.TOKEN_EXPIRED => "TOKEN_EXPIRED"
  | Admin.MFA_REQUIRED => "MFA_REQUIRED" | Admin.SCOPE_DENIED => "SCOPE_DENIED"
  | Admin.ENTITY_NOT_FOUND => "ENTITY_NOT_FOUND" | Admin.UPSTREAM_UNAVAILABLE => "UPSTREAM_UNAVAILABLE"
  end.

#[global] Program Instance admin_errors : ErrorTable Admin.ErrorCode :=
  {| code_value := admin_code_value; http_status := Admin._HTTP_STATUS; invalid_payload := Admin.INVALID_PAYLOAD;
     internal_error := Admin.INTERNAL_ERROR; idempotent_conflict := None |}.
Next Obligation. table_inj. Qed.
Next Obligation. table_range. Qed.
Next Obligation. by split_and!; [..|intros c [= <-]]. Qed.

(** ** The services' [create_app] *)

(** The probes next to the included routers; [up] is what answers. *)
Definition with_probes {Code} (soft : option string) (up : bool * bool * bool) (router : app Code) : app Code := λ q c,
  let answer (r : Z * json) := (Ok (mkResponse r.1 [] r.2), c) in
  if bool_decide (method q = "GET") then
    if bool_decide (path q = "/internal/healthz") then answer healthz
    else if bool_decide (path q = "/internal/readyz") then answer (readyz soft up.1.1 up.1.2 up.2)
    else router q c
  else router q c.

Section apps.
Variables (up : bool * bool * bool) (fresh : uuid) (span : list (string * string) → N) (routes : list route).

Definition identity_app (router : app Identity.ErrorCode) : request → context → response * context :=
  serve_http fresh span routes (with_probes None up router).

Definition paylink_app (router : app Chain.ErrorCode) : request → context → response * context :=
  serve_http fresh span routes (with_probes (Some "chain") up router).

Definition invoice_app (router : app Invoice.ErrorCode) : request → context → response * context :=
  serve_http fresh span routes (with_probes None up router).

Definition merchant_app (router : app Merchant.ErrorCode) : request → context → response * context :=
  serve_http fresh span routes (with_probes None up router).

Definition compliance_app (router : app Compliance.ErrorCode) : request → context → response * context :=
  serve_http fresh span routes (with_probes None up router).

Definition notify_app (router : app Notify.ErrorCode) : request → context → response * context :=
  serve_http fresh span routes (with_probes (Some "broker") up router).

Definition pricing_app (router : app Pricing.ErrorCode) : request → context → response * context :=
  serve_http fresh span routes (with_probes None up router).

Definition admin_app (router : app Admin.ErrorCode) : request → context → response * context :=
  serve_http fresh span routes (with_probes None up router).
End apps.

(** ** What a client sees of an error *)

Section errors.
Context {Code : Type} `{!ErrorTable Code}.
Variables (fresh : uuid) (span : list (string * string) → N) (routes : list route) (router : app Code).

(** The correlation id of a request: the trace id when tracing is on, else the
    client's [X-Request-Id], else a fresh one. *)
Definition correlation (q : request) : string :=
  let t := span (q_headers q) in
  if bool_decide (t = 0%N) then str_or (header "x-request-id" (q_headers q)) (hex32 fresh) else hex32 t.

(** The request the router sees. *)
Definition seen (q : request) : request :=
  let t := span (q_headers q) in
  if bool_decide (t = 0%N) then q else mkRequest (method q) (path q) (_set_header "x-request-id" (hex32 t) (q_headers q)).

Lemma header_set v hs : header "x-request-id" (_set_header "x-request-id" v hs) = Some v.
Proof.
  unfold header, _set_header. rewrite filter_app.
  replace (filter (λ kv, kv.1 = "x-request-id") (filter (λ kv : string * string, lower kv.1 ≠ lower "x-request-id") hs))
    with (@nil (string * string)).
  - reflexivity.
  - induction hs as [|[k w] hs IH]; [done|]. rewrite filter_cons. case_decide as Hk; [|done].
    rewrite filter_cons, decide_False; [done|]. simpl in *. congruence.
Qed.

Lemma hex32_truthy u : truthy (hex32 u) = true.
Proof.
  unfold hex32, truthy. apply bool_decide_true. intros Hh. pose proof (hexn_length 32 u) as Hl.
  apply (f_equal String.list_ascii_of_string) in Hh. rewrite chars_text in Hh. by rewrite Hh in Hl.
Qed.

Lemma correlation_seen q : str_or (header "x-request-id" (q_headers (seen q))) (hex32 fresh) = correlation q.
Proof.
  unfold correlation, seen. case_bool_decide; [done|]. cbn [q_headers]. rewrite header_set. unfold str_or. by rewrite hex32_truthy.
Qed.

(** The whole stack as one equation. *)
Lemma serve_http_run q c :
  serve_http fresh span routes router q c =
    (let '(r, c1) := ExceptionMiddleware router (seen q) (set_trace (correlation q) c) in
     let count st := mkContext (trace_id_var c) (HTTP_REQUESTS c1 ++ [(method q, route_template routes (seen q), st)]) in
     match r with
     | Ok a => (mkResponse (r_status a) (r_headers a ++ [("x-request-id", correlation q)]) (r_body a), count (r_status a))
     | Raise _ => (_handle_unexpected (trace_id_var c), count 500)
     end).
Proof.
  unfold serve_http, ServerErrorMiddleware, ObservabilityMiddleware, RequestIdMiddleware. fold (seen q).
  rewrite correlation_seen. by destruct (ExceptionMiddleware router (seen q) _) as [[a|e] c1].
Qed.

(** A metric's route label is a route's template, whatever the path. *)
Lemma template_known q : route_template routes q ∈ "unmatched" :: (r_path <$> routes).
Proof.
  induction routes as [|r rs IH]; [set_solver|]. simpl. destruct (matches r q) as [[]|]; [destruct (truthy (r_path r))|..]; set_solver.
Qed.

(** Statuses an exception brings itself are error statuses. *)
Definition proper (f : failure Code) : Prop :=
  match f with
  | App _ _ _ (Some st) | Http st _ => 400 ≤ st ≤ 599
  | _ => True
  end.

(** An answer with the status, the envelope and the correlation id of the request. *)
Definition answered (q : request) (a : response) (status : Z) (code message : string) (details : list (string * json)) : Prop :=
  r_status a = status ∧ r_body a = envelope (correlation q) code message details ∧
  header "x-request-id" (r_headers a) = Some (correlation q).

(** What the service promises for each kind of error; [outer] is the context
    variable outside the request. *)
Definition promised (q : request) (outer : string) (f : failure Code) (a : response) : Prop :=
  let hidden := a = mkResponse 500 [] (envelope outer (code_value internal_error) "internal error" []) in
  match f with
  | App code message details None => answered q a (http_status code) (code_value code) message details
  | App code message details (Some status) => answered q a status (code_value code) message details
  | Conflict message =>
      match idempotent_conflict with Some code => answered q a 409 (code_value code) message [] | None => hidden end
  | Invalid errors => answered q a 400 (code_value invalid_payload) "request validation failed" [("errors", errors)]
  | Http status (JStr message) => answered q a status ("HTTP_" +:+ py_str (JInt status)) message []
  | Http status _ => answered q a status ("HTTP_" +:+ py_str (JInt status)) "http error" []
  | Unexpected _ => hidden
  end.

Lemma promised_status q outer f a : proper f → promised q outer f a → 400 ≤ r_status a ≤ 599.
Proof.
  destruct f as [code m d [st|]|m|errors|st detail|k]; cbn [proper promised]; intros Hp.
  - by intros [-> _].
  - intros [-> _]. apply http_status_range.
  - destruct idempotent_conflict; [by intros [-> _]|by intros ->].
  - by intros [-> _].
  - by destruct detail; intros [-> _].
  - by intros ->.
Qed.

(** C39: every error leaves as the envelope its kind calls for.  Whatever the routes
    raise, the client gets the body [{"error": {code, message, details, trace_id}}]:
    for an application error its code with the status of the service's table, or the
    status the error carries itself; [IDEMPOTENT_CONFLICT] with 409;
    [INVALID_PAYLOAD] with 400 and the validation errors; [HTTP_n] with n for an error
    of the framework; each with the request's correlation id as [trace_id] and in the
    [X-Request-Id] header.  Any other exception, and an idempotency conflict at the
    one service without a handler for it, gets 500 [INTERNAL_ERROR], the same whatever
    it was, and carries no correlation id.  The status is a 4xx or 5xx; the request is
    counted once, with that status and under a route template; and the context
    variable is restored. *)
Theorem errors_are_enveloped (q : request) (c c1 : context) (f : failure Code)
    (Hraised : router (seen q) (set_trace (correlation q) c) = (Raise f, c1)) (Hvar : trace_id_var c1 = correlation q)
    (Hproper : proper f) :
  let '(a, c2) := serve_http fresh span routes router q c in
  promised q (trace_id_var c) f a ∧ 400 ≤ r_status a ≤ 599 ∧ trace_id_var c2 = trace_id_var c ∧
  ∃ template, HTTP_REQUESTS c2 = HTTP_REQUESTS c1 ++ [(method q, template, r_status a)] ∧ template ∈ "unmatched" :: (r_path <$> routes).
Proof.
  pose proof (serve_http_run q c) as Hrun. unfold ExceptionMiddleware in Hrun. rewrite Hraised, Hvar in Hrun.
  destruct (serve_http _ _ _ _ q c) as [a c2].
  assert (Ha : promised q (trace_id_var c) f a ∧ trace_id_var c2 = trace_id_var c ∧
    HTTP_REQUESTS c2 = HTTP_REQUESTS c1 ++ [(method q, route_template routes (seen q), r_status a)]).
  { destruct own_statuses as (H400 & _ & H409).
    destruct f as [code m d [st|]|m|errors|st detail|k]; cbn [install_error_handlers promised] in *;
      try (destruct idempotent_conflict as [code|]; cbn [fmap option_fmap option_map] in *);
      injection Hrun as -> ->; rewrite ?H400, ?(H409 code eq_refl); try done.
    all: by destruct detail. }
  destruct Ha as (Hpr & Hv & Hc). split_and!; [done|by eapply promised_status..|done|].
  eexists. split; [done|apply template_known].
Qed.
End errors.

(** *** A concrete run *)

Definition demo_routes : list route := [mkRoute (λ q, Ok (bool_decide (path q = "/v1/users/me"))) "/v1/users/{id}"].
Definition demo_request : request := mkRequest "GET" "/v1/users/me" [("x-request-id", "abc")].

Lemma errors_are_enveloped_witness :
  let app := serve_http (Code := Identity.ErrorCode) 7%N (λ _, 0%N) demo_routes in
  app (λ _ c, (Raise (App Identity.USER_NOT_FOUND "user not found" [] None), c)) demo_request (mkContext "" []) =
    (mkResponse 404 [("x-request-id", "abc")] (envelope "abc" "USER_NOT_FOUND" "user not found" []),
     mkContext "" [("GET", "/v1/users/{id}", 404)]) ∧
  let '(a, c2) := app (λ _ c, (Raise (Unexpected IntegrityError), c)) demo_request (mkContext "" []) in
  a = mkResponse 500 [] (envelope "" "INTERNAL_ERROR" "internal error" []) ∧ trace_id_var c2 = "".
Proof.
  split; [by vm_compute|].
  pose proof (errors_are_enveloped (Code := Identity.ErrorCode) 7%N (λ _, 0%N) demo_routes (λ _ c, (Raise (Unexpected IntegrityError), c))
    demo_request (mkContext "" []) (mkContext "abc" []) (Unexpected IntegrityError) eq_refl eq_refl I) as Hrun.
  destruct (serve_http _ _ _ _ _ _) as [a c2]. destruct Hrun as (Hp & _ & Hvar & _). by split.
Defined.
End Http.
