(* ===== verification/MerchantSecrets.v ===== *)
(** * merchant-onboarding: account details leave no trace

    Non-interference of the routes of [MerchantApi]: the plaintext account details
    of a valid request influence nothing but the encrypted column they are stored
    in; those of a request that fails validation are answered back. *)
From S2P Require Import Prelude PyText PyJson PyNum Fingerprint UnitOfWork Relational Tables Idempotency IdentityDb Merchant Pydantic Routes MerchantApi Http.

Module MerchantSecrets.
Import Identity Merchant Pydantic Routes MerchantApi.
Open Scope Z_scope.

(** The database without the encrypted references. *)
Definition hide_bank (b : BankAccountRow) : BankAccountRow :=
  mkBank (b_merchant b) (rail b) "" (currency b) (b_status b) (verified_at b).

Definition sealed (d : mdb) : mdb := on_banks (fmap hide_bank) d.

Lemma sealed_merchants d d' : sealed d = sealed d' → merchants d = merchants d'.
Proof. by intros [= ? _ _ _ _]. Qed.

Lemma sealed_contracts d d' : sealed d = sealed d' → contracts d = contracts d'.
Proof. by intros [= _ _ _ ? _]. Qed.

Lemma sealed_documents d d' : sealed d = sealed d' → documents d = documents d'.
Proof. by intros [= _ _ ? _ _]. Qed.

Lemma sealed_banks d d' : sealed d = sealed d' → hide_bank <$> banks d = hide_bank <$> banks d'.
Proof. intros Hs. by apply (f_equal banks) in Hs. Qed.

Lemma sealed_bank d d' i : sealed d = sealed d' → hide_bank <$> (banks d !! i) = hide_bank <$> (banks d' !! i).
Proof. intros Hb%sealed_banks. by rewrite <- !lookup_fmap, Hb. Qed.

(** A write that commutes with forgetting. *)
Lemma sealed_on_merchants f d d' : sealed d = sealed d' → sealed (on_merchants f d) = sealed (on_merchants f d').
Proof. intros Hs. injection Hs as Hm Hb Hd Hc He. unfold sealed, on_banks, on_merchants. simpl. congruence. Qed.

Lemma sealed_event ty i k p d d' : sealed d = sealed d' → sealed (add_event ty i k p d) = sealed (add_event ty i k p d').
Proof. intros Hs. injection Hs as Hm Hb Hd Hc He. unfold sealed, on_banks, add_event. simpl. congruence. Qed.

Lemma sealed_alter now i d d' :
  sealed d = sealed d' → sealed (on_banks (alter (verified now) i) d) = sealed (on_banks (alter (verified now) i) d').
Proof.
  intros Hs. pose proof (sealed_banks _ _ Hs) as Hb. injection Hs as Hm _ Hd Hc He. unfold sealed, on_banks in *. simpl.
  f_equal; try done. apply map_eq. intros j. rewrite !lookup_fmap. apply (f_equal (λ m, m !! j)) in Hb. rewrite !lookup_fmap in Hb.
  destruct (decide (j = i)) as [->|Hne].
  - rewrite !lookup_alter_eq. destruct (banks d !! i), (banks d' !! i); simpl in *; try done. injection Hb as Hb.
    f_equal. unfold hide_bank, verified in *. simpl. congruence.
  - by rewrite !lookup_alter_ne.
Qed.

Lemma sealed_insert_bank i row row' d d' : hide_bank row = hide_bank row' → sealed d = sealed d' →
  match insert_bank_account i row d, insert_bank_account i row' d' with
  | Ok e, Ok e' => sealed e = sealed e'
  | Raise k, Raise k' => k = k'
  | _, _ => False
  end.
Proof.
  intros Hrow Hs. unfold insert_bank_account. pose proof (sealed_bank d d' i Hs) as Hi. rewrite (sealed_merchants _ _ Hs).
  replace (b_merchant row') with (b_merchant row) by (unfold hide_bank in Hrow; congruence).
  replace (bool_decide (is_Some (banks d' !! i))) with (bool_decide (is_Some (banks d !! i)))
    by (apply bool_decide_ext; destruct (banks d !! i), (banks d' !! i); try done; split; by intros []).
  destruct (_ || _); [done|]. pose proof (sealed_banks _ _ Hs) as Hb. injection Hs as Hm _ Hd Hc He.
  unfold sealed, on_banks in *. simpl. rewrite !fmap_insert, Hrow, Hb. congruence.
Qed.

(** What is counted and listed does not depend on the references. *)
Lemma sealed_verified_count m d d' : sealed d = sealed d' → count_verified_bank_accounts m d = count_verified_bank_accounts m d'.
Proof.
  assert (Hc : ∀ d, count_verified_bank_accounts m d = count_verified_bank_accounts m (sealed d)).
  { intros e. unfold count_verified_bank_accounts. cbn [banks sealed on_banks]. rewrite map_to_list_fmap.
    rewrite (@filter_fmap_same _ _ (prod_map id hide_bank) (λ kv : uuid * BankAccountRow, b_merchant kv.2 = m ∧ b_status kv.2 = "VERIFIED") _ _ _) by done.
    by rewrite length_fmap. }
  intros Hs. rewrite (Hc d), (Hc d'). by rewrite Hs.
Qed.

Lemma sealed_summaries m d d' : sealed d = sealed d' →
  BankAccountSummary <$> list_bank_accounts m d = BankAccountSummary <$> list_bank_accounts m d'.
Proof.
  assert (Hc : ∀ d, BankAccountSummary <$> list_bank_accounts m d = BankAccountSummary <$> list_bank_accounts m (sealed d)).
  { intros e. unfold list_bank_accounts. cbn [banks sealed on_banks]. rewrite map_to_list_fmap.
    rewrite (@filter_fmap_same _ _ (prod_map id hide_bank) (λ kv : uuid * BankAccountRow, b_merchant kv.2 = m) _ _ _) by done.
    rewrite <- list_fmap_compose. apply list_fmap_ext. by intros _ [k row] _. }
  intros Hs. rewrite (Hc d), (Hc d'). by rewrite Hs.
Qed.

(** ** Services *)

Section services.
Variables (cfg : Settings) (encrypt : string → string → string).
Abbreviation uuid_text := PyNum.uuid_text.

Lemma alike_merchant i : alike sealed (query (X := mworld) (C := ErrorCode) (λ d, merchants d !! i)) (query (λ d, merchants d !! i)) eq.
Proof. apply alike_query. by intros d d' ->%sealed_merchants. Qed.

Lemma alike_lift_eq {A} (o : result A) : alike (D := mdb) (X := mworld) sealed (lift o) (lift o) eq.
Proof. apply alike_lift. by destruct o. Qed.

Lemma alike_member p i : alike sealed (get_for_member uuid_text p i) (get_for_member uuid_text p i) eq.
Proof.
  unfold get_for_member. eapply alike_bind; [apply alike_merchant|]. intros a ? <-. destruct a as [m|]; alike_go. done.
Qed.

Lemma alike_announce ty i name payload : alike sealed (announce ty i name payload) (announce ty i name payload) (λ _ _, True).
Proof.
  unfold announce, publish. eapply alike_bind; [apply alike_write; apply sealed_event|]. intros _ _ _. alike_go.
Qed.

Lemma alike_onboard p i o business reg ctry ty :
  alike sealed (Merchant.onboard uuid_text cfg p i o business reg ctry ty) (Merchant.onboard uuid_text cfg p i o business reg ctry ty) eq.
Proof.
  unfold Merchant.onboard. eapply alike_bind; [apply alike_lift_eq|]. intros a ? <-. alike_step; [alike_go|]. cbv zeta.
  alike_step; [alike_go|]. eapply alike_bind; [apply (alike_query _ _ _ eq)|].
  { intros d d' Hs. unfold get_merchant_by_org. by rewrite (sealed_merchants _ _ Hs). }
  intros e ? <-. alike_step; [alike_go|]. eapply alike_bind; [apply alike_try_write|].
  { intros d d' Hs. unfold insert_merchant, get_merchant_by_org. rewrite (sealed_merchants _ _ Hs). destruct (_ || _); [done|].
    by apply sealed_on_merchants. }
  intros _ _ _. eapply alike_bind; [apply alike_announce|]. intros _ _ _. by apply alike_ret.
Qed.

Lemma alike_set_tier p i t : alike sealed (set_fee_tier uuid_text p i t) (set_fee_tier uuid_text p i t) eq.
Proof.
  unfold set_fee_tier. eapply alike_bind; [apply alike_member|]. intros m ? <-. eapply alike_bind; [apply alike_lift_eq|].
  intros a ? <-. alike_step; [alike_go|]. eapply alike_bind; [apply alike_write; intros; by apply sealed_on_merchants|].
  intros _ _ _. eapply alike_bind; [apply alike_announce|]. intros _ _ _. by apply alike_ret.
Qed.

Lemma alike_accounts p m : alike sealed (list_accounts uuid_text p m) (list_accounts uuid_text p m)
  (λ l l', BankAccountSummary <$> l = BankAccountSummary <$> l').
Proof.
  unfold list_accounts. eapply alike_bind; [apply alike_member|]. intros a ? <-. apply alike_query. intros d d' Hs.
  by apply sealed_summaries.
Qed.

Lemma alike_admin i : alike sealed (get_admin i) (get_admin i) eq.
Proof. unfold get_admin. eapply alike_bind; [apply alike_merchant|]. intros a ? <-. destruct a as [m|]; by alike_go. Qed.

Lemma alike_accounts_admin i : alike sealed (list_bank_accounts_admin i) (list_bank_accounts_admin i)
  (λ l l', BankAccountSummary <$> l = BankAccountSummary <$> l').
Proof. apply alike_query. intros d d' Hs. by apply sealed_summaries. Qed.

Lemma alike_add_bank p i m nonce nonce' rl details details' cur :
  _valid_account_details details = _valid_account_details details' →
  alike sealed (add_bank_account uuid_text encrypt p i m nonce rl details cur)
    (add_bank_account uuid_text encrypt p i m nonce' rl details' cur) (λ b b', b_status b = b_status b').
Proof.
  intros Hv. unfold add_bank_account. rewrite Hv. eapply alike_bind; [apply alike_member|]. intros a ? <-.
  alike_step; [alike_go|]. alike_step; [alike_go|]. cbv zeta. cbn [currency b_status].
  eapply alike_bind; [apply alike_try_write; intros d d' Hs; by apply sealed_insert_bank|].
  intros _ _ _. eapply alike_bind; [apply alike_announce|]. intros _ _ _. by apply alike_ret.
Qed.

Lemma alike_verify_bank now p m i : alike sealed (verify_bank_account uuid_text now p m i) (verify_bank_account uuid_text now p m i)
  (λ b b', b_status b = b_status b').
Proof.
  unfold verify_bank_account. eapply alike_bind; [apply alike_member|]. intros a ? <-.
  eapply alike_bind; [apply (alike_query _ _ _ (λ o o', hide_bank <$> o = hide_bank <$> o'))|].
  { intros d d' Hs. by apply sealed_bank. }
  intros [b|] [b'|] Hb; simpl in Hb; [|discriminate Hb|discriminate Hb|alike_go]. injection Hb as Hm Hr Hc Hst Hv. rewrite <- Hm, <- Hst.
  alike_step; [alike_go|]. alike_step; [alike_go|]. eapply alike_bind; [apply alike_write; intros; by apply sealed_alter|].
  intros _ _ _. eapply alike_bind; [apply alike_announce|]. intros _ _ _. by apply alike_ret.
Qed.

Lemma alike_contracts p m : alike sealed (contracts_of uuid_text p m) (contracts_of uuid_text p m) eq.
Proof.
  unfold contracts_of. eapply alike_bind; [apply alike_member|]. intros a ? <-. apply alike_query. intros d d' Hs.
  unfold list_contracts. by rewrite (sealed_contracts _ _ Hs).
Qed.

Lemma alike_accept now p m ver acc ip agent :
  alike sealed (accept_contract uuid_text now p m ver acc ip agent) (accept_contract uuid_text now p m ver acc ip agent) eq.
Proof.
  unfold accept_contract. eapply alike_bind; [apply alike_member|]. intros a ? <-. alike_step; [alike_go|]. cbv zeta.
  eapply alike_bind; [apply alike_try_write|].
  { intros d d' Hs. unfold insert_contract. rewrite (sealed_merchants _ _ Hs). case_bool_decide; [done|].
    injection Hs as Hm Hb Hd Hc He. unfold sealed, on_banks. simpl. congruence. }
  intros _ _ _. eapply alike_bind; [apply alike_announce|]. intros _ _ _. by apply alike_ret.
Qed.

Lemma alike_upload p i m kind content :
  alike sealed (upload_document uuid_text cfg p i m kind content) (upload_document uuid_text cfg p i m kind content) eq.
Proof.
  unfold upload_document. eapply alike_bind; [apply alike_member|]. intros a ? <-. alike_step; [alike_go|]. alike_step; [alike_go|].
  cbv zeta. eapply alike_bind; [apply alike_effect|]. intros _ _ _. eapply alike_bind; [apply alike_try_write|].
  { intros d d' Hs. unfold insert_document. rewrite (sealed_merchants _ _ Hs), (sealed_documents _ _ Hs). destruct (_ || _); [done|].
    injection Hs as Hm Hb Hd Hc He. unfold sealed, on_banks. simpl. congruence. }
  intros _ _ _. eapply alike_bind; [apply alike_commit|]. intros _ _ _. by apply alike_ret.
Qed.

Lemma alike_preconditions i : alike sealed (_assert_activation_preconditions cfg i) (_assert_activation_preconditions cfg i) (λ _ _, True).
Proof.
  unfold _assert_activation_preconditions. eapply alike_bind; [apply (alike_query _ _ _ eq); intros; by apply sealed_verified_count|].
  intros n ? <-. alike_step; [alike_go|]. eapply alike_bind; [apply (alike_query _ _ _ eq)|].
  { intros d d' Hs. unfold count_contracts. by rewrite (sealed_contracts _ _ Hs). }
  intros k ? <-. by alike_go.
Qed.

Lemma alike_decide now i dec reason : alike sealed (decide_ uuid_text cfg now i dec reason) (decide_ uuid_text cfg now i dec reason) eq.
Proof.
  unfold decide_. eapply alike_bind; [apply alike_merchant|]. intros a ? <-. destruct a as [m|]; [|alike_go].
  destruct (status_of (status m)) as [current|]; [|alike_go]. cbv zeta. eapply alike_bind; [apply alike_lift_eq|]. intros _ ? _.
  eapply alike_bind; [apply alike_when, alike_preconditions|]. intros _ _ _.
  eapply alike_bind; [apply alike_write; intros; by apply sealed_on_merchants|]. intros _ _ _.
  destruct (decision_event (target_for dec)); [|alike_go]. eapply alike_bind; [apply alike_announce|]. intros _ _ _. by apply alike_ret.
Qed.
End services.

(** ** Routes *)

Section routes.
Context {R : Type} `{!RedisLike R}.
Variables (cfg : Settings) (encrypt : string → string → string) (service : string) (ttl : Z) (sha256_hex : string → string).
Variables (contract_id : ContractRow → Z) (lax_int : json → bool) (lax_bool : json → option bool).

Abbreviation api := (serve (R := R) cfg encrypt service ttl sha256_hex contract_id lax_int lax_bool).
Abbreviation api_all := (serve_all (R := R) cfg encrypt service ttl sha256_hex contract_id lax_int lax_bool).

(** Two requests that may differ in the account details they carry, and in the
    randomness of the cipher. *)
Inductive twin : call → call → Prop :=
| twin_same q : twin q q
| twin_bank c key i nonce nonce' m p b b' q q' :
    parse_add_bank b = Ok q → parse_add_bank b' = Ok q' →
    ab_rail q = ab_rail q' → ab_currency q = ab_currency q' → ab_country q = ab_country q' →
    _valid_account_details (ab_details q) = _valid_account_details (ab_details q') →
    twin (AddBank c key i nonce m p b) (AddBank c key i nonce' m p b').

Lemma same_serve q q' : twin q q' → same_run sealed (api q) (api q').
Proof.
  intros [q0|c key i nonce nonce' m p b b' r r' Hr Hr' Hrail Hcur Hctry Hv].
  - destruct q0; cbn [serve].
    + apply same_body. intros z _. apply same_uuid. intros o. apply same_idempotent. eapply alike_mono; [apply alike_onboard|]. by intros y ? <-.
    + apply same_uuid. intros i. apply same_plain. eapply alike_bind; [apply alike_member|]. intros m ? <-.
      eapply alike_bind; [apply alike_accounts|]. intros l l' Hl. apply alike_ret. unfold _merchant_response. by rewrite Hl.
    + apply same_uuid. intros i. apply same_plain. eapply alike_bind; [apply alike_admin|]. intros m ? <-.
      eapply alike_bind; [apply alike_accounts_admin|]. intros l l' Hl. apply alike_ret. unfold _merchant_response. by rewrite Hl.
    + apply same_uuid. intros i. apply same_plain. eapply alike_mono; [apply alike_member|]. by intros y ? <-.
    + apply same_body. intros t _. apply same_uuid. intros i. apply same_idempotent. eapply alike_mono; [apply alike_set_tier|]. by intros y ? <-.
    + apply same_body. intros z _. apply same_uuid. intros m. apply same_idempotent. eapply alike_mono; [by apply alike_add_bank|].
      intros y y' Hy. by rewrite Hy.
    + intros s w w' Hd Hx. unfold verify_bank. destruct (parse_verify lax_int b); [|done]. revert s w w' Hd Hx.
      apply same_uuid. intros m. apply same_uuid. intros i. apply same_idempotent. eapply alike_mono; [apply alike_verify_bank|].
      intros y y' Hy. by rewrite Hy.
    + apply same_uuid. intros i. apply same_plain. eapply alike_mono; [apply alike_contracts|]. by intros y ? <-.
    + apply same_body. intros z _. apply same_uuid. intros i. apply same_idempotent. eapply alike_mono; [apply alike_accept|]. by intros y ? <-.
    + apply same_uuid. intros m. apply same_idempotent. eapply alike_mono; [apply alike_upload|]. done.
    + apply same_body. intros z _. apply same_uuid. intros i. apply same_idempotent. eapply alike_mono; [apply alike_decide|]. by intros y ? <-.
  - cbn [serve]. unfold add_bank, Routes.with_body. rewrite Hr, Hr'.
    replace (bank_payload m r') with (bank_payload m r) by (unfold bank_payload; congruence). rewrite <- Hrail, <- Hcur.
    apply same_uuid. intros u. apply same_idempotent. eapply alike_mono; [by apply alike_add_bank|]. intros y y' Hy. by rewrite Hy.
Qed.

(** C28: the account details of valid requests leave no trace.  Run the same requests
    twice, with different account details wherever a bank account is added with a body
    that passes validation (details the service accepts in both runs, or refuses in
    both): every answer is the same, what the idempotency store holds is the same, the
    events published and the documents stored are the same, and the databases differ in
    the encrypted references only. *)
Theorem account_details_leave_no_trace (qs qs' : list call) s (d : mdb) (x : mworld) (Htwin : Forall2 twin qs qs') :
  let '(answers, s1, w1) := api_all qs s (d, x) in
  let '(answers', s1', w1') := api_all qs' s (d, x) in
  answers = answers' ∧ s1 = s1' ∧ w1.2 = w1'.2 ∧ sealed w1.1 = sealed w1'.1.
Proof.
  assert (Hgen : ∀ s w w', sealed w.1 = sealed w'.1 → w.2 = w'.2 →
    (api_all qs s w).1 = (api_all qs' s w').1 ∧ sealed (api_all qs s w).2.1 = sealed (api_all qs' s w').2.1 ∧
    (api_all qs s w).2.2 = (api_all qs' s w').2.2).
  { clear s d x. induction Htwin as [|q q' qs qs' Hq _ IH]; intros s w w' Hd Hx; [done|]. cbn [serve_all].
    destruct (same_serve q q' Hq s w w' Hd Hx) as (Ha & Hv & He).
    destruct (api q s w) as [[a s1] w1], (api q' s w') as [[a' s1'] w1']. simpl in *. injection Ha as <- <-.
    destruct (IH s1 w1 w1' Hv He) as (Hl & Hv' & He').
    destruct (api_all qs s1 w1) as [[l s2] w2], (api_all qs' s1 w1') as [[l' s2'] w2']. simpl in *. by injection Hl as <- <-. }
  specialize (Hgen s (d, x) (d, x) eq_refl eq_refl). destruct (api_all qs s (d, x)) as [[l s1] w1], (api_all qs' s (d, x)) as [[l' s1'] w1'].
  simpl in Hgen. destruct Hgen as (Hl & Hv & He). by injection Hl as -> ->.
Qed.
End routes.

(** ** A request that fails validation *)

(** A text occurs in a JSON value. *)
Fixpoint mentions (t : string) (j : json) : Prop :=
  match j with
  | JStr s => s = t
  | JList l => (fix any l := match l with [] => False | v :: l => mentions t v ∨ any l end) l
  | JObj o => (fix any o := match o with [] => False | (_, v) :: o => mentions t v ∨ any o end) o
  | _ => False
  end.

Lemma mentions_list t l v : v ∈ l → mentions t v → mentions t (JList l).
Proof. induction l as [|a l IH]; [by intros ?%elem_of_nil|]. intros [->|Hv]%elem_of_cons Ht; [by left|by right; apply IH]. Qed.

Lemma mentions_field t k o v : field k o = Some v → mentions t v → mentions t (JObj o).
Proof.
  unfold field. intros ([k' v'] & Hh & ->)%fmap_Some Ht. apply head_Some_elem_of, list_elem_of_filter in Hh as [_ Hin].
  rewrite elem_of_reverse in Hin. induction o as [|[a b] o IH]; [by apply elem_of_nil in Hin|].
  apply elem_of_cons in Hin as [[= <- <-]|Hin]; [by left|by right; apply IH].
Qed.

(** [exc.errors()] of pydantic, as JSON, for a body that is no [AddBankAccountRequest]: the entry of a
    missing field gives as its [input] the whole object the field is missing from. *)
Class BankReport := {
  errors_of : json → json;
  missing_input : ∀ o k, k ∈ ["rail"; "account_details"; "currency"; "country"] → field k o = None →
    ∃ entries e, errors_of (JObj o) = JList entries ∧ JObj e ∈ entries ∧ field "input" e = Some (JObj o) }.

(** a bank request that fails validation is answered with the account details.
    When the rail, the currency or the country is missing, the service does nothing,
    and the 400 of [_handle_validation] carries the plaintext details it was sent. *)
Theorem invalid_bank_request_echoes `{!RedisLike R} `{!BankReport} cfg encrypt service ttl sha256_hex contract_id lax_int lax_bool
    c key i nonce m p (o : fields) (k details trace : string) (s : R) (w : mdb * mworld)
    (Hmissing : k ∈ ["rail"; "currency"; "country"]) (Hk : field k o = None) (Hd : field "account_details" o = Some (JStr details)) :
  serve (R := R) cfg encrypt service ttl sha256_hex contract_id lax_int lax_bool (AddBank c key i nonce m p (JObj o)) s w =
    (Raise (Idem.RequestValidationError (JObj o)), s, w) ∧
  ∃ answer, Http.install_error_handlers (Code := ErrorCode) trace (Http.Invalid (errors_of (JObj o))) = Some answer ∧
    Http.r_status answer = 400 ∧ mentions details (Http.r_body answer).
Proof.
  split.
  - assert (Hp : ∃ e, parse_add_bank (JObj o) = Raise e); [|destruct Hp as [e He]; cbn [serve]; unfold add_bank, Routes.with_body; by rewrite He].
    unfold parse_add_bank, enum, sized_str, req_str. cbn [model obind].
    destruct (field "rail" o) as [[| | |r| |]|] eqn:Er; try (by eexists). cbn [obind]. unfold member.
    case_bool_decide; [|by eexists]. rewrite Hd. cbn [obind]. destruct (sized 1 _ details); [|by eexists]. cbn [obind].
    rewrite !elem_of_cons, elem_of_nil in Hmissing. destruct Hmissing as [->|[->|[->|[]]]]; [congruence|rewrite Hk; by eexists|].
    rewrite Hk. destruct (match field "currency" o with Some (JStr _) => _ | _ => _ end) as [cur|]; [|by eexists]. cbn [obind].
    destruct (sized 3 _ cur); by eexists.
  - destruct (missing_input o k) as (entries & e & Herr & Hin & Hinput); [set_solver|done|]. rewrite Herr.
    eexists. split; [done|]. split; [done|]. cbn [Http.r_body]. unfold Http.envelope.
    eapply (mentions_field _ "error"); [done|]. eapply (mentions_field _ "details"); [done|]. eapply (mentions_field _ "errors"); [done|].
    apply (mentions_list _ _ _ Hin), (mentions_field _ _ _ _ Hinput), (mentions_field _ _ _ _ Hd). done.
Qed.

(** ** A concrete run *)

Definition demo_owner : AccessClaims :=
  mkClaims (PyNum.uuid_text 1%N) [mkOrgRole (PyNum.uuid_text 7%N) "owner" None] ["payer"] 0 "j" "s" false [] 0 0.
Definition demo_cfg : Settings := mkSettings "KE" true true 10 "docs".
Definition demo_clock (t : Z) : Idem.clock := Idem.mkClock t t t t.

Definition bank_body (details : string) : json :=
  JObj [("rail", JStr "mpesa"); ("account_details", JStr details); ("currency", JStr "kes"); ("country", JStr "KE")].

Definition demo_calls (nonce details : string) : list call :=
  [Onboard (demo_clock 1) (Some "k1") 20%N demo_owner
     (JObj [("org_id", JStr (PyNum.uuid_text 7%N)); ("business_name", JStr "Duka"); ("country", JStr "ke"); ("type", JStr "company")]);
   AddBank (demo_clock 2) (Some "k2") 21%N nonce (PyNum.uuid_text 20%N) demo_owner (bank_body details);
   VerifyBank (demo_clock 3) None 3 (PyNum.uuid_text 20%N) (PyNum.uuid_text 21%N) demo_owner None;
   GetMerchant (PyNum.uuid_text 20%N) demo_owner].

#[local] Program Instance demo_report : BankReport :=
  {| errors_of b := JList [JObj [("type", JStr "missing"); ("input", b)]] |}.
Next Obligation. intros o k _ _. eexists _, _. split; [done|]. split; [by left|done]. Qed.

Lemma invalid_bank_request_echoes_witness :
  ∃ answer, Http.install_error_handlers (Code := ErrorCode) "t"
      (Http.Invalid (errors_of (JObj [("account_details", JStr "0712 000 111")]))) = Some answer ∧
    mentions "0712 000 111" (Http.r_body answer).
Proof.
  destruct (invalid_bank_request_echoes (R := gmap_redis) demo_cfg String.append "merchant" 86400 (λ t, t) (λ _, 1) (λ _, true)
    (λ j, match j with JBool b => Some b | _ => None end) (demo_clock 1) None 21%N "n" (PyNum.uuid_text 20%N) demo_owner
    [("account_details", JStr "0712 000 111")] "rail" "0712 000 111" "t" ∅ start) as (_ & answer & Ha & _ & Hm);
    [by left|done|done|by exists answer].
Defined.

Abbreviation demo_run := (serve_all (R := gmap_redis) demo_cfg String.append "merchant" 86400 (λ t, t) (λ _, 1) (λ _, true)
  (λ j, match j with JBool b => Some b | _ => None end)).

Lemma account_details_leave_no_trace_witness :
  forallb is_ok (demo_run (demo_calls "n" "0712 000 111") ∅ start).1.1 = true ∧
  (demo_run (demo_calls "n" "0712 000 111") ∅ start).1 = (demo_run (demo_calls "m" "0799 999 999") ∅ start).1 ∧
  (demo_run (demo_calls "n" "0712 000 111") ∅ start).2 ≠ (demo_run (demo_calls "m" "0799 999 999") ∅ start).2.
Proof.
  split_and!.
  - vm_compute. reflexivity.
  - assert (Htwin : Forall2 twin (demo_calls "n" "0712 000 111") (demo_calls "m" "0799 999 999")).
    { repeat (apply Forall2_cons; split); try apply twin_same; [|by apply Forall2_nil].
      by eapply (twin_bank _ _ _ _ _ _ _ _ _ (mkAddBank "mpesa" "0712 000 111" "kes" "KE") (mkAddBank "mpesa" "0799 999 999" "kes" "KE")). }
    pose proof (account_details_leave_no_trace (R := gmap_redis) demo_cfg String.append "merchant" 86400 (λ t, t) (λ _, 1) (λ _, true)
      (λ j, match j with JBool b => Some b | _ => None end) _ _ ∅ start.1 start.2 Htwin) as Hrun.
    change (start.1, start.2) with start in Hrun.
    destruct (demo_run (demo_calls "n" "0712 000 111") ∅ start) as [[l s] w], (demo_run (demo_calls "m" "0799 999 999") ∅ start) as [[l' s'] w'].
    destruct Hrun as (-> & -> & _). done.
  - intros Heq. apply (f_equal (λ w : mdb * mworld, account_ref <$> banks w.1 !! 21%N)) in Heq. vm_compute in Heq. discriminate Heq.
Defined.
End MerchantSecrets.
