(* ===== verification/InvoiceApi.v ===== *)
(** * invoice-subscription: the HTTP API

    [invoice-subscription/app/api/v1]: request and response models and the routes.
    Every route is scoped to the merchant of the token, [principal.user_id].
    [updated_at], which the rows of [Invoice.v] leave out, is a function of the
    row; [dec_str] is [str] of a decimal. *)
From S2P Require Import Prelude PyText PyNum PyDecimal Fingerprint UnitOfWork Tables Relational Idempotency Pydantic Routes Invoice.
From Stdlib Require Import Ascii.

Module InvoiceApi.
Import PyNum Pydantic Invoice.
Open Scope Z_scope.

(** ** schemas.py *)

Section parsing.
Context `{!Lax}.

Definition parse_line (v : json) : parsed LineInput :=
  let? o := model v in
  let? text := sized_str "description" 1 (Some 1000%nat) o in
  let? quantity := req_as (as_decimal 20 4) "quantity" o in
  let? _ := check (bool_decide (dec_compare quantity (dec_int 0) = Gt)) in
  let? price := req_as as_int "unit_price" o in
  let? _ := check (0 <=? price) in
  let? rate := match field "tax_rate" o with None => Ok (dec_int 0) | Some _ => req_as (as_decimal 5 4) "tax_rate" o end in
  let? _ := check (bool_decide (dec_compare rate (dec_int 0) ≠ Lt) && bool_decide (dec_compare rate (Dec 99999 (-4)) ≠ Gt)) in
  Ok (mkLine text quantity price rate).

Fixpoint parse_lines (l : list json) : parsed (list LineInput) :=
  match l with
  | [] => Ok []
  | v :: l => let? ln := parse_line v in let? ls := parse_lines l in Ok (ln :: ls)
  end.

Record CreateInvoiceRequest := mkCreate {
  cr_customer : option uuid; cr_payee : string; cr_currency : option string; cr_lines : list LineInput; cr_due : Z * string }.

Definition parse_create (now : Z) (b : json) : parsed CreateInvoiceRequest :=
  let? o := model b in
  let? customer := opt_as as_uuid "customer_id" o in
  let? payee := req_str "payee_addr" o in
  let? payee := _validate_addr payee in
  let? cur := opt_str "currency" o in
  let? cur := validated (sized 3 (Some 10%nat)) cur in
  let? ls := req_as (as_list Some) "lines" o in
  let? ls := parse_lines ls in
  let? _ := check (1 <=? length ls)%nat in
  let? due := req_as as_datetime "due_at" o in
  let? _ := _validate_due now due.1 in
  Ok (mkCreate customer payee cur ls due).
End parsing.

Section api.
Context {R : Type} `{!RedisLike R} `{!Lax} `{!PaylinkPort}.
Variables (default_currency service : string) (ttl : Z) (sha256_hex : string → string) (dec_str : dec → string).
Variable updated_at : InvoiceRow → Z.

Definition ouuid (u : option uuid) : json := ostr (uuid_text <$> u).

Definition dump_line (ln : LineInput) : json :=
  JObj [("description", JStr (l_description ln)); ("quantity", JStr (dec_str (l_quantity ln))); ("unit_price", JInt (l_unit_price ln));
        ("tax_rate", JStr (dec_str (l_tax_rate ln)))].

Definition dump_create (q : CreateInvoiceRequest) : fields :=
  [("customer_id", ouuid (cr_customer q)); ("payee_addr", JStr (cr_payee q)); ("currency", ostr (cr_currency q));
   ("lines", JList (dump_line <$> cr_lines q)); ("due_at", JStr (cr_due q).2)].

(** ** Responses *)

Definition summary_fields (now : Z) (r : InvoiceRow) : fields :=
  [("invoice_id", JStr (uuid_text (invoice_id r))); ("merchant_id", JStr (uuid_text (merchant_id r))); ("customer_id", ouuid (customer_id r));
   ("payee_addr", JStr (payee_addr r)); ("pl_id", ostr (pl_id r)); ("currency", JStr (currency r)); ("subtotal", JInt (subtotal r));
   ("tax", JInt (tax r)); ("total", JInt (total r)); ("status", JStr (effective_status (status r) (due_at r) now)); ("due_at", JInt (due_at r));
   ("paid_at", otime (paid_at r)); ("created_at", JInt (created_at r)); ("updated_at", JInt (updated_at r))].

Definition _line (l : InvoiceLineRow) : json :=
  JObj [("description", JStr (ln_description l)); ("quantity", JStr (dec_str (ln_quantity l))); ("unit_price", JInt (ln_unit_price l));
        ("total", JInt (ln_total l)); ("tax_rate", JStr (dec_str (ln_tax_rate l)))].

Definition _detail (now : Z) (r : InvoiceRow * list InvoiceLineRow) : json :=
  JObj (summary_fields now r.1 ++ [("lines", JList (_line <$> r.2))]).

Definition InvoiceListResponse (now : Z) (limit offset : nat) (rs : list InvoiceRow) : json :=
  JObj [("items", JList (JObj ∘ summary_fields now <$> rs)); ("limit", JInt (Z.of_nat limit)); ("offset", JInt (Z.of_nat offset));
        ("count", JInt (Z.of_nat (length rs)))].

(** ** Routes *)

Abbreviation world := (idb * iworld)%type.
Abbreviation served := (outcome (Idem.route_exn (exn ErrorCode)) (Z * json) * R * world)%type.
Abbreviation with_body := (Routes.with_body (D := idb) (X := iworld) (Code := ErrorCode) (R := R)).
Abbreviation with_uuid := (Routes.with_uuid (D := idb) (X := iworld) (R := R) INVALID_PAYLOAD).
Abbreviation idempotent := (Routes.idempotent (R := R) service ttl sha256_hex).

Definition create_invoice (c : Idem.clock) (key : option string) (now : Z) (i : uuid) (user : string) (b : json) : R → world → served :=
  with_body (parse_create now) b (λ q, with_uuid user (λ m,
    idempotent c "create_invoice" key (("merchant", JStr user) :: dump_create q) 201
      (λ r, JObj [("invoice_id", JStr (uuid_text (invoice_id r))); ("pl_id", ostr (pl_id r)); ("status", JStr (status r))])
      (create uuid_text now i m (cr_customer q) (cr_payee q) (upper (str_or (cr_currency q) default_currency)) (cr_lines q)
        (cr_due q).1))).

(** [limit] and [offset] are integers; [Query] bounds them. *)
Definition list_invoices_route (now : Z) (user : string) (st : option string) (limit offset : Z) : R → world → served := λ s w,
  if ((1 <=? limit) && (limit <=? 200) && (0 <=? offset)) then
    with_uuid user (λ m, Routes.plain 200 (InvoiceListResponse now (Z.to_nat limit) (Z.to_nat offset))
      (list_ m st (Z.to_nat limit) (Z.to_nat offset))) s w
  else (Raise (Idem.RequestValidationError (JObj [("limit", JInt limit); ("offset", JInt offset)])), s, w).

Definition get_invoice (now : Z) (user id : string) : R → world → served :=
  with_uuid user (λ m, with_uuid id (λ i, Routes.plain 200 (_detail now) (get m i))).

Definition finalize_invoice (c : Idem.clock) (key : option string) (user id : string) : R → world → served :=
  with_uuid user (λ m, with_uuid id (λ i,
    idempotent c "finalize_invoice" key [("merchant", JStr user); ("invoice_id", JStr id)] 200
      (λ r, JObj [("invoice_id", JStr (uuid_text (invoice_id r))); ("status", JStr (status r)); ("pl_id", JStr (default "" (pl_id r)))])
      (finalize uuid_text m i))).

Definition void_invoice (c : Idem.clock) (key : option string) (user id : string) : R → world → served :=
  with_uuid user (λ m, with_uuid id (λ i,
    idempotent c "void_invoice" key [("merchant", JStr user); ("invoice_id", JStr id)] 200
      (λ r, JObj [("invoice_id", JStr (uuid_text (invoice_id r))); ("status", JStr (status r))]) (void uuid_text m i))).

Inductive call :=
| Create (c : Idem.clock) (key : option string) (now : Z) (i : uuid) (b : json)
| ListInvoices (now : Z) (st : option string) (limit offset : Z)
| GetInvoice (now : Z) (id : string)
| Finalize (c : Idem.clock) (key : option string) (id : string)
| Void (c : Idem.clock) (key : option string) (id : string).

Definition serve (user : string) (q : call) : R → world → served :=
  match q with
  | Create c key now i b => create_invoice c key now i user b
  | ListInvoices now st limit offset => list_invoices_route now user st limit offset
  | GetInvoice now id => get_invoice now user id
  | Finalize c key id => finalize_invoice c key user id
  | Void c key id => void_invoice c key user id
  end.

Definition is_read (q : call) : bool := match q with ListInvoices _ _ _ _ | GetInvoice _ _ => true | _ => false end.

(** A run of requests, each with its caller. *)
Fixpoint serve_all (qs : list (string * call)) (s : R) (w : world) : R * world :=
  match qs with
  | [] => (s, w)
  | (user, q) :: qs => let '(_, s1, w1) := serve user q s w in serve_all qs s1 w1
  end.

(** ** What a merchant sees *)

Definition owns (m : uuid) (d : idb) (i : uuid) : bool :=
  match invoices d !! i with Some r => bool_decide (merchant_id r = m) | None => false end.

(** The merchant's invoices and their lines. *)
Definition own (m : uuid) (d : idb) : gmap uuid InvoiceRow * list InvoiceLineRow :=
  (filter (λ kv, merchant_id kv.2 = m) (invoices d), filter (λ l, owns m d (ln_invoice l) = true) (lines d)).

Lemma own_lookup m d i : (own m d).1 !! i = (if owns m d i then invoices d !! i else None).
Proof.
  unfold own, owns. cbn [fst]. destruct (invoices d !! i) as [r|] eqn:E.
  - case_bool_decide; [by apply map_lookup_filter_Some|]. apply map_lookup_filter_None. right. intros r' Hr'. simpl. congruence.
  - apply map_lookup_filter_None. by left.
Qed.

Lemma owns_own m d i : owns m d i = bool_decide (is_Some ((own m d).1 !! i)).
Proof.
  rewrite own_lookup. unfold owns. destruct (invoices d !! i) as [r|] eqn:E; [|by rewrite bool_decide_eq_false_2].
  case_bool_decide; [by rewrite bool_decide_eq_true_2|by rewrite bool_decide_eq_false_2].
Qed.

(** *** Reads *)

Lemma get_own m i d x : action_of (get m i) (d, x) =
  (match (own m d).1 !! i with
   | Some r => Ok (r, filter (λ l, ln_invoice l = i) (own m d).2)
   | None => Raise (AppError INVOICE_NOT_FOUND)
   end, (d, x)).
Proof.
  rewrite own_lookup. unfold action_of, request, get, _load_owned, mbind, handler_bind, query, owns. simpl.
  destruct (invoices d !! i) as [r|] eqn:E; [|done]. destruct (bool_decide (merchant_id r = m)) eqn:Hm; [|done]. simpl.
  do 3 f_equal. unfold list_lines. rewrite list_filter_filter. apply list_filter_iff. intros l. split; [|tauto].
  intros <-. unfold owns. by rewrite E.
Qed.

(** Creation times tell the merchant's invoices apart; the listing orders by
    them. *)
Definition dated (m : uuid) (d : idb) : Prop := ∀ i j r r',
  (own m d).1 !! i = Some r → (own m d).1 !! j = Some r' → created_at r = created_at r' → i = j.

Lemma own_rows m st d :
  filter (λ r, merchant_id r = m ∧ (st = None ∨ st = Some (status r))) (rows d) ≡ₚ
  filter (λ r, st = None ∨ st = Some (status r)) (map_to_list (own m d).1).*2.
Proof.
  assert (Hp : map_to_list (own m d).1 ≡ₚ filter (λ kv, merchant_id kv.2 = m) (map_to_list (invoices d))).
  { apply NoDup_Permutation; [apply NoDup_map_to_list|apply NoDup_filter, NoDup_map_to_list|].
    intros [i r]. rewrite elem_of_map_to_list, list_elem_of_filter, elem_of_map_to_list. unfold own. simpl.
    rewrite map_lookup_filter_Some. simpl. tauto. }
  rewrite Hp. unfold rows.
  rewrite <- (@filter_fmap_same _ _ snd (λ kv : uuid * InvoiceRow, merchant_id kv.2 = m) (λ r, merchant_id r = m) _ _) by done.
  rewrite list_filter_filter. erewrite list_filter_iff; [reflexivity|]. intros r. tauto.
Qed.

#[local] Instance newest_first_trans : Transitive newest_first.
Proof. intros a b c. unfold newest_first. lia. Qed.

#[local] Instance newest_first_total : Total newest_first.
Proof. intros a b. unfold newest_first. lia. Qed.

Lemma list_own m st limit offset d d' : own m d = own m d' → dated m d →
  list_invoices m st limit offset d = list_invoices m st limit offset d'.
Proof.
  intros Ho Hd. unfold list_invoices. do 2 f_equal. apply (StronglySorted_unique_strong newest_first).
  - intros r r'. rewrite !merge_sort_Permutation, !own_rows, <- Ho, !list_elem_of_filter, !list_elem_of_fmap.
    intros [_ ([i ?] & -> & Hi%elem_of_map_to_list)] [_ ([j ?] & -> & Hj%elem_of_map_to_list)]. simpl in *.
    unfold newest_first. intros Hle Hge. assert (i = j) as -> by (eapply Hd; [done|done|lia]). congruence.
  - apply (StronglySorted_merge_sort _).
  - apply (StronglySorted_merge_sort _).
  - rewrite !merge_sort_Permutation, !own_rows. by rewrite Ho.
Qed.

(** *** Requests of others *)

Lemma own_event m d i k p : own m (add_event i k p d) = own m d.
Proof. done. Qed.

(** A row of somebody else may change as long as its merchant stays. *)
Lemma own_update m d i f : owns m d i = false → (∀ r, merchant_id (f r) = merchant_id r) → own m (update_row i f d) = own m d.
Proof.
  intros Hi Hf. assert (Ho : ∀ j, owns m (update_row i f d) j = owns m d j).
  { intros j. unfold owns, update_row. simpl. destruct (decide (i = j)) as [->|Hj]; [|by rewrite lookup_alter_ne].
    rewrite lookup_alter_eq. destruct (invoices d !! j); simpl; [by rewrite Hf|done]. }
  assert (Hmap : (own m (update_row i f d)).1 = (own m d).1).
  { apply map_eq. intros j. rewrite !own_lookup, Ho. destruct (owns m d j) eqn:E; [|done].
    simpl. apply lookup_alter_ne. congruence. }
  assert (Hlines : (own m (update_row i f d)).2 = (own m d).2).
  { unfold own. simpl. apply list_filter_iff. intros l. by rewrite Ho. }
  destruct (own m (update_row i f d)), (own m d). simpl in *. congruence.
Qed.

(** A new invoice of somebody else, and its lines. *)
Lemma own_insert m d row ls es : invoices d !! invoice_id row = None → merchant_id row ≠ m →
  Forall (λ l, ln_invoice l = invoice_id row) ls →
  own m (mkIdb (<[invoice_id row := row]> (invoices d)) (lines d ++ ls) es) = own m d.
Proof.
  intros Hn Hm Hls. set (d' := mkIdb _ _ es). assert (Ho : ∀ j, owns m d' j = owns m d j).
  { intros j. unfold owns, d'. simpl. destruct (decide (invoice_id row = j)) as [<-|Hj]; [|by rewrite lookup_insert_ne].
    rewrite lookup_insert_eq, Hn. by apply bool_decide_eq_false_2. }
  assert (Hmap : (own m d').1 = (own m d).1).
  { apply map_eq. intros j. rewrite !own_lookup, Ho. destruct (owns m d j) eqn:E; [|done].
    simpl. apply lookup_insert_ne. intros <-. unfold owns in E. by rewrite Hn in E. }
  assert (Hlines : (own m d').2 = (own m d).2).
  { unfold own. cbn [snd]. change (lines d') with (lines d ++ ls). rewrite filter_app.
    rewrite (filter_none _ ls); [rewrite app_nil_r; apply list_filter_iff; intros l; by rewrite Ho|].
    intros l Hl. rewrite Forall_forall in Hls. rewrite (Hls l Hl), Ho. unfold owns. by rewrite Hn. }
  destruct (own m d'), (own m d). simpl in *. congruence.
Qed.

Section others.
Variables (m m' : uuid) (Hother : m' ≠ m).

Lemma load_other i w : wp (_load_owned m' i) (λ r w', w' = w ∧ (is_ok r = true → owns m (tx w) i = false)) w.
Proof.
  unfold _load_owned. wp_go; (split; [done|]); try done. intros _. unfold owns.
  match goal with Hl : invoices _ !! i = Some _, Hb : bool_decide (_ = m') = true |- _ => simpl in Hl; rewrite Hl; apply bool_decide_eq_true in Hb end.
  apply bool_decide_eq_false_2. congruence.
Qed.

Lemma create_other now i customer payee cur ls due d x :
  wp (create uuid_text now i m' customer payee cur ls due) (λ _ w, own m (db w) = own m d) (Uow d d x).
Proof.
  unfold create, _emit. wp_go; try done. unfold insert_invoice, insert_lines in *.
  py_run. apply own_insert; [done|done|]. apply Forall_fmap, Forall_true. done.
Qed.

Lemma finalize_other i d x : wp (finalize uuid_text m' i) (λ _ w, own m (db w) = own m d) (Uow d d x).
Proof.
  unfold finalize, _emit. wp_step. eapply wp_mono; [apply load_other|]. intros [r|e] w [-> Hi]; [|done].
  specialize (Hi eq_refl). simpl in Hi. wp_go; try done. unfold set_plid in *. py_run; by rewrite own_event, own_update.
Qed.

Lemma void_other i d x : wp (void uuid_text m' i) (λ _ w, own m (db w) = own m d) (Uow d d x).
Proof.
  unfold void, _emit. wp_step. eapply wp_mono; [apply load_other|]. intros [r|e] w [-> Hi]; [|done].
  specialize (Hi eq_refl). simpl in Hi. wp_go; try done. by rewrite own_event, own_update.
Qed.
End others.

(** A keyed route whose work keeps the merchant's view keeps it. *)
Lemma idempotent_own {A} m c route key payload st (render : A → json) (work : H A) s w :
  (∀ d x, wp work (λ _ w, own m (db w) = own m d) (Uow d d x)) →
  own m (idempotent c route key payload st render work s w).2.1 = own m w.1.
Proof.
  intros Hw. destruct (Routes.idempotent_world service ttl sha256_hex c route key payload st render work s w) as [->| ->]; [done|].
  pose proof (wp_request work (λ _ d _, own m d = own m w.1) w.1 w.2 (Hw w.1 w.2)) as Hr. unfold action_of.
  by destruct (request work w.1 w.2) as [[r d] x].
Qed.

Lemma plain_own {A} st (render : A → json) (work : H A) (s : R) w :
  (action_of work w).2 = w → (Routes.plain st render work s w).2 = w.
Proof. unfold Routes.plain. by destruct (action_of work w) as [[a|e] w']. Qed.

Lemma reads_same user q s w : is_read q = true → (serve user q s w).2 = w.
Proof.
  destruct q; intros Hq; try done; cbn [serve].
  - unfold list_invoices_route. case_match; [|done]. unfold Routes.with_uuid. case_match; [|done]. apply plain_own.
    unfold list_. destruct st; [case_bool_decide|]; by destruct w.
  - unfold get_invoice, Routes.with_uuid. case_match; [|done]. case_match; [|done]. apply plain_own. destruct w as [d x]. by rewrite get_own.
Qed.

(** A request of another caller leaves the merchant's view as it is. *)
Lemma serve_other m user q s w : parse_uuid user ≠ Some m → own m (serve user q s w).2.1 = own m w.1.
Proof.
  intros Hu. destruct (is_read q) eqn:Hq; [by rewrite reads_same|]. destruct q; try done; cbn [serve].
  - unfold create_invoice, Routes.with_body, Routes.with_uuid. repeat case_match; try done. apply idempotent_own. intros d x.
    apply create_other. congruence.
  - unfold finalize_invoice, Routes.with_uuid. repeat case_match; try done. apply idempotent_own. intros d x. apply finalize_other. congruence.
  - unfold void_invoice, Routes.with_uuid. repeat case_match; try done. apply idempotent_own. intros d x. apply void_other. congruence.
Qed.

Lemma serve_all_other m qs s w : Forall (λ uq, parse_uuid uq.1 ≠ Some m) qs → own m (serve_all qs s w).2.1 = own m w.1.
Proof.
  intros Hqs. revert s w. induction Hqs as [|[user q] qs Hu _ IH]; intros s w; [done|]. cbn [serve_all].
  pose proof (serve_other m user q s w Hu) as Hs. destruct (serve user q s w) as [[a s1] w1]. by rewrite IH.
Qed.

(** What a read answers is a function of the merchant's view. *)
Lemma read_own m user q s s' w w' : parse_uuid user = Some m → is_read q = true → own m w.1 = own m w'.1 → dated m w.1 →
  (serve user q s w).1.1 = (serve user q s' w').1.1.
Proof.
  intros Hu Hq Ho Hd. destruct q; try done; cbn [serve].
  - unfold list_invoices_route. case_match; [|done]. unfold Routes.with_uuid. rewrite Hu. unfold Routes.plain, action_of, request, list_.
    destruct st as [st|]; [case_bool_decide; [done|]|]; cbn; by rewrite (list_own m _ _ _ w.1 w'.1 Ho Hd).
  - unfold get_invoice, Routes.with_uuid. rewrite Hu. destruct (parse_uuid id) as [i|]; [|done]. unfold Routes.plain.
    destruct w as [d x], w' as [d' x']. rewrite !get_own. simpl in Ho. rewrite <- Ho. by destruct ((own m d).1 !! i).
Qed.

(** C8: invoices are private to their merchant: what a merchant reads, by listing
    or by id, depends on nothing but the merchant's own invoices and their lines.
    Two databases that agree on those answer every read alike, whatever requests
    of other callers each of them served before (creates, finalizes, voids with
    any ids, keys and bodies), and reads change nothing. *)
Theorem invoices_are_private m user q qs qs' s s' w w'
    (Huser : parse_uuid user = Some m) (Hread : is_read q = true)
    (Hothers : Forall (λ uq, parse_uuid uq.1 ≠ Some m) qs) (Hothers' : Forall (λ uq, parse_uuid uq.1 ≠ Some m) qs')
    (Hsame : own m w.1 = own m w'.1) (Hdated : dated m w.1) :
  let '(s1, w1) := serve_all qs s w in
  let '(s2, w2) := serve_all qs' s' w' in
  (serve user q s1 w1).1.1 = (serve user q s2 w2).1.1 ∧ (serve user q s1 w1).2 = w1.
Proof.
  pose proof (serve_all_other m qs s w Hothers) as Hw1. pose proof (serve_all_other m qs' s' w' Hothers') as Hw2.
  destruct (serve_all qs s w) as [s1 w1], (serve_all qs' s' w') as [s2 w2]. simpl in *. split; [|by apply reads_same].
  apply (read_own m); [done|done|congruence|]. unfold dated. by rewrite Hw1.
Qed.
End api.

(** ** Witness *)

#[local] Instance demo_lax : Lax := {|
  as_int v := match v with JInt z => Some z | _ => None end;
  as_uuid v := match v with JStr t => parse_uuid t | _ => None end;
  as_datetime v := match v with JInt z => Some (z, "t") | _ => None end;
  as_decimal _ _ v := match v with JInt z => Some (dec_int z) | _ => None end |}.

#[local] Instance demo_port : PaylinkPort := λ _ _ _ _ _ key, Some (Some key).

Definition demo_invoice (i m : uuid) (t : Z) : InvoiceRow :=
  mkInvoice i m None "0xaa" None "KES" 100 0 100 (status_value DRAFT) 90 None t.

Definition demo_db : idb :=
  mkIdb {[1%N := demo_invoice 1 7 3; 2%N := demo_invoice 2 7 4; 3%N := demo_invoice 3 8 4]}
    [mkLineRow 1 "tea" (dec_int 1) 100 100 (dec_int 0); mkLineRow 3 "salt" (dec_int 1) 100 100 (dec_int 0)] [].

Definition demo_create : json :=
  JObj [("payee_addr", JStr "0x00000000000000000000000000000000000000aa"); ("due_at", JInt 90);
        ("lines", JList [JObj [("description", JStr "rice"); ("quantity", JInt 2); ("unit_price", JInt 50)]])].

(** What the other merchant does. *)
Definition demo_others : list (string * call) :=
  [(uuid_text 8, Create (Idem.demo_clock 5) (Some "k") 5 4 demo_create); (uuid_text 8, Finalize (Idem.demo_clock 6) None (uuid_text 3));
   (uuid_text 8, Void (Idem.demo_clock 7) None (uuid_text 1)); ("nobody", GetInvoice 8 (uuid_text 1))].

Abbreviation demo_api := (serve (R := gmap_redis) "KES" "invoice" 86400 (λ t, t) (λ _, "1") (λ _, 0)).
Abbreviation demo_run := (serve_all (R := gmap_redis) "KES" "invoice" 86400 (λ t, t) (λ _, "1") (λ _, 0)).

(** The other merchant's requests are served, and not seen. *)
Lemma invoices_are_private_witness :
  let w := (demo_db, mkIW [] []) in
  let '(s1, w1) := demo_run demo_others ∅ w in
  size (invoices w1.1) = 4%nat ∧ minted w1.2 = ["invoice-" +:+ uuid_text 3] ∧
  (demo_api (uuid_text 7) (ListInvoices 9 None 50 0) s1 w1).1.1 = (demo_api (uuid_text 7) (ListInvoices 9 None 50 0) ∅ w).1.1 ∧
  is_ok (demo_api (uuid_text 7) (ListInvoices 9 None 50 0) ∅ w).1.1 = true.
Proof.
  assert (Hdated : dated 7 demo_db).
  { intros i j r r' Hi Hj. rewrite own_lookup in Hi, Hj. unfold owns in Hi, Hj. revert Hi Hj. unfold demo_db. cbn [invoices].
    rewrite !lookup_insert, !lookup_singleton. repeat case_decide; subst; vm_compute; intros; simplify_eq; done. }
  pose proof (invoices_are_private (R := gmap_redis) "KES" "invoice" 86400 (λ t, t) (λ _, "1") (λ _, 0) 7 (uuid_text 7)
    (ListInvoices 9 None 50 0) demo_others [] ∅ ∅ (demo_db, mkIW [] []) (demo_db, mkIW [] []) ltac:(by vm_compute) eq_refl
    ltac:(repeat constructor; vm_compute; discriminate) ltac:(constructor) eq_refl Hdated) as Hp.
  cbv zeta. assert (Hsize : size (invoices (demo_run demo_others ∅ (demo_db, mkIW [] [])).2.1) = 4%nat) by by vm_compute.
  assert (Hmint : minted (demo_run demo_others ∅ (demo_db, mkIW [] [])).2.2 = ["invoice-" +:+ uuid_text 3]) by by vm_compute.
  destruct (demo_run demo_others ∅ (demo_db, mkIW [] [])) as [s1 w1]. cbn [serve_all] in Hp. destruct Hp as [Hp _].
  split_and!; [exact Hsize|exact Hmint|exact Hp|by vm_compute].
Defined.
End InvoiceApi.
