(* ===== verification/PricingApi.v ===== *)
(** * fee-pricing-service: the HTTP API

    [fee-pricing-service/app/api/v1] (request and response models, the routes of
    quotes, rates, tiers, merchant pricing and the internal surface), the internal
    gate of [deps.py] and the static rates of [app/fx].  A route takes the verified
    claims, the time and the ids [uuid4()] gives. *)
From S2P Require Import Prelude PyText PyNum PyDecimal Fingerprint UnitOfWork Relational Idempotency Pydantic Routes Chain Pricing.
From Stdlib Require Import Ascii.

Module PricingApi.
Import PyNum Pydantic Pricing.
Open Scope Z_scope.

(** ** schemas.py *)

(** [str.isalpha] on ASCII. *)
Definition is_alpha (c : ascii) : bool :=
  let n := code c in ((65 <=? n) && (n <=? 90) || (97 <=? n) && (n <=? 122))%N.

Definition _upper3 (v0 : string) : parsed string :=
  let v := upper (strip v0) in
  if negb (String.length v =? 3)%nat || negb (forallb is_alpha (chars v)) then Raise ValidationError else Ok v.

(** [_v_rails]: lower case, without blanks and repetitions, not empty. *)
Definition seen_rails (v : list string) : list string :=
  fold_left (λ seen r, let rr := lower (strip r) in
    if truthy rr && bool_decide (rr ∉ seen) then seen ++ [rr] else seen) v [].

Definition _v_rails (v : list string) : parsed (list string) :=
  match seen_rails v with [] => Raise ValidationError | seen => Ok seen end.

Record QuoteRequest := mkQuoteRequest {
  qq_merchant : uuid; qq_gross : Z; qq_currency : string; qq_settle : option string; qq_rails : list string;
  qq_tiers : option (list string) }.

Record AccrualRequest := mkAccrualRequest {
  ar_merchant : uuid; ar_amount : Z; ar_currency : string; ar_source_ref : string; ar_occurred_at : Z * string;
  ar_quote : option uuid }.

Record RunRequest := mkRunRequest { rr_period : string; rr_merchant : option uuid }.

Section parsing.
Context `{!Lax}.

Definition parse_quote (b : json) : parsed QuoteRequest :=
  let? o := model b in
  let? m := req_as as_uuid "merchant_id" o in
  let? gross := req_as as_int "gross" o in
  let? _ := check (1 <=? gross) in
  let? c := req_str "currency" o in
  let? c := _upper3 c in
  let? settle := opt_str "settle_currency" o in
  let? settle := validated _upper3 settle in
  let? rails := req_as (as_list as_str) "rails" o in
  let? _ := check (1 <=? length rails)%nat in
  let? rails := _v_rails rails in
  let? tiers := opt_as (as_list as_str) "tiers" o in
  Ok (mkQuoteRequest m gross c settle rails tiers).

Definition parse_accrual (b : json) : parsed AccrualRequest :=
  let? o := model b in
  let? m := req_as as_uuid "merchant_id" o in
  let? amount := req_as as_int "amount" o in
  let? _ := check (0 <=? amount) in
  let? c := req_str "currency" o in
  let? c := _upper3 c in
  let? ref := sized_str "source_ref" 1 (Some 200%nat) o in
  let? at_ := req_as as_datetime "occurred_at" o in
  let? q := opt_as as_uuid "quote_id" o in
  Ok (mkAccrualRequest m amount c ref at_ q).

Definition parse_run (b : json) : parsed RunRequest :=
  let? o := model b in
  let? p := req_str "period" o in
  let? m := opt_as as_uuid "merchant_id" o in
  Ok (mkRunRequest p m).
End parsing.

(** [model_dump(mode="json")] *)
Definition ouuid (u : option uuid) : json := ostr (uuid_text <$> u).

Definition dump_quote (q : QuoteRequest) : fields :=
  [("merchant_id", JStr (uuid_text (qq_merchant q))); ("gross", JInt (qq_gross q)); ("currency", JStr (qq_currency q));
   ("settle_currency", ostr (qq_settle q)); ("rails", JList (JStr <$> qq_rails q));
   ("tiers", match qq_tiers q with Some l => JList (JStr <$> l) | None => JNull end)].

Definition dump_accrual (q : AccrualRequest) : fields :=
  [("merchant_id", JStr (uuid_text (ar_merchant q))); ("amount", JInt (ar_amount q)); ("currency", JStr (ar_currency q));
   ("source_ref", JStr (ar_source_ref q)); ("occurred_at", JStr (ar_occurred_at q).2); ("quote_id", ouuid (ar_quote q))].

Definition dump_run (q : RunRequest) : fields := [("period", JStr (rr_period q)); ("merchant_id", ouuid (rr_merchant q))].

(** ** Response bodies *)

Section responses.
Variable dec_str : dec → string.

Definition QuoteBreakdown (q : QuoteIssued) : json :=
  let r := iss_result q in
  JObj [("quote_id", JStr (uuid_text (iss_id q))); ("tier", JStr (iss_tier q)); ("rail", JStr (iss_rail q)); ("gross", JInt (q_gross r));
        ("currency", JStr (q_currency r)); ("gross_settled", JInt (q_gross_settled r)); ("settle_currency", JStr (q_settle_currency r));
        ("platform_fee", JInt (q_platform_fee r)); ("rail_fee", JInt (q_rail_fee r)); ("net", JInt (q_net r));
        ("fx", match iss_breakdown q with JObj o => default JNull (Chain.jfind "fx" o) | _ => JNull end); ("breakdown", iss_breakdown q)].

Definition QuoteResponse (qs : list QuoteIssued) : json := JObj [("quotes", JList (QuoteBreakdown <$> qs))].

Definition FxRateResponse (r : Rate) : json :=
  JObj [("base", JStr (base r)); ("quote", JStr (quote_ccy r)); ("rate", JStr (dec_str (rate r))); ("source", JStr (source r));
        ("fetched_at", JInt (fetched_at r))].
End responses.

Definition TierResponse (t : TierRow) : json :=
  JObj [("tier", JStr (t_tier t)); ("display_name", JStr (t_display_name t)); ("platform_pct_bps", JInt (t_pct_bps t));
        ("platform_fixed", JInt (t_fixed t)); ("fixed_currency", JStr (t_fixed_currency t)); ("active", JBool (t_active t))].

Definition MerchantRailFeeResponse (f : RailFeeRow) : json :=
  JObj [("rail", JStr (rf_rail f)); ("pct_bps", JInt (rf_pct_bps f)); ("fixed", JInt (rf_fixed f)); ("fixed_currency", JStr (rf_fixed_currency f))].

Definition MerchantPricingResponse (m : uuid) (v : MerchantPricingView) : json :=
  JObj [("merchant_id", JStr (uuid_text m)); ("org_id", ouuid (v_org_id v)); ("tier", JStr (v_tier v)); ("display_name", JStr (v_display_name v));
        ("platform_pct_bps", JInt (v_pct_bps v)); ("platform_fixed", JInt (v_fixed v)); ("fixed_currency", JStr (v_fixed_currency v));
        ("rail_fees", JList (MerchantRailFeeResponse <$> v_rail_fees v)); ("effective_at", JInt (v_effective_at v))].

Definition GeneratedInvoiceResponse (g : GeneratedInvoice) : json :=
  JObj [("invoice_id", JStr (uuid_text (gi_invoice g))); ("merchant_id", JStr (uuid_text (gi_merchant g))); ("currency", JStr (gi_currency g));
        ("total_fee", JInt (gi_total_fee g)); ("line_count", JInt (gi_line_count g))].

Definition RunResponse (period : string) (r : list GeneratedInvoice * nat) : json :=
  JObj [("period", JStr period); ("generated", JList (GeneratedInvoiceResponse <$> r.1)); ("skipped_existing", JInt (Z.of_nat r.2))].

(** ** app/fx/static.py *)

(** One entry [base:quote=rate]; a bad one is skipped. *)
Definition rate_entry (entry : string) : option ((string * string) * num) :=
  match cut "=" (strip entry) with
  | None => None
  | Some (pr, rate) =>
      match cut ":" pr with
      | None => None
      | Some (b, q) => (λ v, ((upper (strip b), upper (strip q)), v)) <$> parse_decimal (strip rate)
      end
  end.

Definition parse_rate_table (spec : string) : gmap (string * string) num :=
  fold_left (λ t entry, match rate_entry entry with Some (k, v) => <[k := v]> t | None => t end) (split ","%char spec) ∅.

Definition finite (v : num) : option dec := match v with Fin d => Some d | _ => None end.

(** The table when every rate is a number: a quote at NaN or an infinity raises
    [InvalidOperation]. *)
Definition finite_table (t : gmap (string * string) num) : option (gmap (string * string) dec) :=
  if forallb (λ kv, bool_decide (is_Some (finite kv.2))) (map_to_list t) then Some (omap finite t) else None.

Definition StaticFxProvider (table : gmap (string * string) dec) (now : Z) : provider := λ base0 quote0,
  let b := upper base0 in
  let q := upper quote0 in
  if bool_decide (b = q) then Some (mkRate b q (dec_int 1) "identity" now)
  else match table !! (b, q) with Some r => Some (mkRate b q r "static" now) | None => None end.

(** [sorted(table.keys())]: pairs of texts. *)
Definition pair_le (a b : string * string) : Prop :=
  a.1 = b.1 ∧ Fingerprint.str_le a.2 b.2 ∨ a.1 ≠ b.1 ∧ Fingerprint.str_le a.1 b.1.

#[global] Instance pair_le_dec : RelDecision pair_le.
Proof. intros a b. unfold pair_le. apply _. Defined.

Definition sorted_pairs (t : gmap (string * string) num) : list (string * string) := merge_sort pair_le (map_to_list t).*1.

(** ** Routes *)

Section api.
Context {R : Type} `{!RedisLike R} `{!Lax}.
Variables (settings : Settings) (admin_user_role_set : list string) (fx_static_rates : string) (internal_shared_secret : option string).
Variables (fx_provider : provider) (dec_str : dec → string) (service : string) (ttl : Z) (sha256_hex : string → string).

Abbreviation world := (pdb * pworld)%type.
Abbreviation served := (outcome (Idem.route_exn (exn ErrorCode)) (Z * json) * R * world)%type.
Abbreviation with_body := (Routes.with_body (D := pdb) (X := pworld) (Code := ErrorCode) (R := R)).
Abbreviation with_uuid := (Routes.with_uuid (D := pdb) (X := pworld) (R := R) INVALID_PAYLOAD).
Abbreviation idempotent := (Routes.idempotent (R := R) service ttl sha256_hex).

(** *** quote.py *)

(** [req.settle_currency or req.currency] *)
Definition settle_of (q : QuoteRequest) : string := str_or (qq_settle q) (qq_currency q).

Definition create_quote (c : Idem.clock) (key : option string) (now : Z) (fresh : nat → uuid) (caller : string) (b : json) :
    R → world → served :=
  with_body parse_quote b (λ q,
    idempotent c "create_quote" key (("caller", JStr caller) :: dump_quote q) 200 QuoteResponse
      (quote settings fx_provider uuid_text dec_str now fresh (qq_merchant q) (qq_gross q) (qq_currency q) (settle_of q)
        (qq_rails q) (qq_tiers q))).

(** *** fx.py *)

Fixpoint rates_for (now : Z) (pairs : list (string * string)) : H (list Rate) :=
  match pairs with
  | [] => mret []
  | (b, q) :: pairs =>
      r ← rate_for settings fx_provider dec_str now b q;
      rs ← rates_for now pairs;
      mret (r :: rs)
  end.

Definition get_rates (now : Z) (base0 quote0 : option string) : R → world → served :=
  let pairs := if otruthy base0 && otruthy quote0 then [(upper (default "" base0), upper (default "" quote0))]
               else sorted_pairs (parse_rate_table fx_static_rates) in
  Routes.plain 200 (λ rs, JObj [("rates", JList (FxRateResponse dec_str <$> rs))]) (rates_for now pairs).

(** *** tiers.py *)

Definition dearest_first (a b : TierRow) : Prop := t_pct_bps b ≤ t_pct_bps a.

#[global] Instance dearest_first_dec : RelDecision dearest_first.
Proof. intros a b. unfold dearest_first. apply _. Defined.

(** [list_tiers] of the service and its repository. *)
Definition list_tiers (active_only : bool) : H (list TierRow) :=
  query (λ d, merge_sort dearest_first (filter (λ t, active_only = false ∨ t_active t = true) (map_to_list (tiers d)).*2)).

Definition list_tiers_route (p : AccessClaims) (active : bool) : R → world → served :=
  Routes.plain 200 (λ ts, JObj [("tiers", JList (TierResponse <$> ts))])
    (_ ← lift (require_platform_admin p admin_user_role_set); list_tiers active).

(** *** merchant_pricing.py *)

Definition _read (merchant_id : string) (p : AccessClaims) : R → world → served :=
  with_uuid merchant_id (λ m,
    Routes.plain 200 (MerchantPricingResponse m) (read_merchant_pricing settings uuid_text admin_user_role_set p m)).

(** *** internal.py, and the gate of deps.py *)

(** The gate is a dependency: it runs before the body is validated. *)
Definition internal_gate (x_internal_token : option string) (k : R → world → served) : R → world → served := λ s w,
  match internal_shared_secret with
  | None => k s w
  | Some expected =>
      if otruthy x_internal_token && bool_decide (x_internal_token = Some expected) then k s w
      else Routes.refused (AppError UNAUTHORIZED) s w
  end.

Definition record_accrual_route (c : Idem.clock) (key token : option string) (b : json) : R → world → served :=
  internal_gate token (with_body parse_accrual b (λ q,
    idempotent c "record_accrual" key (dump_accrual q) 202 (λ r, JObj [("accrual_id", JInt r.1); ("accepted", JBool true)])
      (record_accrual (ar_merchant q) (ar_amount q) (ar_currency q) (ar_source_ref q) (ar_occurred_at q).1 (ar_quote q)))).

Definition run_platform_fee_invoices (c : Idem.clock) (key token : option string) (fresh : nat → uuid) (b : json) :
    R → world → served :=
  internal_gate token (with_body parse_run b (λ q,
    idempotent c "run_platform_fee_invoices" key (dump_run q) 200 (RunResponse (rr_period q))
      (generate_for_period settings uuid_text fresh (rr_period q) (rr_merchant q)))).

(** ** What a client is quoted *)

Lemma seen_rails_nodup v : NoDup (seen_rails v).
Proof.
  unfold seen_rails. match goal with |- NoDup (fold_left ?f v _) => enough (Hg : ∀ seen, NoDup seen → NoDup (fold_left f v seen)) by
    apply Hg, NoDup_nil_2 end.
  induction v as [|r v IH]; intros seen Hs; cbn [fold_left]; [done|]. apply IH. cbv zeta.
  destruct (truthy _ && _) eqn:E; [|done]. apply andb_true_iff in E as [_ E]. apply bool_decide_eq_true in E.
  apply NoDup_app. split_and!; [done|set_solver|apply NoDup_singleton].
Qed.

Lemma parsed_rails b q : parse_quote b = Ok q → NoDup (qq_rails q) ∧ qq_rails q ≠ [] ∧ 1 ≤ qq_gross q.
Proof.
  unfold parse_quote. intros Hq. repeat (apply obind_ok in Hq as (? & ? & Hq)). injection Hq as <-. simpl.
  match goal with Hr : _v_rails ?v = Ok ?l |- _ => unfold _v_rails in Hr; pose proof (seen_rails_nodup v) as Hnd;
    destruct (seen_rails v); [done|]; injection Hr as <- end.
  match goal with Hc : check (1 <=? ?g) = Ok _ |- context [1 ≤ ?g] => apply check_ok, Z.leb_le in Hc end. done.
Qed.

(** An answered entry against its stored row: the figures and currencies are the
    row's own, the breakdown is stored as answered, and so is the locked rate, which
    its own column keeps to 18 decimals. *)
Definition entry_of_row (m : uuid) (i : QuoteIssued) (row : QuoteRow) : Prop :=
  let r := iss_result i in
  row = mkQuoteRow (iss_id i) m (iss_tier i) (iss_rail i) (q_gross r) (q_currency r) (q_settle_currency r)
    (q_platform_fee r) (q_rail_fee r) (q_net r) ((λ f, (base f, quote_ccy f, round18 (rate f))) <$> q_fx r) (iss_breakdown i).

(** An answered entry adds up, in the currencies asked for and at one rate for the
    whole request, and its breakdown is that of the same computation. *)
Definition entry_adds_up (now : Z) (q : QuoteRequest) (fx : option Rate) (i : QuoteIssued) : Prop :=
  let r := iss_result i in
  q_gross r = qq_gross q ∧ q_currency r = upper (qq_currency q) ∧ q_settle_currency r = upper (settle_of q) ∧ q_fx r = fx ∧
  q_gross_settled r = q_platform_fee r + q_rail_fee r + q_net r ∧ 0 ≤ q_net r ∧
  ∃ tf rf, compute_quote (qq_gross q) (upper (qq_currency q)) (upper (settle_of q)) tf rf fx = Ok r ∧
    iss_breakdown i = breakdown dec_str now tf rf r.

Lemma issued_entry now q fx i row :
  issued_row dec_str now (qq_merchant q) (qq_gross q) (upper (qq_currency q)) (upper (settle_of q)) fx i row →
  entry_of_row (qq_merchant q) i row ∧ entry_adds_up now q fx i.
Proof.
  intros (Hrow & Hfx & tf & rf & Hc & Hb). pose proof Hc as Hok. apply compute_quote_ok in Hok as ((Hs & Hn & _) & Hg & Hcur & Hst & _).
  rewrite upper_idem in Hcur, Hst. unfold entry_of_row, entry_adds_up. split.
  - rewrite Hg, Hcur, Hst, Hfx. unfold stored_quote in Hrow. destruct (numeric38 <=? _); [done|]. destruct (negb _); [done|].
    injection Hrow as <-. simpl. f_equal. by destruct fx.
  - split_and!; try done. by exists tf, rf.
Qed.

(** C29: what the quote route answers adds up and is what it stored: for a request
    that is not a replay, the body has one entry per requested tier and distinct
    rail in order.  Each is in the currencies asked for, with the gross asked for;
    the settled gross is platform fee plus rail fee plus net, the net is not
    negative, and all entries use one locked rate.  The committed quote rows are exactly
    those entries: id, merchant, tier, rail, gross, both currencies, fees, net, the
    pair of the locked rate and the whole breakdown (with the settled gross and
    the exact rate), the rate's own column holding it to 18 decimals.  A request that
    means the same under the same key is later answered with the same body, and
    changes nothing, whatever became of rates, tiers and tables in between. *)
Theorem quote_answer_adds_up c key now fresh caller b s w st body s1 w1
    (Hfree : ∀ k, key = Some k → truthy k = true → r_get (Idem.c_set c) (Idem._key service "create_quote" k) s = None)
    (Hanswer : create_quote c key now fresh caller b s w = (Ok (st, body), s1, w1)) :
  st = 200 ∧ ∃ q fx issued rows,
    parse_quote b = Ok q ∧ 1 ≤ qq_gross q ∧ NoDup (qq_rails q) ∧ qq_rails q ≠ [] ∧
    body = QuoteResponse issued ∧
    (λ i, (iss_tier i, iss_rail i)) <$> issued = pairs_of
      (match qq_tiers q with
       | Some (t :: ts) => t :: ts
       | _ => [match merchant_pricing w.1 !! qq_merchant q with Some mp => mp_tier mp | None => DEFAULT_TIER end]
       end) (qq_rails q) ∧
    Forall (entry_adds_up now q fx) issued ∧
    Forall2 (entry_of_row (qq_merchant q)) issued rows ∧ quotes w1.1 = quotes w.1 ++ rows ∧
    ∀ k c' now' fresh' b' w', key = Some k → truthy k = true → parse_quote b' = Ok q →
      Idem.c_set c' ≤ Idem.c_get c' ∧ Idem.c_done c ≤ Idem.c_get c' < Idem.c_done c + ttl →
      create_quote c' key now' fresh' caller b' s1 w' = (Ok (st, body), s1, w').
Proof.
  unfold create_quote, Routes.with_body in Hanswer. destruct (parse_quote b) as [q|e] eqn:Eq; [|done].
  destruct (parsed_rails b q Eq) as (Hnd & Hne & Hg).
  destruct (Routes.idempotent_ok _ _ _ _ _ _ _ _ _ _ _ _ _ _ _ Hfree Hanswer) as (issued & Hact & [= -> ->]).
  split; [done|]. unfold action_of in Hact.
  pose proof (quote_all_or_nothing settings fx_provider uuid_text dec_str now fresh (qq_merchant q) (qq_gross q) (qq_currency q)
    (settle_of q) (qq_rails q) (qq_tiers q) w.1 w.2) as Hq.
  destruct (request _ w.1 w.2) as [[r d'] x']. simplify_eq/=. destruct Hq as (names & fx & rows & -> & Hpairs & Hrows & Hdb).
  exists q, fx, issued, rows. split_and!; try done.
  - apply (Forall2_Forall_l _ _ _ _ Hrows), Forall_true. intros row i Hi. by apply issued_entry in Hi as [_ ?].
  - eapply Forall2_impl; [exact Hrows|]. intros i row Hi. by apply issued_entry in Hi as [? _].
  - intros k c' now' fresh' b' w' -> Hk Hb' Hc. unfold create_quote at 1, Routes.with_body. rewrite Hb'.
    eapply Routes.idempotent_replay; [done|by apply (Hfree k)|done|exact Hanswer].
Qed.
End api.

(** ** Witness *)

#[local] Instance demo_lax : Lax := {|
  as_int v := match v with JInt z => Some z | _ => None end;
  as_uuid v := match v with JStr t => parse_uuid t | _ => None end;
  as_datetime v := match v with JInt z => Some (z, "t") | _ => None end;
  as_decimal _ _ v := match v with JInt z => Some (dec_int z) | _ => None end |}.

Definition demo_pdb : pdb :=
  mkPdb {["standard" := mkTierRow "standard" "Standard" 250 10 "KES" true]} [mkRailRow "mpesa" None 100 5 "KES" true] ∅ [] [] [] 1 [] [].

Definition demo_table : gmap (string * string) dec := default ∅ (finite_table (parse_rate_table "USD:KES=129.50, EUR:KES = 140")).

Example demo_table_rates : StaticFxProvider demo_table 5 "usd" "kes" = Some (mkRate "USD" "KES" (Dec 12950 (-2)) "static" 5) ∧
  sorted_pairs (parse_rate_table "USD:KES=129.50, EUR:KES = 140,x") = [("EUR", "KES"); ("USD", "KES")].
Proof. by vm_compute. Qed.

Definition demo_body (c : string) : json :=
  JObj [("merchant_id", JStr (uuid_text 7)); ("gross", JInt 1001); ("currency", JStr c); ("settle_currency", JStr "kes");
        ("rails", JList [JStr "mpesa"; JStr " MPESA "])].

Abbreviation demo_quote := (create_quote (R := gmap_redis) demo_settings (StaticFxProvider demo_table 5) (λ _, "r") "pricing" 86400 (λ t, t)).

(** The replay is asked for in other words and after the tables are gone. *)
Lemma quote_answer_adds_up_witness : ∃ body s1 w1,
  demo_quote (Idem.demo_clock 5) (Some "k") 5 (λ k, N.of_nat (40 + k)) "ann" (demo_body "USD") ∅ (demo_pdb, mkPW ∅ [] []) =
    (Ok (200, body), s1, w1) ∧
  demo_quote (Idem.demo_clock 9) (Some "k") 9 (λ k, N.of_nat (70 + k)) "ann" (demo_body " usd") s1 (empty_db, mkPW ∅ [] []) =
    (Ok (200, body), s1, (empty_db, mkPW ∅ [] [])).
Proof.
  assert (Hok : is_ok (demo_quote (Idem.demo_clock 5) (Some "k") 5 (λ k, N.of_nat (40 + k)) "ann" (demo_body "USD") ∅
    (demo_pdb, mkPW ∅ [] [])).1.1 = true) by by vm_compute.
  destruct (demo_quote (Idem.demo_clock 5) (Some "k") 5 (λ k, N.of_nat (40 + k)) "ann" (demo_body "USD") ∅ (demo_pdb, mkPW ∅ [] []))
    as [[[[st body]|e] s1] w1] eqn:E; [|discriminate Hok].
  destruct (quote_answer_adds_up (R := gmap_redis) demo_settings (StaticFxProvider demo_table 5) (λ _, "r") "pricing" 86400 (λ t, t)
    (Idem.demo_clock 5) (Some "k") 5 (λ k, N.of_nat (40 + k)) "ann" (demo_body "USD") ∅ (demo_pdb, mkPW ∅ [] []) st body s1 w1
    ltac:(intros k [= <-] _; reflexivity) E) as (-> & q & fx & issued & rows & Hq & _ & _ & _ & _ & _ & _ & _ & _ & Hreplay).
  exists body, s1, w1. split; [done|]. apply (Hreplay "k"); [done|done| |simpl; lia].
  rewrite <- Hq. by vm_compute.
Defined.
End PricingApi.
