(* ===== verification/Seeds.v ===== *)
(** * The seeded databases

    The rows that the migrations of fee-pricing-service and notification-service
    insert, as the tables of the pricing and notification components, and what
    those components do on a database fresh from its migrations. *)
From S2P Require Import Prelude PyText PyDecimal UnitOfWork Tables Pricing Templating Delivery Notify Sql SqlFacts Migrations Schema.

Module Seeds.
Import Pricing.
Open Scope Z_scope.

Definition pricing_service : Migrations.service := Migrations.mkService "pricing" Migrations.pricing_migrations Migrations.pricing_models.
Definition notify_service : Migrations.service := Migrations.mkService "notify" Migrations.notify_migrations Migrations.notify_models.

(** ** Rows as the repositories read them *)

Definition text (c : string) (r : gmap string Sql.value) : option string :=
  match r !! c with Some (Sql.VText s) => Some s | _ => None end.

Definition int (c : string) (r : gmap string Sql.value) : option Z :=
  match r !! c with Some (Sql.VInt z) => Some z | _ => None end.

Definition flag (c : string) (r : gmap string Sql.value) : option bool :=
  match r !! c with Some (Sql.VBool b) => Some b | _ => None end.

Definition tier_of (r : gmap string Sql.value) : option (string * TierRow) :=
  t ← text "tier" r; n ← text "display_name" r; p ← int "platform_pct_bps" r; f ← int "platform_fixed" r;
  c ← text "fixed_currency" r; a ← flag "active" r; Some (t, mkTierRow t n p f c a).

Definition rail_of (r : gmap string Sql.value) : option RailFeeRow :=
  rl ← text "rail" r; p ← int "pct_bps" r; f ← int "fixed" r; c ← text "fixed_currency" r; a ← flag "active" r;
  Some (mkRailRow rl (text "tier" r) p f c a).

Definition rows_of (n : string) (d : Sql.db) : list (gmap string Sql.value) :=
  match Sql.tables d !! n with Some t => Sql.rows t | None => [] end.

(** The pricing tables right after the migrations. *)
Definition seeded (now : Z) : pdb :=
  let d := Migrations.head now pricing_service in
  mkPdb (list_to_map (omap tier_of (rows_of "tiers" d))) (omap rail_of (rows_of "rail_fee_schedules" d)) ∅ [] [] [] 1 [] [].

Lemma seeded_tiers now :
  map_to_list (tiers (seeded now)) ≡ₚ
  [("standard", mkTierRow "standard" "Standard" 250 0 "KES" true); ("startup", mkTierRow "startup" "Startup" 150 0 "KES" true);
   ("growth", mkTierRow "growth" "Growth" 200 0 "KES" true); ("scale", mkTierRow "scale" "Scale" 120 0 "KES" true);
   ("enterprise", mkTierRow "enterprise" "Enterprise" 80 0 "KES" true)].
Proof.
  assert (E : omap tier_of (rows_of "tiers" (Migrations.head now pricing_service)) =
    [("standard", mkTierRow "standard" "Standard" 250 0 "KES" true); ("startup", mkTierRow "startup" "Startup" 150 0 "KES" true);
     ("growth", mkTierRow "growth" "Growth" 200 0 "KES" true); ("scale", mkTierRow "scale" "Scale" 120 0 "KES" true);
     ("enterprise", mkTierRow "enterprise" "Enterprise" 80 0 "KES" true)]) by (vm_compute; reflexivity).
  unfold seeded. cbn [tiers]. rewrite E. apply map_to_list_to_map. apply (bool_decide_eq_true_1 _). vm_compute. reflexivity.
Qed.

Lemma seeded_rails now :
  rail_fees (seeded now) = [mkRailRow "mpesa" None 150 0 "KES" true; mkRailRow "card" None 290 30 "KES" true;
                            mkRailRow "bank" None 50 0 "KES" true; mkRailRow "crypto" None 100 0 "KES" true].
Proof. vm_compute. reflexivity. Qed.

Lemma seeded_templates now :
  omap (λ r, i ← text "template_id" r; c ← text "channel" r; l ← text "locale" r; b ← text "body" r; a ← flag "active" r;
             Some (Notify.mkTemplate i c l b a)) (rows_of "templates" (Migrations.head now notify_service)) = Notify._SEED_TEMPLATES.
Proof. vm_compute. reflexivity. Qed.

(** ** Quoting on the fresh database *)

(** The seeded fee of a rail. *)
Definition seeded_rail (r : string) : option (Z * Z) :=
  if bool_decide (r = "mpesa") then Some (150, 0) else if bool_decide (r = "card") then Some (290, 30)
  else if bool_decide (r = "bank") then Some (50, 0) else if bool_decide (r = "crypto") then Some (100, 0) else None.

Lemma seeded_rail_fee now0 d r t :
  rail_fees d = rail_fees (seeded now0) → r ∈ Rails →
  ∃ bps fx, get_rail_fee r t d = Some (mkRailRow r None bps fx "KES" true) ∧ 0 ≤ bps ≤ 290 ∧ 0 ≤ fx ≤ 30 ∧ seeded_rail r = Some (bps, fx).
Proof.
  intros Hd Hr. unfold get_rail_fee. rewrite Hd, seeded_rails.
  unfold Rails in Hr. rewrite !elem_of_cons, elem_of_nil in Hr.
  destruct Hr as [-> |[-> |[-> |[-> |[]]]]]; eexists _, _; (split; [vm_compute; reflexivity|]); cbn; (split; [lia|]); split; (lia || done).
Qed.

Lemma seeded_standard now0 d :
  tiers d = tiers (seeded now0) → get_tier "standard" d = Some (mkTierRow "standard" "Standard" 250 0 "KES" true).
Proof. intros Hd. unfold get_tier. rewrite Hd. vm_compute. reflexivity. Qed.

(** A quote in shillings on the seeded fees: the fees never reach the amount. *)
Lemma seeded_quote gross c r bps fx :
  upper (upper c) = "KES" → 33 ≤ gross < 10 ^ 24 → 0 ≤ bps ≤ 290 → 0 ≤ fx ≤ 30 →
  ∃ qr, compute_quote gross (upper c) (upper c) (mkTierFee "standard" 250 0 "KES") (mkRailFee r bps fx "KES") None = Ok qr ∧
    0 ≤ q_platform_fee qr < 10 ^ 24 ∧ 0 ≤ q_rail_fee qr < 10 ^ 24 ∧ 0 ≤ q_net qr < 10 ^ 24.
Proof.
  intros Hc Hg Hb Hf. unfold compute_quote, settle_gross. rewrite bool_decide_eq_true_2 by done. simpl.
  change (10 ^ 24) with 1000000000000000000000000 in *.
  assert (Hp : 0 ≤ gross * 250 < 10 ^ prec) by (change (10 ^ prec) with 10000000000000000000000000000; lia).
  assert (Hr : 0 ≤ gross * bps < 10 ^ prec) by (change (10 ^ prec) with 10000000000000000000000000000; nia).
  rewrite !bps_of_exact by done. simpl. rewrite !_convert_same by (by rewrite Hc). simpl.
  assert (H1 : bps_round gross 250 * 20000 ≤ 2 * (gross * 250) + 10000)
    by (unfold bps_round; pose proof (Z.mul_div_le (2 * (gross * 250) + 10000) 20000); lia).
  assert (H2 : bps_round gross bps * 20000 ≤ 2 * (gross * bps) + 10000)
    by (unfold bps_round; pose proof (Z.mul_div_le (2 * (gross * bps) + 10000) 20000); lia).
  assert (H3 : 0 ≤ bps_round gross 250) by (apply Z.div_pos; lia).
  assert (H4 : 0 ≤ bps_round gross bps) by (apply Z.div_pos; lia).
  assert (H5 : gross * bps ≤ gross * 290) by nia.
  replace (gross - (bps_round gross 250 + 0) - (bps_round gross bps + fx) <? 0) with false by (symmetry; apply Z.ltb_ge; lia).
  eexists. split; [done|]. simpl. lia.
Qed.

Section fresh_quotes.
Variables (settings : Settings) (fx_provider : provider) (uuid_str : uuid → string) (dec_str : dec → string).
Variables (now0 now : Z) (fresh : nat → uuid) (m : uuid) (gross : Z) (c : string).
Hypotheses (Hc : upper (upper c) = "KES") (Hg : 33 ≤ gross < 10 ^ 24) (Hfresh : ∀ i j, fresh i = fresh j → i = j).

(** The session after [k] quotes: the seeded fees, and ids of earlier quotes. *)
Definition ready (k : nat) (d : pdb) : Prop :=
  tiers d = tiers (seeded now0) ∧ rail_fees d = rail_fees (seeded now0) ∧
  ∀ q, q ∈ quotes d → ∃ j, (j < k)%nat ∧ quote_id q = fresh j.

Lemma put_quote_fresh k d row :
  ready k d → quote_id row = fresh k → 0 ≤ qr_gross row < 10 ^ 24 → 0 ≤ qr_platform_fee row < 10 ^ 24 →
  0 ≤ qr_rail_fee row < 10 ^ 24 → 0 ≤ qr_net row < 10 ^ 24 → qr_fx row = None →
  ∃ d', put_quote row d = Ok d' ∧ ready (S k) d'.
Proof.
  intros (Ht & Hr & Hq) Hid H1 H2 H3 H4 Hfx. unfold put_quote, stored_quote. rewrite Hfx.
  replace (numeric38 <=? _) with false.
  2:{ symmetry. apply Z.leb_gt. unfold numeric38. change (10 ^ 38) with 100000000000000000000000000000000000000.
      change (10 ^ 24) with 1000000000000000000000000 in *. lia. }
  cbn [negb obind]. rewrite bool_decide_false.
  - eexists. split; [done|]. split; [done|]. split; [done|]. simpl. intros q [Hin|Hin]%elem_of_app.
    + destruct (Hq q Hin) as (j & ? & ?). exists j. split; [lia|done].
    + apply list_elem_of_singleton in Hin as ->. exists k. split; [lia|done].
  - intros (q & Hqid & Hin)%list_elem_of_fmap. destruct (Hq q Hin) as (j & Hj & Hjq).
    simpl in Hqid. assert (k = j) by (apply Hfresh; congruence). lia.
Qed.

Lemma quote_one_fresh k r w :
  ready k (tx w) → r ∈ Rails →
  wp (quote_one uuid_str dec_str now m gross (upper c) (upper c) None fresh k "standard" r (mkTierFee "standard" 250 0 "KES"))
    (λ res w', ∃ q, res = Ok q ∧ (iss_tier q, iss_rail q) = ("standard", r) ∧ ready (S k) (tx w')) w.
Proof.
  intros Hw Hr. destruct (seeded_rail_fee now0 (tx w) r "standard") as (bps & fx & Hf & Hb & Hfx & _); [apply Hw|done|].
  destruct (seeded_quote gross c r bps fx Hc Hg Hb Hfx) as (qr & Hqr & Hp & Hrf & Hn).
  destruct (put_quote_fresh k (tx w) (quote_row m gross (upper c) (upper c) None (fresh k) "standard" r qr
      (breakdown dec_str now (mkTierFee "standard" 250 0 "KES") (mkRailFee r bps fx "KES") qr)))
    as (d' & Hput & Hd'); [done|done|simpl; lia|done..|].
  unfold quote_one, _rail_fee, add_event, publish. wp_go; simplify_eq/=; [|congruence|congruence].
  assert (a = qr) as -> by congruence. assert (d = d') as -> by congruence.
  eexists. split; [done|]. split; [reflexivity|]. destruct Hd' as (Hd1 & Hd2 & Hd3).
  split; [exact Hd1|split; [exact Hd2|exact Hd3]].
Qed.

Lemma quote_rails_fresh k rails w :
  ready k (tx w) → (∀ r, r ∈ rails → r ∈ Rails) →
  wp (quote_rails uuid_str dec_str now m gross (upper c) (upper c) None fresh k "standard" (mkTierFee "standard" 250 0 "KES") rails)
    (λ res w', ∃ qs, res = Ok qs ∧ (λ q, (iss_tier q, iss_rail q)) <$> qs = pair "standard" <$> rails) w.
Proof.
  revert k w. induction rails as [|r rails IH]; intros k w Hw Hr; cbn [quote_rails]; [wp_step; by exists []|].
  wp_step. eapply wp_mono; [apply quote_one_fresh; [done|apply Hr; left]|].
  intros res w1 (q & -> & Hq & Hw1). cbv iota. wp_step. eapply wp_mono; [apply (IH (S k)); [done|intros; apply Hr; by right]|].
  intros res w2 (qs & -> & Hqs). cbv iota. wp_step. exists (q :: qs). split; [done|]. rewrite !fmap_cons, Hqs. f_equal. exact Hq.
Qed.

Lemma fresh_quote rails w :
  tx w = seeded now0 → (∀ r, r ∈ rails → r ∈ Rails) →
  wp (quote settings fx_provider uuid_str dec_str now fresh m gross c c rails None)
    (λ res w', ∃ qs, res = Ok qs ∧ (λ q, (iss_tier q, iss_rail q)) <$> qs = pair "standard" <$> rails) w.
Proof.
  destruct w as [d0 d1 x0]. cbn [tx]. intros -> Hr. unfold quote, _resolve_merchant_tier, _tier_fee.
  rewrite bool_decide_eq_true_2 by done. do 6 wp_step.
  replace (merchant_pricing (seeded now0) !! m) with (@None MerchantPricingRow) by (symmetry; apply lookup_empty). cbv iota.
  cbn [quote_tiers]. unfold _tier_fee. do 4 wp_step. change DEFAULT_TIER with "standard".
  rewrite (seeded_standard now0 _ eq_refl). cbn [t_active t_tier t_pct_bps t_fixed t_fixed_currency]. do 2 wp_step.
  eapply wp_mono; [apply (quote_rails_fresh 0)|].
  - split; [reflexivity|split; [reflexivity|]]. intros q Hq. by apply elem_of_nil in Hq.
  - done.
  - intros res w' (qs & -> & Hqs). cbv iota. wp_go. exists qs. by rewrite app_nil_r.
Qed.
End fresh_quotes.

(** The card rail outside the seeded currency. *)
Lemma seeded_card gross c :
  upper (upper c) ≠ "KES" → 0 ≤ gross < 10 ^ 24 →
  compute_quote gross (upper c) (upper c) (mkTierFee "standard" 250 0 "KES") (mkRailFee "card" 290 30 "KES") None
  = Raise (AppError FX_UNAVAILABLE).
Proof.
  intros Hc Hg. unfold compute_quote, settle_gross. rewrite bool_decide_eq_true_2 by done. simpl.
  change (10 ^ 24) with 1000000000000000000000000 in *.
  rewrite !bps_of_exact by (change (10 ^ prec) with 10000000000000000000000000000; lia). simpl.
  unfold _convert. rewrite bool_decide_eq_false_2 by (intros Heq; apply Hc; rewrite <- Heq; reflexivity). done.
Qed.

Lemma fresh_card settings fx_provider uuid_str dec_str now0 now fresh m gross c x :
  upper (upper c) ≠ "KES" → 0 ≤ gross < 10 ^ 24 →
  wp (quote settings fx_provider uuid_str dec_str now fresh m gross c c ["card"] None)
    (λ res w', res = Raise (AppError FX_UNAVAILABLE) ∧ db w' = seeded now0 ∧ ext w' = x) (Uow (seeded now0) (seeded now0) x).
Proof.
  intros Hc Hg. unfold quote, _resolve_merchant_tier. rewrite bool_decide_eq_true_2 by done. do 6 wp_step.
  replace (merchant_pricing (seeded now0) !! m) with (@None MerchantPricingRow) by (symmetry; apply lookup_empty). cbv iota.
  cbn [quote_tiers]. unfold _tier_fee. do 4 wp_step. change DEFAULT_TIER with "standard".
  rewrite (seeded_standard now0 _ eq_refl). cbn [t_active t_tier t_pct_bps t_fixed t_fixed_currency]. do 2 wp_step.
  cbn [quote_rails]. unfold quote_one, _rail_fee. do 4 wp_step.
  destruct (seeded_rail_fee now0 (seeded now0) "card" "standard" eq_refl) as (bps & fx & -> & _ & _ & Hs); [set_solver|].
  injection Hs as <- <-. cbv iota. cbn [rf_rail rf_pct_bps rf_fixed rf_fixed_currency]. do 3 wp_step.
  rewrite seeded_card by done. cbv iota. done.
Qed.

(** a database fresh from the migrations can quote: for a merchant without
    a pricing row, every request in shillings of at least 33 minor units is
    answered with one quote per rail, at the standard tier.  In any other single
    currency a quote for the card rail is refused with FX_UNAVAILABLE, whatever
    the amount, since the seeded fixed fee of the rail is in shillings. *)
Theorem fresh_database_quotes settings fx_provider uuid_str dec_str now0 now fresh m gross c rails x :
  33 ≤ gross < 10 ^ 24 → (∀ i j, fresh i = fresh j → i = j) → (∀ r, r ∈ rails → r ∈ Rails) →
  (upper (upper c) = "KES" →
   ∃ qs d' x', request (quote settings fx_provider uuid_str dec_str now fresh m gross c c rails None) (seeded now0) x = (Ok qs, d', x') ∧
     (λ q, (iss_tier q, iss_rail q)) <$> qs = pair "standard" <$> rails) ∧
  (upper (upper c) ≠ "KES" →
   request (quote settings fx_provider uuid_str dec_str now fresh m gross c c ["card"] None) (seeded now0) x
   = (Raise (AppError FX_UNAVAILABLE), seeded now0, x)).
Proof.
  intros Hg Hf Hr. split.
  - intros Hc. pose proof (wp_request _ (λ r _ _, ∃ qs, r = Ok qs ∧ (λ q, (iss_tier q, iss_rail q)) <$> qs = pair "standard" <$> rails) _ _
      (fresh_quote settings fx_provider uuid_str dec_str now0 now fresh m gross c
      Hc Hg Hf rails (Uow (seeded now0) (seeded now0) x) eq_refl Hr)) as H0.
    destruct (request _ _ _) as [[r d'] x']. destruct H0 as (qs & Hr0 & Hqs). simpl in Hr0. subst r. eauto.
  - intros Hc. pose proof (wp_request _ (λ r d' x', r = Raise (AppError FX_UNAVAILABLE) ∧ d' = seeded now0 ∧ x' = x) _ _
      (fresh_card settings fx_provider uuid_str dec_str now0 now fresh m gross c x Hc ltac:(lia))) as H0.
    destruct (request _ _ _) as [[r d'] x']. destruct H0 as (H1 & H2 & H3). simpl in *. congruence.
Qed.

Definition demo_settings : Settings := mkSettings "fee-pricing" 60 ∅ false "KES".

Lemma fresh_database_quotes_witness :
  ∃ qs d' x', request (quote demo_settings (λ _ _, None) (λ _, "id") (λ _, "1") 7 N.of_nat 9%N 1000 "kes" "kes" ["mpesa"; "card"] None)
      (seeded 3) (mkPW ∅ [] []) = (Ok qs, d', x') ∧
    (λ q, (iss_tier q, iss_rail q)) <$> qs = [("standard", "mpesa"); ("standard", "card")].
Proof.
  apply (fresh_database_quotes demo_settings (λ _ _, None) (λ _, "id") (λ _, "1") 3 7 N.of_nat 9%N 1000 "kes" ["mpesa"; "card"]);
    [lia|intros; lia|set_solver|vm_compute; reflexivity].
Defined.
End Seeds.
