(* ===== verification/Flows.v ===== *)
(** * Flows across services

    The seams between services, with the code of both sides: the compliance gate of
    paylink-service answered by compliance-risk ([app/compliance/client.py]), KYC
    results announced by compliance-risk and consumed by identity-service, and the events
    and notifications of paylink-service taken in by notification-service. *)
From S2P Require Import Prelude PyText PyDecimal PyJson PyNum UnitOfWork Tables Chain PayLink IdentityDb Sessions Risk Compliance Delivery Notify.

Module Flows.
Import PyNum.
Open Scope Z_scope.

(** ** The compliance gate *)

Section gate.
Variables (cs : Risk.RiskSettings) (secret token : option string) (now dbnow : Z).

(** [ComplianceClient.evaluate] against the route of compliance-risk: the request it
    sends, the decision of a 200 answer, nothing for any other, and compliance-risk
    as the request leaves it. *)
Definition ask (user action : string) (amount : Z) (currency context : string) (s : Compliance.cdb * Compliance.cworld) :
    option string * (Compliance.cdb * Compliance.cworld) :=
  let '(r, d', x') := request (Compliance.evaluate_route cs secret token now dbnow
    (Compliance.mkEvalReq user action (Some (dec_int amount)) currency None None (Some context))) s.1 s.2 in
  (match r with Ok o => Some (Risk.Decision_value (Risk.decision o)) | Raise _ => None end, (d', x')).

(** The answers paylink-service gets from compliance-risk in the state [s]. *)
Definition risk_port (s : Compliance.cdb * Compliance.cworld) : PayLink.RiskPort :=
  λ user action amount currency context, (ask user action amount currency context s).1.

(** The user [_compliance_gate] asks about, if it asks at all. *)
Definition gate_asks (settings : PayLink.Settings) (cmd : PayLink.CreateCommand) : option string :=
  if PayLink.compliance_check_enabled settings && (PayLink.amount_kyc_threshold settings <? PayLink.c_amount cmd)
  then match PayLink.c_user_id cmd with Some user => if truthy user then Some user else None | None => None end
  else None.

(** compliance-risk after a creation, which asks it once at most. *)
Definition risk_after (settings : PayLink.Settings) (i : string) (cmd : PayLink.CreateCommand)
    (s : Compliance.cdb * Compliance.cworld) : Compliance.cdb * Compliance.cworld :=
  match gate_asks settings cmd with
  | Some user => (ask user "paylink.create" (PayLink.c_amount cmd) (PayLink.c_currency cmd) ("paylink.create:" +:+ i) s).2
  | None => s
  end.

(** A creation at both services. *)
Definition create_at_both (sha256_hex : string → string) (n : Chain.node) (signer : Chain.Signer) (settings : PayLink.Settings)
    (fresh : string) (cmd : PayLink.CreateCommand) (d : PayLink.pldb) (x : PayLink.world) (s : Compliance.cdb * Compliance.cworld) :=
  (PayLink.as_action (PayLink.create sha256_hex n signer settings (Some (risk_port s)) now fresh cmd) (d, x),
   risk_after settings (PayLink.cmd_pl_id sha256_hex fresh cmd) cmd s).
End gate.

Lemma text_length l : String.length (text l) = length l.
Proof. induction l; simpl; congruence. Qed.

Lemma append_length a b : String.length (a +:+ b) = (String.length a + String.length b)%nat.
Proof. induction a; simpl; [done|]. f_equal. exact IHa. Qed.

Lemma uuid_text_length u : String.length (uuid_text u) = 36%nat.
Proof.
  unfold uuid_text. rewrite text_length. pose proof (hexn_length 32 u) as Hl. revert Hl. generalize (hexn 32 u). intros h Hl.
  repeat (rewrite length_app; cbn [length]). rewrite !length_take, !length_drop. lia.
Qed.

Lemma dec_compare_int a b : dec_compare (dec_int a) (dec_int b) = (a ?= b).
Proof. unfold dec_compare, dec_int. simpl. by rewrite !Z.mul_1_r. Qed.

(** A sum of the window: two decimals at most, within its column. *)
Definition window_sum (n : num) (c e : Z) : Prop := n = Fin (Dec c e) ∧ -2 ≤ e ≤ 0 ∧ 0 ≤ c < 10 ^ 20.

Lemma projected_over n c e a : window_sum n c e → 150000 ≤ a ≤ 10 ^ 15 → num_ge (num_add n (Fin (dec_int a))) (Fin (dec_int 150000)) = Ok true.
Proof.
  intros (-> & He & Hc) Ha. unfold num_ge, num_compare, num_add, dec_add, dec_int. cbn [coef expo].
  rewrite Z.min_l by lia. rewrite Z.sub_diag, Z.sub_0_l, Z.pow_0_r, Z.mul_1_r.
  assert (Hp : 1 ≤ 10 ^ (- e) ≤ 100) by (assert (e = -2 ∨ e = -1 ∨ e = 0) as [->|[->| ->]] by lia; simpl; lia).
  set (p := 10 ^ (- e)) in *. rewrite dec_fix_small by (cbn [coef]; unfold prec; nia).
  unfold dec_compare. cbn [coef expo]. rewrite Z.min_l by lia. rewrite Z.sub_diag, Z.sub_0_l, Z.pow_0_r, Z.mul_1_r. fold p. simpl.
  destruct (Z.compare_spec (c + a * p) (150000 * p)); [done|nia|done].
Qed.

Section blocked.
Variables (now : Z) (d : Compliance.cdb) (u : uuid) (a : Z) (currency : string) (c e : Z).
Let inputs := Compliance.collect Risk.default_settings now u "paylink.create" (Some (dec_int a)) currency None None d.
Hypothesis Hsum : window_sum (Compliance.sum_amount_since u (now - Compliance.hours 720) d) c e.
Hypothesis Ha : 150000 ≤ a ≤ 10 ^ 15.

Lemma gate_amount : Risk.has_amount inputs = true ∧ Risk.amount_or_zero inputs = dec_int a.
Proof.
  split.
  - unfold Risk.has_amount. cbn [inputs Compliance.collect Risk.amount]. rewrite dec_compare_int.
    destruct (Z.compare_spec a 0); [lia|lia|done].
  - unfold Risk.amount_or_zero. cbn [inputs Compliance.collect Risk.amount]. simpl. by rewrite (proj2 (Z.eqb_neq a 0)) by lia.
Qed.

(** The signals of an evaluation above both thresholds. *)
Lemma gate_signals : ∃ over,
  Risk.signals_of Risk.default_config inputs = Ok (Risk.mkSignals (Compliance.get_tier u d <=? 0) (Compliance.get_tier u d <? 2) over
    (if 50 <=? Compliance.count_activity_since u (now - Compliance.hours 24) d then 2%nat
     else if 20 <=? Compliance.count_activity_since u (now - Compliance.hours 24) d then 1%nat else 0%nat)
    (10 <=? Compliance.count_activity_since u (now - Compliance.hours 1) d) false) ∧
  (Compliance.get_tier u d = 2 → over = false) ∧ (2 < Compliance.get_tier u d → over = true).
Proof.
  destruct gate_amount as [Hh Hz]. set (t := Compliance.get_tier u d).
  assert (Hv : Risk.is_value_action inputs = true) by (unfold Risk.is_value_action; by vm_compute).
  assert (Hcl : ∃ over, num_gt (Fin (dec_int a)) (Risk._ceiling_for Risk.default_config t) = Ok over ∧ (t = 2 → over = false) ∧ (2 < t → over = true)).
  { destruct (Z.lt_ge_cases 2 t) as [Ht|Ht].
    - exists true. rewrite Risk.ceiling_unknown by done. unfold num_gt, num_compare. rewrite dec_compare_int.
      destruct (Z.compare_spec a 0); [lia|lia|]. split; [done|]. split; [lia|done].
    - destruct (decide (t = 2)) as [->|Hne]; [by exists false|].
      assert (∃ b, Risk._ceiling_for Risk.default_config t = Fin b) as [b ->].
      { unfold Risk._ceiling_for, Risk.ceiling_at, Risk.default_config. cbn [Risk.tier_ceilings]. rewrite !filter_cons, filter_nil. cbn [fst].
        destruct (decide (0 = t)); [by eexists|]. destruct (decide (1 = t)); [by eexists|]. destruct (decide (2 = t)); [lia|]. by exists (dec_int 0). }
      eexists. split; [done|]. split; intros; exfalso; lia. }
  destruct Hcl as (over & Hover & H2 & H3). exists over. split_and!; [|done|done].
  unfold Risk.signals_of, Risk.aml_hit, Risk.ceiling_hit, Risk.low_kyc_hit. rewrite Hv, Hh, Hz.
  change (Risk.cumulative_amount_window inputs) with (Compliance.sum_amount_since u (now - Compliance.hours 720) d).
  change (Risk.aml_cumulative_threshold Risk.default_config) with (Fin (dec_int 150000)).
  rewrite (projected_over _ c e a Hsum Ha). change (Risk.amount inputs) with (Some (dec_int a)). change (Risk.tier inputs) with t.
  cbn [obind]. rewrite Hover. cbn [obind andb]. by rewrite andb_true_r.
Qed.

(** When the engine blocks. *)
Definition blocks : bool :=
  (Compliance.get_tier u d <? 2) || (50 <=? Compliance.count_activity_since u (now - Compliance.hours 24) d) ||
  ((2 <? Compliance.get_tier u d) && ((20 <=? Compliance.count_activity_since u (now - Compliance.hours 24) d) ||
     (10 <=? Compliance.count_activity_since u (now - Compliance.hours 1) d))).

Lemma gate_engine : ∃ o, Risk.evaluate inputs Risk.default_config = Ok o ∧ bool_decide (Risk.Decision_value (Risk.decision o) = "block") = blocks.
Proof.
  destruct gate_signals as (over & Hs & H2 & H3). rewrite Risk.evaluate_signals, Hs. eexists. split; [done|].
  rewrite (proj1 (Risk.combine_spec _ _ _ (Risk.signals_24h _ _ _ Hs))), Risk.default_decision. unfold blocks, Risk.ref_score, Risk.pts.
  cbn [Risk.s_low Risk.s_aml Risk.s_over Risk.s_24h Risk.s_1h Risk.s_geo]. set (t := Compliance.get_tier u d) in *.
  destruct (Z.ltb_spec t 2) as [Ht|Ht]; [by rewrite orb_true_r|]. rewrite (proj2 (Z.leb_gt t 0)) by lia. simpl.
  destruct (50 <=? Compliance.count_activity_since u (now - Compliance.hours 24) d) eqn:E50; simpl.
  { by destruct over, (10 <=? _). }
  destruct (Z.ltb_spec 2 t) as [Ht'|Ht']; simpl; [rewrite (H3 Ht')|rewrite H2 by lia];
    by destruct (20 <=? Compliance.count_activity_since u (now - Compliance.hours 24) d), (10 <=? _).
Qed.
End blocked.

(** A creation is refused for KYC exactly when the gate refuses it, and then leaves
    nothing behind. *)
Lemma create_outcome sha256_hex n signer settings compliance now fresh cmd d x :
  let '(r, kept) := PayLink.as_action (PayLink.create sha256_hex n signer settings compliance now fresh cmd) (d, x) in
  (r = Raise (AppError Chain.KYC_REQUIRED) ↔ PayLink.gate_refuses settings compliance cmd (PayLink.cmd_pl_id sha256_hex fresh cmd) = true) ∧
  (r = Raise (AppError Chain.KYC_REQUIRED) → kept = (d, x)).
Proof.
  destruct (PayLink.gate_refuses settings compliance cmd _) eqn:Hg.
  - by rewrite (PayLink.create_refused_by_gate _ _ _ _ _ _ _ _ _ _ Hg).
  - pose proof (PayLink.create_not_kyc sha256_hex n signer settings compliance now fresh cmd d x Hg) as Hw.
    apply (wp_request _ (λ r _ _, r ≠ Raise (AppError Chain.KYC_REQUIRED))) in Hw.
    unfold PayLink.as_action. simpl. destruct (request _ d x) as [[r d'] x']. simpl in *. naive_solver.
Qed.

Section create.
Variables (secret token : option string) (now dbnow : Z) (s : Compliance.cdb * Compliance.cworld) (u : uuid) (a : Z).
Variables (currency context : string) (c e : Z).
Hypothesis Hu : (u < 2 ^ 128)%N.
Hypothesis Ha : 150000 ≤ a.
Hypothesis Hcur : (String.length currency ≤ 8)%nat.
Hypothesis Hctx : (String.length context ≤ 200)%nat.
Hypothesis Htoken : secret = None ∨ (secret = token ∧ ∃ t, token = Some t ∧ truthy t = true ∧ Compliance.ascii_text t = true).
Hypothesis Hsum : window_sum (Compliance.sum_amount_since u (now - Compliance.hours 720) s.1) c e.

Lemma eval_request_ok : Compliance.evaluate_request_ok
  (Compliance.mkEvalReq (uuid_text u) "paylink.create" (Some (dec_int a)) currency None None (Some context)) = (a <=? 10 ^ 15).
Proof.
  unfold Compliance.evaluate_request_ok. cbn [Compliance.q_user_id Compliance.q_action Compliance.q_amount Compliance.q_currency
    Compliance.q_geo Compliance.q_registered_country Compliance.q_context Compliance.omax_len]. unfold Compliance.max_len.
  assert (Hmax : dec_compare (dec_int a) (Dec 1 15) = (a ?= 10 ^ 15)).
  { unfold dec_compare, dec_int. cbn [coef expo]. change (Z.min 0 15) with 0. change (0 - 0) with 0. change (15 - 0) with 15.
    by rewrite Z.pow_0_r, Z.mul_1_r, Z.mul_1_l. }
  rewrite uuid_text_length, dec_compare_int, (proj2 (Nat.leb_le _ 8)), (proj2 (Nat.leb_le _ 200)), Hmax by done.
  destruct (Z.compare_spec a 0); [lia|lia|]. unfold Z.leb. by destruct (a ?= 10 ^ 15).
Qed.

Lemma gate_open : Compliance.internal_gate secret token = mret tt.
Proof.
  unfold Compliance.internal_gate. destruct Htoken as [->|(-> & t & -> & Ht & Hascii)]; [done|].
  unfold Compliance.compare_digest. by rewrite Ht, Hascii, bool_decide_true.
Qed.

Let evaluation := request (Compliance.evaluate Risk.default_settings now dbnow u "paylink.create" (Some (dec_int a)) currency
  None None (Some context)) s.1 s.2.

(** What the client gets: the engine's answer, or nothing for an amount beyond what
    the route accepts. *)
Lemma ask_run : ask Risk.default_settings secret token now dbnow (uuid_text u) "paylink.create" a currency context s =
  if a <=? 10 ^ 15 then
    (match evaluation.1.1 with Ok o => Some (Risk.Decision_value (Risk.decision o)) | Raise _ => None end, (evaluation.1.2, evaluation.2))
  else (None, s).
Proof.
  unfold ask, Compliance.evaluate_route. rewrite eval_request_ok, gate_open by done. destruct (a <=? 10 ^ 15); cbn [negb].
  - cbn [Compliance.q_user_id Compliance.q_action Compliance.q_amount Compliance.q_currency Compliance.q_geo
      Compliance.q_registered_country Compliance.q_context].
    unfold Compliance.parse_uuid_field. rewrite parse_uuid_text by done. subst evaluation. clear.
    unfold request, mbind, handler_bind, mret, handler_ret. by destruct (Compliance.evaluate _ _ _ _ _ _ _ _ _ _ _) as [r w].
  - by destruct s.
Qed.

(** What compliance-risk has recorded of a question about [u]: the score row with its
    decision and, unless it allows, one flag. *)
Definition recorded_for (decision : string) (s' : Compliance.cdb * Compliance.cworld) : Prop :=
  Compliance.kyc_records s'.1 = Compliance.kyc_records s.1 ∧ Compliance.activity_events s'.1 = Compliance.activity_events s.1 ∧
  (∃ row, Compliance.risk_scores s'.1 = Compliance.risk_scores s.1 ++ [row] ∧ Compliance.rs_user row = u ∧
     Compliance.rs_context row = context ∧ Compliance.rs_decision row = decision) ∧
  ∃ fs, Compliance.flags s'.1 = Compliance.flags s.1 ++ fs ∧ Forall (λ f, Compliance.fl_user f = u) fs ∧
    Compliance.fl_severity <$> fs = (if bool_decide (decision = "block") then ["block"] else if bool_decide (decision = "review") then ["warn"] else []).

Hypothesis Hname : truthy context = true.

Lemma ask_answer : a ≤ 10 ^ 15 → ∃ v s',
  ask Risk.default_settings secret token now dbnow (uuid_text u) "paylink.create" a currency context s = (Some v, s') ∧
  bool_decide (v = "block") = blocks now s.1 u ∧ recorded_for v s'.
Proof.
  intros Hmax. rewrite ask_run, (proj2 (Z.leb_le _ _) Hmax). subst evaluation.
  destruct (gate_engine now s.1 u a currency c e Hsum (conj Ha Hmax)) as (o & Ho & Hb).
  rewrite Compliance.evaluate_run, Risk.default_config_built, Ho. cbn [fst snd]. eexists _, _. split; [done|]. split; [done|].
  unfold recorded_for. cbn [fst snd Compliance.kyc_records Compliance.activity_events Compliance.risk_scores Compliance.flags].
  split_and!; [done|done| |].
  - eexists. split; [done|]. cbn [Compliance.rs_user Compliance.rs_context Compliance.rs_decision]. split_and!; [done| |done].
    unfold str_or. by rewrite Hname.
  - eexists. split; [done|]. unfold Compliance.flags_of. by destruct (Risk.decision o); split; repeat constructor.
Qed.
End create.


(** ** KYC results at identity-service *)

(** [KycConsumer.handle] on a payload of the bus. *)
Definition pget (k : string) (p : Compliance.payload) : option json :=
  match snd <$> head (filter (λ kv, kv.1 = k) p) with Some (Compliance.PJ j) => Some j | _ => None end.

Definition kyc_user (p : Compliance.payload) : option (outcome (exn Identity.ErrorCode) uuid) :=
  match pget "user_id" p with
  | Some j => if jtruthy j then Some (match parse_uuid (py_str j) with Some u => Ok u | None => Raise (PyError ValueError) end) else None
  | None => None
  end.

Definition kyc_tier_field (p : Compliance.payload) : option (outcome (exn Identity.ErrorCode) Z) :=
  (λ j, match Chain.py_int j with Ok t => Ok t | Raise e => Raise (PyError e) end) <$> pget "tier" p.

Definition kyc_handle (name : string) (p : Compliance.payload) : handler Identity.iddb Identity.idworld Identity.ErrorCode unit :=
  Sessions.kyc_event uuid_text name (kyc_user p) (kyc_tier_field p).

(** The announcements of one callback, delivered in order. *)
Definition deliver (s : Identity.iddb * Identity.idworld) (np : string * Compliance.payload) : Identity.iddb * Identity.idworld :=
  let '(_, d, x) := request (kyc_handle np.1 np.2) s.1 s.2 in (d, x).

Definition identity_tier (u : uuid) (d : Identity.iddb) : option Z := Identity.kyc_tier <$> Identity.users d !! u.

Lemma kyc_user_text (u : uuid) rest : (u < 2 ^ 128)%N → kyc_user (("user_id", Compliance.PJ (JStr (uuid_text u))) :: rest) = Some (Ok u).
Proof.
  intros Hu. unfold kyc_user. change (pget _ _) with (Some (JStr (uuid_text u))).
  pose proof (uuid_text_length u) as Hl. pose proof (parse_uuid_text u Hu) as Hp. unfold jtruthy, py_str.
  destruct (uuid_text u) as [|ch s']; [done|]. by rewrite Hp.
Qed.

Lemma deliver_passed (u : uuid) t d x : (u < 2 ^ 128)%N → -32768 ≤ t ≤ 32767 → is_Some (Identity.users d !! u) →
  identity_tier u (deliver (d, x) (Compliance.KYC_PASSED, Compliance.kyc_payload u (Some t))).1 = Some t.
Proof.
  intros Hu Ht [r Hr]. unfold deliver, kyc_handle. cbn [fst snd]. unfold Compliance.kyc_payload. rewrite kyc_user_text by done.
  unfold identity_tier, request, Sessions.kyc_event, Sessions.set_kyc_tier, mbind, handler_bind, lift, query. simpl.
  rewrite Hr. simpl. replace (Sessions.smallint t) with true by (unfold Sessions.smallint; lia). simpl. rewrite lookup_alter_eq, Hr. done.
Qed.

Lemma deliver_failed (u : uuid) d x : (u < 2 ^ 128)%N → is_Some (Identity.users d !! u) →
  identity_tier u (deliver (d, x) (Compliance.KYC_FAILED, Compliance.kyc_payload u None)).1 = Some 0.
Proof.
  intros Hu [r Hr]. unfold deliver, kyc_handle. cbn [fst snd]. unfold Compliance.kyc_payload. rewrite kyc_user_text by done.
  unfold identity_tier, request, Sessions.kyc_event, Sessions.set_kyc_tier, mbind, handler_bind, lift, query. simpl.
  rewrite Hr. simpl. rewrite lookup_alter_eq, Hr. done.
Qed.

Lemma callback_run encrypt settings p now nonce body d r :
  Compliance.parse_callback p body = Ok r → -32768 ≤ Compliance.get_tier (Compliance.cb_user r) d ≤ 32767 → -32768 ≤ Compliance.tier_granted r ≤ 32767 →
  let '(res, d', x') := request (Compliance.apply_callback encrypt settings p now nonce body) d (Compliance.mkCw []) in
  let u := Compliance.cb_user r in
  let t := if Compliance.passed r then Z.max (Compliance.get_tier u d) (Compliance.tier_granted r) else Compliance.get_tier u d in
  res = Ok tt ∧ Compliance.get_tier u d' = t ∧
  Compliance.published x' = [if Compliance.passed r then (Compliance.KYC_PASSED, Compliance.kyc_payload u (Some t)) else (Compliance.KYC_FAILED, Compliance.kyc_payload u None)].
Proof.
  intros Hp Ht Hg. unfold Compliance.apply_callback, request, mbind, handler_bind, lift, query. rewrite Hp. simpl.
  pose proof (Compliance.existing_tier (Compliance.cb_user r) d) as Ht0. unfold try_write, Compliance.upsert_kyc_record.
  destruct (Compliance.passed r); simpl; unfold Compliance.failed_row; simpl; rewrite Ht0;
    rewrite (proj2 (Z.leb_le _ _)), (proj2 (Z.leb_le _ _)) by lia; simpl; unfold Compliance.get_tier; simpl; by rewrite lookup_insert_eq.
Qed.

(** one KYC result at both services.  After a provider's callback and the
    delivery of what compliance-risk announced, identity-service stores the tier that
    compliance-risk holds when the verification passed; when it failed, identity-service
    stores tier 0 while compliance-risk keeps the tier it had, so from then on the two
    services disagree about every user who had been verified before. *)
Theorem kyc_result_at_both (encrypt : string → string → string) (settings : Risk.RiskSettings) (p : Compliance.KycProvider) (now : Z)
    (nonce : string) (body : list (string * json)) (r : Compliance.CallbackResult) (cd : Compliance.cdb) (d : Identity.iddb) (x : Identity.idworld)
    (Hparse : Compliance.parse_callback p body = Ok r) (Hu : (Compliance.cb_user r < 2 ^ 128)%N)
    (Ht : -32768 ≤ Compliance.get_tier (Compliance.cb_user r) cd ≤ 32767) (Hg : -32768 ≤ Compliance.tier_granted r ≤ 32767)
    (Hknown : is_Some (Identity.users d !! Compliance.cb_user r)) :
  let u := Compliance.cb_user r in
  let '(res, cd', xc) := request (Compliance.apply_callback encrypt settings p now nonce body) cd (Compliance.mkCw []) in
  let d' := (fold_left deliver (Compliance.published xc) (d, x)).1 in
  res = Ok tt ∧
  (Compliance.passed r = true → identity_tier u d' = Some (Compliance.get_tier u cd') ∧ Compliance.get_tier u cd ≤ Compliance.get_tier u cd') ∧
  (Compliance.passed r = false → identity_tier u d' = Some 0 ∧ Compliance.get_tier u cd' = Compliance.get_tier u cd).
Proof.
  intros u. pose proof (callback_run encrypt settings p now nonce body cd r Hparse Ht Hg) as Hrun.
  destruct (request _ cd _) as [[res cd'] xc]. destruct Hrun as (-> & Htier & ->). cbn zeta in *. split; [done|].
  destruct (Compliance.passed r); split; try done; intros _; cbn [fold_left].
  - rewrite deliver_passed by (done || lia). fold u in Htier. rewrite Htier. split; [done|]. subst u. lia.
  - by rewrite deliver_failed.
Qed.

(** ** Events on the bus at notification-service *)

Definition text_member (k : string) (o : list (string * json)) : option string :=
  match Chain.jfind k o with Some (JStr s) => Some s | _ => None end.

(** The payload of a bus event as [NotificationEventConsumer.handle] reads it. *)
Definition bus_event (o : list (string * json)) : Notify.EventPayload :=
  Notify.mkEvent (default JNull (Chain.jfind "user_id" o)) (default JNull (Chain.jfind "recipient_addr" o)) (default JNull (Chain.jfind "data" o))
    (text_member "locale" o) (match Chain.jfind "contact" o with Some (JObj c) => Some c | _ => None end)
    (text_member "title" o) (text_member "body" o) (text_member "href" o).

(** No recipient that the consumer could find. *)
Definition no_recipient (j : json) : Prop :=
  match j with JObj o => Chain.jfind "user_id" o = None ∧ Chain.jfind "recipient_addr" o = None | _ => False end.

Section bus.
Variables (sha256_hex : string → string) (n : Chain.node) (signer : Chain.Signer) (settings : PayLink.Settings) (compliance : option PayLink.RiskPort).

Lemma ends_no_recipient q d x r d' x' : PayLink.ends sha256_hex n signer settings q d x r d' x' →
  Forall (λ np, no_recipient np.2) (PayLink.published x) → Forall (λ np, no_recipient np.2) (PayLink.published x').
Proof.
  intros He Hx. destruct q as [now fresh cmd|now i|now i caller]; simpl in He; destruct He; simpl; try done;
    repeat (apply Forall_app; split); try done; try (by repeat constructor).
  case_decide; [|done]. apply Forall_app. split; [done|]. by repeat constructor.
Qed.

Lemma published_no_recipient qs s : Forall (λ np, no_recipient np.2) (PayLink.published s.2) →
  Forall (λ np, no_recipient np.2) (PayLink.published (PayLink.serve_all sha256_hex n signer settings compliance qs s).2).
Proof.
  revert s. induction qs as [|q qs IH]; intros [d x] Hs; [done|]. simpl. apply IH.
  pose proof (PayLink.serve_ends sha256_hex n signer settings compliance q d x) as He. unfold PayLink.serve.
  destruct (PayLink.as_action _ (d, x)) as [r [d' x']]. simpl. by eapply ends_no_recipient.
Qed.

Lemma no_recipient_ignored sha resolve between broker now f name o nd nx : no_recipient (JObj o) →
  request (Notify.handle sha resolve between broker now f name (bus_event o)) nd nx = (Ok [], nd, nx).
Proof.
  intros [Hu Ha]. unfold Notify.handle, bus_event. cbn [Notify.e_user_id Notify.e_recipient_addr]. rewrite Hu, Ha. cbn [default jtruthy].
  destruct (negb _); [done|]. rewrite bool_decide_true by done. done.
Qed.

(** the bus notifies nobody.  No event that paylink-service publishes, in any run, and no payment event of
    payment-orchestrator names a recipient, so notification-service, subscribed to both topics,
    answers each of them with no notification and leaves its state as it was. *)
Theorem bus_notifies_nobody (qs : list PayLink.req) (sha : string → string) (resolve : uuid → option Notify.contact → Notify.Recipient)
    (between : Delivery.Channel → Notify.ndb → Notify.ndb) (broker : uuid → bool) (now : Z) (f : Notify.fresh) (nd : Notify.ndb) (nx : Notify.nworld) :
  (∀ name p, (name, p) ∈ PayLink.published (PayLink.serve_all sha256_hex n signer settings compliance qs PayLink.start).2 →
     ∃ o, p = JObj o ∧ request (Notify.handle sha resolve between broker now f name (bus_event o)) nd nx = (Ok [], nd, nx)) ∧
  (∀ name pay, request (Notify.handle sha resolve between broker now f name (bus_event (Compliance.payment_payload pay))) nd nx = (Ok [], nd, nx)).
Proof.
  split.
  - intros name p Hin. pose proof (published_no_recipient qs PayLink.start ltac:(constructor)) as Hall. rewrite Forall_forall in Hall.
    specialize (Hall _ Hin). simpl in Hall. destruct p as [| | | | |o]; try done. exists o. split; [done|]. by apply no_recipient_ignored.
  - intros name pay. by apply no_recipient_ignored.
Qed.
End bus.

(** ** Concrete runs *)

Definition demo_cmd : PayLink.CreateCommand :=
  PayLink.mkCmd "0xr" 200000 "KES" 4102444800000000 "single" None None None "0xc" (Some (uuid_text 1)).
Definition demo_settings : PayLink.Settings := PayLink.mkSettings true true 100000 false true "KES".


Definition demo_identity : Identity.iddb :=
  Identity.mkDb {[1%N := Identity.mkUser 1 (Some "a@b") None None 2 "active" None]} ∅ ∅ ∅ ∅ ∅ ∅ ∅ [].
Definition demo_kyc : Compliance.cdb :=
  Compliance.mkCdb {[1%N := Compliance.mkKyc 2 (Some "stub") None None (Some 5) None]} [] [] [] [].

Lemma kyc_result_at_both_witness :
  let s := request (Compliance.apply_callback Compliance.demo_seal Risk.default_settings Compliance.FakeKycProvider 9 "n"
    [("user_id", JStr (uuid_text 1)); ("status", JStr "failed")]) demo_kyc (Compliance.mkCw []) in
  identity_tier 1 (fold_left deliver (Compliance.published s.2) (demo_identity, Identity.mkIdWorld [] ∅)).1 = Some 0 ∧
  Compliance.get_tier 1 s.1.2 = 2.
Proof.
  destruct (Compliance.parse_callback Compliance.FakeKycProvider [("user_id", JStr (uuid_text 1)); ("status", JStr "failed")]) as [r|e] eqn:E;
    [|by vm_compute in E].
  assert (Hr : Compliance.cb_user r = 1%N ∧ Compliance.tier_granted r = 2 ∧ Compliance.passed r = false) by (vm_compute in E; injection E as <-; done).
  destruct Hr as (Hu & Ht & Hp).
  pose proof (kyc_result_at_both Compliance.demo_seal Risk.default_settings Compliance.FakeKycProvider 9 "n"
    [("user_id", JStr (uuid_text 1)); ("status", JStr "failed")] r demo_kyc demo_identity (Identity.mkIdWorld [] ∅) E) as Hb.
  clear E. rewrite Hu, Ht, Hp in Hb. specialize (Hb eq_refl ltac:(by split) ltac:(by split) (ex_intro _ _ eq_refl)).
  destruct (request _ _ _) as [[res cd'] xc]. destruct Hb as (_ & _ & Hf). by apply Hf.
Defined.
End Flows.
