(* ===== verification/Clients.v ===== *)
(** * Clients of other systems

    [NotificationClient] of paylink-service ([app/notifications/client.py]) with what the service posts on a
    transition, answered by the intake route of notification-service; the HTTP exchange-rate provider
    and the rate cache of fee-pricing-service ([app/fx/http.py], [_encode] and [_decode] of
    [domain/fx_service.py]); and the OAuth providers of identity-service ([security/oauth/real.py]).

    The transport and authlib are parameters: what a call answers or raises. *)
From S2P Require Import Prelude PyText PyDecimal PyJson PyNum UnitOfWork Relational Tables Fingerprint Idempotency Chain PayLink Pricing IdentityDb Sessions Pydantic IdentityApi Templating Delivery Notify Settings.
From Stdlib Require Import Ascii.

Module Clients.
Import PyNum.
Open Scope Z_scope.

(** What a call of the HTTP client comes to: an [httpx.HTTPError], another exception, or an answer
    with its body ([None] when it is no JSON). *)
Inductive call_result := HttpError | OtherError (e : pyerr) | Answered (code : Z) (body : option json).

(** [s.rstrip("/")] *)
Fixpoint drop_slashes (l : list ascii) : list ascii :=
  match l with c :: l' => if bool_decide (c = "/"%char) then drop_slashes l' else l | [] => [] end.

Definition rstrip_slash (s : string) : string := text (reverse (drop_slashes (reverse (chars s)))).

(** ** notifications/client.py *)

(** [{**data, k: v}] *)
Fixpoint with_member (k : string) (v : json) (data : list (string * json)) : list (string * json) :=
  match data with
  | [] => [(k, v)]
  | (k', v') :: rest => if bool_decide (k' = k) then (k, v) :: rest else (k', v') :: with_member k v rest
  end.

Definition opt_member (k : string) (v : option string) : list (string * json) :=
  match v with Some s => [(k, JStr s)] | None => [] end.

Record post := mkPost { p_url : string; p_body : list (string * json); p_headers : list (string * string) }.

Definition notify_payload (event_kind addr : string) (data : list (string * json)) (dedupe_id : string) (title body href : option string) :
    list (string * json) :=
  [("event_kind", JStr event_kind); ("recipient_addr", JStr addr); ("data", JObj (with_member "dedupe_id" (JStr dedupe_id) data))] ++
  opt_member "title" title ++ opt_member "body" body ++ opt_member "href" href.

Definition notify_post (base_url : string) (internal_token : option string) (payload : list (string * json)) : post :=
  mkPost (rstrip_slash base_url +:+ "/v1/notifications") payload
    ([("Content-Type", "application/json")] ++
     match internal_token with Some t => if truthy t then [("X-Internal-Token", t)] else [] | None => [] end).

(** [NotificationClient.notify]: an answer of 300 or more is logged. *)
Definition notify (http : post → call_result) (p : post) : outcome pyerr unit :=
  match http p with
  | HttpError => Ok tt
  | OtherError e => Raise e
  | Answered _ _ => Ok tt
  end.

(** [PayLinkService._emit_notification] *)
Definition emit_payload (event_kind : string) (row : PayLink.PayLinkRow) : list (string * json) :=
  notify_payload event_kind (PayLink.creator_addr row)
    [("pl_id", JStr (PayLink.pl_id row)); ("amount", JInt (PayLink.amount row)); ("currency", JStr (PayLink.currency row))]
    (PayLink.pl_id row +:+ ":" +:+ event_kind) None None (Some "/dashboard/paylinks").

Definition emit (base_url : string) (internal_token : option string) (http : post → call_result) (event_kind : string) (row : PayLink.PayLinkRow) :
    outcome pyerr unit :=
  match notify http (notify_post base_url internal_token (emit_payload event_kind row)) with
  | Ok _ => Ok tt
  | Raise _ => Ok tt
  end.

(** *** The intake route of notification-service on a posted body *)

(** [NotificationIntakeRequest] *)
Definition parse_contact (v : option json) : Pydantic.parsed (option (option string * option string * option string)) :=
  match v with
  | None | Some JNull => Ok None
  | Some (JObj o) =>
      let? phone := Pydantic.opt_str "phone" o in
      let? mail := Pydantic.opt_str "email" o in
      let? loc := Pydantic.opt_str "locale" o in
      Ok (Some (phone, mail, loc))
  | Some _ => Raise ValidationError
  end.

Definition parse_intake (b : json) : Pydantic.parsed Notify.IntakeRequest :=
  let? o := Pydantic.model b in
  let? k := Pydantic.req_str "event_kind" o in
  let? u := Pydantic.opt_str "user_id" o in
  let? a := Pydantic.opt_str "recipient_addr" o in
  let? l := Pydantic.opt_str "locale" o in
  let? d := match Pydantic.field "data" o with None => Ok [] | Some (JObj d) => Ok d | Some _ => Raise ValidationError end in
  let? c := parse_contact (Pydantic.field "contact" o) in
  let? t := Pydantic.opt_str "title" o in
  let? bd := Pydantic.opt_str "body" o in
  let? h := Pydantic.opt_str "href" o in
  Ok (Notify.mkIntakeReq k u a l d c t bd h).

(** [X-Internal-Token] as the gate reads it. *)
Definition header (k : string) (hs : list (string * string)) : option string := snd <$> head (filter (λ kv, kv.1 = k) hs).

Section serve_post.
Context {R : Type} `{!RedisLike R}.
Variables (sha256_hex : string → string) (resolve : uuid → option Notify.contact → Notify.Recipient) (broker : uuid → bool) (service : string) (ttl : Z).
Variable secret : option string.

(** The status of an exception, by the handlers of [errors.py]. *)
Definition error_status (e : exn Notify.ErrorCode) : Z :=
  match e with AppError c => Notify._HTTP_STATUS c | PyError _ => Notify._HTTP_STATUS Notify.INTERNAL_ERROR end.

(** [POST /v1/notifications] without an Idempotency-Key, no other session in between: the status. *)
Definition serve_post (c : Idem.clock) (now : Z) (f : Notify.fresh) (p : post) (rs : R) (s : Notify.ndb * Notify.nworld) : Z * (Notify.ndb * Notify.nworld) :=
  let token := header "X-Internal-Token" (p_headers p) in
  match request (Notify.internal_gate secret token) s.1 s.2 with
  | (Raise e, _, _) => (error_status e, s)
  | (Ok _, _, _) =>
      match parse_intake (JObj (p_body p)) with
      | Raise _ => (Notify._HTTP_STATUS Notify.INVALID_PAYLOAD, s)
      | Ok q =>
          match Notify.intake_route sha256_hex resolve Notify.alone broker service ttl c now f secret token None q rs s with
          | (Ok (st, _), _, s') => (st, s')
          | (Raise (Idem.Action e), _, s') => (error_status e, s')
          | (Raise _, _, s') => (Notify._HTTP_STATUS Notify.INTERNAL_ERROR, s')
          end
      end
  end.
End serve_post.

(** *** A transition reaches the inbox of the creator *)

Definition emit_data (event_kind : string) (row : PayLink.PayLinkRow) : list (string * json) :=
  [("pl_id", JStr (PayLink.pl_id row)); ("amount", JInt (PayLink.amount row)); ("currency", JStr (PayLink.currency row));
   ("dedupe_id", JStr (PayLink.pl_id row +:+ ":" +:+ event_kind))].

Definition emit_intake (event_kind : string) (row : PayLink.PayLinkRow) : Notify.Intake :=
  Notify.mkIntake (JObj (emit_data event_kind row)) None (Some (PayLink.creator_addr row)) None None None None (Some "/dashboard/paylinks").

Lemma parse_emitted event_kind row :
  parse_intake (JObj (emit_payload event_kind row)) =
  Ok (Notify.mkIntakeReq event_kind None (Some (PayLink.creator_addr row)) None (emit_data event_kind row) None None None (Some "/dashboard/paylinks")).
Proof. reflexivity. Qed.

Lemma emitted_handled sha256_hex resolve broker now f event_kind row d x :
  event_kind ∈ ["paylink.created"; "paylink.verified"; "paylink.cancelled"] → truthy (PayLink.creator_addr row) = true →
  request (Notify.handle sha256_hex resolve Notify.alone broker now f event_kind
    (Notify.event_of (Notify.mkIntakeReq event_kind None (Some (PayLink.creator_addr row)) None (emit_data event_kind row) None None None (Some "/dashboard/paylinks")))) d x =
  request (Notify.intake sha256_hex resolve Notify.alone broker now f event_kind (emit_intake event_kind row)) d x.
Proof.
  intros Hk Ht. unfold Notify.handle. rewrite bool_decide_eq_true_2 by (unfold Notify.KNOWN_EVENTS; set_solver). cbn [negb].
  unfold Notify.event_of. cbn [Notify.q_user_id Notify.q_recipient_addr Notify.q_data Notify.q_locale Notify.q_contact Notify.q_title Notify.q_body Notify.q_href
    Notify.e_user_id Notify.e_recipient_addr Notify.e_data Notify.e_locale Notify.e_contact Notify.e_title Notify.e_body Notify.e_href Notify.ostr jtruthy fmap option_fmap option_map].
  rewrite Ht. rewrite bool_decide_eq_false_2 by naive_solver. reflexivity.
Qed.

Section inbox.
Context {R : Type} `{!RedisLike R}.
Variables (sha256_hex : string → string) (resolve : uuid → option Notify.contact → Notify.Recipient) (broker : uuid → bool) (service : string) (ttl : Z).
Variables (base_url : string) (secret token : option string).
Hypothesis Htoken : secret = None ∨ (secret = token ∧ ∃ t, token = Some t ∧ truthy t = true).

Variables (event_kind : string) (row : PayLink.PayLinkRow).
Hypothesis Hkind : event_kind ∈ ["paylink.created"; "paylink.verified"; "paylink.cancelled"].
Hypothesis Hcreator : truthy (PayLink.creator_addr row) = true.

Definition inbox_mark : string := Notify.inbox_key sha256_hex event_kind (PayLink.creator_addr row) (emit_data event_kind row).

Definition wants_inbox (d : Notify.ndb) : bool := Notify.allows (Notify.effective (emit_intake event_kind row) d) event_kind "in_app".

Lemma gate_passes : Notify.internal_gate secret (header "X-Internal-Token" (p_headers (notify_post base_url token (emit_payload event_kind row)))) = mret tt.
Proof.
  destruct Htoken as [->|(-> & t & -> & Ht)]; [done|]. unfold notify_post, p_headers. rewrite Ht.
  change (header _ _) with (Some t). unfold Notify.internal_gate. simpl. by rewrite Ht, bool_decide_eq_true_2.
Qed.

Lemma served_is_intake c now f rs d x :
  serve_post sha256_hex resolve broker service ttl secret c now f (notify_post base_url token (emit_payload event_kind row)) rs (d, x) =
  match request (Notify.intake sha256_hex resolve Notify.alone broker now f event_kind (emit_intake event_kind row)) d x with
  | (Ok _, d', x') => (201, (d', x'))
  | (Raise e, d', x') => (error_status e, (d', x'))
  end.
Proof.
  unfold serve_post, Notify.intake_route. cbv zeta. rewrite gate_passes. cbn [fst snd]. change (request (mret tt) d x) with (Ok tt : outcome (exn Notify.ErrorCode) unit, d, x).
  cbv beta iota. change (p_body (notify_post base_url token (emit_payload event_kind row))) with (emit_payload event_kind row). rewrite parse_emitted.
  unfold Idem.idempotent_route, action_of. cbn [fst snd Notify.q_event_kind].
  rewrite (emitted_handled sha256_hex resolve broker now f event_kind row d x Hkind Hcreator).
  by destruct (request _ d x) as [[[ids|e] d'] x'].
Qed.

Lemma emitted_intake now f d x : Notify.keys_ok d → Notify.inbox d !! Notify.f_inbox f = None →
  ∃ ids d', request (Notify.intake sha256_hex resolve Notify.alone broker now f event_kind (emit_intake event_kind row)) d x = (Ok ids, d', x) ∧
    Notify.deliveries d' = Notify.deliveries d ∧
    (wants_inbox d = false → d' = d) ∧
    (wants_inbox d = true → ∃ i r, Notify.inbox d' !! i = Some r ∧ Notify.dedupe_key r = inbox_mark ∧
       (d' = d ∨ (Notify.recipient_addr r = lower (PayLink.creator_addr row) ∧ Notify.read r = false ∧ i = Notify.f_inbox f ∧
                  (∀ j r', Notify.inbox d !! j = Some r' → Notify.dedupe_key r' ≠ inbox_mark) ∧ Notify.inbox d' = <[i := r]> (Notify.inbox d)))).
Proof.
  intros Hk Hf. unfold request, Notify.intake, mbind at 1, handler_bind at 1, query. cbn [tx].
  change (Notify.in_user (emit_intake event_kind row)) with (None : option uuid).
  unfold Notify.inbox_part. change (Notify.in_addr (emit_intake event_kind row)) with (Some (PayLink.creator_addr row)).
  cbv iota beta. rewrite Hcreator. fold (wants_inbox d). destruct (wants_inbox d) eqn:Ew; cbn [andb].
  - unfold mbind, handler_bind, Notify._write_inbox, lift, Notify.dict_of, emit_intake. cbn [Notify.in_data Notify.in_title Notify.in_body Notify.in_href].
    destruct (Notify._inbox_presentation event_kind (emit_data event_kind row)) as [[k dt] db'] eqn:Ep.
    unfold mbind, handler_bind, Notify.insert_inbox, query. cbn [tx Notify.dedupe_key]. fold inbox_mark.
    unfold emit_data in *. rewrite Ep. cbv beta iota zeta. unfold mbind, handler_bind. cbv beta iota zeta. cbn [tx Notify.dedupe_key]. rewrite Hf. destruct (Notify.find_inbox_by_dedupe inbox_mark d) as [[i r]|] eqn:Efind.
    + rewrite (bool_decide_eq_true_2 (is_Some (Some (i, r)))) by by eexists. rewrite orb_true_r. unfold mret, handler_ret. cbv beta iota zeta. cbn [tx]. rewrite ?Efind.
      eexists _, _. split; [reflexivity|]. simpl. split; [done|]. split; [done|]. intros _. apply Notify.find_by_some in Efind as [Hi Hkey].
      exists i, r. split_and!; [done|done|by left].
    + rewrite !bool_decide_eq_false_2 by (by intros [? [=]]). cbn [orb]. eexists _, _. split; [reflexivity|]. simpl. split; [done|]. split; [done|].
      intros _. eexists (Notify.f_inbox f), _. rewrite lookup_insert_eq. split_and!; [reflexivity|done|]. right. split_and!; try done.
      intros j r' Hj. exact (Notify.find_by_none _ _ j r' Efind Hj).
  - eexists _, _. split; [reflexivity|]. simpl. by split_and!.
Qed.
End inbox.

(** C14: a transition reaches the creator's inbox once.  Whatever the notification client meets (no answer, an error
    status, another exception), the transition is not affected; and with notification-service answering, the
    posted notification is accepted, sends no message, and leaves exactly one notification of that PayLink and event
    in the inbox of the creator, unless the creator switched it off, in which case nothing changes; posting it again,
    as a retried operation does, changes nothing. *)
Theorem transition_notified_once {R} `{!RedisLike R} (sha256_hex : string → string) (resolve : uuid → option Notify.contact → Notify.Recipient)
    (broker : uuid → bool) (service base_url : string) (ttl : Z) (secret token : option string) (event_kind : string) (row : PayLink.PayLinkRow)
    (c c' : Idem.clock) (now now' : Z) (f f' : Notify.fresh) (rs : R) (d : Notify.ndb) (x : Notify.nworld)
    (Htoken : secret = None ∨ (secret = token ∧ ∃ t, token = Some t ∧ truthy t = true))
    (Hkind : event_kind ∈ ["paylink.created"; "paylink.verified"; "paylink.cancelled"]) (Hcreator : truthy (PayLink.creator_addr row) = true)
    (Hkeys : Notify.keys_ok d) (Hfresh : Notify.fresh_in f d) :
  let p := notify_post base_url token (emit_payload event_kind row) in
  let key := inbox_mark sha256_hex event_kind row in
  (∀ http, emit base_url token http event_kind row = Ok tt) ∧
  let '(st, (d', x')) := serve_post sha256_hex resolve broker service ttl secret c now f p rs (d, x) in
  st = 201 ∧ x' = x ∧ Notify.deliveries d' = Notify.deliveries d ∧
  (wants_inbox event_kind row d = false → d' = d) ∧
  (wants_inbox event_kind row d = true →
     ∃ i r, Notify.inbox d' !! i = Some r ∧ Notify.dedupe_key r = key ∧ (∀ j r', Notify.inbox d' !! j = Some r' → Notify.dedupe_key r' = key → j = i) ∧
       (d' = d ∨ Notify.recipient_addr r = lower (PayLink.creator_addr row) ∧ Notify.read r = false ∧ Notify.inbox d' = <[i := r]> (Notify.inbox d))) ∧
  serve_post sha256_hex resolve broker service ttl secret c' now' f' p rs (d', x') = (201, (d', x')).
Proof.
  intros p key. split; [intros http; unfold emit; by destruct (notify _ _)|].
  unfold p. rewrite (served_is_intake sha256_hex resolve broker service ttl base_url secret token Htoken event_kind row Hkind Hcreator).
  destruct (emitted_intake sha256_hex resolve broker event_kind row Hcreator now f d x Hkeys (proj1 Hfresh)) as (ids & d' & Hrun & Hdel & Hoff & Hon).
  rewrite Hrun. split_and!; try done.
  - intros Hw. destruct (Hon Hw) as (i & r & Hi & Hkey & Hnew). exists i, r. split_and!; [done|done| |].
    + intros j r' Hj Hk'. destruct Hnew as [->|(_ & _ & _ & Hno & Hins)]; [by apply (proj2 Hkeys j i r' r Hj Hi); rewrite Hk'; unfold key; congruence|].
      rewrite Hins in Hj. destruct (decide (j = i)) as [|Hne]; [done|]. rewrite lookup_insert_ne in Hj by done. by destruct (Hno j r' Hj).
    + destruct Hnew as [?|(? & ? & _ & _ & ?)]; [by left|by right].
  - rewrite (served_is_intake sha256_hex resolve broker service ttl base_url secret token Htoken event_kind row Hkind Hcreator).
    by rewrite (Notify.redelivered_intake_noop sha256_hex resolve broker broker now now' f f' event_kind (emit_intake event_kind row) d d' x x ids Hkeys Hfresh Hrun).
Qed.

Definition demo_link : PayLink.PayLinkRow :=
  PayLink.mkRow "0xpl" "0xAb" "0xcd" "0xAb" 250 "KES" "VERIFIED" 900 "single" None None None 3 1 2 (Some 2).

Lemma transition_notified_once_witness :
  let p := notify_post "http://n/" (Some "s3") (emit_payload "paylink.verified" demo_link) in
  let serve f := serve_post id Notify.InlineRecipientResolver (λ _, true) "notification-service" 60 (Some "s3") (Idem.mkClock 1 1 1 1) 5 f p (∅ : gmap_redis) in
  p_url p = "http://n/v1/notifications" ∧ wants_inbox "paylink.verified" demo_link Notify.demo_ndb = true ∧
  let '(st, s') := serve (Notify.demo_fresh 10) (Notify.demo_ndb, Notify.mkNw []) in
  st = 201 ∧ size (Notify.inbox s'.1) = 1%nat ∧ serve (Notify.demo_fresh 20) s' = (201, s').
Proof.
  intros p serve. split; [reflexivity|]. split; [vm_compute; reflexivity|].
  pose proof (transition_notified_once id Notify.InlineRecipientResolver (λ _, true) "notification-service" "http://n/" 60 (Some "s3") (Some "s3")
    "paylink.verified" demo_link (Idem.mkClock 1 1 1 1) (Idem.mkClock 1 1 1 1) 5 5 (Notify.demo_fresh 10) (Notify.demo_fresh 20) (∅ : gmap_redis) Notify.demo_ndb (Notify.mkNw [])
    (or_intror (conj eq_refl (ex_intro _ "s3" (conj eq_refl eq_refl)))) ltac:(set_solver) ltac:(reflexivity) ltac:(by split) Notify.demo_fresh_ok) as [_ H].
  cbv zeta in H. fold p in H. unfold serve.
  destruct (serve_post id _ _ _ _ _ _ 5 (Notify.demo_fresh 10) p ∅ _) as [st [d' x']] eqn:E.
  destruct H as (Hst & _ & _ & _ & Hon & Hagain). split_and!; [done| |exact Hagain].
  clear Hon Hagain. vm_compute in E. injection E as <- <- <-. reflexivity.
Defined.

(** ** fx/http.py *)

(** [resp.raise_for_status()], then [Decimal(str(resp.json()["rate"]))]: the exceptions [get_rate]
    catches are no rate, the others escape. *)
Definition rate_member (j : json) : outcome pyerr num :=
  match j with
  | JObj o => match Chain.jfind "rate" o with
              | Some v => match parse_decimal (py_str v) with Some n => Ok n | None => Raise InvalidOperation end
              | None => Raise KeyError
              end
  | _ => Raise TypeError
  end.

Definition no_rate (e : pyerr) : bool := bool_decide (e ∈ [KeyError; ValueError; InvalidOperation]).

Definition http_rate (r : call_result) : outcome pyerr (option num) :=
  match r with
  | HttpError => Ok None
  | OtherError e => if no_rate e then Ok None else Raise e
  | Answered code body =>
      if (200 <=? code) && (code <? 300) then
        match body with
        | None => Ok None
        | Some j => match rate_member j with
                    | Ok n => Ok (Some n)
                    | Raise e => if no_rate e then Ok None else Raise e
                    end
        end
      else Ok None
  end.

(** [HttpFxProvider.get_rate]; the source names the host. *)
Definition http_get_rate (http : string → string → call_result) (source : string) (now : Z) (base0 quote0 : string) :
    outcome pyerr (option (string * string * num * string * Z)) :=
  let b := upper base0 in
  let q := upper quote0 in
  if bool_decide (b = q) then Ok (Some (b, q, Fin (dec_int 1), "identity", now))
  else let? n := http_rate (http b q) in Ok ((λ n, (b, q, n, source, now)) <$> n).

(** the live provider reports failures as no rate, but not all: a transport error, an error status, a body that is no
    JSON, or an object without a readable rate is no rate, so that the fallback applies; a JSON answer that is no object
    raises TypeError, out of the quote. *)
Theorem http_provider_failures (http : string → string → call_result) (source : string) (now : Z) (b q : string) (Hne : upper b ≠ upper q) :
  let answer := http (upper b) (upper q) in
  match answer with
  | HttpError | Answered _ None => http_get_rate http source now b q = Ok None
  | OtherError e => no_rate e = true → http_get_rate http source now b q = Ok None
  | Answered code (Some j) =>
      (¬ (200 ≤ code < 300) → http_get_rate http source now b q = Ok None) ∧
      (200 ≤ code < 300 → match j with
         | JObj o => ∃ r, http_get_rate http source now b q = Ok r
         | _ => http_get_rate http source now b q = Raise TypeError
         end)
  end.
Proof.
  intros answer. unfold http_get_rate. rewrite bool_decide_eq_false_2 by done. fold answer. destruct answer as [|e|code [j|]]; simpl; try done.
  - by intros ->.
  - split.
    + intros Hc. destruct (Z.leb_spec 200 code), (Z.ltb_spec code 300); simpl; try done. lia.
    + intros Hc. rewrite (proj2 (Z.leb_le 200 code)), (proj2 (Z.ltb_lt code 300)) by lia. simpl. destruct j as [| | | | |o]; try done.
      simpl. destruct (Chain.jfind "rate" o) as [v|]; [|by eexists]. destruct (parse_decimal _) as [m|]; by eexists.
  - by destruct (_ && _).
Qed.

(** ** The rate cache of domain/fx_service.py *)

Section rate_cache.
(** [str] of a decimal, and [isoformat] and [fromisoformat]; the cached text is its JSON value, nothing
    when [json.loads] refuses it. *)
Variables (dec_str : dec → string) (iso : Z → string) (from_iso : string → option Z).

Definition _encode (r : Pricing.Rate) : json :=
  JObj [("base", JStr (Pricing.base r)); ("quote", JStr (Pricing.quote_ccy r)); ("rate", JStr (dec_str (Pricing.rate r)));
    ("source", JStr (Pricing.source r)); ("fetched_at", JStr (iso (Pricing.fetched_at r)))].

Definition member (k : string) (o : list (string * json)) : outcome pyerr json :=
  match Chain.jfind k o with Some v => Ok v | None => Raise KeyError end.

(** A member that is no text, or a rate that is no finite number, is no [Rate] of the model and is
    answered as a TypeError: [_encode] writes none. *)
Definition text_member (k : string) (o : list (string * json)) : outcome pyerr string :=
  let? v := member k o in match v with JStr s => Ok s | _ => Raise TypeError end.

Definition _decode (raw : option json) : outcome pyerr Pricing.Rate :=
  match raw with
  | None => Raise ValueError
  | Some (JObj o) =>
      let? b := text_member "base" o in
      let? q := text_member "quote" o in
      let? v := member "rate" o in
      let? n := match parse_decimal (py_str v) with Some (Fin d) => Ok d | Some _ => Raise TypeError | None => Raise InvalidOperation end in
      let? s := text_member "source" o in
      let? t := text_member "fetched_at" o in
      let? z := match from_iso t with Some z => Ok z | None => Raise ValueError end in
      Ok (Pricing.mkRate b q n s z)
  | Some _ => Raise TypeError
  end.

(** What [rate_for] makes of the cached text: [ValueError] and [KeyError] are a miss. *)
Definition cached_rate (raw : option (option json)) : outcome pyerr (option Pricing.Rate) :=
  match raw with
  | None => Ok None
  | Some raw => match _decode raw with
                | Ok r => Ok (Some r)
                | Raise e => if bool_decide (e ∈ [ValueError; KeyError]) then Ok None else Raise e
                end
  end.

(** a cached rate is the rate that was cached, and a text that is no JSON is a miss. *)
Theorem rate_cache_round_trip (r : Pricing.Rate)
    (Hdec : parse_decimal (dec_str (Pricing.rate r)) = Some (Fin (Pricing.rate r)))
    (Hiso : from_iso (iso (Pricing.fetched_at r)) = Some (Pricing.fetched_at r)) :
  cached_rate (Some (Some (_encode r))) = Ok (Some r) ∧ cached_rate (Some None) = Ok None.
Proof.
  split; [|done]. unfold cached_rate, _decode, _encode. destruct r as [b q v src t]. cbn [Pricing.base Pricing.quote_ccy Pricing.rate Pricing.source Pricing.fetched_at] in *.
  set (o := [("base", _); _; _; _; _]).
  assert (Hm : text_member "base" o = Ok b ∧ text_member "quote" o = Ok q ∧ member "rate" o = Ok (JStr (dec_str v)) ∧
    text_member "source" o = Ok src ∧ text_member "fetched_at" o = Ok (iso t)) by by split_and!.
  destruct Hm as (-> & -> & -> & -> & ->). cbn -[parse_decimal]. rewrite Hdec. cbn. by rewrite Hiso.
Qed.
End rate_cache.

(** ** security/oauth/real.py *)

Record _Endpoints := mkEndpoints { e_authorize : string; e_token : string; e_userinfo : string; e_scope : string }.

Definition _ENDPOINTS : list (string * _Endpoints) :=
  [("google", mkEndpoints "https://accounts.google.com/o/oauth2/v2/auth" "https://oauth2.googleapis.com/token"
      "https://openidconnect.googleapis.com/v1/userinfo" "openid email");
   ("github", mkEndpoints "https://github.com/login/oauth/authorize" "https://github.com/login/oauth/access_token"
      "https://api.github.com/user" "read:user user:email");
   ("apple", mkEndpoints "https://appleid.apple.com/auth/authorize" "https://appleid.apple.com/auth/token" "" "name email")].

(** The arguments of [AsyncOAuth2Client]. *)
Record oauth_client := mkClient { cl_id : string; cl_secret : string; cl_redirect : string; cl_scope : string }.

Section real_provider.
(** authlib and PyJWT: the authorization URL, the token of a code, a call with that token, and the claims of an
    [id_token] without looking at its signature; nothing when they raise. *)
Variables (create_authorization_url : oauth_client → string → string → string * string)
  (fetch_token : oauth_client → string → string → string → option (list (string * json)))
  (get : oauth_client → list (string * json) → string → call_result)
  (decode_unverified : json → option (list (string * json))).

Definition _client (c : Settings.OAuthProviderConfig) (e : _Endpoints) (redirect_uri : option string) : oauth_client :=
  mkClient (Settings.client_id c) (Settings.client_secret c) (str_or redirect_uri (Settings.redirect_uri c)) (e_scope e).

(** The address as the providers send it: a text, or nothing. *)
Definition mail_of (o : list (string * json)) : option string :=
  match Notify.dget "email" o with JStr s => Some s | _ => None end.

(** [str(info.get("sub") or info.get("id"))] *)
Definition subject_of (info : list (string * json)) : string := py_str (Notify.j_or (Notify.dget "sub" info) (Notify.dget "id" info)).

Definition userinfo (r : call_result) : option (list (string * json)) :=
  match r with
  | Answered code (Some (JObj info)) => if (200 <=? code) && (code <? 300) then Some info else None
  | _ => None
  end.

Definition real_exchange (c : Settings.OAuthProviderConfig) (e : _Endpoints) (code state : string) (redirect_uri : option string) :
    option Sessions.OAuthIdentity :=
  let client := _client c e redirect_uri in
  token ← fetch_token client (e_token e) code state;
  if truthy (e_userinfo e) then
    info ← userinfo (get client token (e_userinfo e));
    Some (Sessions.mkOAuth (Settings.provider c) (subject_of info) (mail_of info))
  else
    id_token ← Chain.jfind "id_token" token;
    claims ← decode_unverified id_token;
    sub ← Chain.jfind "sub" claims;
    Some (Sessions.mkOAuth (Settings.provider c) (py_str sub) (mail_of claims)).

(** [None] for the [OAuthError] of an unknown provider. *)
Definition AuthlibOAuthProvider (c : Settings.OAuthProviderConfig) : option IdentityApi.OAuthProvider :=
  e ← snd <$> head (filter (λ ke, ke.1 = Settings.provider c) _ENDPOINTS);
  Some (IdentityApi.mkProvider
    (λ state redirect_uri, let '(url, st) := create_authorization_url (_client c e redirect_uri) (e_authorize e) state in IdentityApi.mkAuthorize url st)
    (real_exchange c e)).

(** [build_oauth_resolver] on the settings. *)
Definition oauth_providers (sha256_hex : string → string) (s : Settings.settings) : string → option IdentityApi.OAuthProvider :=
  IdentityApi.build_oauth_resolver sha256_hex (match Settings.get "oauth_fake" s with Some (Settings.VBool b) => b | _ => false end)
    (λ p, c ← Settings.oauth_provider_config s p; AuthlibOAuthProvider c).

(** Neither member, or only falsy ones. *)
Definition no_subject (info : list (string * json)) : Prop :=
  jtruthy (Notify.dget "sub" info) = false ∧ Notify.dget "id" info = JNull.

Lemma exchanged c e code state redirect_uri token info : truthy (e_userinfo e) = true →
  fetch_token (_client c e redirect_uri) (e_token e) code state = Some token →
  userinfo (get (_client c e redirect_uri) token (e_userinfo e)) = Some info →
  real_exchange c e code state redirect_uri = Some (Sessions.mkOAuth (Settings.provider c) (subject_of info) (mail_of info)).
Proof. intros Hu Ht Hi. unfold real_exchange. by rewrite Ht; simpl; rewrite Hu, Hi. Qed.
End real_provider.

Lemma no_subject_text info : no_subject info → subject_of info = "None".
Proof. intros [Hs Hi]. unfold subject_of, Notify.j_or. by rewrite Hs, Hi. Qed.

(** *** Accounts of the identities *)

Lemma linked_account u ident user l (w : uow Identity.iddb Identity.idworld) :
  Identity.oauth (tx w) !! (Sessions.o_provider ident, Sessions.o_subject ident) = Some l → Identity.users (tx w) !! l = Some user →
  Sessions.resolve_account uuid_text u ident w = (Ok (user, false), w).
Proof. intros Hl Hu. unfold Sessions.resolve_account, mbind, handler_bind, query. cbv beta iota. rewrite Hl. cbv beta iota. by rewrite Hu. Qed.

Lemma resolved_is_linked u ident user b (w w' : uow Identity.iddb Identity.idworld) :
  Sessions.resolve_account uuid_text u ident w = (Ok (user, b), w') →
  ∃ l, Identity.oauth (tx w') !! (Sessions.o_provider ident, Sessions.o_subject ident) = Some l ∧ Identity.users (tx w') !! l = Some user.
Proof.
  unfold Sessions.resolve_account, mbind, handler_bind, query. cbv beta iota zeta.
  destruct (Identity.oauth (tx w) !! _) as [l|] eqn:El; cbv beta iota zeta.
  - destruct (Identity.users (tx w) !! l) as [x|] eqn:Eu; intros [=]; subst. by exists l.
  - unfold try_write, write, Identity.insert_user, Identity.insert_oauth_identity.
    destruct (_ || _ || _); [done|]. cbv beta iota zeta. cbn [tx Identity.user_id].
    destruct (_ || _); [done|]. intros [= <- <- <-]. exists u. cbn. by rewrite !lookup_insert_eq.
Qed.

(** once an identity is resolved to an account, it is that account at every later login, whatever address the provider
    sends. *)
Theorem oauth_identity_stable u u' ident ident' user b (w w' : uow Identity.iddb Identity.idworld)
    (Hsame : Sessions.o_provider ident' = Sessions.o_provider ident ∧ Sessions.o_subject ident' = Sessions.o_subject ident)
    (Hfirst : Sessions.resolve_account uuid_text u ident w = (Ok (user, b), w')) :
  Sessions.resolve_account uuid_text u' ident' w' = (Ok (user, false), w').
Proof.
  destruct (resolved_is_linked _ _ _ _ _ _ Hfirst) as (l & Hl & Hu). destruct Hsame as [Hp Hs]. apply (linked_account _ _ _ l); [by rewrite Hp, Hs|done].
Qed.

(** a userinfo answer without a subject signs in as whoever came first: the subject of such an answer is the text None,
    so two people whose answers lack both members get one account. *)
Theorem missing_subject_shares_account fetch_token get decode_unverified c e code code' state state' redirect redirect' token token' info info' ident ident' u u' user b
    (w w' : uow Identity.iddb Identity.idworld) (Huserinfo : truthy (e_userinfo e) = true)
    (Htoken : fetch_token (_client c e redirect) (e_token e) code state = Some token)
    (Htoken' : fetch_token (_client c e redirect') (e_token e) code' state' = Some token')
    (Hinfo : userinfo (get (_client c e redirect) token (e_userinfo e)) = Some info)
    (Hinfo' : userinfo (get (_client c e redirect') token' (e_userinfo e)) = Some info')
    (Hno : no_subject info) (Hno' : no_subject info')
    (Hfirst : Sessions.resolve_account uuid_text u ident w = (Ok (user, b), w')) :
  real_exchange fetch_token get decode_unverified c e code state redirect = Some ident →
  real_exchange fetch_token get decode_unverified c e code' state' redirect' = Some ident' →
  Sessions.resolve_account uuid_text u' ident' w' = (Ok (user, false), w').
Proof.
  rewrite (exchanged fetch_token get decode_unverified c e code state redirect token info Huserinfo Htoken Hinfo).
  rewrite (exchanged fetch_token get decode_unverified c e code' state' redirect' token' info' Huserinfo Htoken' Hinfo').
  rewrite !no_subject_text by done. intros [= <-] [= <-]. exact (oauth_identity_stable u u' (Sessions.mkOAuth (Settings.provider c) "None" (mail_of info)) (Sessions.mkOAuth (Settings.provider c) "None" (mail_of info')) user b w w' (conj eq_refl eq_refl) Hfirst).
Qed.
End Clients.
