(* ===== verification/Tracing.v ===== *)
(** * Traces and log lines

    [init_telemetry] of [telemetry-python/src/linkmint_telemetry/provider.py]: whether spans are exported, where to and
    how often, by the environment; and the log pipeline of the services ([configure_logging] of their
    [app/logging.py]) under the correlation id of [Http.v].

    The OpenTelemetry objects, the clock and the JSON text of a line are left out: [init_telemetry] is the
    arguments the objects are built from, a line the dictionary that is rendered. *)
From S2P Require Import Prelude PyText PyDecimal PyNum Tables Chain Http Settings Clients.
From Stdlib Require Import Ascii.

Module Tracing.
Import PyNum.
Open Scope Z_scope.

(** ** provider.py *)

(** [os.getenv]: the names are taken as they are, unlike those of the settings. *)
Definition getenv (k : string) (e : Settings.environment) : option string := snd <$> head (filter (λ kv, kv.1 = k) e).

Definition _truthy (v : option string) : bool := bool_decide (lower (strip (default "" v)) ∈ ["1"; "true"; "yes"; "on"]).

(** [s[len(p):]] when [s.startswith(p)] *)
Fixpoint cut_prefix (p s : list ascii) : option (list ascii) :=
  match p, s with
  | [], _ => Some s
  | c :: p', c' :: s' => if bool_decide (c = c') then cut_prefix p' s' else None
  | _ :: _, [] => None
  end.

(** (host:port, insecure) *)
Definition _grpc_target (endpoint : string) : string * bool :=
  match cut_prefix (chars "http://") (chars endpoint) with
  | Some r => (Clients.rstrip_slash (text r), true)
  | None => match cut_prefix (chars "https://") (chars endpoint) with
            | Some r => (Clients.rstrip_slash (text r), false)
            | None => (Clients.rstrip_slash endpoint, true)
            end
  end.

Definition dec_leb (a b : dec) : bool := match dec_compare a b with Gt => false | _ => true end.

Section init.
(** [float]: nothing for a [ValueError]. *)
Variable py_float : string → option num.

Definition _ratio (e : Settings.environment) : dec :=
  let raw := strip (default "" (getenv "OTEL_TRACES_SAMPLER_ARG" e)) in
  if truthy raw then
    match py_float raw with
    | Some (Fin v) => if dec_leb (dec_int 0) v && dec_leb v (dec_int 1) then v else dec_int 1
    | _ => dec_int 1
    end
  else dec_int 1.

(** No provider, or one with its resource, the ratio of its sampler, and its exporter. *)
Inductive tracing := Noop | Exporting (name version deployment : string) (ratio : dec) (target : string) (insecure : bool).

Definition init_telemetry (e : Settings.environment) (service_name version : string) : tracing :=
  if _truthy (getenv "OTEL_SDK_DISABLED" e) then Noop
  else
    let endpoint := strip (default "" (getenv "OTEL_EXPORTER_OTLP_ENDPOINT" e)) in
    if truthy endpoint then
      let '(target, insecure) := _grpc_target endpoint in
      Exporting (strip (str_or (getenv "OTEL_SERVICE_NAME" e) service_name)) version (default "local" (getenv "DEPLOY_ENV" e)) (_ratio e) target insecure
    else Noop.
End init.

(** ** app/logging.py *)

(** [d.setdefault(k, v)] *)
Definition setdefault (k : string) (v : json) (d : list (string * json)) : list (string * json) :=
  if bool_decide (is_Some (Chain.jfind k d)) then d else d ++ [(k, v)].

Definition pop (k : string) (d : list (string * json)) : list (string * json) := filter (λ kv, kv.1 ≠ k) d.

(** The level of a name of [logging]; [INFO] for another name. *)
Definition level_no (level : string) : Z :=
  match (list_to_map [("CRITICAL", 50); ("FATAL", 50); ("ERROR", 40); ("WARNING", 30); ("WARN", 30); ("INFO", 20); ("DEBUG", 10); ("NOTSET", 0)] : gmap string Z)
    !! upper level with Some n => n | None => 20 end.

Inductive log_method := Debug | Info | Warning | Error | Critical.

Definition method_no (m : log_method) : Z := match m with Debug => 10 | Info => 20 | Warning => 30 | Error => 40 | Critical => 50 end.
Definition method_name (m : log_method) : string :=
  match m with Debug => "debug" | Info => "info" | Warning => "warning" | Error => "error" | Critical => "critical" end.

Definition _add_service (service_name : string) : list (string * json) → list (string * json) := setdefault "service" (JStr service_name).

Definition _add_trace_id (tid : string) (d : list (string * json)) : list (string * json) :=
  if truthy tid then Clients.with_member "trace_id" (JStr tid) d else d.

(** [StackInfoRenderer] and [format_exc_info]; the texts are arguments. *)
Definition rendered (k as_key text : string) (d : list (string * json)) : list (string * json) :=
  match Chain.jfind k d with
  | None => d
  | Some v => if jtruthy v then Clients.with_member as_key (JStr text) (pop k d) else pop k d
  end.

(** One call of a logger, the processors in order: the line, or nothing below the level. No context is bound to
    structlog in the services, so that [merge_contextvars] adds nothing. *)
Definition log_line (level service_name tid now stack exception : string) (m : log_method) (event : string) (kw : list (string * json)) :
    option (list (string * json)) :=
  if method_no m <? level_no level then None
  else Some (rendered "exc_info" "exception" exception
        (rendered "stack_info" "stack" stack
          (Clients.with_member "timestamp" (JStr now)
            (_add_trace_id tid
              (_add_service service_name
                (Clients.with_member "level" (JStr (method_name m)) (kw ++ [("event", JStr event)]))))))).

(** ** Properties *)

Lemma find_with_member k k' v d : Chain.jfind k (Clients.with_member k' v d) = if bool_decide (k' = k) then Some v else Chain.jfind k d.
Proof.
  induction d as [|[a w] d IH]; simpl; [done|]. destruct (decide (a = k')) as [->|Ha].
  - rewrite bool_decide_eq_true_2 by done. simpl. by destruct (bool_decide (k' = k)).
  - rewrite bool_decide_eq_false_2 by done. simpl. destruct (decide (a = k)) as [->|Hk].
    + rewrite bool_decide_eq_true_2 by done. by rewrite bool_decide_eq_false_2.
    + by rewrite bool_decide_eq_false_2.
Qed.

Lemma find_pop k k' d : k' ≠ k → Chain.jfind k (pop k' d) = Chain.jfind k d.
Proof.
  intros Hne. unfold pop. induction d as [|[a w] d IH]; simpl; [done|]. rewrite filter_cons. destruct (decide (a = k')) as [->|Ha].
  - rewrite decide_False by (simpl; tauto). by rewrite bool_decide_eq_false_2.
  - rewrite decide_True by done. simpl. by rewrite IH.
Qed.

Lemma find_rendered k k' k'' v d : k' ≠ k → k'' ≠ k → Chain.jfind k (rendered k' k'' v d) = Chain.jfind k d.
Proof.
  intros H1 H2. unfold rendered. destruct (Chain.jfind k' d) as [w|]; [|done].
  destruct (jtruthy w); [|by apply find_pop]. rewrite find_with_member, bool_decide_eq_false_2 by done. by apply find_pop.
Qed.

Lemma find_setdefault k k' v d : k' ≠ k → Chain.jfind k (setdefault k' v d) = Chain.jfind k d.
Proof.
  intros Hne. unfold setdefault. destruct (bool_decide _); [done|]. induction d as [|[a w] d IH]; simpl; [by rewrite bool_decide_eq_false_2|].
  by rewrite IH.
Qed.

Lemma line_trace level service_name tid now stack exception m event kw line :
  log_line level service_name tid now stack exception m event kw = Some line → truthy tid = true →
  Chain.jfind "trace_id" line = Some (JStr tid) ∧ Chain.jfind "level" line = Some (JStr (method_name m)).
Proof.
  unfold log_line. destruct (_ <? _); [done|]. intros [= <-] Ht. unfold _add_trace_id. rewrite Ht.
  rewrite !find_rendered, !find_with_member by done. rewrite !(bool_decide_eq_false_2 ("timestamp" = _)) by done.
  split; [by rewrite bool_decide_eq_true_2|]. rewrite bool_decide_eq_false_2 by done.
  unfold _add_service. rewrite find_setdefault, find_with_member by done. by rewrite bool_decide_eq_true_2.
Qed.

Lemma correlation_truthy fresh span q : truthy (Http.correlation fresh span q) = true.
Proof.
  unfold Http.correlation. case_bool_decide; [|apply Http.hex32_truthy]. unfold str_or.
  destruct (Http.header _ _) as [h|]; [|apply Http.hex32_truthy]. destruct (truthy h) eqn:Eh; [done|apply Http.hex32_truthy].
Qed.

(** one id through a request: the router of a service runs under the correlation id of the request, so that every line
    it logs, at any level and with any members (a [trace_id] of the caller included), carries that id and its level; the
    response to it carries the id in [X-Request-Id], and the id that was current before is current again. *)
Theorem log_lines_correlated {Code} `{!Http.ErrorTable Code} (fresh : uuid) (span : list (string * string) → N) (routes : list Http.route) (router : Http.app Code)
    (q : Http.request) (c : Http.context) (level service_name now stack exception event : string) (m : log_method) (kw : list (string * json)) :
  let tid := Http.correlation fresh span q in
  let inside := Http.set_trace tid c in
  let '(a, c') := Http.serve_http fresh span routes router q c in
  (∀ line, log_line level service_name (Http.trace_id_var inside) now stack exception m event kw = Some line →
     Chain.jfind "trace_id" line = Some (JStr tid) ∧ Chain.jfind "level" line = Some (JStr (method_name m))) ∧
  Http.trace_id_var c' = Http.trace_id_var c ∧
  ((∃ r c1, router (Http.seen span q) inside = (Ok r, c1)) → ("x-request-id", tid) ∈ Http.r_headers a).
Proof.
  intros tid inside. rewrite Http.serve_http_run. fold tid inside. unfold Http.ExceptionMiddleware.
  assert (Hline : ∀ line, log_line level service_name (Http.trace_id_var inside) now stack exception m event kw = Some line →
    Chain.jfind "trace_id" line = Some (JStr tid) ∧ Chain.jfind "level" line = Some (JStr (method_name m))).
  { intros line Hl. apply (line_trace level service_name tid now stack exception m event kw line); [exact Hl|apply correlation_truthy]. }
  destruct (router (Http.seen span q) inside) as [[r|f] c1] eqn:Er.
  - split_and!; [done|done|]. intros _. simpl. set_solver.
  - destruct (Http.install_error_handlers _ f) as [a|]; split_and!; try done; by intros (? & ? & [=]).
Qed.

Lemma ratio_bounds py_float e : dec_leb (dec_int 0) (_ratio py_float e) = true ∧ dec_leb (_ratio py_float e) (dec_int 1) = true.
Proof.
  unfold _ratio. destruct (truthy _); [|done]. destruct (py_float _) as [[v| |]|]; try done.
  destruct (dec_leb (dec_int 0) v) eqn:H1; [|done]. destruct (dec_leb v (dec_int 1)) eqn:H2; done.
Qed.

Lemma cut_prefix_spec p s r : cut_prefix p s = Some r ↔ s = p ++ r.
Proof.
  revert s. induction p as [|c p IH]; intros s; simpl; [naive_solver|]. destruct s as [|c' s]; [naive_solver|].
  case_bool_decide; [subst; rewrite IH; naive_solver|]. naive_solver.
Qed.

(** spans are exported when, and only when, an endpoint is set and tracing is not disabled; the sampling ratio is then
    between 0 and 1 whatever its variable holds, and the connection is encrypted exactly for an endpoint that starts
    with https:// in small letters. *)
Theorem telemetry_export py_float (e : Settings.environment) (service_name version : string) :
  let endpoint := strip (default "" (getenv "OTEL_EXPORTER_OTLP_ENDPOINT" e)) in
  match init_telemetry py_float e service_name version with
  | Noop => _truthy (getenv "OTEL_SDK_DISABLED" e) = true ∨ endpoint = ""
  | Exporting _ v _ ratio target insecure =>
      _truthy (getenv "OTEL_SDK_DISABLED" e) = false ∧ endpoint ≠ "" ∧ v = version ∧
      dec_leb (dec_int 0) ratio = true ∧ dec_leb ratio (dec_int 1) = true ∧
      (insecure = false ↔ ∃ host, chars endpoint = chars "https://" ++ host)
  end.
Proof.
  intros endpoint. unfold init_telemetry. destruct (_truthy _) eqn:Ed; [by left|]. fold endpoint. cbv zeta.
  destruct (truthy endpoint) eqn:Ee; [|right; unfold truthy in Ee; by apply bool_decide_eq_false, dec_stable in Ee].
  destruct (_grpc_target endpoint) as [target insecure] eqn:Eg. unfold truthy in Ee. apply bool_decide_eq_true in Ee.
  split_and!; try done; [apply ratio_bounds|apply ratio_bounds|]. revert Eg. unfold _grpc_target.
  destruct (cut_prefix (chars "http://") (chars endpoint)) as [r|] eqn:E1.
  - intros [= <- <-]. split; [done|]. intros [host Hh]. apply cut_prefix_spec in E1. rewrite E1 in Hh. by simplify_eq/=.
  - destruct (cut_prefix (chars "https://") (chars endpoint)) as [r|] eqn:E2; intros [= <- <-].
    + split; [|done]. intros _. exists r. by apply cut_prefix_spec.
    + split; [done|]. intros [host Hh]. apply cut_prefix_spec in Hh. congruence.
Qed.
End Tracing.
