(* ===== verification/Runners.v ===== *)
(** * Background runners: bus consumers and sweepers

    The lifespan tasks that feed the services: [app/busconsumer/run.py] of identity-service,
    merchant-onboarding, invoice-subscription, fee-pricing-service, compliance-risk and
    notification-service ([TOPICS] or [topics_for], and [build_handler]: one database session per event,
    three of them behind [RedisDedupe]), and [app/sweeper/run.py] of fee-pricing-service and
    invoice-subscription ([_run_once], [_sweep_once] and the loops around them).

    The message loop itself ([KafkaConsumer.run]) is in [EventBus]; Redis is the class
    [Idempotency.RedisLike]. *)
From S2P Require Import Prelude PyText PyDecimal PyJson PyNum UnitOfWork Relational Tables Sql Fingerprint Idempotency Chain Pricing Invoice IdentityDb Sessions EventBus Merchant Risk Compliance Delivery Notify Flows.
From Stdlib Require Import Ascii.

Module Runners.
Import PyNum.
Open Scope Z_scope.

Notation event_payload := (list (string * json)).

(** ** The deduplicating handlers *)

Section dedupe.
Context {R : Type} `{!RedisLike R}.
Variables (sha256_hex : string → string) (service : string) (ttl : Z).

(** [await dedupe.run_once(name, fingerprint(payload), process)]: the value is dropped. *)
Definition deduped {W E} (t : Z) (name : string) (payload : event_payload) (process : W → outcome E unit * W)
    (s : R * W) : outcome E unit * (R * W) :=
  let '(r, s1, w) := Idem.redis_run_once service ttl t name (Fingerprint.fingerprint sha256_hex (JObj payload)) process s.1 s.2 in
  (match r with Ok _ => Ok tt | Raise e => Raise e end, (s1, w)).

(** One delivery: when, and the event. *)
Record delivery := mkDelivery { at_time : Z; ev_name : string; ev_payload : event_payload }.

(** What a consumer does with the deliveries it gets, one after the other: the answers, and the
    state left.  An exception of [process] does not undo what it committed. *)
Fixpoint consume_all {W E} (process : delivery → W → outcome E unit * W) (es : list delivery) (s : R * W) :
    list (outcome E unit) * (R * W) :=
  match es with
  | [] => ([], s)
  | e :: es' =>
      let '(r, s1) := deduped (at_time e) (ev_name e) (ev_payload e) (process e) s in
      let '(rs, s2) := consume_all process es' s1 in (r :: rs, s2)
  end.

(** *** The reference: what is skipped

    An event is skipped when the same event (name, and payload up to the order of members) was
    processed without an error less than a TTL ago; nothing is remembered of a failed one. *)
Definition same_event (e e' : delivery) : bool :=
  bool_decide (ev_name e = ev_name e' ∧
    Fingerprint.sort_keys (JObj (ev_payload e)) = Fingerprint.sort_keys (JObj (ev_payload e'))).

Definition recent (e : delivery) (handled : list delivery) : bool :=
  existsb (λ h, same_event h e && (at_time e <? at_time h + ttl)) handled.

Fixpoint reference {W E} (process : delivery → W → outcome E unit * W) (es handled : list delivery) (w : W) :
    list (outcome E unit) * W :=
  match es with
  | [] => ([], w)
  | e :: es' =>
      if recent e handled then let '(rs, w') := reference process es' handled w in (Ok tt :: rs, w')
      else match process e w with
           | (Ok _, w1) => let '(rs, w') := reference process es' (e :: handled) w1 in (Ok tt :: rs, w')
           | (Raise x, w1) => let '(rs, w') := reference process es' handled w1 in (Raise x :: rs, w')
           end
  end.

Definition mark (e : delivery) : string :=
  Idem.dedupe_key service (ev_name e) (Fingerprint.fingerprint sha256_hex (JObj (ev_payload e))).

(** From [t] on, the live marks are those of the handled events. *)
Definition marks_are (t : Z) (s : R) (handled : list delivery) : Prop :=
  ∀ t' scope k, t ≤ t' → is_Some (r_get t' (Idem.dedupe_key service scope k) s) ↔
    ∃ h, h ∈ handled ∧ mark h = Idem.dedupe_key service scope k ∧ t' < at_time h + ttl.

(** Events that can be told apart by their marks. *)
Definition distinguishable (es : list delivery) : Prop :=
  ∀ e e', e ∈ es → e' ∈ es → mark e = mark e' ↔ same_event e e' = true.

Lemma mark_distinguishes es :
  Forall (λ e, has_char ":"%char (ev_name e) = false) es →
  (∀ e e', e ∈ es → e' ∈ es → let text e := Fingerprint.dumps_ascii (Fingerprint.sort_keys (JObj (ev_payload e))) in
     sha256_hex (text e) = sha256_hex (text e') → text e = text e') →
  distinguishable es.
Proof.
  intros Hn Hsha e e' He He'. rewrite Forall_forall in Hn. unfold same_event. rewrite bool_decide_eq_true. unfold mark, Idem.dedupe_key. split.
  - intros Hk. injection Hk as Hk. apply (inj (String.append service)) in Hk. injection Hk as Hk.
    apply (app_sep_inj ":"%char) in Hk as [Hname Hfp]; [|by apply Hn..]. split; [done|].
    by apply Fingerprint.dumps_ascii_inj, Hsha.
  - intros [-> Hs]. unfold Fingerprint.fingerprint. by rewrite Hs.
Qed.

Lemma recent_iff t e handled s es :
  marks_are t s handled → t ≤ at_time e → distinguishable es → e ∈ es → (∀ h, h ∈ handled → h ∈ es) →
  is_Some (r_get (at_time e) (mark e) s) ↔ recent e handled = true.
Proof.
  intros Hm Ht Hd He Hin. etrans; [exact (Hm (at_time e) _ _ Ht)|]. fold (mark e). unfold recent. rewrite existsb_exists. split.
  - intros (h & Hh & Hk & Hlt). exists h. rewrite <- list_elem_of_In. split; [done|]. rewrite andb_true_iff, Z.ltb_lt. split; [|done].
    apply Hd; auto.
  - intros (h & Hh & Hs). rewrite <- list_elem_of_In in Hh. rewrite andb_true_iff, Z.ltb_lt in Hs. destruct Hs as [Hs Hlt].
    exists h. split_and!; [done| |done]. apply Hd; auto.
Qed.

(** A claimed mark, kept after a success and removed after a failure. *)
Lemma marks_set t e handled s :
  marks_are t s handled → t ≤ at_time e → r_get (at_time e) (mark e) s = None →
  ∃ s1, r_set (at_time e) (mark e) (JStr "1") true ttl s = (true, s1) ∧
    marks_are (at_time e) s1 (e :: handled) ∧ marks_are (at_time e) (r_del (mark e) s1) handled.
Proof.
  intros Hm Ht Hfree. destruct (r_set_free (at_time e) (mark e) (JStr "1") true ttl s) as [Hok Hget]; [by right|].
  destruct (r_set _ _ _ _ _ s) as [b s1]. simpl in *. subst b. exists s1. split; [done|].
  assert (Hold : ∀ t' h, at_time e ≤ t' → h ∈ handled → mark h = mark e → ¬ t' < at_time h + ttl).
  { intros t' h Ht' Hh Hk Hlt. apply eq_None_not_Some in Hfree. apply Hfree. unfold mark at 1. apply (Hm (at_time e)); [done|].
    exists h. split_and!; [done|done|lia]. }
  split; intros t' scope k Ht'.
  - rewrite Hget by done. case_decide as Hk.
    + case_decide as Hlt.
      * split; [intros _|by eexists]. exists e. split_and!; [set_solver|done|done].
      * split; [by intros []|]. intros (h & [->|Hh]%elem_of_cons & Hkh & Hl); [done|].
        destruct (Hold t' h); [done|done|congruence|done].
    + etrans; [apply Hm; lia|]. split.
      * intros (h & Hh & ? & ?). exists h. set_solver.
      * intros (h & [->|Hh]%elem_of_cons & ? & ?); [congruence|by exists h].
  - rewrite r_del_get. case_decide as Hk.
    + split; [by intros []|]. intros (h & Hh & Hkh & Hl). destruct (Hold t' h); [done|done|congruence|done].
    + rewrite Hget by done. rewrite decide_False by done. apply Hm. lia.
Qed.

Lemma dedupe_refines {W E} (process : delivery → W → outcome E unit * W) all es handled t s w :
  distinguishable all → (∀ e, e ∈ es ++ handled → e ∈ all) → Sorted Z.le (t :: (at_time <$> es)) → marks_are t s handled →
  let '(rs, (s', w')) := consume_all process es (s, w) in
  reference process es handled w = (rs, w').
Proof.
  intros Hd. revert handled t s w. induction es as [|e es IH]; intros handled t s w Hin Hsort Hm; [done|].
  cbn [consume_all reference]. cbn [fmap list_fmap] in Hsort. apply Sorted_inv in Hsort as [Hsort Hle]. apply HdRel_inv in Hle.
  pose proof (recent_iff t e handled s all Hm Hle Hd ltac:(set_solver) ltac:(set_solver)) as Hrec.
  unfold deduped, Idem.redis_run_once. cbn [fst snd]. fold (mark e).
  destruct (r_get (at_time e) (mark e) s) as [v|] eqn:Eg.
  - rewrite (r_set_busy _ _ v) by done. rewrite (proj1 Hrec) by by eexists.
    specialize (IH handled (at_time e) s w ltac:(set_solver) Hsort). destruct (consume_all process es (s, w)) as [rs [s' w']].
    rewrite IH; [done|]. intros t' scope k Ht'. apply Hm. lia.
  - destruct (marks_set t e handled s Hm Hle Eg) as (s1 & -> & Hkeep & Hdrop).
    destruct (recent e handled) eqn:Er; [by destruct (proj2 Hrec eq_refl)|].
    destruct (process e w) as [[[]|x] w1]; cbn [fst snd].
    + specialize (IH (e :: handled) (at_time e) s1 w1 ltac:(set_solver) Hsort Hkeep).
      destruct (consume_all process es (s1, w1)) as [rs [s' w']]. by rewrite IH.
    + specialize (IH handled (at_time e) (r_del (mark e) s1) w1 ltac:(set_solver) Hsort Hdrop).
      destruct (consume_all process es (r_del (mark e) s1, w1)) as [rs [s' w']]. by rewrite IH.
Qed.
End dedupe.

(** ** busconsumer/run.py of the services *)

(** A member as text, when it is there and truthy. *)
Definition bus_text (k : string) (p : event_payload) : option string :=
  match Chain.jfind k p with Some j => if jtruthy j then Some (py_str j) else None | None => None end.

(** *** Topics *)

Definition identity_topics : list string := ["compliance"].
Definition merchant_topics : list string := ["compliance"].
Definition invoice_topics : list string := ["chain"].
Definition compliance_topics : list string := ["paylink"; "payment"].
Definition notification_topics : list string := ["paylink"; "payment"].

(** [topics_for(settings)] *)
Definition pricing_topics (accrual_from_events : bool) : list string :=
  ["merchant"] ++ (if accrual_from_events then ["chain"] else []).

(** *** Handlers without deduplication *)

Definition identity_handle (name : string) (payload : event_payload) (s : Identity.iddb * Identity.idworld) :
    outcome (exn Identity.ErrorCode) unit * (Identity.iddb * Identity.idworld) :=
  action_of (Flows.kyc_handle name (prod_map id Compliance.PJ <$> payload)) s.

(** [MerchantEventConsumer.handle]: the id ([None] also for a malformed one) and the reason. *)
Definition merchant_handle (cfg : Merchant.Settings) (now : Z) (name : string) (payload : event_payload)
    (s : Merchant.mdb * Merchant.mworld) : outcome (exn Merchant.ErrorCode) unit * (Merchant.mdb * Merchant.mworld) :=
  action_of (Merchant.handle_event uuid_text cfg now name (bus_text "merchant_id" payload ≫= parse_uuid)
    (match Chain.jfind "reason" payload with Some JNull | None => None | Some j => Some (py_str j) end)) s.

Definition compliance_handle (dbnow : Z) (name : string) (payload : event_payload) (s : Compliance.cdb * Compliance.cworld) :
    outcome (exn Compliance.ErrorCode) unit * (Compliance.cdb * Compliance.cworld) :=
  action_of (Compliance.handle dbnow name payload) s.

(** *** Handlers behind [RedisDedupe]: what they run once per event *)

(** [MerchantPricingEventConsumer.handle]: an empty text for a missing or falsy member. *)
Definition pricing_event (name : string) (payload : event_payload) : Pricing.merchant_event :=
  if bool_decide (name = "merchant.onboarded") then
    Pricing.MerchantOnboarded (default "" (bus_text "merchant_id" payload)) (bus_text "org_id" payload)
  else if bool_decide (name = "merchant.fee_tier.changed") then
    Pricing.MerchantFeeTierChanged (default "" (bus_text "merchant_id" payload)) (default "" (bus_text "tier" payload))
  else Pricing.OtherEvent.

Definition pricing_process (e : delivery) : Pricing.pdb * Pricing.pworld → outcome (exn Pricing.ErrorCode) unit * (Pricing.pdb * Pricing.pworld) :=
  action_of (Pricing.consume parse_uuid (at_time e) (pricing_event (ev_name e) (ev_payload e))).

Definition invoice_process (e : delivery) : Invoice.idb * Invoice.iworld → outcome (exn Invoice.ErrorCode) unit * (Invoice.idb * Invoice.iworld) :=
  action_of (Invoice.handle_event uuid_text (at_time e) (ev_name e) (bus_text "entity_id" (ev_payload e)) (bus_text "pl_id" (ev_payload e))).

Section notification.
Variables (sha256_hex : string → string) (resolve : uuid → option Notify.contact → Notify.Recipient).
Variables (between : Delivery.Channel → Notify.ndb → Notify.ndb) (broker : uuid → bool) (fresh : delivery → Notify.fresh).

Definition notification_process (e : delivery) : Notify.ndb * Notify.nworld → outcome (exn Notify.ErrorCode) unit * (Notify.ndb * Notify.nworld) :=
  action_of (_ ← Notify.handle sha256_hex resolve between broker (at_time e) (fresh e) (ev_name e) (Flows.bus_event (ev_payload e)); mret tt).
End notification.

Section handlers.
Context {R : Type} `{!RedisLike R}.
Variables (sha256_hex : string → string) (service : string) (ttl : Z).

Definition pricing_handle (t : Z) (name : string) (payload : event_payload) (s : R * (Pricing.pdb * Pricing.pworld)) :=
  deduped sha256_hex service ttl t name payload (pricing_process (mkDelivery t name payload)) s.

Definition invoice_handle (t : Z) (name : string) (payload : event_payload) (s : R * (Invoice.idb * Invoice.iworld)) :=
  deduped sha256_hex service ttl t name payload (invoice_process (mkDelivery t name payload)) s.

Definition notification_handle resolve between broker fresh (t : Z) (name : string) (payload : event_payload) (s : R * (Notify.ndb * Notify.nworld)) :=
  deduped sha256_hex service ttl t name payload
    (notification_process sha256_hex resolve between broker fresh (mkDelivery t name payload)) s.
End handlers.

(** every event that a service's handler acts on arrives on a topic the service subscribes to, but
    for the two [admin.override] events of merchant-onboarding, which no subscription delivers. *)
Theorem handled_events_are_subscribed :
  (∀ name, name ∈ [Sessions.KYC_PASSED; Sessions.KYC_FAILED] → EventBus.topic_for name ∈ identity_topics) ∧
  (∀ name dec, Merchant._DECISION_BY_EVENT name = Some dec →
     EventBus.topic_for name ∈ merchant_topics ↔ dec = Merchant.APPROVE ∨ dec = Merchant.REJECT) ∧
  EventBus.topic_for Invoice.CHAIN_PAYLINK_VERIFIED ∈ invoice_topics ∧
  EventBus.topic_for Compliance.PAYMENT_INITIATED ∈ compliance_topics ∧
  (∀ name, name ∈ Notify.KNOWN_EVENTS → EventBus.topic_for name ∈ notification_topics) ∧
  (∀ name payload b, pricing_event name payload ≠ Pricing.OtherEvent → EventBus.topic_for name ∈ pricing_topics b).
Proof.
  split_and!.
  - intros name Hin. repeat (apply elem_of_cons in Hin as [->|Hin]; [by apply (bool_decide_unpack _); vm_compute|]). by apply elem_of_nil in Hin.
  - intros name dec. unfold Merchant._DECISION_BY_EVENT. repeat case_bool_decide; subst; intros [= <-];
      (split; [intros Hin; apply (bool_decide_pack _) in Hin; vm_compute in Hin; first [done|by auto]|
               intros [?|?]; first [done|by apply (bool_decide_unpack _); vm_compute]]).
  - by apply (bool_decide_unpack _); vm_compute.
  - by apply (bool_decide_unpack _); vm_compute.
  - intros name Hin. repeat (apply elem_of_cons in Hin as [->|Hin]; [by apply (bool_decide_unpack _); vm_compute|]). by apply elem_of_nil in Hin.
  - intros name payload b. unfold pricing_event. repeat case_bool_decide; subst; intros Hne; try done;
      by destruct b; apply (bool_decide_unpack _); vm_compute.
Qed.

(** C4: deduplication of redelivered events is exact.  Whatever a consumer's [process] does, on any
    deliveries in time order and from a Redis without marks of the service, [dedupe.run_once] answers
    each delivery, and leaves the service's state, as the reference does: an event is
    skipped exactly when the same event (name, and payload up to the order of members) was
    processed without an error less than a TTL before, and an event whose processing failed is
    processed again when it comes back. *)
Theorem consumer_dedupe_exact {R} `{!RedisLike R} {W E} (sha256_hex : string → string) (service : string) (ttl : Z)
    (process : delivery → W → outcome E unit * W) (es : list delivery) (s : R) (w : W)
    (Htimes : Sorted Z.le (at_time <$> es))
    (Hnames : Forall (λ e, has_char ":"%char (ev_name e) = false) es)
    (Hsha : ∀ e e', e ∈ es → e' ∈ es → let text e := Fingerprint.dumps_ascii (Fingerprint.sort_keys (JObj (ev_payload e))) in
       sha256_hex (text e) = sha256_hex (text e') → text e = text e')
    (Hfree : ∀ t scope k, r_get t (Idem.dedupe_key service scope k) s = None) :
  let '(rs, (_, w')) := consume_all sha256_hex service ttl process es (s, w) in
  reference ttl process es [] w = (rs, w').
Proof.
  destruct es as [|e es]; [done|].
  apply (dedupe_refines sha256_hex service ttl process (e :: es) (e :: es) [] (at_time e) s w).
  - by apply mark_distinguishes.
  - intros e'. by rewrite app_nil_r.
  - cbn [fmap list_fmap] in *. by constructor; [|constructor].
  - intros t' scope k _. rewrite Hfree. split; [by intros []|by intros (h & Hh%elem_of_nil & _)].
Qed.

(** *** A fee tier that goes back *)

Definition tier_payload (i t : string) : event_payload := [("merchant_id", JStr i); ("tier", JStr t)].

Lemma same_tier_event i a b t t' n :
  same_event (mkDelivery t n (tier_payload i a)) (mkDelivery t' n (tier_payload i b)) = bool_decide (a = b).
Proof.
  unfold same_event. cbn [ev_name ev_payload]. apply bool_decide_ext. split; [|by intros ->].
  intros [_ Heq]. unfold tier_payload in Heq. vm_compute in Heq. by injection Heq.
Qed.

Lemma tier_event_of i a : truthy i = true → truthy a = true →
  pricing_event "merchant.fee_tier.changed" (tier_payload i a) = Pricing.MerchantFeeTierChanged i a.
Proof.
  intros Hi Ha. unfold pricing_event. rewrite bool_decide_eq_false_2, bool_decide_eq_true_2 by done. unfold tier_payload, bus_text.
  cbn [Chain.jfind]. rewrite bool_decide_eq_true_2, bool_decide_eq_false_2, bool_decide_eq_true_2 by done. cbn [jtruthy py_str].
  by rewrite Hi, Ha.
Qed.

(** What a delivered tier change does to the pricing of its merchant. *)
Lemma tier_event_run t i m a d x :
  parse_uuid i = Some m → truthy i = true → truthy a = true → is_Some (Pricing.tiers d !! a) →
  ∃ d', pricing_process (mkDelivery t "merchant.fee_tier.changed" (tier_payload i a)) (d, x) = (Ok tt, (d', x)) ∧
    Pricing.tiers d' = Pricing.tiers d ∧ Pricing.mp_tier <$> Pricing.merchant_pricing d' !! m = Some a.
Proof.
  intros Hi Ht Ha [row Hrow]. eexists. unfold pricing_process. cbn [at_time ev_name ev_payload]. rewrite tier_event_of by done.
  unfold action_of, request, Pricing.consume. rewrite Ht, Ha. cbn [negb orb]. unfold Pricing.upsert_merchant_pricing. rewrite Hi.
  unfold mbind, handler_bind, query, Pricing.get_tier. cbn [tx fst snd]. rewrite Hrow. split_and!; [reflexivity|done|]. simpl.
  rewrite lookup_insert_eq. by destruct (Pricing.merchant_pricing d !! m).
Qed.

(** One change of the tier at merchant-onboarding. *)
Lemma tier_request_run uuid_str cfg encrypt p i t row role d x :
  Merchant.merchants d !! i = Some row → Merchant.require_admin p (uuid_str (Merchant.org_id row)) = Ok role → t ∈ Merchant.FeeTiers →
  ∃ d', Merchant.serve uuid_str cfg encrypt (d, x) (Merchant.MTier p i t) =
      (d', Merchant.mkMW (Merchant.m_published x ++ [("merchant.fee_tier.changed", JObj (tier_payload (uuid_str i) t))]) (Merchant.objects x)) ∧
    Merchant.merchants d' !! i = Some (Merchant.with_tier t row).
Proof.
  intros Hrow Hadm Ht. eexists. unfold Merchant.serve, request, Merchant.handle, Merchant.set_fee_tier, Merchant.get_for_member.
  unfold mbind, handler_bind, query, lift. cbn [fst snd tx]. rewrite Hrow.
  assert (Hrole : Merchant.org_role p (uuid_str (Merchant.org_id row)) ≠ None).
  { revert Hadm. unfold Merchant.require_admin, Merchant.require_org_member. by destruct (Merchant.org_role _ _). }
  rewrite bool_decide_eq_false_2 by done. simpl. rewrite Hadm. rewrite bool_decide_eq_false_2 by naive_solver.
  split; [reflexivity|]. simpl. by rewrite lookup_alter_eq, Hrow.
Qed.

(** The events a service published, delivered at given times. *)
Definition delivered (ts : list Z) (published : list (string * json)) : list delivery :=
  zip_with (λ t np, mkDelivery t np.1 (match np.2 with JObj o => o | _ => [] end)) ts published.

Section toggle.
Context {R : Type} `{!RedisLike R}.
Variables (sha256_hex : string → string) (service : string) (ttl : Z).
Variables (cfg : Merchant.Settings) (encrypt : string → string → string) (p : Identity.AccessClaims) (m : uuid) (a b : string).

(** An admin sets the tier to [a], to [b] and back to [a]. *)
Definition toggle : list Merchant.mreq := [Merchant.MTier p m a; Merchant.MTier p m b; Merchant.MTier p m a].

Definition toggle_events : list (string * json) :=
  (λ t, ("merchant.fee_tier.changed", JObj (tier_payload (uuid_text m) t))) <$> [a; b; a].

Lemma toggle_run d x row role :
  Merchant.merchants d !! m = Some row → Merchant.require_admin p (uuid_text (Merchant.org_id row)) = Ok role →
  a ∈ Merchant.FeeTiers → b ∈ Merchant.FeeTiers → Merchant.m_published x = [] →
  let '(d', x') := Merchant.serve_all uuid_text cfg encrypt (d, x) toggle in
  Merchant.m_published x' = toggle_events ∧ Merchant.fee_tier <$> Merchant.merchants d' !! m = Some a.
Proof.
  intros Hrow Hadm Ha Hb Hx. unfold Merchant.serve_all, toggle. cbn [fold_left].
  destruct (tier_request_run uuid_text cfg encrypt p m a row role d x Hrow Hadm Ha) as (d1 & -> & H1).
  edestruct (tier_request_run uuid_text cfg encrypt p m b) as (d2 & -> & H2); [exact H1|exact Hadm|done|].
  edestruct (tier_request_run uuid_text cfg encrypt p m a) as (d3 & -> & H3); [exact H2|exact Hadm|done|].
  simpl. rewrite Hx, H3. done.
Qed.

Lemma toggle_consumed t1 t2 t3 d x :
  (m < 2 ^ 128)%N → a ≠ b → truthy a = true → truthy b = true → is_Some (Pricing.tiers d !! a) → is_Some (Pricing.tiers d !! b) →
  t3 < t1 + ttl →
  let '(rs, (d', _)) := reference (E := exn Pricing.ErrorCode) ttl pricing_process (delivered [t1; t2; t3] toggle_events) [] (d, x) in
  rs = [Ok tt; Ok tt; Ok tt] ∧ Pricing.mp_tier <$> Pricing.merchant_pricing d' !! m = Some b.
Proof.
  intros Hm Hab Ha Hb Hta Htb Ht. unfold delivered, toggle_events. cbn [zip_with fmap list_fmap reference fst snd].
  assert (Hu : truthy (uuid_text m) = true) by (pose proof (Flows.uuid_text_length m); by destruct (uuid_text m)).
  pose proof (parse_uuid_text m Hm) as Hp. cbn [recent existsb].
  destruct (tier_event_run t1 (uuid_text m) m a d x Hp Hu Ha Hta) as (d1 & -> & Ht1 & _).
  cbn [recent existsb]. rewrite same_tier_event, bool_decide_eq_false_2 by done. cbn [andb orb].
  rewrite <- Ht1 in Htb. destruct (tier_event_run t2 (uuid_text m) m b d1 x Hp Hu Hb Htb) as (d2 & -> & _ & Hd2).
  cbn [recent existsb]. rewrite !same_tier_event, bool_decide_eq_false_2, bool_decide_eq_true_2 by done. cbn [andb orb at_time].
  by rewrite (proj2 (Z.ltb_lt _ _)).
Qed.
End toggle.

(** C19: a fee tier changed and changed back is lost at fee-pricing.  When an admin of a merchant sets
    its tier to [a], then [b], then [a] again at merchant-onboarding, and the three announced events reach
    fee-pricing-service in order less than its TTL apart, each is answered without an
    error, merchant-onboarding holds [a], and fee-pricing-service stays at [b]: the third event has the payload of the
    first, so that the handler takes it for a redelivery. *)
Theorem fee_tier_toggle_lost {R} `{!RedisLike R} (sha256_hex : string → string) (service : string) (ttl : Z)
    (cfg : Merchant.Settings) (encrypt : string → string → string) (p : Identity.AccessClaims) (m : uuid) (a b role : string)
    (row : Merchant.MerchantRow) (md : Merchant.mdb) (mx : Merchant.mworld) (pd : Pricing.pdb) (px : Pricing.pworld) (s : R) (t1 t2 t3 : Z)
    (Hm : (m < 2 ^ 128)%N) (Hrow : Merchant.merchants md !! m = Some row)
    (Hadmin : Merchant.require_admin p (uuid_text (Merchant.org_id row)) = Ok role)
    (Ha : a ∈ Merchant.FeeTiers) (Hb : b ∈ Merchant.FeeTiers) (Hab : a ≠ b) (Hnone : Merchant.m_published mx = [])
    (Hta : is_Some (Pricing.tiers pd !! a)) (Htb : is_Some (Pricing.tiers pd !! b))
    (Htimes : t1 ≤ t2 ≤ t3 ∧ t3 < t1 + ttl)
    (Hsha : let text t := Fingerprint.dumps_ascii (Fingerprint.sort_keys (JObj (tier_payload (uuid_text m) t))) in
       sha256_hex (text a) ≠ sha256_hex (text b))
    (Hfree : ∀ t scope k, r_get t (Idem.dedupe_key service scope k) s = None) :
  let '(md', mx') := Merchant.serve_all uuid_text cfg encrypt (md, mx) (toggle p m a b) in
  let '(rs, (_, (pd', _))) := consume_all sha256_hex service ttl pricing_process (delivered [t1; t2; t3] (Merchant.m_published mx')) (s, (pd, px)) in
  rs = [Ok tt; Ok tt; Ok tt] ∧
  Merchant.fee_tier <$> Merchant.merchants md' !! m = Some a ∧
  Pricing.mp_tier <$> Pricing.merchant_pricing pd' !! m = Some b.
Proof.
  pose proof (toggle_run cfg encrypt p m a b md mx row role Hrow Hadmin Ha Hb Hnone) as Hrun.
  destruct (Merchant.serve_all _ _ _ _ _) as [md' mx']. destruct Hrun as [-> Htier].
  assert (Htr : ∀ t, t ∈ Merchant.FeeTiers → truthy t = true).
  { intros t Hin. unfold Merchant.FeeTiers in Hin. set_unfold in Hin. naive_solver. }
  pose proof (toggle_consumed ttl m a b t1 t2 t3 pd px Hm Hab (Htr a Ha) (Htr b Hb) Hta Htb ltac:(lia)) as Href.
  set (es := delivered [t1; t2; t3] (toggle_events m a b)) in *.
  assert (Hes : ∀ e, e ∈ es → ∃ t x, e = mkDelivery t "merchant.fee_tier.changed" (tier_payload (uuid_text m) x) ∧ (x = a ∨ x = b)).
  { intros e He. unfold es, delivered, toggle_events in He. cbn [zip_with fmap list_fmap fst snd] in He.
    repeat (apply elem_of_cons in He as [->|He]; [by eexists _, _; split; [reflexivity|auto]|]). by apply elem_of_nil in He. }
  pose proof (dedupe_refines sha256_hex service ttl pricing_process es es [] t1 s (pd, px)) as Hd.
  destruct (consume_all _ _ _ _ es _) as [rs [s' [pd' px']]]. rewrite Hd in Href; [destruct Href as [Hrs Hpt]; exact (conj Hrs (conj Htier Hpt))|..].
  - apply mark_distinguishes.
    + rewrite Forall_forall. intros e He. destruct (Hes e He) as (t & x & -> & _). done.
    + intros e e' He He'. destruct (Hes e He) as (t & x & -> & Hx), (Hes e' He') as (t' & y & -> & Hy). cbn [ev_payload].
      destruct Hx as [->| ->], Hy as [->| ->]; intros Heq; first [reflexivity|by destruct (Hsha Heq)|by destruct (Hsha (eq_sym Heq))].
  - intros e. by rewrite app_nil_r.
  - unfold es, delivered, toggle_events. cbn. repeat constructor; lia.
  - intros t' scope k _. rewrite Hfree. split; [by intros []|by intros (h & Hh%elem_of_nil & _)].
Qed.

(** ** A redelivered decision at merchant-onboarding *)

Lemma redelivered_decision cfg now i row payload s :
  Merchant.merchants s.1 !! i = Some row → Merchant.status row = Merchant.status_value Merchant.ACTIVE →
  bus_text "merchant_id" payload ≫= parse_uuid = Some i →
  merchant_handle cfg now "compliance.kyb.passed" payload s = (Raise (AppError Merchant.INVALID_TRANSITION), s).
Proof.
  intros Hrow Hst Hid. destruct s as [d x]. unfold merchant_handle. rewrite Hid. unfold Merchant.handle_event.
  change (Merchant._DECISION_BY_EVENT "compliance.kyb.passed") with (Some Merchant.APPROVE).
  unfold action_of, request, Merchant.decide_, mbind, handler_bind, query. cbn [fst snd tx] in *. rewrite Hrow, Hst, Merchant.m_status_of_value. done.
Qed.

(** a redelivered [compliance.kyb.passed] takes its batch with it.  For a merchant that is ACTIVE already
    (the event was handled before), the handler raises INVALID_TRANSITION; the consumer
    then leaves the rest of the batch unhandled, commits nothing, and no later fetch
    returns a message of that batch. *)
Theorem redelivered_kyb_stops_batch `{!EventBus.KafkaClient C, !EventBus.KafkaLaws C} (cfg : Merchant.Settings) (now : Z) (i : uuid)
    (row : Merchant.MerchantRow) (env : EventBus.Envelope) (o n : nat) (rest : list EventBus.message) (c c1 : C) (s : Merchant.mdb * Merchant.mworld)
    (Hrow : Merchant.merchants s.1 !! i = Some row) (Hactive : Merchant.status row = Merchant.status_value Merchant.ACTIVE)
    (Hname : EventBus.e_name env = "compliance.kyb.passed") (Hid : bus_text "merchant_id" (EventBus.payload env) ≫= parse_uuid = Some i)
    (Hfetch : EventBus.getmany c = (EventBus.mkMessage o (Some env) :: rest, c1)) :
  let handle env := merchant_handle cfg now (EventBus.e_name env) (EventBus.payload env) in
  EventBus.turn handle (c, s) = (c1, s) ∧
  ∀ msg msg', msg ∈ rest → msg' ∈ (EventBus.getmany (EventBus.turns handle n (c1, s)).1).1 → (EventBus.offset msg < EventBus.offset msg')%nat.
Proof.
  intros handle. assert (Hturn : EventBus.turn handle (c, s) = (c1, s)).
  { unfold EventBus.turn. cbn [fst snd]. rewrite Hfetch. unfold EventBus._process_partition. cbn [EventBus.process EventBus.value].
    unfold handle. rewrite Hname. by rewrite (redelivered_decision cfg now i row _ s Hrow Hactive Hid). }
  split; [done|]. intros msg msg' Hm Hm'. rewrite <- Hturn in Hm'.
  apply (proj1 (EventBus.failed_message_not_redelivered handle c c1 s _ n Hfetch) msg msg'); [set_solver|done].
Qed.

(** ** sweeper/run.py of fee-pricing-service *)

Section pricing_sweeper.
Variables (settings : Pricing.Settings) (uuid_str : uuid → string).

(** [_run_once]: the period of the current month. *)
Definition _run_once (fresh : nat → uuid) (now : Z) : handler Pricing.pdb Pricing.pworld Pricing.ErrorCode nat :=
  result ← Pricing.generate_for_period settings uuid_str fresh (Pricing.period_of now) None;
  mret (length result.1).

(** One turn of the loop of [run]: an exception is logged, and the loop goes on. *)
Definition pricing_tick (s : Pricing.pdb * Pricing.pworld) (tick : (nat → uuid) * Z) : Pricing.pdb * Pricing.pworld :=
  (action_of (_run_once tick.1 tick.2) s).2.

(** The sweeper next to the routes that record accruals and run a period. *)
Inductive billing_step :=
| Tick (fresh : nat → uuid) (now : Z)
| Request (q : Pricing.billing_req).

Definition billing_run (s : Pricing.pdb * Pricing.pworld) (st : billing_step) : Pricing.pdb * Pricing.pworld :=
  match st with
  | Tick f now => pricing_tick s (f, now)
  | Request q => Pricing.bill_request settings uuid_str q s
  end.

Definition step_ok (st : billing_step) : Prop :=
  match st with Tick _ _ => True | Request q => Pricing.req_ok q end.

Lemma tick_is_generate s f now :
  pricing_tick s (f, now) = Pricing.bill_request settings uuid_str (Pricing.Generate f (Pricing.period_of now) None) s.
Proof.
  unfold pricing_tick, action_of, request, _run_once, Pricing.bill_request, mbind, handler_bind, request. cbn [fst snd].
  by destruct (Pricing.generate_for_period _ _ _ _ _ _) as [[r|e] w].
Qed.

Lemma as_request s st : step_ok st → ∃ q, billing_run s st = Pricing.bill_request settings uuid_str q s ∧ Pricing.req_ok q.
Proof. destruct st as [f now|q]; [intros _; eexists; split; [apply tick_is_generate|done]|by exists q]. Qed.

Lemma generate_request f period mo d x : Pricing.books_ok d →
  let '(r, d', _) := request (Pricing.generate_for_period settings uuid_str f period mo) d x in
  Pricing.books_ok d' ∧ Pricing.bills period d d' ∧
  (is_ok r = true → ∀ a, a ∈ Pricing.unbilled_accruals period mo d → Pricing.invoiced period (Pricing.a_merchant a) d').
Proof.
  intros Hb. pose proof (Pricing.generate_rule settings uuid_str f period mo d x Hb) as Hw. unfold wp, request in *.
  by destruct (Pricing.generate_for_period _ _ _ _ _ _) as [r w].
Qed.

(** Once a merchant is invoiced for a period, the accruals it has there stay as they are. *)
Definition frozen (period : string) (m : uuid) (d d' : Pricing.pdb) : Prop :=
  Pricing.books_ok d' ∧ Pricing.invoiced period m d' ∧
  ∀ a, Pricing.a_merchant a = m → Pricing.a_period a = period → a ∈ Pricing.accruals d → a ∈ Pricing.accruals d'.

Lemma record_frozen period m (q : Pricing.billing_req) s :
  Pricing.req_ok q → Pricing.books_ok s.1 → Pricing.invoiced period m s.1 →
  frozen period m s.1 (Pricing.bill_request settings uuid_str q s).1.
Proof.
  intros Hq Hb (i & Hi & Him & Hip). destruct s as [d x]. split; [by apply Pricing.bill_request_ok|].
  destruct q as [m' a c r t qi|f per mo]; cbn [fst snd Pricing.bill_request] in *.
  - assert (Hw : wp (Pricing.record_accrual m' a c r t qi)
      (λ _ w', Pricing.invoices (db w') = Pricing.invoices d ∧ ∀ x, x ∈ Pricing.accruals d → x ∈ Pricing.accruals (db w')) (Uow d d x)).
    { unfold Pricing.record_accrual. wp_go; try done.
      match goal with He : (if _ then _ else _) = Ok _ |- _ => simpl in He; destruct (Pricing.numeric38 <=? _); [done|]; injection He as <- end.
      simpl. set_solver. }
    apply (wp_request _ (λ _ d' _, Pricing.invoices d' = Pricing.invoices d ∧ ∀ x, x ∈ Pricing.accruals d → x ∈ Pricing.accruals d')) in Hw.
    destruct (request _ d x) as [[rr d'] x']. simpl in *. destruct Hw as [Hinv Hacc]. split; [exists i; by rewrite Hinv|auto].
  - pose proof (generate_request f per mo d x Hb) as Hw.
    destruct (request _ d x) as [[rr d'] x']. destruct Hw as (_ & (_ & Hkeep & Hacc) & _). simpl.
    split; [exists i; auto|]. intros a Ha Hap Hin. apply Hacc; [|done].
    destruct (decide (period = per)) as [<-|Hne]; [left; exists i; by rewrite Ha|right; congruence].
Qed.

Lemma run_frozen period m sts s :
  Forall step_ok sts → Pricing.books_ok s.1 → Pricing.invoiced period m s.1 → frozen period m s.1 (fold_left billing_run sts s).1.
Proof.
  intros Hok. revert s. induction Hok as [|st sts Hst _ IH]; intros s Hb Hi; [by split_and!|]. cbn [fold_left].
  destruct (as_request s st Hst) as (q & -> & Hq). destruct (record_frozen period m q s Hq Hb Hi) as (Hb1 & Hi1 & Ha1).
  destruct (IH _ Hb1 Hi1) as (Hb2 & Hi2 & Ha2). split_and!; auto.
Qed.

(** What a successful recording leaves. *)
Lemma record_adds m amount c ref t qi s :
  Pricing.find_accrual m ref s.1 = None → Z.abs amount < Pricing.numeric38 →
  ∃ a, a ∈ Pricing.accruals (Pricing.bill_request settings uuid_str (Pricing.RecordAccrual m amount c ref t qi) s).1 ∧
    Pricing.a_merchant a = m ∧ Pricing.a_source_ref a = ref ∧ Pricing.a_amount a = amount ∧ Pricing.a_period a = Pricing.period_of t ∧
    Pricing.a_invoice_id a = None.
Proof.
  intros Hf Ha. destruct s as [d x]. eexists. cbn [fst snd Pricing.bill_request] in *. unfold request, Pricing.record_accrual, mbind, handler_bind, query, try_write.
  cbn [tx]. rewrite Hf. rewrite (proj2 (Z.leb_gt _ _)) by done. simpl. split; [apply elem_of_app; right; apply list_elem_of_singleton; reflexivity|done].
Qed.
End pricing_sweeper.

(** C10: the sweeper bills a month at its first tick.  Once a tick has succeeded in a month in which a
    merchant had an unbilled accrual, no accrual of that merchant recorded later for the same month is
    ever billed, however often the sweeper ticks and whatever runs are asked for afterwards,
    and although each of those runs succeeds. *)
Theorem sweeper_misses_rest_of_month (settings : Pricing.Settings) (uuid_str : uuid → string) (fresh : nat → uuid) (now t : Z)
    (d : Pricing.pdb) (x : Pricing.pworld) (first : Pricing.AccrualRow) (amount : Z) (currency ref : string) (quote_id : option uuid)
    (before after : list billing_step)
    (Hbooks : Pricing.books_ok d) (Hfirst : first ∈ Pricing.unbilled_accruals (Pricing.period_of now) None d)
    (Htick : is_ok (action_of (_run_once settings uuid_str fresh now) (d, x)).1 = true)
    (Hbefore : Forall step_ok before) (Hafter : Forall step_ok after)
    (Hmonth : Pricing.period_of t = Pricing.period_of now) (Hamount : 0 ≤ amount < Pricing.numeric38) :
  let run := billing_run settings uuid_str in
  let m := Pricing.a_merchant first in
  let s := fold_left run before (pricing_tick settings uuid_str (d, x) (fresh, now)) in
  Pricing.find_accrual m ref s.1 = None →
  ∃ a, a ∈ Pricing.accruals (fold_left run after (run s (Request (Pricing.RecordAccrual m amount currency ref t quote_id)))).1 ∧
    Pricing.a_merchant a = m ∧ Pricing.a_source_ref a = ref ∧ Pricing.a_amount a = amount ∧ Pricing.a_invoice_id a = None.
Proof.
  intros run m s Hnew. set (period := Pricing.period_of now) in *.
  assert (H1 : Pricing.books_ok (pricing_tick settings uuid_str (d, x) (fresh, now)).1 ∧
    Pricing.invoiced period m (pricing_tick settings uuid_str (d, x) (fresh, now)).1).
  { pose proof (generate_request settings uuid_str fresh period None d x Hbooks) as Hw.
    rewrite tick_is_generate. revert Htick. unfold action_of, request, _run_once, mbind, handler_bind. cbn [fst snd Pricing.bill_request].
    unfold request in *. fold period. destruct (Pricing.generate_for_period _ _ _ _ _ _) as [[r|e] w]; [|done]. intros _. simpl in *.
    destruct Hw as (Hb & _ & Hi). split; [done|]. by apply Hi. }
  destruct H1 as [Hb1 Hi1]. destruct (run_frozen settings uuid_str period m before _ Hbefore Hb1 Hi1) as (Hb2 & Hi2 & _).
  destruct (record_adds settings uuid_str m amount currency ref t quote_id s Hnew ltac:(lia)) as (a & Ha & Hm & Href & Ham & Hper & Hnone).
  set (q := Pricing.RecordAccrual m amount currency ref t quote_id) in *. change (run s (Request q)) with (Pricing.bill_request settings uuid_str q s).
  destruct (record_frozen settings uuid_str period m q s ltac:(simpl; lia) Hb2 Hi2) as (Hb3 & Hi3 & _).
  destruct (run_frozen settings uuid_str period m after _ Hafter Hb3 Hi3) as (_ & _ & Hkeep).
  exists a. split_and!; [|done..]. apply Hkeep; [done|congruence|done].
Qed.

(** ** sweeper/run.py of invoice-subscription *)

Section overdue_sweeper.
Variables (uuid_str : uuid → string) (iso : Z → string).

(** [_sweep_once] *)
Definition _sweep_once (now : Z) : handler Invoice.idb Invoice.iworld Invoice.ErrorCode nat := Invoice.sweep_overdue uuid_str iso now.

(** One turn of the loop of [run]. *)
Definition overdue_tick (s : Invoice.idb * Invoice.iworld) (now : Z) : Invoice.idb * Invoice.iworld := (action_of (_sweep_once now) s).2.

Lemma overdue_tick_run s now :
  (overdue_tick s now).1 = fold_left (Invoice.sweep_one uuid_str iso) (Invoice.find_overdue now 100 s.1) s.1.
Proof.
  destruct s as [d x]. unfold overdue_tick, action_of, request, _sweep_once, Invoice.sweep_overdue, mbind, handler_bind, query. cbn [fst snd tx].
  rewrite Invoice.sweep_loop. unfold when. by destruct (bool_decide_reflect (Invoice.find_overdue now 100 d = [])) as [->|Hne].
Qed.

(** The OPEN invoices due by [x]. *)
Definition waiting (x : Z) (d : Invoice.idb) : list Invoice.InvoiceRow :=
  filter (λ r, Invoice.status r = Invoice.status_value Invoice.OPEN ∧ Invoice.due_at r ≤ x) (Invoice.rows d).

Lemma waiting_elem x d i :
  Invoice.db_ok d → i ∈ Invoice.invoice_id <$> waiting x d ↔
    ∃ r, Invoice.invoices d !! i = Some r ∧ Invoice.status r = Invoice.status_value Invoice.OPEN ∧ Invoice.due_at r ≤ x.
Proof.
  clear uuid_str iso. intros [Hrows _]. rewrite list_elem_of_fmap. split.
  - intros (r & -> & [Hs Hin]%list_elem_of_filter). apply elem_of_values in Hin as [j Hj].
    destruct (Hrows j r Hj) as [<- _]. naive_solver.
  - intros (r & Hr & Hs). exists r. destruct (Hrows i r Hr) as [-> _]. split; [done|].
    apply list_elem_of_filter. split; [done|]. apply elem_of_values. by exists i.
Qed.

Lemma invoice_ids_nodup d : Invoice.db_ok d → NoDup (Invoice.invoice_id <$> Invoice.rows d).
Proof.
  intros [Hrows _]. unfold Invoice.rows. rewrite <- list_fmap_compose.
  rewrite (Forall_fmap_ext_1 _ fst); [apply NoDup_fst_map_to_list|].
  apply Forall_forall. intros [i r] Hin%elem_of_map_to_list. simpl. by destruct (Hrows i r Hin).
Qed.

Lemma waiting_nodup x d : Invoice.db_ok d → NoDup (Invoice.invoice_id <$> waiting x d).
Proof. intros Hd. eapply sublist_NoDup; [by apply invoice_ids_nodup|]. apply fmap_sublist, sublist_filter. Qed.

(** In a list sorted by due date, the rows due by [x] come first. *)
Lemma due_prefix x l : StronglySorted Invoice.due_first l →
  filter (λ r, Invoice.due_at r ≤ x) l `prefix_of` l.
Proof.
  induction 1 as [|r l _ IH Hr]; [done|]. rewrite filter_cons. case_decide as Hx; [by apply prefix_cons|].
  assert (filter (λ r, Invoice.due_at r ≤ x) l = []) as ->; [|apply prefix_nil].
  assert (Hl : Forall (λ r', x < Invoice.due_at r') l) by (eapply Forall_impl; [exact Hr|]; unfold Invoice.due_first; simpl; lia).
  clear IH Hr. induction Hl as [|r' l Hr' _ IH]; [done|]. by rewrite filter_cons_False by lia.
Qed.

(** A tick after [x] takes the first hundred of those waiting. *)
Lemma tick_takes x now d : x < now → ∃ first, first ≡ₚ waiting x d ∧
  ∀ r, r ∈ take 100 first → r ∈ Invoice.find_overdue now 100 d.
Proof.
  intros Hx. set (sorted := merge_sort Invoice.due_first
    (filter (λ r, Invoice.status r = Invoice.status_value Invoice.OPEN ∧ Invoice.due_at r < now) (Invoice.rows d))).
  exists (filter (λ r, Invoice.due_at r ≤ x) sorted). split.
  - unfold sorted. rewrite merge_sort_Permutation. unfold waiting. rewrite list_filter_filter. rewrite (list_filter_iff _ (λ r, Invoice.status r = Invoice.status_value Invoice.OPEN ∧ Invoice.due_at r ≤ x)); [done|]. intros r. split; intros; destruct_and?; split_and!; (done || lia).
  - intros r Hr. unfold Invoice.find_overdue. fold sorted.
    assert (Hs : StronglySorted Invoice.due_first sorted).
    { apply StronglySorted_merge_sort; unfold Invoice.due_first; [intros ? ? ?; simpl; lia|intros ? ?; simpl; lia]. }
    destruct (due_prefix x sorted Hs) as [rest Hrest]. rewrite Hrest, take_app. set_solver.
Qed.

Lemma tick_lookup s now i :
  Invoice.invoices (overdue_tick s now).1 !! i =
    (if decide (i ∈ Invoice.invoice_id <$> Invoice.find_overdue now 100 s.1) then Invoice.with_status Invoice.OVERDUE else id) <$> Invoice.invoices s.1 !! i.
Proof. rewrite overdue_tick_run. apply Invoice.sweep_lookup. Qed.

Lemma tick_db_ok s now : Invoice.db_ok s.1 → Invoice.db_ok (overdue_tick s now).1.
Proof. intros Hd. rewrite overdue_tick_run. by apply Invoice.sweep_ok. Qed.

(** Each tick takes a hundred off those waiting, or all of them. *)
Lemma tick_progress x s now : Invoice.db_ok s.1 → x < now →
  (length (waiting x (overdue_tick s now).1) + Nat.min 100 (length (waiting x s.1)) ≤ length (waiting x s.1))%nat.
Proof.
  intros Hd Hx. destruct (tick_takes x now s.1 Hx) as (first & Hperm & Hin).
  set (left_ := waiting x (overdue_tick s now).1). set (taken := take 100 first).
  assert (Hsub : ∀ r, r ∈ taken → r ∈ waiting x s.1) by (intros r Hr; rewrite <- Hperm; unfold taken in Hr; by eapply elem_of_take in Hr as (k & Hk%list_elem_of_lookup_2 & _)).
  assert (Hleft : ∀ i, i ∈ Invoice.invoice_id <$> left_ → i ∈ Invoice.invoice_id <$> waiting x s.1 ∧ i ∉ Invoice.invoice_id <$> taken).
  { intros i Hi. apply (waiting_elem x _ i (tick_db_ok s now Hd)) in Hi as (r & Hr & Hs & Hdue). rewrite tick_lookup in Hr.
    apply fmap_Some in Hr as (r0 & Hr0 & ->). case_decide as Hf; [done|]. simpl in Hs, Hdue. split.
    - apply waiting_elem; [done|]. by exists r0.
    - intros (r' & -> & Hr')%list_elem_of_fmap. apply Hf, list_elem_of_fmap. eauto. }
  assert (Hlen : length taken = Nat.min 100 (length (waiting x s.1))) by (unfold taken; by rewrite length_take, Hperm).
  rewrite <- Hlen, <- (length_fmap Invoice.invoice_id left_), <- (length_fmap Invoice.invoice_id taken), <- (length_fmap Invoice.invoice_id (waiting x s.1)), <- length_app.
  apply submseteq_length, NoDup_submseteq.
  - apply NoDup_app. split_and!; [apply waiting_nodup, tick_db_ok, Hd|intros i Hi; by apply Hleft|].
    eapply sublist_NoDup; [|apply fmap_sublist, sublist_take]. rewrite Hperm. by apply waiting_nodup.
  - intros i [Hi|(r & -> & Hr)%list_elem_of_fmap]%elem_of_app; [by apply Hleft|]. apply list_elem_of_fmap. eauto.
Qed.

(** A row through the ticks: the same, or from OPEN to OVERDUE. *)
Definition swept (r : Invoice.InvoiceRow) (o : option Invoice.InvoiceRow) : Prop :=
  o = Some r ∨ Invoice.status r = Invoice.status_value Invoice.OPEN ∧ o = Some (Invoice.with_status Invoice.OVERDUE r).

Lemma tick_row s now i r : Invoice.db_ok s.1 → Invoice.invoices s.1 !! i = Some r → swept r (Invoice.invoices (overdue_tick s now).1 !! i).
Proof.
  intros Hd Hr. rewrite tick_lookup, Hr. simpl. case_decide as Hi; [right|by left]. split; [|done].
  apply list_elem_of_fmap in Hi as (r' & -> & Hr'). apply Invoice.find_overdue_in in Hr' as ((j & Hj) & Hs & _).
  destruct (proj1 Hd j r' Hj) as [<- _]. congruence.
Qed.

Lemma ticks_row nows s i r : Invoice.db_ok s.1 → Invoice.invoices s.1 !! i = Some r →
  swept r (Invoice.invoices (fold_left overdue_tick nows s).1 !! i).
Proof.
  revert s r. induction nows as [|now nows IH]; intros s r Hd Hr; cbn [fold_left]; [by left|].
  destruct (tick_row s now i r Hd Hr) as [Hl|[Ho Hl]].
  - apply IH; [by apply tick_db_ok|done].
  - right. split; [done|]. by destruct (IH _ _ (tick_db_ok s now Hd) Hl) as [?|[??]].
Qed.

Lemma ticks_progress x nows s : Invoice.db_ok s.1 → Forall (λ now, x < now) nows → (length (waiting x s.1) ≤ 100 * length nows)%nat →
  waiting x (fold_left overdue_tick nows s).1 = [] ∧ Invoice.db_ok (fold_left overdue_tick nows s).1.
Proof.
  intros Hd Hn. revert s Hd. induction Hn as [|now nows Hx _ IH]; intros s Hd Hlen; cbn [fold_left length] in *.
  - split; [|done]. apply nil_length_inv. lia.
  - apply IH; [by apply tick_db_ok|]. pose proof (tick_progress x s now Hd Hx). lia.
Qed.
End overdue_sweeper.

(** C16: the overdue sweep always catches up.  Although a tick flips at most a hundred invoices, ticks at
    any times after an invoice's due date flip it as soon as a hundred times their number covers the OPEN invoices
    due no later than it: those that fall due afterwards never delay it.  Every other invoice of the
    database is as it was, or went from OPEN to OVERDUE. *)
Theorem overdue_backlog_clears (uuid_str : uuid → string) (iso : Z → string) (s : Invoice.idb * Invoice.iworld) (nows : list Z)
    (i : uuid) (r : Invoice.InvoiceRow)
    (Hok : Invoice.db_ok s.1) (Hr : Invoice.invoices s.1 !! i = Some r) (Hopen : Invoice.status r = Invoice.status_value Invoice.OPEN)
    (Hlate : Forall (λ now, Invoice.due_at r < now) nows) (Henough : (length (waiting (Invoice.due_at r) s.1) ≤ 100 * length nows)%nat) :
  let s' := fold_left (overdue_tick uuid_str iso) nows s in
  Invoice.invoices s'.1 !! i = Some (Invoice.with_status Invoice.OVERDUE r) ∧
  ∀ j r', Invoice.invoices s.1 !! j = Some r' → swept r' (Invoice.invoices s'.1 !! j).
Proof.
  intros s'. destruct (ticks_progress uuid_str iso (Invoice.due_at r) nows s Hok Hlate Henough) as [Hnone Hok'].
  split.
  - destruct (ticks_row uuid_str iso nows s i r Hok Hr) as [Hrow|[_ Hrow]]; [|done]. fold s' in Hrow, Hnone, Hok'. exfalso.
    assert (Hw : i ∈ Invoice.invoice_id <$> waiting (Invoice.due_at r) s'.1) by (apply (waiting_elem (Invoice.due_at r) s'.1 i Hok'); exists r; split_and!; (done || lia)).
    rewrite Hnone in Hw. by apply elem_of_nil in Hw.
  - intros j r' Hr'. by apply ticks_row.
Qed.

(** ** Concrete runs *)

Definition demo_redis : gmap_redis := ∅.

Lemma demo_redis_free t service scope k : r_get t (Idem.dedupe_key service scope k) demo_redis = None.
Proof. simpl. unfold gr_get, demo_redis. by rewrite lookup_empty. Qed.

(** A handler that fails on some events. *)
Definition demo_process (e : delivery) (w : list string) : outcome unit unit * list string :=
  (if bool_decide (ev_name e = "bad") then Raise tt else Ok tt, w ++ [ev_name e]).

Definition demo_deliveries : list delivery :=
  [mkDelivery 0 "a" [("k", JInt 1); ("l", JInt 2)]; mkDelivery 5 "a" [("l", JInt 2); ("k", JInt 1)]; mkDelivery 6 "bad" []; mkDelivery 7 "bad" [];
   mkDelivery 70 "a" [("k", JInt 1); ("l", JInt 2)]].

Lemma consumer_dedupe_exact_witness :
  (consume_all id "s" 60 demo_process demo_deliveries (demo_redis, [])).2.2 = ["a"; "bad"; "bad"; "a"].
Proof.
  pose proof (consumer_dedupe_exact id "s" 60 demo_process demo_deliveries demo_redis []) as Hd.
  destruct (consume_all id "s" 60 demo_process demo_deliveries (demo_redis, [])) as [rs [s' w']]. simpl.
  enough (reference (E := unit) 60 demo_process demo_deliveries [] [] = (rs, w')) as Hr by (vm_compute in Hr; by injection Hr as _ <-).
  apply Hd; [repeat constructor; simpl; lia|repeat constructor|by intros e e' _ _|intros t scope k; apply demo_redis_free].
Defined.

Definition demo_merchants : Merchant.mdb :=
  Merchant.mkMdb {[5%N := Merchant.mkMerchant 7 "Duka" None "KE" "company" "ACTIVE" "standard" (Some 1) None None]} ∅ ∅ [] [].
Definition demo_admin : Identity.AccessClaims :=
  Identity.mkClaims "1" [Identity.mkOrgRole (uuid_text 7) "admin" None] [] 0 "j" "s" false [] 0 0.
Definition demo_tiers : Pricing.pdb :=
  Pricing.mkPdb {["startup" := Pricing.mkTierRow "startup" "Startup" 150 0 "KES" true; "enterprise" := Pricing.mkTierRow "enterprise" "Enterprise" 90 0 "KES" true]} [] ∅ [] [] [] 1 [] [].

Lemma fee_tier_toggle_lost_witness :
  let '(md', mx') := Merchant.serve_all uuid_text Merchant.demo_cfg String.append (demo_merchants, Merchant.mkMW [] ∅) (toggle demo_admin 5 "startup" "enterprise") in
  let '(rs, (_, (pd', _))) := consume_all id "fee-pricing-service" 86400 pricing_process (delivered [10; 20; 30] (Merchant.m_published mx')) (demo_redis, (demo_tiers, Pricing.mkPW ∅ [] [])) in
  rs = [Ok tt; Ok tt; Ok tt] ∧
  Merchant.fee_tier <$> Merchant.merchants md' !! 5%N = Some "startup" ∧
  Pricing.mp_tier <$> Pricing.merchant_pricing pd' !! 5%N = Some "enterprise".
Proof.
  apply (fee_tier_toggle_lost id "fee-pricing-service" 86400 Merchant.demo_cfg String.append demo_admin 5 "startup" "enterprise" "admin"
    (Merchant.mkMerchant 7 "Duka" None "KE" "company" "ACTIVE" "standard" (Some 1) None None) demo_merchants (Merchant.mkMW [] ∅)
    demo_tiers (Pricing.mkPW ∅ [] []) demo_redis 10 20 30).
  - reflexivity.
  - reflexivity.
  - vm_compute. reflexivity.
  - unfold Merchant.FeeTiers. set_solver.
  - unfold Merchant.FeeTiers. set_solver.
  - discriminate.
  - reflexivity.
  - eexists. reflexivity.
  - eexists. reflexivity.
  - lia.
  - vm_compute. discriminate.
  - intros t scope k. apply demo_redis_free.
Defined.

Definition demo_accrued : Pricing.pdb * Pricing.pworld :=
  Pricing.bill_request Pricing.demo_settings (λ _, "") (Pricing.RecordAccrual 7%N 250 "kes" "pay-1" 1709251200 None) (Pricing.empty_db, Pricing.mkPW ∅ [] []).

Lemma demo_accrued_books : Pricing.books_ok demo_accrued.1.
Proof.
  apply Pricing.bill_request_ok; [simpl; lia|]. unfold Pricing.books_ok. simpl. split_and!; try constructor. intros a inv Hin. set_solver.
Qed.

(** The sweeper ticks on the first of March; a payment of the second is not billed by a tick in
    April, nor by a run for March. *)
Lemma sweeper_misses_rest_of_month_witness :
  let run := billing_run Pricing.demo_settings (λ _, "") in
  let s := pricing_tick Pricing.demo_settings (λ _, "") demo_accrued (N.of_nat, 1709251210) in
  ∃ a, a ∈ Pricing.accruals (fold_left run [Tick (λ k, N.of_nat (k + 40)) 1711929600; Request (Pricing.Generate (λ k, N.of_nat (k + 60)) "2024-03" None)]
         (run s (Request (Pricing.RecordAccrual 7%N 80 "kes" "pay-2" 1709340000 None)))).1 ∧
    Pricing.a_merchant a = 7%N ∧ Pricing.a_source_ref a = "pay-2" ∧ Pricing.a_amount a = 80 ∧ Pricing.a_invoice_id a = None.
Proof.
  apply (sweeper_misses_rest_of_month Pricing.demo_settings (λ _, "") N.of_nat 1709251210 1709340000 demo_accrued.1 demo_accrued.2
    (Pricing.mkAccrual 1 7%N "2024-03" 250 "KES" "pay-1" None None 1709251200) 80 "kes" "pay-2" None []
    [Tick (λ k, N.of_nat (k + 40)) 1711929600; Request (Pricing.Generate (λ k, N.of_nat (k + 60)) "2024-03" None)]).
  - exact demo_accrued_books.
  - apply (list_elem_of_lookup_2 _ 0). vm_compute. reflexivity.
  - vm_compute. reflexivity.
  - constructor.
  - repeat constructor.
  - vm_compute. reflexivity.
  - vm_compute. split; [discriminate|reflexivity].
  - vm_compute. reflexivity.
Defined.

Lemma overdue_backlog_clears_witness :
  ∃ r, Invoice.invoices Invoice.demo_state.1 !! 2%N = Some r ∧ Invoice.status r = "OPEN" ∧
    Invoice.invoices (fold_left (overdue_tick Invoice.demo_uuid Invoice.demo_iso) [50] Invoice.demo_state).1 !! 2%N =
      Some (Invoice.with_status Invoice.OVERDUE r).
Proof.
  destruct (Invoice.invoices Invoice.demo_state.1 !! 2%N) as [r|] eqn:E; [|by vm_compute in E]. exists r. split; [reflexivity|].
  assert (Hr : Invoice.status r = "OPEN" ∧ Invoice.due_at r < 50 ∧ (length (waiting (Invoice.due_at r) Invoice.demo_state.1) ≤ 100 * 1)%nat).
  { vm_compute in E. injection E as <-. split_and!; [reflexivity|vm_compute; reflexivity|vm_compute; lia]. }
  destruct Hr as (Hs & Hdue & Hlen). split; [exact Hs|].
  apply (overdue_backlog_clears Invoice.demo_uuid Invoice.demo_iso Invoice.demo_state [50] 2 r).
  - apply (Invoice.serve_all_kept (H0 := Invoice.demo_port) Invoice.demo_uuid Invoice.demo_iso Invoice.demo_reqs Invoice.start Invoice.start_sound).
  - exact E.
  - exact Hs.
  - by constructor.
  - exact Hlen.
Defined.
End Runners.
