(* ===== verification/Lifespan.v ===== *)
(** * Start-up and shutdown of the services

    [lifespan] of the eight [app/main.py]: what each service puts on [app.state] at start-up, in order
    (database engine, Redis, HTTP client, background tasks started by their settings), and the [finally] block
    that cancels the tasks and closes the rest.  A step of the start-up may raise; the exceptions
    of brokers and clients are the fields of [env]. *)
From S2P Require Import Prelude Settings.

Module Lifespan.

(** What a service owns between start-up and shutdown. *)
Inductive owned := Telemetry | Engine | Redis | BrokerRedis | HttpClient | RelayTask | SweepTask | BusTask.

#[global] Instance owned_eq_dec : EqDecision owned.
Proof. solve_decision. Defined.

(** The settings that start background tasks. *)
Record flags := mkFlags {
  kafka_publisher : bool;  (** [event_publisher_mode == "kafka"] *)
  event_consumer_enabled : bool;
  sweep_enabled : bool }.

Definition is_true (v : option Settings.value) : bool := match v with Some (Settings.VBool b) => b | _ => false end.

(** The flags of loaded settings; a service has one of the two sweepers, or none. *)
Definition flags_of (st : list (string * Settings.value)) : flags :=
  mkFlags (bool_decide (Settings.get_str "event_publisher_mode" st = "kafka")) (is_true (Settings.get "event_consumer_enabled" st))
    (is_true (Settings.get "overdue_sweep_enabled" st) || is_true (Settings.get "invoice_sweep_enabled" st)).

(** One statement of the start-up: an attribute of [app.state], computed from those read; one that also
    opens something; a task, when enabled, which reads [app.state] as it runs. *)
Inductive step :=
| Assign (attr : string) (reads : list string)
| Open (attr : string) (o : owned)
| Spawn (attr : string) (o : owned) (enabled : flags → bool) (reads : list string).

(** One statement of the [finally] block: cancel and await a task that was started, or close. *)
Inductive stop_step :=
| Cancel (o : owned)
| Close (o : owned).

Record service := mkService {
  title : string;
  startup : list step;
  shutdown : list stop_step;
  request_reads : list string  (** [app.state] as [deps.py], the routes and the probes read it *) }.

(** What can go wrong: an expression of the start-up, the bus clients, a close. *)
Record env := mkEnv {
  assign_raises : string → option pyerr;
  producer_start : option pyerr;
  producer_stop : option pyerr;
  consumer_start : option pyerr;
  consumer_turns : list (option pyerr);  (** [getmany] and [commit] of each turn so far *)
  consumer_stop : option pyerr;
  close_raises : owned → option pyerr }.

(** ** How a background task ends when it is cancelled and awaited

    The exception other than [CancelledError] that [await task] raises, if any. *)

(** The first exception of the turns. *)
Definition first_error (l : list (option pyerr)) : option pyerr := head (omap id l).

(** [OutboxRelay.run]: a failed start ends it; the loop swallows the exceptions of a drain. *)
Definition relay_end (e : env) : option pyerr :=
  match producer_start e with Some x => Some x | None => producer_stop e end.

(** [KafkaConsumer.run]: a failed start ends it, and so does any exception of a turn, after [stop]. *)
Definition consumer_end (e : env) : option pyerr :=
  match consumer_start e with
  | Some x => Some x
  | None => match consumer_stop e with Some x => Some x | None => first_error (consumer_turns e) end
  end.

(** [sweeper.run]: the loop swallows the exceptions of a sweep. *)
Definition sweeper_end (e : env) : option pyerr := None.

Definition task_end (e : env) (o : owned) : option pyerr :=
  match o with
  | RelayTask => relay_end e
  | BusTask => consumer_end e
  | SweepTask => sweeper_end e
  | _ => None
  end.

(** ** Running the two halves *)

(** The attributes set and what is owned, also where the start-up raises. *)
Fixpoint start (fl : flags) (e : env) (steps : list step) (attrs : list string) (held : list owned) :
    outcome pyerr unit * list string * list owned :=
  match steps with
  | [] => (Ok tt, attrs, held)
  | Assign a reads :: rest =>
      if bool_decide (reads ⊆ attrs) then
        match assign_raises e a with
        | None => start fl e rest (a :: attrs) held
        | Some x => (Raise x, attrs, held)
        end
      else (Raise AttributeError, attrs, held)
  | Open a o :: rest =>
      match assign_raises e a with
      | None => start fl e rest (a :: attrs) (o :: held)
      | Some x => (Raise x, attrs, held)
      end
  | Spawn a o enabled _ :: rest =>
      if enabled fl then
        match assign_raises e a with
        | None => start fl e rest (a :: attrs) (o :: held)
        | Some x => (Raise x, attrs, held)
        end
      else start fl e rest (a :: attrs) held
  end.

(** [app.state.settings] is set by [create_app]. *)
Definition start_service (fl : flags) (e : env) (s : service) : outcome pyerr unit * list string * list owned :=
  start fl e (startup s) ["settings"] [].

(** What is still owned afterwards. *)
Fixpoint stop (e : env) (steps : list stop_step) (held : list owned) : outcome pyerr unit * list owned :=
  match steps with
  | [] => (Ok tt, held)
  | Cancel o :: rest =>
      if bool_decide (o ∈ held) then
        let held' := filter (λ o', o' ≠ o) held in
        match task_end e o with
        | None => stop e rest held'
        | Some x => (Raise x, held')
        end
      else stop e rest held
  | Close o :: rest =>
      match close_raises e o with
      | None => stop e rest (filter (λ o', o' ≠ o) held)
      | Some x => (Raise x, held)
      end
  end.

(** ** The eight services *)

Definition relay_reads : list string := ["sessionmaker"; "settings"].

Definition identity : service := mkService "identity-service"
  [Open "otel_shutdown" Telemetry; Open "engine" Engine; Assign "sessionmaker" ["engine"]; Open "redis" Redis;
   Assign "idempotency" ["redis"; "settings"]; Assign "publisher" ["settings"]; Spawn "relay_task" RelayTask kafka_publisher relay_reads;
   Assign "keys" ["settings"]; Assign "jwt_issuer" ["keys"; "settings"]; Assign "jwt_verifier" ["keys"; "settings"];
   Assign "passwords" ["settings"]; Assign "mfa_cipher" ["settings"]; Assign "oauth_resolver" ["settings"]; Assign "failed_login" ["redis"];
   Spawn "bus_task" BusTask event_consumer_enabled
     ["settings"; "sessionmaker"; "publisher"; "passwords"; "jwt_issuer"; "mfa_cipher"; "oauth_resolver"; "failed_login"]]
  [Cancel RelayTask; Cancel BusTask; Close Redis; Close Engine; Close Telemetry]
  ["settings"; "idempotency"; "sessionmaker"; "publisher"; "passwords"; "jwt_issuer"; "mfa_cipher"; "oauth_resolver"; "failed_login";
   "jwt_verifier"; "keys"; "redis"].

Definition paylink : service := mkService "paylink-service"
  [Open "otel_shutdown" Telemetry; Open "engine" Engine; Assign "sessionmaker" ["engine"]; Open "redis" Redis;
   Assign "idempotency" ["redis"; "settings"]; Open "http" HttpClient; Assign "chain_client" ["http"; "settings"]; Assign "signer" ["settings"];
   Assign "nonces" ["chain_client"]; Assign "publisher" ["settings"]; Spawn "relay_task" RelayTask kafka_publisher relay_reads;
   Assign "compliance_client" ["http"; "settings"]; Assign "notification_client" ["http"; "settings"]]
  [Cancel RelayTask; Close HttpClient; Close Redis; Close Engine; Close Telemetry]
  ["settings"; "idempotency"; "sessionmaker"; "chain_client"; "signer"; "nonces"; "publisher"; "compliance_client"; "notification_client"; "redis"].

Definition invoice : service := mkService "invoice-subscription"
  [Open "otel_shutdown" Telemetry; Open "engine" Engine; Assign "sessionmaker" ["engine"]; Open "redis" Redis;
   Assign "idempotency" ["redis"; "settings"]; Assign "publisher" ["settings"]; Open "http_client" HttpClient;
   Assign "paylink_client" ["http_client"; "settings"]; Assign "jwt_verifier" ["settings"]; Spawn "relay_task" RelayTask kafka_publisher relay_reads;
   Spawn "sweep_task" SweepTask sweep_enabled ["settings"; "sessionmaker"; "publisher"; "paylink_client"];
   Spawn "bus_task" BusTask event_consumer_enabled ["settings"; "redis"; "sessionmaker"; "publisher"; "paylink_client"]]
  [Cancel BusTask; Cancel SweepTask; Cancel RelayTask; Close HttpClient; Close Redis; Close Engine; Close Telemetry]
  ["settings"; "idempotency"; "sessionmaker"; "publisher"; "paylink_client"; "jwt_verifier"; "redis"].

Definition merchant : service := mkService "merchant-onboarding"
  [Open "otel_shutdown" Telemetry; Open "engine" Engine; Assign "sessionmaker" ["engine"]; Open "redis" Redis;
   Assign "idempotency" ["redis"; "settings"]; Assign "publisher" ["settings"]; Spawn "relay_task" RelayTask kafka_publisher relay_reads;
   Assign "jwt_verifier" ["settings"]; Assign "bank_cipher" ["settings"]; Assign "object_store" ["settings"];
   Spawn "bus_task" BusTask event_consumer_enabled ["settings"; "sessionmaker"; "publisher"; "bank_cipher"; "object_store"]]
  [Cancel RelayTask; Cancel BusTask; Close Redis; Close Engine; Close Telemetry]
  ["settings"; "idempotency"; "sessionmaker"; "publisher"; "bank_cipher"; "object_store"; "jwt_verifier"; "redis"].

Definition compliance : service := mkService "compliance-risk"
  [Open "otel_shutdown" Telemetry; Open "engine" Engine; Assign "sessionmaker" ["engine"]; Open "redis" Redis;
   Assign "idempotency" ["redis"; "settings"]; Assign "publisher" ["settings"]; Spawn "relay_task" RelayTask kafka_publisher relay_reads;
   Open "http_client" HttpClient; Assign "provider_registry" ["http_client"; "settings"]; Assign "provider_cipher" ["settings"];
   Assign "jwt_verifier" ["settings"];
   Spawn "bus_task" BusTask event_consumer_enabled ["settings"; "sessionmaker"; "publisher"; "provider_cipher"]]
  [Cancel RelayTask; Cancel BusTask; Close HttpClient; Close Redis; Close Engine; Close Telemetry]
  ["settings"; "idempotency"; "sessionmaker"; "publisher"; "provider_cipher"; "provider_registry"; "jwt_verifier"; "redis"].

Definition pricing : service := mkService "fee-pricing-service"
  [Open "otel_shutdown" Telemetry; Open "engine" Engine; Assign "sessionmaker" ["engine"]; Open "redis" Redis;
   Assign "idempotency" ["redis"; "settings"]; Assign "publisher" ["settings"]; Open "http_client" HttpClient;
   Assign "fx_provider" ["http_client"; "settings"]; Assign "ledger_poster" []; Assign "jwt_verifier" ["settings"];
   Spawn "relay_task" RelayTask kafka_publisher relay_reads;
   Spawn "sweep_task" SweepTask sweep_enabled ["settings"; "sessionmaker"; "publisher"; "fx_provider"; "redis"; "ledger_poster"];
   Spawn "bus_task" BusTask event_consumer_enabled ["settings"; "redis"; "sessionmaker"; "publisher"; "fx_provider"; "ledger_poster"]]
  [Cancel BusTask; Cancel SweepTask; Cancel RelayTask; Close HttpClient; Close Redis; Close Engine; Close Telemetry]
  ["settings"; "idempotency"; "sessionmaker"; "publisher"; "fx_provider"; "redis"; "ledger_poster"; "jwt_verifier"].

Definition notification : service := mkService "notification-service"
  [Open "otel_shutdown" Telemetry; Open "engine" Engine; Assign "sessionmaker" ["engine"]; Open "redis" Redis; Open "broker_redis" BrokerRedis;
   Assign "idempotency" ["redis"; "settings"]; Open "http_client" HttpClient; Assign "recipient_resolver" ["http_client"; "settings"];
   Assign "enqueue" []; Spawn "bus_task" BusTask event_consumer_enabled ["settings"; "redis"; "sessionmaker"; "recipient_resolver"; "enqueue"]]
  [Cancel BusTask; Close HttpClient; Close Redis; Close BrokerRedis; Close Engine; Close Telemetry]
  ["settings"; "idempotency"; "sessionmaker"; "recipient_resolver"; "enqueue"; "redis"; "broker_redis"].

Definition admin : service := mkService "admin-backoffice"
  [Open "otel_shutdown" Telemetry; Open "engine" Engine; Assign "sessionmaker" ["engine"]; Open "redis" Redis; Open "http_client" HttpClient;
   Assign "providers" ["http_client"; "settings"]; Assign "audit" ["http_client"; "settings"]; Assign "jwt_verifier" ["settings"];
   Assign "services" ["providers"; "audit"; "settings"]]
  [Close HttpClient; Close Redis; Close Engine; Close Telemetry]
  ["settings"; "providers"; "audit"; "services"; "sessionmaker"; "jwt_verifier"; "redis"].

Definition services : list service := [identity; paylink; invoice; merchant; compliance; pricing; notification; admin].

(** ** Start-up *)

(** The attributes set before each task, with what it reads. *)
Fixpoint spawned_ready (attrs : list string) (steps : list step) : bool :=
  match steps with
  | [] => true
  | Assign a _ :: rest | Open a _ :: rest => spawned_ready (a :: attrs) rest
  | Spawn a _ _ reads :: rest => bool_decide (reads ⊆ attrs) && spawned_ready (a :: attrs) rest
  end.

Definition quiet : env := mkEnv (λ _, None) None None None [] None (λ _, None).

(** Without an exception, the start-up does not depend on the environment. *)
Lemma start_quiet fl e steps attrs held :
  (∀ a, assign_raises e a = None) → start fl e steps attrs held = start fl quiet steps attrs held.
Proof.
  intros He. revert attrs held. induction steps as [|[a reads|a o|a o enabled reads] rest IH]; intros attrs held; simpl; rewrite ?He; auto.
  - by destruct (bool_decide _).
  - by destruct (enabled fl).
Qed.

Definition starts_ok (s : service) (fl : flags) : bool :=
  let '(r, attrs, held) := start_service fl quiet s in
  is_ok r && bool_decide (request_reads s ⊆ attrs) && spawned_ready ["settings"] (startup s) &&
  bool_decide (NoDup held) && bool_decide (Telemetry ∈ held ∧ Engine ∈ held ∧ Redis ∈ held).

Lemma all_flags (P : flags → Prop) : (∀ a b c, P (mkFlags a b c)) → ∀ fl, P fl.
Proof. by intros H [a b c]. Qed.

Lemma services_start s fl : s ∈ services → starts_ok s fl = true.
Proof.
  intros Hs. revert fl. apply all_flags. intros a b c. unfold services in Hs.
  repeat (apply elem_of_cons in Hs as [->|Hs]; [by destruct a, b, c; vm_compute|]). by apply elem_of_nil in Hs.
Qed.

(** the start-up wires what the rest reads.  In each of the eight services, for all settings of its
    background tasks and as long as no expression raises, the start-up reads no attribute of [app.state] before
    setting it, sets every attribute that the dependencies, routes and probes read, and creates each
    background task only once all that the task reads is set. *)
Theorem startup_wires_state (s : service) (fl : flags) (e : env) (Hs : s ∈ services) (He : ∀ a, assign_raises e a = None) :
  let '(r, attrs, _) := start_service fl e s in
  r = Ok tt ∧ request_reads s ⊆ attrs ∧ spawned_ready ["settings"] (startup s) = true.
Proof.
  unfold start_service. rewrite start_quiet by done. pose proof (services_start s fl Hs) as Hok. unfold starts_ok, start_service in Hok.
  destruct (start _ _ _ _ _) as [[[[]|x] attrs] held]; [|done]. rewrite !andb_true_iff, !bool_decide_eq_true in Hok. naive_solver.
Qed.

(** ** Shutdown *)

Definition owner (st : stop_step) : owned := match st with Cancel o | Close o => o end.

Definition cancelled (steps : list stop_step) : list owned := omap (λ st, match st with Cancel o => Some o | Close _ => None end) steps.

(** Every task is cancelled before anything is closed. *)
Fixpoint tasks_first (steps : list stop_step) : bool :=
  match steps with
  | [] => true
  | Cancel _ :: rest => tasks_first rest
  | Close _ :: rest => bool_decide (cancelled rest = [])
  end.

Lemma filter_without (o : owned) (l held : list owned) : o ∉ held →
  filter (λ o', o' ∉ l) held = filter (λ o', o' ∉ o :: l) held.
Proof.
  induction held as [|h held IH]; intros Hn; [done|]. apply not_elem_of_cons in Hn as [Hne Hn]. rewrite !filter_cons, IH by done.
  repeat case_decide; set_solver.
Qed.

Lemma stop_clean e steps held :
  (∀ o, o ∈ held → task_end e o = None) → (∀ o, close_raises e o = None) →
  stop e steps held = (Ok tt, filter (λ o, o ∉ owner <$> steps) held).
Proof.
  intros He Hc. revert held He. induction steps as [|[o|o] rest IH]; intros held He; simpl.
  - f_equal. rewrite filter_all; [done|]. intros o _. apply not_elem_of_nil.
  - case_bool_decide as Ho.
    + rewrite He by done. rewrite IH by (intros o' [_ Ho']%list_elem_of_filter; auto).
      f_equal. rewrite list_filter_filter. apply list_filter_iff. set_solver.
    + rewrite IH by done. f_equal. by apply filter_without.
  - rewrite Hc, IH by (intros o' [_ Ho']%list_elem_of_filter; auto).
    f_equal. rewrite list_filter_filter. apply list_filter_iff. set_solver.
Qed.

(** The first task that ended with an exception stops the shutdown. *)
Lemma stop_dead e steps held o x :
  tasks_first steps = true → o ∈ cancelled steps → o ∈ held → task_end e o = Some x →
  ∃ y held', stop e steps held = (Raise y, held') ∧ ∀ o', o' ∈ held → o' ∉ cancelled steps → o' ∈ held'.
Proof.
  revert held. induction steps as [|[o1|o1] rest IH]; intros held Hf Hc Ho Hx; simpl in *; [by apply elem_of_nil in Hc| |].
  - case_bool_decide as Ho1.
    + destruct (task_end e o1) as [y|] eqn:Ey.
      { exists y, (filter (λ o', o' ≠ o1) held). split; [done|]. intros o' Ho' Hn. apply list_elem_of_filter. set_solver. }
      assert (o ≠ o1) by congruence. destruct (IH (filter (λ o', o' ≠ o1) held)) as (y & held' & Hst & Hkeep); [done|set_solver| |done|].
      { by apply list_elem_of_filter. }
      exists y, held'. split; [done|]. intros o' Ho' Hn. apply Hkeep; [apply list_elem_of_filter; set_solver|set_solver].
    + destruct (IH held) as (y & held' & Hst & Hkeep); [done|set_solver|done|done|]. exists y, held'. split; [done|].
      intros o' Ho' Hn. apply Hkeep; set_solver.
  - rewrite bool_decide_eq_true in Hf. rewrite Hf in Hc. by apply elem_of_nil in Hc.
Qed.

Definition stops_ok (s : service) (fl : flags) : bool :=
  let held := (start_service fl quiet s).2 in
  tasks_first (shutdown s) && bool_decide (held ⊆ owner <$> shutdown s) &&
  bool_decide (filter (λ o, o ∈ [RelayTask; SweepTask; BusTask]) held ⊆ cancelled (shutdown s)) &&
  bool_decide (Forall (λ o, o ∈ [RelayTask; SweepTask; BusTask]) (cancelled (shutdown s))).

Lemma services_stop s fl : s ∈ services → stops_ok s fl = true.
Proof.
  intros Hs. revert fl. apply all_flags. intros a b c. unfold services in Hs.
  repeat (apply elem_of_cons in Hs as [->|Hs]; [by destruct a, b, c; vm_compute|]). by apply elem_of_nil in Hs.
Qed.

Lemma task_end_some e o x : task_end e o = Some x → o ∈ [RelayTask; SweepTask; BusTask].
Proof. destruct o; set_solver. Qed.

(** C31: a shutdown is complete exactly when no background task has died.  In each of the eight services, after a
    start-up without exceptions and with nothing raised by a close: the shutdown ends without an
    exception and with everything released exactly when no background task of the service has ended with an
    exception (a bus client that could not start, a poll or commit that failed); otherwise the shutdown raises at the first
    such task, and the HTTP client, Redis, the database engine and telemetry are left open. *)
Theorem shutdown_complete_iff_tasks_alive (s : service) (fl : flags) (e : env)
    (Hs : s ∈ services) (Hstart : ∀ a, assign_raises e a = None) (Hclose : ∀ o, close_raises e o = None) :
  let held := (start_service fl e s).2 in
  let '(r, held') := stop e (shutdown s) held in
  (r = Ok tt ∧ held' = [] ↔ ∀ o, o ∈ held → task_end e o = None) ∧
  (∀ o x, o ∈ held → task_end e o = Some x →
     is_ok r = false ∧ Redis ∈ held' ∧ Engine ∈ held' ∧ Telemetry ∈ held' ∧ (HttpClient ∈ held → HttpClient ∈ held')).
Proof.
  intros held0. unfold held0, start_service. clear held0. rewrite (start_quiet fl e) by done. pose proof (services_start s fl Hs) as Hok. pose proof (services_stop s fl Hs) as Hst.
  unfold starts_ok, stops_ok, start_service in *. destruct (start fl quiet (startup s) _ _) as [[r0 attrs] held]. cbn [snd] in *.
  rewrite !andb_true_iff, !bool_decide_eq_true in Hok, Hst. destruct Hok as (_ & Ht & He & Hr), Hst as (((Hfirst & Hall) & Htasks) & Hcan). apply bool_decide_eq_true in Hcan.
  assert (Hdead : ∀ o x, o ∈ held → task_end e o = Some x → ∃ y held', stop e (shutdown s) held = (Raise y, held') ∧
    ∀ o', o' ∈ held → o' ∉ cancelled (shutdown s) → o' ∈ held').
  { intros o x Ho Hx. apply (stop_dead e (shutdown s) held o x); try done. apply Htasks, list_elem_of_filter. split; [by eapply task_end_some|done]. }
  assert (Hnot : ∀ o, o ∉ [RelayTask; SweepTask; BusTask] → o ∉ cancelled (shutdown s)) by (intros o Hn Ho; by apply Hn, (proj1 (Forall_forall _ _) Hcan)).
  destruct (stop e (shutdown s) held) as [r held'] eqn:Estop. split; [split|].
  - intros [-> ->] o Ho. destruct (task_end e o) as [x|] eqn:Ex; [|done]. destruct (Hdead o x Ho Ex) as (y & h & [=] & _).
  - intros Hall0. rewrite (stop_clean e (shutdown s) held Hall0 Hclose) in Estop. injection Estop as <- <-. split; [done|].
    apply filter_none. intros o Ho Hn. by apply Hn, Hall.
  - intros o x Ho Hx. destruct (Hdead o x Ho Hx) as (y & h & [= -> ->] & Hkeep). split; [done|].
    split_and!; [| | |intros ?]; apply Hkeep; try done; apply Hnot; set_solver.
Qed.

(** *** A broker that is down *)

(** a consumer whose broker is down when it starts takes the shutdown with it: with the consumer
    enabled, every service that has one exits with the broker's exception. *)
Theorem broker_down_breaks_shutdown (s : service) (fl : flags) (e : env) (x : pyerr)
    (Hs : s ∈ [identity; invoice; merchant; compliance; pricing; notification]) (Hstart : ∀ a, assign_raises e a = None)
    (Hclose : ∀ o, close_raises e o = None) (Hon : event_consumer_enabled fl = true) (Hdown : consumer_start e = Some x) :
  is_ok (stop e (shutdown s) (start_service fl e s).2).1 = false.
Proof.
  assert (Hin : s ∈ services) by (unfold services; set_solver).
  unfold start_service. rewrite start_quiet by done.
  assert (Hbus : BusTask ∈ (start fl quiet (startup s) ["settings"] []).2 ∧ BusTask ∈ cancelled (shutdown s) ∧ tasks_first (shutdown s) = true).
  { revert Hon. pattern fl. apply all_flags. intros a b c. simpl. intros ->.
    repeat (apply elem_of_cons in Hs as [->|Hs]; [by destruct a, c; split_and!; apply (bool_decide_unpack _); vm_compute|]). by apply elem_of_nil in Hs. }
  destruct Hbus as (Hh & Hc & Hf). destruct (stop_dead e (shutdown s) _ BusTask x Hf Hc Hh) as (y & h & -> & _); [|done].
  simpl. unfold consumer_end. by rewrite Hdown.
Qed.

(** with the default settings no service starts a relay or a consumer, so none needs a broker; the two sweepers run. *)
Theorem defaults_need_no_broker `{!Settings.BaseSettings, !Settings.BaseSettingsLaws} (e : env) (He : ∀ a, assign_raises e a = None) :
  Forall2 (λ m s, match Settings.load m [] with
    | Ok st => let held := (start_service (flags_of st) e s).2 in
        RelayTask ∉ held ∧ BusTask ∉ held ∧ (SweepTask ∈ held ↔ title s ∈ ["invoice-subscription"; "fee-pricing-service"])
    | Raise _ => False
    end) Settings.models services.
Proof.
  unfold Settings.models, services, start_service.
  repeat (constructor; [rewrite Settings.load_defaults, start_quiet by done; cbv zeta; split_and!; apply (bool_decide_unpack _); by vm_compute|]).
  constructor.
Qed.

(** ** Concrete runs *)

Lemma startup_wires_state_witness :
  let '(r, attrs, _) := start_service (mkFlags true true true) quiet pricing in
  r = Ok tt ∧ request_reads pricing ⊆ attrs ∧ spawned_ready ["settings"] (startup pricing) = true.
Proof. apply (startup_wires_state pricing (mkFlags true true true) quiet); [unfold services; set_solver|done]. Defined.

(** identity-service with a broker that is down. *)
Definition broker_down : env := mkEnv (λ _, None) None None (Some OSError) [] None (λ _, None).

Lemma shutdown_complete_iff_tasks_alive_witness :
  stop quiet (shutdown identity) (start_service (mkFlags true true false) quiet identity).2 = (Ok tt, []) ∧
  Engine ∈ (stop broker_down (shutdown identity) (start_service (mkFlags true true false) broker_down identity).2).2.
Proof.
  split.
  - pose proof (shutdown_complete_iff_tasks_alive identity (mkFlags true true false) quiet) as Hc.
    cbv zeta in Hc. revert Hc. generalize (stop quiet (shutdown identity) (start_service (mkFlags true true false) quiet identity).2). intros [r held'] Hc. destruct Hc as [[_ Hc] _]; [unfold services; set_solver|done|done|].
    assert (Hr : ∀ o, o ∈ (start_service (mkFlags true true false) quiet identity).2 → task_end quiet o = None) by (intros o _; by destruct o).
    by destruct (Hc Hr) as [-> ->].
  - pose proof (shutdown_complete_iff_tasks_alive identity (mkFlags true true false) broker_down) as Hc.
    cbv zeta in Hc. revert Hc. generalize (stop broker_down (shutdown identity) (start_service (mkFlags true true false) broker_down identity).2). intros [r held'] Hc. destruct Hc as [_ Hc]; [unfold services; set_solver|done|done|].
    apply (Hc BusTask OSError); [by apply (bool_decide_unpack _); vm_compute|done].
Defined.
End Lifespan.
