(* ===== verification/ConsoleFlows.v ===== *)
(** * The ops console over the services it reads

    admin-backoffice composed with identity-service's lookup ([Lookup]) and paylink-service's
    listing ([PayLink]): what its views and searches show when these services answer its HTTP calls. *)
From S2P Require Import Prelude PyText PyJson PyNum UnitOfWork Tables Paging Chain PayLink IdentityDb Sessions Tokens Admin Merchant Templating Lookup Console.
From Stdlib Require Import Ascii.

Module ConsoleFlows.
Import PyNum Console.
Open Scope Z_scope.

(** The HTTP answer of a route: its body, or the status of its error with some envelope. *)
Definition answers {C} (status : C → Z) (o : outcome (exn C) json) (a : http_answer) : Prop :=
  match o with
  | Ok j => a = Response 200 (Some j)
  | Raise (AppError c) => ∃ b, a = Response (status c) (Some b)
  | Raise (PyError _) => ∃ b, a = Response 500 (Some b)
  end.

(** ** paylink-service: [GET /v1/paylinks] *)

(** [PayLinkResponse.from_row], times as numbers. *)
Definition paylink_view (r : PayLink.PayLinkRow) : list (string * json) :=
  [("pl_id", JStr (PayLink.pl_id r)); ("creator", JStr (PayLink.creator_addr r)); ("receiver", JStr (PayLink.receiver_addr r));
   ("owner", JStr (PayLink.owner_addr r)); ("amount", JInt (PayLink.amount r)); ("currency", JStr (PayLink.currency r));
   ("status", JStr (PayLink.status r)); ("expiry", JInt (PayLink.expiry r)); ("usage", JStr (PayLink.usage r));
   ("vote_count", JInt (PayLink.vote_count r)); ("chain_tx_hash", Lookup.ojson (PayLink.chain_tx_hash r));
   ("created_at", JInt (PayLink.created_at r)); ("updated_at", JInt (PayLink.updated_at r)); ("verified_at", Lookup.otime (PayLink.verified_at r))].

(** A query parameter that is present and not empty, mapped. *)
Definition given (f : string → string) (o : option json) : option string :=
  match o with Some (JStr s) => if truthy s then Some (f s) else None | _ => None end.

Section listing.
Context (text_lt : relation string) `{!RelDecision text_lt} `{!PayLink.CursorCodec}.

Definition list_paylinks_route (params : list (string * json)) : PayLink.H json :=
  let limit := match Chain.jfind "limit" params with Some (JInt n) => n | _ => 20 end in
  if negb ((1 <=? limit) && (limit <=? 100)) then raise Chain.INVALID_PAYLOAD
  else
    '(rows, next) ← PayLink.list_ text_lt (given lower (Chain.jfind "creator" params)) (given lower (Chain.jfind "receiver" params))
      (given upper (Chain.jfind "status" params)) (Z.to_nat limit) (match Chain.jfind "cursor" params with Some (JStr t) => Some t | _ => None end);
    mret (JObj [("items", JList ((λ r, JObj (paylink_view r)) <$> rows)); ("next_cursor", Lookup.ojson next)]).

Lemma list_none creator receiver limit d x : PayLink.matching creator receiver None d = [] →
  (request (PayLink.list_ text_lt creator receiver None limit None) d x).1.1 = Ok ([], None).
Proof.
  intros Hm. unfold request, PayLink.list_, PayLink.list_paylinks, mbind, handler_bind, mret, handler_ret, query. simpl. rewrite Hm. done.
Qed.

Definition no_match (k : PayLink.PayLinkRow → string) (v : string) (d : PayLink.pldb) : Prop :=
  ∀ i r, PayLink.paylinks d !! i = Some r → k r ≠ v.

Lemma matching_none (creator receiver : option string) d :
  (∀ r, r ∈ (map_to_list (PayLink.paylinks d)).*2 → PayLink.opt_eq creator (PayLink.creator_addr r) && PayLink.opt_eq receiver (PayLink.receiver_addr r) = false) →
  PayLink.matching creator receiver None d = [].
Proof.
  intros Hn. unfold PayLink.matching. apply elem_of_nil_inv. intros r [Hr Hin]%list_elem_of_filter. rewrite (Hn r Hin) in Hr. done.
Qed.

Section paylinks.
Context (http_get : string → list (string * json) → http_answer) (url : string) (d : PayLink.pldb) (x : PayLink.world).
Hypothesis Hserved : ∀ ps, answers Chain._HTTP_STATUS (request (list_paylinks_route ps) d x).1.1 (http_get (rstrip "/" url +:+ "/v1/paylinks") ps).

Lemma empty_page param q limit : (param = "creator" ∧ no_match PayLink.creator_addr (lower q) d ∨ param = "receiver" ∧ no_match PayLink.receiver_addr (lower q) d) →
  truthy q = true → 1 ≤ limit ≤ 100 →
  get_json http_get url "paylink-service" "/v1/paylinks" [(param, JStr q); ("limit", JInt limit)] =
    Ok (Some [("items", JList []); ("next_cursor", JNull)]).
Proof.
  intros Hp Hq Hl. pose proof (Hserved [(param, JStr q); ("limit", JInt limit)]) as Hs. unfold get_json.
  assert (Hr : (request (list_paylinks_route [(param, JStr q); ("limit", JInt limit)]) d x).1.1 = Ok (JObj [("items", JList []); ("next_cursor", JNull)])).
  { assert (Hnone : ∀ c r, PayLink.matching c r None d = [] →
      (request ('(rows, next) ← PayLink.list_ text_lt c r None (Z.to_nat limit) None;
        mret (JObj [("items", JList ((λ r, JObj (paylink_view r)) <$> rows)); ("next_cursor", Lookup.ojson next)])) d x).1.1 =
      Ok (JObj [("items", JList []); ("next_cursor", JNull)])).
    { intros c r Hm. pose proof (list_none c r (Z.to_nat limit) d x Hm) as Hn. unfold request, mbind, handler_bind in *.
      destruct (PayLink.list_ _ _ _ _ _ _ _) as [[[rows next]|] w]; simpl in *; simplify_eq. done. }
    assert (Hlim : negb ((1 <=? limit) && (limit <=? 100)) = false) by (rewrite (proj2 (Z.leb_le 1 limit)), (proj2 (Z.leb_le limit 100)) by lia; done).
    assert (Hgiven : given lower (Some (JStr q)) = Some (lower q)) by (unfold given; by rewrite Hq).
    destruct Hp as [[-> Hm]|[-> Hm]]; unfold list_paylinks_route;
      [set (ps := [("creator", JStr q); ("limit", JInt limit)]) in *; change (Chain.jfind "creator" ps) with (Some (JStr q)); change (Chain.jfind "receiver" ps) with (@None json)
      |set (ps := [("receiver", JStr q); ("limit", JInt limit)]) in *; change (Chain.jfind "receiver" ps) with (Some (JStr q)); change (Chain.jfind "creator" ps) with (@None json)];
      change (Chain.jfind "limit" ps) with (Some (JInt limit)); change (Chain.jfind "status" ps) with (@None json); change (Chain.jfind "cursor" ps) with (@None json);
      cbv iota zeta; rewrite Hlim, Hgiven; apply Hnone, matching_none;
      intros r ([i r'] & -> & Hi%elem_of_map_to_list)%list_elem_of_fmap; specialize (Hm _ _ Hi); unfold PayLink.opt_eq; simpl;
      rewrite ?andb_true_r; by apply bool_decide_false. }
  rewrite Hr in Hs. simpl in Hs. by rewrite Hs.
Qed.

Lemma status_refused q limit : truthy q = true → upper q ∉ PayLink.status_value <$> PayLink.all_statuses → 1 ≤ limit ≤ 100 →
  get_json http_get url "paylink-service" "/v1/paylinks" [("status", JStr q); ("limit", JInt limit)] = Raise (UpstreamError "paylink-service" (Some 400)).
Proof.
  intros Hq Hst Hl. pose proof (Hserved [("status", JStr q); ("limit", JInt limit)]) as Hs. unfold get_json.
  assert (Hr : (request (list_paylinks_route [("status", JStr q); ("limit", JInt limit)]) d x).1.1 = Raise (AppError Chain.INVALID_QUERY)).
  { assert (Hlim : negb ((1 <=? limit) && (limit <=? 100)) = false) by (rewrite (proj2 (Z.leb_le 1 limit)), (proj2 (Z.leb_le limit 100)) by lia; done).
    assert (Hgiven : given upper (Some (JStr q)) = Some (upper q)) by (unfold given; by rewrite Hq).
    unfold list_paylinks_route. set (ps := [("status", JStr q); ("limit", JInt limit)]) in *. change (Chain.jfind "status" ps) with (Some (JStr q)).
    change (Chain.jfind "limit" ps) with (Some (JInt limit)). cbv iota zeta. rewrite Hlim, Hgiven. unfold request, mbind, handler_bind, PayLink.list_.
    by rewrite bool_decide_true. }
  rewrite Hr in Hs. destruct Hs as [b ->]. done.
Qed.

(** The search for a text that is no id, no party of a PayLink and no status. *)
Lemma free_text_refused q limit : truthy q = true → 1 ≤ limit ≤ 100 → is_paylink_id q = false →
  no_match PayLink.creator_addr (lower q) d → no_match PayLink.receiver_addr (lower q) d → upper q ∉ PayLink.status_value <$> PayLink.all_statuses →
  p_search (HttpPaylinkProvider http_get url "paylink-service") q limit = Raise (UpstreamError "paylink-service" (Some 400)).
Proof.
  intros Hq Hl Hid Hc Hr Hst. cbn [p_search HttpPaylinkProvider]. unfold paylink_search. rewrite Hid. cbn [try_filters].
  rewrite (empty_page "creator" q limit) by auto. cbn [obind]. change (jtruthy (items_of (Some [("items", JList []); ("next_cursor", JNull)]))) with false. cbv iota.
  rewrite (empty_page "receiver" q limit) by auto. cbn [obind]. change (jtruthy (items_of (Some [("items", JList []); ("next_cursor", JNull)]))) with false. cbv iota.
  by rewrite status_refused.
Qed.
End paylinks.
End listing.

(** ** identity-service: [GET /internal/admin/users] *)

Section users.
Context (http_get : string → list (string * json) → http_answer) (url : string) (created : uuid → Z) (d : Identity.iddb) (x : Identity.idworld).

(** identity-service answers the console's calls. *)
Definition users_served : Prop :=
  (∀ i, answers Identity._HTTP_STATUS (request (Lookup.get_user created i) d x).1.1 (http_get (rstrip "/" url +:+ "/internal/admin/users/" +:+ i) [])) ∧
  ∀ q limit, answers Identity._HTTP_STATUS (request (Lookup.search_users_route created q limit) d x).1.1
    (http_get (rstrip "/" url +:+ "/internal/admin/users") [("q", JStr q); ("limit", JInt limit)]).

Definition user_answer (i : string) : outcome perr (option EntityView) :=
  match parse_uuid i with
  | None => Raise (UpstreamError "identity-service" (Some 400))
  | Some u => Ok ((λ row, mkEView "user" i (Lookup.user_view created row)) <$> Identity.users d !! u)
  end.

Lemma user_get_served i : users_served → p_get (HttpUserProvider http_get url "identity-service") i = user_answer i.
Proof.
  intros [Hs _]. specialize (Hs i). cbn [p_get HttpUserProvider]. unfold get_view, get_json, user_answer.
  unfold Lookup.get_user, request, raise, throw, mbind, handler_bind, Sessions.get_user, query in Hs.
  destruct (parse_uuid i) as [u|]; cbn [fst] in Hs; [|by destruct Hs as [b ->]]. simpl in Hs. unfold mbind, handler_bind in Hs. simpl in Hs.
  destruct (Identity.users d !! u) as [row|]; simpl in Hs; [by rewrite Hs|by destruct Hs as [b ->]].
Qed.

Lemma user_hits_of rows : hits_of _user_hit ((λ u, JObj (Lookup.user_view created u)) <$> rows) = Ok ((λ u, _user_hit (Lookup.user_view created u)) <$> rows).
Proof. induction rows as [|u rows IH]; [done|]. rewrite !fmap_cons. cbn [hits_of]. by rewrite IH. Qed.

Lemma user_search_served q limit : users_served → strip q = q → truthy q = true → (String.length q ≤ 256)%nat → 1 ≤ limit ≤ 100 →
  p_search (HttpUserProvider http_get url "identity-service") q limit =
    Ok ((λ u, _user_hit (Lookup.user_view created u)) <$> Lookup.search_users created q (Z.to_nat limit) d).
Proof.
  intros [_ Hs] Hstrip Ht Hlen Hl. specialize (Hs q limit). cbn [p_search HttpUserProvider]. unfold search_by_q, get_json.
  unfold Lookup.search_users_route in Hs. rewrite Hstrip, Ht in Hs.
  assert (Lookup.query_ok q limit = true) as Hok.
  { unfold Lookup.query_ok. rewrite !andb_true_iff, !Nat.leb_le, !Z.leb_le. destruct q; simpl in *; [done|]. lia. }
  rewrite Hok in Hs. unfold request, mbind, handler_bind, query in Hs. simpl in Hs. rewrite Hs. cbn. unfold hits_in, items_of. simpl. apply user_hits_of.
Qed.
End users.

(** ** End to end *)

Section console.
Context (http_get : string → list (string * json) → http_answer) (identity_url merchant_url paylink_url payment_url : string).
Context (post : string → json → option string → http_answer) (sink : AuditSink) (late : string → bool) (limit : Z).
Hypothesis Hpost : never_other post.
Hypothesis Hlimit : 1 ≤ limit ≤ 100.

Definition providers : list Provider :=
  [HttpUserProvider http_get identity_url "identity-service"; HttpMerchantProvider http_get merchant_url "merchant-onboarding";
   HttpPaylinkProvider http_get paylink_url "paylink-service"; HttpPaymentProvider http_get payment_url "payment-orchestrator"].

Definition registry : list (string * Provider) := build_registry http_get identity_url merchant_url paylink_url payment_url.

Lemma providers_distinct : NoDup (entity_type <$> providers).
Proof. apply (bool_decide_unpack _). vm_compute. exact I. Qed.

(** free text is reported as an outage.  With paylink-service healthy and answering, a search for any text that is
    no PayLink id, no creator, no receiver and not the name of a status, such as an email address or a business
    name, has paylinks among its degraded providers: the last filter the console tries is a status, and
    paylink-service refuses a text that is none with 400. *)
Theorem free_text_search_degrades (text_lt : relation string) `{!RelDecision text_lt} `{!PayLink.CursorCodec} (c : Caller) (q : string)
    (d : PayLink.pldb) (x : PayLink.world) (sd : Admin.staff_table) (sx : world)
    (Hserved : ∀ ps, answers Chain._HTTP_STATUS (request (list_paylinks_route text_lt ps) d x).1.1 (http_get (rstrip "/" paylink_url +:+ "/v1/paylinks") ps))
    (Hlen : (2 ≤ String.length (strip q))%nat) (Hid : is_paylink_id (strip q) = false)
    (Hc : no_match PayLink.creator_addr (lower (strip q)) d) (Hr : no_match PayLink.receiver_addr (lower (strip q)) d)
    (Hst : upper (strip q) ∉ PayLink.status_value <$> PayLink.all_statuses) :
  ∃ r, (request (search post sink registry late limit c q) sd sx).1.1 = Ok r ∧ "paylink" ∈ degraded r.
Proof.
  eexists. split; [apply (search_spec post sink late limit Hpost c q providers sd sx providers_distinct Hlen)|]. cbn [degraded].
  apply elem_of_sorted, failed_run. exists (HttpPaylinkProvider http_get paylink_url "paylink-service"). split; [unfold providers; set_solver|]. split; [done|]. right.
  rewrite (free_text_refused text_lt http_get paylink_url d x Hserved); [done|..]; try done.
  apply bool_decide_true. intros E. rewrite E in Hlen. simpl in Hlen. lia.
Qed.

(** what the console shows of a user.  With identity-service answering, an admin's view of a user id shows exactly the
    stored row of that user without its secrets, is not found for an id that no user has, and for a text
    that is no UUID it is reported as an outage of identity-service. *)
Theorem user_view_end_to_end `{!Tokens.PyJwt} (verifier : Tokens.Verifier) (csv : string) (now : Z) (m : Meta) (p : AccessClaims) (granted : list string)
    (created : uuid → Z) (i : string) (d : Identity.iddb) (x : Identity.idworld) (sd : Admin.staff_table) (sx : world)
    (Hserved : users_served http_get identity_url created d x)
    (Htoken : Tokens.admin_principal verifier now (authorization m) = Ok p) (Hscope : Admin.require_admin csv sd "support.read" p = Ok granted) :
  (request (view_route post sink registry verifier csv now m "user" i) sd sx).1.1 =
  match parse_uuid i with
  | None => Raise (AppError Admin.UPSTREAM_UNAVAILABLE)
  | Some u => match Identity.users d !! u with
              | None => Raise (AppError Admin.ENTITY_NOT_FOUND)
              | Some row => Ok (mkEView "user" i (Lookup.user_view created row))
              end
  end.
Proof.
  unfold request, view_route, mbind, handler_bind. rewrite admin_context_pure, Htoken. cbn [as_admin tx]. rewrite Hscope.
  unfold entity_get. change (provider_for "user" registry) with (Some (HttpUserProvider http_get identity_url "identity-service")).
  cbv beta iota. rewrite (user_get_served http_get identity_url created d x i Hserved). unfold user_answer.
  destruct (parse_uuid i) as [u|]; [destruct (Identity.users d !! u)|]; unfold mbind, handler_bind; by rewrite emit_run.
Qed.

End console.

(** ** Witnesses *)

#[local] Existing Instances PayLink.demo_codec PayLink.code_lt_dec Tokens.demo_jwt.

Definition http_of {C} (status : C → Z) (o : outcome (exn C) json) : http_answer :=
  match o with
  | Ok j => Response 200 (Some j)
  | Raise (AppError c) => Response (status c) (Some JNull)
  | Raise (PyError _) => Response 500 (Some JNull)
  end.

Lemma http_of_answers {C} (status : C → Z) o : answers status o (http_of status o).
Proof. destruct o as [j|[c|k]]; simpl; [done|by eexists|by eexists]. Qed.

Definition demo_paylinks (url : string) (ps : list (string * json)) : http_answer :=
  http_of Chain._HTTP_STATUS (request (list_paylinks_route PayLink.code_lt ps) PayLink.listed.1 PayLink.listed.2).1.1.

Lemma drop_prefix_app p l : drop_prefix p (p ++ l) = Some l.
Proof. induction p as [|c p IH]; [done|]. simpl. by rewrite bool_decide_true. Qed.

Definition demo_identity (url : string) (ps : list (string * json)) : http_answer :=
  http_of Identity._HTTP_STATUS
    (request (match ps with
              | [(_, JStr q); (_, JInt limit)] => Lookup.search_users_route Z.of_N q limit
              | _ => Lookup.get_user Z.of_N (match drop_prefix (chars "http://i/internal/admin/users/") (chars url) with Some i => text i | None => "" end)
              end) Lookup.demo_users (Identity.mkIdWorld [] ∅)).1.1.

Lemma demo_users_served : users_served demo_identity "http://i/" Z.of_N Lookup.demo_users (Identity.mkIdWorld [] ∅).
Proof.
  split; [|intros q limit; apply http_of_answers]. intros i. unfold demo_identity.
  change (rstrip "/" "http://i/" +:+ "/internal/admin/users/" +:+ i) with ("http://i/internal/admin/users/" +:+ i).
  rewrite (chars_app "http://i/internal/admin/users/" i), drop_prefix_app, text_chars. apply http_of_answers.
Qed.

Definition demo_caller : Caller := mkCaller demo_claims ["support.read"] None None "t".

Lemma free_text_search_degrades_witness :
  ∃ r, (request (search demo_post LogAuditSink (registry demo_paylinks "i" "m" "p" "o") (λ _, false) 20 demo_caller " ann@x.io ") ∅ (mkWorld [] [])).1.1 = Ok r ∧
    "paylink" ∈ degraded r.
Proof.
  apply (free_text_search_degrades demo_paylinks "i" "m" "p" "o" demo_post LogAuditSink (λ _, false) 20 demo_post_ok ltac:(lia) PayLink.code_lt demo_caller " ann@x.io "
    PayLink.listed.1 PayLink.listed.2 ∅ (mkWorld [] [])).
  - intros ps. apply http_of_answers.
  - vm_compute. lia.
  - reflexivity.
  - apply (map_Forall_lookup (λ _ r, PayLink.creator_addr r ≠ lower (strip " ann@x.io "))). apply (bool_decide_unpack _). vm_compute. exact I.
  - apply (map_Forall_lookup (λ _ r, PayLink.receiver_addr r ≠ lower (strip " ann@x.io "))). apply (bool_decide_unpack _). vm_compute. exact I.
  - apply (bool_decide_unpack _). vm_compute. exact I.
Defined.

Lemma user_view_end_to_end_witness :
  (request (view_route demo_post LogAuditSink (registry demo_identity "http://i/" "m" "p" "o") demo_v "" 700 demo_meta "user" (uuid_text 1)) Admin.demo_staff (mkWorld [] [])).1.1 =
  Ok (mkEView "user" (uuid_text 1) (Lookup.user_view Z.of_N (Lookup.demo_user 1 "A%B@x.io"))).
Proof.
  destruct (Tokens.admin_principal demo_v 700 (authorization demo_meta)) as [p|e] eqn:E; [|by vm_compute in E].
  rewrite (user_view_end_to_end demo_identity "http://i/" "m" "p" "o" demo_post LogAuditSink demo_post_ok demo_v "" 700 demo_meta p Admin.SCOPES Z.of_N
    (uuid_text 1) Lookup.demo_users (Identity.mkIdWorld [] ∅) Admin.demo_staff (mkWorld [] []) demo_users_served E).
  - vm_compute. reflexivity.
  - vm_compute in E. injection E as <-. vm_compute. reflexivity.
Defined.

End ConsoleFlows.
